(* ===== verification/_CoqProject ===== *)
-Q . S2P
Prelude.v
Ring.v
Spinlock.v
ProcQueue.v
Mem.v
Kalloc.v
Vm.v
Uvm.v
Kvm.v
KState.v
Proc.v
Sched.v
Syscall.v
Trap.v
Os.v
Sleeplock.v
Pipe.v
Uart.v
Console.v
Digits.v
Printf.v
Bio.v
BioSpec.v
Virtio.v
Log.v
Crash.v
Fs.v
File.v
FsSpec.v
Content.v
Trunc.v
Iput.v
Icache.v
Dirs.v
Namei.v
FileSpec.v
Sysfile.v
Exec.v
Kernel.v
Boot.v
Ulib.v
Uprintf.v
Grep.v
Cmds.v
Grind.v
Utests.v
Memtests.v
Sh.v
Umalloc.v
Mkfs.v
Machine.v
Reverse.v
Threads.v
Scanf.v
Courses.v
Stadium.v
Server.v
Client.v
