(* ===== verification/Prelude.v ===== *)
(** * Verified models of three operating-systems assignments

    The core of the repository is Assignment 4: the xv6 teaching kernel for RISC-V
    with four schedulers (round robin, FCFS, PBS, MLFQ), system call tracing, and user
    programs.  Assignment 1 reverses files, with system calls only; Assignment 5 has
    four programs of POSIX threads: a course registration, a stadium, and a dictionary
    server with its client.  This library translates that C and C++ code into executable definitions and
    proves what makes each part correct.  Paths below are relative to src/Assignment 4/,
    unless they name another assignment.

    ** How the code is modelled

    C statements are actions of the monad [M S A] of this file, over a state [S]: a
    run returns a value and a state, or fails with an [error]: a kernel panic, a
    page fault, undefined behaviour (an access out of an array, a wrong vararg), or
    [EHang] for a run that does not come back (spinning, sleeping with nobody to
    wake it, or running out of fuel).  [returns m s Q] is total correctness: [m]
    does come back from [s], in a state related by [Q].  Integers are [Z] with the
    wrap-around written out ([u8], [u32], [u64], [i32]).  A component sees its part
    of a larger state through a [lens], so the same code runs in the whole kernel
    and in the small states of the theorems.  Loops over a counter recurse on the
    counter; other loops take fuel, and the theorems give a bound that is enough.

    The threads of Assignment 5 are trees of atomic actions ([Threads.prog]): actions of
    the same monad on the shared data, and the operations of mutexes and condition
    variables.  [Threads.step] lets any thread that is not blocked do its next action;
    a property of all reachable states holds whatever the scheduler does.

    ** Files

    - [Prelude]: param.h, the monad, lenses, loops, arrays, tactics ([zcase],
      [zmod], the [kmon] hints).  [Ring]: byte buffers between two free-running
      counters, shared by pipes, the serial port and the console.
    - [Spinlock] (kernel/spinlock.c, riscv.h): locks and push_off/pop_off as one CPU
      runs them; [Smp] interleaves any number of CPUs access by access.
    - [ProcQueue] (proc.c): the queues of the MLFQ scheduler.
    - [Mem] (string.c): byte-addressed memory.  [Kalloc] (kalloc.c): the page
      allocator, its free list threaded through memory.  [Vm] (vm.c): page tables
      walked in memory, mapping, copies to and from user space; [Uvm]: whole address
      spaces, copied for fork() and given back; [Kvm]: the address space of the kernel.
    - [KState] (proc.h): the process table and the kernel state [kst F], with the
      file layer [F] a parameter (classes [FileOps], [Switch]).  [Proc] (proc.c):
      processes.  [Sched] (proc.c): one round of each scheduler, with swtch() an
      operation of [Switch].  [Syscall] (syscall.c, sysproc.c) and [Trap] (trap.c,
      plic.c) over the interfaces [FileSyscalls], [Printk], [Hart].
    - [Os]: the class by which drivers and file layer see the process layer; it is
      discharged by [os_kst] with the definitions of [Proc], and by [os_solo] for
      one process alone, the state of most theorems about one caller.
    - [Sleeplock] (sleeplock.c), [Pipe] (pipe.c), [Uart] (uart.c, registers the class
      [UartRegs]), [Console] (console.c), [Digits] and [Printf] (printf.c,
      procdump()).
    - [Bio] (bio.c) over the class [Disk]; [BioSpec]: the LRU list as a ring.
      [Virtio] (virtio_disk.c, virtio.h): the implementation of [Disk], over the
      class [VirtioRegs].
    - [Log] (log.c) over the class [Bufs]; [Crash]: crashes and recovery.
    - [Fs] (fs.c, fs.h) and [File] (file.c); their theorems: [FsSpec] (the free map, the table
      of inodes, path elements), [Content] (the bytes of files), [Trunc] and [Iput] (files that
      are given back), [Icache] (the table of inodes and the disk), [Dirs] (directories), [Namei]
      (paths), [FileSpec] (open files); [Sysfile] (sysfile.c, fcntl.h); [Exec] (exec.c, elf.h).
    - [Kernel]: the instances that put all of these together; [kernel_syscall] is
      one system call of the whole kernel.  [Boot] (start.c, main.c): the set-up of a
      hart in machine mode, and main() on any number of harts.
    - [Ulib] (user/ulib.c, the class [Usys] of system calls), [Uprintf]
      (user/printf.c), [Grep] (user/grep.c), [Cmds] (the small programs of user/), [Grind]
      (user/grind.c), [Utests] and [Memtests] (user/usertests.c, forktest.c, stressfs.c), [Sh]
      (user/sh.c), [Umalloc] (user/umalloc.c), [Mkfs] (mkfs/mkfs.c).
    - [Machine]: the file layer from the system calls to a disk with the image of [Mkfs], as
      the [Usys] of one process, so that the models of user programs run on those of the kernel.
    - [Reverse]: the programs of src/Assignment-1, over the host's system calls (the
      class [Unix]).
    - [Threads]: programs of POSIX threads, and a discipline of locks ([Discipline])
      that keeps an invariant and excludes deadlock on mutexes; [Scanf]: what scanf()
      reads.  Over these, of src/Assignment 5: [Courses] (Q1/main.c, Q1/defs.h), [Stadium]
      (Q2/main.c, Q2/defs.h), [Server] (Q3/server.cpp), [Client] (Q3/client.cpp).

    ** What the theorems show

    - Mutual exclusion over all interleavings of any number of CPUs; push_off and
      pop_off nest.
    - The page allocator refines a set of free pages; kinit() builds its list; the
      MLFQ queues refine a list while their operations are used in turn.
    - mappages() makes exactly the mapping asked for; copyin() copies exactly the
      bytes a page table gives.  uvmcopy() gives a forked child the bytes of its parent
      in frames of its own, or takes nothing; uvmfree() gives back every frame and every
      page of the tables.  kvmmake() maps the devices, the text, the RAM, the trampoline
      and 64 guarded stacks, with the permissions each needs, and nothing else.
    - exit() hands over children and wakes the parent; sleep() switches away with
      its channel recorded; wakeup() wakes exactly the sleepers; FCFS and PBS pick
      the process their policy names; run time is charged to running processes only.
    - Pipes and the serial port's buffer are FIFO queues at every value of their
      counters; the serial port drains; the console's buffer refines committed input
      and a line being edited, and a read takes one line; printf() shows what its
      format says, and numbers read back.
    - bget() recycles the least recently used free buffer, brelse() keeps the list
      in that order; a disk transfer moves one block for every device that follows
      the virtio specification, and descriptors are taken all or not at all.
    - A transaction of the log is atomic: whatever prefix of the disk writes
      survives a crash, recovery gives all of it or nothing, and recovering twice is
      recovering once; reservations keep the log from overflowing.
    - balloc() and bfree() are inverse on the bitmap; an inode has one table entry;
      path elements are the maximal runs between slashes; on-disk inodes round trip.
    - writei() and readi() implement files that are lists of bytes, through the direct and
      the indirect blocks, with no block in two places; dirlookup() and dirlink()
      implement a list of entries on top of them; itrunc() frees exactly the blocks of its
      file, and iput() the file itself with its last reference and link.
    - namei() walks the directories on the disk, whatever the table of inodes holds, and leaves
      one reference more; read() and write() on an open file implement a position in a list of
      bytes.  The tests of usertests that need one process only pass on the whole file layer,
      run on the image that mkfs builds, and leave nothing in use.
    - User printf() agrees with the kernel's; grep's matcher decides the language of
      its pattern, and grep and wc compute on the whole input whatever pieces it
      comes in.
    - A hart enters main() with its number in tp and its interrupts delegated; the others
      stay in their waiting loop until hart 0 has run all its statements.
    - The shell's parser reads back every command that is printed in its grammar; the
      user's malloc() hands out memory that is in nobody else's hands; mkfs builds an
      image that holds exactly the given files.
    - File reversal writes exactly what [Reverse.reversed] says, for every file.
    - Assignment 5, in every reachable state of every schedule: a TA's tutorships are
      numbered from 1 on and never more than allowed; a zone never has more spectators
      than the input gives it seats, and a seat is only shown to fans that the zone with that
      letter is for; whenever a thread waits for a mutex, one that
      holds a mutex can go on.  A worker of the server does for each request what an
      abstract dictionary of 100 keys does, in every interleaving in which the others leave
      the dictionary and the connection alone meanwhile.  The client sends each
      request of its input once, in a text that the server reads as that request, and ends after
      a number of actions that only depends on the number of lines.
    - grind's random numbers run through all 2^31 - 2 values before they repeat.
    - Behaviour that is wrong is stated as it is: ProcQueueRemove() loops for ever
      on a queue it does not find the process in, syscall() indexes a table
      before it checks the number, a student can sleep for ever on a course that is over,
      two clients can both insert one key.  These are listed as findings.

    ** Bounds and fuel

    Fuel bounds what no counter bounds: wakeups in vain, bytes until a NUL, rounds
    of a free list, reads until end of file.  Constants that replace a measure are
    explained where they stand: [free_chain] has 9 rounds, one more than there are
    descriptors, [intr_loop] 2^16 + 1, one more than a 16-bit index has values,
    [kill_line] 129, one more than the buffer holds, [digit_loop] 32, one per bit.

    ** Not modelled

    - entry.S, kernelvec.S, swtch.S, trampoline.S, initcode.S, usys.pl, kernel.ld:
      assembly, and what generates it.  Their effect is the operations of [Switch] and
      [Hart].
    - Hardware: the disk, the UART, the PLIC and the RISC-V registers are interfaces.
      Theorems constrain the disk by the virtio specification ([serves]) and the UART
      by its two status bits.
    - The tests of user/usertests.c are programs over the classes [Usys] and [Umem]; those that
      fork are not run in [Machine], which has one process.
    - kernel/ramdisk.c: not in the build; it uses a field that struct buf does not have.
    - Assignment 5: time, so that sleep() does nothing and a timed wait may end at any
      moment; the arithmetic of floating-point probabilities, a parameter; the server's
      log on its standard output; sends that fail or are cut short.
*)
From Stdlib Require Export ZArith Lia Bool.
From stdpp Require Export base tactics numbers option list strings gmap.

#[global] Open Scope Z_scope.

#[global] Arguments Z.testbit : simpl never.
#[global] Arguments Z.ldiff : simpl never.
#[global] Arguments Z.lor : simpl never.
#[global] Arguments Z.land : simpl never.
#[global] Arguments Z.add : simpl never.
#[global] Arguments Z.sub : simpl never.
#[global] Arguments Z.mul : simpl never.
#[global] Arguments Z.opp : simpl never.
#[global] Arguments Z.div : simpl never.
#[global] Arguments Z.modulo : simpl never.
#[global] Arguments Z.pow : simpl never.
#[global] Arguments Z.eqb : simpl never.
#[global] Arguments Z.ltb : simpl never.
#[global] Arguments Z.leb : simpl never.
#[global] Arguments Z.of_nat : simpl never.
#[global] Arguments Z.to_nat : simpl never.

#[global] Arguments seq : simpl never.

(** ** kernel/param.h *)

Definition NPROC : nat := 64.       (* maximum number of processes *)
Definition NCPU : nat := 8.         (* maximum number of CPUs *)
Definition NOFILE : nat := 16.      (* open files per process *)
Definition NFILE : nat := 100.      (* open files per system *)
Definition NINODE : nat := 50.      (* maximum number of active i-nodes *)
Definition NDEV : nat := 10.        (* maximum major device number *)
Definition ROOTDEV : Z := 1.        (* device number of file system root disk *)
Definition MAXARG : nat := 32.      (* max exec arguments *)
Definition MAXOPBLOCKS : Z := 10.   (* max # of blocks any FS op writes *)
Definition LOGSIZE : Z := MAXOPBLOCKS * 3.  (* max data blocks in on-disk log *)
Definition NBUF : nat := 30.        (* MAXOPBLOCKS*3, size of disk block cache *)
Definition FSSIZE : Z := 1000.      (* size of file system in blocks *)
Definition MAXPATH : Z := 128.      (* maximum file path name *)

(** ** Machine integers *)

Definition u8 (x : Z) : Z := x mod 2 ^ 8.
Definition u32 (x : Z) : Z := x mod 2 ^ 32.
Definition u64 (x : Z) : Z := x mod 2 ^ 64.
Definition i32 (x : Z) : Z := (x + 2 ^ 31) mod 2 ^ 32 - 2 ^ 31.

(** ** Strings and variable arguments *)

Definition bytes_of_string (s : string) : list Z :=
  (fun c => Z.of_N (Ascii.N_of_ascii c)) <$> String.list_ascii_of_string s.

Definition nl : string := String (Ascii.ascii_of_nat 10) EmptyString.

(** An argument of printf(): an int, a uint64, a char pointer ([None] is 0) as the
    bytes before its NUL. *)
Inductive varg : Type :=
  | AInt (x : Z)
  | ALong (x : Z)
  | AStr (s : option (list Z)).

(** ** Outcomes of a run of kernel code *)

Inductive error : Type :=
  | EPanic (msg : string)
  | EFault
  | EUndef
  | EHang.

Inductive outcome (S A : Type) : Type :=
  | Ret (a : A) (s : S)
  | Fail (e : error).
Arguments Ret {S A} a s.
Arguments Fail {S A} e.

Definition M (S A : Type) : Type := S -> outcome S A.

Definition ret {S A} (a : A) : M S A := fun s => Ret a s.
Definition bind {S A B} (m : M S A) (k : A -> M S B) : M S B :=
  fun s => match m s with
           | Ret a s' => k a s'
           | Fail e => Fail e
           end.
Definition fail {S A} (e : error) : M S A := fun _ => Fail e.
Definition panic {S A} (msg : string) : M S A := fail (EPanic msg).
Definition get {S} : M S S := fun s => Ret s s.
Definition gets {S A} (f : S -> A) : M S A := fun s => Ret (f s) s.
Definition put {S} (s : S) : M S unit := fun _ => Ret tt s.
Definition modify {S} (f : S -> S) : M S unit := fun s => Ret tt (f s).
Definition when {S} (b : bool) (m : M S unit) : M S unit := if b then m else ret tt.

Declare Scope kmon_scope.
Delimit Scope kmon_scope with kmon.
Notation "x <- m ;; k" := (bind m (fun x => k))
  (at level 100, m at next level, k at level 200, right associativity) : kmon_scope.
Notation "m ;; k" := (bind m (fun _ => k))
  (at level 100, k at level 200, right associativity) : kmon_scope.
#[global] Open Scope kmon_scope.

(** ** Field update *)

Class Settable (R : Type) := eta_of : R -> R.
Class Setter {R T : Type} (p : R -> T) := set_field : T -> R -> R.
Arguments set_field {R T} p {_} v r /.

Ltac derive_setter :=
  lazymatch goal with
  | |- @Setter ?R ?T ?p =>
      let v := fresh "v" in let r := fresh "r" in intros v r;
      let i := constr:(_ : Settable R) in
      let e := eval red in (i r) in
      let e' := eval pattern (p r) in e in
      lazymatch e' with ?f _ => let b := eval cbv beta in (f v) in exact b end
  end.
#[export] Hint Extern 0 (Setter _) => derive_setter : typeclass_instances.

Notation "r <| p := v |>" := (set_field p v r)
  (at level 1, left associativity, format "r  <| p  :=  v |>") : kmon_scope.

(** ** Lenses: running a component's code inside a larger state *)

Record lens (S A : Type) : Type := Lens { lget : S -> A; lset : A -> S -> S }.
Arguments Lens {S A} lget lset.
Arguments lget {S A} l s.
Arguments lset {S A} l a s.

(** The lens of a record field. *)
Definition field {S A} (p : S -> A) `{!Setter p} : lens S A :=
  Lens p (fun a s => s <| p := a |>).

Definition zoom {S T A} (l : lens T S) (m : M S A) : M T A :=
  fun t => match m (lget l t) with
           | Ret a s => Ret a (lset l s t)
           | Fail e => Fail e
           end.

(** ** Loops *)

(** [for_each l body]: [for (i in l) body(i)], no early exit. *)
Fixpoint for_each {S} (l : list nat) (body : nat -> M S unit) : M S unit :=
  match l with
  | [] => ret tt
  | i :: l' => body i ;; for_each l' body
  end.

(** [for_first l body]: the loop leaves with [Some a] as soon as a body does
    ([return], [break] or [goto] out of a C loop). *)
Fixpoint for_first {S A} (l : list nat) (body : nat -> M S (option A)) : M S (option A) :=
  match l with
  | [] => ret None
  | i :: l' =>
      r <- body i ;;
      match r with
      | Some a => ret (Some a)
      | None => for_first l' body
      end
  end.

(** ** Arrays: an access out of range is undefined behaviour *)

Definition znth {A} (l : list A) (i : Z) : option A :=
  if i <? 0 then None else l !! Z.to_nat i.

Definition aget {S A} (l : list A) (i : Z) : M S A :=
  match znth l i with Some x => ret x | None => fail EUndef end.

Definition aset {S A} (l : list A) (i : Z) (x : A) : M S (list A) :=
  match znth l i with
  | Some _ => ret (<[Z.to_nat i := x]> l)
  | None => fail EUndef
  end.

(** ** Total correctness of a run *)

(** [returns m s Q]: from [s] the code neither panics, faults, blocks nor runs
    out of fuel; it returns a value and a state related by [Q]. *)
Definition returns {S A} (m : M S A) (s : S) (Q : A -> S -> Prop) : Prop :=
  match m s with Ret a s' => Q a s' | _ => False end.

Section Returns.
Context {S : Type}.

Lemma returns_ret {A} (a : A) (s : S) (Q : A -> S -> Prop) :
  Q a s -> returns (ret a) s Q.
Proof. done. Qed.

Lemma returns_bind {A B} (m : M S A) (k : A -> M S B) s (Q : B -> S -> Prop) :
  returns m s (fun a s' => returns (k a) s' Q) -> returns (bind m k) s Q.
Proof. unfold returns, bind. by destruct (m s). Qed.

Lemma returns_mono {A} (m : M S A) s (Q Q' : A -> S -> Prop) :
  returns m s Q -> (forall a s', Q a s' -> Q' a s') -> returns m s Q'.
Proof. unfold returns. destruct (m s); naive_solver. Qed.

Lemma returns_inv {A} (m : M S A) s (Q : A -> S -> Prop) :
  returns m s Q -> exists a s', m s = Ret a s' /\ Q a s'.
Proof. unfold returns. destruct (m s) as [a s'|]; naive_solver. Qed.

Lemma returns_inv_unit (m : M S unit) s (Q : S -> Prop) :
  returns m s (fun _ s' => Q s') -> exists s', m s = Ret tt s' /\ Q s'.
Proof. unfold returns. destruct (m s) as [[] s'|]; naive_solver. Qed.

Lemma returns_intro {A} (m : M S A) s a s' (Q : A -> S -> Prop) :
  m s = Ret a s' -> Q a s' -> returns m s Q.
Proof. unfold returns. by intros ->. Qed.

Lemma returns_eq {A} (m m' : M S A) s s' (Q : A -> S -> Prop) :
  m s = m' s' -> returns m' s' Q -> returns m s Q.
Proof. unfold returns. by intros ->. Qed.

Lemma bind_ret {A B} (m : M S A) (k : A -> M S B) s a s' :
  m s = Ret a s' -> bind m k s = k a s'.
Proof. unfold bind. by intros ->. Qed.

Lemma bind_inv {A B} (m : M S A) (k : A -> M S B) s b s'' :
  bind m k s = Ret b s'' -> exists a s', m s = Ret a s' /\ k a s' = Ret b s''.
Proof. unfold bind. destruct (m s) as [a s'|]; naive_solver. Qed.

Lemma Ret_inj {A} (a b : A) (s t : S) : Ret a s = Ret b t -> s = t.
Proof. congruence. Qed.

Lemma bind_assoc {A B C} (m : M S A) (k : A -> M S B) (h : B -> M S C) s :
  bind (bind m k) h s = bind m (fun a => bind (k a) h) s.
Proof. unfold bind. by destruct (m s). Qed.

Lemma bind_ext {A B} (m : M S A) (k k' : A -> M S B) s :
  (forall a s', k a s' = k' a s') -> bind m k s = bind m k' s.
Proof. intros H. unfold bind. by destruct (m s). Qed.

(** Grouping to the left: the first actions of a sequence by one lemma *)
Lemma returns_bind2 {A B C} (m : M S A) (k : M S B) (h : B -> M S C) s (Q : C -> S -> Prop) :
  returns (m ;; k) s (fun b t => returns (h b) t Q) -> returns (m ;; b <- k ;; h b) s Q.
Proof. unfold returns, bind. destruct (m s) as [a t|]; [|done]. by destruct (k t). Qed.

Lemma returns_bind3 {A B C D} (m : M S A) (k : A -> M S B) (l : A -> B -> M S C) (h : C -> M S D) s (Q : D -> S -> Prop) :
  returns (a <- m ;; b <- k a ;; l a b) s (fun c t => returns (h c) t Q) -> returns (a <- m ;; b <- k a ;; c <- l a b ;; h c) s Q.
Proof. unfold returns, bind. destruct (m s) as [a t|]; [|done]. destruct (k a t) as [b u|]; [|done]. by destruct (l a b u). Qed.

(** The loop rule: an invariant indexed by the number of rounds done. *)
Lemma for_each_returns (body : nat -> M S unit) (I : nat -> S -> Prop) n k s :
  I k s ->
  (forall i s', k <= i < k + n -> I i s' ->
     returns (body i) s' (fun _ s'' => I (1 + i) s''))%nat ->
  returns (for_each (seq k n) body) s (fun _ s' => I (k + n)%nat s').
Proof.
  revert k s. induction n as [|n IH]; intros k s Hs Hb; simpl.
  - by rewrite Nat.add_0_r.
  - apply returns_bind. eapply returns_mono; [apply Hb; [lia|done]|].
    intros [] s' Hs'. replace (k + Datatypes.S n)%nat with (Datatypes.S k + n)%nat by lia.
    apply IH; [done|]. intros i s'' ? ?. apply Hb; [lia|done].
Qed.

(** [for_first] that never leaves early. *)
Lemma for_first_none {A} (body : nat -> M S (option A)) (I : nat -> S -> Prop) n k s :
  I k s ->
  (forall i s', k <= i < k + n -> I i s' ->
     returns (body i) s' (fun r s'' => r = None /\ I (1 + i) s''))%nat ->
  returns (for_first (seq k n) body) s (fun r s' => r = None /\ I (k + n)%nat s').
Proof.
  revert k s. induction n as [|n IH]; intros k s Hs Hb; simpl.
  - by rewrite Nat.add_0_r.
  - apply returns_bind. eapply returns_mono; [apply Hb; [lia|done]|].
    intros r s' [-> Hs']. replace (k + Datatypes.S n)%nat with (Datatypes.S k + n)%nat by lia.
    apply IH; [done|]. intros i s'' ? ?. apply Hb; [lia|done].
Qed.

(** [for_first] that leaves at round [j]: the rounds before keep the
    invariant, round [j] establishes the postcondition. *)
Lemma for_first_some {A} (body : nat -> M S (option A)) (I : nat -> S -> Prop)
    (Q : A -> S -> Prop) n k j s :
  (k <= j < k + n)%nat ->
  I k s ->
  (forall i s', k <= i < j -> I i s' ->
     returns (body i) s' (fun r s'' => r = None /\ I (1 + i) s''))%nat ->
  (forall s', I j s' -> returns (body j) s' (fun r s'' => exists a, r = Some a /\ Q a s'')) ->
  returns (for_first (seq k n) body) s (fun r s' => exists a, r = Some a /\ Q a s').
Proof.
  revert k s. induction n as [|n IH]; intros k s Hj Hs Hb Hq; [lia|]. simpl.
  apply returns_bind. destruct (decide (k = j)) as [->|Hne].
  - eapply returns_mono; [by apply Hq|]. intros r s' (a & -> & Ha). by exists a.
  - eapply returns_mono; [apply Hb; [lia|done]|]. intros r s' [-> Hs'].
    apply IH; [lia|done| |done]. intros i s'' ? ?. apply Hb; [lia|done].
Qed.
End Returns.

Create HintDb kmon.
#[export] Hint Resolve returns_ret returns_intro : kmon.

(** Case analysis on the boolean comparisons of a goal or hypothesis. *)
Ltac zcase :=
  repeat match goal with
  | |- context [?x =? ?y] => destruct (Z.eqb_spec x y); try lia
  | |- context [?x <? ?y] => destruct (Z.ltb_spec x y); try lia
  | |- context [?x <=? ?y] => destruct (Z.leb_spec x y); try lia
  | H : context [?x =? ?y] |- _ => destruct (Z.eqb_spec x y); try lia
  | H : context [?x <? ?y] |- _ => destruct (Z.ltb_spec x y); try lia
  | H : context [?x <=? ?y] |- _ => destruct (Z.leb_spec x y); try lia
  end.

(** [lia] after replacing division and modulo by their defining equations. *)
Ltac zmod := Z.to_euclidean_division_equations; lia.

(** ** Lists *)

Lemma znth_nat {A} (l : list A) (i : nat) : znth l (Z.of_nat i) = l !! i.
Proof. unfold znth. zcase. by rewrite Nat2Z.id. Qed.

Lemma znth_some {A} (l : list A) (i : Z) x :
  znth l i = Some x -> 0 <= i < Z.of_nat (length l) /\ l !! Z.to_nat i = Some x.
Proof.
  unfold znth. zcase; intros Hx; [done|]. pose proof (lookup_lt_Some _ _ _ Hx). split; [lia|done].
Qed.

Lemma znth_is_some {A} (l : list A) (i : Z) :
  0 <= i < Z.of_nat (length l) -> exists x, znth l i = Some x /\ l !! Z.to_nat i = Some x.
Proof.
  intros ?. destruct (lookup_lt_is_Some_2 l (Z.to_nat i)) as [x Hx]; [lia|].
  exists x. split; [|done]. unfold znth. zcase. done.
Qed.

Lemma znth_none {A} (l : list A) (i : Z) :
  znth l i = None <-> i < 0 \/ Z.of_nat (length l) <= i.
Proof. unfold znth. zcase; rewrite ?lookup_ge_None; split; intros; try done; lia. Qed.

Lemma aset_ok {S A} (l : list A) i x (s : S) :
  0 <= i < Z.of_nat (length l) -> aset l i x s = Ret (<[Z.to_nat i := x]> l) s.
Proof. intros Hi. unfold aset. by destruct (znth_is_some l i Hi) as (e & -> & _). Qed.

Lemma aget_ok {S A} (l : list A) i x (s : S) : znth l i = Some x -> aget l i s = Ret x s.
Proof. unfold aget. by intros ->. Qed.

Lemma znth_insert {A} (l : list A) i j x :
  0 <= i < Z.of_nat (length l) ->
  znth (<[Z.to_nat i := x]> l) j = if j =? i then Some x else znth l j.
Proof.
  intros Hi. unfold znth. zcase; subst; try done.
  - by rewrite list_lookup_insert_eq by lia.
  - by rewrite list_lookup_insert_ne by lia.
Qed.
