(* ===== verification/Ring.v ===== *)
(** * Ring: byte buffers between two free-running counters

    The kernel keeps its byte queues (pipes, the serial port's output, console
    input) in an array of [N] bytes and two unsigned counters that only ever
    grow; byte number [x] lives in slot [x mod N].  Here are the contents of such
    a buffer as a list, and what storing and taking a byte do to it. *)
From S2P Require Import Prelude.

Section Ring.
Context (N : Z) (HN : 0 < N).

(** Bytes number [r] .. [r + n - 1]. *)
Definition ring_items (data : list Z) (r : Z) (n : nat) : list Z :=
  (fun i => nth (Z.to_nat ((r + Z.of_nat i) mod N)) data 0) <$> seq 0 n.

Lemma length_ring_items data r n : length (ring_items data r n) = n.
Proof. unfold ring_items. by rewrite length_fmap, length_seq. Qed.

(** Only the slot counts: the counters may have wrapped. *)
Lemma ring_items_mod data r r' n : r mod N = r' mod N -> ring_items data r n = ring_items data r' n.
Proof.
  intros H. unfold ring_items. apply list_fmap_ext. intros i x _.
  by rewrite <- (Zplus_mod_idemp_l r), H, Zplus_mod_idemp_l.
Qed.

Lemma ring_items_S data r n : ring_items data r (S n) = nth (Z.to_nat (r mod N)) data 0 :: ring_items data (r + 1) n.
Proof.
  unfold ring_items. change (seq 0 (S n)) with (0%nat :: seq 1 n). cbn [fmap list_fmap]. rewrite Z.add_0_r. f_equal.
  rewrite <- (fmap_S_seq 0), <- list_fmap_compose. apply list_fmap_ext. intros i x _. cbn. do 3 f_equal. lia.
Qed.

(** The newest byte is at the end. *)
Lemma ring_items_snoc data r n :
  ring_items data r (S n) = ring_items data r n ++ [nth (Z.to_nat ((r + Z.of_nat n) mod N)) data 0].
Proof. unfold ring_items. rewrite seq_S, fmap_app. done. Qed.

Lemma ring_items_app data r n k :
  ring_items data r (n + k) = ring_items data r n ++ ring_items data (r + Z.of_nat n) k.
Proof.
  revert r. induction n as [|n IH]; intros r; [by rewrite Z.add_0_r|].
  rewrite Nat.add_succ_l, !ring_items_S, IH. cbn [app]. do 3 f_equal. lia.
Qed.

(** Storing a byte in a slot that holds none of the [n] bytes. *)
Lemma ring_items_store data r n k c : length data = Z.to_nat N -> Z.of_nat n <= k < N ->
  ring_items (<[Z.to_nat ((r + k) mod N) := c]> data) r n = ring_items data r n.
Proof.
  intros Hd Hk. unfold ring_items. apply list_fmap_ext. intros i x Hx. apply lookup_seq in Hx as [-> Hi].
  rewrite !nth_lookup, list_lookup_insert_ne; [done|].
  pose proof (Z.mod_pos_bound (r + k) N HN). pose proof (Z.mod_pos_bound (r + Z.of_nat (0 + i)) N HN).
  intros E%Z2Nat.inj; [|lia|lia].
  pose proof (Z.div_mod (r + k) N ltac:(lia)). pose proof (Z.div_mod (r + Z.of_nat (0 + i)) N ltac:(lia)).
  assert (k - Z.of_nat (0 + i) = N * ((r + k) / N - (r + Z.of_nat (0 + i)) / N)) as Eq by lia.
  destruct (Z_le_gt_dec ((r + k) / N - (r + Z.of_nat (0 + i)) / N) 0); nia.
Qed.

Lemma ring_items_push data r n c : length data = Z.to_nat N -> Z.of_nat n < N ->
  ring_items (<[Z.to_nat ((r + Z.of_nat n) mod N) := c]> data) r (S n) = ring_items data r n ++ [c].
Proof.
  intros Hd Hn. rewrite ring_items_snoc, ring_items_store by lia. do 2 f_equal.
  pose proof (Z.mod_pos_bound (r + Z.of_nat n) N HN).
  rewrite nth_lookup, list_lookup_insert_eq by lia. done.
Qed.
End Ring.
