(* ===== verification/Spinlock.v ===== *)
(** * Spinlock: spin locks, [push_off]/[pop_off] and mutual exclusion

    Models kernel/spinlock.c with the [struct cpu] fields it uses and the
    interrupt-enable bit of kernel/riscv.h.

    - The first part is the code as one CPU runs it, over any state that holds
      a [cpu] and a [spinlock] (through lenses).  It is what the components
      that take locks call.
    - [Module Smp] interleaves the same code, cut at every access to shared
      memory, over any number of CPUs contending for one lock. *)
From S2P Require Import Prelude.

(** ** struct spinlock, struct cpu *)

Record spinlock : Type := mkspinlock {
  lk_locked : bool;            (* uint locked, 0 or 1 *)
  lk_name : string;
  lk_cpu : option nat;         (* the cpu holding the lock; None is 0 *)
}.
#[export] Instance eta_spinlock : Settable spinlock :=
  fun l => mkspinlock (lk_locked l) (lk_name l) (lk_cpu l).

Record cpu : Type := mkcpu {
  c_tp : nat;                  (* the tp register: this core's hartid *)
  c_proc : option nat;         (* index in proc[] of the process running here *)
  c_noff : Z;                  (* depth of push_off() nesting *)
  c_intena : bool;             (* were interrupts enabled before push_off()? *)
  c_sstatus : Z;               (* the sstatus register *)
}.
#[export] Instance eta_cpu : Settable cpu :=
  fun c => mkcpu (c_tp c) (c_proc c) (c_noff c) (c_intena c) (c_sstatus c).

(** ** riscv.h: device interrupts *)

Definition SSTATUS_SIE : Z := Z.shiftl 1 1.

Definition intr_on : M cpu unit :=
  modify (fun c => c <| c_sstatus := Z.lor (c_sstatus c) SSTATUS_SIE |>).

Definition intr_off : M cpu unit :=
  modify (fun c => c <| c_sstatus := Z.ldiff (c_sstatus c) SSTATUS_SIE |>).

Definition intr_enabled (c : cpu) : bool := negb (Z.land (c_sstatus c) SSTATUS_SIE =? 0).

#[global] Arguments intr_enabled : simpl never.

Definition intr_get : M cpu bool := gets intr_enabled.

(** ** push_off, pop_off *)

Definition push_off : M cpu unit :=
  old <- intr_get ;;
  intr_off ;;
  n <- gets c_noff ;;
  when (n =? 0) (modify (fun c => c <| c_intena := old |>)) ;;
  modify (fun c => c <| c_noff := c_noff c + 1 |>).

Definition pop_off : M cpu unit :=
  on <- intr_get ;;
  if on then panic "pop_off - interruptible" else
  n <- gets c_noff ;;
  if n <? 1 then panic "pop_off" else
  modify (fun c => c <| c_noff := c_noff c - 1 |>) ;;
  c <- get ;;
  when ((c_noff c =? 0) && c_intena c) intr_on.

(** ** initlock, holding, acquire, release *)

Definition initlock (name : string) : spinlock := mkspinlock false name None.

Definition holding (l : spinlock) (c : cpu) : bool :=
  lk_locked l && bool_decide (lk_cpu l = Some (c_tp c)).

Section Locking.
Context {S : Type} (cl : lens S cpu).

(** As this CPU sees it: when another CPU holds the lock the loop spins until
    that CPU lets go, which this CPU alone never observes ([EHang]). *)
Definition acquire (lk : lens S spinlock) : M S unit :=
  zoom cl push_off ;;
  s <- get ;;
  if holding (lget lk s) (lget cl s) then panic "acquire" else
  if lk_locked (lget lk s) then fail EHang else
  modify (fun s => lset lk ((lget lk s) <| lk_locked := true |>) s) ;;
  modify (fun s => lset lk ((lget lk s) <| lk_cpu := Some (c_tp (lget cl s)) |>) s).

Definition release (lk : lens S spinlock) : M S unit :=
  s <- get ;;
  if negb (holding (lget lk s) (lget cl s)) then panic "release" else
  modify (fun s => lset lk ((lget lk s) <| lk_cpu := None |>) s) ;;
  modify (fun s => lset lk ((lget lk s) <| lk_locked := false |>) s) ;;
  zoom cl pop_off.
End Locking.

(** A lock held by the CPU whose hartid is [t]. *)
Definition held_by (t : nat) (l : spinlock) : spinlock := mkspinlock true (lk_name l) (Some t).
Definition unheld (l : spinlock) : spinlock := mkspinlock false (lk_name l) None.

(** What a state promises about its CPU and one of its locks: they are two
    independent cells, on the states satisfying [D]. *)
Class LockCell {S} (D : S -> Prop) (cl : lens S cpu) (lk : lens S spinlock) : Prop := {
  lc_dom_cl : forall s c, D s -> D (lset cl c s);
  lc_dom_lk : forall s l, D s -> D (lset lk l s);
  lc_get_lk : forall s c, D s -> lget lk (lset cl c s) = lget lk s;
  lc_get_cl : forall s l, D s -> lget cl (lset lk l s) = lget cl s;
  lc_gs_lk : forall s l, D s -> lget lk (lset lk l s) = l;
  lc_gs_cl : forall s c, D s -> lget cl (lset cl c s) = c;
  lc_ss_lk : forall s l l', D s -> lset lk l (lset lk l' s) = lset lk l s;
  lc_ss_cl : forall s c c', D s -> lset cl c (lset cl c' s) = lset cl c s;
  lc_comm : forall s c l, D s -> lset lk l (lset cl c s) = lset cl c (lset lk l s);
}.

(** ** The effect on the CPU *)

(** [pushed c]: [c] after [push_off].  [touched c]: [c] after a balanced
    [push_off]/[pop_off]; only the saved [intena] of an outermost pair moves. *)
Definition pushed (c : cpu) : cpu :=
  c <| c_sstatus := Z.ldiff (c_sstatus c) SSTATUS_SIE |>
    <| c_intena := if c_noff c =? 0 then intr_enabled c else c_intena c |>
    <| c_noff := c_noff c + 1 |>.

Definition touched (c : cpu) : cpu :=
  if c_noff c =? 0 then c <| c_intena := intr_enabled c |> else c.

(** A CPU between two C statements: nested at most finitely, and with
    interrupts off while nested. *)
Definition cpu_ok (c : cpu) : Prop :=
  0 <= c_noff c /\ (0 < c_noff c -> intr_enabled c = false).

(** ** Interleaved CPUs contending for one lock *)

Module Smp.
(** Where a CPU is in [acquire]/[release]: one constructor per access to
    memory other CPUs can see, plus the two calls on its own [cpu]. *)
Inductive pc : Type :=
  | Idle          (* about to call acquire: push_off() *)
  | AHold1        (* holding(): read lk->locked *)
  | AHold2        (* holding(): read lk->cpu *)
  | ASpin         (* amoswap of 1 into lk->locked *)
  | ASetCpu       (* lk->cpu = mycpu() *)
  | Crit          (* the critical section; next: release *)
  | RHold1        (* holding(): read lk->locked *)
  | RHold2        (* holding(): read lk->cpu *)
  | RClear        (* lk->cpu = 0 *)
  | RUnlock       (* amoswap of 0 into lk->locked *)
  | RPop          (* pop_off() *)
  | Panicked.
#[export] Instance pc_eq_dec : EqDecision pc.
Proof. solve_decision. Defined.

Record smp : Type := mksmp {
  m_lock : spinlock;
  m_cpus : list (pc * cpu);
}.

(** One access of CPU [c] at [p], on the shared lock [l]. *)
Definition access (l : spinlock) (p : pc) (c : cpu) : spinlock * pc * cpu :=
  match p with
  | Idle =>
      match push_off c with Ret _ c' => (l, AHold1, c') | _ => (l, Panicked, c) end
  | AHold1 => (l, if lk_locked l then AHold2 else ASpin, c)
  | AHold2 => (l, if bool_decide (lk_cpu l = Some (c_tp c)) then Panicked else ASpin, c)
  | ASpin => (l <| lk_locked := true |>, if lk_locked l then ASpin else ASetCpu, c)
  | ASetCpu => (l <| lk_cpu := Some (c_tp c) |>, Crit, c)
  | Crit => (l, RHold1, c)
  | RHold1 => (l, if lk_locked l then RHold2 else Panicked, c)
  | RHold2 => (l, if bool_decide (lk_cpu l = Some (c_tp c)) then RClear else Panicked, c)
  | RClear => (l <| lk_cpu := None |>, RUnlock, c)
  | RUnlock => (l <| lk_locked := false |>, RPop, c)
  | RPop =>
      match pop_off c with Ret _ c' => (l, Idle, c') | _ => (l, Panicked, c) end
  | Panicked => (l, Panicked, c)
  end.

Definition step (i : nat) (m : smp) : smp :=
  match m_cpus m !! i with
  | Some (p, c) =>
      let '(l', p', c') := access (m_lock m) p c in
      mksmp l' (<[i := (p', c')]> (m_cpus m))
  | None => m
  end.

(** [run sched m]: the CPUs take their accesses in the order of [sched]. *)
Definition run (sched : list nat) (m : smp) : smp := foldl (fun m i => step i m) m sched.

(** Boot: every CPU outside, CPU [i] with hartid [i]. *)
Definition init (cs : list cpu) : smp :=
  mksmp (initlock "lock") ((fun c => (Idle, c)) <$> cs).

(** The CPU is between winning the swap and giving the lock back. *)
Definition owns (p : pc) : bool :=
  match p with ASetCpu | Crit | RHold1 | RHold2 | RClear | RUnlock => true | _ => false end.

(** The CPU's name is in [lk->cpu]. *)
Definition named (p : pc) : bool :=
  match p with Crit | RHold1 | RHold2 | RClear => true | _ => false end.

Definition in_crit (m : smp) (i : nat) : Prop := exists c, m_cpus m !! i = Some (Crit, c).
End Smp.

(** ** Lemmas *)

Lemma intr_enabled_off c n b t :
  intr_enabled (mkcpu t (c_proc c) n b (Z.ldiff (c_sstatus c) SSTATUS_SIE)) = false.
Proof.
  unfold intr_enabled. simpl. rewrite negb_false_iff. apply Z.eqb_eq.
  apply Z.bits_inj'. intros k Hk.
  rewrite Z.land_spec, Z.ldiff_spec, Z.bits_0. by destruct (Z.testbit _ k), (Z.testbit _ k).
Qed.

Lemma SIE_testbit k : 0 <= k -> Z.testbit SSTATUS_SIE k = (k =? 1).
Proof. intros ?. change SSTATUS_SIE with (2 ^ 1). by rewrite Z.pow2_bits_eqb, Z.eqb_sym. Qed.

Lemma intr_enabled_testbit c : intr_enabled c = Z.testbit (c_sstatus c) 1.
Proof.
  unfold intr_enabled. destruct (Z.testbit (c_sstatus c) 1) eqn:E.
  - apply negb_true_iff, Z.eqb_neq. intros H0.
    assert (Z.testbit (Z.land (c_sstatus c) SSTATUS_SIE) 1 = true) as H1.
    { by rewrite Z.land_spec, E, SIE_testbit by lia. }
    by rewrite H0, Z.bits_0 in H1.
  - apply negb_false_iff, Z.eqb_eq, Z.bits_inj'. intros k Hk.
    rewrite Z.land_spec, Z.bits_0, SIE_testbit by done. zcase; subst; by rewrite ?E, ?andb_false_r.
Qed.

Lemma sstatus_on_off x : Z.testbit x 1 = true -> Z.lor (Z.ldiff x SSTATUS_SIE) SSTATUS_SIE = x.
Proof.
  intros Hx. apply Z.bits_inj'. intros k Hk.
  rewrite Z.lor_spec, Z.ldiff_spec, SIE_testbit by done.
  zcase; subst; by rewrite ?Hx, ?andb_true_r, ?orb_false_r.
Qed.

Lemma sstatus_off x : Z.testbit x 1 = false -> Z.ldiff x SSTATUS_SIE = x.
Proof.
  intros Hx. apply Z.bits_inj'. intros k Hk. rewrite Z.ldiff_spec, SIE_testbit by done.
  zcase; subst; by rewrite ?Hx, ?andb_true_r.
Qed.

Lemma push_off_eq c : push_off c = Ret tt (pushed c).
Proof. unfold push_off, pushed, bind, when. destruct c. simpl. by zcase. Qed.

Lemma pushed_disabled c : intr_enabled (pushed c) = false.
Proof. apply intr_enabled_off. Qed.

Lemma pushed_ok c : cpu_ok c -> cpu_ok (pushed c).
Proof.
  intros [Hn _]. split; simpl; [lia|]. intros _. unfold pushed. simpl. apply intr_enabled_off.
Qed.

Lemma pop_off_pushed c : cpu_ok c -> pop_off (pushed c) = Ret tt (touched c).
Proof.
  intros [Hn Hi]. destruct c as [t p n i x]. simpl in *.
  unfold pop_off, intr_get, gets, bind, get, modify, when, ret, pushed, touched. cbn.
  rewrite (intr_enabled_off (mkcpu t p n i x)). rewrite !intr_enabled_testbit in *. cbn in *.
  replace (n + 1 <? 1) with false by zcase. cbn. replace (n + 1 - 1) with n by lia.
  zcase; subst; cbn.
  - destruct (Z.testbit x 1) eqn:E; unfold intr_on, modify; simpl; repeat f_equal.
    + by apply sstatus_on_off.
    + by apply sstatus_off.
  - repeat f_equal. apply sstatus_off. apply Hi. lia.
Qed.

Lemma touched_noff c : c_noff (touched c) = c_noff c.
Proof. unfold touched. by zcase. Qed.

Lemma touched_enabled c : intr_enabled (touched c) = intr_enabled c.
Proof. unfold touched. by zcase. Qed.

Lemma touched_ok c : cpu_ok c -> cpu_ok (touched c).
Proof. unfold cpu_ok. by rewrite touched_noff, touched_enabled. Qed.

Lemma touched_idemp c : touched (touched c) = touched c.
Proof.
  unfold touched at 1. rewrite touched_noff, touched_enabled.
  unfold touched. destruct c. simpl. by zcase.
Qed.

Lemma pushed_touched c : pushed (touched c) = pushed c.
Proof.
  unfold touched. destruct (Z.eqb_spec (c_noff c) 0) as [E|]; [|done].
  unfold pushed. destruct c. cbn in *. subst. by rewrite Z.eqb_refl.
Qed.

#[export] Hint Resolve pushed_ok touched_ok : kmon.

(** [acquire] of a free lock, and [release] of a lock this CPU holds. *)
Section LockFacts.
Context {S : Type} {D : S -> Prop} {cl : lens S cpu} {lk : lens S spinlock} `{HLC : !LockCell D cl lk}.

Lemma acquire_free s : D s -> lk_locked (lget lk s) = false ->
  acquire cl lk s =
  Ret tt (lset cl (pushed (lget cl s)) (lset lk (held_by (c_tp (lget cl s)) (lget lk s)) s)).
Proof.
  intros HD Hl. destruct HLC as [d1 d2 g1 g2 g3 g4 e1 e2 co].
  unfold acquire, zoom, bind, get, modify. rewrite push_off_eq.
  rewrite g1 by done. unfold holding. rewrite Hl. cbn [andb].
  rewrite !co, !g4, !g1, !g3, !e1 by auto. by destruct (lget lk s).
Qed.

Lemma release_held s c : D s -> cpu_ok c -> lget cl s = pushed c ->
  lk_locked (lget lk s) = true -> lk_cpu (lget lk s) = Some (c_tp c) ->
  release cl lk s = Ret tt (lset cl (touched c) (lset lk (unheld (lget lk s)) s)).
Proof.
  intros HD Hc Ecl Hl Hh. destruct HLC as [d1 d2 g1 g2 g3 g4 e1 e2 co].
  unfold release, zoom, bind, get, modify, holding.
  rewrite Hl, Hh, Ecl. cbn [c_tp pushed set_field andb]. rewrite bool_decide_eq_true_2 by done.
  cbn [negb]. rewrite !g3, !e1, !g2 by auto. rewrite Ecl, pop_off_pushed by done.
  by destruct (lget lk s).
Qed.
End LockFacts.

(** Nested pairs: [iter_push n], then [iter_pop n]. *)
Fixpoint iter_run (n : nat) (m : M cpu unit) : M cpu unit :=
  match n with O => ret tt | S n' => m ;; iter_run n' m end.

Module SmpFacts.
Import Smp.

(** [c] is the CPU [b] booted as, at place [p] of the protocol. *)
Definition cpu_at (b : cpu) (p : pc) (c : cpu) : Prop :=
  exists c0, cpu_ok c0 /\ c_tp c0 = c_tp b /\ c_noff c0 = c_noff b /\
    c_sstatus c0 = c_sstatus b /\ c = if bool_decide (p = Idle) then c0 else pushed c0.

Record inv (bs : list cpu) (owner : option nat) (m : smp) : Prop := {
  inv_cpus : forall i p c, m_cpus m !! i = Some (p, c) ->
    p <> Panicked /\ owns p = bool_decide (owner = Some i) /\
    exists b, bs !! i = Some b /\ c_tp b = i /\ cpu_at b p c;
  inv_owner : forall i, owner = Some i -> exists p c, m_cpus m !! i = Some (p, c) /\
    lk_cpu (m_lock m) = if named p then Some i else None;
  inv_locked : lk_locked (m_lock m) = bool_decide (is_Some owner);
  inv_free : owner = None -> lk_cpu (m_lock m) = None;
}.

Definition boot_ok (bs : list cpu) : Prop :=
  forall i b, bs !! i = Some b -> c_tp b = i /\ cpu_ok b.

Lemma inv_init bs : boot_ok bs -> inv bs None (init bs).
Proof.
  intros Hb. constructor; try done. simpl. intros i p c Hi.
  apply list_lookup_fmap_Some in Hi as (b & [= -> ->] & Hi). destruct (Hb _ _ Hi) as [Ht Hok].
  split_and?; try done. exists b. split_and?; try done. by exists b.
Qed.

(** One access: the CPU's own part moves as [cpu_at] says, and the lock as
    the owner does. *)
Lemma cpu_at_step b p c p' :
  cpu_at b p c -> p <> Idle -> p' <> Idle -> cpu_at b p' c.
Proof.
  intros (c0 & ? & ? & ? & ? & ->) ? ?. exists c0. split_and?; try done.
  by rewrite !bool_decide_eq_false_2.
Qed.

Lemma cpu_at_push b c : cpu_at b Idle c -> push_off c = Ret tt (pushed c) /\ cpu_at b AHold1 (pushed c).
Proof. intros (c0 & ? & ? & ? & ? & ->). split; [apply push_off_eq|]. exists c0. by split_and?. Qed.

Lemma cpu_at_pop b c : cpu_at b RPop c -> exists c', pop_off c = Ret tt c' /\ cpu_at b Idle c'.
Proof.
  intros (c0 & Hok & ? & ? & ? & ->). exists (touched c0). simpl. rewrite pop_off_pushed by done.
  split; [done|]. exists (touched c0).
  split; [by apply touched_ok|]. split_and?; try done; unfold touched; by zcase.
Qed.

Lemma cpu_at_tp b p c : cpu_at b p c -> c_tp c = c_tp b.
Proof. intros (c0 & _ & E & _ & _ & ->). by case_bool_decide. Qed.

Lemma inv_update bs o o' m i p c b l' p' c' :
  inv bs o m -> m_cpus m !! i = Some (p, c) -> bs !! i = Some b ->
  cpu_at b p' c' -> p' <> Panicked -> owns p' = bool_decide (o' = Some i) ->
  (forall j, j <> i -> o' = Some j <-> o = Some j) ->
  lk_locked l' = bool_decide (is_Some o') -> (o' = None -> lk_cpu l' = None) ->
  (o' = Some i -> lk_cpu l' = if named p' then Some i else None) ->
  (forall j, j <> i -> o' = Some j -> lk_cpu l' = lk_cpu (m_lock m)) ->
  inv bs o' (mksmp l' (<[i := (p', c')]> (m_cpus m))).
Proof.
  intros [Hc Ho Hl Hf] Hi Hbi Hat Hp Hown Hj Hl' Hf' Hi' Hj'.
  pose proof (lookup_lt_Some _ _ _ Hi) as Hlt.
  constructor; simpl; try done.
  - intros j q d Hq. destruct (decide (j = i)) as [->|Hne].
    + rewrite list_lookup_insert_eq in Hq by done. injection Hq as <- <-.
      destruct (Hc _ _ _ Hi) as (_ & _ & b' & Hb' & Ht & _).
      split_and!; [done|done|]. exists b. by simplify_eq.
    + rewrite list_lookup_insert_ne in Hq by done.
      destruct (Hc _ _ _ Hq) as (? & Hq' & ?). split_and!; [done| |done].
      rewrite Hq'. apply bool_decide_ext. symmetry. by apply Hj.
  - intros j Hoj. destruct (decide (j = i)) as [->|Hne].
    + exists p', c'. by rewrite list_lookup_insert_eq, Hi' by done.
    + destruct (Ho j) as (q & d & Hq & Hlk); [by apply Hj|].
      exists q, d. rewrite list_lookup_insert_ne by done. split; [done|]. by rewrite (Hj' j).
Qed.

(** An access that does not change who owns the lock. *)
Lemma inv_same bs o m i p c b l' p' c' :
  inv bs o m -> m_cpus m !! i = Some (p, c) -> bs !! i = Some b ->
  cpu_at b p' c' -> p' <> Panicked -> owns p' = owns p ->
  lk_locked l' = lk_locked (m_lock m) ->
  (o = Some i -> lk_cpu l' = if named p' then Some i else None) ->
  (o <> Some i -> lk_cpu l' = lk_cpu (m_lock m)) ->
  inv bs o (mksmp l' (<[i := (p', c')]> (m_cpus m))).
Proof.
  intros Hinv Hi Hb Hat Hp Hown Hl Hme Hoth. pose proof Hinv as [Hc Ho Hlk Hf].
  eapply inv_update; [exact Hinv|exact Hi|exact Hb|exact Hat|exact Hp| |done|congruence| |exact Hme|].
  - rewrite Hown. by destruct (Hc _ _ _ Hi) as (_ & -> & _).
  - intros ->. rewrite Hoth by done. by apply Hf.
  - intros j Hne ->. apply Hoth. congruence.
Qed.

Lemma inv_step bs o m i : inv bs o m -> exists o', inv bs o' (step i m).
Proof.
  intros Hinv. unfold step. destruct (m_cpus m !! i) as [[p c]|] eqn:Hi; [|by exists o].
  pose proof Hinv as [Hc Ho Hl Hf].
  destruct (Hc _ _ _ Hi) as (Hnp & Hown & b & Hb & Ht & Hat).
  assert (Htp : c_tp c = i) by (by rewrite (cpu_at_tp _ _ _ Hat)).
  destruct (decide (o = Some i)) as [Heq|Hneq].
  - (* the owner moves *)
    destruct (Ho i Heq) as (p2 & c2 & E2 & Hlk). rewrite Hi in E2. injection E2 as <- <-.
    rewrite bool_decide_eq_true_2 in Hown by done.
    rewrite Heq, bool_decide_eq_true_2 in Hl by done.
    destruct p; try done; simpl in Hlk |- *; rewrite ?Hl, ?Hlk, ?Htp, ?bool_decide_eq_true_2 by done.
    6: { exists None. eapply inv_update; eauto using cpu_at_step; try done.
         intros j ?. split; congruence. }
    all: exists o; eapply inv_same; eauto using cpu_at_step; by intros.
  - (* another CPU moves *)
    rewrite bool_decide_eq_false_2 in Hown by done.
    destruct p; try done; simpl.
    + destruct (cpu_at_push _ _ Hat) as [-> ?]. exists o. eapply inv_same; eauto; by intros.
    + exists o. destruct (lk_locked _); eapply inv_same; eauto using cpu_at_step; by intros.
    + exists o. rewrite bool_decide_eq_false_2.
      { eapply inv_same; eauto using cpu_at_step; by intros. }
      rewrite Htp. destruct o as [j|]; [|by rewrite Hf].
      destruct (Ho j) as (q & d & _ & ->); [done|]. destruct (named q); congruence.
    + destruct o as [j|].
      * exists (Some j). simpl in Hl. rewrite Hl.
        eapply inv_same; eauto using cpu_at_step; by intros.
      * exists (Some i). simpl in Hl. rewrite Hl.
        eapply inv_update; eauto using cpu_at_step; simpl; try done.
        -- by rewrite bool_decide_eq_true_2.
        -- intros j ?. split; congruence.
    + destruct (cpu_at_pop _ _ Hat) as (c' & -> & ?). exists o. eapply inv_same; eauto; by intros.
Qed.

Lemma inv_run bs sched o m : inv bs o m -> exists o', inv bs o' (run sched m).
Proof.
  revert o m. induction sched as [|i l IH]; intros o m Hm; simpl; [by exists o|].
  destruct (inv_step _ _ _ i Hm) as [o' Ho']. by eapply IH.
Qed.
End SmpFacts.

Lemma iter_run_snoc n m c : iter_run (S n) m c = (iter_run n m ;; m) c.
Proof.
  revert c. induction n as [|n IH]; intros c; cbn [iter_run]; unfold bind, ret in *.
  - by destruct (m c) as [[] c'|].
  - destruct (m c) as [[] c'|]; [|done]. apply IH.
Qed.

Lemma touched_pushed c : cpu_ok c -> touched (pushed c) = pushed c.
Proof. intros [? _]. unfold touched. destruct c; simpl in *. by zcase. Qed.

(** ** Properties *)

(** [push_off] and [pop_off] are matched: after [n] nested [push_off]s it
    takes exactly [n] [pop_off]s to come back, no [pop_off] panics, and the
    interrupt-enable bit and the nesting depth are then what they were
    ([touched] only records the saved [intena] of the outermost pair). *)
Theorem push_pop_matched (n : nat) (c : cpu) (H : cpu_ok c) :
  (iter_run n push_off ;; iter_run n pop_off) c = Ret tt (if decide (n = O) then c else touched c).
Proof.
  revert c H. induction n as [|n IH]; intros c Hc; [done|].
  unfold bind. change (iter_run (S n) push_off c) with ((push_off ;; iter_run n push_off) c).
  rewrite (bind_ret _ _ _ _ _ (push_off_eq c)).
  specialize (IH _ (pushed_ok _ Hc)). unfold bind in IH.
  destruct (iter_run n push_off (pushed c)) as [[] c'|]; try done.
  rewrite iter_run_snoc. rewrite (bind_ret _ _ _ _ _ IH).
  rewrite touched_pushed by done. case_decide; by rewrite pop_off_pushed.
Qed.

Definition boot_cpu (i : nat) : cpu := mkcpu i None 0 false SSTATUS_SIE.

Lemma push_pop_matched_witness :
  (iter_run 3 push_off ;; iter_run 3 pop_off) (boot_cpu 0)
  = Ret tt (mkcpu 0 None 0 true SSTATUS_SIE).
Proof.
  rewrite (push_pop_matched 3 (boot_cpu 0)); [reflexivity|].
  split; [done|]. intros ?. simpl in *. lia.
Defined.

(** C1: mutual exclusion.  Whatever the order in which the CPUs' accesses are
    interleaved, no two CPUs are in the critical section of one lock, no
    [acquire] or [release] panics, a CPU that is inside runs with interrupts
    disabled, and a CPU that is outside again has the nesting depth and the
    interrupt state it booted with. *)
Theorem smp_mutual_exclusion (bs : list cpu) (sched : list nat) (H : SmpFacts.boot_ok bs) :
  let m := Smp.run sched (Smp.init bs) in
  (forall i j, Smp.in_crit m i -> Smp.in_crit m j -> i = j) /\
  (forall i p c, Smp.m_cpus m !! i = Some (p, c) ->
     p <> Smp.Panicked /\
     (p <> Smp.Idle -> intr_enabled c = false) /\
     (p = Smp.Idle -> exists b, bs !! i = Some b /\
        c_noff c = c_noff b /\ c_sstatus c = c_sstatus b)).
Proof.
  simpl. destruct (SmpFacts.inv_run bs sched None _ (SmpFacts.inv_init _ H)) as [o [Hc _ _ _]].
  split.
  - intros i j [ci Hi] [cj Hj].
    destruct (Hc _ _ _ Hi) as (_ & Ei & _), (Hc _ _ _ Hj) as (_ & Ej & _).
    simpl in Ei, Ej. symmetry in Ei, Ej. apply bool_decide_eq_true in Ei, Ej. congruence.
  - intros i p c Hi. destruct (Hc _ _ _ Hi) as (Hp & _ & b & Hb & _ & c0 & Hok & _ & ? & ? & ->).
    split; [done|]. split; intros Hq.
    + rewrite bool_decide_eq_false_2 by done. apply pushed_disabled.
    + rewrite bool_decide_eq_true_2 by done. by exists b.
Qed.

(** Two CPUs; the second spins while the first is inside, then gets in. *)
Definition two_cpus : list cpu := [boot_cpu 0; boot_cpu 1].
Definition contended : list nat := [0; 0; 0; 1; 1; 1; 1; 0; 0; 0; 0; 0; 0; 0; 1; 1]%nat.

Lemma smp_mutual_exclusion_witness :
  fst <$> Smp.m_cpus (Smp.run contended (Smp.init two_cpus)) = [Smp.Idle; Smp.Crit] /\
  (forall i j, Smp.in_crit (Smp.run contended (Smp.init two_cpus)) i ->
     Smp.in_crit (Smp.run contended (Smp.init two_cpus)) j -> i = j).
Proof.
  split; [vm_compute; reflexivity|].
  apply (smp_mutual_exclusion two_cpus contended).
  intros [|[|i]] b Hb; [| |by destruct i]; injection Hb as <-.
  all: split; [done|]; split; [done|]; intros ?; simpl in *; lia.
Defined.
