(* ===== verification/ProcQueue.v ===== *)
(** * ProcQueue: the circular process queues of the MLFQ scheduler

    Models [struct _ProcQueue] (kernel/proc.h) and [pq_init],
    [ProcQueueEnqueue], [ProcQueueDequeue], [ProcQueueRemove]
    (kernel/proc.c).  A [struct proc *] is an index in [proc[]], the null
    pointer is [None].  The specification is a list of pointers, oldest first. *)
From S2P Require Import Prelude.

Record ProcQueue : Type := mkpq {
  front : Z;
  rear : Z;
  qlist : list (option nat);    (* struct proc *list[2*NPROC] *)
}.
#[export] Instance eta_pq : Settable ProcQueue := fun q => mkpq (front q) (rear q) (qlist q).

(** The body of the loop of [pq_init] on one queue. *)
Definition pq_init1 (q : ProcQueue) : ProcQueue :=
  q <| front := 0 |> <| rear := 0 |> <| qlist := replicate (2 * NPROC) None |>.

Definition pq_init (mfq : list ProcQueue) : list ProcQueue := pq_init1 <$> mfq.

Definition ProcQueueEnqueue (p : option nat) : M ProcQueue unit :=
  q <- get ;;
  when (front q =? -1) (modify (fun q => q <| front := front q + 1 |>)) ;;
  modify (fun q => q <| rear := Z.rem (rear q + 1) (Z.of_nat NPROC) |>) ;;
  q <- get ;;
  l <- aset (qlist q) (rear q) p ;;
  modify (fun q => q <| qlist := l |>).

Definition ProcQueueDequeue : M ProcQueue (option nat) :=
  q <- get ;;
  if front q =? -1 then ret None else
  r <- aget (qlist q) (front q) ;;
  if front q =? rear q then
    l <- aset (qlist q) (front q) None ;;
    modify (fun q => q <| qlist := l |>) ;;
    modify (fun q => q <| rear := -1 |> <| front := -1 |>) ;;
    ret r
  else
    modify (fun q => q <| front := Z.rem (front q + 1) (Z.of_nat NPROC) |>) ;;
    ret r.

(** [q->list[i]->pid]: [pid_of] reads the process table. *)
Definition entry_pid {S} (pid_of : nat -> Z) (e : option nat) : M S Z :=
  match e with Some p => ret (pid_of p) | None => fail EFault end.

(** The [while] loop of [ProcQueueRemove], run for at most [fuel] rounds; the
    loop counter [i] is the [int i] of the code, which no round changes. *)
Fixpoint remove_loop (fuel : nat) (pid_of : nat -> Z) (i pid : Z) : M ProcQueue unit :=
  match fuel with
  | O => fail EHang
  | S fuel' =>
      q <- get ;;
      if i <? rear q then
        e <- aget (qlist q) i ;;
        epid <- entry_pid pid_of e ;;
        when (epid =? pid) (
          e' <- aget (qlist q) (i + 1) ;;
          l <- aset (qlist q) i e' ;;
          l' <- aset l (i + 1) e ;;
          modify (fun q => q <| qlist := l' |>)) ;;
        remove_loop fuel' pid_of i pid
      else ret tt
  end.

Definition ProcQueueRemove (fuel : nat) (pid_of : nat -> Z) (pid : Z) : M ProcQueue unit :=
  q <- get ;;
  remove_loop fuel pid_of (front q) pid ;;
  q <- get ;;
  l <- aset (qlist q) (rear q) None ;;
  modify (fun q => q <| qlist := l |>) ;;
  modify (fun q => q <| rear := rear q - 1 |>).

(** ** Specification: the queue as a list *)

Definition nprocZ : Z := Z.of_nat NPROC.

(** How many entries the ring holds. *)
Definition qlen (q : ProcQueue) : nat :=
  if front q =? -1 then O else Z.to_nat ((rear q - front q) mod nprocZ + 1).

Definition slot (q : ProcQueue) (k : nat) : option nat :=
  match znth (qlist q) ((front q + Z.of_nat k) mod nprocZ) with
  | Some e => e | None => None end.

(** The queued pointers, oldest first. *)
Definition contents (q : ProcQueue) : list (option nat) := slot q <$> seq 0 (qlen q).

(** Either the empty representation, or two positions inside the first [NPROC]
    slots of the array. *)
Definition pq_wf (q : ProcQueue) : Prop :=
  length (qlist q) = (2 * NPROC)%nat /\
  ((front q = -1 /\ rear q = -1) \/ (0 <= front q < nprocZ /\ 0 <= rear q < nprocZ)).

(** ** Operation sequences *)

Inductive qop : Type := Enq (p : option nat) | Deq.

(** The code, collecting what the dequeues return. *)
Fixpoint run_ops (ops : list qop) : M ProcQueue (list (option nat)) :=
  match ops with
  | [] => ret []
  | Enq p :: ops' => ProcQueueEnqueue p ;; run_ops ops'
  | Deq :: ops' => r <- ProcQueueDequeue ;; rs <- run_ops ops' ;; ret (r :: rs)
  end.

(** The specification: a first-in first-out list; [None] when it would have to
    hold more than [NPROC] entries. *)
Fixpoint spec_ops (ops : list qop) (l : list (option nat)) :
    option (list (option nat) * list (option nat)) :=
  match ops with
  | [] => Some ([], l)
  | Enq p :: ops' =>
      if decide (length l < NPROC)%nat then spec_ops ops' (l ++ [p]) else None
  | Deq :: ops' =>
      match l with
      | [] => '(rs, l') ← spec_ops ops' []; Some (None :: rs, l')
      | x :: l1 => '(rs, l') ← spec_ops ops' l1; Some (x :: rs, l')
      end
  end.

(** ** Lemmas *)

Lemma nprocZ_eq : nprocZ = 64.
Proof. reflexivity. Qed.

Lemma rem_nproc x : 0 <= x -> Z.rem x (Z.of_nat NPROC) = x mod 64.
Proof. intros. by apply Z.rem_mod_nonneg. Qed.

Lemma wf_len q : pq_wf q -> Z.of_nat (length (qlist q)) = 128.
Proof. by intros [-> _]. Qed.

Lemma wf_cases q : pq_wf q ->
  (front q = -1 /\ rear q = -1) \/ (0 <= front q < 64 /\ 0 <= rear q < 64).
Proof. intros [_ H]. exact H. Qed.

Lemma wf_index q i : pq_wf q -> 0 <= i < 128 ->
  exists e, znth (qlist q) i = Some e /\ qlist q !! Z.to_nat i = Some e.
Proof. intros [Hl _] Hi. apply znth_is_some. rewrite Hl. exact Hi. Qed.

Lemma enqueue_eq p q : pq_wf q ->
  ProcQueueEnqueue p q = Ret tt (mkpq (if front q =? -1 then 0 else front q)
    ((rear q + 1) mod 64) (<[Z.to_nat ((rear q + 1) mod 64) := p]> (qlist q))).
Proof.
  intros Hwf. pose proof (wf_len _ Hwf) as Hl. pose proof (wf_cases _ Hwf) as Hfr.
  unfold ProcQueueEnqueue, bind, get, modify, when, ret.
  destruct (front q =? -1) eqn:E; cbn; rewrite rem_nproc by lia; 
    (rewrite aset_ok by zmod); cbn; repeat f_equal.
  apply Z.eqb_eq in E. lia.
Qed.

Lemma dequeue_empty q : front q = -1 -> ProcQueueDequeue q = Ret None q.
Proof. intros E. unfold ProcQueueDequeue, bind, get, ret. rewrite E. reflexivity. Qed.

Lemma dequeue_eq q r : pq_wf q -> front q <> -1 -> znth (qlist q) (front q) = Some r ->
  ProcQueueDequeue q = Ret r
    (if front q =? rear q then mkpq (-1) (-1) (<[Z.to_nat (front q) := None]> (qlist q))
     else mkpq ((front q + 1) mod 64) (rear q) (qlist q)).
Proof.
  intros Hwf Hne Hr. pose proof (wf_len _ Hwf) as Hl. pose proof (wf_cases _ Hwf) as Hfr.
  unfold ProcQueueDequeue, bind, get, modify, when, ret.
  rewrite (proj2 (Z.eqb_neq _ _) Hne), (aget_ok _ _ _ _ Hr).
  destruct (front q =? rear q) eqn:E; cbn.
  - rewrite aset_ok by lia. reflexivity.
  - by rewrite rem_nproc by lia.
Qed.

Lemma qlen_empty q : front q = -1 -> qlen q = 0%nat.
Proof. unfold qlen. by intros ->. Qed.

Lemma qlen_nonempty q : pq_wf q -> front q <> -1 ->
  Z.of_nat (qlen q) = (rear q - front q) mod 64 + 1.
Proof. intros _ Hne. unfold qlen. change nprocZ with 64. zcase. zmod. Qed.

Lemma contents_empty q : pq_wf q -> contents q = [] <-> front q = -1.
Proof.
  intros Hwf. split.
  - intros Hc. destruct (decide (front q = -1)); [done|]. exfalso.
    apply (f_equal length) in Hc. unfold contents in Hc. rewrite length_fmap, length_seq in Hc.
    pose proof (qlen_nonempty q Hwf). cbn in Hc. zmod.
  - intros E. unfold contents. by rewrite (qlen_empty _ E).
Qed.

Lemma qlen_bound q : pq_wf q -> (qlen q <= NPROC)%nat.
Proof.
  intros Hwf. destruct (decide (front q = -1)) as [E|E].
  - rewrite (qlen_empty _ E). lia.
  - pose proof (qlen_nonempty q Hwf E). unfold NPROC. zmod.
Qed.

Lemma length_contents q : length (contents q) = qlen q.
Proof. unfold contents. by rewrite length_fmap, length_seq. Qed.


Lemma slot_some q k : pq_wf q -> 
  znth (qlist q) ((front q + Z.of_nat k) mod 64) = Some (slot q k).
Proof.
  intros Hwf. unfold slot. change nprocZ with 64.
  destruct (wf_index q ((front q + Z.of_nat k) mod 64) Hwf) as (e & -> & _); [zmod|done].
Qed.

Lemma enqueue_wf p q q' : pq_wf q -> ProcQueueEnqueue p q = Ret tt q' -> pq_wf q'.
Proof.
  intros Hwf. rewrite enqueue_eq by done. intros [= <-].
  pose proof (wf_cases _ Hwf) as Hfr. split; cbn.
  - rewrite length_insert. apply Hwf.
  - right. change nprocZ with 64. zcase; zmod.
Qed.

Lemma enqueue_contents p q q' : pq_wf q -> (length (contents q) < NPROC)%nat ->
  ProcQueueEnqueue p q = Ret tt q' -> contents q' = contents q ++ [p].
Proof.
  intros Hwf Hlen Hq'. pose proof (enqueue_wf _ _ _ Hwf Hq') as Hwf'.
  rewrite length_contents in Hlen. rewrite enqueue_eq in Hq' by done. injection Hq' as Hq'.
  pose proof (wf_len _ Hwf) as Hl. pose proof (wf_cases _ Hwf) as Hfr.
  assert (Hn : qlen q' = S (qlen q) /\
     (forall k, (k <= qlen q)%nat -> slot q' k = if decide (k = qlen q) then p else slot q k)).
  { destruct (decide (front q = -1)) as [E|E].
    - destruct Hfr as [[_ Hr]|]; [|lia]. 
      assert (q' = mkpq 0 0 (<[Z.to_nat 0 := p]> (qlist q))) as -> by (by rewrite <- Hq', E, Hr).
      rewrite (qlen_empty _ E). split; [done|].
      intros k Hk. assert (k = 0%nat) as -> by lia.
      unfold slot. cbn [front rear qlist].
      change ((0 + Z.of_nat 0) mod nprocZ) with 0. by rewrite znth_insert by lia.
    - destruct Hfr as [|Hfr]; [lia|].
      pose proof (qlen_nonempty _ Hwf E) as Hlq. assert (front q' <> -1) as E' by (subst q'; cbn; zcase).
      pose proof (qlen_nonempty _ Hwf' E') as Hlq'.
      assert (qlen q' = S (qlen q)) as Hn.
      { subst q'. cbn in *. unfold NPROC in *. zcase. zmod. }
      split; [done|]. intros k Hk. subst q'. unfold slot. cbn in *. zcase.
      rewrite znth_insert by zmod. case_decide; subst.
      + change nprocZ with 64 in *. zcase; [done|]. zmod.
      + change nprocZ with 64 in *. zcase; [|done]. zmod. }
  destruct Hn as [Hn Hs]. unfold contents. rewrite Hn, seq_S, fmap_app. cbn. f_equal.
  - apply list_fmap_ext. intros i k Hk. apply lookup_seq in Hk. rewrite Hs by lia.
    by rewrite decide_False by lia.
  - f_equal. rewrite Hs by lia. by rewrite decide_True.
Qed.

Lemma contents_cons q : pq_wf q -> front q <> -1 ->
  exists n, qlen q = S n /\ contents q = slot q 0 :: ((fun k => slot q (S k)) <$> seq 0 n).
Proof.
  intros Hwf E. pose proof (qlen_nonempty _ Hwf E) as Hq.
  destruct (qlen q) as [|n] eqn:En; [zmod|]. exists n. split; [done|].
  unfold contents. rewrite En, <- cons_seq. cbn. f_equal.
  rewrite <- fmap_S_seq, <- list_fmap_compose. done.
Qed.

Lemma dequeue_contents q : pq_wf q ->
  match contents q with
  | [] => ProcQueueDequeue q = Ret None q
  | x :: xs => exists q', ProcQueueDequeue q = Ret x q' /\ pq_wf q' /\ contents q' = xs
  end.
Proof.
  intros Hwf. destruct (decide (front q = -1)) as [E|E].
  { rewrite (proj2 (contents_empty q Hwf) E). by apply dequeue_empty. }
  destruct (contents_cons q Hwf E) as (n & Hn & ->).
  pose proof (qlen_nonempty _ Hwf E) as Hq. pose proof (wf_len _ Hwf) as Hl.
  destruct (wf_cases _ Hwf) as [|Hfr]; [lia|].
  pose proof (slot_some q 0 Hwf) as Hs.
  replace ((front q + Z.of_nat 0) mod 64) with (front q) in Hs by zmod.
  rewrite (dequeue_eq _ _ Hwf E Hs). eexists. split; [done|]. zcase.
  - assert (n = 0%nat) as -> by (rewrite Hn in Hq; zmod).
    assert (Hwf' : pq_wf (mkpq (-1) (-1) (<[Z.to_nat (front q) := None]> (qlist q)))).
    { split; cbn; [|by left]. rewrite length_insert. apply Hwf. }
    split; [done|]. by apply contents_empty.
  - set (q' := mkpq _ _ _).
    assert (Hwf' : pq_wf q').
    { split; [apply Hwf|]. right. cbn. change nprocZ with 64. zmod. }
    assert (E' : front q' <> -1) by (cbn; zmod).
    split; [done|]. pose proof (qlen_nonempty _ Hwf' E') as Hq'. cbn in Hq'.
    unfold contents. assert (qlen q' = n) as -> by zmod.
    apply list_fmap_ext. intros i k _. unfold slot, q'. cbn. change nprocZ with 64.
    by replace (((front q + 1) mod 64 + Z.of_nat k) mod 64)
      with ((front q + Z.of_nat (S k)) mod 64) by zmod.
Qed.

Lemma pq_init_wf q : pq_wf (pq_init1 q).
Proof. split; [done|]. right. cbn. by change nprocZ with 64. Qed.

(** The loop of [ProcQueueRemove] between two non-null entries: a round swaps
    them or leaves them, and [i] stays. *)
Lemma remove_loop_hangs fuel pid_of pid q i a b :
  0 <= i < rear q -> znth (qlist q) i = Some (Some a) -> znth (qlist q) (i + 1) = Some (Some b) ->
  remove_loop fuel pid_of i pid q = Fail EHang.
Proof.
  revert q a b. induction fuel as [|fuel IH]; intros q a b Hi Ha Hb; [done|]. cbn [remove_loop].
  unfold bind at 1, get. destruct (Z.ltb_spec i (rear q)); [|lia].
  rewrite (bind_ret _ _ _ _ _ (aget_ok _ _ _ _ Ha)). cbn [entry_pid].
  unfold bind at 1. cbn [ret]. unfold when. destruct (pid_of a =? pid).
  - pose proof (proj1 (znth_some _ _ _ Ha)). pose proof (proj1 (znth_some _ _ _ Hb)).
    unfold bind at 1. rewrite (bind_ret _ _ _ _ _ (aget_ok _ _ _ _ Hb)).
    unfold bind at 1. rewrite aset_ok by lia.
    unfold bind at 1. rewrite aset_ok by (rewrite length_insert; lia).
    cbn. apply (IH _ b a); cbn; [done| |].
    + rewrite !znth_insert by (rewrite ?length_insert; lia). by zcase.
    + rewrite !znth_insert by (rewrite ?length_insert; lia). by zcase.
  - unfold bind, ret. by apply (IH _ a b).
Qed.

(** ** Properties *)

(** C23: the circular buffer implements a first-in first-out queue.  From a
    well-formed queue, any sequence of enqueues and dequeues that never has more
    than [NPROC] pointers queued runs without an out-of-range access, returns
    from each dequeue what the list specification returns ([NULL] on an empty
    queue), and leaves a well-formed queue holding the specified entries. *)
Theorem run_ops_refines (ops : list qop) (q : ProcQueue) (rs l : list (option nat))
    (Hwf : pq_wf q) (Hspec : spec_ops ops (contents q) = Some (rs, l)) :
  exists q', run_ops ops q = Ret rs q' /\ pq_wf q' /\ contents q' = l.
Proof.
  revert q rs l Hwf Hspec. induction ops as [|[p|] ops IH]; intros q rs l Hwf Hspec; simpl in *.
  - injection Hspec as <- <-. by exists q.
  - case_decide as Hlen; [|done]. pose proof (enqueue_eq p q Hwf) as He.
    rewrite (bind_ret _ _ _ _ _ He).
    rewrite <- (enqueue_contents p q _ Hwf Hlen He) in Hspec.
    apply IH; [|done]. by eapply enqueue_wf.
  - pose proof (dequeue_contents q Hwf) as Hd. destruct (contents q) as [|x xs] eqn:Ec.
    + rewrite (bind_ret _ _ _ _ _ Hd).
      destruct (spec_ops ops []) as [[rs1 l1]|] eqn:Es; [|done]. simplify_eq/=.
      rewrite <- Ec in Es. destruct (IH _ _ _ Hwf Es) as (q' & Hr & ? & ?). exists q'.
      by rewrite (bind_ret _ _ _ _ _ Hr).
    + destruct Hd as (q1 & Hd & Hwf1 & Ec1). rewrite (bind_ret _ _ _ _ _ Hd).
      destruct (spec_ops ops xs) as [[rs1 l1]|] eqn:Es; [|done]. simplify_eq/=.
      destruct (IH _ _ _ Hwf1 Es) as (q' & Hr & ? & ?). exists q'.
      by rewrite (bind_ret _ _ _ _ _ Hr).
Qed.

Definition empty_queue : ProcQueue := mkpq (-1) (-1) (replicate (2 * NPROC) None).

Lemma run_ops_refines_witness :
  exists q', run_ops [Enq (Some 5%nat); Enq (Some 7%nat); Deq; Enq (Some 5%nat); Deq; Deq; Deq] empty_queue
             = Ret [Some 5%nat; Some 7%nat; Some 5%nat; None] q' /\ pq_wf q' /\ contents q' = [].
Proof.
  apply (run_ops_refines _ empty_queue); [split; [reflexivity|by left]|vm_compute; reflexivity].
Defined.

(** [pq_init] does not build an empty queue.  Its [front = rear = 0] is the
    representation of a queue whose only entry is the null pointer, so after
    boot the first dequeue of every level returns [NULL] even when a process was
    enqueued before it, and the process comes out one dequeue later. *)
Theorem pq_init_holds_null (q : ProcQueue) (p : nat) :
  contents (pq_init1 q) = [None] /\
  exists q', run_ops [Enq (Some p); Deq; Deq; Deq] (pq_init1 q) = Ret [None; Some p; None] q'.
Proof.
  split; [reflexivity|]. eexists. reflexivity.
Qed.

(** C25: [ProcQueueRemove] never returns when the queue holds two or more entries
    without wrap-around.  The loop never advances [i], so as long as the first
    two entries are not null it spins for ever, whatever pid it looks for. *)
Theorem remove_diverges (fuel : nat) (pid_of : nat -> Z) (pid : Z) (q : ProcQueue) (a b : nat)
    (Hwf : pq_wf q) (Hlt : 0 <= front q < rear q)
    (Ha : slot q 0 = Some a) (Hb : slot q 1 = Some b) :
  ProcQueueRemove fuel pid_of pid q = Fail EHang.
Proof.
  destruct (wf_cases _ Hwf) as [|Hfr]; [lia|].
  pose proof (slot_some q 0 Hwf) as H0. pose proof (slot_some q 1 Hwf) as H1.
  replace ((front q + Z.of_nat 0) mod 64) with (front q) in H0 by zmod.
  replace ((front q + Z.of_nat 1) mod 64) with (front q + 1) in H1 by zmod.
  unfold ProcQueueRemove, bind, get.
  by rewrite (remove_loop_hangs fuel pid_of pid q (front q) a b) by congruence.
Qed.

(** Two processes queued, the second to be removed. *)
Definition two_queued : ProcQueue :=
  mkpq 0 1 (<[0%nat := Some 3%nat]> (<[1%nat := Some 4%nat]> (replicate (2 * NPROC) None))).

Lemma remove_diverges_witness :
  contents two_queued = [Some 3%nat; Some 4%nat] /\
  ProcQueueRemove 1000 (fun p => Z.of_nat p + 10) 14 two_queued = Fail EHang.
Proof.
  split; [reflexivity|].
  apply (remove_diverges 1000 _ 14 two_queued 3 4);
    [split; [reflexivity|right; by vm_compute] | by vm_compute | reflexivity | reflexivity].
Defined.

(** When the loop is not entered ([front = rear], or the ring has wrapped so
    that [rear < front]) [ProcQueueRemove] returns, but it drops the newest
    entry whatever pid was asked for, and a queue of one entry is left not empty
    but with [rear] one behind [front]. *)
Theorem remove_drops_newest (fuel : nat) (pid_of : nat -> Z) (pid : Z) (q : ProcQueue)
    (Hwf : pq_wf q) (Hge : 0 <= rear q <= front q) (Hf : (0 < fuel)%nat) :
  exists q', ProcQueueRemove fuel pid_of pid q = Ret tt q' /\
    front q' = front q /\ rear q' = rear q - 1 /\
    (forall k, znth (qlist q') k = if k =? rear q then Some None else znth (qlist q) k).
Proof.
  destruct fuel as [|fuel]; [lia|]. pose proof (wf_len _ Hwf) as Hl.
  destruct (wf_cases _ Hwf) as [|Hfr]; [lia|].
  unfold ProcQueueRemove, bind, get. cbn [remove_loop]. unfold bind, get.
  destruct (Z.ltb_spec (front q) (rear q)); [lia|]. cbn.
  rewrite aset_ok by lia. eexists. split; [reflexivity|]. cbn. split_and!; try done.
  intros k. by apply znth_insert; lia.
Qed.

Definition one_queued : ProcQueue :=
  mkpq 0 0 (<[0%nat := Some 3%nat]> (replicate (2 * NPROC) None)).

Lemma remove_drops_newest_witness :
  exists q', ProcQueueRemove 1 (fun p => Z.of_nat p + 10) 99 one_queued = Ret tt q' /\
    front q' = 0 /\ rear q' = -1 /\
    (forall k, znth (qlist q') k = if k =? 0 then Some None else znth (qlist one_queued) k).
Proof.
  apply (remove_drops_newest 1 _ 99 one_queued);
    [split; [reflexivity|right; by vm_compute] | by vm_compute | lia].
Defined.
