(* ===== verification/Mem.v ===== *)
(** * Mem: byte-addressed memory and kernel/string.c

    Memory is a finite map from addresses to bytes (0..255); an address that was
    never written reads 0.  [uint64] cells are little-endian, as on RISC-V.  The
    routines of kernel/string.c are translated loop by loop; [char] is unsigned
    on this target.  A loop bounded by a counter recurses on the counter; the
    loop of [strlen], bounded only by the terminating NUL, takes fuel. *)
From S2P Require Import Prelude.

Abbreviation mem := (gmap Z Z).

Definition mget (m : mem) (a : Z) : Z := default 0 (m !! a).
Definition mset (a v : Z) (m : mem) : mem := <[a := v]> m.

Lemma mget_mset m a v b : mget (mset a v m) b = if b =? a then v else mget m b.
Proof.
  unfold mget, mset. zcase; subst.
  - by rewrite lookup_insert_eq.
  - by rewrite lookup_insert_ne by done.
Qed.
#[global] Opaque mget mset.

(** ** kernel/string.c *)

(** for(i = 0; i < n; i++) cdst[i] = c; *)
Definition memset (dst c n : Z) (m : mem) : mem :=
  foldl (fun m i => mset (dst + Z.of_nat i) (u8 c) m) m (seq 0 (Z.to_nat n)).

Fixpoint memcmp_loop (n : nat) (s1 s2 : Z) (m : mem) : Z :=
  match n with
  | O => 0
  | S n' =>
      if mget m s1 =? mget m s2 then memcmp_loop n' (s1 + 1) (s2 + 1) m
      else mget m s1 - mget m s2
  end.
Definition memcmp (v1 v2 n : Z) (m : mem) : Z := memcmp_loop (Z.to_nat n) v1 v2 m.

(** while(n-- > 0) *--d = *--s; *)
Fixpoint move_down (n : nat) (d s : Z) (m : mem) : mem :=
  match n with
  | O => m
  | S n' => move_down n' (d - 1) (s - 1) (mset (d - 1) (mget m (s - 1)) m)
  end.

(** while(n-- > 0) *d++ = *s++; *)
Fixpoint move_up (n : nat) (d s : Z) (m : mem) : mem :=
  match n with
  | O => m
  | S n' => move_up n' (d + 1) (s + 1) (mset d (mget m s) m)
  end.

Definition memmove (dst src n : Z) (m : mem) : mem :=
  if n =? 0 then m else
  if (src <? dst) && (dst <? src + n)
  then move_down (Z.to_nat n) (dst + n) (src + n) m
  else move_up (Z.to_nat n) dst src m.

Definition memcpy (dst src n : Z) (m : mem) : mem := memmove dst src n m.

Fixpoint strncmp_loop (n : nat) (p q : Z) (m : mem) : Z :=
  match n with
  | O => 0
  | S n' =>
      if negb (mget m p =? 0) && (mget m p =? mget m q)
      then strncmp_loop n' (p + 1) (q + 1) m
      else mget m p - mget m q
  end.
Definition strncmp (p q n : Z) (m : mem) : Z := strncmp_loop (Z.to_nat n) p q m.

(** while(n-- > 0) *s++ = 0; *)
Fixpoint pad_loop (n : nat) (s : Z) (m : mem) : mem :=
  match n with O => m | S n' => pad_loop n' (s + 1) (mset s 0 m) end.

(** while(n-- > 0 && ( *s++ = *t++ ) != 0); then the padding loop. *)
Fixpoint strncpy_loop (n : nat) (s t : Z) (m : mem) : mem :=
  match n with
  | O => m
  | S n' =>
      let c := mget m t in
      let m' := mset s c m in
      if c =? 0 then pad_loop n' (s + 1) m' else strncpy_loop n' (s + 1) (t + 1) m'
  end.
Definition strncpy (s t n : Z) (m : mem) : mem := strncpy_loop (Z.to_nat n) s t m.

(** while(--n > 0 && ( *s++ = *t++ ) != 0); *s = 0; with [k] = n - 1 copies left. *)
Fixpoint safestrcpy_loop (k : nat) (s t : Z) (m : mem) : mem :=
  match k with
  | O => mset s 0 m
  | S k' =>
      let c := mget m t in
      let m' := mset s c m in
      if c =? 0 then mset (s + 1) 0 m' else safestrcpy_loop k' (s + 1) (t + 1) m'
  end.
Definition safestrcpy (s t n : Z) (m : mem) : mem :=
  if n <=? 0 then m else safestrcpy_loop (Z.to_nat (n - 1)) s t m.

Fixpoint strlen_loop (fuel : nat) (s n : Z) (m : mem) : option Z :=
  match fuel with
  | O => None
  | S f => if mget m (s + n) =? 0 then Some n else strlen_loop f s (n + 1) m
  end.
Definition strlen (fuel : nat) (s : Z) (m : mem) : option Z := strlen_loop fuel s 0 m.

(** ** 64-bit cells *)

Fixpoint load_le (n : nat) (a : Z) (m : mem) : Z :=
  match n with O => 0 | S n' => mget m a + 256 * load_le n' (a + 1) m end.

Fixpoint store_le (n : nat) (a v : Z) (m : mem) : mem :=
  match n with O => m | S n' => store_le n' (a + 1) (v / 256) (mset a (v mod 256) m) end.

Definition ld64 (a : Z) (m : mem) : Z := load_le 8 a m.
Definition st64 (a v : Z) (m : mem) : mem := store_le 8 a (u64 v) m.

(** ** Lemmas *)

Definition in_range (a n x : Z) : bool := (a <=? x) && (x <? a + n).

Lemma in_range_true a n x : in_range a n x = true <-> a <= x < a + n.
Proof. unfold in_range. rewrite andb_true_iff, Z.leb_le, Z.ltb_lt. lia. Qed.

Lemma in_range_false a n x : in_range a n x = false <-> ~ (a <= x < a + n).
Proof. rewrite <- in_range_true. by destruct (in_range a n x). Qed.

(** [memcase]: split on the comparisons and ranges of a memory goal. *)
Ltac rcase :=
  repeat match goal with
  | |- context [in_range ?a ?n ?x] =>
      let H := fresh "Hr" in
      destruct (in_range a n x) eqn:H;
      [apply in_range_true in H | apply in_range_false in H]; try lia
  | |- context [?x =? ?y] => destruct (Z.eqb_spec x y); try lia
  end.

Lemma mget_memset dst c n m a : 0 <= n ->
  mget (memset dst c n m) a = if in_range dst n a then u8 c else mget m a.
Proof.
  intros Hn. unfold memset. rewrite <- (Z2Nat.id n) at 2 by done. clear Hn.
  induction (Z.to_nat n) as [|k IH]; [by rcase|].
  rewrite seq_S, foldl_app. cbn [foldl]. rewrite mget_mset, IH. simpl. rcase; done.
Qed.

Lemma mget_move_up n d s m a : d <= s \/ s + Z.of_nat n <= d ->
  mget (move_up n d s m) a =
  if in_range d (Z.of_nat n) a then mget m (s + (a - d)) else mget m a.
Proof.
  revert d s m. induction n as [|n IH]; intros d s m Hd; cbn [move_up]; [by rcase|].
  rewrite IH, !mget_mset by lia.
  rcase; subst; try done; f_equal; lia.
Qed.

Lemma mget_move_down n d s m a : s <= d ->
  mget (move_down n d s m) a =
  if in_range (d - Z.of_nat n) (Z.of_nat n) a then mget m (s + (a - d)) else mget m a.
Proof.
  revert d s m. induction n as [|n IH]; intros d s m Hd; cbn [move_down]; [by rcase|].
  rewrite IH, !mget_mset by lia.
  rcase; subst; try done; f_equal; lia.
Qed.

Lemma mget_memmove dst src n m a : 0 <= n ->
  mget (memmove dst src n m) a =
  if in_range dst n a then mget m (src + (a - dst)) else mget m a.
Proof.
  intros Hn. unfold memmove. destruct (Z.eqb_spec n 0) as [->|]; [by rcase|].
  destruct ((src <? dst) && (dst <? src + n)) eqn:E.
  - rewrite mget_move_down by lia. rewrite Z2Nat.id by done.
    rcase; try done. f_equal. lia.
  - rewrite mget_move_up by lia. by rewrite Z2Nat.id.
Qed.

Lemma load_le_ext n a m m' :
  (forall k, a <= k < a + Z.of_nat n -> mget m k = mget m' k) -> load_le n a m = load_le n a m'.
Proof.
  revert a. induction n as [|n IH]; intros a H; cbn; [done|].
  rewrite H by lia. rewrite (IH (a + 1)); [done|]. intros k ?. apply H. lia.
Qed.

Lemma mget_store_le n a v m k : ~ (a <= k < a + Z.of_nat n) -> mget (store_le n a v m) k = mget m k.
Proof.
  revert a v m. induction n as [|n IH]; intros a v m Hk; cbn; [done|].
  rewrite IH by lia. rewrite mget_mset. by rcase.
Qed.

Lemma load_store_same n a v m : 0 <= v < 256 ^ Z.of_nat n -> load_le n a (store_le n a v m) = v.
Proof.
  revert a v m. induction n as [|n IH]; intros a v m Hv; cbn.
  - change (256 ^ Z.of_nat 0) with 1 in Hv. lia.
  - rewrite Nat2Z.inj_succ, Z.pow_succ_r in Hv by lia.
    rewrite IH; [|split; [zmod|apply Z.div_lt_upper_bound; lia]].
    rewrite mget_store_le, mget_mset by lia. rcase. pose proof (Z.div_mod v 256). lia.
Qed.

Lemma load_store_other n k a b v m :
  (b + Z.of_nat k <= a \/ a + Z.of_nat n <= b) -> load_le k b (store_le n a v m) = load_le k b m.
Proof. intros H. apply load_le_ext. intros j ?. apply mget_store_le. lia. Qed.

Lemma ld64_st64 a v m : ld64 a (st64 a v m) = u64 v.
Proof.
  apply load_store_same. unfold u64. change (256 ^ Z.of_nat 8) with (2 ^ 64).
  apply Z.mod_pos_bound. lia.
Qed.

Lemma ld64_st64_ne a b v m : b + 8 <= a \/ a + 8 <= b -> ld64 b (st64 a v m) = ld64 b m.
Proof. intros. apply load_store_other. lia. Qed.

Lemma mget_st64 a v m k : ~ (a <= k < a + 8) -> mget (st64 a v m) k = mget m k.
Proof. intros. apply mget_store_le. lia. Qed.

Lemma ld64_ext a m m' : (forall k, a <= k < a + 8 -> mget m k = mget m' k) -> ld64 a m = ld64 a m'.
Proof. intros H. apply load_le_ext. intros; apply H. lia. Qed.

Lemma load_le_zero n a m : (forall k, a <= k < a + Z.of_nat n -> mget m k = 0) -> load_le n a m = 0.
Proof.
  revert a. induction n as [|n IH]; intros a H; cbn; [done|].
  rewrite H by lia. rewrite IH; [done|]. intros k ?. apply H. lia.
Qed.

#[global] Opaque ld64 st64 memset memmove.

(** ** Strings *)

Lemma mget_pad n s m a :
  mget (pad_loop n s m) a = if in_range s (Z.of_nat n) a then 0 else mget m a.
Proof.
  revert s m. induction n as [|n IH]; intros s m; cbn; [by rcase|].
  rewrite IH, mget_mset. by rcase.
Qed.

(** [str_at t l m]: a NUL-terminated string with the bytes [l] lies at [t]. *)
Definition str_at (t : Z) (l : list Z) (m : mem) : Prop :=
  (forall i c, l !! i = Some c -> mget m (t + Z.of_nat i) = c /\ c <> 0) /\
  mget m (t + Z.of_nat (length l)) = 0.

Lemma str_at_nil t m : str_at t [] m <-> mget m t = 0.
Proof. unfold str_at. cbn. rewrite Z.add_0_r. split; [by intros [_ ?]|]. by split. Qed.

Lemma str_at_cons t c l m : str_at t (c :: l) m <-> mget m t = c /\ c <> 0 /\ str_at (t + 1) l m.
Proof.
  unfold str_at. cbn [length]. replace (t + Z.of_nat (S (length l))) with (t + 1 + Z.of_nat (length l)) by lia.
  split.
  - intros [H H0]. destruct (H 0%nat c eq_refl) as [Hc Hnz]. rewrite Z.add_0_r in Hc.
    split_and!; try done. intros i x Hx. specialize (H (S i) x Hx).
    by replace (t + 1 + Z.of_nat i) with (t + Z.of_nat (S i)) by lia.
  - intros (Hc & Hnz & H & H0). split; [|done]. intros [|i] x Hx; cbn in Hx.
    + injection Hx as <-. by rewrite Z.add_0_r.
    + specialize (H i x Hx). by replace (t + Z.of_nat (S i)) with (t + 1 + Z.of_nat i) by lia.
Qed.

Lemma str_at_ext t l m m' :
  (forall k, t <= k <= t + Z.of_nat (length l) -> mget m k = mget m' k) ->
  str_at t l m -> str_at t l m'.
Proof.
  intros E [H H0]. split.
  - intros i c Hi. pose proof (lookup_lt_Some _ _ _ Hi). rewrite <- E by lia. by apply H.
  - rewrite <- E by lia. done.
Qed.

(** Writes of [safestrcpy] stay inside the [k + 1] bytes it was given, and what
    it leaves there is the longest prefix that fits, NUL-terminated. *)
Lemma safestrcpy_loop_spec k s t l m :
  str_at t l m ->
  (s + Z.of_nat k < t \/ t + Z.of_nat (length l) < s) ->
  str_at s (take k l) (safestrcpy_loop k s t m) /\
  (forall a, ~ (s <= a <= s + Z.of_nat k) -> mget (safestrcpy_loop k s t m) a = mget m a).
Proof.
  revert s t l m. induction k as [|k IH]; intros s t l m Hl Hd; cbn [safestrcpy_loop].
  - rewrite take_0. split; [by rewrite str_at_nil, mget_mset; rcase|].
    intros a Ha. rewrite mget_mset. by rcase.
  - destruct l as [|c l].
    + apply str_at_nil in Hl. rewrite Hl. cbn [firstn]. rewrite Z.eqb_refl, str_at_nil.
      split; [rewrite !mget_mset; by rcase|]. intros a Ha. rewrite !mget_mset. by rcase.
    + apply str_at_cons in Hl as (Hc & Hnz & Hl). rewrite Hc. cbn [length firstn] in *.
      destruct (Z.eqb_spec c 0) as [|_]; [done|].
      destruct (IH (s + 1) (t + 1) l (mset s c m)) as [IH1 IH2]; [|lia|].
      { eapply str_at_ext; [|done]. intros j Hj. rewrite mget_mset. by rcase. }
      split.
      * apply str_at_cons. split_and!; try done. rewrite IH2, mget_mset by lia. by rcase.
      * intros a Ha. rewrite IH2, mget_mset by lia. by rcase.
Qed.

(** What [strncpy] leaves: the first [n] bytes of the string, then zeros. *)
Lemma strncpy_loop_spec n s t l m a :
  str_at t l m ->
  (s + Z.of_nat n <= t \/ t + Z.of_nat (length l) < s) ->
  mget (strncpy_loop n s t m) a =
  if in_range s (Z.of_nat n) a then default 0 (l !! Z.to_nat (a - s)) else mget m a.
Proof.
  revert s t l m. induction n as [|n IH]; intros s t l m Hl Hd; cbn [strncpy_loop]; [by rcase|].
  destruct l as [|c l].
  - apply str_at_nil in Hl. rewrite Hl, Z.eqb_refl, mget_pad, mget_mset. by rcase.
  - apply str_at_cons in Hl as (Hc & Hnz & Hl). rewrite Hc. cbn [length] in *.
    destruct (Z.eqb_spec c 0) as [|_]; [done|].
    rewrite (IH (s + 1) (t + 1) l); [|eapply str_at_ext; [|done]|lia].
    + rewrite mget_mset. rcase; try done; subst.
      * by replace (Z.to_nat (a - s)) with (S (Z.to_nat (a - (s + 1)))) by lia.
      * by rewrite Z.sub_diag.
    + intros j Hj. rewrite mget_mset. by rcase.
Qed.

Lemma strncmp_loop_spec n p q lp lq m :
  str_at p lp m -> str_at q lq m ->
  strncmp_loop n p q m = 0 <-> take n lp = take n lq.
Proof.
  revert p q lp lq. induction n as [|n IH]; intros p q lp lq Hp Hq; cbn [strncmp_loop].
  { rewrite !take_0. done. }
  destruct lp as [|c lp], lq as [|d lq]; rewrite ?str_at_nil, ?str_at_cons in *.
  - rewrite Hp, Hq. done.
  - destruct Hq as (Hd & ? & _). rewrite Hp, Hd, Z.eqb_refl. cbn. split; [lia|done].
  - destruct Hp as (Hc & ? & _). rewrite Hc, Hq. cbn. split; [|done].
    destruct (Z.eqb_spec c 0); [done|]. cbn. lia.
  - destruct Hp as (Hc & ? & Hp), Hq as (Hd & ? & Hq). rewrite Hc, Hd. cbn [firstn].
    destruct (Z.eqb_spec c 0); [done|]. cbn [negb andb].
    destruct (Z.eqb_spec c d) as [->|].
    + rewrite (IH _ _ _ _ Hp Hq). split; [by intros ->|by intros [= ->]].
    + split; [lia|]. intros [= ->]. done.
Qed.

Lemma strlen_loop_spec fuel s l n m :
  str_at (s + n) l m -> (length l < fuel)%nat ->
  strlen_loop fuel s n m = Some (n + Z.of_nat (length l)).
Proof.
  revert l n. induction fuel as [|f IH]; intros l n Hl Hf; [lia|]. cbn [strlen_loop].
  destruct l as [|c l].
  - apply str_at_nil in Hl. rewrite Hl, Z.eqb_refl. cbn. f_equal. lia.
  - apply str_at_cons in Hl as (Hc & Hnz & Hl). rewrite Hc.
    destruct (Z.eqb_spec c 0); [done|]. cbn [length] in *. rewrite (IH l (n + 1)); [f_equal; lia| |lia].
    by replace (s + (n + 1)) with (s + n + 1) by lia.
Qed.
