(* ===== verification/Kalloc.v ===== *)
(** * Kalloc: the physical page allocator

    Models kernel/kalloc.c on top of byte memory: the free list is threaded
    through the first eight bytes of the free pages themselves. *)
From S2P Require Import Prelude Spinlock Mem.

(** ** kernel/riscv.h, kernel/memlayout.h *)

Definition PGSIZE : Z := 4096.
Definition PGSHIFT : Z := 12.

(** On [uint64] operands, so the sum wraps. *)
Definition PGROUNDUP (sz : Z) : Z := Z.ldiff (u64 (sz + PGSIZE - 1)) (PGSIZE - 1).
Definition PGROUNDDOWN (a : Z) : Z := Z.ldiff a (PGSIZE - 1).

Definition KERNBASE : Z := 0x80000000.
Definition PHYSTOP : Z := KERNBASE + 128 * 1024 * 1024.

(** ** State *)

Record kmem : Type := mkkmem {
  k_cpu : cpu;           (* the CPU running the code *)
  k_lock : spinlock;     (* kmem.lock *)
  k_freelist : Z;        (* kmem.freelist, 0 for null *)
  k_mem : mem;           (* physical memory *)
}.
#[export] Instance eta_kmem : Settable kmem :=
  fun k => mkkmem (k_cpu k) (k_lock k) (k_freelist k) (k_mem k).

Definition kcpul : lens kmem cpu := field k_cpu.
Definition klockl : lens kmem spinlock := field k_lock.
Definition kmodify (f : mem -> mem) : M kmem unit := modify (fun k => k <| k_mem := f (k_mem k) |>).

Section Kalloc.
(** [end], the first address after the kernel: set by the linker. *)
Context (kend : Z).

Definition kfree (pa : Z) : M kmem unit :=
  if negb (pa mod PGSIZE =? 0) || (pa <? kend) || (PHYSTOP <=? pa) then panic "kfree" else
  kmodify (memset pa 1 PGSIZE) ;;
  acquire kcpul klockl ;;
  k <- get ;;
  kmodify (st64 pa (k_freelist k)) ;;
  modify (fun k => k <| k_freelist := pa |>) ;;
  release kcpul klockl.

Definition kalloc : M kmem Z :=
  acquire kcpul klockl ;;
  r <- gets k_freelist ;;
  when (negb (r =? 0)) (modify (fun k => k <| k_freelist := ld64 r (k_mem k) |>)) ;;
  release kcpul klockl ;;
  when (negb (r =? 0)) (kmodify (memset r 5 PGSIZE)) ;;
  ret r.

(** for(; p + PGSIZE <= pa_end; p += PGSIZE) kfree(p); *)
Fixpoint freerange_loop (fuel : nat) (p pa_end : Z) : M kmem unit :=
  match fuel with
  | O => fail EHang
  | S f =>
      if p + PGSIZE <=? pa_end
      then kfree p ;; freerange_loop f (p + PGSIZE) pa_end
      else ret tt
  end.

Definition freerange (pa_start pa_end : Z) : M kmem unit :=
  let p := PGROUNDUP pa_start in
  freerange_loop (Z.to_nat ((pa_end - p) / PGSIZE) + 1) p pa_end.

Definition kinit : M kmem unit :=
  modify (fun k => k <| k_lock := initlock "kmem" |>) ;;
  freerange kend PHYSTOP.
End Kalloc.

(** ** Specification: a list of free pages, and the pages clients hold *)

Section Spec.
Context (kend : Z).

Definition valid_page (p : Z) : Prop := p mod PGSIZE = 0 /\ kend <= p < PHYSTOP.
#[export] Instance valid_page_dec p : Decision (valid_page p).
Proof. unfold valid_page. apply _. Defined.

(** The pages on the list that starts at [h], followed through memory. *)
Fixpoint chain (m : mem) (h : Z) (l : list Z) : Prop :=
  match l with
  | [] => h = 0
  | p :: l' => h = p /\ p <> 0 /\ chain m (ld64 p m) l'
  end.

Record kinv (s : kmem) (l : list Z) : Prop := {
  kinv_cpu : cpu_ok (k_cpu s);
  kinv_lock : lk_locked (k_lock s) = false;
  kinv_chain : chain (k_mem s) (k_freelist s) l;
  kinv_valid : Forall valid_page l;
  kinv_nodup : NoDup l;
}.

Definition page_of (a : Z) : Z := a - a mod PGSIZE.

(** What a client does: allocate, free, or write a byte. *)
Inductive kop : Type := KAlloc | KFree (pa : Z) | KWrite (a v : Z).

Fixpoint run_kops (ops : list kop) : M kmem (list Z) :=
  match ops with
  | [] => ret []
  | KAlloc :: ops' => r <- kalloc ;; rs <- run_kops ops' ;; ret (r :: rs)
  | KFree pa :: ops' => kfree kend pa ;; run_kops ops'
  | KWrite a v :: ops' => kmodify (mset a v) ;; run_kops ops'
  end.

(** The abstract allocator: [free] the pages available, [held] the pages
    clients own.  [None]: a client freed or wrote what it does not own. *)
Fixpoint spec_kops (ops : list kop) (free held : list Z) : option (list Z * (list Z * list Z)) :=
  match ops with
  | [] => Some ([], (free, held))
  | KAlloc :: ops' =>
      match free with
      | [] => '(rs, st) ← spec_kops ops' [] held; Some (0 :: rs, st)
      | p :: free' => '(rs, st) ← spec_kops ops' free' (p :: held); Some (p :: rs, st)
      end
  | KFree pa :: ops' =>
      if decide (pa ∈ held)
      then spec_kops ops' (pa :: free) (filter (fun q => q <> pa) held)
      else None
  | KWrite a v :: ops' =>
      if decide (page_of a ∈ held) then spec_kops ops' free held else None
  end.

(** The pages [freerange] walks: [n] of them from [p] up. *)
Definition pages_from (p : Z) (n : nat) : list Z := (fun i => p + Z.of_nat i * PGSIZE) <$> seq 0 n.
End Spec.

(** ** Lemmas *)

#[export] Instance kalloc_cell : LockCell (fun _ : kmem => True) kcpul klockl.
Proof. constructor; done. Qed.

Lemma PGROUNDDOWN_eq a : PGROUNDDOWN a = a - a mod PGSIZE.
Proof.
  unfold PGROUNDDOWN. change (PGSIZE - 1) with (Z.ones 12).
  rewrite Z.ldiff_ones_r, Z.shiftr_div_pow2, Z.shiftl_mul_pow2 by lia.
  unfold PGSIZE. change (2 ^ 12) with 4096. zmod.
Qed.

Lemma PGROUNDDOWN_mod a : PGROUNDDOWN a mod PGSIZE = 0.
Proof. rewrite PGROUNDDOWN_eq. unfold PGSIZE. zmod. Qed.

Lemma PGROUNDUP_eq a : 0 <= a < 2 ^ 64 - PGSIZE ->
  PGROUNDUP a = (a + PGSIZE - 1) - (a + PGSIZE - 1) mod PGSIZE.
Proof.
  intros Ha. unfold PGROUNDUP. fold (PGROUNDDOWN (u64 (a + PGSIZE - 1))).
  rewrite PGROUNDDOWN_eq. unfold u64. rewrite (Z.mod_small _ (2 ^ 64)); [done|].
  unfold PGSIZE in *. lia.
Qed.

Lemma pages_from_S p n : pages_from p (S n) = p :: pages_from (p + PGSIZE) n.
Proof.
  unfold pages_from. change (seq 0 (S n)) with (0 :: seq 1 n)%nat. cbn [fmap list_fmap]. f_equal; [lia|].
  rewrite <- (fmap_S_seq 0 n), <- list_fmap_compose.
  apply list_fmap_ext. intros i x _. simpl. lia.
Qed.

#[global] Arguments pages_from : simpl never.

Lemma in_pages_from p n q : q ∈ pages_from p n -> p <= q < p + Z.of_nat n * PGSIZE.
Proof.
  intros (i & -> & Hi%elem_of_seq)%list_elem_of_fmap. unfold PGSIZE. lia.
Qed.

Section Facts.
Context (kend : Z) (Hend : 0 < kend).

Lemma valid_page_range p : valid_page kend p -> 0 < p /\ p + PGSIZE <= PHYSTOP /\ p mod PGSIZE = 0.
Proof.
  intros [Hm Hr]. split_and!; [lia| |done].
  assert (PHYSTOP mod PGSIZE = 0) by done. unfold PGSIZE, PHYSTOP, KERNBASE in *. zmod.
Qed.

(** Two pages are equal or disjoint. *)
Lemma page_disjoint p q : p mod PGSIZE = 0 -> q mod PGSIZE = 0 -> p <> q ->
  p + PGSIZE <= q \/ q + PGSIZE <= p.
Proof. unfold PGSIZE. zmod. Qed.

Lemma page_of_range a p : p mod PGSIZE = 0 -> page_of a = p <-> p <= a < p + PGSIZE.
Proof. unfold page_of, PGSIZE. split; zmod. Qed.

Lemma chain_ext m m' h l : Forall (valid_page kend) l ->
  (forall p a, p ∈ l -> p <= a < p + PGSIZE -> mget m' a = mget m a) ->
  chain m h l -> chain m' h l.
Proof.
  revert h. induction l as [|p l IH]; intros h Hv Hm Hc; simpl in *; [done|].
  destruct Hc as (-> & Hp & Hc). apply Forall_cons in Hv as [Hvp Hv]. split_and!; [done|done|].
  rewrite (ld64_ext p m' m).
  - apply IH; [done| |done]. intros q a Hq. apply Hm. set_solver.
  - intros k Hk. apply (Hm p); [set_solver|]. unfold PGSIZE. lia.
Qed.

Lemma kfree_guard pa : valid_page kend pa ->
  (negb (pa mod PGSIZE =? 0) || (pa <? kend) || (PHYSTOP <=? pa)) = false.
Proof. intros [Hm Hr]. rewrite Hm. by zcase. Qed.

Lemma kfree_spec s l pa :
  kinv kend s l -> valid_page kend pa -> pa ∉ l ->
  returns (kfree kend pa) s (fun _ s' => kinv kend s' (pa :: l) /\
    forall a, ~ (pa <= a < pa + PGSIZE) -> mget (k_mem s') a = mget (k_mem s) a).
Proof.
  intros [Hcpu Hlk Hch Hv Hnd] Hp Hn. unfold kfree. rewrite kfree_guard by done.
  pose proof (valid_page_range _ Hp) as (Hpos & Hhi & Hmod).
  set (m1 := memset pa 1 PGSIZE (k_mem s)).
  assert (forall a, ~ (pa <= a < pa + PGSIZE) -> mget m1 a = mget (k_mem s) a) as Hm1.
  { intros a Ha. unfold m1. rewrite mget_memset by done. by rcase. }
  unfold returns, kmodify, bind, modify, get.
  cbv beta iota. rewrite (acquire_free (D := fun _ => True)) by done. simpl.
  erewrite (release_held (D := fun _ => True)) by done. simpl.
  assert (forall a, ~ (pa <= a < pa + PGSIZE) ->
    mget (st64 pa (k_freelist s) m1) a = mget (k_mem s) a) as Hm2.
  { intros a Ha. rewrite mget_st64 by (unfold PGSIZE in *; lia). by apply Hm1. }
  split; [|done]. constructor; simpl; [by apply touched_ok|done| | |].
  - split_and!; [done|lia|]. rewrite ld64_st64. unfold u64.
    rewrite Z.mod_small.
    + eapply chain_ext; [done| |done]. intros q a Hq Ha. apply Hm2.
      assert (valid_page kend q) as (_ & _ & Hqm)%valid_page_range by (by rewrite Forall_forall in Hv; apply Hv).
      pose proof (page_disjoint pa q Hmod Hqm ltac:(set_solver)). unfold PGSIZE in *. lia.
    + destruct l as [|q l]; simpl in Hch; [lia|].
      apply Forall_cons in Hv as [(Hq & ? & _)%valid_page_range _].
      unfold PHYSTOP, KERNBASE, PGSIZE in *. lia.
  - by constructor.
  - by constructor.
Qed.

Lemma kalloc_nil s : kinv kend s [] ->
  returns kalloc s (fun r s' => r = 0 /\ kinv kend s' [] /\ k_mem s' = k_mem s).
Proof.
  intros [Hcpu Hlk Hch Hv Hnd]. simpl in Hch. unfold returns, kalloc, bind, gets, ret.
  cbv beta iota. rewrite (acquire_free (D := fun _ => True)) by done. simpl. rewrite Hch.
  change (0 =? 0) with true. cbn [negb when].
  unfold ret. erewrite (release_held (D := fun _ => True)) by done. simpl.
  split_and!; [done| |done]. constructor; simpl; try done. by apply touched_ok.
Qed.

Lemma kalloc_cons s p l : kinv kend s (p :: l) ->
  returns kalloc s (fun r s' => r = p /\ kinv kend s' l /\
    forall a, mget (k_mem s') a = if in_range p PGSIZE a then 5 else mget (k_mem s) a).
Proof.
  intros [Hcpu Hlk Hch Hv Hnd]. destruct Hch as (Hf & Hp & Hch).
  apply Forall_cons in Hv as [Hvp Hv]. apply NoDup_cons in Hnd as [Hpl Hnd].
  pose proof (valid_page_range _ Hvp) as (Hpos & _ & Hmod).
  unfold returns, kalloc, bind, gets, ret.
  cbv beta iota. rewrite (acquire_free (D := fun _ => True)) by done. simpl. rewrite Hf.
  replace (p =? 0) with false by zcase. cbn [negb when].
  unfold modify. erewrite (release_held (D := fun _ => True)) by done. simpl.
  assert (forall a, mget (memset p 5 PGSIZE (k_mem s)) a =
    if in_range p PGSIZE a then 5 else mget (k_mem s) a) as Hm.
  { intros a. by rewrite mget_memset by done. }
  split_and!; [done| |done]. constructor; simpl; try done; [by apply touched_ok|].
  eapply chain_ext; [done| |done]. intros q a Hq Ha. rewrite Hm.
  assert (valid_page kend q) as (_ & _ & Hqm)%valid_page_range by (by rewrite Forall_forall in Hv; apply Hv).
  pose proof (page_disjoint p q Hmod Hqm ltac:(set_solver)).
  unfold PGSIZE in *. by rcase.
Qed.

Lemma kinv_write s l a v : kinv kend s l -> page_of a ∉ l ->
  kinv kend (s <| k_mem := mset a v (k_mem s) |>) l.
Proof.
  intros [Hcpu Hlk Hch Hv Hnd] Ha. constructor; simpl; try done.
  eapply chain_ext; [done| |done]. intros p b Hp Hb. rewrite mget_mset. zcase. subst b.
  exfalso. apply Ha.
  assert (valid_page kend p) as (_ & _ & Hm)%valid_page_range by (by rewrite Forall_forall in Hv; apply Hv).
  by rewrite (proj2 (page_of_range a p Hm) Hb).
Qed.

Lemma freerange_loop_spec n s l p pa_end fuel :
  kinv kend s l -> (forall q, q ∈ l -> p + Z.of_nat n * PGSIZE <= q \/ q + PGSIZE <= p) ->
  p mod PGSIZE = 0 -> kend <= p -> pa_end <= PHYSTOP ->
  p + Z.of_nat n * PGSIZE <= pa_end < p + Z.of_nat n * PGSIZE + PGSIZE -> (n < fuel)%nat ->
  returns (freerange_loop kend fuel p pa_end) s (fun _ s' => kinv kend s' (rev (pages_from p n) ++ l)).
Proof.
  revert s l p fuel. induction n as [|n IH]; intros s l p fuel Hk Hl Hp Hlo Hhi Hn Hfuel;
    (destruct fuel as [|fuel]; [lia|]); cbn [freerange_loop].
  - replace (p + PGSIZE <=? pa_end) with false by zcase. done.
  - replace (p + PGSIZE <=? pa_end) with true by (unfold PGSIZE in *; zcase).
    assert (valid_page kend p) as Hv by (split; [done|unfold PGSIZE in *; lia]).
    apply returns_bind. eapply returns_mono; [apply kfree_spec; [done|done|]|].
    { intros Hin. specialize (Hl _ Hin). unfold PGSIZE in *. lia. }
    intros _ s' [Hk' _]. eapply returns_mono; [apply (IH s' (p :: l) (p + PGSIZE)); try done|].
    + intros q Hq. apply elem_of_cons in Hq as [->|Hq]; [by right|]. destruct (Hl _ Hq); unfold PGSIZE in *; lia.
    + unfold PGSIZE in *. zmod.
    + unfold PGSIZE in *. lia.
    + unfold PGSIZE in *. lia.
    + lia.
    + intros [] s'' Hk''. rewrite pages_from_S. cbn [rev]. by rewrite <- app_assoc.
Qed.
End Facts.

(** ** Properties *)

(** C2: The allocator refines its specification.  Starting from a well-formed
    free list and a disjoint set of pages held by clients, any sequence of
    allocations, frees of held pages and writes to held pages returns exactly
    the pages the abstract allocator hands out (last freed first, 0 when none
    is left), never panics, and leaves a well-formed list: client writes never
    damage the links, and no page is free and held at once. *)
Theorem kalloc_refines (kend : Z) (ops : list kop) (s : kmem) (free held rs free' held' : list Z)
  (Hend : 0 < kend) (Hinv : kinv kend s free)
  (Hheld : Forall (valid_page kend) held) (Hnd : NoDup (free ++ held))
  (Hspec : spec_kops ops free held = Some (rs, (free', held'))) :
  returns (run_kops kend ops) s (fun r s' =>
    r = rs /\ kinv kend s' free' /\ NoDup (free' ++ held') /\ Forall (valid_page kend) held').
Proof.
  revert s free held rs Hinv Hheld Hnd Hspec.
  induction ops as [|[|pa|a v] ops IH]; intros s free held rs Hinv Hheld Hnd Hspec; simpl in *.
  - injection Hspec as <- <- <-. by apply returns_ret.
  - destruct free as [|p free]; apply bind_Some in Hspec as ([rs' st] & Hspec & [= <- ->]);
      apply returns_bind.
    + eapply returns_mono; [by apply kalloc_nil|]. intros r s' (-> & Hk & _).
      apply returns_bind. eapply returns_mono; [by eapply IH|]. intros r s'' (-> & H).
      by apply returns_ret.
    + eapply returns_mono; [by apply kalloc_cons|]. intros r s' (-> & Hk & _).
      pose proof (kinv_valid _ _ _ Hinv) as [Hp _]%Forall_cons.
      apply returns_bind. eapply returns_mono; [eapply IH; [done| | |done]|].
      * by constructor.
      * by rewrite <- Permutation_middle.
      * intros r s'' (-> & H). by apply returns_ret.
  - case_decide as Hpa; [|done]. apply returns_bind.
    apply NoDup_app in Hnd as (Hf & Hd & Hh).
    eapply returns_mono; [apply kfree_spec; [done|done| |]|].
    + rewrite Forall_forall in Hheld. by apply Hheld.
    + intros Hin. by apply (Hd _ Hin).
    + intros [] s' [Hk _]. eapply IH; [done| | |done].
      * rewrite Forall_forall in Hheld |- *. intros x [_ Hx]%list_elem_of_filter. by apply Hheld.
      * simpl. constructor.
        -- rewrite elem_of_app, list_elem_of_filter. intros [Hin|[Hne _]]; [by apply (Hd _ Hin)|done].
        -- apply NoDup_app. split_and!; [done| |by apply NoDup_filter].
           intros x Hx [_ Hx']%list_elem_of_filter. by apply (Hd x).
  - case_decide as Hpa; [|done]. apply returns_bind. eapply returns_intro; [done|].
    eapply (IH _ free held rs); [|done|done|done]. apply kinv_write; [done|done|].
    intros Hin. apply NoDup_app in Hnd as (_ & Hd & _). by apply (Hd _ Hin).
Qed.

Definition boot_kmem : kmem := mkkmem (mkcpu 0 None 0 false 0) (initlock "kmem") 0 ∅.

Lemma kalloc_refines_witness :
  let p := 0x87ffe000 in let q := 0x87fff000 in
  returns (run_kops 0x80040000 [KFree p; KFree q; KWrite 0x87ffd010 9; KAlloc; KAlloc; KAlloc]) boot_kmem
    (fun r s' => r = [q; p; 0] /\ kinv 0x80040000 s' [] /\
       NoDup ([] ++ [p; q; 0x87ffd000]) /\ Forall (valid_page 0x80040000) [p; q; 0x87ffd000]).
Proof.
  apply (kalloc_refines _ _ _ [] [0x87ffe000; 0x87fff000; 0x87ffd000]).
  - lia.
  - constructor; simpl; try done. constructor.
  - repeat first [apply Forall_cons_2; [by vm_compute|] | apply Forall_nil_2].
  - apply (bool_decide_unpack _). by vm_compute.
  - by vm_compute.
Defined.

(** After [kinit] the free list holds exactly the page-aligned addresses
    between the end of the kernel and PHYSTOP, each once, and the lock is free. *)
Theorem kinit_builds (kend : Z) (s : kmem)
  (Hend : 0 < kend < PHYSTOP) (Hcpu : cpu_ok (k_cpu s)) (Hf : k_freelist s = 0) :
  returns (kinit kend) s (fun _ s' => exists l, kinv kend s' l /\
    forall p, p ∈ l <-> valid_page kend p).
Proof.
  unfold kinit, freerange. apply returns_bind. eapply returns_intro; [done|].
  assert (PHYSTOP < 2 ^ 32) by done.
  rewrite PGROUNDUP_eq by (unfold PGSIZE; lia).
  set (p := kend + PGSIZE - 1 - (kend + PGSIZE - 1) mod PGSIZE).
  assert (p mod PGSIZE = 0 /\ kend <= p < kend + PGSIZE) as [Hp Hr] by (unfold p, PGSIZE; zmod).
  assert (PHYSTOP mod PGSIZE = 0) as HP by done.
  assert (p <= PHYSTOP) as Hle by (unfold PGSIZE in *; zmod).
  set (n := Z.to_nat ((PHYSTOP - p) / PGSIZE)).
  assert (PHYSTOP = p + Z.of_nat n * PGSIZE) as Hn by (unfold n, PGSIZE in *; zmod).
  eapply returns_mono; [apply (freerange_loop_spec kend ltac:(lia) n _ []); try done; try lia|].
  - constructor; simpl; try done. constructor.
  - intros q Hq. set_solver.
  - intros [] s' Hk. rewrite app_nil_r in Hk. eexists. split; [done|]. intros q.
    rewrite list_elem_of_In, <- in_rev, <- list_elem_of_In. split.
    + intros (i & -> & Hi%elem_of_seq)%list_elem_of_fmap. unfold valid_page, PGSIZE in *. split; [zmod|lia].
    + intros [Hq1 Hq2]. apply list_elem_of_fmap. exists (Z.to_nat ((q - p) / PGSIZE)).
      rewrite elem_of_seq. unfold PGSIZE in *. split; zmod.
Qed.

Lemma kinit_builds_witness :
  returns (kinit 0x80021000) boot_kmem (fun _ s' => exists l, kinv 0x80021000 s' l /\
    forall p, p ∈ l <-> valid_page 0x80021000 p).
Proof. apply kinit_builds; [by split|split; simpl; [lia|done]|done]. Defined.
