(* ===== verification/Vm.v ===== *)
(** * Vm: Sv39 page tables and copies between kernel and user space

    Models kernel/vm.c (and proc_mapstacks of kernel/proc.c) on top of
    [Kalloc]: page tables are read and written through physical memory, and
    their pages come from [kalloc].  Addresses are [uint64] values. *)
From S2P Require Import Prelude Spinlock Mem Kalloc.

(** ** kernel/riscv.h, kernel/memlayout.h *)

Definition PTE_V : Z := Z.shiftl 1 0.
Definition PTE_R : Z := Z.shiftl 1 1.
Definition PTE_W : Z := Z.shiftl 1 2.
Definition PTE_X : Z := Z.shiftl 1 3.
Definition PTE_U : Z := Z.shiftl 1 4.

Definition PA2PTE (pa : Z) : Z := u64 (Z.shiftl (Z.shiftr pa 12) 10).
Definition PTE2PA (pte : Z) : Z := u64 (Z.shiftl (Z.shiftr pte 10) 12).
Definition PTE_FLAGS (pte : Z) : Z := Z.land pte 0x3FF.

Definition PXMASK : Z := 0x1FF.
Definition PXSHIFT (level : Z) : Z := PGSHIFT + 9 * level.
Definition PX (level va : Z) : Z := Z.land (Z.shiftr va (PXSHIFT level)) PXMASK.

Definition MAXVA : Z := Z.shiftl 1 (9 + 9 + 9 + 12 - 1).

Definition SATP_SV39 : Z := Z.shiftl 8 60.
Definition MAKE_SATP (pagetable : Z) : Z := Z.lor SATP_SV39 (Z.shiftr pagetable 12).

Definition UART0 : Z := 0x10000000.
Definition VIRTIO0 : Z := 0x10001000.
Definition PLIC : Z := 0x0c000000.
Definition TRAMPOLINE : Z := MAXVA - PGSIZE.
Definition KSTACK (p : Z) : Z := TRAMPOLINE - (p + 1) * 2 * PGSIZE.
Definition TRAPFRAME : Z := TRAMPOLINE - PGSIZE.

(** [pte & bit] as a C condition. *)
Definition has (pte bit : Z) : bool := negb (Z.land pte bit =? 0).

Definition kload (a : Z) : M kmem Z := gets (fun k => ld64 a (k_mem k)).
Definition kstore (a v : Z) : M kmem unit := kmodify (st64 a v).

(** &pagetable[i] *)
Definition pte_at (pagetable i : Z) : Z := u64 (pagetable + 8 * i).

(** ** walk *)

(** for(int level = 2; level > 0; level--) of [walk]; [l] is [level]. *)
Fixpoint walk_loop (l : nat) (pagetable va : Z) (alloc : bool) : M kmem Z :=
  match l with
  | O => ret (pte_at pagetable (PX 0 va))
  | S l' =>
      let pte := pte_at pagetable (PX (Z.of_nat l) va) in
      e <- kload pte ;;
      if has e PTE_V then walk_loop l' (PTE2PA e) va alloc
      else if negb alloc then ret 0
      else
        p <- kalloc ;;
        if p =? 0 then ret 0 else
        kmodify (memset p 0 PGSIZE) ;;
        kstore pte (Z.lor (PA2PTE p) PTE_V) ;;
        walk_loop l' p va alloc
  end.

Definition walk (pagetable va : Z) (alloc : bool) : M kmem Z :=
  if MAXVA <=? va then panic "walk" else walk_loop 2 pagetable va alloc.

Definition walkaddr (pagetable va : Z) : M kmem Z :=
  if MAXVA <=? va then ret 0 else
  pte <- walk pagetable va false ;;
  if pte =? 0 then ret 0 else
  e <- kload pte ;;
  if negb (has e PTE_V) then ret 0 else
  if negb (has e PTE_U) then ret 0 else
  ret (PTE2PA e).

(** ** mappages, uvmunmap *)

Fixpoint mappages_loop (fuel : nat) (pagetable a last pa perm : Z) : M kmem Z :=
  match fuel with
  | O => fail EHang
  | S f =>
      pte <- walk pagetable a true ;;
      if pte =? 0 then ret (-1) else
      e <- kload pte ;;
      if has e PTE_V then panic "mappages: remap" else
      kstore pte (Z.lor (Z.lor (PA2PTE pa) perm) PTE_V) ;;
      if a =? last then ret 0
      else mappages_loop f pagetable (u64 (a + PGSIZE)) last (u64 (pa + PGSIZE)) perm
  end.

Definition mappages (pagetable va size pa perm : Z) : M kmem Z :=
  if size =? 0 then panic "mappages: size" else
  let a := PGROUNDDOWN va in
  let last := PGROUNDDOWN (u64 (va + size - 1)) in
  mappages_loop (S (Z.to_nat (u64 (last - a) / PGSIZE))) pagetable a last pa perm.

Section Vm.
Context (kend : Z).

Fixpoint uvmunmap_loop (fuel : nat) (pagetable a last : Z) (do_free : bool) : M kmem unit :=
  match fuel with
  | O => fail EHang
  | S f =>
      if negb (a <? last) then ret tt else
      pte <- walk pagetable a false ;;
      if pte =? 0 then panic "uvmunmap: walk" else
      e <- kload pte ;;
      if negb (has e PTE_V) then panic "uvmunmap: not mapped" else
      if PTE_FLAGS e =? PTE_V then panic "uvmunmap: not a leaf" else
      when do_free (kfree kend (PTE2PA e)) ;;
      kstore pte 0 ;;
      uvmunmap_loop f pagetable (u64 (a + PGSIZE)) last do_free
  end.

Definition uvmunmap (pagetable va npages : Z) (do_free : bool) : M kmem unit :=
  if negb (va mod PGSIZE =? 0) then panic "uvmunmap: not aligned" else
  let last := u64 (va + u64 (npages * PGSIZE)) in
  uvmunmap_loop (Z.to_nat ((last - va) / PGSIZE) + 2) pagetable va last do_free.

Definition uvmcreate : M kmem Z :=
  pagetable <- kalloc ;;
  if pagetable =? 0 then ret 0 else
  kmodify (memset pagetable 0 PGSIZE) ;;
  ret pagetable.

(** No test of [mem]: at address 0 the kernel has no memory mapped. *)
Definition uvminit (pagetable src sz : Z) : M kmem unit :=
  if PGSIZE <=? sz then panic "inituvm: more than a page" else
  mem <- kalloc ;;
  if mem =? 0 then fail EFault else
  kmodify (memset mem 0 PGSIZE) ;;
  _ <- mappages pagetable 0 PGSIZE mem (Z.lor (Z.lor (Z.lor PTE_W PTE_R) PTE_X) PTE_U) ;;
  kmodify (memmove mem src sz).

Definition uvmdealloc (pagetable oldsz newsz : Z) : M kmem Z :=
  if oldsz <=? newsz then ret oldsz else
  when (PGROUNDUP newsz <? PGROUNDUP oldsz)
    (let npages := i32 ((PGROUNDUP oldsz - PGROUNDUP newsz) / PGSIZE) in
     uvmunmap pagetable (PGROUNDUP newsz) (u64 npages) true) ;;
  ret newsz.

Fixpoint uvmalloc_loop (fuel : nat) (pagetable a oldsz newsz : Z) : M kmem Z :=
  match fuel with
  | O => fail EHang
  | S f =>
      if negb (a <? newsz) then ret newsz else
      mem <- kalloc ;;
      if mem =? 0 then _ <- uvmdealloc pagetable a oldsz ;; ret 0 else
      kmodify (memset mem 0 PGSIZE) ;;
      r <- mappages pagetable a PGSIZE mem (Z.lor (Z.lor (Z.lor PTE_W PTE_X) PTE_R) PTE_U) ;;
      if negb (r =? 0)
      then kfree kend mem ;; _ <- uvmdealloc pagetable a oldsz ;; ret 0
      else uvmalloc_loop f pagetable (u64 (a + PGSIZE)) oldsz newsz
  end.

Definition uvmalloc (pagetable oldsz newsz : Z) : M kmem Z :=
  if newsz <? oldsz then ret oldsz else
  let oldsz := PGROUNDUP oldsz in
  uvmalloc_loop (Z.to_nat ((newsz - oldsz) / PGSIZE) + 2) pagetable oldsz oldsz newsz.

(** A page table refers to lower ones; [fuel] bounds the depth. *)
Fixpoint freewalk (fuel : nat) (pagetable : Z) : M kmem unit :=
  match fuel with
  | O => fail EHang
  | S f =>
      for_each (seq 0 512) (fun i =>
        let a := pte_at pagetable (Z.of_nat i) in
        pte <- kload a ;;
        if has pte PTE_V && (Z.land pte (Z.lor (Z.lor PTE_R PTE_W) PTE_X) =? 0)
        then freewalk f (PTE2PA pte) ;; kstore a 0
        else if has pte PTE_V then panic "freewalk: leaf" else ret tt) ;;
      kfree kend pagetable
  end.

Definition uvmfree (pagetable sz : Z) : M kmem unit :=
  when (0 <? sz) (uvmunmap pagetable 0 (PGROUNDUP sz / PGSIZE) true) ;;
  freewalk 3 pagetable.

Fixpoint uvmcopy_loop (fuel : nat) (old new i sz : Z) : M kmem Z :=
  match fuel with
  | O => fail EHang
  | S f =>
      if negb (i <? sz) then ret 0 else
      pte <- walk old i false ;;
      if pte =? 0 then panic "uvmcopy: pte should exist" else
      e <- kload pte ;;
      if negb (has e PTE_V) then panic "uvmcopy: page not present" else
      let pa := PTE2PA e in
      let flags := PTE_FLAGS e in
      mem <- kalloc ;;
      if mem =? 0 then uvmunmap new 0 (i / PGSIZE) true ;; ret (-1) else
      kmodify (memmove mem pa PGSIZE) ;;
      r <- mappages new i PGSIZE mem flags ;;
      if negb (r =? 0)
      then kfree kend mem ;; uvmunmap new 0 (i / PGSIZE) true ;; ret (-1)
      else uvmcopy_loop f old new (u64 (i + PGSIZE)) sz
  end.

Definition uvmcopy (old new sz : Z) : M kmem Z :=
  uvmcopy_loop (Z.to_nat (sz / PGSIZE) + 2) old new 0 sz.
End Vm.

Definition uvmclear (pagetable va : Z) : M kmem unit :=
  pte <- walk pagetable va false ;;
  if pte =? 0 then panic "uvmclear" else
  e <- kload pte ;;
  kstore pte (Z.ldiff e PTE_U).

(** ** copyout, copyin, copyinstr *)

Fixpoint copyout_loop (fuel : nat) (pagetable dstva src len : Z) : M kmem Z :=
  match fuel with
  | O => fail EHang
  | S f =>
      if negb (0 <? len) then ret 0 else
      let va0 := PGROUNDDOWN dstva in
      pa0 <- walkaddr pagetable va0 ;;
      if pa0 =? 0 then ret (-1) else
      let n := PGSIZE - (dstva - va0) in
      let n := if len <? n then len else n in
      kmodify (memmove (pa0 + (dstva - va0)) src n) ;;
      copyout_loop f pagetable (u64 (va0 + PGSIZE)) (src + n) (len - n)
  end.

(** Every round but the first starts on a page boundary. *)
Definition copy_rounds (len : Z) : nat := Z.to_nat (len / PGSIZE) + 3.

Definition copyout (pagetable dstva src len : Z) : M kmem Z :=
  copyout_loop (copy_rounds len) pagetable dstva src len.

Fixpoint copyin_loop (fuel : nat) (pagetable dst srcva len : Z) : M kmem Z :=
  match fuel with
  | O => fail EHang
  | S f =>
      if negb (0 <? len) then ret 0 else
      let va0 := PGROUNDDOWN srcva in
      pa0 <- walkaddr pagetable va0 ;;
      if pa0 =? 0 then ret (-1) else
      let n := PGSIZE - (srcva - va0) in
      let n := if len <? n then len else n in
      kmodify (memmove dst (pa0 + (srcva - va0)) n) ;;
      copyin_loop f pagetable (dst + n) (u64 (va0 + PGSIZE)) (len - n)
  end.

Definition copyin (pagetable dst srcva len : Z) : M kmem Z :=
  copyin_loop (copy_rounds len) pagetable dst srcva len.

(** while(n > 0) of [copyinstr]: returns got_null, max and dst. *)
Fixpoint copyinstr_page (n : nat) (p dst max : Z) : M kmem (bool * (Z * Z)) :=
  match n with
  | O => ret (false, (max, dst))
  | S n' =>
      c <- gets (fun k => mget (k_mem k) p) ;;
      if c =? 0
      then kmodify (mset dst 0) ;; ret (true, (max, dst))
      else kmodify (mset dst c) ;; copyinstr_page n' (p + 1) (dst + 1) (max - 1)
  end.

Fixpoint copyinstr_loop (fuel : nat) (pagetable dst srcva max : Z) : M kmem Z :=
  match fuel with
  | O => fail EHang
  | S f =>
      if negb (0 <? max) then ret (-1) else
      let va0 := PGROUNDDOWN srcva in
      pa0 <- walkaddr pagetable va0 ;;
      if pa0 =? 0 then ret (-1) else
      let n := PGSIZE - (srcva - va0) in
      let n := if max <? n then max else n in
      r <- copyinstr_page (Z.to_nat n) (pa0 + (srcva - va0)) dst max ;;
      if r.1 then ret 0
      else copyinstr_loop f pagetable r.2.2 (u64 (va0 + PGSIZE)) r.2.1
  end.

Definition copyinstr (pagetable dst srcva max : Z) : M kmem Z :=
  copyinstr_loop (copy_rounds max) pagetable dst srcva max.

(** ** The kernel's page table *)

Definition kvmmap (kpgtbl va pa sz perm : Z) : M kmem unit :=
  r <- mappages kpgtbl va sz pa perm ;;
  if negb (r =? 0) then panic "kvmmap" else ret tt.

Definition proc_mapstacks (kpgtbl : Z) : M kmem unit :=
  for_each (seq 0 NPROC) (fun i =>
    pa <- kalloc ;;
    if pa =? 0 then panic "kalloc" else
    let va := KSTACK (Z.of_nat i) in
    kvmmap kpgtbl va pa PGSIZE (Z.lor PTE_R PTE_W)).

(** [etext] and [trampoline] are set by the linker script. *)
Definition kvmmake (etext trampoline : Z) : M kmem Z :=
  kpgtbl <- kalloc ;;
  if kpgtbl =? 0 then fail EFault else
  kmodify (memset kpgtbl 0 PGSIZE) ;;
  kvmmap kpgtbl UART0 UART0 PGSIZE (Z.lor PTE_R PTE_W) ;;
  kvmmap kpgtbl VIRTIO0 VIRTIO0 PGSIZE (Z.lor PTE_R PTE_W) ;;
  kvmmap kpgtbl PLIC PLIC 0x400000 (Z.lor PTE_R PTE_W) ;;
  kvmmap kpgtbl KERNBASE KERNBASE (etext - KERNBASE) (Z.lor PTE_R PTE_X) ;;
  kvmmap kpgtbl etext etext (PHYSTOP - etext) (Z.lor PTE_R PTE_W) ;;
  kvmmap kpgtbl TRAMPOLINE trampoline PGSIZE (Z.lor PTE_R PTE_X) ;;
  proc_mapstacks kpgtbl ;;
  ret kpgtbl.

(** ** Specification: the tree of page-table pages and its leaves

    [T] gives the page-table page reached by a path of indices from the root:
    [[]] is the root, [[i2]] a level-1 page, [[i2; i1]] a level-0 page. *)

Abbreviation tables := (gmap (list Z) Z).

Section Spec.
Context (kend : Z).

Record ptwf (m : mem) (T : tables) (root : Z) : Prop := {
  pt_root : T !! [] = Some root;
  pt_page : forall p t, T !! p = Some t -> (length p <= 2)%nat /\ valid_page kend t;
  pt_inj : forall p q t, T !! p = Some t -> T !! q = Some t -> p = q;
  pt_child : forall p t i, T !! p = Some t -> (length p < 2)%nat -> 0 <= i < 512 ->
    let e := ld64 (t + 8 * i) m in
    T !! (p ++ [i]) = if has e PTE_V then Some (PTE2PA e) else None;
  pt_parent : forall p i t, T !! (p ++ [i]) = Some t -> 0 <= i < 512 /\ is_Some (T !! p);
}.

Definition path (va : Z) : list Z := [PX 2 va; PX 1 va].

(** The address of the last-level PTE of [va], if its table exists, and the
    PTE itself (0 when there is no table). *)
Definition slot_of (T : tables) (va : Z) : option Z :=
  t ← T !! path va; Some (t + 8 * PX 0 va).
Definition leaf (T : tables) (m : mem) (va : Z) : Z :=
  match slot_of T va with Some a => ld64 a m | None => 0 end.

(** The page tables and the allocator together. *)
Record vm_inv (s : kmem) (l : list Z) (T : tables) (root : Z) : Prop := {
  vm_kinv : kinv kend s l;
  vm_pt : ptwf (k_mem s) T root;
  vm_sep : forall p t, T !! p = Some t -> t ∉ l;
}.

Definition table_page (T : tables) (x : Z) : Prop := exists p, T !! p = Some x.

(** What user code at virtual address [va] reads. *)
Definition user_ok (T : tables) (m : mem) (va : Z) : bool :=
  (va <? MAXVA) && has (leaf T m va) PTE_V && has (leaf T m va) PTE_U &&
  negb (PTE2PA (leaf T m va) =? 0).
Definition user_pa (T : tables) (m : mem) (va : Z) : Z :=
  PTE2PA (leaf T m va) + va mod PGSIZE.
End Spec.

(** ** Lemmas: addresses and PTEs *)

Lemma PX_eq level va : 0 <= level -> PX level va = (va / 2 ^ (12 + 9 * level)) mod 512.
Proof.
  intros ?. unfold PX, PXMASK, PXSHIFT, PGSHIFT. change 0x1FF with (Z.ones 9).
  by rewrite Z.land_ones, Z.shiftr_div_pow2 by lia.
Qed.

Lemma PX_range level va : 0 <= level -> 0 <= PX level va < 512.
Proof. intros ?. rewrite PX_eq by done. apply Z.mod_pos_bound. lia. Qed.

Lemma PX_inj va va' : 0 <= va < MAXVA -> 0 <= va' < MAXVA ->
  PX 2 va = PX 2 va' -> PX 1 va = PX 1 va' -> PX 0 va = PX 0 va' -> va / PGSIZE = va' / PGSIZE.
Proof.
  intros H H'. rewrite !PX_eq by lia. unfold PGSIZE.
  change (2 ^ (12 + 9 * 2)) with 1073741824. change (2 ^ (12 + 9 * 1)) with 2097152.
  change (2 ^ (12 + 9 * 0)) with 4096. change MAXVA with 274877906944 in *.
  replace (va / 2097152) with (va / 4096 / 512) by (rewrite Z.div_div by lia; done).
  replace (va' / 2097152) with (va' / 4096 / 512) by (rewrite Z.div_div by lia; done).
  replace (va / 1073741824) with (va / 4096 / 512 / 512) by (rewrite !Z.div_div by lia; done).
  replace (va' / 1073741824) with (va' / 4096 / 512 / 512) by (rewrite !Z.div_div by lia; done).
  assert (0 <= va / 4096 < 67108864) as Ha by zmod.
  assert (0 <= va' / 4096 < 67108864) as Ha' by zmod.
  generalize dependent (va / 4096). generalize dependent (va' / 4096). intros. zmod.
Qed.

Lemma PX_page level va : 0 <= level -> PX level (PGROUNDDOWN va) = PX level va.
Proof.
  intros ?. rewrite !PX_eq, PGROUNDDOWN_eq by done. unfold PGSIZE.
  assert (forall x, x / 2 ^ (12 + 9 * level) = x / 4096 / 2 ^ (9 * level)) as E.
  { intros x. rewrite Z.div_div by lia. f_equal. rewrite Z.pow_add_r by lia. done. }
  rewrite !E. do 2 f_equal. zmod.
Qed.

Lemma has_testbit x k : 0 <= k -> has x (Z.shiftl 1 k) = Z.testbit x k.
Proof.
  intros Hk. unfold has. rewrite Z.shiftl_1_l. destruct (Z.testbit x k) eqn:E.
  - apply negb_true_iff, Z.eqb_neq. intros H0.
    assert (Z.testbit (Z.land x (2 ^ k)) k = true) as H1.
    { rewrite Z.land_spec, E. by rewrite Z.pow2_bits_true. }
    by rewrite H0, Z.bits_0 in H1.
  - apply negb_false_iff, Z.eqb_eq, Z.bits_inj'. intros j Hj.
    rewrite Z.land_spec, Z.bits_0, Z.pow2_bits_eqb by lia.
    destruct (Z.eqb_spec k j); subst; [by rewrite E|apply andb_false_r].
Qed.

Lemma u64_small x : 0 <= x < 2 ^ 64 -> u64 x = x.
Proof. intros. by apply Z.mod_small. Qed.

(** A PTE built from a page address and flag bits below bit 10. *)
Lemma PTE2PA_PA2PTE pa perm : 0 <= pa < 2 ^ 64 -> pa mod PGSIZE = 0 -> 0 <= perm < 1024 ->
  PTE2PA (Z.lor (PA2PTE pa) perm) = pa.
Proof.
  intros Hpa Hm Hp. unfold PTE2PA, PA2PTE.
  assert (Z.shiftl (Z.shiftr pa 12) 10 = pa / 4) as ->.
  { rewrite Z.shiftl_mul_pow2, Z.shiftr_div_pow2 by lia. unfold PGSIZE in *.
    change (2 ^ 12) with 4096. change (2 ^ 10) with 1024. zmod. }
  rewrite (u64_small (pa / 4)) by (split; zmod).
  rewrite Z.shiftr_lor. rewrite (Z.shiftr_div_pow2 perm), (Z.shiftr_div_pow2 (pa / 4)) by lia.
  change (2 ^ 10) with 1024. replace (perm / 1024) with 0 by zmod. rewrite Z.lor_0_r.
  rewrite Z.shiftl_mul_pow2 by lia. change (2 ^ 12) with 4096.
  unfold PGSIZE in *. replace (pa / 4 / 1024 * 4096) with pa by zmod. by apply u64_small.
Qed.

Lemma lor_range a b n : 0 <= n -> 0 <= a < 2 ^ n -> 0 <= b < 2 ^ n -> 0 <= Z.lor a b < 2 ^ n.
Proof.
  intros Hn Ha Hb. split; [apply Z.lor_nonneg; lia|].
  destruct (Z.eq_dec (Z.lor a b) 0) as [->|Hne]; [lia|].
  assert (0 <= Z.lor a b) by (apply Z.lor_nonneg; lia).
  apply Z.log2_lt_pow2; [lia|]. rewrite Z.log2_lor by lia.
  apply Z.max_lub_lt.
  - destruct (Z.eq_dec a 0) as [->|]; [|apply Z.log2_lt_pow2; lia].
    simpl. destruct (Z.eq_dec n 0) as [->|]; [|lia].
    change (2 ^ 0) with 1 in *. assert (b = 0) as -> by lia. done.
  - destruct (Z.eq_dec b 0) as [->|]; [|apply Z.log2_lt_pow2; lia].
    simpl. destruct (Z.eq_dec n 0) as [->|]; [|lia].
    change (2 ^ 0) with 1 in *. assert (a = 0) as -> by lia. done.
Qed.

Lemma PA2PTE_range pa : 0 <= pa < 2 ^ 64 -> 0 <= PA2PTE pa < 2 ^ 64.
Proof. intros. unfold PA2PTE, u64. apply Z.mod_pos_bound. lia. Qed.

(** ** Lemmas: the tree in memory *)

Fixpoint idx (l : nat) (va : Z) : list Z :=
  match l with O => [] | S l' => PX (Z.of_nat l) va :: idx l' va end.

Section Tree.
Context (kend : Z) (Hend : 0 < kend).

Lemma pte_at_valid t i : valid_page kend t -> 0 <= i < 512 -> pte_at t i = t + 8 * i.
Proof.
  intros (? & ? & ?)%(valid_page_range _ Hend) ?. apply u64_small.
  unfold PHYSTOP, KERNBASE, PGSIZE in *. lia.
Qed.

(** An entry of one page-table page is untouched by a store to another
    entry, of the same page or of another. *)
Lemma ld64_entry_ne t i u j v m : valid_page kend t -> valid_page kend u ->
  0 <= i < 512 -> 0 <= j < 512 -> t <> u \/ i <> j ->
  ld64 (u + 8 * j) (st64 (t + 8 * i) v m) = ld64 (u + 8 * j) m.
Proof.
  intros (_ & _ & Ht)%(valid_page_range _ Hend) (_ & _ & Hu)%(valid_page_range _ Hend) Hi Hj Hne.
  apply ld64_st64_ne. destruct (decide (t = u)) as [->|Htu]; [lia|].
  pose proof (page_disjoint t u Ht Hu Htu). unfold PGSIZE in *. lia.
Qed.

Lemma ld64_entry_page q u j m m' : valid_page kend q -> valid_page kend u -> q <> u -> 0 <= j < 512 ->
  (forall a, ~ (q <= a < q + PGSIZE) -> mget m' a = mget m a) ->
  ld64 (u + 8 * j) m' = ld64 (u + 8 * j) m.
Proof.
  intros (_ & _ & Ht)%(valid_page_range _ Hend) (_ & _ & Hu)%(valid_page_range _ Hend) Hne Hj Hm.
  apply ld64_ext. intros k Hk. apply Hm.
  pose proof (page_disjoint q u Ht Hu Hne). unfold PGSIZE in *. lia.
Qed.

Lemma pt_none_app m T root p q : ptwf kend m T root -> T !! p = None -> T !! (p ++ q) = None.
Proof.
  intros Hpt Hp. induction q as [|x q IH] using rev_ind; [by rewrite app_nil_r|].
  rewrite app_assoc. destruct (T !! ((p ++ q) ++ [x])) eqn:E; [|done].
  apply (pt_parent _ _ _ _ Hpt) in E as [_ [? E]]. by rewrite IH in E.
Qed.

Lemma walk_loop_noalloc s T root n p t va : ptwf kend (k_mem s) T root -> T !! p = Some t ->
  (length p + n = 2)%nat ->
  walk_loop n t va false s =
  Ret (match T !! (p ++ idx n va) with Some t' => t' + 8 * PX 0 va | None => 0 end) s.
Proof.
  intros Hpt. revert p t. induction n as [|n IH]; intros p t Hp Hl; cbn [walk_loop idx].
  - rewrite app_nil_r, Hp. pose proof (pt_page _ _ _ _ Hpt _ _ Hp) as [_ Hv].
    by rewrite pte_at_valid by (try apply PX_range; done).
  - pose proof (pt_page _ _ _ _ Hpt _ _ Hp) as [_ Hv].
    pose proof (PX_range (Z.of_nat (S n)) va ltac:(lia)) as Hr.
    rewrite pte_at_valid by done. set (i := PX (Z.of_nat (S n)) va) in *.
    pose proof (pt_child _ _ _ _ Hpt p t i Hp ltac:(lia) Hr) as Hc. cbv zeta in Hc.
    unfold kload, bind, gets. destruct (has _ PTE_V).
    + rewrite (IH (p ++ [i])); [by rewrite <- app_assoc|done|rewrite length_app; simpl; lia].
    + cbn [negb]. replace (p ++ i :: idx n va) with ((p ++ [i]) ++ idx n va) by (by rewrite <- app_assoc).
      by rewrite (pt_none_app _ _ _ _ _ Hpt Hc).
Qed.

Lemma walk_noalloc s T root va : ptwf kend (k_mem s) T root -> va < MAXVA ->
  walk root va false s = Ret (default 0 (slot_of T va)) s.
Proof.
  intros Hpt Hva. unfold walk. replace (MAXVA <=? va) with false by zcase.
  rewrite (walk_loop_noalloc s T root 2 [] root va Hpt (pt_root _ _ _ _ Hpt)) by done.
  unfold slot_of, path. simpl. by destruct (T !! _).
Qed.

(** The entry a new table hangs from. *)
Lemma new_pte q : valid_page kend q ->
  let e := Z.lor (PA2PTE q) PTE_V in 0 <= e < 2 ^ 64 /\ has e PTE_V = true /\ PTE2PA e = q.
Proof.
  intros (Hq0 & Hq1 & Hm)%(valid_page_range _ Hend). cbv zeta.
  assert (0 <= q < 2 ^ 64) as Hq by (unfold PHYSTOP, KERNBASE, PGSIZE in *; lia).
  split; [|split].
  - apply (lor_range _ _ 64); [lia|by apply PA2PTE_range|done].
  - unfold PTE_V. rewrite has_testbit, Z.lor_spec by lia. by rewrite orb_true_r.
  - by apply PTE2PA_PA2PTE.
Qed.

(** The tree after a table page [q] is hung from entry [i] of [t]. *)
Lemma pt_grow m m1 T root p t i q :
  ptwf kend m T root -> T !! p = Some t -> (length p < 2)%nat -> 0 <= i < 512 ->
  valid_page kend q -> (forall p' t', T !! p' = Some t' -> t' <> q) ->
  T !! (p ++ [i]) = None ->
  (forall a, ~ (q <= a < q + PGSIZE) -> mget m1 a = mget m a) ->
  (forall a, q <= a < q + PGSIZE -> mget m1 a = 0) ->
  let m2 := st64 (t + 8 * i) (Z.lor (PA2PTE q) PTE_V) m1 in
  ptwf kend m2 (<[p ++ [i] := q]> T) root /\
  forall va, leaf (<[p ++ [i] := q]> T) m2 va = leaf T m va.
Proof.
  intros Hpt Hp Hl Hi Hq Hfresh Hnone Hm1 Hz m2.
  pose proof (pt_page _ _ _ _ Hpt _ _ Hp) as [_ Hvt].
  destruct (new_pte q Hq) as (He & HeV & Heq).
  assert (t <> q) as Htq by (by eapply Hfresh).
  assert (forall j, 0 <= j < 512 -> ld64 (q + 8 * j) m2 = 0) as Hqz.
  { intros j Hj. unfold m2. rewrite ld64_entry_ne by auto.
    apply (load_le_zero 8). intros k Hk. apply Hz. unfold PGSIZE. lia. }
  assert (forall p' u j, T !! p' = Some u -> 0 <= j < 512 -> t <> u \/ i <> j ->
    ld64 (u + 8 * j) m2 = ld64 (u + 8 * j) m) as Hold.
  { intros p' u j Hu Hj Hne. pose proof (pt_page _ _ _ _ Hpt _ _ Hu) as [_ Hvu].
    unfold m2. rewrite ld64_entry_ne by auto. apply (ld64_entry_page q); auto.
    intros ->. by apply (Hfresh _ _ Hu). }
  split.
  - constructor.
    + rewrite lookup_insert_ne; [by apply Hpt|]. by destruct p.
    + intros p' t' [[<- <-]|[_ Ht']]%lookup_insert_Some; [|by eapply pt_page].
      rewrite length_app. simpl. split; [lia|done].
    + intros p1 p2 u [[<- <-]|[_ H1]]%lookup_insert_Some [[<- H2]|[_ H2]]%lookup_insert_Some;
        [done| | |by eapply pt_inj]; [by apply Hfresh in H2|subst; by apply Hfresh in H1].
    + intros p' t' j Ht' Hlp Hj. cbv zeta.
      apply lookup_insert_Some in Ht' as [[<- <-]|[Hne Ht']].
      * rewrite Hqz by done. rewrite lookup_insert_ne.
        -- by apply (pt_none_app _ _ _ _ _ Hpt).
        -- intros E. apply (f_equal length) in E. rewrite !length_app in E. simpl in E. lia.
      * destruct (decide (p' ++ [j] = p ++ [i])) as [E|Hd].
        -- apply app_inj_tail in E as [-> ->]. rewrite lookup_insert_eq.
           assert (t' = t) as -> by congruence.
           unfold m2. rewrite ld64_st64, u64_small by done. by rewrite HeV, Heq.
        -- assert (t <> t' \/ i <> j) as Hd'.
           { destruct (decide (t = t')) as [->|]; [right|by left].
             intros ->. by rewrite (pt_inj _ _ _ _ Hpt _ _ _ Hp Ht') in Hd. }
           rewrite lookup_insert_ne, (Hold p') by auto.
           by apply (pt_child _ _ _ _ Hpt).
    + intros p' j t' [[E <-]|[_ Ht']]%lookup_insert_Some.
      * apply app_inj_tail in E as [-> ->]. split; [done|].
        rewrite lookup_insert_ne; [by eexists|].
        intros E. apply (f_equal length) in E. rewrite length_app in E. simpl in E. lia.
      * apply (pt_parent _ _ _ _ Hpt) in Ht' as [? Ht']. split; [done|].
        apply lookup_insert_is_Some'. by right.
  - intros va. unfold leaf, slot_of. pose proof (PX_range 0 va ltac:(lia)).
    destruct (decide (path va = p ++ [i])) as [->|Hne].
    + rewrite lookup_insert_eq, Hnone. by apply Hqz.
    + rewrite lookup_insert_ne by done. destruct (T !! path va) as [u|] eqn:Hu; [|done].
      simpl. apply (Hold (path va)); [done|done|]. left. intros ->.
      pose proof (pt_inj _ _ _ _ Hpt _ _ _ Hp Hu) as ->. simpl in Hl. lia.
Qed.

(** [extends s l T s' l' T']: the table pages added were taken from the
    front of the free list, and every page that is neither free nor a table
    is as before.  [grown]: what user code sees is as before, too. *)
Record extends (s : kmem) (l : list Z) (T : tables) (s' : kmem) (l' : list Z) (T' : tables) : Prop := {
  ex_sub : T ⊆ T';
  ex_free : exists used, l = used ++ l' /\
    forall x, table_page T' x <-> table_page T x \/ x ∈ used;
  ex_mem : forall a, page_of a ∉ l -> ~ table_page T (page_of a) -> mget (k_mem s') a = mget (k_mem s) a;
}.
Definition grown (s : kmem) (l : list Z) (T : tables) (s' : kmem) (l' : list Z) (T' : tables) : Prop :=
  extends s l T s' l' T' /\ forall va, leaf T' (k_mem s') va = leaf T (k_mem s) va.

Lemma extends_trans s1 l1 T1 s2 l2 T2 s3 l3 T3 :
  extends s1 l1 T1 s2 l2 T2 -> extends s2 l2 T2 s3 l3 T3 -> extends s1 l1 T1 s3 l3 T3.
Proof.
  intros [A1 (u1 & -> & B1) D1] [A2 (u2 & -> & B2) D2]. constructor.
  - by transitivity T2.
  - exists (u1 ++ u2). rewrite app_assoc. split; [done|]. intros x.
    rewrite B2, B1, elem_of_app. tauto.
  - intros a Hl Ht. rewrite D2, D1; [done|done|done| |].
    + intros Hin. apply Hl. rewrite elem_of_app. by right.
    + rewrite B1. intros [|Hin]; [done|]. apply Hl. rewrite elem_of_app. by left.
Qed.

Lemma extends_same s l T s' :
  (forall a, page_of a ∉ l -> ~ table_page T (page_of a) -> mget (k_mem s') a = mget (k_mem s) a) ->
  extends s l T s' l T.
Proof. constructor; try done. exists []. split; [done|]. set_solver. Qed.

Lemma grown_refl s l T : grown s l T s l T.
Proof. split; [by apply extends_same|done]. Qed.

Lemma grown_trans s1 l1 T1 s2 l2 T2 s3 l3 T3 :
  grown s1 l1 T1 s2 l2 T2 -> grown s2 l2 T2 s3 l3 T3 -> grown s1 l1 T1 s3 l3 T3.
Proof.
  intros [A1 C1] [A2 C2]. split; [by eapply extends_trans|]. intros va. by rewrite C2.
Qed.

Lemma slot_page T m root va a : ptwf kend m T root -> slot_of T va = Some a ->
  exists t, T !! path va = Some t /\ valid_page kend t /\ a = t + 8 * PX 0 va /\ page_of a = t.
Proof.
  intros Hpt. unfold slot_of. destruct (T !! path va) as [t|] eqn:E; [|done]. intros [= <-].
  pose proof (pt_page _ _ _ _ Hpt _ _ E) as [_ Hv]. exists t. split_and!; [done|done|done|].
  pose proof (PX_range 0 va ltac:(lia)). pose proof (valid_page_range _ Hend _ Hv) as (_ & _ & Hm).
  apply page_of_range; [done|]. unfold PGSIZE. lia.
Qed.

(** One missing table, allocated. *)
Lemma alloc_table s l T root p t i :
  vm_inv kend s l T root -> T !! p = Some t -> (length p < 2)%nat -> 0 <= i < 512 ->
  T !! (p ++ [i]) = None ->
  returns kalloc s (fun q s1 =>
    (q = 0 /\ vm_inv kend s1 l T root /\ grown s l T s1 l T /\ l = []) \/
    (q <> 0 /\ exists l', l = q :: l' /\
      let s2 := s1 <| k_mem := st64 (t + 8 * i) (Z.lor (PA2PTE q) PTE_V)
                                 (memset q 0 PGSIZE (k_mem s1)) |> in
      vm_inv kend s2 l' (<[p ++ [i] := q]> T) root /\ grown s l T s2 l' (<[p ++ [i] := q]> T))).
Proof.
  intros [Hk Hpt Hsep] Hp Hl Hi Hnone. destruct l as [|q l].
  - eapply returns_mono; [by apply kalloc_nil|]. intros r s1 (-> & Hk1 & Hm). left.
    split_and!; [done| | |done].
    + constructor; [done|by rewrite Hm|done].
    + split; [apply extends_same|]; intros; by rewrite Hm.
  - pose proof (kinv_valid _ _ _ Hk) as [Hvq Hvl]%Forall_cons.
    pose proof (kinv_nodup _ _ _ Hk) as [Hql Hnd]%NoDup_cons.
    assert (forall p' t', T !! p' = Some t' -> t' <> q) as Hfresh.
    { intros p' t' Ht' ->. apply (Hsep _ _ Ht'). set_solver. }
    eapply returns_mono; [by apply (kalloc_cons kend Hend)|]. intros r s1 (-> & Hk1 & Hm). right.
    pose proof (valid_page_range _ Hend _ Hvq) as (Hq0 & _ & Hqm). split; [lia|].
    exists l. split; [done|].
    assert (forall a, mget (memset q 0 PGSIZE (k_mem s1)) a =
      if in_range q PGSIZE a then 0 else mget (k_mem s) a) as Hm1.
    { intros a. rewrite mget_memset, Hm by done. by destruct (in_range _ _ _). }
    destruct (pt_grow (k_mem s) (memset q 0 PGSIZE (k_mem s1)) T root p t i q) as [Hpt' Hleaf'];
      try done; [intros a Ha; rewrite Hm1; by rcase..|].
    pose proof (pt_page _ _ _ _ Hpt _ _ Hp) as [_ Hvt].
    pose proof (valid_page_range _ Hend _ Hvt) as (_ & _ & Htm).
    cbv zeta. split; [constructor|split; [constructor|done]].
    + destruct Hk1 as [A B C _ _]. constructor; simpl; try done.
      eapply (chain_ext kend Hend); [exact Hvl| |exact C]. intros u a Hu Ha.
      assert (valid_page kend u) as Hvu by (rewrite Forall_forall in Hvl; by apply Hvl).
      pose proof (valid_page_range _ Hend _ Hvu) as (_ & _ & Hum).
      rewrite mget_st64, mget_memset by
        (try done; pose proof (page_disjoint t u Htm Hum ltac:(intros ->; apply (Hsep _ _ Hp); set_solver));
         unfold PGSIZE in *; lia).
      pose proof (page_disjoint q u Hqm Hum ltac:(set_solver)). unfold PGSIZE in *. by rcase.
    + done.
    + intros p' t' [[<- <-]|[_ Ht']]%lookup_insert_Some; [done|].
      specialize (Hsep _ _ Ht'). set_solver.
    + by apply insert_subseteq.
    + exists [q]. split; [done|]. intros x. unfold table_page. split.
      * intros (p' & [[<- <-]|[_ Ht']]%lookup_insert_Some); [set_solver|]. left. by exists p'.
      * intros [(p' & Ht')|Hx%list_elem_of_singleton].
        -- exists p'. rewrite lookup_insert_ne; [done|]. intros E. by rewrite <- E, Hnone in Ht'.
        -- exists (p ++ [i]). subst. by rewrite lookup_insert_eq.
    + simpl. intros a Ha Hta. rewrite mget_st64, Hm1.
      * assert (~ (q <= a < q + PGSIZE)) by
          (intros Hr; apply Ha; rewrite (proj2 (page_of_range a q Hqm) Hr); set_solver).
        by rcase.
      * intros Hr. apply Hta. exists p. rewrite (proj2 (page_of_range a t Htm)); [done|].
        unfold PGSIZE. lia.
Qed.

(** The tables of [T'] that are not of [T] are on the paths [Q]. *)
Definition only (T T' : tables) (Q : list Z -> Prop) : Prop := forall p, is_Some (T' !! p) -> is_Some (T !! p) \/ Q p.

Lemma only_trans T1 T2 T3 Q : only T1 T2 Q -> only T2 T3 Q -> only T1 T3 Q.
Proof. intros H1 H2 p Hp. destruct (H2 p Hp); auto. Qed.

Lemma only_mono T T' (Q Q' : list Z -> Prop) : (forall p, Q p -> Q' p) -> only T T' Q -> only T T' Q'.
Proof. intros H H1 p Hp. destruct (H1 p Hp); auto. Qed.

Lemma walk_loop_alloc n s l T root p t va :
  vm_inv kend s l T root -> T !! p = Some t -> (length p + n = 2)%nat ->
  returns (walk_loop n t va true) s (fun r s' => exists l' T',
    vm_inv kend s' l' T' root /\ grown s l T s' l' T' /\ only T T' (fun p' => p' `prefix_of` p ++ idx n va) /\
    ((r = 0 /\ l' = []) \/
     exists t', T' !! (p ++ idx n va) = Some t' /\ r = t' + 8 * PX 0 va)).
Proof.
  revert s l T p t. induction n as [|n IH]; intros s l T p t Hinv Hp Hl; cbn [walk_loop idx].
  - pose proof (pt_page _ _ _ _ (vm_pt _ _ _ _ _ Hinv) _ _ Hp) as [_ Hv].
    rewrite pte_at_valid by (try apply PX_range; done). apply returns_ret.
    exists l, T. split_and!; [done|apply grown_refl|by left|]. right. exists t. by rewrite app_nil_r.
  - pose proof (pt_page _ _ _ _ (vm_pt _ _ _ _ _ Hinv) _ _ Hp) as [_ Hv].
    pose proof (PX_range (Z.of_nat (S n)) va ltac:(lia)) as Hr.
    rewrite pte_at_valid by done. set (i := PX (Z.of_nat (S n)) va) in *.
    pose proof (pt_child _ _ _ _ (vm_pt _ _ _ _ _ Hinv) p t i Hp ltac:(lia) Hr) as Hc. cbv zeta in Hc.
    assert (forall q, (p ++ [i]) ++ q = p ++ i :: q) as Happ by (intros; by rewrite <- app_assoc).
    apply returns_bind. eapply returns_intro; [done|]. destruct (has _ PTE_V).
    + eapply returns_mono; [apply (IH s l T (p ++ [i])); [done|done|rewrite length_app; simpl; lia]|].
      intros r s' H. rewrite Happ in H. done.
    + cbn [negb]. apply returns_bind. eapply returns_mono; [eapply (alloc_table s l T root p t i); by auto with lia|].
      intros q s1 [(-> & Hinv1 & Hg & Hnil)|(Hq & l' & -> & Hinv' & Hg)].
      * simpl. apply returns_ret. exists l, T. split_and!; [done|done|by left|]. by left.
      * replace (q =? 0) with false by zcase. apply returns_bind. eapply returns_intro; [done|].
        apply returns_bind. eapply returns_intro; [done|].
        eapply returns_mono; [eapply (IH _ l' _ (p ++ [i]) q Hinv')|].
        -- by rewrite lookup_insert_eq.
        -- rewrite length_app. simpl. lia.
        -- intros r s' (l'' & T'' & A & B & Q & C). exists l'', T''. rewrite Happ in C, Q.
           split_and!; [done|by eapply grown_trans| |done]. eapply only_trans; [|exact Q].
           intros p' [x Hx]. apply lookup_insert_Some in Hx as [[<- _]|[_ Hx]]; [right|left; by exists x].
           exists (idx n va). by rewrite Happ.
Qed.

Lemma walk_alloc s l T root va : vm_inv kend s l T root -> va < MAXVA ->
  returns (walk root va true) s (fun r s' => exists l' T',
    vm_inv kend s' l' T' root /\ grown s l T s' l' T' /\ only T T' (fun p => p `prefix_of` path va) /\
    ((r = 0 /\ l' = []) \/ (r <> 0 /\ slot_of T' va = Some r))).
Proof.
  intros Hinv Hva. unfold walk. replace (MAXVA <=? va) with false by zcase.
  eapply returns_mono; [apply (walk_loop_alloc 2 s l T root [] root); [done|by apply Hinv|done]|].
  intros r s' (l' & T' & A & B & Q & C). exists l', T'. split_and!; [done|done|exact Q|].
  destruct C as [C|(t' & Ht' & ->)]; [by left|right].
  pose proof (pt_page _ _ _ _ (vm_pt _ _ _ _ _ A) _ _ Ht') as [_ (? & _)%(valid_page_range _ Hend)].
  pose proof (PX_range 0 va ltac:(lia)). split; [lia|]. unfold slot_of, path.
  change [PX 2 va; PX 1 va] with ([] ++ idx 2 va). by rewrite Ht'.
Qed.

(** Stores to a last-level entry. *)
Lemma slot_inj m T root va va' a : ptwf kend m T root -> 0 <= va < MAXVA -> 0 <= va' < MAXVA ->
  slot_of T va = Some a -> slot_of T va' = Some a -> va / PGSIZE = va' / PGSIZE.
Proof.
  intros Hpt Hva Hva' H H'.
  destruct (slot_page _ _ _ _ _ Hpt H) as (t & Ht & _ & E & Ep).
  destruct (slot_page _ _ _ _ _ Hpt H') as (t' & Ht' & _ & E' & Ep').
  assert (t' = t) as -> by congruence.
  pose proof (pt_inj _ _ _ _ Hpt _ _ _ Ht Ht') as [= E2 E1]. apply PX_inj; auto. lia.
Qed.

Lemma slot_same_page T va va' : va / PGSIZE = va' / PGSIZE -> slot_of T va = slot_of T va'.
Proof.
  intros E. assert (PGROUNDDOWN va = PGROUNDDOWN va') as Hd.
  { rewrite !PGROUNDDOWN_eq. unfold PGSIZE in *. zmod. }
  unfold slot_of, path.
  rewrite <- (PX_page 2 va), <- (PX_page 1 va), <- (PX_page 0 va), Hd by lia.
  by rewrite !PX_page by lia.
Qed.

Lemma store_leaf s l T root va a v : vm_inv kend s l T root -> 0 <= va < MAXVA -> slot_of T va = Some a ->
  let s' := s <| k_mem := st64 a v (k_mem s) |> in
  vm_inv kend s' l T root /\ extends s l T s' l T /\
  forall va', 0 <= va' < MAXVA ->
    leaf T (k_mem s') va' = if va / PGSIZE =? va' / PGSIZE then u64 v else leaf T (k_mem s) va'.
Proof.
  intros [Hk Hpt Hsep] Hva Ha s'.
  destruct (slot_page _ _ _ _ _ Hpt Ha) as (t & Ht & Hvt & -> & Epg).
  pose proof (PX_range 0 va ltac:(lia)) as Hi. pose proof (valid_page_range _ Hend _ Hvt) as (_ & _ & Htm).
  split; [constructor|split].
  - destruct Hk as [A B C D E]. constructor; simpl; try done.
    eapply (chain_ext kend Hend); [exact D| |exact C]. intros u b Hu Hb. apply mget_st64.
    assert (valid_page kend u) as Hvu by (rewrite Forall_forall in D; by apply D).
    pose proof (valid_page_range _ Hend _ Hvu) as (_ & _ & Hum).
    pose proof (page_disjoint t u Htm Hum ltac:(intros ->; by apply (Hsep _ _ Ht))).
    unfold PGSIZE in *. lia.
  - destruct Hpt as [A B C D E]. constructor; try done. intros p u j Hu Hp Hj. cbv zeta. simpl.
    rewrite ld64_entry_ne; [by apply D|done|by eapply B|done|done|].
    left. intros ->. rewrite (C _ _ _ Hu Ht) in Hp. simpl in Hp. lia.
  - done.
  - apply extends_same. intros b _ Hb. simpl. apply mget_st64. intros Hr. apply Hb. exists (path va).
    rewrite (proj2 (page_of_range b t Htm)); [done|]. unfold PGSIZE. lia.
  - intros va' Hva'. unfold leaf. simpl. zcase.
    + rewrite <- (slot_same_page T va va'), Ha by done. apply ld64_st64.
    + destruct (slot_of T va') as [a'|] eqn:Ha'; [|done].
      destruct (slot_page _ _ _ _ _ Hpt Ha') as (t' & Ht' & Hvt' & -> & _).
      pose proof (PX_range 0 va' ltac:(lia)). apply ld64_entry_ne; auto.
      destruct (decide (t = t')) as [->|]; [right|by left]. intros E0.
      apply n. eapply slot_inj; [exact Hpt|done|done|exact Ha|]. by rewrite Ha', E0.
Qed.

(** [lf'] is [lf] with the [k] pages from [a] up mapped to the pages from [pa] up. *)
Definition mapped (lf lf' : Z -> Z) (a pa perm k : Z) : Prop :=
  forall va, 0 <= va < MAXVA ->
    lf' va = if (a <=? va) && (va <? a + k * PGSIZE)
             then u64 (Z.lor (Z.lor (PA2PTE (pa + (PGROUNDDOWN va - a))) perm) PTE_V) else lf va.

Lemma mappages_loop_spec n fuel s l T root a pa perm :
  vm_inv kend s l T root -> (n < fuel)%nat ->
  0 <= a -> a mod PGSIZE = 0 -> a + Z.of_nat n * PGSIZE < MAXVA ->
  0 <= pa -> pa + (Z.of_nat n + 1) * PGSIZE < 2 ^ 64 ->
  (forall va, a <= va < a + (Z.of_nat n + 1) * PGSIZE -> has (leaf T (k_mem s) va) PTE_V = false) ->
  returns (mappages_loop fuel root a (a + Z.of_nat n * PGSIZE) pa perm) s (fun r s' => exists l' T' k,
    vm_inv kend s' l' T' root /\ extends s l T s' l' T' /\
    mapped (leaf T (k_mem s)) (leaf T' (k_mem s')) a pa perm k /\
    only T T' (fun p => exists va, a <= va < a + (Z.of_nat n + 1) * PGSIZE /\ p `prefix_of` path va) /\
    ((r = 0 /\ k = Z.of_nat n + 1) \/ (r = -1 /\ 0 <= k <= Z.of_nat n /\ l' = []))).
Proof.
  revert fuel s l T a pa. induction n as [|n IH]; intros fuel s l T a pa Hinv Hf Ha Ham Hmax Hpa Hpamax Hno;
    (destruct fuel as [|fuel]; [lia|]); cbn [mappages_loop].
  all: assert (MAXVA = 67108864 * PGSIZE) as HM by done.
  all: apply returns_bind; eapply returns_mono; [apply (walk_alloc s l T root a Hinv); unfold PGSIZE in *; lia|].
  all: intros r s1 (l1 & T1 & Hinv1 & [Hex1 Hl1] & Hq1 & Hr).
  all: assert (forall Q : list Z -> Prop, (forall p, p `prefix_of` path a -> Q p) -> only T T1 Q) as Hq
    by (intros Q HQ; exact (only_mono _ _ _ _ HQ Hq1)).
  all: assert (forall b, a < b -> forall p, p `prefix_of` path a -> exists va, a <= va < b /\ p `prefix_of` path va) as Hp
    by (intros b Hb p Hp; exists a; auto with lia).
  all: assert (0 <= a < MAXVA) as Hva by (unfold PGSIZE in *; lia).
  all: destruct Hr as [(-> & ->)|(Hr0 & Hslot)];
    [apply returns_ret; exists [], T1, 0; split_and!; [done|done| |apply Hq, Hp; unfold PGSIZE; lia|by right; auto with lia];
     intros va _; rewrite Hl1; destruct (a <=? va) eqn:?; [|done]; by zcase|].
  all: replace (r =? 0) with false by zcase; apply returns_bind; (eapply returns_intro; [done|]).
  all: replace (ld64 r (k_mem s1)) with (leaf T1 (k_mem s1) a) by (unfold leaf; by rewrite Hslot).
  all: rewrite Hl1, Hno by (unfold PGSIZE in *; lia).
  all: destruct (store_leaf s1 l1 T1 root a r (Z.lor (Z.lor (PA2PTE pa) perm) PTE_V) Hinv1 Hva Hslot)
    as (Hinv2 & Hex2 & Hl2).
  all: apply returns_bind; (eapply returns_intro; [done|]).
  - replace (a =? a + Z.of_nat 0 * PGSIZE) with true by zcase. apply returns_ret.
    exists l1, T1, 1. split_and!; [done|by eapply extends_trans| |apply Hq, Hp; unfold PGSIZE; lia|by left].
    intros va Hvar. rewrite Hl2, Hl1, PGROUNDDOWN_eq by done. unfold PGSIZE in *.
    destruct (Z.eqb_spec (a / 4096) (va / 4096)); destruct (Z.leb_spec a va);
      destruct (Z.ltb_spec va (a + 1 * 4096)); simpl; try zmod; [|done..].
    do 4 f_equal. zmod.
  - replace (a =? a + Z.of_nat (S n) * PGSIZE) with false by (unfold PGSIZE in *; zcase).
    rewrite !u64_small by (unfold PGSIZE in *; lia).
    replace (a + Z.of_nat (S n) * PGSIZE) with ((a + PGSIZE) + Z.of_nat n * PGSIZE) by lia.
    eapply returns_mono; [apply (IH fuel _ l1 T1 (a + PGSIZE) (pa + PGSIZE) Hinv2)|].
    all: try (unfold PGSIZE in *; first [lia|zmod]).
    + intros va Hvar. rewrite Hl2, Hl1 by (unfold PGSIZE in *; zmod).
      destruct (Z.eqb_spec (a / PGSIZE) (va / PGSIZE)); [unfold PGSIZE in *; zmod|].
      apply Hno. unfold PGSIZE in *. lia.
    + intros q s' (l' & T' & k & A & B & C & Q & D). exists l', T', (k + 1). split_and!.
      * done.
      * by do 2 (eapply extends_trans; [done|]).
      * intros va Hvar. rewrite (C va), (Hl2 va), (Hl1 va), PGROUNDDOWN_eq by done. unfold PGSIZE in *.
        assert (0 <= k) by (destruct D; lia).
        destruct (Z.eqb_spec (a / 4096) (va / 4096)); destruct (Z.leb_spec a va);
        destruct (Z.leb_spec (a + 4096) va); destruct (Z.ltb_spec va (a + 4096 + k * 4096));
        destruct (Z.ltb_spec va (a + (k + 1) * 4096)); simpl; try zmod; try done.
        -- do 4 f_equal. zmod.
        -- do 4 f_equal. lia.
      * eapply only_trans; [apply Hq, Hp; unfold PGSIZE; lia|]. eapply only_mono; [|exact Q].
        intros p (va & Hvar & Hpre). exists va. split; [|done]. unfold PGSIZE in *. lia.
      * destruct D as [[-> ->]|(-> & ? & ->)]; [left|right]; split_and?; auto with lia.
Qed.

(** ** Lemmas: reading through the tables *)

Lemma leaf_page T m va : leaf T m (PGROUNDDOWN va) = leaf T m va.
Proof.
  unfold leaf. rewrite (slot_same_page T (PGROUNDDOWN va) va); [done|].
  rewrite PGROUNDDOWN_eq. unfold PGSIZE. zmod.
Qed.

Lemma walkaddr_eq s T root va : ptwf kend (k_mem s) T root -> 0 <= va ->
  walkaddr root va s = Ret (if user_ok T (k_mem s) va then PTE2PA (leaf T (k_mem s) va) else 0) s.
Proof.
  intros Hpt Hva. unfold walkaddr, user_ok.
  destruct (Z.leb_spec MAXVA va), (Z.ltb_spec va MAXVA); try lia; [done|].
  unfold bind. rewrite (walk_noalloc s T root va Hpt) by done.
  unfold leaf. destruct (slot_of T va) as [a|] eqn:Ha; simpl.
  - destruct (slot_page _ _ _ _ _ Hpt Ha) as (t & _ & (? & _)%(valid_page_range _ Hend) & -> & _).
    pose proof (PX_range 0 va ltac:(lia)). replace (t + 8 * PX 0 va =? 0) with false by zcase.
    unfold kload, gets. simpl.
    destruct (has _ PTE_V), (has _ PTE_U); try done. simpl.
    unfold ret. by destruct (Z.eqb_spec (PTE2PA (ld64 (t + 8 * PX 0 va) (k_mem s))) 0) as [->|].
  - done.
Qed.

(** Memory that is not a page table can change under the tree. *)
Lemma pt_frame m m' T root : ptwf kend m T root ->
  (forall a, table_page T (page_of a) -> mget m' a = mget m a) ->
  ptwf kend m' T root /\ forall va, leaf T m' va = leaf T m va.
Proof.
  intros Hpt Hm.
  assert (forall p t i, T !! p = Some t -> 0 <= i < 512 -> ld64 (t + 8 * i) m' = ld64 (t + 8 * i) m) as Hld.
  { intros p t i Ht Hi. pose proof (pt_page _ _ _ _ Hpt _ _ Ht) as [_ (_ & _ & Htm)%(valid_page_range _ Hend)].
    apply ld64_ext. intros k Hk. apply Hm. exists p.
    rewrite (proj2 (page_of_range k t Htm)); [done|]. unfold PGSIZE. lia. }
  split.
  - destruct Hpt as [A B C D E]. constructor; try done. intros p t i Ht Hl Hi. cbv zeta.
    rewrite (Hld p) by done. by apply D.
  - intros va. unfold leaf. destruct (slot_of T va) as [a|] eqn:Ha; [|done].
    destruct (slot_page _ _ _ _ _ Hpt Ha) as (t & Ht & _ & -> & _).
    eapply Hld; [done|by apply PX_range].
Qed.

Lemma user_pa_page T m va k : 0 <= k -> va mod PGSIZE + k < PGSIZE ->
  user_pa T m (va + k) = user_pa T m va + k.
Proof.
  intros Hk Hr. unfold user_pa.
  assert (PGROUNDDOWN (va + k) = PGROUNDDOWN va) as E.
  { rewrite !PGROUNDDOWN_eq. unfold PGSIZE in *. zmod. }
  rewrite <- (leaf_page T m (va + k)), E, leaf_page. unfold PGSIZE in *. zmod.
Qed.

Lemma user_ok_page T m va k : 0 <= va -> 0 <= k -> va mod PGSIZE + k < PGSIZE ->
  user_ok T m (va + k) = user_ok T m va.
Proof.
  intros Hva Hk Hr. unfold user_ok.
  assert (PGROUNDDOWN (va + k) = PGROUNDDOWN va) as E.
  { rewrite !PGROUNDDOWN_eq. unfold PGSIZE in *. zmod. }
  rewrite <- (leaf_page T m (va + k)), E, leaf_page.
  assert (MAXVA mod PGSIZE = 0) by done.
  destruct (Z.ltb_spec (va + k) MAXVA), (Z.ltb_spec va MAXVA); unfold PGSIZE in *; try zmod; done.
Qed.

(** A kernel buffer apart from the tables and from the user's bytes. *)
Definition apart (T : tables) (m : mem) (buf va len : Z) : Prop :=
  forall i, 0 <= i < len ->
    ~ table_page T (page_of (buf + i)) /\
    forall j, 0 <= j < len -> user_ok T m (va + j) = true -> user_pa T m (va + j) <> buf + i.

Lemma copyin_loop_spec fuel s T root dst srcva len :
  ptwf kend (k_mem s) T root -> 0 <= srcva -> 0 <= len ->
  len + srcva mod PGSIZE <= (Z.of_nat fuel - 1) * PGSIZE ->
  apart T (k_mem s) dst srcva len ->
  returns (copyin_loop fuel root dst srcva len) s (fun r s' =>
    (forall a, ~ (dst <= a < dst + len) -> mget (k_mem s') a = mget (k_mem s) a) /\
    ((r = 0 /\ forall i, 0 <= i < len -> user_ok T (k_mem s) (srcva + i) = true /\
                   mget (k_mem s') (dst + i) = mget (k_mem s) (user_pa T (k_mem s) (srcva + i))) \/
     (r = -1 /\ exists i, 0 <= i < len /\ user_ok T (k_mem s) (srcva + i) = false))).
Proof.
  revert s dst srcva len. induction fuel as [|fuel IH]; intros s dst srcva len Hpt Hsrc Hlen Hf Hap.
  { unfold PGSIZE in *. zmod. }
  cbn [copyin_loop]. destruct (Z.ltb_spec 0 len) as [Hpos|]; cbn [negb].
  2: { apply returns_ret. split; [done|]. left. split; [done|lia]. }
  pose proof (PGROUNDDOWN_eq srcva) as Hdn. set (off := srcva mod PGSIZE) in *.
  assert (0 <= off < PGSIZE) as Hoff by (unfold off, PGSIZE; zmod).
  assert (user_ok T (k_mem s) (PGROUNDDOWN srcva) = user_ok T (k_mem s) srcva) as Hok0.
  { assert (0 <= PGROUNDDOWN srcva) by (rewrite Hdn; unfold off, PGSIZE; zmod).
    rewrite <- (user_ok_page T (k_mem s) (PGROUNDDOWN srcva) off);
      [f_equal; lia|done|lia|rewrite PGROUNDDOWN_mod; lia]. }
  apply returns_bind. eapply returns_intro.
  { apply walkaddr_eq; [done|]. rewrite Hdn. unfold off, PGSIZE. zmod. }
  rewrite Hok0, leaf_page. destruct (user_ok T (k_mem s) srcva) eqn:Hok.
  2: { apply returns_ret. split; [done|]. right. split; [done|]. exists 0. rewrite Z.add_0_r. by split. }
  replace (PTE2PA (leaf T (k_mem s) srcva) =? 0) with false
    by (unfold user_ok in Hok; by destruct (_ =? 0) in *; rewrite ?andb_false_r in Hok).
  replace (srcva - PGROUNDDOWN srcva) with off by lia.
  replace (PTE2PA (leaf T (k_mem s) srcva) + off) with (user_pa T (k_mem s) srcva) by done.
  set (n := if len <? PGSIZE - off then len else PGSIZE - off).
  assert (0 < n <= len /\ n <= PGSIZE - off /\ (n = len \/ n = PGSIZE - off)) as (Hn & Hn' & Hn'')
    by (unfold n; zcase).
  set (m1 := memmove dst (user_pa T (k_mem s) srcva) n (k_mem s)).
  assert (forall a, mget m1 a = if in_range dst n a
    then mget (k_mem s) (user_pa T (k_mem s) srcva + (a - dst)) else mget (k_mem s) a) as Hm1.
  { intros a. unfold m1. rewrite mget_memmove by lia. done. }
  destruct (pt_frame (k_mem s) m1 T root Hpt) as [Hpt1 Hl1].
  { intros a Ha. rewrite Hm1. rcase. exfalso.
    destruct (Hap (a - dst) ltac:(lia)) as [Hnt _]. apply Hnt. by replace (dst + (a - dst)) with a by lia. }
  assert (forall va, user_ok T m1 va = user_ok T (k_mem s) va) as Ho1 by (intros; unfold user_ok; by rewrite Hl1).
  assert (forall va, user_pa T m1 va = user_pa T (k_mem s) va) as Hp1 by (intros; unfold user_pa; by rewrite Hl1).
  apply returns_bind. eapply returns_intro; [done|]. fold m1.
  assert (off + n = PGSIZE \/ len - n = 0) as Hnext by lia.
  assert (forall j, 0 <= j < len - n -> u64 (PGROUNDDOWN srcva + PGSIZE) + j = srcva + n + j) as Hsrc'.
  { intros j Hj. rewrite u64_small; [lia|].
    unfold user_ok in Hok. destruct (Z.ltb_spec srcva MAXVA); [|done].
    change MAXVA with 274877906944 in *. unfold PGSIZE in *. lia. }
  eapply returns_mono; [apply (IH (s <| k_mem := m1 |>) (dst + n) (u64 (PGROUNDDOWN srcva + PGSIZE)) (len - n))|].
  - done.
  - apply Z.mod_pos_bound. lia.
  - lia.
  - assert (u64 (PGROUNDDOWN srcva + PGSIZE) mod PGSIZE = 0) as ->.
    { unfold u64. change (2 ^ 64) with (4503599627370496 * PGSIZE).
      pose proof (PGROUNDDOWN_mod srcva). unfold PGSIZE in *. zmod. }
    unfold PGSIZE in *. lia.
  - intros i Hi. simpl. destruct (Hap (n + i) ltac:(lia)) as [Hnt Hne].
    rewrite <- Z.add_assoc. split; [done|]. intros j Hj.
    rewrite Ho1, Hp1, Hsrc', <- Z.add_assoc by done. apply Hne. lia.
  - intros r s' [Hfr Hr]. cbn [k_mem set_field] in Hfr, Hr. split.
    + intros a Ha. rewrite Hfr, Hm1 by lia. by rcase.
    + destruct Hr as [[-> Hr]|(-> & i & Hi & Hr)]; [left|right]; (split; [done|]).
      * intros i Hi. destruct (Z.lt_ge_cases i n).
        -- rewrite user_ok_page, user_pa_page by (unfold off in *; lia). split; [done|].
           rewrite Hfr, Hm1 by lia. rcase. do 2 f_equal. lia.
        -- destruct (Hr (i - n) ltac:(lia)) as [Hr1 Hr2]. rewrite Ho1, Hp1, Hsrc' in * by lia.
           replace (srcva + n + (i - n)) with (srcva + i) in * by lia. split; [done|].
           replace (dst + n + (i - n)) with (dst + i) in * by lia. rewrite Hr2, Hm1. rcase. exfalso.
           destruct (Hap (user_pa T (k_mem s) (srcva + i) - dst) ltac:(lia)) as [_ Hne].
           apply (Hne i); [lia|done|lia].
      * exists (n + i). rewrite Ho1, Hsrc' in Hr by lia. split; [lia|].
        by replace (srcva + (n + i)) with (srcva + n + i) by lia.
Qed.
End Tree.

Lemma mappages_eq root va n pa perm : 0 <= va -> va mod PGSIZE = 0 -> 0 <= n ->
  va + (n + 1) * PGSIZE <= MAXVA ->
  mappages root va ((n + 1) * PGSIZE) pa perm =
  mappages_loop (S (Z.to_nat n)) root va (va + n * PGSIZE) pa perm.
Proof.
  intros Hva Hm Hn Hmax. unfold mappages. assert (MAXVA = 67108864 * PGSIZE) as HM by done.
  replace ((n + 1) * PGSIZE =? 0) with false by (unfold PGSIZE; zcase).
  rewrite (u64_small (va + (n + 1) * PGSIZE - 1)) by (unfold PGSIZE in *; lia).
  rewrite !PGROUNDDOWN_eq, Hm, Z.sub_0_r. unfold PGSIZE in *.
  replace (va + (n + 1) * 4096 - 1 - (va + (n + 1) * 4096 - 1) mod 4096) with (va + n * 4096) by zmod.
  rewrite u64_small by lia. do 2 f_equal. f_equal. zmod.
Qed.

(** The empty table: a zeroed root page. *)
Lemma pt_single kend m root : valid_page kend root ->
  (forall a, root <= a < root + PGSIZE -> mget m a = 0) -> ptwf kend m {[ [] := root ]} root.
Proof.
  intros Hv Hz. constructor.
  - by rewrite lookup_singleton_eq.
  - intros p t [<- <-]%lookup_singleton_Some. simpl. split; [lia|done].
  - intros p q t [<- <-]%lookup_singleton_Some [<- _]%lookup_singleton_Some. done.
  - intros p t i [<- <-]%lookup_singleton_Some _ Hi. cbv zeta.
    rewrite (load_le_zero 8) by (intros k Hk; apply Hz; unfold PGSIZE; lia).
    by rewrite lookup_singleton_ne.
  - intros p i t [E _]%lookup_singleton_Some. by destruct p.
Qed.

(** ** Properties *)

(** C4: [mappages] on page-aligned arguments, for a range that ends below MAXVA
    and frames below 2^64.  It never panics on unmapped addresses; it returns 0 with exactly the requested pages mapped to the
    requested frames with the requested permissions, or -1 when the allocator
    ran dry, with a prefix of them mapped; every other translation of the
    address space is unchanged, the table stays a well-formed tree, and only
    table pages and pages taken from the free list are written. *)
Theorem mappages_maps (kend : Z) (s : kmem) (l : list Z) (T : tables) (root va n pa perm : Z)
  (Hend : 0 < kend) (Hinv : vm_inv kend s l T root)
  (Hva : 0 <= va) (Hal : va mod PGSIZE = 0) (Hn : 0 < n) (Hmax : va + n * PGSIZE <= MAXVA)
  (Hpa : 0 <= pa) (Hpamax : pa + n * PGSIZE < 2 ^ 64)
  (Hfree : forall a, va <= a < va + n * PGSIZE -> has (leaf T (k_mem s) a) PTE_V = false) :
  returns (mappages root va (n * PGSIZE) pa perm) s (fun r s' => exists l' T' k,
    vm_inv kend s' l' T' root /\ extends s l T s' l' T' /\
    mapped (leaf T (k_mem s)) (leaf T' (k_mem s')) va pa perm k /\
    ((r = 0 /\ k = n) \/ (r = -1 /\ 0 <= k < n /\ l' = []))).
Proof.
  assert (MAXVA = 67108864 * PGSIZE) as HM by done.
  assert (exists j, n = Z.of_nat j + 1) as [j ->] by (exists (Z.to_nat (n - 1)); lia).
  rewrite mappages_eq, Nat2Z.id by (done || lia).
  eapply returns_mono; [apply (mappages_loop_spec kend Hend j _ s l T root va pa perm Hinv)|];
    try done; try (unfold PGSIZE in *; lia).
  intros r s' (l' & T' & k & A & B & C & _ & D). exists l', T', k. split_and!; [done|done|done|].
  destruct D as [[-> ->]|(-> & ? & ->)]; [left|right]; split_and?; auto with lia.
Qed.

Definition wit_page (i : Z) : Z := 0x80100000 + i * PGSIZE.

(** A root table at page 0 and two free pages. *)
Definition wit_vm0 : kmem :=
  mkkmem (mkcpu 0 None 0 false 0) (initlock "kmem") (wit_page 1) (st64 (wit_page 1) (wit_page 2) ∅).

Lemma wit_vm0_inv : vm_inv KERNBASE wit_vm0 [wit_page 1; wit_page 2] {[ [] := wit_page 0 ]} (wit_page 0).
Proof.
  constructor.
  - constructor; try done; [..|apply (bool_decide_unpack _); by vm_compute].
    repeat first [apply Forall_cons_2; [by vm_compute|] | apply Forall_nil_2].
  - apply pt_single; [by vm_compute|]. intros a Ha. unfold wit_vm0. simpl.
    rewrite mget_st64; [by vm_compute|]. unfold wit_page, PGSIZE in *. lia.
  - intros p t [<- <-]%lookup_singleton_Some. apply (bool_decide_unpack _). by vm_compute.
Qed.

Lemma mappages_maps_witness :
  returns (mappages (wit_page 0) 0x5000 (1 * PGSIZE) 0x80200000 22) wit_vm0 (fun r s' => exists l' T' k,
    vm_inv KERNBASE s' l' T' (wit_page 0) /\
    extends wit_vm0 [wit_page 1; wit_page 2] {[ [] := wit_page 0 ]} s' l' T' /\
    mapped (leaf {[ [] := wit_page 0 ]} (k_mem wit_vm0)) (leaf T' (k_mem s')) 0x5000 0x80200000 22 k /\
    ((r = 0 /\ k = 1) \/ (r = -1 /\ 0 <= k < 1 /\ l' = []))).
Proof.
  apply mappages_maps; [done|exact wit_vm0_inv|lia|done|lia|by vm_compute|lia|done|].
  intros a Ha. unfold leaf, slot_of, path. by rewrite lookup_singleton_ne.
Defined.

(** C5: [copyin] into a kernel buffer that is apart from the page tables and
    from the user bytes being read.  It always returns.  It returns 0 exactly
    when every byte of [srcva, srcva+len) is mapped for user access, and then the
    buffer holds those bytes; otherwise it returns -1.  Nothing outside the
    buffer is written, also across page boundaries and at any alignment. *)
Theorem copyin_exact (kend : Z) (s : kmem) (T : tables) (root dst srcva len : Z)
  (Hend : 0 < kend) (Hpt : ptwf kend (k_mem s) T root)
  (Hsrc : 0 <= srcva) (Hlen : 0 <= len) (Hap : apart T (k_mem s) dst srcva len) :
  returns (copyin root dst srcva len) s (fun r s' =>
    (forall a, ~ (dst <= a < dst + len) -> mget (k_mem s') a = mget (k_mem s) a) /\
    ((r = 0 /\ forall i, 0 <= i < len -> user_ok T (k_mem s) (srcva + i) = true /\
                   mget (k_mem s') (dst + i) = mget (k_mem s) (user_pa T (k_mem s) (srcva + i))) \/
     (r = -1 /\ exists i, 0 <= i < len /\ user_ok T (k_mem s) (srcva + i) = false))).
Proof.
  eapply (copyin_loop_spec kend Hend); try done. unfold copy_rounds, PGSIZE. zmod.
Qed.

(** One user page, [wit_page 3], mapped at virtual address 0x1000. *)
Definition wit_T : tables := <[ [0] ++ [0] := wit_page 2 ]> (<[ [] ++ [0] := wit_page 1 ]> {[ [] := wit_page 0 ]}).
Definition wit_mem : mem :=
  st64 (wit_page 1 + 8 * 0) (Z.lor (PA2PTE (wit_page 2)) PTE_V)
    (st64 (wit_page 0 + 8 * 0) (Z.lor (PA2PTE (wit_page 1)) PTE_V) (mset (wit_page 3 + 5) 104 ∅)).
Definition wit_vm : kmem :=
  mkkmem (mkcpu 0 None 0 false 0) (initlock "kmem") 0
    (st64 (wit_page 2 + 8 * 1) (Z.lor (PA2PTE (wit_page 3)) 0x17) wit_mem).

Lemma wit_mem_pt : ptwf KERNBASE wit_mem wit_T (wit_page 0).
Proof.
  assert (forall i, 0 <= i < 3 -> forall a, wit_page i <= a < wit_page i + PGSIZE ->
    mget (mset (wit_page 3 + 5) 104 ∅) a = 0) as Hz.
  { intros i Hi a Ha. rewrite mget_mset. unfold wit_page, PGSIZE in *. by zcase. }
  assert (forall i, 0 <= i < 4 -> valid_page KERNBASE (wit_page i)) as Hv.
  { intros i Hi. unfold valid_page, wit_page, PHYSTOP, KERNBASE, PGSIZE. split; [zmod|lia]. }
  assert (ptwf KERNBASE (mset (wit_page 3 + 5) 104 ∅) {[ [] := wit_page 0 ]} (wit_page 0)) as H0.
  { apply pt_single; [by apply Hv|apply (Hz 0); lia]. }
  destruct (pt_grow KERNBASE ltac:(done) _ (mset (wit_page 3 + 5) 104 ∅) _ _ [] (wit_page 0) 0 (wit_page 1) H0)
    as [H1 _]; [by rewrite lookup_singleton_eq|simpl; lia|lia|by apply Hv| |by rewrite lookup_singleton_ne
               |done|apply (Hz 1); lia|].
  { intros p' t' [_ <-]%lookup_singleton_Some. unfold wit_page, PGSIZE. lia. }
  apply (pt_grow KERNBASE ltac:(done) _ _ _ _ [0] (wit_page 1) 0 (wit_page 2) H1);
    [done|simpl; lia|lia|by apply Hv| |done|done|].
  - intros p' t' [[_ <-]|[_ [_ <-]%lookup_singleton_Some]]%lookup_insert_Some; unfold wit_page, PGSIZE; lia.
  - intros a Ha. rewrite mget_st64; [apply (Hz 2); [lia|done]|]. unfold wit_page, PGSIZE in *. lia.
Qed.

Lemma wit_vm_pt : ptwf KERNBASE (k_mem wit_vm) wit_T (wit_page 0).
Proof.
  eapply (vm_pt KERNBASE wit_vm []).
  apply (store_leaf KERNBASE ltac:(done) (mkkmem (mkcpu 0 None 0 false 0) (initlock "kmem") 0 wit_mem)
    [] wit_T (wit_page 0) 0x1000); [|done|by vm_compute].
  constructor; [constructor; try done; constructor|apply wit_mem_pt|]. intros p t _. set_solver.
Qed.

Lemma copyin_exact_witness :
  returns (copyin (wit_page 0) 0x80300000 0x1005 1) wit_vm (fun r s' =>
    (forall a, ~ (0x80300000 <= a < 0x80300000 + 1) -> mget (k_mem s') a = mget (k_mem wit_vm) a) /\
    ((r = 0 /\ forall i, 0 <= i < 1 -> user_ok wit_T (k_mem wit_vm) (0x1005 + i) = true /\
        mget (k_mem s') (0x80300000 + i) = mget (k_mem wit_vm) (user_pa wit_T (k_mem wit_vm) (0x1005 + i))) \/
     (r = -1 /\ exists i, 0 <= i < 1 /\ user_ok wit_T (k_mem wit_vm) (0x1005 + i) = false))) /\
  user_ok wit_T (k_mem wit_vm) 0x1005 = true /\
  mget (k_mem wit_vm) (user_pa wit_T (k_mem wit_vm) 0x1005) = 104.
Proof.
  split; [|by vm_compute]. apply (copyin_exact KERNBASE); [done|apply wit_vm_pt|lia|lia|].
  intros i Hi. replace i with 0 by lia. split.
  - intros (p & Hp). unfold wit_T in Hp.
    repeat (apply lookup_insert_Some in Hp as [[_ Hp]|[_ Hp]]; [by vm_compute in Hp|]).
    apply lookup_singleton_Some in Hp as [_ Hp]. by vm_compute in Hp.
  - intros j Hj _. replace j with 0 by lia. by vm_compute.
Defined.
