(* ===== verification/Uvm.v ===== *)
(** * Uvm: the memory of a process is copied whole and apart, and given back

    The specification of uvmcopy(), uvmunmap(), freewalk() and uvmfree() of
    kernel/vm.c: what fork() gives to a child, and what wait() takes back.  The
    definitions are those of [Vm]; here are one lemma per step of their loops
    (take a page, fill it, map it, unmap and free it), each about the allocator
    and one page table together. *)
From S2P Require Import Prelude Spinlock Mem Kalloc Vm.

(** ** PTEs *)

Lemma PTE_FLAGS_eq e : PTE_FLAGS e = e mod 1024.
Proof. unfold PTE_FLAGS. change 0x3FF with (Z.ones 10). by rewrite Z.land_ones. Qed.

Lemma PTE_FLAGS_range e : 0 <= PTE_FLAGS e < 1024.
Proof. rewrite PTE_FLAGS_eq. apply Z.mod_pos_bound. lia. Qed.

Lemma PTE_FLAGS_V e : has e PTE_V = true -> Z.lor (PTE_FLAGS e) PTE_V = PTE_FLAGS e.
Proof.
  unfold PTE_V. rewrite has_testbit by lia. intros HV. apply Z.bits_inj'. intros j Hj.
  rewrite Z.lor_spec. change (Z.shiftl 1 0) with (2 ^ 0). rewrite Z.pow2_bits_eqb by lia.
  destruct (Z.eqb_spec 0 j) as [<-|]; [|apply orb_false_r].
  unfold PTE_FLAGS. rewrite Z.land_spec, HV. done.
Qed.

(** The PTE that mappages() makes of a page and the flags of a valid PTE. *)
Lemma copied_pte p f : 0 <= p < 2 ^ 64 -> p mod PGSIZE = 0 -> 0 <= f < 1024 ->
  let e := u64 (Z.lor (Z.lor (PA2PTE p) f) PTE_V) in
  PTE2PA e = p /\ PTE_FLAGS e = Z.lor f PTE_V /\ has e PTE_V = true.
Proof.
  intros Hp Hm Hf e.
  pose proof (lor_range f PTE_V 10 ltac:(lia) Hf ltac:(done)) as Hr. change (2 ^ 10) with 1024 in Hr.
  assert (e = Z.lor (PA2PTE p) (Z.lor f PTE_V)) as ->.
  { unfold e. rewrite <- Z.lor_assoc. apply u64_small. apply (lor_range _ _ 64); [lia|by apply PA2PTE_range|].
    change (2 ^ 64) with 18446744073709551616. lia. }
  split_and!; [by apply PTE2PA_PA2PTE| |].
  - unfold PTE_FLAGS. rewrite Z.land_lor_distr_l.
    change 0x3FF with (Z.ones 10). rewrite !Z.land_ones by lia. change (2 ^ 10) with 1024.
    rewrite (Z.mod_small (Z.lor f PTE_V)) by done.
    assert (PA2PTE p mod 1024 = 0) as ->; [|by rewrite Z.lor_0_l].
    unfold PA2PTE, u64. rewrite Z.shiftl_mul_pow2, Z.shiftr_div_pow2 by lia.
    change (2 ^ 10) with 1024. change (2 ^ 12) with 4096. change (2 ^ 64) with 18446744073709551616. zmod.
  - unfold PTE_V. rewrite has_testbit, !Z.lor_spec by lia. by rewrite !orb_true_r.
Qed.

Lemma PTE2PA_mod e : PTE2PA e mod PGSIZE = 0.
Proof.
  unfold PTE2PA, u64, PGSIZE. rewrite Z.shiftl_mul_pow2 by lia. change (2 ^ 12) with 4096.
  change (2 ^ 64) with 18446744073709551616. zmod.
Qed.

Lemma page_of_add q o : q mod PGSIZE = 0 -> 0 <= o < PGSIZE -> page_of (q + o) = q.
Proof. intros Hq Ho. apply page_of_range; [done|lia]. Qed.

(** An entry of an inner table is a link: no read, write or execute bit. *)
Definition link_ok (T : tables) (m : mem) : Prop :=
  forall p t i, T !! p = Some t -> (length p < 2)%nat -> 0 <= i < 512 -> has (ld64 (t + 8 * i) m) PTE_V = true ->
    Z.land (ld64 (t + 8 * i) m) (Z.lor (Z.lor PTE_R PTE_W) PTE_X) = 0.

(** ** One step *)

Section Steps.
Context (kend : Z) (Hend : 0 < kend).

(** Writes to a page that is neither free nor a table. *)
Lemma write_page s l T root q m' : vm_inv kend s l T root -> valid_page kend q ->
  q ∉ l -> ~ table_page T q ->
  (forall a, ~ (q <= a < q + PGSIZE) -> mget m' a = mget (k_mem s) a) ->
  vm_inv kend (s <| k_mem := m' |>) l T root /\ forall va, leaf T m' va = leaf T (k_mem s) va.
Proof.
  intros [[A B C D E] Hpt Hsep] (_ & _ & Hqm)%(valid_page_range _ Hend) Hql Hqt Hm.
  assert (forall a, page_of a <> q -> mget m' a = mget (k_mem s) a) as Hm'.
  { intros a Ha. apply Hm. intros Hr. apply Ha. by apply page_of_range. }
  destruct (pt_frame kend Hend (k_mem s) m' T root Hpt) as [Hpt' Hl'].
  { intros a Ha. apply Hm'. by intros <-. }
  split; [constructor|]; try done. constructor; try done. simpl.
  eapply (chain_ext kend Hend); [exact D| |exact C]. intros u a Hu Ha. apply Hm'.
  rewrite Forall_forall in D. destruct (valid_page_range _ Hend _ (D _ Hu)) as (_ & _ & Hum).
  rewrite (proj2 (page_of_range a u Hum) Ha). by intros ->.
Qed.

Lemma take_page s q l T root : vm_inv kend s (q :: l) T root ->
  returns kalloc s (fun r s' => r = q /\ valid_page kend q /\ q ∉ l /\ ~ table_page T q /\
    vm_inv kend s' l T root /\ (forall va, leaf T (k_mem s') va = leaf T (k_mem s) va) /\
    forall a, ~ (q <= a < q + PGSIZE) -> mget (k_mem s') a = mget (k_mem s) a).
Proof.
  intros [Hk Hpt Hsep]. pose proof (kinv_valid _ _ _ Hk) as [Hq _]%Forall_cons.
  pose proof (kinv_nodup _ _ _ Hk) as [Hql _]%NoDup_cons.
  assert (~ table_page T q) as Hqt by (intros (p & Hp); apply (Hsep _ _ Hp); set_solver).
  eapply returns_mono; [by apply (kalloc_cons kend Hend)|]. intros r s' (-> & Hk' & Hm).
  destruct (pt_frame kend Hend (k_mem s) (k_mem s') T root Hpt) as [Hpt' Hl'].
  { intros a Ha. rewrite Hm. rcase. exfalso. apply Hqt.
    pose proof (valid_page_range _ Hend _ Hq) as (_ & _ & Hqm).
    by rewrite <- (proj2 (page_of_range a q Hqm)) by lia. }
  split_and!; [done..| |done|].
  - constructor; [done|done|]. intros p t Ht. specialize (Hsep _ _ Ht). set_solver.
  - intros a Ha. rewrite Hm. by rcase.
Qed.

(** One page, mapped at [va]. *)
Lemma map_page s l T root va q f : vm_inv kend s l T root -> valid_page kend q -> 0 <= f < 1024 ->
  0 <= va -> va mod PGSIZE = 0 -> va < MAXVA -> has (leaf T (k_mem s) va) PTE_V = false ->
  returns (mappages root va PGSIZE q f) s (fun r s' => exists l' T' k,
    vm_inv kend s' l' T' root /\ extends s l T s' l' T' /\
    (forall va', 0 <= va' < MAXVA -> leaf T' (k_mem s') va' =
       if (k =? 1) && (va' / PGSIZE =? va / PGSIZE) then u64 (Z.lor (Z.lor (PA2PTE q) f) PTE_V)
       else leaf T (k_mem s) va') /\
    ((r = 0 /\ k = 1) \/ (r = -1 /\ k = 0 /\ l' = []))).
Proof.
  intros Hinv (Hq0 & Hq1 & Hqm)%(valid_page_range _ Hend) Hf Hva Ham Hmax Hno.
  assert (MAXVA = 67108864 * PGSIZE) as HM by done.
  assert (PHYSTOP < 2 ^ 63) as HP by done.
  pose proof (mappages_eq root va 0 q f Hva Ham ltac:(lia) ltac:(unfold PGSIZE in *; zmod)) as Hq.
  rewrite Z.add_0_l, Z.mul_1_l in Hq. rewrite Hq. clear Hq.
  eapply returns_mono; [apply (mappages_loop_spec kend Hend 0 _ s l T root va q f Hinv)|]; try (unfold PGSIZE in *; lia).
  - intros va' Hva'. rewrite <- (leaf_page T _ va').
    replace (PGROUNDDOWN va') with va; [done|]. rewrite PGROUNDDOWN_eq. unfold PGSIZE in *. zmod.
  - intros r s' (l' & T' & k & A & B & C & _ & D). exists l', T', k. split_and!; [done|done| |].
    + intros va' Hva'. rewrite (C va' Hva'), PGROUNDDOWN_eq.
      destruct D as [[_ ->]|(_ & Hk & _)]; [|assert (k = 0) as -> by lia].
      * unfold PGSIZE in *. change (Z.of_nat 0 + 1 =? 1) with true. cbn [andb].
        destruct (Z.eqb_spec (va' / 4096) (va / 4096)), (Z.leb_spec va va'),
          (Z.ltb_spec va' (va + (Z.of_nat 0 + 1) * 4096)); simpl; try zmod; try done.
        do 4 f_equal. zmod.
      * change (0 =? 1) with false. cbn [andb]. destruct (Z.leb_spec va va'), (Z.ltb_spec va' (va + 0 * PGSIZE));
          simpl; try done. lia.
    + destruct D as [[-> ->]|(-> & Hk & ->)]; [by left|right]. split_and!; [done|lia|done].
Qed.

(** A page given back. *)
Lemma free_page s l T root q : vm_inv kend s l T root -> valid_page kend q -> q ∉ l -> ~ table_page T q ->
  returns (kfree kend q) s (fun _ s' => vm_inv kend s' (q :: l) T root /\
    (forall va, leaf T (k_mem s') va = leaf T (k_mem s) va) /\
    forall a, ~ (q <= a < q + PGSIZE) -> mget (k_mem s') a = mget (k_mem s) a).
Proof.
  intros [Hk Hpt Hsep] Hq Hql Hqt. eapply returns_mono; [by apply kfree_spec|]. intros [] s' [Hk' Hm].
  destruct (pt_frame kend Hend (k_mem s) (k_mem s') T root Hpt) as [Hpt' Hl'].
  { intros a Ha. apply Hm. intros Hr. apply Hqt.
    pose proof (valid_page_range _ Hend _ Hq) as (_ & _ & Hqm). by rewrite <- (proj2 (page_of_range a q Hqm) Hr). }
  split_and!; [|done|done]. constructor; [done|done|]. intros p t Ht Hin.
  apply elem_of_cons in Hin as [->|Hin]; [apply Hqt; by exists p|by apply (Hsep _ _ Ht)].
Qed.

(** A store to a PTE changes tables only. *)
Lemma store_pte m T root va p v b : ptwf kend m T root -> slot_of T va = Some p ->
  ~ table_page T (page_of b) -> mget (st64 p v m) b = mget m b.
Proof.
  intros Hpt Hp Hb. destruct (slot_page kend Hend _ _ _ _ _ Hpt Hp) as (t & Ht & Hvt & -> & _).
  pose proof (valid_page_range _ Hend _ Hvt) as (_ & _ & Htm). pose proof (PX_range 0 va ltac:(lia)).
  apply mget_st64. intros Hr. apply Hb. exists (path va).
  rewrite (proj2 (page_of_range b t Htm)); [done|]. unfold PGSIZE. lia.
Qed.

(** The links stay when no table is written, or only a PTE of a page is. *)
Lemma link_frame m m' T root : ptwf kend m T root -> (forall a, table_page T (page_of a) -> mget m' a = mget m a) ->
  link_ok T m -> link_ok T m'.
Proof.
  intros Hpt Hm Hlk p t i Ht Hl Hi.
  pose proof (pt_page _ _ _ _ Hpt _ _ Ht) as [_ (_ & _ & Htm)%(valid_page_range _ Hend)].
  assert (ld64 (t + 8 * i) m' = ld64 (t + 8 * i) m) as ->; [|by apply (Hlk p)].
  apply ld64_ext. intros k Hk. apply Hm. exists p. rewrite (proj2 (page_of_range k t Htm)); [done|]. unfold PGSIZE. lia.
Qed.

Lemma link_store m T root va a v : ptwf kend m T root -> slot_of T va = Some a ->
  link_ok T m -> link_ok T (st64 a v m).
Proof.
  intros Hpt Ha Hlk p t i Ht Hl Hi. destruct (slot_page kend Hend _ _ _ _ _ Hpt Ha) as (t' & Ht' & Hv' & -> & _).
  pose proof (pt_page _ _ _ _ Hpt _ _ Ht) as [_ Hv]. pose proof (PX_range 0 va ltac:(lia)).
  rewrite (ld64_entry_ne kend Hend); [by apply (Hlk p)|done..|].
  left. intros ->. pose proof (pt_inj _ _ _ _ Hpt _ _ _ Ht Ht') as ->. simpl in Hl. lia.
Qed.

(** uvmunmap() of the pages from [a] up, whose frames are [fr]. *)
Lemma unmap_loop fr fuel s l T root a : vm_inv kend s l T root -> (length fr < fuel)%nat ->
  0 <= a -> a mod PGSIZE = 0 -> a + Z.of_nat (length fr) * PGSIZE <= MAXVA ->
  Forall (valid_page kend) fr -> NoDup (fr ++ l) -> (forall q, q ∈ fr -> ~ table_page T q) ->
  (forall k q, fr !! k = Some q -> let e := leaf T (k_mem s) (a + Z.of_nat k * PGSIZE) in
     has e PTE_V = true /\ PTE_FLAGS e <> PTE_V /\ PTE2PA e = q) ->
  returns (uvmunmap_loop kend fuel root a (a + Z.of_nat (length fr) * PGSIZE) true) s (fun _ s' =>
    vm_inv kend s' (rev fr ++ l) T root /\
    (forall va, 0 <= va < MAXVA -> leaf T (k_mem s') va =
       if (a <=? va) && (va <? a + Z.of_nat (length fr) * PGSIZE) then 0 else leaf T (k_mem s) va) /\
    (link_ok T (k_mem s) -> link_ok T (k_mem s')) /\
    forall b, page_of b ∉ fr -> ~ table_page T (page_of b) -> mget (k_mem s') b = mget (k_mem s) b).
Proof.
  assert (MAXVA < 2 ^ 62) as HM by done.
  revert fuel s l a. induction fr as [|q fr IH]; intros fuel s l a Hinv Hf Ha Ham Hmax Hv Hnd Ht Hfr;
    (destruct fuel as [|fuel]; [simpl in Hf; lia|]); cbn [uvmunmap_loop].
  { replace (a <? a + Z.of_nat (length []) * PGSIZE) with false by (simpl; zcase). apply returns_ret.
    split_and!; [done| |done|done]. intros va _. cbn [length].
    by destruct (Z.leb_spec a va), (Z.ltb_spec va (a + Z.of_nat 0 * PGSIZE)); try lia. }
  cbn [length] in Hf, Hmax |- *.
  replace (a <? a + Z.of_nat (S (length fr)) * PGSIZE) with true by (unfold PGSIZE in *; zcase). cbn [negb].
  destruct (Hfr 0%nat q eq_refl) as (HV & HF & HP). rewrite Z.mul_0_l, Z.add_0_r in HV, HF, HP.
  apply Forall_cons in Hv as [Hq Hv]. simpl in Hnd. apply NoDup_cons in Hnd as [Hql Hnd].
  assert (0 <= a < MAXVA) as Har by (unfold PGSIZE in *; lia).
  pose proof (vm_pt _ _ _ _ _ Hinv) as Hpt.
  apply returns_bind. eapply returns_intro; [apply (walk_noalloc kend Hend s T root a Hpt); lia|].
  unfold leaf in HV, HF, HP. destruct (slot_of T a) as [pte|] eqn:Hslot; [|done]. cbn [default from_option id]. unfold id.
  destruct (slot_page kend Hend _ _ _ _ _ Hpt Hslot) as (t & _ & (Ht0 & _)%(valid_page_range _ Hend) & -> & _).
  pose proof (PX_range 0 a ltac:(lia)).
  replace (t + 8 * PX 0 a =? 0) with false by zcase. apply returns_bind. eapply returns_intro; [done|].
  rewrite HV. cbn [negb]. replace (PTE_FLAGS _ =? PTE_V) with false by zcase. rewrite HP. cbn [when].
  apply returns_bind. eapply returns_mono.
  { apply (free_page s l T root q Hinv Hq); [set_solver|apply Ht; set_solver]. }
  intros _ s1 (Hinv1 & Hl1 & Hm1).
  destruct (store_leaf kend Hend s1 (q :: l) T root a _ 0 Hinv1 Har Hslot) as (Hinv2 & Hex2 & Hl2).
  apply returns_bind. eapply returns_intro; [done|].
  rewrite u64_small by (unfold PGSIZE in *; lia).
  replace (a + Z.of_nat (S (length fr)) * PGSIZE) with ((a + PGSIZE) + Z.of_nat (length fr) * PGSIZE) by lia.
  eapply returns_mono; [apply (IH fuel _ (q :: l) (a + PGSIZE) Hinv2)|].
  - lia.
  - unfold PGSIZE in *. lia.
  - unfold PGSIZE in *. zmod.
  - lia.
  - done.
  - rewrite <- Permutation_middle. by constructor.
  - intros x Hx. apply Ht. set_solver.
  - intros k x Hk. pose proof (lookup_lt_Some _ _ _ Hk) as Hlt.
    cbv zeta. rewrite Hl2 by (unfold PGSIZE in *; lia).
    destruct (Z.eqb_spec (a / PGSIZE) ((a + PGSIZE + Z.of_nat k * PGSIZE) / PGSIZE)); [unfold PGSIZE in *; zmod|].
    rewrite Hl1. specialize (Hfr (S k) x Hk). cbv zeta in Hfr.
    replace (a + PGSIZE + Z.of_nat k * PGSIZE) with (a + Z.of_nat (S k) * PGSIZE) by lia. done.
  - intros _ s' (Hinv' & Hl' & Hlk' & Hm'). split_and!.
    + cbn [rev]. rewrite <- app_assoc. done.
    + intros va Hva. rewrite Hl', Hl2, Hl1 by done. unfold PGSIZE in *.
      destruct (Z.leb_spec (a + 4096) va), (Z.ltb_spec va (a + 4096 + Z.of_nat (length fr) * 4096)),
        (Z.leb_spec a va), (Z.eqb_spec (a / 4096) (va / 4096)); simpl; try done; zmod.
    + intros Hlk. apply Hlk'. simpl. eapply link_store; [by apply Hinv1|done|].
      apply (link_frame _ _ _ _ Hpt); [|done]. intros b Hb. apply Hm1. intros Hr.
      pose proof (valid_page_range _ Hend _ Hq) as (_ & _ & Hqm). rewrite (proj2 (page_of_range b q Hqm) Hr) in Hb.
      by apply (Ht q); [set_solver|].
    + intros b Hb Hbt. rewrite Hm' by (try done; set_solver). simpl.
      rewrite (store_pte _ _ _ _ _ _ _ (vm_pt _ _ _ _ _ Hinv1) Hslot Hbt). apply Hm1. intros Hr.
      pose proof (valid_page_range _ Hend _ Hq) as (_ & _ & Hqm).
      apply Hb. rewrite (proj2 (page_of_range b q Hqm) Hr). set_solver.
Qed.
End Steps.

(** ** uvmcopy() *)

(** The old address space as uvmcopy() needs it: the pages below [sz] are
    mapped, by PTEs that are not links to tables, and neither its tables nor
    its pages are free or tables of the new one. *)
Record source (m : mem) (l : list Z) (To Tn : tables) (sz : Z) : Prop := {
  src_tables : forall x, table_page To x -> x ∉ l /\ ~ table_page Tn x;
  src_pages : forall va, 0 <= va < PGROUNDUP sz -> let e := leaf To m va in
    has e PTE_V = true /\ PTE_FLAGS e <> PTE_V /\ PTE2PA e ∉ l /\ ~ table_page Tn (PTE2PA e);
}.

Lemma lookup_snoc_ne {A} (l : list A) x i : i <> length l -> (l ++ [x]) !! i = l !! i.
Proof.
  intros Hi. destruct (decide (i < length l)%nat); [by apply lookup_app_l|].
  rewrite lookup_app_r, (lookup_ge_None_2 l), (lookup_ge_None_2 [x]) by (simpl; lia). done.
Qed.

Section Copy.
Context (kend : Z) (Hend : 0 < kend).
Context (s0 : kmem) (l0 : list Z) (To Tn0 : tables) (old new sz : Z).
Context (Hold : ptwf kend (k_mem s0) To old) (Hnew : vm_inv kend s0 l0 Tn0 new).
Context (Hsrc : source (k_mem s0) l0 To Tn0 sz) (Hsz : 0 <= sz <= MAXVA).
Context (Hno : forall va, 0 <= va < PGROUNDUP sz -> leaf Tn0 (k_mem s0) va = 0).

(** The copy of the page at [va] in frame [q]. *)
Definition copy_pte (va q : Z) : Z :=
  u64 (Z.lor (Z.lor (PA2PTE q) (PTE_FLAGS (leaf To (k_mem s0) va))) PTE_V).

(** When the pages [0, length fr) are copied, into the frames [fr]; [tab]: the
    tables taken so far. *)
Record copying (s : kmem) (l : list Z) (Tn : tables) (tab fr : list Z) : Prop := {
  cp_inv : vm_inv kend s l Tn new;
  cp_free : l0 ≡ₚ tab ++ fr ++ l;
  cp_tab : forall x, table_page Tn x <-> table_page Tn0 x \/ x ∈ tab;
  cp_mem : forall a, page_of a ∉ l0 -> ~ table_page Tn0 (page_of a) -> mget (k_mem s) a = mget (k_mem s0) a;
  cp_leaf : forall va, 0 <= va < MAXVA -> leaf Tn (k_mem s) va =
    match fr !! Z.to_nat (va / PGSIZE) with Some q => copy_pte va q | None => leaf Tn0 (k_mem s0) va end;
  cp_bytes : forall va q, 0 <= va < PGROUNDUP sz -> fr !! Z.to_nat (va / PGSIZE) = Some q ->
    mget (k_mem s) (q + va mod PGSIZE) = mget (k_mem s0) (user_pa To (k_mem s0) va);
}.

Lemma sz_pages : PGROUNDUP sz mod PGSIZE = 0 /\ sz <= PGROUNDUP sz < sz + PGSIZE /\ PGROUNDUP sz <= MAXVA.
Proof.
  assert (MAXVA = 67108864 * PGSIZE) as HM by done.
  rewrite PGROUNDUP_eq by (unfold PGSIZE in *; lia). unfold PGSIZE in *. split_and!; zmod.
Qed.

Lemma copying_nodup s l Tn tab fr : copying s l Tn tab fr -> NoDup (tab ++ fr ++ l).
Proof. intros []. rewrite <- cp_free0. apply (kinv_nodup _ _ _ (vm_kinv _ _ _ _ _ Hnew)). Qed.

Lemma copying_valid s l Tn tab fr q : copying s l Tn tab fr -> q ∈ fr ->
  valid_page kend q /\ q ∉ l /\ ~ table_page Tn q.
Proof.
  intros Hc Hq. pose proof (copying_nodup _ _ _ _ _ Hc) as Hnd. destruct Hc.
  assert (q ∈ l0) as Hq0 by (rewrite cp_free0; set_solver).
  pose proof (kinv_valid _ _ _ (vm_kinv _ _ _ _ _ Hnew)) as Hv. rewrite Forall_forall in Hv.
  apply NoDup_app in Hnd as (_ & Htf & Hnd). apply NoDup_app in Hnd as (_ & Hfl & _).
  split_and!; [by apply Hv|by apply Hfl|].
  rewrite cp_tab0. intros [(p & Hp)|Hin]; [by apply (vm_sep _ _ _ _ _ Hnew _ _ Hp)|].
  apply (Htf _ Hin). set_solver.
Qed.

(** The old address space is still there. *)
Lemma copying_old s l Tn tab fr : copying s l Tn tab fr ->
  ptwf kend (k_mem s) To old /\ forall va, leaf To (k_mem s) va = leaf To (k_mem s0) va.
Proof.
  intros []. apply (pt_frame kend Hend); [done|]. intros a Ha.
  destruct (src_tables _ _ _ _ _ Hsrc _ Ha). by apply cp_mem0.
Qed.

Lemma user_page_kept s l Tn tab fr va o : copying s l Tn tab fr -> 0 <= va < PGROUNDUP sz -> 0 <= o < PGSIZE ->
  mget (k_mem s) (PTE2PA (leaf To (k_mem s0) va) + o) = mget (k_mem s0) (PTE2PA (leaf To (k_mem s0) va) + o).
Proof.
  intros [] Hva Ho. destruct (src_pages _ _ _ _ _ Hsrc va Hva) as (_ & _ & Hl & Ht).
  apply cp_mem0; by rewrite page_of_add by (try apply PTE2PA_mod; done).
Qed.

Lemma copying_none : copying s0 l0 Tn0 [] [].
Proof. constructor; try done. set_solver. Qed.

Lemma copying_flags va q : 0 <= va < PGROUNDUP sz -> valid_page kend q ->
  PTE2PA (copy_pte va q) = q /\ PTE_FLAGS (copy_pte va q) = PTE_FLAGS (leaf To (k_mem s0) va) /\
  has (copy_pte va q) PTE_V = true.
Proof.
  intros Hva (Hq0 & Hq1 & Hqm)%(valid_page_range _ Hend).
  destruct (src_pages _ _ _ _ _ Hsrc va Hva) as (HV & _ & _).
  assert (PHYSTOP < 2 ^ 63) by done.
  destruct (copied_pte q (PTE_FLAGS (leaf To (k_mem s0) va)) ltac:(unfold PGSIZE in *; lia) Hqm (PTE_FLAGS_range _)) as (A & B & C).
  unfold copy_pte. rewrite B, PTE_FLAGS_V by done. done.
Qed.

(** goto err *)
Lemma copying_undo s l Tn tab fr : copying s l Tn tab fr -> Z.of_nat (length fr) * PGSIZE <= PGROUNDUP sz ->
  returns (uvmunmap kend new 0 (Z.of_nat (length fr)) true) s (fun _ s' =>
    copying s' (rev fr ++ l) Tn tab []).
Proof.
  intros Hc Hlen. pose proof sz_pages as (_ & _ & Hmax). assert (MAXVA < 2 ^ 62) by done.
  pose proof (copying_nodup _ _ _ _ _ Hc) as Hnd.
  assert (NoDup (fr ++ l)) as Hnd' by (by apply NoDup_app in Hnd as (_ & _ & ?)).
  unfold uvmunmap. change (negb (0 mod PGSIZE =? 0)) with false. cbv beta iota zeta.
  rewrite Z.add_0_l, !u64_small by (unfold PGSIZE in *; rewrite ?u64_small; lia). rewrite Z.sub_0_r.
  rewrite <- (Z.add_0_l (_ * PGSIZE)) at 2.
  eapply returns_mono; [apply (unmap_loop kend Hend fr _ s l Tn new 0)|].
  - by apply Hc.
  - unfold PGSIZE. zmod.
  - done.
  - done.
  - lia.
  - apply Forall_forall. intros q Hq. by apply (copying_valid _ _ _ _ _ _ Hc Hq).
  - done.
  - intros q Hq. by apply (copying_valid _ _ _ _ _ _ Hc Hq).
  - intros k q Hk. pose proof (lookup_lt_Some _ _ _ Hk) as Hlt. cbv zeta.
    rewrite (cp_leaf _ _ _ _ _ Hc) by (unfold PGSIZE in *; lia). rewrite Z.add_0_l.
    replace (Z.to_nat (Z.of_nat k * PGSIZE / PGSIZE)) with k by (unfold PGSIZE; zmod). rewrite Hk.
    destruct (copying_valid _ _ _ _ _ q Hc) as (Hv & _); [by eapply list_elem_of_lookup_2|].
    destruct (copying_flags (Z.of_nat k * PGSIZE) q ltac:(unfold PGSIZE in *; lia) Hv) as (A & B & C).
    rewrite A, B. split_and!; [done| |done]. by apply (src_pages _ _ _ _ _ Hsrc (Z.of_nat k * PGSIZE)); unfold PGSIZE in *; lia.
  - intros _ s' (Hinv' & Hl' & _ & Hm'). destruct Hc. constructor; try done.
    + rewrite cp_free0. simpl. by rewrite <- (Permutation_rev fr).
    + intros a Ha Ht. rewrite Hm', cp_mem0; [done..| |].
      * intros Hin. apply Ha. rewrite cp_free0. set_solver.
      * rewrite cp_tab0. intros [|Hin]; [done|]. apply Ha. rewrite cp_free0. set_solver.
    + intros va Hva. rewrite Hl', cp_leaf0 by done. rewrite lookup_nil.
      destruct (fr !! Z.to_nat (va / PGSIZE)) as [q|] eqn:Hq; [apply lookup_lt_Some in Hq|apply lookup_ge_None in Hq];
        destruct (Z.leb_spec 0 va), (Z.ltb_spec va (0 + Z.of_nat (length fr) * PGSIZE)); simpl; try done;
        try (unfold PGSIZE in *; zmod); symmetry; apply Hno; lia.
Qed.

(** The step of the loop: the page at the end of what is copied is filled
    with the bytes of the old one ... *)
Lemma copying_fill s q l Tn tab fr pa : copying s (q :: l) Tn tab fr ->
  pa = PTE2PA (leaf To (k_mem s0) (Z.of_nat (length fr) * PGSIZE)) ->
  Z.of_nat (length fr) * PGSIZE < PGROUNDUP sz ->
  returns kalloc s (fun r s1 => r = q /\ valid_page kend q /\ returns (kmodify (memmove q pa PGSIZE)) s1 (fun _ s' =>
    q ∉ l /\ ~ table_page Tn q /\ vm_inv kend s' l Tn new /\ (forall va, leaf Tn (k_mem s') va = leaf Tn (k_mem s) va) /\
    (forall a, ~ (q <= a < q + PGSIZE) -> mget (k_mem s') a = mget (k_mem s) a) /\
    forall o, 0 <= o < PGSIZE -> mget (k_mem s') (q + o) = mget (k_mem s0) (pa + o))).
Proof.
  intros Hc -> Hlt. eapply returns_mono; [apply (take_page kend Hend s q l Tn new), Hc|].
  intros r s1 (-> & Hq & Hql & Hqt & Hinv1 & Hl1 & Hm1). set (va := Z.of_nat (length fr) * PGSIZE) in *.
  set (pa := PTE2PA (leaf To (k_mem s0) va)).
  assert (forall a, mget (memmove q pa PGSIZE (k_mem s1)) a =
    if in_range q PGSIZE a then mget (k_mem s1) (pa + (a - q)) else mget (k_mem s1) a) as Hm.
  { intros a. by apply mget_memmove. }
  destruct (write_page kend Hend s1 l Tn new q (memmove q pa PGSIZE (k_mem s1)) Hinv1 Hq Hql Hqt) as [Hinv2 Hl2].
  { intros a Ha. rewrite Hm. by rcase. }
  split; [done|]. split; [done|]. eapply returns_intro; [done|]. split_and!; [done..| | |]; simpl.
  - intros va'. by rewrite Hl2, Hl1.
  - intros a Ha. rewrite Hm. rcase. by apply Hm1.
  - intros o Ho. rewrite Hm. rcase. replace (q + o - q) with o by lia.
    rewrite Hm1.
    + apply (user_page_kept _ _ _ _ _ va o Hc); [unfold va in *; unfold PGSIZE in *; lia|done].
    + intros Hin. destruct (src_pages _ _ _ _ _ Hsrc va ltac:(unfold va in *; unfold PGSIZE in *; lia)) as (_ & _ & Hn & _).
      apply Hn. rewrite (cp_free _ _ _ _ _ Hc). fold pa.
      pose proof (valid_page_range _ Hend _ Hq) as (_ & _ & Hqm).
      rewrite <- (page_of_add pa o) by (try apply PTE2PA_mod; done).
      rewrite (proj2 (page_of_range (pa + o) q Hqm) Hin). set_solver.
Qed.

Lemma old_same_page va va' : va / PGSIZE = va' / PGSIZE -> leaf To (k_mem s0) va = leaf To (k_mem s0) va'.
Proof. intros E. unfold leaf. by rewrite (slot_same_page To va va' E). Qed.

(** ... and mapped. *)
Lemma copying_snoc s q l Tn tab fr s1 l1 s2 Tn2 : copying s (q :: l) Tn tab fr ->
  Z.of_nat (length fr) * PGSIZE < PGROUNDUP sz ->
  vm_inv kend s1 l Tn new -> (forall va, leaf Tn (k_mem s1) va = leaf Tn (k_mem s) va) ->
  (forall a, ~ (q <= a < q + PGSIZE) -> mget (k_mem s1) a = mget (k_mem s) a) ->
  (forall o, 0 <= o < PGSIZE -> mget (k_mem s1) (q + o) =
    mget (k_mem s0) (PTE2PA (leaf To (k_mem s0) (Z.of_nat (length fr) * PGSIZE)) + o)) ->
  vm_inv kend s2 l1 Tn2 new -> extends s1 l Tn s2 l1 Tn2 ->
  (forall va, 0 <= va < MAXVA -> leaf Tn2 (k_mem s2) va =
    if va / PGSIZE =? Z.of_nat (length fr) then copy_pte (Z.of_nat (length fr) * PGSIZE) q else leaf Tn (k_mem s1) va) ->
  exists tab2, copying s2 l1 Tn2 tab2 (fr ++ [q]).
Proof.
  intros Hc Hlt Hinv1 Hl1 Hm1 Hb1 Hinv2 [_ (used & -> & Ht2) Hm2] Hl2.
  pose proof (copying_nodup _ _ _ _ _ Hc) as Hnd.
  assert (valid_page kend q) as (_ & _ & Hqm)%(valid_page_range _ Hend).
  { pose proof (kinv_valid _ _ _ (vm_kinv _ _ _ _ _ (cp_inv _ _ _ _ _ Hc))) as Hv. by apply Forall_cons in Hv as [? _]. }
  assert (forall a, page_of a <> q -> page_of a ∉ used ++ l1 -> ~ table_page Tn (page_of a) ->
    mget (k_mem s2) a = mget (k_mem s) a) as Hm.
  { intros a Hq Hl Ht. rewrite Hm2, Hm1; [done| |done..]. intros Hr. apply Hq. by apply page_of_range. }
  exists (tab ++ used). constructor; [done| | | | |].
  - rewrite (cp_free _ _ _ _ _ Hc). solve_Permutation.
  - intros x. rewrite Ht2, (cp_tab _ _ _ _ _ Hc), elem_of_app. tauto.
  - intros a Ha Ht. rewrite (cp_free _ _ _ _ _ Hc) in Ha. rewrite Hm.
    + apply Hc; [|done]. by rewrite (cp_free _ _ _ _ _ Hc).
    + set_solver.
    + set_solver.
    + rewrite (cp_tab _ _ _ _ _ Hc). set_solver.
  - intros va Hva. rewrite Hl2 by done. destruct (Z.eqb_spec (va / PGSIZE) (Z.of_nat (length fr))) as [E|E].
    + rewrite list_lookup_middle by lia. unfold copy_pte. do 4 f_equal. apply old_same_page.
      rewrite E. unfold PGSIZE. zmod.
    + rewrite lookup_snoc_ne, Hl1 by (unfold PGSIZE in *; zmod). by apply Hc.
  - intros va q' Hva Hq'. pose proof (Z.mod_pos_bound va PGSIZE ltac:(done)) as Ho.
    destruct (decide (Z.to_nat (va / PGSIZE) = length fr)) as [E|E].
    + rewrite list_lookup_middle in Hq' by done. injection Hq' as <-.
      rewrite Hm2, Hb1; [|done|rewrite page_of_add by done..].
      * unfold user_pa. do 3 f_equal. apply old_same_page. rewrite <- E. unfold PGSIZE in *. zmod.
      * apply NoDup_app in Hnd as (_ & _ & (_ & _ & [? _]%NoDup_cons)%NoDup_app). done.
      * intros (p & Hp). apply (vm_sep _ _ _ _ _ (cp_inv _ _ _ _ _ Hc) _ _ Hp). set_solver.
    + rewrite lookup_snoc_ne in Hq' by done.
      destruct (copying_valid _ _ _ _ _ q' Hc) as (Hv' & Hl' & Ht'); [by eapply list_elem_of_lookup_2|].
      pose proof (valid_page_range _ Hend _ Hv') as (_ & _ & Hm').
      rewrite Hm; [by apply Hc|rewrite page_of_add by done..]; [|set_solver|done]. set_solver.
Qed.

(** Pages taken for tables, or none: what is copied stays. *)
Lemma copying_more used s l Tn tab fr s2 l2 Tn2 : copying s l Tn tab fr -> vm_inv kend s2 l2 Tn2 new ->
  l ≡ₚ used ++ l2 -> (forall x, table_page Tn2 x <-> table_page Tn x \/ x ∈ used) ->
  (forall a, page_of a ∉ l -> ~ table_page Tn (page_of a) -> mget (k_mem s2) a = mget (k_mem s) a) ->
  (forall va, 0 <= va < MAXVA -> leaf Tn2 (k_mem s2) va = leaf Tn (k_mem s) va) ->
  copying s2 l2 Tn2 (tab ++ used) fr.
Proof.
  intros Hc Hinv2 Hl Ht Hm Hl2. constructor; [done| | | | |].
  - rewrite (cp_free _ _ _ _ _ Hc), Hl. solve_Permutation.
  - intros x. rewrite Ht, (cp_tab _ _ _ _ _ Hc), elem_of_app. tauto.
  - intros a Ha Hta. rewrite (cp_free _ _ _ _ _ Hc) in Ha. rewrite Hm.
    + apply Hc; [|done]. by rewrite (cp_free _ _ _ _ _ Hc).
    + set_solver.
    + rewrite (cp_tab _ _ _ _ _ Hc). set_solver.
  - intros va Hva. rewrite Hl2 by done. by apply Hc.
  - intros va q Hva Hq. destruct (copying_valid _ _ _ _ _ q Hc) as (Hv & Hql & Hqt); [by eapply list_elem_of_lookup_2|].
    pose proof (valid_page_range _ Hend _ Hv) as (_ & _ & Hqm). pose proof (Z.mod_pos_bound va PGSIZE ltac:(done)).
    rewrite Hm; [by apply Hc|by rewrite page_of_add..].
Qed.

Definition copied (n : nat) (r : Z) (s' : kmem) : Prop := exists l Tn tab,
  (r = 0 /\ exists fr, copying s' l Tn tab fr /\ length fr = n) \/
  (r = -1 /\ copying s' l Tn tab [] /\ (length l <= n)%nat).

Lemma copying_fail n s l Tn tab fr : copying s l Tn tab fr -> Z.of_nat (length fr) * PGSIZE <= PGROUNDUP sz ->
  (length fr + length l <= n)%nat ->
  returns (uvmunmap kend new 0 (Z.of_nat (length fr) * PGSIZE / PGSIZE) true ;; ret (-1)) s (copied n).
Proof.
  intros Hc Hlt Hn. rewrite Z.div_mul by done. apply returns_bind.
  eapply returns_mono; [exact (copying_undo s l Tn tab fr Hc Hlt)|]. intros [] s' Hc'. apply returns_ret.
  exists (rev fr ++ l), Tn, tab. right. split_and!; [done|done|]. by rewrite length_app, length_rev.
Qed.

(** No memory for a table: the new frame is given back, too. *)
Lemma copying_nomap n s q l Tn tab fr s2 s3 Tn3 : copying s (q :: l) Tn tab fr ->
  Z.of_nat (length fr) * PGSIZE <= PGROUNDUP sz -> (length fr < n)%nat ->
  valid_page kend q -> q ∉ l -> ~ table_page Tn q ->
  (forall a, ~ (q <= a < q + PGSIZE) -> mget (k_mem s2) a = mget (k_mem s) a) ->
  (forall va, leaf Tn (k_mem s2) va = leaf Tn (k_mem s) va) ->
  vm_inv kend s3 [] Tn3 new -> extends s2 l Tn s3 [] Tn3 ->
  (forall va, 0 <= va < MAXVA -> leaf Tn3 (k_mem s3) va = leaf Tn (k_mem s2) va) ->
  returns (kfree kend q ;; uvmunmap kend new 0 (Z.of_nat (length fr) * PGSIZE / PGSIZE) true ;; ret (-1)) s3 (copied n).
Proof.
  intros Hc Hlt Hn Hq Hql Hqt Hm2 Hl2 Hinv3 [_ (used & -> & Ht3) Hm3] Hl3. rewrite app_nil_r in *.
  apply returns_bind. eapply returns_mono; [apply (free_page kend Hend s3 [] Tn3 new q Hinv3 Hq)|].
  - set_solver.
  - rewrite Ht3. tauto.
  - intros _ s4 (Hinv4 & Hl4 & Hm4). apply (copying_fail n s4 [q] Tn3 (tab ++ used) fr); [|lia|simpl; lia].
    apply (copying_more used s (q :: used) Tn tab fr s4 [q] Tn3 Hc); [done|solve_Permutation|done| |].
    + intros a Ha Hta. assert (~ (q <= a < q + PGSIZE)) as Hqa.
      { intros Hr. pose proof (valid_page_range _ Hend _ Hq) as (_ & _ & Hqm).
        apply Ha. rewrite (proj2 (page_of_range a q Hqm) Hr). set_solver. }
      rewrite Hm4, Hm3, Hm2 by (try done; set_solver). done.
    + intros va' Hva'. by rewrite Hl4, Hl3, Hl2.
Qed.

Lemma uvmcopy_loop_spec n k fuel s l Tn tab fr : copying s l Tn tab fr ->
  (length fr + k = n)%nat -> Z.of_nat n * PGSIZE = PGROUNDUP sz -> (k < fuel)%nat ->
  returns (uvmcopy_loop kend fuel old new (Z.of_nat (length fr) * PGSIZE) sz) s (copied n).
Proof.
  pose proof sz_pages as (_ & Hup & Hmax). assert (MAXVA < 2 ^ 62) as HM by done.
  revert fuel s l Tn tab fr. induction k as [|k IH]; intros fuel s l Tn tab fr Hc Hk Hn Hf;
    (destruct fuel as [|fuel]; [lia|]); cbn [uvmcopy_loop].
  { replace (_ <? sz) with false by (unfold PGSIZE in *; zcase). apply returns_ret. exists l, Tn, tab. left.
    split; [done|]. exists fr. split; [done|lia]. }
  replace (_ <? sz) with true by (unfold PGSIZE in *; zcase). cbn [negb].
  set (va := Z.of_nat (length fr) * PGSIZE). assert (0 <= va < PGROUNDUP sz) as Hva by (unfold va; unfold PGSIZE in *; lia).
  destruct (src_pages _ _ _ _ _ Hsrc va Hva) as (HV & HF & _).
  destruct (copying_old _ _ _ _ _ Hc) as [Hpt Hlo]. pose proof (Hlo va) as Hlv.
  apply returns_bind. eapply returns_intro; [apply (walk_noalloc kend Hend s To old va Hpt); lia|].
  unfold leaf at 1 in Hlv. destruct (slot_of To va) as [pte|] eqn:Hslot; [|by rewrite <- Hlv in HV].
  cbn [default from_option id]. unfold id.
  destruct (slot_page kend Hend _ _ _ _ _ Hpt Hslot) as (t & _ & (Ht0 & _)%(valid_page_range _ Hend) & -> & _).
  pose proof (PX_range 0 va ltac:(lia)).
  replace (t + 8 * PX 0 va =? 0) with false by zcase. apply returns_bind. eapply returns_intro; [done|].
  rewrite Hlv, HV. cbn [negb]. cbv zeta. apply returns_bind. destruct l as [|q l].
  { eapply returns_mono; [apply (kalloc_nil kend), (vm_kinv _ _ _ _ _ (cp_inv _ _ _ _ _ Hc))|].
    intros r s1 (-> & Hk1 & Hm1). change (0 =? 0) with true. cbv iota.
    apply (copying_fail n s1 [] Tn (tab ++ []) fr); [|lia|simpl; lia].
    apply (copying_more [] s [] Tn tab fr s1 [] Tn Hc); try done; try (by rewrite Hm1); [|set_solver].
    destruct (cp_inv _ _ _ _ _ Hc). constructor; [done|by rewrite Hm1|done]. }
  eapply returns_mono; [by apply (copying_fill s q l Tn tab fr _ Hc eq_refl); lia|].
  intros r s1 (-> & Hq & Hfill). pose proof (valid_page_range _ Hend _ Hq) as (Hq0 & _ & _).
  replace (q =? 0) with false by zcase. apply returns_bind. eapply returns_mono; [exact Hfill|].
  intros _ s2 (Hql & Hqt & Hinv2 & Hl2 & Hm2 & Hb2). apply returns_bind.
  eapply returns_mono; [apply (map_page kend Hend s2 l Tn new va q _ Hinv2 Hq (PTE_FLAGS_range _))|].
  - lia.
  - unfold va, PGSIZE. zmod.
  - lia.
  - rewrite Hl2, (cp_leaf _ _ _ _ _ Hc) by lia. unfold va. rewrite Z.div_mul, Nat2Z.id by done.
    rewrite lookup_ge_None_2 by done. by rewrite Hno.
  - intros r s3 (l3 & Tn3 & k3 & Hinv3 & Hex3 & Hl3 & [[-> ->]|(-> & -> & ->)]).
    + change (negb (0 =? 0)) with false. cbv iota.
      destruct (copying_snoc s q l Tn tab fr s2 l3 s3 Tn3 Hc) as (tab3 & Hc3); try done; [lia| |].
      { intros va' Hva'. rewrite Hl3 by done. unfold va. rewrite Z.div_mul by done. done. }
      rewrite u64_small by (unfold va; unfold PGSIZE in *; lia).
      replace (va + PGSIZE) with (Z.of_nat (length (fr ++ [q])) * PGSIZE) by (rewrite length_app; unfold va; simpl; lia).
      apply (IH fuel s3 l3 Tn3 tab3 (fr ++ [q]) Hc3); [rewrite length_app; simpl; lia|done|lia].
    + change (negb (-1 =? 0)) with true. cbv iota.
      apply (copying_nomap n s q l Tn tab fr s2 s3 Tn3 Hc); try done; try lia.
Qed.
End Copy.

(** ** freewalk(), uvmfree() *)

Section Free.
Context (kend : Z) (Hend : 0 < kend) (T : tables) (root : Z) (m : mem).
Context (Hpt : ptwf kend m T root) (Hlink : link_ok T m).
Context (Hleaf : forall p t i, T !! p = Some t -> length p = 2%nat -> 0 <= i < 512 ->
  has (ld64 (t + 8 * i) m) PTE_V = false).

(** The table pages below [p], of the children numbered below [i] only. *)
Definition below (p : list Z) (i : nat) (x : Z) : Prop :=
  exists j q, 0 <= j < Z.of_nat i /\ T !! (p ++ j :: q) = Some x.
Definition under (p : list Z) (x : Z) : Prop := exists q, T !! (p ++ q) = Some x.

Lemma below_S p i x : below p (S i) x <-> below p i x \/ under (p ++ [Z.of_nat i]) x.
Proof.
  unfold below, under. split.
  - intros (j & q & Hj & Hq). destruct (decide (j = Z.of_nat i)) as [->|].
    + right. exists q. by rewrite <- app_assoc.
    + left. exists j, q. split; [lia|done].
  - intros [(j & q & Hj & Hq)|(q & Hq)].
    + exists j, q. split; [lia|done].
    + exists (Z.of_nat i), q. split; [lia|]. by rewrite <- app_assoc in Hq.
Qed.

Lemma under_split p x : under p x <-> T !! p = Some x \/ below p 512 x.
Proof.
  unfold below, under. split.
  - intros ([|j q] & Hq); [left; by rewrite app_nil_r in Hq|]. right. exists j, q. split; [|done].
    destruct (T !! (p ++ [j])) as [t|] eqn:E; [by apply (pt_parent _ _ _ _ Hpt) in E as [? _]|].
    pose proof (pt_none_app kend m T root (p ++ [j]) q Hpt E) as Hn. rewrite <- app_assoc in Hn. simpl in Hn. congruence.
  - intros [Hx|(j & q & _ & Hq)]; [exists []; by rewrite app_nil_r|by eexists].
Qed.

(** A table below [p] is not one of [p]'s own page or of another child. *)
Lemma below_fresh p i x : T !! p = Some x -> ~ below p i x.
Proof.
  intros Hp (j & q & _ & Hq). pose proof (pt_inj _ _ _ _ Hpt _ _ _ Hp Hq) as E.
  apply (f_equal length) in E. rewrite length_app in E. simpl in E. lia.
Qed.
Lemma below_other p i x : below p i x -> ~ under (p ++ [Z.of_nat i]) x.
Proof.
  intros (j & q & Hj & Hq) (q' & Hq'). rewrite <- app_assoc in Hq'.
  pose proof (pt_inj _ _ _ _ Hpt _ _ _ Hq Hq') as E. apply app_inv_head in E. simpl in E. injection E. lia.
Qed.

Definition freed (P : Z -> Prop) (s s' : kmem) (l : list Z) : Prop := exists tl,
  kinv kend s' (tl ++ l) /\ (forall x, x ∈ tl <-> P x) /\
  forall a, ~ P (page_of a) -> mget (k_mem s') a = mget (k_mem s) a.

Lemma kinv_frame s l m' : kinv kend s l -> (forall a, page_of a ∈ l -> mget m' a = mget (k_mem s) a) ->
  kinv kend (s <| k_mem := m' |>) l.
Proof.
  intros [A B C D E] Hm. constructor; try done. eapply (chain_ext kend Hend); [exact D| |exact C].
  intros u a Hu Ha. apply Hm. rewrite Forall_forall in D.
  destruct (valid_page_range _ Hend _ (D _ Hu)) as (_ & _ & Hum). by rewrite (proj2 (page_of_range a u Hum) Ha).
Qed.

(** What freewalk() of the table at [p] needs, and does. *)
Definition walk_ok (f : nat) : Prop := forall s l p t, T !! p = Some t -> (length p + f = 3)%nat ->
  kinv kend s l -> (forall x, under p x -> x ∉ l) ->
  (forall a, under p (page_of a) -> mget (k_mem s) a = mget m a) ->
  returns (freewalk kend f t) s (fun _ s' => freed (under p) s s' l).

(** After [i] entries of the table [t] at [p]. *)
Record walked (p : list Z) (t : Z) (s : kmem) (l : list Z) (i : nat) (s' : kmem) (tl : list Z) : Prop := {
  wk_kinv : kinv kend s' (tl ++ l);
  wk_tl : forall x, x ∈ tl <-> below p i x;
  wk_mem : forall a, page_of a <> t -> ~ below p i (page_of a) -> mget (k_mem s') a = mget (k_mem s) a;
  wk_rest : forall j, Z.of_nat i <= j < 512 -> ld64 (t + 8 * j) (k_mem s') = ld64 (t + 8 * j) m;
}.

Definition free_entry (f : nat) (t : Z) (i : nat) : M kmem unit :=
  let a := pte_at t (Z.of_nat i) in
  pte <- kload a ;;
  if has pte PTE_V && (Z.land pte (Z.lor (Z.lor PTE_R PTE_W) PTE_X) =? 0)
  then freewalk kend f (PTE2PA pte) ;; kstore a 0
  else if has pte PTE_V then panic "freewalk: leaf" else ret tt.

(** An entry without a table. *)
Lemma walked_skip p t s l i s' tl : T !! p = Some t -> walked p t s l i s' tl -> T !! (p ++ [Z.of_nat i]) = None ->
  walked p t s l (S i) s' tl.
Proof.
  intros Hp [A B C D] Hn.
  assert (forall x, ~ under (p ++ [Z.of_nat i]) x) as Hno.
  { intros x (q & Hq). by rewrite (pt_none_app kend m T root _ q Hpt Hn) in Hq. }
  constructor; [done| | |].
  - intros x. rewrite B, below_S. specialize (Hno x). tauto.
  - intros a Ha Hb. apply C; [done|]. intros H. apply Hb. rewrite below_S. by left.
  - intros j Hj. apply D. lia.
Qed.

Lemma under_child p i x : under (p ++ [Z.of_nat i]) x -> under p x.
Proof. intros (q & Hq). rewrite <- app_assoc in Hq. by eexists. Qed.

Lemma not_own p t i : T !! p = Some t -> ~ under (p ++ [Z.of_nat i]) t.
Proof. intros Hp Hu. apply (below_fresh p (S i) t Hp), below_S. by right. Qed.

(** The child is freed and its entry cleared. *)
Lemma walked_store p t s l i s' tl s1 tl1 : T !! p = Some t -> (i < 512)%nat -> t ∉ l ->
  walked p t s l i s' tl -> kinv kend s1 ((tl1 ++ tl) ++ l) -> (forall x, x ∈ tl1 <-> under (p ++ [Z.of_nat i]) x) ->
  (forall a, ~ under (p ++ [Z.of_nat i]) (page_of a) -> mget (k_mem s1) a = mget (k_mem s') a) ->
  walked p t s l (S i) (s1 <| k_mem := st64 (t + 8 * Z.of_nat i) 0 (k_mem s1) |>) (tl1 ++ tl).
Proof.
  intros Hp Hi Htl [A B C D] Hk1 Ht1 Hm1. destruct (pt_page _ _ _ _ Hpt _ _ Hp) as [_ Hvt].
  pose proof (valid_page_range _ Hend _ Hvt) as (_ & _ & Htm). pose proof (not_own p t i Hp) as Hown.
  assert (forall a, page_of a <> t -> mget (st64 (t + 8 * Z.of_nat i) 0 (k_mem s1)) a = mget (k_mem s1) a) as Hst.
  { intros a Ha. apply mget_st64. intros Hr. apply Ha. apply page_of_range; [done|]. unfold PGSIZE. lia. }
  constructor.
  - apply kinv_frame; [done|]. intros a Ha. apply Hst. intros E. rewrite E, !elem_of_app, Ht1, B in Ha.
    destruct Ha as [[?|Hb]|?]; [done| |done]. by apply (below_fresh p i t Hp).
  - intros x. rewrite elem_of_app, Ht1, B, below_S. tauto.
  - intros a Ha Hb. rewrite below_S in Hb. simpl. rewrite Hst, Hm1, C by tauto. done.
  - intros j Hj. simpl. rewrite (ld64_entry_ne kend Hend) by (try done; try lia; right; lia).
    rewrite <- (D j) by lia. apply ld64_ext. intros k Hk. apply Hm1.
    rewrite (proj2 (page_of_range k t Htm)); [done|]. unfold PGSIZE. lia.
Qed.

Lemma entry_walked f p t s l i s' tl : walk_ok f -> T !! p = Some t -> (length p + S f = 3)%nat -> (i < 512)%nat ->
  (forall x, under p x -> x ∉ l) -> (forall a, under p (page_of a) -> mget (k_mem s) a = mget m a) ->
  walked p t s l i s' tl ->
  returns (free_entry f t i) s' (fun _ s'' => exists tl', walked p t s l (S i) s'' tl').
Proof.
  intros Hok Hp Hlen Hi Hl Hm Hw. destruct (pt_page _ _ _ _ Hpt _ _ Hp) as [_ Hvt].
  pose proof (valid_page_range _ Hend _ Hvt) as (_ & _ & Htm).
  pose proof (fun j => not_own p t j Hp) as Hown.
  unfold free_entry. rewrite (pte_at_valid kend Hend) by (done || lia).
  apply returns_bind. eapply returns_intro; [done|]. rewrite (wk_rest _ _ _ _ _ _ _ Hw) by lia.
  set (e := ld64 (t + 8 * Z.of_nat i) m). destruct (decide (length p < 2)%nat) as [Hlt|Hge].
  - pose proof (pt_child _ _ _ _ Hpt p t (Z.of_nat i) Hp Hlt ltac:(lia)) as Hc. cbv zeta in Hc. fold e in Hc.
    destruct (has e PTE_V) eqn:HV; cbn [andb].
    2: { apply returns_ret. exists tl. by apply walked_skip. }
    rewrite (Hlink p t (Z.of_nat i) Hp Hlt ltac:(lia) HV : Z.land e _ = 0). change (0 =? 0) with true. cbv iota.
    apply returns_bind. eapply returns_mono; [apply (Hok s' (tl ++ l) _ _ Hc)|].
    + rewrite length_app. simpl. lia.
    + by apply Hw.
    + intros x Hx [Hin|Hin]%elem_of_app; [|by apply (Hl x); [apply under_child in Hx|]].
      rewrite (wk_tl _ _ _ _ _ _ _ Hw) in Hin. by apply below_other in Hin.
    + intros a Ha. rewrite (wk_mem _ _ _ _ _ _ _ Hw).
      * by apply Hm, (under_child p i).
      * intros E. rewrite E in Ha. by apply (Hown i).
      * intros Hb. by apply below_other in Hb.
    + intros _ s1 (tl1 & Hk1 & Ht1 & Hm1). eapply returns_intro; [done|]. exists (tl1 ++ tl).
      rewrite app_assoc in Hk1. 
      apply (walked_store p t s l i s' tl s1 tl1); try done. apply Hl, under_split. by left.
  - rewrite (Hleaf p t (Z.of_nat i) Hp ltac:(lia) ltac:(lia) : has e PTE_V = false). cbn [andb].
    apply returns_ret. exists tl. apply walked_skip; [done|done|].
    destruct (T !! (p ++ [Z.of_nat i])) eqn:E; [|done].
    apply (pt_page _ _ _ _ Hpt) in E as [E _]. rewrite length_app in E. simpl in E. lia.
Qed.

Lemma freewalk_ok f : walk_ok f.
Proof.
  induction f as [|f IH]; intros s l p t Hp Hlen Hk Hl Hm; destruct (pt_page _ _ _ _ Hpt _ _ Hp) as [Hlp Hvt]; [lia|].
  assert (under p t) as Ht by (apply under_split; by left).
  cbn [freewalk]. apply returns_bind.
  eapply returns_mono; [apply (for_each_returns _ (fun i s' => exists tl, walked p t s l i s' tl))|].
  - exists []. constructor; try done.
    + intros x. split; [set_solver|]. intros (j & _ & Hj & _). lia.
    + intros j Hj. apply ld64_ext. intros k Hk'. apply Hm.
      pose proof (valid_page_range _ Hend _ Hvt) as (_ & _ & Htm).
      rewrite (proj2 (page_of_range k t Htm)); [done|]. unfold PGSIZE. lia.
  - intros i s' Hi (tl & Hw). apply (entry_walked f p t s l i s' tl); try done; lia.
  - intros _ s' (tl & [A B C _]). eapply returns_mono; [apply (kfree_spec kend Hend s' (tl ++ l)); [done|done|]|].
    + rewrite elem_of_app, B. intros [Hb|Hin]; [by apply below_fresh in Hb|by apply (Hl t)].
    + intros [] s'' [Hk'' Hm'']. exists (t :: tl). split_and!; [done| |].
      * intros x. rewrite under_split, elem_of_cons, B. split; (intros [E|?]; [left; congruence|by right]).
      * intros a Ha. rewrite under_split in Ha. rewrite Hm'', C; [done| | |].
        -- intros E. apply Ha. left. congruence.
        -- tauto.
        -- intros Hr. pose proof (valid_page_range _ Hend _ Hvt) as (_ & _ & Htm).
           apply Ha. left. rewrite (proj2 (page_of_range a t Htm) Hr). done.
Qed.
End Free.

(** The address that the entries [i2], [i1], [i0] translate. *)
Lemma PX_va i2 i1 i0 : 0 <= i2 < 256 -> 0 <= i1 < 512 -> 0 <= i0 < 512 ->
  let va := ((i2 * 512 + i1) * 512 + i0) * PGSIZE in
  0 <= va < MAXVA /\ path va = [i2; i1] /\ PX 0 va = i0.
Proof.
  intros H2 H1 H0 va. unfold path. rewrite !PX_eq by lia. subst va. unfold PGSIZE.
  change (2 ^ (12 + 9 * 2)) with 1073741824. change (2 ^ (12 + 9 * 1)) with 2097152.
  change (2 ^ (12 + 9 * 0)) with 4096. change MAXVA with 274877906944.
  split_and!; [lia|lia| |zmod]. f_equal; [zmod|]. f_equal. zmod.
Qed.

(** A tree for addresses below MAXVA without a mapped page has no valid PTE. *)
Lemma leaves_clear kend m T root : ptwf kend m T root ->
  (forall i p, 256 <= i -> T !! (i :: p) = None) ->
  (forall va, 0 <= va < MAXVA -> has (leaf T m va) PTE_V = false) ->
  forall p t i, T !! p = Some t -> length p = 2%nat -> 0 <= i < 512 -> has (ld64 (t + 8 * i) m) PTE_V = false.
Proof.
  intros Hpt Hlow Hno [|i2 [|i1 [|]]] t i Ht Hl Hi; try done.
  destruct (pt_parent _ _ _ _ Hpt [i2] i1 t Ht) as (H1 & u & Hu).
  destruct (pt_parent _ _ _ _ Hpt [] i2 u Hu) as (H2 & _).
  assert (i2 < 256) by (destruct (Z.lt_ge_cases i2 256); [done|by rewrite Hlow in Hu]).
  destruct (PX_va i2 i1 i ltac:(lia) H1 Hi) as (Hva & Hp & H0).
  specialize (Hno _ Hva). unfold leaf, slot_of in Hno. rewrite Hp, Ht in Hno. simpl in Hno. by rewrite H0 in Hno.
Qed.

(** ** Properties *)

(** C6: uvmcopy(), which gives a forked child its memory.  It neither panics
    nor faults, and returns 0 or -1.  After 0 every page of the child below
    [sz] is mapped with the flags of its parent's page to a frame of its own,
    taken from the free list, that holds the same bytes.  After -1 the child has
    the translations it had, every page taken for its memory is free again, and
    what is free then is at most the pages of the copy: there were no more free
    pages than these and the tables that were added.  In both cases the memory of every other page, those of the
    parent included, is as it was, the child's tables are a well-formed tree,
    and no page is free and used at once or used twice. *)
Theorem uvmcopy_copies (kend : Z) (s : kmem) (l : list Z) (To Tn : tables) (old new sz : Z)
  (Hend : 0 < kend) (Hold : ptwf kend (k_mem s) To old) (Hnew : vm_inv kend s l Tn new)
  (Hsrc : source (k_mem s) l To Tn sz) (Hsz : 0 <= sz <= MAXVA)
  (Hno : forall va, 0 <= va < PGROUNDUP sz -> leaf Tn (k_mem s) va = 0) :
  returns (uvmcopy kend old new sz) s (fun r s' => exists l' Tn' tab fr,
    vm_inv kend s' l' Tn' new /\ NoDup l /\ l ≡ₚ tab ++ fr ++ l' /\
    (forall x, table_page Tn' x <-> table_page Tn x \/ x ∈ tab) /\
    (forall a, page_of a ∉ l -> ~ table_page Tn (page_of a) -> mget (k_mem s') a = mget (k_mem s) a) /\
    ptwf kend (k_mem s') To old /\ (forall va, leaf To (k_mem s') va = leaf To (k_mem s) va) /\
    ((r = 0 /\
      (forall va, 0 <= va < PGROUNDUP sz ->
         fr !! Z.to_nat (va / PGSIZE) = Some (PTE2PA (leaf Tn' (k_mem s') va)) /\
         PTE_FLAGS (leaf Tn' (k_mem s') va) = PTE_FLAGS (leaf To (k_mem s) va) /\
         mget (k_mem s') (user_pa Tn' (k_mem s') va) = mget (k_mem s) (user_pa To (k_mem s) va)) /\
      (forall va, PGROUNDUP sz <= va < MAXVA -> leaf Tn' (k_mem s') va = leaf Tn (k_mem s) va)) \/
     (r = -1 /\ fr = [] /\ Z.of_nat (length l') * PGSIZE <= PGROUNDUP sz /\
      forall va, 0 <= va < MAXVA -> leaf Tn' (k_mem s') va = leaf Tn (k_mem s) va))).
Proof.
  pose proof (sz_pages sz Hsz) as (Hm & Hup & Hmax). unfold uvmcopy.
  set (n := Z.to_nat (PGROUNDUP sz / PGSIZE)).
  assert (Z.of_nat n * PGSIZE = PGROUNDUP sz) as Hn by (unfold n; unfold PGSIZE in *; zmod).
  pose proof (kinv_nodup _ _ _ (vm_kinv _ _ _ _ _ Hnew)) as Hnd.
  eapply returns_mono.
  { apply (uvmcopy_loop_spec kend Hend s l To Tn old new sz Hold Hnew Hsrc Hsz Hno n n _ s l Tn [] []);
      [by eapply copying_none|done|done|unfold PGSIZE in *; zmod]. }
  intros r s' (l' & Tn' & tab & [(-> & fr & Hc & Hlen)|(-> & Hc & Hlen)]);
    destruct (copying_old kend Hend s l To Tn old new sz Hold Hsrc _ _ _ _ _ Hc).
  - exists l', Tn', tab, fr. pose proof Hc as []. split_and!; [done..|]. left. split_and!; [done| |].
    + intros va Hva. destruct (lookup_lt_is_Some_2 fr (Z.to_nat (va / PGSIZE))) as [q Hq].
      { rewrite Hlen. unfold PGSIZE in *. zmod. }
      destruct (copying_valid kend Hend s l To Tn old new sz Hold Hnew Hsrc Hsz Hno _ _ _ _ _ q Hc) as (Hv & _); [by eapply list_elem_of_lookup_2|].
      destruct (copying_flags kend Hend s l To Tn sz Hsrc va q Hva Hv) as (A & B & _).
      unfold user_pa. rewrite cp_leaf0, Hq by lia. rewrite A, B. split_and!; [done|done|]. by apply cp_bytes0.
    + intros va Hva. rewrite cp_leaf0 by lia. rewrite lookup_ge_None_2; [done|]. unfold PGSIZE in *. zmod.
  - exists l', Tn', tab, []. pose proof Hc as []. split_and!; [done..|]. right. split_and!; [done|done|unfold PGSIZE in *; lia|].
    intros va Hva. by rewrite cp_leaf0.
Qed.

(** A parent with one page, [wit_page 3], at address 0, an empty table for the
    child and three free pages: two for its tables and one for the copy. *)
Definition wit_links : mem := st64 (wit_page 5) (wit_page 6) (st64 (wit_page 6) (wit_page 7) wit_mem).
Definition wit_fork : kmem :=
  mkkmem (mkcpu 0 None 0 false 0) (initlock "kmem") (wit_page 5)
    (st64 (wit_page 2 + 8 * 0) (Z.lor (PA2PTE (wit_page 3)) 0x1f) wit_links).
Definition wit_free : list Z := [wit_page 5; wit_page 6; wit_page 7].

Lemma wit_table x : table_page wit_T x -> x = wit_page 0 \/ x = wit_page 1 \/ x = wit_page 2.
Proof.
  intros (p & Hp). unfold wit_T in Hp.
  repeat (apply lookup_insert_Some in Hp as [[_ Hp]|[_ Hp]]; [by auto|]).
  apply lookup_singleton_Some in Hp as [_ Hp]. by auto.
Qed.

Definition wit_unmapped : kmem := mkkmem (mkcpu 0 None 0 false 0) (initlock "kmem") (wit_page 5) wit_links.

Lemma wit_links_inv : vm_inv KERNBASE wit_unmapped wit_free wit_T (wit_page 0).
Proof.
  constructor.
  - constructor; [done|done|do 3 (split; [by vm_compute|split; [by vm_compute|]]); by vm_compute
                 | |apply (bool_decide_unpack _); by vm_compute].
    repeat first [apply Forall_cons_2; [by vm_compute|] | apply Forall_nil_2].
  - apply (pt_frame KERNBASE ltac:(done) wit_mem); [apply wit_mem_pt|]. intros a Ha%wit_table.
    unfold wit_unmapped, wit_links. simpl. unfold page_of, wit_page, PGSIZE in *. rewrite !mget_st64; [done|zmod..].
  - intros p t Ht. assert (table_page wit_T t) as [->|[->| ->]]%wit_table by (by exists p);
      apply (bool_decide_unpack _); by vm_compute.
Qed.

Lemma wit_fork_old : vm_inv KERNBASE wit_fork wit_free wit_T (wit_page 0).
Proof.
  by apply (store_leaf KERNBASE ltac:(done) wit_unmapped wit_free wit_T (wit_page 0) 0 _ _ wit_links_inv); [|vm_compute].
Qed.

Lemma wit_path p t : wit_T !! p = Some t -> p = [0; 0] \/ p = [0] \/ p = [].
Proof.
  intros Ht. unfold wit_T in Ht. apply lookup_insert_Some in Ht as [[<- _]|[_ Ht]]; [by left|].
  apply lookup_insert_Some in Ht as [[<- _]|[_ Ht]]; [by right; left|].
  apply lookup_singleton_Some in Ht as [<- _]. by right; right.
Qed.

Lemma wit_fork_leaf va : PGSIZE <= va < MAXVA -> leaf wit_T (k_mem wit_fork) va = 0.
Proof.
  intros Hva. destruct (store_leaf KERNBASE ltac:(done) wit_unmapped wit_free wit_T (wit_page 0) 0 (wit_page 2 + 8 * 0)
    (Z.lor (PA2PTE (wit_page 3)) 0x1f) wit_links_inv) as (_ & _ & Hl); [done|by vm_compute|].
  etransitivity; [apply Hl; unfold PGSIZE in *; lia|].
  destruct (Z.eqb_spec (0 / PGSIZE) (va / PGSIZE)); [unfold PGSIZE in *; zmod|].
  unfold leaf, slot_of. destruct (wit_T !! path va) as [t|] eqn:Ht; [|done]. simpl.
  pose proof (PX_range 0 va ltac:(lia)). destruct (wit_path _ _ Ht) as [E|[E|E]]; try done.
  assert (t = wit_page 2) as -> by (rewrite E in Ht; by injection Ht). apply (load_le_zero 8). intros k Hk.
  unfold wit_unmapped, wit_links, wit_mem. simpl. unfold wit_page, PGSIZE in *. rewrite !mget_st64, mget_mset by lia. by zcase.
Qed.

Lemma uvmcopy_copies_witness :
  returns (uvmcopy KERNBASE (wit_page 0) (wit_page 4) 5) wit_fork (fun r s' => exists l' Tn' tab fr,
    vm_inv KERNBASE s' l' Tn' (wit_page 4) /\ NoDup wit_free /\ wit_free ≡ₚ tab ++ fr ++ l' /\
    (forall x, table_page Tn' x <-> table_page {[ [] := wit_page 4 ]} x \/ x ∈ tab) /\
    (forall a, page_of a ∉ wit_free -> ~ table_page {[ [] := wit_page 4 ]} (page_of a) ->
       mget (k_mem s') a = mget (k_mem wit_fork) a) /\
    ptwf KERNBASE (k_mem s') wit_T (wit_page 0) /\
    (forall va, leaf wit_T (k_mem s') va = leaf wit_T (k_mem wit_fork) va) /\
    ((r = 0 /\
      (forall va, 0 <= va < PGROUNDUP 5 ->
         fr !! Z.to_nat (va / PGSIZE) = Some (PTE2PA (leaf Tn' (k_mem s') va)) /\
         PTE_FLAGS (leaf Tn' (k_mem s') va) = PTE_FLAGS (leaf wit_T (k_mem wit_fork) va) /\
         mget (k_mem s') (user_pa Tn' (k_mem s') va) =
           mget (k_mem wit_fork) (user_pa wit_T (k_mem wit_fork) va)) /\
      (forall va, PGROUNDUP 5 <= va < MAXVA ->
         leaf Tn' (k_mem s') va = leaf {[ [] := wit_page 4 ]} (k_mem wit_fork) va)) \/
     (r = -1 /\ fr = [] /\ Z.of_nat (length l') * PGSIZE <= PGROUNDUP 5 /\
      forall va, 0 <= va < MAXVA -> leaf Tn' (k_mem s') va = leaf {[ [] := wit_page 4 ]} (k_mem wit_fork) va))) /\
  mget (k_mem wit_fork) (user_pa wit_T (k_mem wit_fork) 5) = 104.
Proof.
  split; [|by vm_compute]. pose proof wit_fork_old as Hold.
  assert (forall x, table_page {[ [] := wit_page 4 ]} x -> x = wit_page 4) as Hnew.
  { by intros x (p & [_ <-]%lookup_singleton_Some). }
  assert (PGROUNDUP 5 = PGSIZE) as Hup by done.
  apply uvmcopy_copies; [done|apply Hold| | |done|].
  - constructor; [apply Hold| |].
    + apply pt_single; [by vm_compute|]. intros a Ha. unfold wit_fork, wit_links, wit_mem. simpl.
      unfold wit_page, PGSIZE in *. rewrite !mget_st64, mget_mset by lia. by zcase.
    + intros p t [_ <-]%lookup_singleton_Some. apply (bool_decide_unpack _). by vm_compute.
  - constructor.
    + intros x [->|[->| ->]]%wit_table; (split; [apply (bool_decide_unpack _); by vm_compute|by intros ?%Hnew]).
    + intros va Hva. cbv zeta. rewrite <- leaf_page. replace (PGROUNDDOWN va) with 0.
      * split_and!; [by vm_compute|by vm_compute|apply (bool_decide_unpack _); by vm_compute|].
        intros H%Hnew. by vm_compute in H.
      * rewrite PGROUNDDOWN_eq. unfold PGSIZE in *. zmod.
  - intros va Hva. unfold leaf, slot_of, path. by rewrite lookup_singleton_ne.
Defined.

(** C7: uvmfree() loses no page.  Given an address space whose pages below [sz]
    are mapped, each to a frame of its own, and nothing else is, it neither
    panics nor faults; afterwards every frame and every page-table page,
    whatever the shape of the tree, is on the free list with the pages that
    were, each of them once, and no other memory has changed. *)
Theorem uvmfree_frees (kend : Z) (s : kmem) (l : list Z) (T : tables) (root sz : Z) (fr : list Z)
  (Hend : 0 < kend) (Hinv : vm_inv kend s l T root) (Hlink : link_ok T (k_mem s))
  (Hlow : forall i p, 256 <= i -> T !! (i :: p) = None) (Hsz : 0 <= sz <= MAXVA)
  (Hfr : Forall (valid_page kend) fr) (Hnd : NoDup (fr ++ l)) (Hapart : forall q, q ∈ fr -> ~ table_page T q)
  (Hlen : Z.of_nat (length fr) * PGSIZE = PGROUNDUP sz)
  (Hpages : forall k q, fr !! k = Some q -> let e := leaf T (k_mem s) (Z.of_nat k * PGSIZE) in
     has e PTE_V = true /\ PTE_FLAGS e <> PTE_V /\ PTE2PA e = q)
  (Hrest : forall va, PGROUNDUP sz <= va < MAXVA -> has (leaf T (k_mem s) va) PTE_V = false) :
  returns (uvmfree kend root sz) s (fun _ s' => exists l' tab,
    kinv kend s' l' /\ NoDup l' /\ l' ≡ₚ fr ++ tab ++ l /\ (forall x, x ∈ tab <-> table_page T x) /\
    forall a, page_of a ∉ fr -> ~ table_page T (page_of a) -> mget (k_mem s') a = mget (k_mem s) a).
Proof.
  destruct (sz_pages sz Hsz) as (Hm & Hup & Hmax). assert (MAXVA < 2 ^ 62) as HM by done.
  unfold uvmfree. apply returns_bind.
  apply (returns_mono _ _ (fun _ s' => vm_inv kend s' (rev fr ++ l) T root /\
    (forall va, 0 <= va < MAXVA -> leaf T (k_mem s') va =
       if (0 <=? va) && (va <? 0 + Z.of_nat (length fr) * PGSIZE) then 0 else leaf T (k_mem s) va) /\
    (link_ok T (k_mem s) -> link_ok T (k_mem s')) /\
    forall b, page_of b ∉ fr -> ~ table_page T (page_of b) -> mget (k_mem s') b = mget (k_mem s) b)).
  - destruct (Z.ltb_spec 0 sz) as [Hpos|Hz]; cbn [when].
    + unfold uvmunmap. change (negb (0 mod PGSIZE =? 0)) with false. cbv beta iota zeta.
      rewrite <- Hlen, Z.div_mul, Z.add_0_l, !u64_small by (unfold PGSIZE in *; rewrite ?u64_small; lia).
      rewrite Z.sub_0_r, <- (Z.add_0_l (_ * PGSIZE)) at 1.
      apply (unmap_loop kend Hend fr _ s l T root 0 Hinv); try done; [|lia].
      unfold PGSIZE. zmod.
    + assert (fr = []) as ->.
      { assert (sz = 0) as -> by lia. destruct fr; [done|]. change (PGROUNDUP 0) with 0 in Hlen.
        cbn [length] in Hlen. unfold PGSIZE in Hlen. lia. }
      apply returns_ret. split_and!; try done. intros va _. cbn [length].
      by destruct (Z.leb_spec 0 va), (Z.ltb_spec va (0 + Z.of_nat 0 * PGSIZE)); try lia.
  - intros _ s1 ([Hk1 Hpt1 Hsep1] & Hl1 & Hlk1 & Hm1). eapply returns_mono.
    { apply (freewalk_ok kend Hend T root (k_mem s1) Hpt1 (Hlk1 Hlink)) with (p := []) (l := rev fr ++ l);
        [|apply Hpt1|done|done| |done].
      - apply (leaves_clear kend _ _ root Hpt1 Hlow). intros va Hva. rewrite Hl1 by done.
        destruct (Z.leb_spec 0 va), (Z.ltb_spec va (0 + Z.of_nat (length fr) * PGSIZE)); simpl; try done; try lia.
        apply Hrest. lia.
      - intros x (q & Hq). by eapply Hsep1. }
    intros [] s' (tab & Hk' & Ht' & Hm'). exists (tab ++ rev fr ++ l), tab. split_and!.
    + done.
    + by apply kinv_nodup in Hk'.
    + rewrite <- (Permutation_rev fr). solve_Permutation.
    + done.
    + intros a Ha Hta. rewrite Hm', Hm1 by done. done.
Qed.

(** The parent of [wit_fork] is freed: its page and its three tables. *)
Lemma uvmfree_frees_witness :
  returns (uvmfree KERNBASE (wit_page 0) 5) wit_fork (fun _ s' => exists l' tab,
    kinv KERNBASE s' l' /\ NoDup l' /\ l' ≡ₚ [wit_page 3] ++ tab ++ wit_free /\
    (forall x, x ∈ tab <-> table_page wit_T x) /\
    forall a, page_of a ∉ [wit_page 3] -> ~ table_page wit_T (page_of a) ->
      mget (k_mem s') a = mget (k_mem wit_fork) a).
Proof.
  pose proof wit_fork_old as Hold. pose proof (vm_pt _ _ _ _ _ Hold) as Hpt.
  pose proof wit_path as Hp.
  apply uvmfree_frees; [done|exact Hold| | |done| | | |done| |].
  - intros p t i Ht Hl Hi HV. pose proof (pt_child _ _ _ _ Hpt p t i Ht Hl Hi) as Hc. cbv zeta in Hc.
    rewrite HV in Hc. apply Hp in Hc. destruct (Hp p t Ht) as [->|[->| ->]]; [simpl in Hl; lia|..];
      (assert (i = 0) as -> by (destruct Hc as [E|[E|E]]; try done; by injection E)); injection Ht as <-; by vm_compute.
  - intros i p Hi. destruct (wit_T !! (i :: p)) as [t|] eqn:E; [|done]. apply Hp in E as [E|[E|E]]; try done; injection E; lia.
  - repeat constructor; by vm_compute.
  - apply (bool_decide_unpack _). by vm_compute.
  - intros q ->%list_elem_of_singleton [H|[H|H]]%wit_table; by vm_compute in H.
  - intros [|k] q [= <-]. split_and!; by vm_compute.
  - intros va Hva. rewrite wit_fork_leaf; [done|]. by change PGSIZE with (PGROUNDUP 5).
Defined.
