(* ===== verification/Kvm.v ===== *)
(** * Kvm: the address space of the kernel

    The specification of kvmmake() and proc_mapstacks(): which frame the kernel
    reaches at which virtual address, and with which permissions, is written
    down here from the memory map that kernel/memlayout.h describes, and the
    page table that [Vm.kvmmake] builds is compared with it.  One lemma per
    step (take a page, map a region, map a stack); a plan of the places where a
    page-table page can be needed bounds the pages used. *)
From S2P Require Import Prelude Spinlock Mem Kalloc Vm Uvm.

(** ** The memory map *)

(** The bits V, R, W and X of a PTE are 1, 2, 4 and 8. *)
Definition RW : Z := 7.
Definition RX : Z := 11.

Definition within (va lo size : Z) : bool := (lo <=? va) && (va <? lo + size).

(** The frame and the flags of the page of [va], if the kernel can use it.  Below
    the trampoline there are [NPROC] pairs of pages, a stack above a guard page. *)
Definition kernel_map (etext trampoline : Z) (stacks : list Z) (va : Z) : option (Z * Z) :=
  let page := va / 4096 * 4096 in
  let down := (2 ^ 38 - 4096 - page) / 4096 in
  if within va 0x0c000000 0x400000 then Some (page, RW)          (* the PLIC *)
  else if within va 0x10000000 4096 then Some (page, RW)         (* the uart *)
  else if within va 0x10001000 4096 then Some (page, RW)         (* the virtio disk *)
  else if within va 0x80000000 (etext - 0x80000000) then Some (page, RX)
  else if within va etext (0x88000000 - etext) then Some (page, RW)
  else if down =? 0 then Some (trampoline, RX)
  else if (0 <? down) && Z.even down then (fun pa => (pa, RW)) <$> stacks !! Z.to_nat (down / 2 - 1)
  else None.

(** [e] translates as [x] says. *)
Definition pte_is (e : Z) (x : option (Z * Z)) : Prop :=
  match x with Some (pa, perm) => PTE2PA e = pa /\ PTE_FLAGS e = perm | None => e = 0 end.

(** [km] with [size] bytes from [lo] up mapped to the frames from [pa] up. *)
Definition region (km : Z -> option (Z * Z)) (lo pa size perm va : Z) : option (Z * Z) :=
  if within va lo size then Some (pa + (va / 4096 * 4096 - lo), perm) else km va.

(** The paths of the page-table pages that the map needs: the root, the three
    inner pages, and the last-level pages of the devices, of the 128 MB of RAM and
    of the top of the address space. *)
Definition plan : list (list Z) :=
  [[]; [0]; [2]; [255]; [0; 128]; [0; 96]; [0; 97]; [255; 511]] ++ ((fun j => [2; Z.of_nat j]) <$> seq 0 64).

(** ** Pages of a tree *)

Definition pages (T : tables) : list Z := (map_to_list T).*2.

Lemma elem_of_pages T x : x ∈ pages T <-> table_page T x.
Proof.
  unfold pages, table_page. rewrite list_elem_of_fmap. split.
  - intros ([p y] & -> & H%elem_of_map_to_list). by exists p.
  - intros (p & H). exists (p, x). split; [done|by apply elem_of_map_to_list].
Qed.

Lemma pages_nodup kend m T root : ptwf kend m T root -> NoDup (pages T).
Proof.
  intros Hpt. unfold pages. apply NoDup_fmap_2_strong; [|apply NoDup_map_to_list].
  intros [p x] [q y] Hp%elem_of_map_to_list Hq%elem_of_map_to_list E. simpl in E. subst.
  by rewrite (pt_inj _ _ _ _ Hpt _ _ _ Hp Hq).
Qed.

Lemma pages_plan (T : tables) : (forall p, is_Some (T !! p) -> p ∈ plan) -> (length (pages T) <= 72)%nat.
Proof.
  intros H. unfold pages. rewrite length_fmap. change 72%nat with (length plan).
  replace (length (map_to_list T)) with (length (map_to_list T).*1) by apply length_fmap.
  apply submseteq_length, NoDup_submseteq; [apply NoDup_fst_map_to_list|].
  intros p ([q x] & -> & Hq%elem_of_map_to_list)%list_elem_of_fmap. apply H. by exists x.
Qed.

Lemma within_spec va lo size : reflect (lo <= va < lo + size) (within va lo size).
Proof. apply iff_reflect. unfold within. rewrite andb_true_iff, Z.leb_le, Z.ltb_lt. lia. Qed.

(** ** Where tables can be needed *)

Definition planned (va : Z) : Prop :=
  0x0c000000 <= va < 0x0c400000 \/ 0x10000000 <= va < 0x10002000 \/
  KERNBASE <= va < PHYSTOP \/ MAXVA - 130 * PGSIZE <= va < MAXVA.

Lemma path_planned va : planned va -> exists i j, path va = [i; j] /\ [i] ∈ plan /\ [i; j] ∈ plan.
Proof.
  intros H. unfold planned, KERNBASE, PHYSTOP, KERNBASE, PGSIZE in H. change MAXVA with 274877906944 in H.
  exists (PX 2 va), (PX 1 va). split; [done|]. rewrite !PX_eq by lia.
  change (2 ^ (12 + 9 * 2)) with 1073741824. change (2 ^ (12 + 9 * 1)) with 2097152.
  assert (forall i j, (va / 1073741824) mod 512 = i -> (va / 2097152) mod 512 = j -> [i] ∈ plan -> [i; j] ∈ plan ->
    [(va / 1073741824) mod 512] ∈ plan /\ [(va / 1073741824) mod 512; (va / 2097152) mod 512] ∈ plan) as E
    by (by intros ? ? -> ->).
  destruct H as [H|[H|[H|H]]].
  - destruct (decide (va < 0x0c200000)); [apply (E 0 96)|apply (E 0 97)];
      first [zmod|apply (bool_decide_unpack _); by vm_compute].
  - apply (E 0 128); first [zmod|apply (bool_decide_unpack _); by vm_compute].
  - apply (E 2 ((va - 0x80000000) / 2097152)); [zmod|zmod|apply (bool_decide_unpack _); by vm_compute|].
    unfold plan. apply elem_of_app. right. apply list_elem_of_fmap.
    exists (Z.to_nat ((va - 0x80000000) / 2097152)).
    assert (0 <= (va - 0x80000000) / 2097152 < 64) by zmod.
    rewrite Z2Nat.id by lia. split; [done|]. apply elem_of_seq. lia.
  - apply (E 255 511); first [zmod|apply (bool_decide_unpack _); by vm_compute].
Qed.

Lemma prefix_planned va p : planned va -> p `prefix_of` path va -> p ∈ plan.
Proof.
  intros (i & j & -> & Hi & Hij)%path_planned H.
  destruct p as [|a p]; [apply (bool_decide_unpack _); by vm_compute|].
  apply prefix_cons_inv_1 in H as Ha. apply prefix_cons_inv_2 in H. subst a.
  destruct p as [|b p]; [done|]. apply prefix_cons_inv_1 in H as Hb. apply prefix_cons_inv_2 in H. subst b.
  by apply prefix_nil_inv in H as ->.
Qed.

(** ** One step *)

Section Steps.
Context (kend : Z) (Hend : 0 < kend) (s0 : kmem) (l0 : list Z) (Hlen : (137 <= length l0)%nat).

(** What is true between two calls of kvmmap(): the address space is [km], the
    pages of [l0] are tables, stacks or free, and no other memory was written. *)
Record built (s : kmem) (l : list Z) (T : tables) (root : Z) (stacks : list Z) (km : Z -> option (Z * Z)) : Prop := {
  bu_inv : vm_inv kend s l T root;
  bu_pages : l0 ≡ₚ pages T ++ stacks ++ l;
  bu_plan : forall p, is_Some (T !! p) -> p ∈ plan;
  bu_leaf : forall va, 0 <= va < MAXVA -> pte_is (leaf T (k_mem s) va) (km va);
  bu_mem : forall a, page_of a ∉ l0 -> mget (k_mem s) a = mget (k_mem s0) a;
}.

Lemma built_left s l T root stacks km : built s l T root stacks km -> (length stacks <= 64)%nat -> l <> [].
Proof.
  intros H Hs ->. pose proof (Permutation_length (bu_pages _ _ _ _ _ _ H)) as E. rewrite !length_app in E. simpl in E.
  pose proof (pages_plan T (bu_plan _ _ _ _ _ _ H)). lia.
Qed.

Lemma built_ext s l T root stacks km km' : built s l T root stacks km ->
  (forall va, 0 <= va < MAXVA -> km' va = km va) -> built s l T root stacks km'.
Proof. intros [] H. constructor; try done. intros va Hva. rewrite H by done. auto. Qed.

(** The tables added were free pages. *)
Lemma pages_extends s l T root stacks s' l' T' : vm_inv kend s l T root -> vm_inv kend s' l' T' root ->
  extends s l T s' l' T' -> pages T ++ stacks ++ l ≡ₚ pages T' ++ stacks ++ l'.
Proof.
  intros Hi Hi' [_ (used & -> & Hu) _].
  pose proof (kinv_nodup _ _ _ (vm_kinv _ _ _ _ _ Hi)) as (Hnd & _ & _)%NoDup_app.
  assert (pages T' ≡ₚ pages T ++ used) as ->; [|by solve_Permutation].
  apply NoDup_Permutation.
  - by eapply pages_nodup, vm_pt.
  - apply NoDup_app. split_and!; [by eapply pages_nodup, vm_pt| |done].
    intros x (p & Hp)%elem_of_pages Hx. apply (vm_sep _ _ _ _ _ Hi _ _ Hp), elem_of_app. by left.
  - intros x. rewrite elem_of_app, !elem_of_pages. apply Hu.
Qed.

(** A region inside the plan, in the address space, where nothing is mapped yet. *)
Definition fits (km : Z -> option (Z * Z)) (lo pa n perm : Z) : Prop :=
  (0 < n /\ 0 <= lo /\ lo mod PGSIZE = 0 /\ lo + n * PGSIZE <= MAXVA) /\
  (0 <= pa /\ pa mod PGSIZE = 0 /\ pa + n * PGSIZE < 2 ^ 64 /\ 0 <= perm < 1024) /\
  forall va, lo <= va < lo + n * PGSIZE -> planned va /\ km va = None.

Lemma kvmmap_step s l T root stacks km lo pa n perm : built s l T root stacks km -> (length stacks <= 64)%nat ->
  fits km lo pa n perm ->
  returns (kvmmap root lo pa (n * PGSIZE) perm) s (fun _ s' => exists l' T',
    built s' l' T' root stacks (region km lo pa (n * PGSIZE) (Z.lor perm PTE_V))).
Proof.
  intros Hb Hs ((Hn & Hlo & Hm & Hmax) & (Hpa & Hpm & Hpmax & Hperm) & Hno). pose proof Hb as [Hinv Hp Hpl Hlf Hmem].
  assert (exists j, n = Z.of_nat j + 1) as [j ->] by (exists (Z.to_nat (n - 1)); lia).
  assert (MAXVA = 67108864 * PGSIZE) as HM by done.
  unfold kvmmap. apply returns_bind. rewrite mappages_eq, Nat2Z.id by (done || lia).
  eapply returns_mono; [apply (mappages_loop_spec kend Hend j _ s l T root lo pa perm Hinv)|]; try done; try (unfold PGSIZE in *; lia).
  { intros va Hva. specialize (Hlf va ltac:(unfold PGSIZE in *; lia)). destruct (Hno va Hva) as [_ E]. rewrite E in Hlf.
    by rewrite Hlf. }
  intros r s' (l' & T' & k & A & B & C & Q & D).
  pose proof (pages_extends s l T root stacks _ _ _ Hinv A B) as Hp'. rewrite <- Hp in Hp'.
  assert (forall p, is_Some (T' !! p) -> p ∈ plan) as Hpl'.
  { intros p [H|(va & Hva & H)]%Q; [by apply Hpl|]. by eapply prefix_planned; [apply Hno|]. }
  destruct D as [[-> ->]|(_ & _ & ->)].
  - simpl. apply returns_ret. exists l', T'. constructor; try done.
    + intros va Hva. rewrite (C va Hva). unfold region, within. destruct (_ && _) eqn:E; [|by apply Hlf].
      apply andb_true_iff in E as [?%Z.leb_le ?%Z.ltb_lt].
      assert (PGROUNDDOWN va = va / 4096 * 4096) as -> by (rewrite PGROUNDDOWN_eq; unfold PGSIZE; zmod).
      destruct (copied_pte (pa + (va / 4096 * 4096 - lo)) perm) as (? & ? & _);
        [unfold PGSIZE in *; zmod|unfold PGSIZE in *; zmod|done|by split].
    + intros a Ha. rewrite (ex_mem _ _ _ _ _ _ B); [by apply Hmem|..]; rewrite Hp, !elem_of_app, elem_of_pages in Ha; tauto.
  - exfalso. apply Permutation_length in Hp'. rewrite !length_app in Hp'. simpl in Hp'.
    pose proof (pages_plan T' Hpl'). lia.
Qed.

Lemma kvmmap_then {A} s l T root stacks km lo pa n perm (k : M kmem A) Q : built s l T root stacks km ->
  (length stacks <= 64)%nat -> fits km lo pa n perm ->
  (forall s' l' T', built s' l' T' root stacks (region km lo pa (n * PGSIZE) (Z.lor perm PTE_V)) -> returns k s' Q) ->
  returns (kvmmap root lo pa (n * PGSIZE) perm ;; k) s Q.
Proof.
  intros Hb Hs Hf Hk. apply returns_bind. eapply returns_mono; [by eapply kvmmap_step|].
  intros [] s' (l' & T' & H'). by eapply Hk.
Qed.

(** kalloc() in between. *)
Lemma page_step s l T root stacks km : built s l T root stacks km -> (length stacks < 64)%nat ->
  returns kalloc s (fun q s' => exists l', l = q :: l' /\ 0 < q /\ q + PGSIZE <= PHYSTOP /\ q mod PGSIZE = 0 /\
    built s' l' T root (stacks ++ [q]) km).
Proof.
  intros Hb Hs. pose proof (built_left _ _ _ _ _ _ Hb ltac:(lia)) as Hl. destruct l as [|q l]; [done|].
  destruct Hb as [Hinv Hp Hpl Hlf Hmem]. eapply returns_mono; [by apply (take_page kend Hend s q l T root)|].
  intros r s' (-> & Hq & _ & _ & Hinv' & Hl' & Hm).
  destruct (valid_page_range _ Hend _ Hq) as (Hq0 & Hq1 & Hqm). exists l. split_and!; [done..|].
  constructor; [done| |done| |].
  - rewrite Hp. by solve_Permutation.
  - intros va Hva. rewrite Hl'. by apply Hlf.
  - intros a Ha. rewrite Hm; [by apply Hmem|]. intros Hr. apply Ha.
    rewrite (proj2 (page_of_range a q Hqm) Hr), Hp, !elem_of_app. set_solver.
Qed.
End Steps.

(** ** The map, region by region *)

Section Map.
Context (etext trampoline : Z) (Hetext : KERNBASE < etext < PHYSTOP) (Hex : etext mod PGSIZE = 0).

(** The page of stack [i], in pages below the trampoline. *)
Lemma kernel_map_stack stacks va i : (i < 64)%nat -> KSTACK (Z.of_nat i) <= va < KSTACK (Z.of_nat i) + PGSIZE ->
  kernel_map etext trampoline stacks va = (fun pa => (pa, RW)) <$> stacks !! i.
Proof.
  intros Hi H. unfold KSTACK, TRAMPOLINE, PGSIZE, KERNBASE, PHYSTOP, KERNBASE in *. change MAXVA with 274877906944 in *.
  unfold kernel_map. assert ((2 ^ 38 - 4096 - va / 4096 * 4096) / 4096 = 2 * (Z.of_nat i + 1)) as ->.
  { change (2 ^ 38) with 274877906944. zmod. }
  repeat match goal with |- context [within ?a ?b ?c] => destruct (within_spec a b c); [lia|] end.
  destruct (Z.eqb_spec (2 * (Z.of_nat i + 1)) 0), (Z.ltb_spec 0 (2 * (Z.of_nat i + 1))); try lia.
  rewrite Z.even_mul. simpl. do 2 f_equal. zmod.
Qed.

Lemma kernel_map_snoc stacks q va : (length stacks < 64)%nat -> 0 <= va < MAXVA ->
  kernel_map etext trampoline (stacks ++ [q]) va =
  region (kernel_map etext trampoline stacks) (KSTACK (Z.of_nat (length stacks))) q (1 * PGSIZE) RW va.
Proof.
  intros Hs Hva. unfold region. destruct (within_spec va (KSTACK (Z.of_nat (length stacks))) (1 * PGSIZE)) as [H|H].
  - rewrite (kernel_map_stack _ va (length stacks)), (proj2 (lookup_snoc_Some q stacks _ q)) by (done || lia || by right). simpl. do 2 f_equal.
    unfold KSTACK, TRAMPOLINE, PGSIZE in *. change MAXVA with 274877906944 in *. zmod.
  - unfold kernel_map. destruct (_ && Z.even _) eqn:E; [|done]. apply andb_true_iff in E as [?%Z.ltb_lt [m Em]%Z.even_spec].
    rewrite lookup_snoc_ne; [done|]. intros Ei. apply H. rewrite Em in *.
    unfold KSTACK, TRAMPOLINE, PGSIZE in *. change (2 ^ 38) with 274877906944 in *. change MAXVA with 274877906944 in *. zmod.
Qed.

(** What kvmmake() maps before the stacks. *)
Definition regions : Z -> option (Z * Z) :=
  let m := region (fun _ => None) UART0 UART0 (1 * PGSIZE) RW in
  let m := region m VIRTIO0 VIRTIO0 (1 * PGSIZE) RW in
  let m := region m PLIC PLIC (1024 * PGSIZE) RW in
  let m := region m KERNBASE KERNBASE ((etext - KERNBASE) / PGSIZE * PGSIZE) RX in
  let m := region m etext etext ((PHYSTOP - etext) / PGSIZE * PGSIZE) RW in
  region m TRAMPOLINE trampoline (1 * PGSIZE) RX.

Lemma regions_map va : 0 <= va < MAXVA -> kernel_map etext trampoline [] va = regions va.
Proof.
  intros Hva. unfold regions, kernel_map, region, UART0, VIRTIO0, PLIC, TRAMPOLINE, KERNBASE, PHYSTOP, KERNBASE, PGSIZE in *.
  change MAXVA with 274877906944 in *. change (2 ^ 38) with 274877906944.
  replace ((etext - 2147483648) / 4096 * 4096) with (etext - 2147483648) by zmod.
  replace ((2147483648 + 128 * 1024 * 1024 - etext) / 4096 * 4096) with (2281701376 - etext) by zmod.
  set (down := (274877906944 - 4096 - va / 4096 * 4096) / 4096).
  replace (if (0 <? down) && Z.even down then _ else _) with (@None (Z * Z)) by (by destruct (_ && _)).
  assert (down = 0 <-> 274877906944 - 4096 <= va) as Hd by (unfold down; zmod). clearbody down.
  destruct (Z.eqb_spec down 0);
  repeat match goal with |- context [within ?a ?b ?c] => destruct (within_spec a b c); try lia end; try done.
  all: do 2 f_equal; zmod.
Qed.
End Map.

(** ** kvmmake() *)

Lemma root_step kend s l : 0 < kend -> kinv kend s l -> (137 <= length l)%nat ->
  returns kalloc s (fun root s' => exists l', l = root :: l' /\ 0 < root /\
    built kend s l (s' <| k_mem := memset root 0 PGSIZE (k_mem s') |>) l' ({[ [] := root ]} : tables) root [] (fun _ => None)).
Proof.
  intros Hend Hk Hl. destruct l as [|q l]; [simpl in Hl; lia|].
  pose proof (kinv_valid _ _ _ Hk) as [Hq Hv]%Forall_cons. pose proof (kinv_nodup _ _ _ Hk) as [Hql _]%NoDup_cons.
  destruct (valid_page_range _ Hend _ Hq) as (Hq0 & _ & Hqm).
  eapply returns_mono; [by apply (kalloc_cons kend Hend)|]. intros r s' (-> & Hk' & Hm).
  exists l. split_and!; [done..|]. set (s2 := (s' <| k_mem := memset q 0 PGSIZE (k_mem s') |>)).
  assert (forall a, mget (k_mem s2) a = if in_range q PGSIZE a then 0 else mget (k_mem s') a) as Hz
    by (intros; apply mget_memset; done).
  assert (ptwf kend (k_mem s2) {[ [] := q ]} q) as Hpt by (apply pt_single; [done|]; intros a Ha; rewrite Hz; by rcase).
  constructor.
  - constructor; [|done|by intros p t [<- <-]%lookup_singleton_Some].
    apply (kinv_frame kend Hend); [done|]. intros a Ha. rewrite Hz. rcase. exfalso.
    by rewrite (proj2 (page_of_range a q Hqm)) in Ha by done.
  - unfold pages. by rewrite map_to_list_singleton.
  - intros p [x [<- _]%lookup_singleton_Some]. apply (bool_decide_unpack _). by vm_compute.
  - intros va Hva. unfold leaf, slot_of. by rewrite lookup_singleton_ne.
  - intros a Ha. rewrite Hz, Hm. rcase. exfalso. apply Ha. rewrite (proj2 (page_of_range a q Hqm)) by done. set_solver.
Qed.

(** The regions lie in the plan and apart. *)
Ltac fits_ok :=
  unfold fits, planned, region, UART0, VIRTIO0, PLIC, TRAMPOLINE, PHYSTOP, KERNBASE, PGSIZE in *;
  change MAXVA with 274877906944 in *;
  split_and!; try done; try zmod; intros;
  repeat match goal with |- context [within ?a ?b ?c] => destruct (within_spec a b c); try (exfalso; zmod) end;
  split; [zmod|done].

#[local] Opaque kvmmap.

Section Make.
Context (kend : Z) (Hend : 0 < kend) (s0 : kmem) (l0 : list Z) (Hlen : (137 <= length l0)%nat).
Context (etext trampoline : Z) (Hetext : KERNBASE < etext < PHYSTOP) (Hex : etext mod PGSIZE = 0).
Context (Htr : 0 <= trampoline /\ trampoline mod PGSIZE = 0 /\ trampoline + PGSIZE < 2 ^ 64).

Lemma stack_step i s l T root stacks : built kend s0 l0 s l T root stacks (kernel_map etext trampoline stacks) ->
  length stacks = i -> (i < 64)%nat ->
  returns (pa <- kalloc ;; if pa =? 0 then panic "kalloc" else
    let va := KSTACK (Z.of_nat i) in kvmmap root va pa PGSIZE (Z.lor PTE_R PTE_W)) s
    (fun _ s' => exists l' T' q, built kend s0 l0 s' l' T' root (stacks ++ [q]) (kernel_map etext trampoline (stacks ++ [q]))).
Proof.
  intros Hb <- Hi. apply returns_bind. eapply returns_mono; [by apply (page_step kend Hend s0 l0 Hlen)|].
  intros q s1 (l1 & -> & Hq & Hq' & Hqm & Hb1). replace (q =? 0) with false by zcase. cbv zeta.
  eapply returns_mono; [apply (kvmmap_step kend Hend s0 l0 Hlen _ _ _ _ _ _ (KSTACK (Z.of_nat (length stacks))) q 1 (Z.lor PTE_R PTE_W) Hb1)|].
  - rewrite length_app. simpl. lia.
  - unfold fits. split_and!; try done; try (unfold KSTACK, TRAMPOLINE, PHYSTOP, KERNBASE, PGSIZE in *; change MAXVA with 274877906944; zmod).
    intros va Hva. rewrite Z.mul_1_l in Hva. rewrite (kernel_map_stack _ _ Hetext _ va _ Hi Hva), lookup_ge_None_2 by done.
    split; [|done]. unfold planned. unfold KSTACK, TRAMPOLINE, PGSIZE in *. lia.
  - intros _ s2 (l2 & T2 & Hb2). exists l2, T2, q. eapply built_ext; [exact Hb2|].
    intros va Hva. by rewrite kernel_map_snoc.
Qed.

Lemma mapstacks_step s l T root : built kend s0 l0 s l T root [] (kernel_map etext trampoline []) ->
  returns (proc_mapstacks root) s (fun _ s' => exists l' T' stacks, length stacks = 64%nat /\
    built kend s0 l0 s' l' T' root stacks (kernel_map etext trampoline stacks)).
Proof.
  intros Hb. eapply returns_mono.
  - apply (for_each_returns _ (fun i s' => exists l' T' stacks, length stacks = i /\
      built kend s0 l0 s' l' T' root stacks (kernel_map etext trampoline stacks))); [by exists l, T, []|].
    intros i s' Hi (l' & T' & stacks & Hn & Hb'). eapply returns_mono; [apply (stack_step i _ _ _ _ _ Hb' Hn); unfold NPROC in Hi; lia|].
    intros _ s2 (l2 & T2 & q & Hb2). exists l2, T2, (stacks ++ [q]). split; [rewrite length_app; simpl; lia|done].
  - intros _ s' (l' & T' & stacks & Hn & Hb'). by exists l', T', stacks.
Qed.

(** The calls of kvmmap() before proc_mapstacks(). *)
Lemma regions_step {A} s l T root (k : M kmem A) Q : built kend s0 l0 s l T root [] (fun _ => None) ->
  (forall s' l' T', built kend s0 l0 s' l' T' root [] (kernel_map etext trampoline []) -> returns k s' Q) ->
  returns (
    kvmmap root UART0 UART0 PGSIZE (Z.lor PTE_R PTE_W) ;;
    kvmmap root VIRTIO0 VIRTIO0 PGSIZE (Z.lor PTE_R PTE_W) ;;
    kvmmap root PLIC PLIC 0x400000 (Z.lor PTE_R PTE_W) ;;
    kvmmap root KERNBASE KERNBASE (etext - KERNBASE) (Z.lor PTE_R PTE_X) ;;
    kvmmap root etext etext (PHYSTOP - etext) (Z.lor PTE_R PTE_W) ;;
    kvmmap root TRAMPOLINE trampoline PGSIZE (Z.lor PTE_R PTE_X) ;; k) s Q.
Proof.
  intros Hb Hk. destruct Htr as (Ht0 & Ht1 & Ht2). assert (Hs : (length (@nil Z) <= 64)%nat) by (simpl; lia).
  assert (0 < (etext - KERNBASE) / PGSIZE /\ 0 < (PHYSTOP - etext) / PGSIZE /\
    etext - KERNBASE = (etext - KERNBASE) / PGSIZE * PGSIZE /\ PHYSTOP - etext = (PHYSTOP - etext) / PGSIZE * PGSIZE)
    as (HT & HD & ET & ED) by (unfold PHYSTOP, KERNBASE, PGSIZE in *; split_and!; zmod).
  change 0x400000 with (1024 * PGSIZE). rewrite ET, ED.
  pose proof (fun s l T km => @kvmmap_then kend Hend s0 l0 Hlen A s l T root [] km) as next.
  eapply (next _ _ _ _ UART0 UART0 1); [exact Hb|exact Hs|clear next; fits_ok|intros s1 l1 T1 H1].
  eapply (next _ _ _ _ VIRTIO0 VIRTIO0 1); [exact H1|exact Hs|clear next; fits_ok|intros s2 l2 T2 H2].
  eapply (next _ _ _ _ PLIC PLIC 1024); [exact H2|exact Hs|clear next; fits_ok|intros s3 l3 T3 H3].
  eapply next; [exact H3|exact Hs|clear next; fits_ok|intros s4 l4 T4 H4].
  eapply next; [exact H4|exact Hs|clear next; fits_ok|intros s5 l5 T5 H5].
  eapply (next _ _ _ _ TRAMPOLINE trampoline 1); [exact H5|exact Hs|clear next; fits_ok|intros s6 l6 T6 H6].
  eapply Hk, built_ext; [exact H6|]. intros va Hva. by rewrite regions_map.
Qed.
End Make.

(** ** Properties *)

(** C10: kvmmake() builds the address space of the kernel that kernel/memlayout.h
    describes, for a kernel text that ends on a page boundary inside RAM and an
    aligned trampoline page, when at least 137 pages are free.  It neither panics
    nor faults.  In the table it returns the devices and the RAM are mapped at
    their own addresses, the text readable and executable, the devices and the rest
    of the RAM readable and writable, the trampoline at the top, and below it 64
    stacks in pages of their own with an unmapped page between any two; no other
    address is mapped, and nothing for user code.  The pages used were free: the 64
    stacks and at most 72 tables, every other free page stays free, and no other
    memory is written. *)
Theorem kvmmake_maps (kend : Z) (s : kmem) (l : list Z) (etext trampoline : Z)
  (Hend : 0 < kend) (Hk : kinv kend s l) (Hl : (137 <= length l)%nat)
  (Hetext : KERNBASE < etext < PHYSTOP) (Hex : etext mod PGSIZE = 0)
  (Htr : 0 <= trampoline /\ trampoline mod PGSIZE = 0 /\ trampoline + PGSIZE < 2 ^ 64) :
  returns (kvmmake etext trampoline) s (fun root s' => exists l' T tabs stacks,
    vm_inv kend s' l' T root /\ NoDup l /\ l ≡ₚ tabs ++ stacks ++ l' /\
    (forall x, table_page T x <-> x ∈ tabs) /\ (length tabs <= 72)%nat /\ length stacks = 64%nat /\
    (forall va, 0 <= va < MAXVA -> pte_is (leaf T (k_mem s') va) (kernel_map etext trampoline stacks va)) /\
    forall a, page_of a ∉ l -> mget (k_mem s') a = mget (k_mem s) a).
Proof.
  apply returns_bind. eapply returns_mono; [by apply (root_step kend s l)|].
  intros root s1 (l1 & -> & Hr & H1). replace (root =? 0) with false by zcase.
  apply returns_bind. eapply returns_intro; [done|].
  cbv beta zeta. eapply (regions_step kend Hend s (root :: l1)); [done..|exact H1|]. intros s2 l2 T2 H2.
  apply returns_bind. eapply returns_mono; [exact (mapstacks_step kend Hend s (root :: l1) Hl etext trampoline Hetext _ _ _ _ H2)|].
  intros _ s3 (l3 & T3 & stacks & Hn & [A B C D E]). apply returns_ret. exists l3, T3, (pages T3), stacks.
  split_and!; try done; [by eapply kinv_nodup|intros x; by rewrite elem_of_pages|by apply pages_plan].
Qed.

(** 140 free pages, chained one after the other. *)
Definition wit_pages : list Z := (fun i => 0x80100000 + Z.of_nat i * PGSIZE) <$> seq 0 140.
Fixpoint wit_chain (l : list Z) : mem :=
  match l with p :: (q :: _) as l' => st64 p q (wit_chain l') | _ => ∅ end.
Definition wit_ram : kmem :=
  mkkmem (mkcpu 0 None 0 false 0) (initlock "kmem") 0x80100000 (wit_chain wit_pages).

Lemma wit_ram_inv : kinv 0x80020000 wit_ram wit_pages.
Proof.
  constructor; [done|done| | |apply (bool_decide_unpack _); by vm_compute].
  - vm_compute. repeat (split; [done|]). done.
  - apply (bool_decide_unpack _). by vm_compute.
Qed.

Lemma kvmmake_maps_witness :
  returns (kvmmake 0x80008000 0x80007000) wit_ram (fun root s' => exists l' T tabs stacks,
    vm_inv 0x80020000 s' l' T root /\ NoDup wit_pages /\ wit_pages ≡ₚ tabs ++ stacks ++ l' /\
    (forall x, table_page T x <-> x ∈ tabs) /\ (length tabs <= 72)%nat /\ length stacks = 64%nat /\
    (forall va, 0 <= va < MAXVA -> pte_is (leaf T (k_mem s') va) (kernel_map 0x80008000 0x80007000 stacks va)) /\
    forall a, page_of a ∉ wit_pages -> mget (k_mem s') a = mget (k_mem wit_ram) a).
Proof. apply kvmmake_maps; [done|exact wit_ram_inv|by apply Nat.leb_le; vm_compute|done|done|done]. Defined.
