(* ===== verification/KState.v ===== *)
(** * KState: the process table and the kernel state around it

    Models kernel/proc.h and the globals of kernel/proc.c and kernel/trap.c.
    Every component that takes locks sees its own part of this state through a
    lens.  The file layer is a parameter [F] of the state. *)
From S2P Require Import Prelude Spinlock ProcQueue Mem Kalloc Vm.

(** ** kernel/proc.h *)

Record context : Type := mkcontext {
  ctx_ra : Z;
  ctx_sp : Z;
  ctx_s : list Z;              (* callee-saved: s0 .. s11 *)
}.

Inductive procstate : Type := UNUSED | USED | SLEEPING | RUNNABLE | RUNNING | ZOMBIE.
#[export] Instance procstate_eq_dec : EqDecision procstate.
Proof. solve_decision. Defined.

(** Offsets into struct trapframe. *)
Definition tf_epc : Z := 24.
Definition tf_sp : Z := 48.
Definition tf_a0 : Z := 112.
Definition tf_a1 : Z := 120.
Definition tf_a7 : Z := 168.
Definition tf_size : Z := 288.

Record proc : Type := mkproc {
  p_lock : spinlock;
  p_state : procstate;         (* Process state *)
  p_chan : Z;                  (* If non-zero, sleeping on chan *)
  p_killed : Z;                (* If non-zero, have been killed *)
  p_xstate : Z;                (* Exit status to be returned to parent's wait *)
  p_pid : Z;                   (* Process ID *)
  p_parent : option nat;       (* Parent process, an index in proc[] *)
  p_kstack : Z;                (* Virtual address of kernel stack *)
  p_sz : Z;                    (* Size of process memory (bytes) *)
  p_pagetable : Z;             (* User page table *)
  p_trapframe : Z;             (* data page for trampoline.S *)
  p_context : context;         (* swtch() here to run process *)
  p_ofile : list (option nat); (* Open files *)
  p_cwd : option nat;          (* Current directory *)
  p_name : string;             (* Process name, up to its NUL *)
  p_trace_mask : Z;
  p_birthtime : Z;
  p_staticPriority : Z;
  p_dynamicPriority : Z;
  p_niceness : Z;
  p_sched1 : Z;
  p_runtime : Z;
  p_sched2 : Z;
  p_inQ : Z;
  p_level : Z;
  p_timeinQ : Z;
  p_qEnter : Z;
  p_timeineachq : list Z;
  p_rtime : Z;                 (* How long the process ran for *)
  p_ctime : Z;                 (* When was the process created *)
  p_etime : Z;                 (* When did the process exited *)
  p_nrun : Z;                  (* Number of times the process ran *)
}.
#[export] Instance eta_proc : Settable proc := fun p =>
  mkproc (p_lock p) (p_state p) (p_chan p) (p_killed p) (p_xstate p) (p_pid p) (p_parent p)
    (p_kstack p) (p_sz p) (p_pagetable p) (p_trapframe p) (p_context p) (p_ofile p) (p_cwd p)
    (p_name p) (p_trace_mask p) (p_birthtime p) (p_staticPriority p) (p_dynamicPriority p)
    (p_niceness p) (p_sched1 p) (p_runtime p) (p_sched2 p) (p_inQ p) (p_level p) (p_timeinQ p)
    (p_qEnter p) (p_timeineachq p) (p_rtime p) (p_ctime p) (p_etime p) (p_nrun p).

(** A zero-initialised entry of the static array proc[]. *)
Definition zero_proc : proc :=
  mkproc (mkspinlock false "" None) UNUSED 0 0 0 0 None 0 0 0 0 (mkcontext 0 0 (replicate 12 0))
    (replicate NOFILE None) None "" 0 0 0 0 0 0 0 0 0 0 0 0 (replicate 5 0) 0 0 0 0.

(** ** The globals *)

Record kst (F : Type) : Type := mkkst {
  ks_km : kmem;                (* this CPU, the allocator and memory *)
  ks_procs : list proc;        (* proc[NPROC] *)
  ks_pid_lock : spinlock;
  ks_nextpid : Z;
  ks_wait_lock : spinlock;
  ks_tickslock : spinlock;
  ks_ticks : Z;
  ks_mfq : list ProcQueue;     (* mfq[5] *)
  ks_initproc : option nat;
  ks_files : F;                (* the file layer *)
}.
Arguments mkkst {F}.
Arguments ks_km {F}.
Arguments ks_procs {F}.
Arguments ks_pid_lock {F}.
Arguments ks_nextpid {F}.
Arguments ks_wait_lock {F}.
Arguments ks_tickslock {F}.
Arguments ks_ticks {F}.
Arguments ks_mfq {F}.
Arguments ks_initproc {F}.
Arguments ks_files {F}.
#[export] Instance eta_kst F : Settable (kst F) := fun s =>
  mkkst (ks_km s) (ks_procs s) (ks_pid_lock s) (ks_nextpid s) (ks_wait_lock s) (ks_tickslock s)
    (ks_ticks s) (ks_mfq s) (ks_initproc s) (ks_files s).

Section Lenses.
Context {F : Type}.

Definition kml : lens (kst F) kmem := field ks_km.

Definition cpul : lens (kst F) cpu :=
  Lens (fun s => k_cpu (ks_km s)) (fun c s => s <| ks_km := (ks_km s) <| k_cpu := c |> |>).

(** proc[i]; an index out of range is never used. *)
Definition getproc (s : kst F) (i : nat) : proc := default zero_proc (ks_procs s !! i).
Definition setproc (i : nat) (p : proc) (s : kst F) : kst F :=
  s <| ks_procs := <[i := p]> (ks_procs s) |>.

Definition plockl (i : nat) : lens (kst F) spinlock :=
  Lens (fun s => p_lock (getproc s i)) (fun l s => setproc i ((getproc s i) <| p_lock := l |>) s).

Definition pidlockl : lens (kst F) spinlock := field ks_pid_lock.
Definition waitlockl : lens (kst F) spinlock := field ks_wait_lock.
Definition tickslockl : lens (kst F) spinlock := field ks_tickslock.

(** Reading and updating proc[i] *)
Definition pget {A} (i : nat) (f : proc -> A) : M (kst F) A := gets (fun s => f (getproc s i)).
Definition pmod (i : nat) (f : proc -> proc) : M (kst F) unit :=
  modify (fun s => setproc i (f (getproc s i)) s).
End Lenses.

(** What the process layer needs of the file layer (kernel/file.c, kernel/fs.c,
    kernel/log.c). *)
Class FileOps (F : Type) := {
  filedup : nat -> M (kst F) nat;
  fileclose : nat -> M (kst F) unit;
  idup : option nat -> M (kst F) (option nat);
  iput : option nat -> M (kst F) unit;
  begin_op : M (kst F) unit;
  end_op : M (kst F) unit;
  namei : string -> M (kst F) (option nat);
}.

(** swtch (kernel/swtch.S) seen from the side that calls it: everything that
    happens until control comes back.  [swtch_out] is the switch from a process
    to its CPU's scheduler, [swtch_to i] from the scheduler to process [i]. *)
Class Switch (F : Type) := {
  swtch_out : M (kst F) unit;
  swtch_to : nat -> M (kst F) unit;
}.

(** ** Lock cells *)

#[export] Instance cell_pid F : LockCell (fun _ : kst F => True) cpul pidlockl.
Proof. constructor; done. Qed.
#[export] Instance cell_wait F : LockCell (fun _ : kst F => True) cpul waitlockl.
Proof. constructor; done. Qed.
#[export] Instance cell_ticks F : LockCell (fun _ : kst F => True) cpul tickslockl.
Proof. constructor; done. Qed.

Definition has_proc {F} (i : nat) (s : kst F) : Prop := (i < length (ks_procs s))%nat.

Lemma getproc_setproc {F} i p (s : kst F) : has_proc i s -> getproc (setproc i p s) i = p.
Proof. intros H. unfold getproc, setproc. simpl. by rewrite list_lookup_insert_eq. Qed.

Lemma getproc_setproc_ne {F} i j p (s : kst F) : i <> j -> getproc (setproc i p s) j = getproc s j.
Proof. intros H. unfold getproc, setproc. simpl. by rewrite list_lookup_insert_ne. Qed.

Lemma setproc_setproc {F} i p q (s : kst F) : setproc i p (setproc i q s) = setproc i p s.
Proof. unfold setproc. simpl. by rewrite list_insert_insert_eq. Qed.

Lemma setproc_has {F} i j p (s : kst F) : has_proc j (setproc i p s) <-> has_proc j s.
Proof. unfold has_proc, setproc. simpl. by rewrite length_insert. Qed.

#[export] Instance cell_proc F i : LockCell (has_proc (F := F) i) cpul (plockl i).
Proof.
  constructor; try done; intros; cbn [lget lset plockl cpul].
  - by apply setproc_has.
  - by rewrite getproc_setproc.
  - rewrite getproc_setproc, setproc_setproc by done. by destruct (getproc s i).
Qed.

(** ** Process locks, as equations

    [hold i s] is [s] after this CPU took proc[i]'s lock, [settle s] is [s]
    after a matched acquire/release (only the CPU's saved interrupt flag can
    have moved). *)

Section Locks.
Context {F : Type}.
Implicit Types s : kst F.

Definition upd (i : nat) (f : proc -> proc) s : kst F := setproc i (f (getproc s i)) s.
Definition setcpu (c : cpu) s : kst F := lset cpul c s.
Definition settle s : kst F := setcpu (touched (lget cpul s)) s.
Definition hold (i : nat) s : kst F :=
  setcpu (pushed (lget cpul s)) (upd i (fun p => p <| p_lock := held_by (c_tp (lget cpul s)) (p_lock p) |>) s).

(** Every process lock is free and this CPU is between two statements. *)
Record kst_ok s : Prop := {
  ok_cpu : cpu_ok (lget cpul s);
  ok_len : length (ks_procs s) = NPROC;
  ok_free : forall i, (i < NPROC)%nat -> unheld (p_lock (getproc s i)) = p_lock (getproc s i);
}.

(** [f] neither reads nor writes the lock. *)
Definition keeps_lock (f : proc -> proc) : Prop :=
  forall p l, f (p <| p_lock := l |>) = (f p) <| p_lock := l |>.

Lemma settle_settle s : settle (settle s) = settle s.
Proof. unfold settle, setcpu. cbn. by rewrite touched_idemp. Qed.

Lemma hold_settle i s : hold i (settle s) = hold i s.
Proof.
  unfold hold, settle, setcpu, upd, getproc. cbn. rewrite pushed_touched.
  by replace (c_tp (touched (k_cpu (ks_km s)))) with (c_tp (k_cpu (ks_km s)))
    by (unfold touched; by destruct (_ =? 0)).
Qed.

Lemma upd_settle i f s : upd i f (settle s) = settle (upd i f s).
Proof. done. Qed.

Lemma ok_has s i : kst_ok s -> (i < NPROC)%nat -> has_proc i s.
Proof. intros H Hi. unfold has_proc. by rewrite (ok_len _ H). Qed.

Lemma acquire_proc s i : kst_ok s -> (i < NPROC)%nat ->
  acquire cpul (plockl i) s = Ret tt (hold i s).
Proof.
  intros H Hi. rewrite (acquire_free (D := has_proc i)); [done|by apply ok_has|].
  cbn [lget plockl]. rewrite <- (ok_free _ H i Hi). done.
Qed.

Lemma getproc_upd i f s : has_proc i s -> getproc (upd i f s) i = f (getproc s i).
Proof. intros. unfold upd. by rewrite getproc_setproc. Qed.

Lemma getproc_upd_ne i j f s : i <> j -> getproc (upd i f s) j = getproc s j.
Proof. intros. unfold upd. by rewrite getproc_setproc_ne. Qed.

Lemma upd_upd i f g s : has_proc i s -> upd i f (upd i g s) = upd i (fun p => f (g p)) s.
Proof. intros H. unfold upd. by rewrite getproc_setproc, setproc_setproc. Qed.

Lemma upd_comm i j f g s : i <> j -> upd i f (upd j g s) = upd j g (upd i f s).
Proof.
  intros Hne. unfold upd. rewrite !getproc_setproc_ne by done. unfold setproc. cbn. f_equal.
  by rewrite list_insert_insert_ne by done.
Qed.

Lemma upd_ext i f g s : f (getproc s i) = g (getproc s i) -> upd i f s = upd i g s.
Proof. unfold upd. by intros ->. Qed.

Lemma upd_id i f s : f (getproc s i) = getproc s i -> has_proc i s -> upd i f s = s.
Proof.
  unfold upd, setproc, getproc, has_proc. intros -> [p Hp]%lookup_lt_is_Some. rewrite Hp. simpl.
  destruct s. cbn in *. by rewrite list_insert_id.
Qed.

(** Inside the critical section. *)
Lemma pget_hold {A} s i (g : proc -> A) : has_proc i s ->
  (forall p l, g (p <| p_lock := l |>) = g p) -> pget i g (hold i s) = Ret (g (getproc s i)) (hold i s).
Proof.
  intros H Hg. unfold pget, gets. f_equal. unfold hold, setcpu.
  change (getproc (lset cpul ?c ?t) i) with (getproc t i). by rewrite getproc_upd, Hg.
Qed.

Lemma pmod_hold s i f : has_proc i s -> keeps_lock f ->
  pmod i f (hold i s) = Ret tt (hold i (upd i f s)).
Proof.
  intros H Hf. unfold pmod, modify. f_equal. unfold hold, setcpu.
  change (getproc (lset cpul ?c ?t) i) with (getproc t i).
  change (setproc i ?p (lset cpul ?c ?t)) with (lset cpul c (setproc i p t)).
  fold (upd i f (upd i (fun p => p <| p_lock := held_by (c_tp (lget cpul s)) (p_lock p) |>) s)).
  rewrite !upd_upd by done. change (lget cpul (upd i f s)) with (lget cpul s). f_equal.
  apply upd_ext. rewrite Hf. do 2 f_equal.
  specialize (Hf (getproc s i) (p_lock (getproc s i))). apply (f_equal p_lock) in Hf. simpl in Hf.
  rewrite <- Hf. by destruct (getproc s i).
Qed.

Lemma gets_hold {A} s i (g : kst F -> A) : g (hold i s) = g s -> gets g (hold i s) = Ret (g s) (hold i s).
Proof. unfold gets. by intros ->. Qed.

Lemma keeps_lock_eq f p : keeps_lock f -> p_lock (f p) = p_lock p.
Proof.
  intros Hf. specialize (Hf p (p_lock p)). apply (f_equal p_lock) in Hf. simpl in Hf.
  rewrite <- Hf. by destruct p.
Qed.

Lemma upd_ok i f s : kst_ok s -> keeps_lock f -> kst_ok (upd i f s).
Proof.
  intros [A B C] Hf. constructor; [done|by unfold upd, setproc; simpl; rewrite length_insert|].
  intros j Hj. destruct (decide (i = j)) as [->|Hne].
  - rewrite getproc_upd by (unfold has_proc; lia). rewrite keeps_lock_eq by done. by apply C.
  - rewrite getproc_upd_ne by done. by apply C.
Qed.

Lemma settle_ok s : kst_ok s -> kst_ok (settle s).
Proof. intros [A B C]. constructor; [by apply touched_ok|done|done]. Qed.

Lemma release_proc s i : kst_ok s -> (i < NPROC)%nat ->
  release cpul (plockl i) (hold i s) = Ret tt (settle s).
Proof.
  intros H Hi. pose proof (ok_has _ _ H Hi) as Hh.
  assert (lget (plockl i) (hold i s) = held_by (c_tp (lget cpul s)) (p_lock (getproc s i))) as E.
  { cbn [lget plockl]. unfold hold, setcpu. change (getproc (lset cpul ?c ?t) i) with (getproc t i).
    by rewrite getproc_upd. }
  rewrite (release_held (D := has_proc i)) with (c := lget cpul s); rewrite ?E; try done.
  - f_equal. unfold settle, setcpu.
    change (lset (plockl i) ?l (hold i s)) with (lset cpul (pushed (lget cpul s)) (lset (plockl i) l
      (upd i (fun p => p <| p_lock := held_by (c_tp (lget cpul s)) (p_lock p) |>) s))).
    rewrite (lc_ss_cl (D := has_proc i) (lk := plockl i)) by
      (unfold has_proc, upd, setproc; cbn; by rewrite !length_insert).
    f_equal. cbn [lset plockl]. rewrite getproc_upd by done. unfold upd. rewrite setproc_setproc.
    etrans; [|by apply (upd_id i (fun p => p) s)]. unfold upd. f_equal.
    pose proof (ok_free _ H i Hi). destruct (getproc s i) as [l]. cbn in *. by f_equal.
  - by apply setproc_has.
  - by apply H.
Qed.

(** [s'] is [s] but for the processes and the CPU's saved interrupt flag. *)
Definition rest_eq s s' : Prop := settle (s' <| ks_procs := ks_procs s |>) = settle s.

Definition map_procs (f : nat -> proc -> proc) s : kst F := s <| ks_procs := imap f (ks_procs s) |>.

Lemma rest_eq_ticks s s' : rest_eq s s' -> ks_ticks s' = ks_ticks s.
Proof. intros H. by apply (f_equal ks_ticks) in H. Qed.
Lemma rest_eq_init s s' : rest_eq s s' -> ks_initproc s' = ks_initproc s.
Proof. intros H. by apply (f_equal ks_initproc) in H. Qed.
Lemma touched_proc c : c_proc (touched c) = c_proc c.
Proof. unfold touched. by destruct (_ =? 0). Qed.
Lemma rest_eq_cproc s s' : rest_eq s s' -> c_proc (lget cpul s') = c_proc (lget cpul s).
Proof.
  intros H. apply (f_equal (fun t => c_proc (lget cpul t))) in H. cbn in *. by rewrite !touched_proc in H.
Qed.

(** A loop over the process table whose rounds are critical sections. *)
Lemma for_each_procs (body : nat -> M (kst F) unit) (f : nat -> proc -> proc) s :
  kst_ok s -> (forall i, keeps_lock (f i)) ->
  (forall i s', kst_ok s' -> rest_eq s s' -> (i < NPROC)%nat ->
     body i s' = Ret tt (settle (upd i (f i) s'))) ->
  for_each (seq 0 NPROC) body s = Ret tt (settle (map_procs f s)).
Proof.
  intros Hok Hf Hb.
  assert (forall n k s', (k + n)%nat = NPROC -> kst_ok s' -> rest_eq s s' -> (k = 0%nat \/ s' = settle s') ->
    ks_procs s' = imap (fun i p => if decide (i < k)%nat then f i p else p) (ks_procs s) ->
    for_each (seq k n) body s' = Ret tt (settle (map_procs f s))) as Hgen.
  { induction n as [|n IH]; intros k s' Hk Hok' Hrest Hset Hp; simpl.
    - unfold ret. f_equal. destruct Hset as [Hz | Hz]; [unfold NPROC in *; lia|]; rewrite Hz; clear Hz.
      unfold rest_eq in Hrest. unfold map_procs.
      replace (imap f (ks_procs s)) with (ks_procs s').
      + apply (f_equal (fun t => t <| ks_procs := ks_procs s' |>)) in Hrest.
        destruct s', s. cbn in *. exact Hrest.
      + rewrite Hp. apply imap_ext. intros i p Hi%lookup_lt_Some. rewrite (ok_len _ Hok) in Hi.
        by rewrite decide_True by lia.
    - unfold bind. rewrite Hb by (done || lia). apply IH; [lia|by apply settle_ok, upd_ok| | |].
      + unfold rest_eq in *. rewrite <- Hrest. unfold upd, settle, setcpu, setproc. cbn.
        by rewrite touched_idemp.
      + right. by rewrite settle_settle.
      + change (ks_procs (settle ?t)) with (ks_procs t). unfold upd, setproc, getproc. cbn. rewrite Hp.
        apply list_eq. intros j. rewrite list_lookup_insert.
        rewrite !length_imap, !list_lookup_imap.
        destruct (ks_procs s !! k) as [pk|] eqn:Epk.
        2: { apply lookup_ge_None in Epk. rewrite (ok_len _ Hok) in Epk. lia. }
        pose proof (lookup_lt_Some _ _ _ Epk). cbn.
        destruct (decide (k = j)) as [<-|Hne].
        * rewrite decide_True by (split; [done|lia]). rewrite Epk. cbn.
          rewrite (decide_False (P := (k < k)%nat)), decide_True by lia. done.
        * rewrite decide_False by tauto. destruct (ks_procs s !! j); [|done]. cbn. f_equal.
          destruct (decide (j < k)%nat); [by rewrite decide_True by lia|by rewrite decide_False by lia]. }
  apply (Hgen NPROC 0%nat); [done|done|done|by left|].
  apply list_eq. intros j. rewrite list_lookup_imap. by destruct (ks_procs s !! j).
Qed.

(** A search of the process table: rounds that miss leave no trace, the first
    that hits ends the loop with [hit]. *)
Lemma for_first_procs {A} (body : nat -> M (kst F) (option A)) (P : proc -> Prop)
    `{!forall p, Decision (P p)} (hit : nat -> A * kst F) s :
  kst_ok s ->
  (forall i s', kst_ok s' -> settle s' = settle s -> (i < NPROC)%nat ->
     body i s' = if decide (P (getproc s i)) then Ret (Some (hit i).1) (hit i).2
                 else Ret None (settle s)) ->
  for_first (seq 0 NPROC) body s =
  match list_find P (ks_procs s) with
  | Some (i, _) => Ret (Some (hit i).1) (hit i).2
  | None => Ret None (settle s)
  end.
Proof.
  intros Hok Hb.
  assert (forall n k s', (k + n)%nat = NPROC -> kst_ok s' -> settle s' = settle s -> (k = 0%nat \/ s' = settle s) ->
    for_first (seq k n) body s' =
    match list_find P (drop k (ks_procs s)) with
    | Some (i, _) => Ret (Some (hit (k + i)%nat).1) (hit (k + i)%nat).2
    | None => Ret None (settle s)
    end) as Hgen.
  { induction n as [|n IH]; intros k s' Hk Hok' Hs Hset; simpl.
    - rewrite drop_ge by (rewrite (ok_len _ Hok); lia). simpl.
      destruct Hset as [Hz | Hz]; [unfold NPROC in *; lia|]. by rewrite Hz.
    - unfold bind. rewrite Hb by (done || lia).
      destruct (ks_procs s !! k) as [p|] eqn:Ep.
      2: { apply lookup_ge_None in Ep. rewrite (ok_len _ Hok) in Ep. lia. }
      rewrite (drop_S _ _ _ Ep). unfold getproc. rewrite Ep. simpl.
      case_decide; simpl; [by rewrite Nat.add_0_r|].
      rewrite IH; [|lia|by apply settle_ok|by apply settle_settle|by right].
      destruct (list_find P (drop (S k) (ks_procs s))) as [[i q]|]; simpl; [|done].
      by replace (k + S i)%nat with (S (k + i)) by lia. }
  rewrite (Hgen NPROC 0%nat) by (done || by left). by destruct (list_find _ _) as [[]|].
Qed.

Lemma settled_hold s s' i : settle s' = settle s -> hold i s' = hold i s.
Proof. intros H. by rewrite <- (hold_settle i s'), H, hold_settle. Qed.

Lemma settled_getproc s s' i : settle s' = settle s -> getproc s' i = getproc s i.
Proof. intros H. by apply (f_equal (fun t => getproc t i)) in H. Qed.

Lemma settled_upd s s' i f : settle s' = settle s -> settle (upd i f s') = settle (upd i f s).
Proof. intros H. by rewrite <- !upd_settle, H. Qed.

Lemma map_procs_ok s f : kst_ok s -> (forall i q, p_lock (f i q) = p_lock q) -> kst_ok (map_procs f s).
Proof.
  intros [A B C] Hf. constructor; [done|unfold map_procs; simpl; by rewrite length_imap|].
  intros i Hi. specialize (C i Hi). unfold getproc, map_procs in *. simpl. rewrite list_lookup_imap.
  destruct (ks_procs s !! i); simpl in *; [by rewrite Hf|done].
Qed.

Lemma map_procs_comp s f g : map_procs f (map_procs g s) = map_procs (fun i q => f i (g i q)) s.
Proof.
  unfold map_procs. cbn. f_equal. apply list_eq. intros i. rewrite !list_lookup_imap.
  by destruct (ks_procs s !! i).
Qed.

Lemma map_procs_ext s f g : (forall i q, ks_procs s !! i = Some q -> f i q = g i q) -> map_procs f s = map_procs g s.
Proof. intros H. unfold map_procs. f_equal. by apply imap_ext. Qed.

Lemma upd_map s i f : upd i f s = map_procs (fun j q => if decide (i = j) then f q else q) s.
Proof.
  unfold upd, setproc, map_procs, getproc. f_equal. apply list_eq. intros j.
  rewrite list_lookup_insert, list_lookup_imap. destruct (decide (i = j)) as [<-|Hne].
  - destruct (ks_procs s !! i) as [q|] eqn:E; simpl.
    + by rewrite decide_True by (split; [done|by eapply lookup_lt_Some]).
    + rewrite decide_False; [done|]. intros [_ H]. by apply lookup_ge_None in E; lia.
  - rewrite decide_False by tauto. by destruct (ks_procs s !! j).
Qed.

Lemma settled_map s s' f : settle s' = settle s -> settle (map_procs f s') = settle (map_procs f s).
Proof.
  intros H. change (settle (map_procs f ?t)) with (map_procs f (settle t)). by rewrite H.
Qed.

Lemma getproc_map s f i : has_proc i s -> getproc (map_procs f s) i = f i (getproc s i).
Proof.
  intros H. unfold getproc, map_procs. cbn. rewrite list_lookup_imap.
  destruct (ks_procs s !! i) eqn:E; [done|]. apply lookup_ge_None in E. unfold has_proc in H. lia.
Qed.

Lemma hold_getproc_ne s i j : i <> j -> getproc (hold i s) j = getproc s j.
Proof.
  intros H. apply (getproc_upd_ne i j (fun p => p <| p_lock := held_by (c_tp (lget cpul s)) (p_lock p) |>) s H).
Qed.

Lemma hold_getproc s i : has_proc i s ->
  getproc (hold i s) i = (getproc s i) <| p_lock := held_by (c_tp (lget cpul s)) (p_lock (getproc s i)) |>.
Proof.
  intros H. apply (getproc_upd i (fun p => p <| p_lock := held_by (c_tp (lget cpul s)) (p_lock p) |>) s H).
Qed.

End Locks.
