(* ===== verification/Proc.v ===== *)
(** * Proc: processes

    Models the process half of kernel/proc.c: identifiers, allocation, fork,
    exit, wait, waitx, kill, sleep and wakeup. *)
From S2P Require Import Prelude Spinlock ProcQueue Mem Kalloc Vm KState.

Section Proc.
Context {F : Type} `{!FileOps F} `{!Switch F}.

(** Set by the linker: the end of the kernel, the trampoline page, the address
    of [forkret]; and the place of proc[i].xstate in kernel memory. *)
Context (kend trampoline forkret_addr : Z) (xstate_addr : nat -> Z).

Definition km {A} (m : M kmem A) : M (kst F) A := zoom kml m.

(** ** cpuid, myproc, allocpid *)

Definition cpuid : M (kst F) nat := gets (fun s => c_tp (lget cpul s)).

Definition myproc : M (kst F) (option nat) :=
  zoom cpul push_off ;;
  p <- gets (fun s => c_proc (lget cpul s)) ;;
  zoom cpul pop_off ;;
  ret p.

(** The current process; a null [p] would be dereferenced by the caller. *)
Definition curproc : M (kst F) nat :=
  p <- myproc ;;
  match p with Some i => ret i | None => fail EFault end.

Definition allocpid : M (kst F) Z :=
  acquire cpul pidlockl ;;
  pid <- gets ks_nextpid ;;
  modify (fun s => s <| ks_nextpid := i32 (ks_nextpid s + 1) |>) ;;
  release cpul pidlockl ;;
  ret pid.

Definition procinit : M (kst F) unit :=
  modify (fun s => s <| ks_pid_lock := initlock "nextpid" |>) ;;
  modify (fun s => s <| ks_wait_lock := initlock "wait_lock" |>) ;;
  for_each (seq 0 NPROC) (fun i =>
    pmod i (fun p => p <| p_lock := initlock "proc" |>) ;;
    pmod i (fun p => p <| p_kstack := KSTACK (Z.of_nat i) |>)).

(** ** proc_pagetable, proc_freepagetable *)

Definition proc_pagetable (i : nat) : M (kst F) Z :=
  pagetable <- km uvmcreate ;;
  if pagetable =? 0 then ret 0 else
  r <- km (mappages pagetable TRAMPOLINE PGSIZE trampoline (Z.lor PTE_R PTE_X)) ;;
  if r <? 0 then km (uvmfree kend pagetable 0) ;; ret 0 else
  tf <- pget i p_trapframe ;;
  r <- km (mappages pagetable TRAPFRAME PGSIZE tf (Z.lor PTE_R PTE_W)) ;;
  if r <? 0
  then km (uvmunmap kend pagetable TRAMPOLINE 1 false) ;;
       km (uvmfree kend pagetable 0) ;;
       ret 0
  else ret pagetable.

Definition proc_freepagetable (pagetable sz : Z) : M (kst F) unit :=
  km (uvmunmap kend pagetable TRAMPOLINE 1 false) ;;
  km (uvmunmap kend pagetable TRAPFRAME 1 false) ;;
  km (uvmfree kend pagetable sz).

(** ** freeproc, allocproc *)

Definition freeproc (i : nat) : M (kst F) unit :=
  tf <- pget i p_trapframe ;;
  when (negb (tf =? 0)) (km (kfree kend tf)) ;;
  pmod i (fun p => p <| p_trapframe := 0 |>) ;;
  pt <- pget i p_pagetable ;;
  sz <- pget i p_sz ;;
  when (negb (pt =? 0)) (proc_freepagetable pt sz) ;;
  pmod i (fun p => p <| p_pagetable := 0 |> <| p_sz := 0 |> <| p_pid := 0 |> <| p_parent := None |>
                     <| p_name := ""%string |> <| p_chan := 0 |> <| p_killed := 0 |> <| p_xstate := 0 |>
                     <| p_state := UNUSED |>).

(** The assignments of [allocproc] between allocpid() and kalloc(). *)
Definition fresh_proc (pid ticks : Z) (p : proc) : proc :=
  p <| p_pid := pid |> <| p_state := USED |> <| p_birthtime := ticks |>
    <| p_inQ := 0 |> <| p_qEnter := ticks |> <| p_level := 0 |> <| p_timeinQ := Z.shiftl 1 0 |>
    <| p_rtime := 0 |> <| p_etime := 0 |> <| p_timeineachq := replicate 5 0 |> <| p_nrun := 0 |>
    <| p_staticPriority := 60 |> <| p_niceness := 5 |>.

Definition alloc_found (i : nat) : M (kst F) (option nat) :=
  pid <- allocpid ;;
  ticks <- gets ks_ticks ;;
  pmod i (fresh_proc pid ticks) ;;
  tf <- km kalloc ;;
  pmod i (fun p => p <| p_trapframe := tf |>) ;;
  if tf =? 0 then freeproc i ;; release cpul (plockl i) ;; ret None else
  pt <- proc_pagetable i ;;
  pmod i (fun p => p <| p_pagetable := pt |>) ;;
  if pt =? 0 then freeproc i ;; release cpul (plockl i) ;; ret None else
  pmod i (fun p => p <| p_context := mkcontext forkret_addr (p_kstack p + PGSIZE) (replicate 12 0) |>) ;;
  ret (Some i).

Definition find_unused : M (kst F) (option nat) :=
  for_first (seq 0 NPROC) (fun i =>
    acquire cpul (plockl i) ;;
    st <- pget i p_state ;;
    if decide (st = UNUSED) then ret (Some i)
    else release cpul (plockl i) ;; ret None).

Definition allocproc : M (kst F) (option nat) :=
  r <- find_unused ;;
  match r with Some i => alloc_found i | None => ret None end.

(** [initcode] is a byte array of the kernel image, at [src], 52 bytes long. *)
Definition userinit (src : Z) : M (kst F) unit :=
  r <- allocproc ;;
  modify (fun s => s <| ks_initproc := r |>) ;;
  match r with
  | None => fail EFault
  | Some i =>
      pt <- pget i p_pagetable ;;
      km (uvminit pt src 52) ;;
      pmod i (fun p => p <| p_sz := PGSIZE |>) ;;
      tf <- pget i p_trapframe ;;
      km (kstore (tf + tf_epc) 0) ;;
      km (kstore (tf + tf_sp) PGSIZE) ;;
      pmod i (fun p => p <| p_name := "initcode"%string |>) ;;
      cwd <- namei "/" ;;
      pmod i (fun p => p <| p_cwd := cwd |>) ;;
      pmod i (fun p => p <| p_state := RUNNABLE |>) ;;
      release cpul (plockl i)
  end.

(** [sz] is a uint here, so that the 64-bit size is truncated. *)
Definition growproc (n : Z) : M (kst F) Z :=
  p <- curproc ;;
  pt <- pget p p_pagetable ;;
  sz <- gets (fun s => u32 (p_sz (getproc s p))) ;;
  if 0 <? n then
    sz' <- km (uvmalloc kend pt sz (u32 (sz + n))) ;;
    if u32 sz' =? 0 then ret (-1)
    else pmod p (fun q => q <| p_sz := u32 sz' |>) ;; ret 0
  else if n <? 0 then
    sz' <- km (uvmdealloc kend pt sz (u32 (sz + n))) ;;
    pmod p (fun q => q <| p_sz := u32 sz' |>) ;; ret 0
  else pmod p (fun q => q <| p_sz := sz |>) ;; ret 0.

(** ** sched, yield, sleep, wakeup, kill *)

Definition sched : M (kst F) unit :=
  p <- curproc ;;
  n <- gets (fun s => c_noff (lget cpul s)) ;;
  if negb (n =? 1) then panic "sched locks" else
  st <- pget p p_state ;;
  if decide (st = RUNNING) then panic "sched running" else
  on <- zoom cpul intr_get ;;
  if (on : bool) then panic "sched interruptible" else
  intena <- gets (fun s => c_intena (lget cpul s)) ;;
  swtch_out ;;
  modify (fun s => lset cpul ((lget cpul s) <| c_intena := intena |>) s).

Definition yield : M (kst F) unit :=
  p <- curproc ;;
  acquire cpul (plockl p) ;;
  pmod p (fun q => q <| p_state := RUNNABLE |>) ;;
  ticks <- gets ks_ticks ;;
  pmod p (fun q => q <| p_sched2 := ticks |>) ;;
  sched ;;
  release cpul (plockl p).

Definition sleep (chan : Z) (lk : lens (kst F) spinlock) : M (kst F) unit :=
  p <- curproc ;;
  acquire cpul (plockl p) ;;
  release cpul lk ;;
  pmod p (fun q => q <| p_chan := chan |>) ;;
  pmod p (fun q => q <| p_state := SLEEPING |>) ;;
  sched ;;
  pmod p (fun q => q <| p_chan := 0 |>) ;;
  release cpul (plockl p) ;;
  acquire cpul lk.

Definition wakeup_body (chan : Z) (i : nat) : M (kst F) unit :=
  me <- myproc ;;
  if decide (me = Some i) then ret tt else
  acquire cpul (plockl i) ;;
  st <- pget i p_state ;;
  ch <- pget i p_chan ;;
  when (bool_decide (st = SLEEPING) && (ch =? chan))
    (pmod i (fun p => p <| p_state := RUNNABLE |>) ;;
     ticks <- gets ks_ticks ;;
     pmod i (fun p => p <| p_sched2 := ticks |>)) ;;
  release cpul (plockl i).

Definition wakeup (chan : Z) : M (kst F) unit := for_each (seq 0 NPROC) (wakeup_body chan).

Definition kill_body (pid : Z) (i : nat) : M (kst F) (option Z) :=
  acquire cpul (plockl i) ;;
  pid' <- pget i p_pid ;;
  if pid' =? pid then
    pmod i (fun p => p <| p_killed := 1 |>) ;;
    st <- pget i p_state ;;
    when (bool_decide (st = SLEEPING))
      (pmod i (fun p => p <| p_state := RUNNABLE |>) ;;
       ticks <- gets ks_ticks ;;
       pmod i (fun p => p <| p_sched2 := ticks |>)) ;;
    release cpul (plockl i) ;;
    ret (Some 0)
  else release cpul (plockl i) ;; ret None.

Definition kill (pid : Z) : M (kst F) Z :=
  r <- for_first (seq 0 NPROC) (kill_body pid) ;;
  ret (default (-1) r).

Definition _setpriority (pid priority : Z) : M (kst F) Z :=
  r <- for_first (seq 0 NPROC) (fun i =>
    pid' <- pget i p_pid ;;
    if pid' =? pid then
      temp <- gets (fun s => i32 (p_staticPriority (getproc s i))) ;;
      pmod i (fun p => p <| p_staticPriority := u32 priority |>) ;;
      pmod i (fun p => p <| p_niceness := 5 |>) ;;
      ret (Some temp)
    else ret None) ;;
  ret (default 0 r).

(** ** fork *)

Definition fork_files (p np : nat) : M (kst F) unit :=
  for_each (seq 0 NOFILE) (fun i =>
    f <- pget p (fun q => p_ofile q !! i) ;;
    match f with
    | Some (Some f) =>
        f' <- filedup f ;;
        pmod np (fun q => q <| p_ofile := <[i := Some f']> (p_ofile q) |>)
    | _ => ret tt
    end).

Definition fork : M (kst F) Z :=
  p <- curproc ;;
  r <- allocproc ;;
  match r with
  | None => ret (-1)
  | Some np =>
      pt <- pget p p_pagetable ;;
      npt <- pget np p_pagetable ;;
      sz <- pget p p_sz ;;
      c <- km (uvmcopy kend pt npt sz) ;;
      if c <? 0 then freeproc np ;; release cpul (plockl np) ;; ret (-1) else
      pmod np (fun q => q <| p_sz := sz |>) ;;
      mask <- pget p p_trace_mask ;;
      pmod np (fun q => q <| p_trace_mask := mask |>) ;;
      tf <- pget p p_trapframe ;;
      ntf <- pget np p_trapframe ;;
      km (kmodify (memmove ntf tf tf_size)) ;;
      km (kstore (ntf + tf_a0) 0) ;;
      fork_files p np ;;
      cwd <- pget p p_cwd ;;
      cwd' <- idup cwd ;;
      pmod np (fun q => q <| p_cwd := cwd' |>) ;;
      name <- pget p p_name ;;
      pmod np (fun q => q <| p_name := String.substring 0 15 name |>) ;;
      pid <- pget np p_pid ;;
      release cpul (plockl np) ;;
      acquire cpul waitlockl ;;
      pmod np (fun q => q <| p_parent := Some p |>) ;;
      release cpul waitlockl ;;
      acquire cpul (plockl np) ;;
      pmod np (fun q => q <| p_state := RUNNABLE |>) ;;
      release cpul (plockl np) ;;
      ret pid
  end.

(** ** reparent, exit *)

(** The channel a process is: the address of its struct, never 0. *)
Context (proc_addr : option nat -> Z).

Definition reparent (p : nat) : M (kst F) unit :=
  for_each (seq 0 NPROC) (fun i =>
    par <- pget i p_parent ;;
    if decide (par = Some p) then
      init <- gets ks_initproc ;;
      pmod i (fun q => q <| p_parent := init |>) ;;
      wakeup (proc_addr init)
    else ret tt).

Definition close_all (p : nat) : M (kst F) unit :=
  for_each (seq 0 NOFILE) (fun fd =>
    f <- pget p (fun q => p_ofile q !! fd) ;;
    match f with
    | Some (Some f) =>
        fileclose f ;;
        pmod p (fun q => q <| p_ofile := <[fd := None]> (p_ofile q) |>)
    | _ => ret tt
    end).

(** The tail of [exit]: everything under wait_lock, up to sched(). *)
Definition exit_zombie (p : nat) (status : Z) : M (kst F) unit :=
  acquire cpul waitlockl ;;
  reparent p ;;
  par <- pget p p_parent ;;
  wakeup (proc_addr par) ;;
  acquire cpul (plockl p) ;;
  pmod p (fun q => q <| p_xstate := status |>) ;;
  pmod p (fun q => q <| p_state := ZOMBIE |>) ;;
  ticks <- gets ks_ticks ;;
  pmod p (fun q => q <| p_etime := ticks |>) ;;
  release cpul waitlockl.

Definition exit (status : Z) : M (kst F) unit :=
  p <- curproc ;;
  init <- gets ks_initproc ;;
  if decide (init = Some p) then panic "init exiting" else
  close_all p ;;
  begin_op ;;
  cwd <- pget p p_cwd ;;
  iput cwd ;;
  end_op ;;
  pmod p (fun q => q <| p_cwd := None |>) ;;
  exit_zombie p status ;;
  sched ;;
  panic "zombie exit".

(** ** wait, waitx *)

(** Collect the zombie [np]: the xstate goes to user address [addr]. *)
Definition reap (p np : nat) (addr : Z) : M (kst F) Z :=
  pid <- pget np p_pid ;;
  xs <- pget np p_xstate ;;
  pt <- pget p p_pagetable ;;
  r <- (if addr =? 0 then ret 0 else
        km (kmodify (store_le 4 (xstate_addr np) (u32 xs)) ;; copyout pt addr (xstate_addr np) 4)) ;;
  if r <? 0
  then release cpul (plockl np) ;; release cpul waitlockl ;; ret (-1)
  else freeproc np ;; release cpul (plockl np) ;; release cpul waitlockl ;; ret pid.

(** One scan of the table: the value [wait] returns, if it does, and havekids. *)
Fixpoint wait_scan {A} (collect : nat -> M (kst F) A) (p : nat) (l : list nat) (havekids : bool)
    : M (kst F) (option A * bool) :=
  match l with
  | [] => ret (None, havekids)
  | np :: l' =>
      par <- pget np p_parent ;;
      if decide (par = Some p) then
        acquire cpul (plockl np) ;;
        st <- pget np p_state ;;
        if decide (st = ZOMBIE)
        then r <- collect np ;; ret (Some r, true)
        else release cpul (plockl np) ;; wait_scan collect p l' true
      else wait_scan collect p l' havekids
  end.

(** for(;;) of [wait], one round per wakeup of the caller. *)
Fixpoint wait_loop (fuel : nat) (p : nat) (addr : Z) : M (kst F) Z :=
  match fuel with
  | O => fail EHang
  | S f =>
      r <- wait_scan (fun np => reap p np addr) p (seq 0 NPROC) false ;;
      match r.1 with
      | Some pid => ret pid
      | None =>
          k <- pget p p_killed ;;
          if negb r.2 || negb (k =? 0) then release cpul waitlockl ;; ret (-1)
          else sleep (proc_addr (Some p)) waitlockl ;; wait_loop f p addr
      end
  end.

Definition wait (fuel : nat) (addr : Z) : M (kst F) Z :=
  p <- curproc ;;
  acquire cpul waitlockl ;;
  wait_loop fuel p addr.

(** [waitx] also reports rtime and wtime, before the copyout that can fail. *)
Definition reapx (p np : nat) (addr : Z) : M (kst F) (Z * (Z * Z)) :=
  rtime <- pget np p_rtime ;;
  wtime <- gets (fun s => let q := getproc s np in u32 (p_etime q - p_birthtime q - p_rtime q)) ;;
  r <- reap p np addr ;;
  ret (r, (rtime, wtime)).

Fixpoint waitx_loop (fuel : nat) (p : nat) (addr : Z) : M (kst F) (Z * option (Z * Z)) :=
  match fuel with
  | O => fail EHang
  | S f =>
      r <- wait_scan (fun np => reapx p np addr) p (seq 0 NPROC) false ;;
      match r.1 with
      | Some (pid, times) => ret (pid, Some times)
      | None =>
          k <- pget p p_killed ;;
          if negb r.2 || negb (k =? 0) then release cpul waitlockl ;; ret (-1, None)
          else sleep (proc_addr (Some p)) waitlockl ;; waitx_loop f p addr
      end
  end.

Definition waitx (fuel : nat) (addr : Z) : M (kst F) (Z * option (Z * Z)) :=
  p <- curproc ;;
  acquire cpul waitlockl ;;
  waitx_loop fuel p addr.

(** ** either_copyout, either_copyin *)

Definition either_copyout (user_dst : bool) (dst src len : Z) : M (kst F) Z :=
  p <- myproc ;;
  if user_dst then
    match p with
    | Some i => pt <- pget i p_pagetable ;; km (copyout pt dst src len)
    | None => fail EFault
    end
  else km (kmodify (memmove dst src (u32 len))) ;; ret 0.

Definition either_copyin (dst : Z) (user_src : bool) (src len : Z) : M (kst F) Z :=
  p <- myproc ;;
  if user_src then
    match p with
    | Some i => pt <- pget i p_pagetable ;; km (copyin pt dst src len)
    | None => fail EFault
    end
  else km (kmodify (memmove dst src (u32 len))) ;; ret 0.

(** ** Lemmas *)

Implicit Types s : kst F.

Lemma myproc_eq s : cpu_ok (lget cpul s) -> myproc s = Ret (c_proc (lget cpul s)) (settle s).
Proof.
  intros H. unfold myproc.
  erewrite bind_ret by (unfold zoom; by rewrite push_off_eq).
  erewrite bind_ret by done. erewrite bind_ret; [done|].
  unfold zoom. change (lget cpul (lset cpul ?c ?t)) with c. by rewrite pop_off_pushed by apply H.
Qed.

Lemma curproc_eq s i : cpu_ok (lget cpul s) -> c_proc (lget cpul s) = Some i -> curproc s = Ret i (settle s).
Proof. intros H E. unfold curproc, bind. rewrite myproc_eq by done. rewrite E. done. Qed.

(** What wakeup(chan) does to proc[i], run by process [me]. *)
Definition wake1 (chan : Z) (me : option nat) (ticks : Z) (i : nat) (p : proc) : proc :=
  if decide (me = Some i) then p else
  if bool_decide (p_state p = SLEEPING) && (p_chan p =? chan)
  then p <| p_state := RUNNABLE |> <| p_sched2 := ticks |> else p.

Lemma wake1_keeps chan me ticks i : keeps_lock (wake1 chan me ticks i).
Proof. intros p l. unfold wake1. case_decide; [done|]. cbn. by destruct (_ && _). Qed.

Lemma wakeup_body_eq chan i s : kst_ok s -> (i < NPROC)%nat ->
  wakeup_body chan i s =
  Ret tt (settle (upd i (wake1 chan (c_proc (lget cpul s)) (ks_ticks s) i) s)).
Proof.
  intros H Hi. pose proof (ok_has _ _ H Hi) as Hh.
  unfold wakeup_body. erewrite bind_ret by (apply myproc_eq, H). unfold wake1. case_decide.
  { by rewrite upd_id by done. }
  erewrite bind_ret by (apply acquire_proc; [by apply settle_ok|done]). rewrite hold_settle.
  erewrite bind_ret by (by apply pget_hold). erewrite bind_ret by (by apply pget_hold).
  destruct (_ && _) eqn:E; cbn [when].
  - erewrite bind_ret.
    2: { erewrite bind_ret by (by apply pmod_hold).
         erewrite bind_ret by (by apply gets_hold). apply pmod_hold; [by apply setproc_has|done]. }
    rewrite upd_upd by done. rewrite release_proc by (try apply upd_ok; done).
    do 2 f_equal. apply upd_ext. by rewrite E.
  - erewrite bind_ret by done. rewrite release_proc by done.
    rewrite upd_id; [done|by rewrite E|done].
Qed.

Lemma wakeup_eq chan s : kst_ok s ->
  wakeup chan s = Ret tt (settle (map_procs (wake1 chan (c_proc (lget cpul s)) (ks_ticks s)) s)).
Proof.
  intros H. apply for_each_procs; [done|intros; apply wake1_keeps|].
  intros i s' H' Hr Hi. rewrite wakeup_body_eq by done.
  by rewrite (rest_eq_ticks _ _ Hr), (rest_eq_cproc _ _ Hr).
Qed.

Definition kill1 (ticks : Z) (p : proc) : proc :=
  let p := p <| p_killed := 1 |> in
  if bool_decide (p_state p = SLEEPING) then p <| p_state := RUNNABLE |> <| p_sched2 := ticks |> else p.

Lemma kill_body_eq pid i s : kst_ok s -> (i < NPROC)%nat ->
  kill_body pid i s =
  if decide (p_pid (getproc s i) = pid) then Ret (Some 0) (settle (upd i (kill1 (ks_ticks s)) s))
  else Ret None (settle s).
Proof.
  intros H Hi. pose proof (ok_has _ _ H Hi) as Hh. unfold kill_body.
  erewrite bind_ret by (by apply acquire_proc). erewrite bind_ret by (by apply pget_hold).
  destruct (Z.eqb_spec (p_pid (getproc s i)) pid); [rewrite decide_True by done|rewrite decide_False by done].
  2: { by erewrite bind_ret by (by apply release_proc). }
  erewrite bind_ret by (by apply pmod_hold).
  erewrite bind_ret by (apply pget_hold; [by apply setproc_has|done]).
  rewrite getproc_upd by done. cbn [p_state set_field].
  assert (has_proc i (upd i (fun p => p <| p_killed := 1 |>) s)) as Hh' by (by apply setproc_has).
  destruct (bool_decide _) eqn:E; cbn [when].
  - erewrite bind_ret.
    2: { erewrite bind_ret by (by apply pmod_hold).
         erewrite bind_ret by (by apply gets_hold). apply pmod_hold; [by apply setproc_has|done]. }
    rewrite !upd_upd by done. erewrite bind_ret by (apply release_proc; [by apply upd_ok|done]).
    unfold ret. do 2 f_equal. apply upd_ext. unfold kill1. cbn. by rewrite E.
  - erewrite bind_ret by done. erewrite bind_ret by (apply release_proc; [by apply upd_ok|done]).
    unfold ret. do 2 f_equal. apply upd_ext. unfold kill1. cbn. by rewrite E.
Qed.

Lemma kill_eq pid s : kst_ok s ->
  kill pid s =
  match list_find (fun p => p_pid p = pid) (ks_procs s) with
  | Some (i, _) => Ret 0 (settle (upd i (kill1 (ks_ticks s)) s))
  | None => Ret (-1) (settle s)
  end.
Proof.
  intros H. unfold kill, bind.
  rewrite (for_first_procs _ (fun p => p_pid p = pid) (fun i => (0, settle (upd i (kill1 (ks_ticks s)) s)))).
  - by destruct (list_find _ _) as [[]|].
  - done.
  - intros i s' H' Hs Hi. rewrite kill_body_eq by done. rewrite (settled_getproc _ _ i Hs), Hs.
    rewrite (settled_upd _ _ i _ Hs). by replace (ks_ticks s') with (ks_ticks s)
      by (by apply (f_equal ks_ticks) in Hs).
Qed.

(** What reparent(p) does to an entry. *)
Definition adopt (p : nat) (init : option nat) (q : proc) : proc :=
  if decide (p_parent q = Some p) then q <| p_parent := init |> else q.

Definition is_child (p : nat) (q : proc) : bool := bool_decide (p_parent q = Some p).

Lemma wake1_idemp chan me ticks i q : wake1 chan me ticks i (wake1 chan me ticks i q) = wake1 chan me ticks i q.
Proof.
  unfold wake1. destruct (decide (me = Some i)); [done|].
  destruct (bool_decide (p_state q = SLEEPING) && (p_chan q =? chan)) eqn:E; [done|by rewrite E].
Qed.

Lemma wake1_adopt chan me ticks i p init q :
  wake1 chan me ticks i (adopt p init q) = adopt p init (wake1 chan me ticks i q).
Proof.
  unfold wake1, adopt. destruct (decide (me = Some i)); [done|].
  destruct (decide (p_parent q = Some p)) as [E|E]; cbn;
    destruct (_ && _); cbn; by first [rewrite decide_True by done|rewrite decide_False by done].
Qed.

Lemma wake1_parent chan me ticks i q : p_parent (wake1 chan me ticks i q) = p_parent q.
Proof. unfold wake1. case_decide; [done|]. by destruct (_ && _). Qed.

Lemma wake1_lock chan me ticks i q : p_lock (wake1 chan me ticks i q) = p_lock q.
Proof. unfold wake1. case_decide; [done|]. by destruct (_ && _). Qed.

Definition adopted (p k : nat) s : nat -> proc -> proc := fun i q =>
  let q' := if decide (i < k)%nat then adopt p (ks_initproc s) q else q in
  if existsb (is_child p) (take k (ks_procs s))
  then wake1 (proc_addr (ks_initproc s)) (c_proc (lget cpul s)) (ks_ticks s) i q' else q'.

Lemma adopted_lock p k s i q : p_lock (adopted p k s i q) = p_lock q.
Proof.
  unfold adopted, adopt. destruct (existsb _ _); rewrite ?wake1_lock; case_decide; try done; by case_decide.
Qed.

Lemma reparent_round p k s s' : kst_ok s -> kst_ok s' -> (k < NPROC)%nat ->
  settle s' = settle (map_procs (adopted p k s) s) ->
  exists s'', (par <- pget k p_parent ;;
    if decide (par = Some p) then
      init <- gets ks_initproc ;;
      pmod k (fun q => q <| p_parent := init |>) ;;
      wakeup (proc_addr init)
    else ret tt) s' = Ret tt s'' /\ kst_ok s'' /\
    settle s'' = settle (map_procs (adopted p (S k) s) s).
Proof.
  intros Hok Hok' Hk Hs. pose proof (ok_has _ _ Hok' Hk) as Hh.
  destruct (ks_procs s !! k) as [qk|] eqn:Ek.
  2: { apply lookup_ge_None in Ek. rewrite (ok_len _ Hok) in Ek. lia. }
  assert (p_parent (getproc s' k) = p_parent qk) as Epar.
  { rewrite (settled_getproc _ _ k Hs). unfold getproc, map_procs. cbn. rewrite list_lookup_imap, Ek. cbn.
    unfold adopted. rewrite decide_False by lia. by destruct (existsb _ _); rewrite ?wake1_parent. }
  assert (existsb (is_child p) (take (S k) (ks_procs s)) =
    existsb (is_child p) (take k (ks_procs s)) || is_child p qk) as Eany.
  { rewrite (take_S_r _ _ _ Ek), existsb_app. simpl. by rewrite orb_false_r. }
  erewrite bind_ret by done. rewrite Epar.
  assert (ks_initproc s' = ks_initproc s) as Ei by (by apply (f_equal ks_initproc) in Hs).
  assert (ks_ticks s' = ks_ticks s) as Et by (by apply (f_equal ks_ticks) in Hs).
  assert (c_proc (lget cpul s') = c_proc (lget cpul s)) as Ec.
  { apply (f_equal (fun t => c_proc (lget cpul t))) in Hs. cbn in Hs |- *. by rewrite !touched_proc in Hs. }
  case_decide as Hc.
  - erewrite bind_ret by done. erewrite bind_ret by done.
    change (setproc k ?g s') with (upd k (fun q => q <| p_parent := ks_initproc s' |>) s') at 1.
    eexists. split; [apply wakeup_eq; by apply upd_ok|].
    assert (is_child p qk = true) as Hcb by (by apply bool_decide_eq_true).
    split; [apply settle_ok, map_procs_ok; [by apply upd_ok|intros; apply wake1_lock]|].
    rewrite settle_settle, upd_map, map_procs_comp.
    change (ks_ticks (map_procs ?f ?t)) with (ks_ticks t).
    rewrite (settled_map _ _ _ Hs), map_procs_comp.
    f_equal. apply map_procs_ext. intros i q Hq.
    change (lget cpul (map_procs ?f ?t)) with (lget cpul t). rewrite Ei, Ec, Et.
    unfold adopted. rewrite Eany, Hcb, orb_true_r. cbv beta zeta.
    destruct (decide (k = i)) as [<-|Hne].
    + rewrite !(decide_False (P := (k < k)%nat)), (decide_True (P := (k < S k)%nat)) by lia.
      assert (q = qk) as -> by congruence.
      replace (adopt p (ks_initproc s) qk) with (qk <| p_parent := ks_initproc s |>)
        by (unfold adopt; by rewrite decide_True).
      destruct (existsb (is_child p) (take k (ks_procs s))); [|done]. unfold wake1. case_decide; [done|]. cbn.
      destruct (bool_decide (p_state qk = SLEEPING) && (p_chan qk =? proc_addr (ks_initproc s))) eqn:E; cbn; rewrite ?E; done.
    + replace (if decide (i < S k)%nat then adopt p (ks_initproc s) q else q)
        with (if decide (i < k)%nat then adopt p (ks_initproc s) q else q)
        by (destruct (decide (i < k)%nat); [by rewrite decide_True by lia|by rewrite decide_False by lia]).
      by destruct (existsb (is_child p) (take k (ks_procs s))); rewrite ?wake1_idemp.
  - exists s'. split; [done|]. split; [done|]. rewrite Hs. f_equal. apply map_procs_ext.
    intros i q Hq. unfold adopted.
    assert (is_child p qk = false) as Hcb by (by apply bool_decide_eq_false).
    rewrite Eany, Hcb, orb_false_r.
    replace (if decide (i < S k)%nat then adopt p (ks_initproc s) q else q)
      with (if decide (i < k)%nat then adopt p (ks_initproc s) q else q); [done|].
    destruct (decide (i < k)%nat); [by rewrite decide_True by lia|].
    destruct (decide (i < S k)%nat); [|done]. assert (i = k) as -> by lia.
    assert (q = qk) as -> by congruence. unfold adopt. by rewrite decide_False.
Qed.

Lemma reparent_eq p s : kst_ok s ->
  exists s', reparent p s = Ret tt s' /\ kst_ok s' /\
    settle s' = settle (map_procs (adopted p NPROC s) s).
Proof.
  intros Hok. apply returns_inv_unit.
  eapply returns_mono; [apply (for_each_returns _ (fun k s' =>
    kst_ok s' /\ settle s' = settle (map_procs (adopted p k s) s)) NPROC 0 s)|].
  - split; [done|]. f_equal. unfold map_procs, adopted. cbn. destruct s. cbn. f_equal.
    apply list_eq. intros i. rewrite list_lookup_imap. by destruct (_ !! i).
  - intros i s' Hi [Hok' Hs].
    destruct (reparent_round p i s s' Hok Hok' ltac:(lia) Hs) as (s'' & E & H). by eapply returns_intro.
  - intros [] s' [? H]. split; [done|]. by rewrite Nat.add_0_l in H.
Qed.

(** [s] with wait_lock held by this CPU. *)
Definition hold_wait s : kst F :=
  setcpu (pushed (lget cpul s)) (s <| ks_wait_lock := held_by (c_tp (lget cpul s)) (ks_wait_lock s) |>).

Lemma hold_wait_ok s : kst_ok s -> kst_ok (hold_wait s).
Proof. intros [A B C]. constructor; [by apply pushed_ok|done|done]. Qed.

Lemma acquire_wait s : lk_locked (ks_wait_lock s) = false ->
  acquire cpul waitlockl s = Ret tt (hold_wait s).
Proof. intros H. by rewrite (acquire_free (D := fun _ => True)). Qed.

Lemma hold_wait_cpu s : kst_ok s -> touched (lget cpul (hold_wait s)) = lget cpul (hold_wait s).
Proof. intros H. apply touched_pushed, H. Qed.

(** The state in which an exiting process enters sched(). *)
Record zombie_done (p : nat) (status : Z) s (s' : kst F) : Prop := {
  zd_wait : ks_wait_lock s' = unheld (ks_wait_lock s);
  zd_held : holding (p_lock (getproc s' p)) (lget cpul s') = true;
  zd_noff : c_noff (lget cpul s') = c_noff (lget cpul s) + 1;
  zd_zombie : p_state (getproc s' p) = ZOMBIE;
  zd_status : p_xstate (getproc s' p) = status;
  zd_etime : p_etime (getproc s' p) = ks_ticks s;
  zd_parent : forall i, (i < NPROC)%nat -> p_parent (getproc s' i) =
    if decide (p_parent (getproc s i) = Some p) then ks_initproc s else p_parent (getproc s i);
  zd_woken : forall i, (i < NPROC)%nat -> i <> p -> p_state (getproc s' i) =
    if decide (p_state (getproc s i) = SLEEPING /\
         (p_chan (getproc s i) = proc_addr (p_parent (getproc s p)) \/
          existsb (is_child p) (ks_procs s) = true /\
           p_chan (getproc s i) = proc_addr (ks_initproc s)))
    then RUNNABLE else p_state (getproc s i);
}.

Lemma exit_zombie_eq p status s : kst_ok s -> (p < NPROC)%nat ->
  c_proc (lget cpul s) = Some p -> lk_locked (ks_wait_lock s) = false ->
  exists s4, kst_ok s4 /\ lget cpul s4 = pushed (lget cpul s) /\
    ks_wait_lock s4 = held_by (c_tp (lget cpul s)) (ks_wait_lock s) /\
    (forall i, (i < NPROC)%nat -> getproc s4 i =
      wake1 (proc_addr (p_parent (adopt p (ks_initproc s) (getproc s p)))) (Some p) (ks_ticks s) i
        (adopted p NPROC s i (getproc s i))) /\
    exit_zombie p status s =
      release cpul waitlockl
        (hold p (upd p (fun q => q <| p_xstate := status |> <| p_state := ZOMBIE |>
                                   <| p_etime := ks_ticks s |>) s4)).
Proof.
  intros H Hp Hc Hw. pose proof (hold_wait_ok _ H) as H1.
  unfold exit_zombie. erewrite bind_ret by (by apply acquire_wait).
  destruct (reparent_eq p _ H1) as (s2 & E2 & H2 & Hs2). erewrite bind_ret by exact E2.
  erewrite bind_ret by done. erewrite bind_ret by (by apply wakeup_eq).
  set (W := wake1 (proc_addr (p_parent (getproc s2 p))) (c_proc (lget cpul s2)) (ks_ticks s2)). set (s3 := settle (map_procs W s2)).
  assert (forall i, (i < NPROC)%nat -> getproc s2 i = adopted p NPROC s i (getproc s i)) as Hg2.
  { intros i Hi. rewrite (settled_getproc _ _ i Hs2), getproc_map by (by apply ok_has). done. }
  assert (ks_ticks s2 = ks_ticks s) as Et by (by apply (f_equal ks_ticks) in Hs2).
  assert (lget cpul (settle s2) = pushed (lget cpul s)) as Ecs.
  { rewrite Hs2. change (lget cpul (settle (map_procs ?f ?t))) with (touched (lget cpul t)).
    by apply hold_wait_cpu. }
  assert (c_proc (lget cpul s2) = Some p) as Ec2.
  { rewrite <- Hc, <- touched_proc. by apply (f_equal c_proc) in Ecs. }
  assert (kst_ok s3) as H3 by (apply settle_ok, map_procs_ok; [done|intros; apply wake1_lock]).
  exists s3. split; [done|]. split; [exact Ecs|].
  split; [by apply (f_equal ks_wait_lock) in Hs2|]. split.
  - intros i Hi. change (getproc s3 i) with (getproc (map_procs W s2) i).
    rewrite getproc_map by (by apply ok_has). rewrite Hg2 by done. unfold W.
    rewrite Ec2, Et, Hg2 by done. do 2 f_equal. unfold adopted, adopt.
    destruct (existsb _ _); rewrite ?wake1_parent; by rewrite decide_True by done.
  - pose proof (ok_has _ _ H3 Hp) as Hh.
    erewrite bind_ret by (by apply acquire_proc). erewrite bind_ret by (by apply pmod_hold).
    erewrite bind_ret by (apply pmod_hold; [by apply setproc_has|done]). rewrite upd_upd by done.
    erewrite bind_ret by (by apply gets_hold).
    erewrite bind_ret by (apply pmod_hold; [by apply setproc_has|done]). rewrite upd_upd by done.
    change (ks_ticks (upd p ?f s3)) with (ks_ticks s2). by rewrite Et.
Qed.

Lemma release_wait s c l : cpu_ok c -> lget cpul s = pushed c -> ks_wait_lock s = held_by (c_tp c) l ->
  release cpul waitlockl s = Ret tt (setcpu (touched c) (s <| ks_wait_lock := unheld l |>)).
Proof. intros Hc E Hl. rewrite (release_held (D := fun _ => True) s c); cbn [lget waitlockl field]; rewrite ?Hl; done. Qed.

Lemma wake1_other chan me ticks i q :
  p_parent (wake1 chan me ticks i q) = p_parent q /\ p_chan (wake1 chan me ticks i q) = p_chan q /\
  p_state (wake1 chan me ticks i q) =
    if decide (me <> Some i /\ p_state q = SLEEPING /\ p_chan q = chan) then RUNNABLE else p_state q.
Proof.
  unfold wake1. destruct (decide (me = Some i)) as [E|E]; [by rewrite decide_False by tauto|].
  destruct (bool_decide_reflect (p_state q = SLEEPING)) as [Hs|Hs];
    destruct (Z.eqb_spec (p_chan q) chan) as [Hc|Hc]; cbn;
    first [by rewrite decide_True by done|by rewrite decide_False by tauto].
Qed.

Lemma adopted_fields p s i q : let q' := adopted p NPROC s i q in (i < NPROC)%nat ->
  p_parent q' = (if decide (p_parent q = Some p) then ks_initproc s else p_parent q) /\
  p_chan q' = p_chan q /\
  p_state q' = if decide (existsb (is_child p) (take NPROC (ks_procs s)) = true /\ c_proc (lget cpul s) <> Some i /\
                    p_state q = SLEEPING /\ p_chan q = proc_addr (ks_initproc s))
               then RUNNABLE else p_state q.
Proof.
  cbv zeta. intros Hi. unfold adopted. rewrite decide_True by done.
  assert (p_parent (adopt p (ks_initproc s) q) = (if decide (p_parent q = Some p) then ks_initproc s else p_parent q)
    /\ p_chan (adopt p (ks_initproc s) q) = p_chan q /\ p_state (adopt p (ks_initproc s) q) = p_state q) as (Ep & Ec & Es).
  { unfold adopt. by case_decide. }
  destruct (existsb _ _).
  - destruct (wake1_other (proc_addr (ks_initproc s)) (c_proc (lget cpul s)) (ks_ticks s) i
      (adopt p (ks_initproc s) q)) as (A & B & C). rewrite A, B, C, Ep, Ec, Es. split_and!; [done|done|].
    apply decide_ext. tauto.
  - split_and!; [done|done|]. rewrite Es. by rewrite decide_False by (by intros [? _]).
Qed.

Lemma exit_zombie_done p status s : kst_ok s -> (p < NPROC)%nat ->
  c_proc (lget cpul s) = Some p -> lk_locked (ks_wait_lock s) = false -> p_parent (getproc s p) <> Some p ->
  exists s', exit_zombie p status s = Ret tt s' /\ zombie_done p status s s'.
Proof.
  intros H Hp Hc Hw Hpar. destruct (exit_zombie_eq p status s H Hp Hc Hw) as (s4 & H4 & Ecpu & Ew & Hg & ->).
  pose proof (ok_has _ _ H4 Hp) as Hh4. set (f := fun q : proc => _).
  pose proof (pushed_ok _ (ok_cpu _ H)) as Hpc.
  assert (lget cpul (hold p (upd p f s4)) = pushed (pushed (lget cpul s))) as Ecpu'.
  { change (lget cpul (hold p (upd p f s4))) with (pushed (lget cpul s4)). by rewrite Ecpu. }
  rewrite (release_wait _ (pushed (lget cpul s)) (ks_wait_lock s) Hpc Ecpu') by exact Ew.
  rewrite touched_pushed by apply H.
  eexists. split; [done|]. set (s' := setcpu _ _).
  assert (forall i, getproc s' i = getproc (hold p (upd p f s4)) i) as Hs' by done.
  assert (getproc s' p = (f (getproc s4 p)) <| p_lock := held_by (c_tp (lget cpul s)) (p_lock (getproc s4 p)) |>) as Ep.
  { rewrite Hs', hold_getproc, getproc_upd by (done || by apply setproc_has).
    change (lget cpul (upd p f s4)) with (lget cpul s4). by rewrite Ecpu. }
  assert (forall i, i <> p -> getproc s' i = getproc s4 i) as Ene.
  { intros i Hi. rewrite Hs', hold_getproc_ne by done. by rewrite getproc_upd_ne by done. }
  assert (take NPROC (ks_procs s) = ks_procs s) as Etake by (apply take_ge; by rewrite (ok_len _ H)).
  constructor.
  - done.
  - rewrite Ep. unfold holding. cbn. by rewrite bool_decide_eq_true_2.
  - done.
  - by rewrite Ep.
  - by rewrite Ep.
  - by rewrite Ep.
  - intros i Hi. replace (p_parent (getproc s' i)) with (p_parent (getproc s4 i)).
    + rewrite Hg by done. rewrite (proj1 (wake1_other _ _ _ _ _)).
      by apply (proj1 (adopted_fields p s i (getproc s i) Hi)).
    + destruct (decide (i = p)) as [->|Hne]; [by rewrite Ep|by rewrite Ene].
  - intros i Hi Hne. rewrite Ene, Hg by done.
    destruct (wake1_other (proc_addr (p_parent (adopt p (ks_initproc s) (getproc s p)))) (Some p) (ks_ticks s) i
      (adopted p NPROC s i (getproc s i))) as (_ & _ & ->).
    destruct (adopted_fields p s i (getproc s i) Hi) as (_ & -> & ->). rewrite Etake, Hc.
    unfold adopt. rewrite (decide_False (P := p_parent (getproc s p) = Some p)) by done. set (any := existsb (is_child p) (ks_procs s)).
    destruct (decide (any = true /\ Some p <> Some i /\ p_state (getproc s i) = SLEEPING /\
      p_chan (getproc s i) = proc_addr (ks_initproc s))) as [D|D].
    + rewrite decide_False by (intros (_ & ? & _); done). rewrite decide_True; [done|]. tauto.
    + apply decide_ext. assert (Some p <> Some i) by congruence. tauto.
Qed.

(** ** allocpid *)

Lemma allocpid_eq s : kst_ok s -> lk_locked (ks_pid_lock s) = false ->
  allocpid s = Ret (ks_nextpid s)
    (settle (s <| ks_nextpid := i32 (ks_nextpid s + 1) |> <| ks_pid_lock := unheld (ks_pid_lock s) |>)).
Proof.
  intros H Hl. unfold allocpid.
  erewrite bind_ret by (by apply (acquire_free (D := fun _ => True))).
  erewrite bind_ret by done. erewrite bind_ret by done.
  erewrite bind_ret by (apply (release_held (D := fun _ => True)) with (c := lget cpul s); solve [done|apply H]).
  done.
Qed.

(** ** sleep *)

(** A lock outside the process table. *)
Class SideLock (lk : lens (kst F) spinlock) : Prop := {
  sl_cell : LockCell (fun _ : kst F => True) cpul lk;
  sl_get : forall i q s, lget lk (setproc i q s) = lget lk s;
  sl_set : forall i q l s, lset lk l (setproc i q s) = setproc i q (lset lk l s);
  sl_procs : forall l s, ks_procs (lset lk l s) = ks_procs s;
}.

#[export] Instance side_wait : SideLock waitlockl.
Proof. by constructor. Qed.
#[export] Instance side_ticks : SideLock tickslockl.
Proof. by constructor. Qed.

(** What is left of [sleep] once [sched] has switched away, for the process
    whose saved interrupt flag was [intena]. *)
Definition sleep_resume (p : nat) (lk : lens (kst F) spinlock) (intena : bool) : M (kst F) unit :=
  modify (fun s => lset cpul ((lget cpul s) <| c_intena := intena |>) s) ;;
  pmod p (fun q => q <| p_chan := 0 |>) ;;
  release cpul (plockl p) ;;
  acquire cpul lk.

(** The state in which [sleep] switches away. *)
Definition asleep (p : nat) (chan : Z) (lk : lens (kst F) spinlock) (c : cpu) s : kst F :=
  setcpu (pushed c) (upd p (fun q => q <| p_lock := held_by (c_tp c) (p_lock q) |>
                                       <| p_chan := chan |> <| p_state := SLEEPING |>)
                         (lset lk (unheld (lget lk s)) s)).

Lemma sleep_eq p chan lk c s `{!SideLock lk} : kst_ok s -> (p < NPROC)%nat ->
  cpu_ok c -> c_noff c = 0 -> lget cpul s = pushed c -> c_proc c = Some p ->
  lk_locked (lget lk s) = true -> lk_cpu (lget lk s) = Some (c_tp c) ->
  sleep chan lk s = (swtch_out ;; sleep_resume p lk (c_intena (pushed c))) (asleep p chan lk c s).
Proof.
  intros H Hp Hc Hn Ecpu Ep Hl Hlc. destruct SideLock0 as [Hcell Sget Sset Sprocs].
  assert (settle s = s) as Eset.
  { unfold settle. rewrite Ecpu, touched_pushed by done. unfold setcpu. rewrite <- Ecpu. by destruct s as [[]]. }
  unfold sleep. erewrite bind_ret by (apply curproc_eq; [apply H|by rewrite Ecpu]).
  rewrite Eset. erewrite bind_ret by (by apply acquire_proc).
  assert (lget lk (hold p s) = lget lk s) as El.
  { unfold hold, setcpu. rewrite (lc_get_lk (D := fun _ => True)) by done. unfold upd. by rewrite Sget. }
  erewrite bind_ret.
  2: { apply (release_held (D := fun _ => True)) with (c := pushed c); rewrite ?El; try done;
       [by apply pushed_ok|]. change (lget cpul (hold p s)) with (pushed (lget cpul s)). by rewrite Ecpu. }
  rewrite El, touched_pushed by done.
  assert (lset cpul (pushed c) (lset lk (unheld (lget lk s)) (hold p s)) =
    setcpu (pushed c) (upd p (fun q => q <| p_lock := held_by (c_tp c) (p_lock q) |>) (lset lk (unheld (lget lk s)) s))) as ->.
  { unfold hold, setcpu. rewrite (lc_comm (D := fun _ => True)), (lc_ss_cl (D := fun _ => True) (lk := lk)) by done.
    f_equal. unfold upd. rewrite Sset. unfold getproc. rewrite Sprocs. by rewrite Ecpu. }
  assert (has_proc p (lset lk (unheld (lget lk s)) s)) as Hh by (unfold has_proc; rewrite Sprocs; by apply ok_has).
  set (s1 := lset lk (unheld (lget lk s)) s) in *.
  assert (forall f g, pmod p f (setcpu (pushed c) (upd p g s1)) = Ret tt (setcpu (pushed c) (upd p (fun q => f (g q)) s1))) as Hmod.
  { intros f g. unfold pmod, modify. f_equal.
    change (setproc p (f (getproc (setcpu ?c ?t) p)) (setcpu ?c ?t)) with (setcpu c (upd p f t)).
    by rewrite upd_upd. }
  erewrite bind_ret by apply Hmod. erewrite bind_ret by apply Hmod.
  change (setcpu (pushed c) (upd p ?f s1)) with (asleep p chan lk c s). unfold sched. rewrite bind_assoc.
  assert (getproc (asleep p chan lk c s) p = (getproc s1 p) <| p_lock := held_by (c_tp c) (p_lock (getproc s1 p)) |>
    <| p_chan := chan |> <| p_state := SLEEPING |>) as Eg.
  { apply (getproc_upd p (fun q => q <| p_lock := held_by (c_tp c) (p_lock q) |>
      <| p_chan := chan |> <| p_state := SLEEPING |>) s1 Hh). }
  erewrite bind_ret.
  2: { apply curproc_eq; [by apply pushed_ok|exact Ep]. }
  assert (settle (asleep p chan lk c s) = asleep p chan lk c s) as ->.
  { unfold settle. change (lget cpul (asleep p chan lk c s)) with (pushed c). by rewrite touched_pushed. }
  rewrite bind_assoc. erewrite bind_ret by done.
  change (c_noff (lget cpul (asleep p chan lk c s))) with (c_noff c + 1). rewrite Hn.
  change (negb (0 + 1 =? 1)) with false. cbv iota.
  rewrite bind_assoc. erewrite bind_ret by (unfold pget, gets; by rewrite Eg).
  rewrite decide_False by done. rewrite bind_assoc. erewrite bind_ret by done.
  change (lget cpul (asleep p chan lk c s)) with (pushed c). rewrite pushed_disabled.
  rewrite bind_assoc. erewrite bind_ret by done. rewrite bind_assoc.
  change (lget cpul (asleep p chan lk c s)) with (pushed c).
  apply bind_ext. by intros [] s'.
Qed.
End Proc.

Lemma kst_ok_intro {F} (s : kst F) : cpu_ok (lget cpul s) -> length (ks_procs s) = NPROC ->
  Forall (fun p => unheld (p_lock p) = p_lock p) (ks_procs s) -> kst_ok s.
Proof.
  intros Hc Hl Hf. constructor; [done|done|]. intros i Hi. unfold getproc.
  destruct (lookup_lt_is_Some_2 (ks_procs s) i) as [p Hp]; [lia|]. rewrite Hp. simpl.
  rewrite Forall_lookup in Hf. by eapply Hf.
Qed.

(** ** Properties *)

(** C9: [exit], from the moment every file is closed.  Whatever the process
    table holds, exit_zombie() panics on no lock and reaches sched() with
    wait_lock free, exactly one more lock held, the exiting process's own, and
    that process a zombie with its status and exit time recorded; every child
    has been handed to init and no other parent link moved; and exactly the
    processes sleeping on the parent, or, when there were children, on init,
    have been made runnable. *)
Theorem exit_hands_over {F : Type} (proc_addr : option nat -> Z) (s : kst F) (p : nat) (status : Z)
  (Hok : kst_ok s) (Hp : (p < NPROC)%nat) (Hcur : c_proc (lget cpul s) = Some p)
  (Hwait : lk_locked (ks_wait_lock s) = false) (Hpar : p_parent (getproc s p) <> Some p) :
  exists s', exit_zombie proc_addr p status s = Ret tt s' /\ zombie_done proc_addr p status s s'.
Proof. by apply exit_zombie_done. Qed.

Definition wit_proc (st : procstate) (pid chan : Z) (parent : option nat) : proc :=
  zero_proc <| p_state := st |> <| p_pid := pid |> <| p_chan := chan |> <| p_parent := parent |>.

(** init (slot 0) asleep in wait, a shell (1) asleep in wait, its child (2)
    running, and that child's own child (3). *)
Definition wit_kst : kst unit :=
  mkkst (mkkmem (mkcpu 0 (Some 2%nat) 0 false 0) (initlock "kmem") 0 ∅)
    ([wit_proc SLEEPING 1 1000 None; wit_proc SLEEPING 2 1001 (Some 0%nat);
      wit_proc RUNNING 3 0 (Some 1%nat); wit_proc RUNNABLE 4 0 (Some 2%nat)] ++ replicate 60 zero_proc)
    (initlock "nextpid") 5 (initlock "wait_lock") (initlock "time") 77 [] (Some 0%nat) tt.

Lemma wit_kst_ok : kst_ok wit_kst.
Proof. apply kst_ok_intro; [by split|done|]. repeat first [apply Forall_nil_2 | apply Forall_cons_2; [done|]]. Qed.

Definition wit_addr (o : option nat) : Z := match o with Some i => 1000 + Z.of_nat i | None => 0 end.

Lemma exit_hands_over_witness :
  exists s', exit_zombie wit_addr 2 7 wit_kst = Ret tt s' /\ zombie_done wit_addr 2 7 wit_kst s'.
Proof. apply exit_hands_over; [apply wit_kst_ok|by vm_compute; lia|done|done|done]. Defined.

(** [sleep] called with one lock held, the one it is given.  Control
    leaves through swtch() with the caller marked SLEEPING on the channel, its
    own lock held by this CPU, the given lock free, interrupts off and the
    nesting depth 1: none of sched()'s panics can fire, and a wakeup() on the
    channel, which needs the caller's lock, cannot fall between the release and
    the switch. *)
Theorem sleep_switches {F : Type} `{!Switch F} (s : kst F) (p : nat) (chan : Z)
  (lk : lens (kst F) spinlock) (c : cpu) `{!SideLock lk}
  (Hok : kst_ok s) (Hp : (p < NPROC)%nat) (Hc : cpu_ok c) (Hn : c_noff c = 0)
  (Ecpu : lget cpul s = pushed c) (Ep : c_proc c = Some p)
  (Hl : lk_locked (lget lk s) = true) (Hlc : lk_cpu (lget lk s) = Some (c_tp c)) :
  exists s1, sleep chan lk s = (swtch_out ;; sleep_resume p lk (c_intena (lget cpul s))) s1 /\
    p_state (getproc s1 p) = SLEEPING /\ p_chan (getproc s1 p) = chan /\
    holding (p_lock (getproc s1 p)) (lget cpul s1) = true /\
    lk_locked (lget lk s1) = false /\
    c_noff (lget cpul s1) = 1 /\ intr_enabled (lget cpul s1) = false /\
    forall i, i <> p -> getproc s1 i = getproc s i.
Proof.
  exists (asleep p chan lk c s). rewrite Ecpu. split; [by apply sleep_eq|].
  destruct SideLock0 as [Hcell Sget Sset Sprocs].
  assert (has_proc p (lset lk (unheld (lget lk s)) s)) as Hh by (unfold has_proc; rewrite Sprocs; by apply ok_has).
  pose proof (getproc_upd p (fun q => q <| p_lock := held_by (c_tp c) (p_lock q) |>
      <| p_chan := chan |> <| p_state := SLEEPING |>) _ Hh) as Eg.
  change (getproc (asleep p chan lk c s) p) with (getproc (upd p (fun q => q <| p_lock := held_by (c_tp c) (p_lock q) |>
      <| p_chan := chan |> <| p_state := SLEEPING |>) (lset lk (unheld (lget lk s)) s)) p).
  rewrite Eg. split_and!; try done.
  - unfold holding. cbn. by rewrite bool_decide_eq_true_2.
  - unfold asleep, setcpu. rewrite (lc_get_lk (D := fun _ => True)) by done.
    unfold upd. rewrite Sget, (lc_gs_lk (D := fun _ => True)) by done. done.
  - change (c_noff c + 1 = 1). lia.
  - change (intr_enabled (pushed c) = false). apply pushed_disabled.
  - intros i Hi. change (getproc (asleep p chan lk c s) i) with (getproc (upd p (fun q => q <| p_lock := held_by (c_tp c) (p_lock q) |>
      <| p_chan := chan |> <| p_state := SLEEPING |>) (lset lk (unheld (lget lk s)) s)) i).
    rewrite getproc_upd_ne by done. unfold getproc. by rewrite Sprocs.
Qed.

Definition wit_switch : Switch unit := Build_Switch unit (ret tt) (fun _ => ret tt).
Definition wit_sleeper : kst unit := hold_wait wit_kst.

Lemma sleep_switches_witness :
  exists s1, sleep (Switch0 := wit_switch) 1002 waitlockl wit_sleeper =
      (swtch_out (Switch := wit_switch) ;; sleep_resume 2 waitlockl (c_intena (lget cpul wit_sleeper))) s1 /\
    p_state (getproc s1 2) = SLEEPING /\ p_chan (getproc s1 2) = 1002 /\
    holding (p_lock (getproc s1 2)) (lget cpul s1) = true /\
    lk_locked (lget waitlockl s1) = false /\
    c_noff (lget cpul s1) = 1 /\ intr_enabled (lget cpul s1) = false /\
    forall i, i <> 2%nat -> getproc s1 i = getproc wit_sleeper i.
Proof.
  apply (sleep_switches (Switch0 := wit_switch) wit_sleeper 2 1002 waitlockl (mkcpu 0 (Some 2%nat) 0 false 0));
    [apply hold_wait_ok, wit_kst_ok|by vm_compute; lia|by split|done..].
Defined.

(** [wakeup] makes runnable exactly the processes sleeping on the channel,
    the caller excepted, stamps them with the time, and changes nothing else:
    every lock is free again and the interrupt state is what it was. *)
Theorem wakeup_exact {F : Type} (chan : Z) (s : kst F) (Hok : kst_ok s) :
  exists s', wakeup chan s = Ret tt s' /\ kst_ok s' /\ rest_eq s s' /\
    forall i, (i < NPROC)%nat -> getproc s' i =
      if decide (c_proc (lget cpul s) <> Some i /\ p_state (getproc s i) = SLEEPING /\
                 p_chan (getproc s i) = chan)
      then (getproc s i) <| p_state := RUNNABLE |> <| p_sched2 := ks_ticks s |> else getproc s i.
Proof.
  eexists. split; [by apply wakeup_eq|]. split.
  { apply settle_ok, map_procs_ok; [done|intros; apply wake1_lock]. }
  split.
  { unfold rest_eq, map_procs, settle, setcpu. cbn. by rewrite touched_idemp. }
  intros i Hi. change (getproc (settle ?t) i) with (getproc t i). rewrite getproc_map by (by apply ok_has).
  unfold wake1. destruct (decide (c_proc (lget cpul s) = Some i)); [by rewrite decide_False by tauto|].
  destruct (bool_decide_reflect (p_state (getproc s i) = SLEEPING));
    destruct (Z.eqb_spec (p_chan (getproc s i)) chan); cbn;
    first [by rewrite decide_True by done|by rewrite decide_False by tauto].
Qed.

Lemma wakeup_exact_witness :
  exists s', wakeup 1001 wit_kst = Ret tt s' /\ kst_ok s' /\ rest_eq wit_kst s' /\
    forall i, (i < NPROC)%nat -> getproc s' i =
      if decide (c_proc (lget cpul wit_kst) <> Some i /\ p_state (getproc wit_kst i) = SLEEPING /\
                 p_chan (getproc wit_kst i) = 1001)
      then (getproc wit_kst i) <| p_state := RUNNABLE |> <| p_sched2 := ks_ticks wit_kst |>
      else getproc wit_kst i.
Proof. apply wakeup_exact, wit_kst_ok. Defined.

(** [kill(0)] is not refused.  Pid 0 is the pid of every free slot, so when
    slot [i] is the first free one, kill(0) returns success and sets its
    [killed] flag; the next allocproc() takes that slot and none of its
    assignments clears the flag, so the new process starts life killed. *)
Theorem kill_zero_poisons {F : Type} (s : kst F) (i : nat)
  (Hok : kst_ok s) (Hi : (i < NPROC)%nat)
  (Hfree : p_state (getproc s i) = UNUSED) (Hpid : p_pid (getproc s i) = 0)
  (Hfirst : forall j, (j < i)%nat -> p_state (getproc s j) <> UNUSED /\ p_pid (getproc s j) <> 0) :
  exists s1, kill 0 s = Ret 0 s1 /\ find_unused s1 = Ret (Some i) (hold i s1) /\
    forall pid ticks, p_killed (fresh_proc pid ticks (getproc (hold i s1) i)) = 1.
Proof.
  rewrite kill_eq by done.
  destruct (ks_procs s !! i) as [p|] eqn:Ep.
  2: { apply lookup_ge_None in Ep. rewrite (ok_len _ Hok) in Ep. lia. }
  assert (forall j q, ks_procs s !! j = Some q -> getproc s j = q) as Hget.
  { intros j q Hq. unfold getproc. by rewrite Hq. }
  assert (list_find (fun p => p_pid p = 0) (ks_procs s) = Some (i, p)) as ->.
  { apply list_find_Some. split_and!; [done|by rewrite <- (Hget _ _ Ep)|].
    intros j q Hq Hj. rewrite <- (Hget _ _ Hq). by apply Hfirst. }
  eexists. split; [done|]. set (s1 := settle _).
  assert (kst_ok s1) as H1.
  { apply settle_ok, upd_ok; [done|]. intros q l. unfold kill1. cbn. by destruct (bool_decide _). }
  assert (getproc s1 i = kill1 (ks_ticks s) (getproc s i)) as E1.
  { change (getproc s1 i) with (getproc (upd i (kill1 (ks_ticks s)) s) i).
    apply getproc_upd. by apply ok_has. }
  assert (forall j, j <> i -> getproc s1 j = getproc s j) as Ene.
  { intros j Hj. change (getproc s1 j) with (getproc (upd i (kill1 (ks_ticks s)) s) j). by apply getproc_upd_ne. }
  assert (kill1 (ks_ticks s) (getproc s i) = (getproc s i) <| p_killed := 1 |>) as Ek.
  { unfold kill1. cbn. by rewrite Hfree. }
  split.
  - unfold find_unused.
    rewrite (for_first_procs _ (fun p => p_state p = UNUSED) (fun i => (i, hold i s1))).
    + destruct (lookup_lt_is_Some_2 (ks_procs s1) i) as [q Hq]; [by rewrite (ok_len _ H1)|].
      assert (list_find (fun p => p_state p = UNUSED) (ks_procs s1) = Some (i, q)) as ->; [|done].
      assert (forall j q, ks_procs s1 !! j = Some q -> getproc s1 j = q) as Hget1.
      { intros j r Hr. unfold getproc. by rewrite Hr. }
      apply list_find_Some. split_and!; [done|by rewrite <- (Hget1 _ _ Hq), E1, Ek|].
      intros j r Hr Hj. rewrite <- (Hget1 _ _ Hr), Ene by lia. by apply Hfirst.
    + done.
    + intros j s' H' Hs Hj. erewrite bind_ret by (by apply acquire_proc).
      erewrite bind_ret by (apply pget_hold; [by apply ok_has|done]).
      rewrite (settled_getproc _ _ j Hs). case_decide; cbn [fst snd].
      * unfold ret. by rewrite (settled_hold _ _ j Hs).
      * erewrite bind_ret by (by apply release_proc). by rewrite Hs.
  - intros pid ticks. rewrite hold_getproc by (by apply ok_has). by rewrite E1, Ek.
Qed.

Lemma kill_zero_poisons_witness :
  exists s1, kill 0 wit_kst = Ret 0 s1 /\ find_unused s1 = Ret (Some 4%nat) (hold 4 s1) /\
    forall pid ticks, p_killed (fresh_proc pid ticks (getproc (hold 4 s1) 4)) = 1.
Proof.
  apply kill_zero_poisons; [apply wit_kst_ok|by vm_compute; lia|done|done|].
  intros j Hj. do 4 (destruct j as [|j]; [done|]). lia.
Defined.
