(* ===== verification/Sched.v ===== *)
(** * Sched: the four schedulers

    Models the scheduler half of kernel/proc.c: the bodies of the for(;;) loops
    of the DEFAULT_SCHEDULER, FCFS, PBS and MLFQ builds, RunningTime and ageing,
    and the time-slice accounting of kernel/trap.c. *)
From S2P Require Import Prelude Spinlock ProcQueue Mem Kalloc Vm KState Proc.

Section Sched.
Context {F : Type} `{!Switch F}.

(** The value of x / 0 on unsigned 32-bit operands: undefined in C, so a
    parameter.  A RISC-V divuw gives all ones. *)
Context (div_by_zero : Z).

Definition set_cproc (p : option nat) : M (kst F) unit :=
  modify (fun s => lset cpul ((lget cpul s) <| c_proc := p |>) s).

(** ** Accounting, run from the timer interrupt *)

Definition charge (p : proc) : M (kst F) proc :=
  n <- aget (p_timeineachq p) (p_level p) ;;
  tq <- aset (p_timeineachq p) (p_level p) (u32 (n + 1)) ;;
  ret (p <| p_runtime := u32 (p_runtime p + 1) |> <| p_rtime := u32 (p_rtime p + 1) |>
         <| p_timeinQ := u32 (p_timeinQ p - 1) |> <| p_timeineachq := tq |>).

Definition RunningTime : M (kst F) unit :=
  for_each (seq 0 NPROC) (fun i =>
    acquire cpul (plockl i) ;;
    st <- pget i p_state ;;
    when (bool_decide (st = RUNNING))
      (p <- pget i (fun p => p) ;; p' <- charge p ;; pmod i (fun _ => p')) ;;
    release cpul (plockl i)).

(** ** DEFAULT_SCHEDULER: one pass over the table *)

Definition scheduler_default : M (kst F) unit :=
  zoom cpul intr_on ;;
  for_each (seq 0 NPROC) (fun i =>
    acquire cpul (plockl i) ;;
    st <- pget i p_state ;;
    when (bool_decide (st = RUNNABLE))
      (pmod i (fun p => p <| p_state := RUNNING |>) ;;
       set_cproc (Some i) ;;
       swtch_to i ;;
       set_cproc None) ;;
    release cpul (plockl i)).

(** ** FCFS and PBS: the same search, by birthtime or by dynamicPriority *)

(** The loop over the table: [low] is the process chosen so far, whose lock is
    held; [prep] is what PBS computes for a runnable process first. *)
Fixpoint select_loop (prep : nat -> M (kst F) unit) (key : proc -> Z) (l : list nat) (low : option nat)
    : M (kst F) (option nat) :=
  match l with
  | [] => ret low
  | i :: l' =>
      acquire cpul (plockl i) ;;
      st <- pget i p_state ;;
      if decide (st = RUNNABLE) then
        prep i ;;
        match low with
        | None => select_loop prep key l' (Some i)
        | Some j =>
            ki <- pget i key ;;
            kj <- pget j key ;;
            if ki <? kj
            then release cpul (plockl j) ;; select_loop prep key l' (Some i)
            else release cpul (plockl i) ;; select_loop prep key l' low
        end
      else release cpul (plockl i) ;; select_loop prep key l' low
  end.

Definition fcfs_select : M (kst F) (option nat) :=
  select_loop (fun _ => ret tt) p_birthtime (seq 0 NPROC) None.

Definition scheduler_fcfs : M (kst F) unit :=
  zoom cpul intr_on ;;
  low <- fcfs_select ;;
  match low with
  | None => ret tt
  | Some i =>
      pmod i (fun p => p <| p_nrun := u32 (p_nrun p + 1) |>) ;;
      pmod i (fun p => p <| p_state := RUNNING |>) ;;
      set_cproc (Some i) ;;
      swtch_to i ;;
      set_cproc None ;;
      release cpul (plockl i)
  end.

(** niceness and dynamicPriority, on uint operands throughout: the int [temp]
    is between 0 and 100, and its test against 0 never holds. *)
Definition pbs_niceness (p : proc) : Z :=
  let d := u32 (p_sched2 p - p_sched1 p) in
  let num := u32 (10 * u32 (p_sched2 p - p_sched1 p - p_runtime p)) in
  if d =? 0 then u32 div_by_zero else num / d.

Definition pbs_priority (p : proc) : Z :=
  let e := u32 (p_staticPriority p - p_niceness p + 5) in
  let temp := if 100 <? e then 100 else e in
  if temp <? 0 then 0 else temp.

Definition pbs_update (p : proc) : proc :=
  let p := p <| p_niceness := pbs_niceness p |> in
  p <| p_dynamicPriority := pbs_priority p |>.

Definition pbs_select : M (kst F) (option nat) :=
  select_loop (fun i => pmod i pbs_update) p_dynamicPriority (seq 0 NPROC) None.

Definition scheduler_pbs : M (kst F) unit :=
  low <- pbs_select ;;
  match low with
  | None => ret tt
  | Some i =>
      pmod i (fun p => p <| p_nrun := u32 (p_nrun p + 1) |>) ;;
      pmod i (fun p => p <| p_state := RUNNING |>) ;;
      pmod i (fun p => p <| p_runtime := 0 |>) ;;
      ticks <- gets ks_ticks ;;
      pmod i (fun p => p <| p_sched1 := ticks |>) ;;
      set_cproc (Some i) ;;
      swtch_to i ;;
      set_cproc None ;;
      release cpul (plockl i)
  end.

(** ** MLFQ *)

(** mfq[level]; a level out of range is undefined behaviour. *)
Definition with_queue {A} (level : Z) (m : M ProcQueue A) : M (kst F) A :=
  q <- (fun s => aget (ks_mfq s) level s) ;;
  match m q with
  | Fail e => fail e
  | Ret a q' => modify (fun s => s <| ks_mfq := <[Z.to_nat level := q']> (ks_mfq s) |>) ;; ret a
  end.

Definition ageing (fuel : nat) : M (kst F) unit :=
  for_each (seq 0 NPROC) (fun i =>
    acquire cpul (plockl i) ;;
    st <- pget i p_state ;;
    ticks <- gets ks_ticks ;;
    qEnter <- pget i p_qEnter ;;
    when (bool_decide (st = RUNNABLE) && (24 <? u32 (ticks - qEnter)))
      (inQ <- pget i p_inQ ;;
       level <- pget i p_level ;;
       when (inQ =? 1)
         (pid <- pget i p_pid ;;
          s <- get ;;
          with_queue level (ProcQueueRemove fuel (fun j => p_pid (getproc s j)) pid) ;;
          pmod i (fun p => p <| p_inQ := 0 |>)) ;;
       when (0 <? level)
         (pmod i (fun p => p <| p_level := level - 1 |>) ;;
          pmod i (fun p => p <| p_timeinQ := Z.shiftl 1 (p_level p) |>)) ;;
       pmod i (fun p => p <| p_qEnter := ticks |>)) ;;
    release cpul (plockl i)).

Definition mlfq_admit : M (kst F) unit :=
  for_each (seq 0 NPROC) (fun i =>
    acquire cpul (plockl i) ;;
    st <- pget i p_state ;;
    inQ <- pget i p_inQ ;;
    when (bool_decide (st = RUNNABLE) && (inQ =? 0))
      (pmod i (fun p => p <| p_inQ := 1 |>) ;;
       level <- pget i p_level ;;
       with_queue level (ProcQueueEnqueue (Some i))) ;;
    release cpul (plockl i)).

(** while(temp != 0): [fuel] bounds the dequeues from one ring. *)
Fixpoint mlfq_drain (fuel : nat) (level : Z) (temp : option nat) : M (kst F) (option nat) :=
  match fuel with
  | O => fail EHang
  | S f =>
      match temp with
      | None => ret None
      | Some i =>
          acquire cpul (plockl i) ;;
          pmod i (fun p => p <| p_inQ := 0 |>) ;;
          st <- pget i p_state ;;
          if decide (st = RUNNABLE) then
            ticks <- gets ks_ticks ;;
            pmod i (fun p => p <| p_qEnter := ticks |>) ;;
            ret (Some i)
          else
            release cpul (plockl i) ;;
            temp <- with_queue level ProcQueueDequeue ;;
            mlfq_drain f level temp
      end
  end.

Definition mlfq_pick : M (kst F) (option nat) :=
  for_first (seq 0 5) (fun l =>
    temp <- with_queue (Z.of_nat l) ProcQueueDequeue ;;
    mlfq_drain (2 * NPROC) (Z.of_nat l) temp).

Definition scheduler_mlfq (fuel : nat) : M (kst F) unit :=
  zoom cpul intr_on ;;
  ageing fuel ;;
  mlfq_admit ;;
  low <- mlfq_pick ;;
  match low with
  | None => ret tt
  | Some i =>
      pmod i (fun p => p <| p_nrun := u32 (p_nrun p + 1) |>) ;;
      pmod i (fun p => p <| p_state := RUNNING |>) ;;
      pmod i (fun p => p <| p_runtime := 0 |>) ;;
      ticks <- gets ks_ticks ;;
      pmod i (fun p => p <| p_sched1 := ticks |>) ;;
      set_cproc (Some i) ;;
      swtch_to i ;;
      set_cproc None ;;
      ticks <- gets ks_ticks ;;
      pmod i (fun p => p <| p_qEnter := ticks |>) ;;
      release cpul (plockl i)
  end.

(** The end of a time slice, in usertrap() and kerneltrap(); [timeinQ] is a
    uint, so that the test is for 0. *)
Definition mlfq_slice (i : nat) : M (kst F) unit :=
  t <- pget i p_timeinQ ;;
  if t <=? 0 then
    level <- pget i p_level ;;
    (if level <? 4 then
       pmod i (fun p => p <| p_level := u32 (p_level p + 1) |>) ;;
       pmod i (fun p => p <| p_timeinQ := Z.shiftl 1 (p_level p) |>)
     else when (level =? 4) (pmod i (fun p => p <| p_timeinQ := Z.shiftl 1 (p_level p) |>))) ;;
    yield
  else ret tt.

(** ** Lemmas: two process locks at once *)

Implicit Types s : kst F.

Lemma upd_hold i j f s : i <> j -> upd j f (hold i s) = hold i (upd j f s).
Proof.
  intros Hne. unfold hold, setcpu.
  change (upd j f (lset cpul ?c ?t)) with (lset cpul c (upd j f t)).
  change (lget cpul (upd j f s)) with (lget cpul s). f_equal.
  by apply upd_comm.
Qed.

Lemma acquire_second s i j : kst_ok s -> i <> j -> (j < NPROC)%nat ->
  acquire cpul (plockl j) (hold i s) = Ret tt (hold j (hold i s)).
Proof.
  intros H Hne Hj. rewrite (acquire_free (D := has_proc j)); [done|apply setproc_has; by apply ok_has|].
  cbn [lget plockl]. rewrite hold_getproc_ne by done. rewrite <- (ok_free _ H j Hj). done.
Qed.

Lemma release_second s i j : kst_ok s -> i <> j -> (i < NPROC)%nat -> (j < NPROC)%nat ->
  release cpul (plockl j) (hold j (hold i s)) = Ret tt (hold i s).
Proof.
  intros H Hne Hi Hj. pose proof (ok_has _ _ H Hj) as Hh.
  assert (has_proc j (hold i s)) as Hh' by (by apply setproc_has).
  assert (lget (plockl j) (hold j (hold i s)) = held_by (c_tp (lget cpul s)) (p_lock (getproc s j))) as E.
  { cbn [lget plockl]. rewrite hold_getproc by done. rewrite hold_getproc_ne by done. done. }
  rewrite (release_held (D := has_proc j)) with (c := pushed (lget cpul s)); rewrite ?E; try done.
  - f_equal. rewrite touched_pushed by apply H.
    change (lset cpul (pushed (lget cpul s)) (lset (plockl j) ?l (hold j (hold i s)))) with
      (setcpu (pushed (lget cpul s)) (upd j (fun p => p <| p_lock := l |>) (upd j (fun p => p <| p_lock := held_by (c_tp (lget cpul s)) (p_lock p) |>) (hold i s)))).
    rewrite upd_upd by done. rewrite upd_id; [done| |done]. cbv beta. rewrite hold_getproc_ne by done.
    pose proof (ok_free _ H j Hj) as El. destruct (getproc s j) as [l]. cbn in *. by f_equal.
  - by apply setproc_has.
  - by apply pushed_ok, H.
Qed.

Lemma release_first s i j : kst_ok s -> i <> j -> (i < NPROC)%nat -> (j < NPROC)%nat ->
  release cpul (plockl i) (hold j (hold i s)) = Ret tt (hold j s).
Proof.
  intros H Hne Hi Hj. pose proof (ok_has _ _ H Hi) as Hh.
  assert (has_proc i (hold j (hold i s))) as Hh' by (by apply setproc_has, setproc_has).
  assert (lget (plockl i) (hold j (hold i s)) = held_by (c_tp (lget cpul s)) (p_lock (getproc s i))) as E.
  { cbn [lget plockl]. rewrite hold_getproc_ne by done. rewrite hold_getproc by done. done. }
  rewrite (release_held (D := has_proc i)) with (c := pushed (lget cpul s)); rewrite ?E; try done.
  - f_equal. rewrite touched_pushed by apply H.
    set (g := fun p : proc => p <| p_lock := held_by (c_tp (lget cpul s)) (p_lock p) |>).
    change (lset cpul (pushed (lget cpul s)) (lset (plockl i) ?l (hold j (hold i s)))) with
      (setcpu (pushed (lget cpul s)) (upd i (fun p => p <| p_lock := l |>) (upd j g (upd i g s)))).
    change (hold j s) with (setcpu (pushed (lget cpul s)) (upd j g s)). f_equal.
    rewrite (upd_comm i j), upd_upd by (done || by apply setproc_has). f_equal.
    rewrite upd_id; [done| |done]. pose proof (ok_free _ H i Hi) as El.
    destruct (getproc s i) as [l]. cbn in *. by f_equal.
  - by apply pushed_ok, H.
Qed.

Lemma upd_hold_same i f s : has_proc i s -> keeps_lock f -> upd i f (hold i s) = hold i (upd i f s).
Proof.
  intros H Hf. exact (Ret_inj _ _ _ _ (pmod_hold s i f H Hf)).
Qed.

(** ** The search of FCFS and PBS *)

Section Select.
Context (prep : nat -> M (kst F) unit) (key : proc -> Z) (f : proc -> proc).
Context (Hprep : forall i t, has_proc i t -> prep i t = Ret tt (upd i f t)).
Context (Hf : keeps_lock f) (Hstate : forall p, p_state (f p) = p_state p).
Context (Hkey : forall p l, key (p <| p_lock := l |>) = key p).

(** The table after the first [k] rounds. *)
Definition prepared (k : nat) s : kst F :=
  map_procs (fun i p => if decide ((i < k)%nat /\ p_state p = RUNNABLE) then f p else p) s.

(** [low] is the first runnable process of least key among the first [k]. *)
Definition least (k : nat) s (low : option nat) : Prop :=
  match low with
  | None => forall j, (j < k)%nat -> p_state (getproc s j) <> RUNNABLE
  | Some i => (i < k)%nat /\ p_state (getproc s i) = RUNNABLE /\
      forall j, (j < k)%nat -> p_state (getproc s j) = RUNNABLE ->
        key (getproc s i) <= key (getproc s j) /\ ((j < i)%nat -> key (getproc s i) < key (getproc s j))
  end.

Lemma prepared_ok k s : kst_ok s -> kst_ok (prepared k s).
Proof. intros H. apply map_procs_ok; [done|]. intros i q. case_decide; [by apply keeps_lock_eq|done]. Qed.

Lemma prepared_get k s j : kst_ok s -> (j < NPROC)%nat -> getproc (prepared k s) j =
  if decide ((j < k)%nat /\ p_state (getproc s j) = RUNNABLE) then f (getproc s j) else getproc s j.
Proof. intros H Hj. unfold prepared. by rewrite getproc_map by (by apply ok_has). Qed.

Lemma prepared_state k s j : kst_ok s -> (j < NPROC)%nat ->
  p_state (getproc (prepared k s) j) = p_state (getproc s j).
Proof. intros H Hj. rewrite prepared_get by done. by case_decide. Qed.

Lemma prepared_S k s : kst_ok s -> (k < NPROC)%nat ->
  prepared (S k) s = if decide (p_state (getproc s k) = RUNNABLE) then upd k f (prepared k s) else prepared k s.
Proof.
  intros H Hk. destruct (ks_procs s !! k) as [p|] eqn:Ep.
  2: { apply lookup_ge_None in Ep. rewrite (ok_len _ H) in Ep. lia. }
  assert (getproc s k = p) as Eg by (unfold getproc; by rewrite Ep). rewrite Eg.
  destruct (decide (p_state p = RUNNABLE)) as [Hr|Hr].
  - rewrite upd_map. unfold prepared. rewrite map_procs_comp. apply map_procs_ext; intros i q Hq.
    destruct (decide (k = i)) as [<-|Hne].
    + assert (q = p) as -> by congruence.
      rewrite decide_True by (split; [lia|done]). by rewrite decide_False by lia.
    + apply decide_ext. assert ((i < S k)%nat <-> (i < k)%nat) by lia. tauto.
  - apply map_procs_ext; intros i q Hq. destruct (decide (k = i)) as [<-|Hne].
    + assert (q = p) as -> by congruence. rewrite !decide_False by tauto. done.
    + apply decide_ext. assert ((i < S k)%nat <-> (i < k)%nat) by lia. tauto.
Qed.

Lemma least_S_skip k s low : kst_ok s -> (k < NPROC)%nat ->
  p_state (getproc s k) <> RUNNABLE -> least k (prepared k s) low -> least (S k) (prepared (S k) s) low.
Proof.
  intros H Hk Hr Hl. rewrite prepared_S, decide_False by done.
  assert (forall j, (j < S k)%nat -> p_state (getproc (prepared k s) j) = RUNNABLE -> (j < k)%nat) as Hj.
  { intros j Hj Hs. destruct (decide (j = k)) as [->|]; [|lia]. by rewrite prepared_state in Hs. }
  destruct low as [i|]; simpl in *.
  - destruct Hl as (A & B & C). split_and!; [lia|done|]. intros j Hj1 Hj2. apply C; auto.
  - intros j Hj1 Hj2. apply (Hl j); auto.
Qed.

(** The entry [k] joins: the others keep their keys. *)
Lemma prepared_other k s j : kst_ok s -> (j < k)%nat -> (k < NPROC)%nat ->
  getproc (prepared (S k) s) j = getproc (prepared k s) j.
Proof.
  intros H Hj Hk. rewrite !prepared_get by (done || lia). apply decide_ext.
  assert ((j < S k)%nat <-> (j < k)%nat) by lia. tauto.
Qed.

Lemma least_S_new k s low : kst_ok s -> (k < NPROC)%nat ->
  p_state (getproc s k) = RUNNABLE -> least k (prepared k s) low ->
  least (S k) (prepared (S k) s)
    match low with
    | None => Some k
    | Some i => if key (getproc (prepared (S k) s) k) <? key (getproc (prepared (S k) s) i) then Some k else Some i
    end.
Proof.
  intros H Hk Hr Hl. pose proof (fun j Hj => prepared_other k s j H Hj Hk) as Ho.
  assert (p_state (getproc (prepared (S k) s) k) = RUNNABLE) as Hrk by (by rewrite prepared_state).
  destruct low as [i|]; simpl in *.
  - destruct Hl as (A & B & C). rewrite (Ho i) by done.
    destruct (Z.ltb_spec (key (getproc (prepared (S k) s) k)) (key (getproc (prepared k s) i))).
    + simpl. split_and!; [lia|done|]. intros j Hj Hs. destruct (decide (j = k)) as [->|]; [lia|].
      rewrite (Ho j) in Hs |- * by lia. destruct (C j ltac:(lia) Hs). lia.
    + simpl. rewrite (Ho i) by done. split_and!; [lia|done|]. intros j Hj Hs.
      destruct (decide (j = k)) as [->|]; [lia|]. rewrite (Ho j) in Hs |- * by lia. apply C; [lia|done].
  - split_and!; [lia|done|]. intros j Hj Hs. destruct (decide (j = k)) as [->|]; [lia|].
    exfalso. rewrite (Ho j) in Hs by lia. apply (Hl j); [lia|done].
Qed.

(** Where the search stands after [k] rounds. *)
Definition search_state (k : nat) s (low : option nat) (t : kst F) : Prop :=
  match low with
  | None => kst_ok t /\ settle t = settle (prepared k s) /\ (k = 0%nat \/ t = settle (prepared k s))
  | Some i => t = hold i (prepared k s)
  end.

Lemma select_round k n s low t : kst_ok s -> (k < NPROC)%nat ->
  search_state k s low t -> least k (prepared k s) low ->
  exists low' t', select_loop prep key (seq k (S n)) low t = select_loop prep key (seq (S k) n) low' t' /\
    search_state (S k) s low' t' /\ least (S k) (prepared (S k) s) low'.
Proof.
  intros H Hk Ht Hl. change (seq k (S n)) with (k :: seq (S k) n). cbn [select_loop].
  pose proof (prepared_ok k s H) as Hp. pose proof (ok_has _ _ Hp Hk) as Hh.
  pose proof (prepared_state k s k H Hk) as Hst. pose proof (prepared_S k s H Hk) as HS.
  destruct low as [i|]; simpl in Ht.
  - subst t. assert (i < k)%nat as Hik by (by destruct Hl). assert (i <> k) as Hne by lia.
    erewrite bind_ret by (apply acquire_second; [done|done|done]).
    assert (has_proc k (hold i (prepared k s))) as Hh2 by (by apply setproc_has).
    erewrite bind_ret by (by apply pget_hold). rewrite hold_getproc_ne, Hst by done.
    case_decide as Hr.
    + erewrite bind_ret by (apply Hprep; by apply setproc_has).
      rewrite upd_hold_same, upd_hold, <- HS by done.
      pose proof (prepared_ok (S k) s H) as HpS. pose proof (ok_has _ _ HpS Hk) as HhS.
      pose proof (ok_has _ i HpS ltac:(lia)) as HhSi.
      erewrite bind_ret by (apply pget_hold; [by apply setproc_has|done]). rewrite hold_getproc_ne by done.
      erewrite bind_ret.
      2: { unfold pget, gets. rewrite hold_getproc_ne, hold_getproc by done. by rewrite Hkey. }
      pose proof (least_S_new k s (Some i) H Hk Hr Hl) as HlS. simpl in HlS.
      destruct (_ <? _).
      * erewrite bind_ret by (apply release_first; [done|done|lia|done]).
        eexists (Some k), _. split; [done|]. by split.
      * erewrite bind_ret by (apply release_second; [done|done|lia|done]).
        eexists (Some i), _. split; [done|]. by split.
    + erewrite bind_ret by (apply release_second; [done|done|lia|done]).
      eexists (Some i), _. split; [done|]. split; [simpl; by rewrite HS|].
      by apply least_S_skip.
  - destruct Ht as (Hok & Hset & Hk0).
    erewrite bind_ret by (by apply acquire_proc). rewrite (settled_hold _ _ k Hset).
    erewrite bind_ret by (by apply pget_hold). rewrite Hst. case_decide as Hr.
    + erewrite bind_ret by (apply Hprep; by apply setproc_has).
      rewrite upd_hold_same by done. eexists (Some k), _. split; [done|]. split; [by simpl; rewrite HS|].
      apply (least_S_new k s None H Hk Hr Hl).
    + erewrite bind_ret by (by apply release_proc).
      eexists None, _. split; [done|]. split.
      * simpl. rewrite HS. split; [by apply settle_ok|]. split; [apply settle_settle|by right].
      * by apply least_S_skip.
Qed.

Lemma select_loop_spec n k s low t : kst_ok s -> (k + n)%nat = NPROC ->
  search_state k s low t -> least k (prepared k s) low ->
  exists low', select_loop prep key (seq k n) low t =
    Ret low' (match low' with None => settle (prepared NPROC s) | Some i => hold i (prepared NPROC s) end) /\
    least NPROC (prepared NPROC s) low'.
Proof.
  intros H. revert k low t. induction n as [|n IH]; intros k low t Hk Ht Hl.
  - assert (k = NPROC) as -> by lia. exists low. split; [|done]. simpl. unfold ret. f_equal.
    destruct low as [i|]; [exact Ht|]. destruct Ht as (_ & _ & [Hz | Hz]); [unfold NPROC in *; lia|exact Hz].
  - destruct (select_round k n s low t H ltac:(lia) Ht Hl) as (low' & t' & E & Ht' & Hl').
    rewrite E. apply (IH (S k)); [lia|done|done].
Qed.

Lemma select_spec s : kst_ok s ->
  exists low, select_loop prep key (seq 0 NPROC) None s =
    Ret low (match low with None => settle (prepared NPROC s) | Some i => hold i (prepared NPROC s) end) /\
    least NPROC (prepared NPROC s) low.
Proof.
  intros H. apply select_loop_spec; [done|done| |].
  - assert (prepared 0 s = s) as E0.
    { transitivity (map_procs (fun _ p => p) s).
      - apply map_procs_ext. intros i q _. by rewrite decide_False by lia.
      - unfold map_procs. destruct s. cbn. f_equal. apply list_eq. intros i. rewrite list_lookup_imap.
        by destruct (_ !! i). }
    unfold search_state. rewrite E0. split; [done|]. split; [done|by left].
  - simpl. lia.
Qed.
End Select.

Lemma prepared_id s : prepared (fun p => p) NPROC s = s.
Proof.
  transitivity (map_procs (fun _ p => p) s).
  - apply map_procs_ext. intros i q _. by case_decide.
  - unfold map_procs. destruct s. cbn. f_equal. apply list_eq. intros i. rewrite list_lookup_imap.
    by destruct (_ !! i).
Qed.

(** ** RunningTime *)

Definition level_ok (p : proc) : Prop := 0 <= p_level p < 5 /\ length (p_timeineachq p) = 5%nat.

(** The time slots of a process add up to its running time. *)
Definition balanced (p : proc) : Prop :=
  u32 (foldr Z.add 0 (p_timeineachq p)) = u32 (p_rtime p).

Definition charged (p : proc) : proc :=
  let n := nth (Z.to_nat (p_level p)) (p_timeineachq p) 0 in
  p <| p_runtime := u32 (p_runtime p + 1) |> <| p_rtime := u32 (p_rtime p + 1) |>
    <| p_timeinQ := u32 (p_timeinQ p - 1) |>
    <| p_timeineachq := <[Z.to_nat (p_level p) := u32 (n + 1)]> (p_timeineachq p) |>.

Lemma charge_eq p s : level_ok p -> charge p s = Ret (charged p) s.
Proof.
  intros [Hl Hn]. destruct (lookup_lt_is_Some_2 (p_timeineachq p) (Z.to_nat (p_level p))) as [n Hx]; [lia|].
  assert (znth (p_timeineachq p) (p_level p) = Some n) as Hz by (unfold znth; by zcase).
  unfold charge. erewrite bind_ret by (by apply aget_ok). erewrite bind_ret by (apply aset_ok; lia).
  unfold ret, charged. by rewrite (nth_lookup_Some _ _ _ _ Hx).
Qed.

Lemma sum_insert (l : list Z) i x y : l !! i = Some x ->
  foldr Z.add 0 (<[i := y]> l) = foldr Z.add 0 l - x + y.
Proof.
  revert i. induction l as [|z l IH]; intros [|i] Hi; simpl in *; [done|done| |].
  - injection Hi as ->. lia.
  - rewrite (IH i Hi). lia.
Qed.

Lemma charged_balanced p : level_ok p -> balanced p -> balanced (charged p).
Proof.
  intros [Hl Hn] Hb. destruct (lookup_lt_is_Some_2 (p_timeineachq p) (Z.to_nat (p_level p))) as [n Hx]; [lia|].
  unfold balanced, charged in *. cbn. rewrite (nth_lookup_Some _ _ _ _ Hx), (sum_insert _ _ _ _ Hx).
  unfold u32 in *. rewrite Zplus_mod_idemp_r, Z.mod_mod by lia.
  rewrite <- (Zplus_mod_idemp_l (p_rtime p)), <- Hb, Zplus_mod_idemp_l. f_equal. lia.
Qed.

(** What a timer tick does to an entry. *)
Definition tick_proc (p : proc) : proc := if decide (p_state p = RUNNING) then charged p else p.

Lemma RunningTime_eq s : kst_ok s -> (forall i, (i < NPROC)%nat -> level_ok (getproc s i)) ->
  exists s', RunningTime s = Ret tt s' /\ kst_ok s' /\ rest_eq s s' /\
    forall i, (i < NPROC)%nat -> getproc s' i = tick_proc (getproc s i).
Proof.
  intros H Hl.
  apply returns_inv_unit.
  pose (I := fun (k : nat) t => kst_ok t /\ rest_eq s t /\ forall i, (i < NPROC)%nat ->
    getproc t i = if decide (i < k)%nat then tick_proc (getproc s i) else getproc s i).
  eapply returns_mono; [apply (for_each_returns _ I NPROC 0 s)|].
  - split_and!; [done|done|]. intros i Hi. by rewrite decide_False by lia.
  - intros k t Hk (Ht & Hr & Hg). pose proof (ok_has _ k Ht ltac:(lia)) as Hh.
    assert (getproc t k = getproc s k) as Ek by (rewrite Hg by lia; by rewrite decide_False by lia).
    assert (level_ok (getproc s k)) as Hlk by (apply Hl; lia).
    set (t' := upd k tick_proc t).
    assert (kst_ok t') as Ht'.
    { apply upd_ok; [done|]. intros p l. unfold tick_proc. cbn. by case_decide. }
    eapply returns_intro with (a := tt) (s' := settle t').
    + erewrite bind_ret by (apply acquire_proc; [done|lia]). erewrite bind_ret by (by apply pget_hold).
      rewrite Ek. destruct (bool_decide_reflect (p_state (getproc s k) = RUNNING)) as [Hs|Hs]; cbn [when].
      * erewrite bind_ret.
        2: { erewrite bind_ret by done. erewrite bind_ret.
             2: { apply charge_eq. rewrite hold_getproc by done. rewrite Ek. exact Hlk. }
             unfold pmod, modify. done. }
        rewrite hold_getproc, Ek by done.
        replace (setproc k _ (hold k t)) with (hold k t'); [apply release_proc; [done|lia]|].
        unfold t'. rewrite <- upd_hold_same by
          (try done; intros p l; unfold tick_proc; cbn; by case_decide).
        unfold upd. f_equal. rewrite hold_getproc, Ek by done. unfold tick_proc. cbn.
        by rewrite decide_True by done.
      * erewrite bind_ret by done. rewrite release_proc by (done || lia). unfold t'. rewrite upd_id; [done| |done].
        rewrite Ek. unfold tick_proc. by rewrite decide_False.
    + split_and!.
      * by apply settle_ok.
      * unfold rest_eq in *. rewrite <- Hr. unfold t', upd, settle, setcpu, setproc. cbn. by rewrite touched_idemp.
      * intros i Hi. change (getproc (settle t') i) with (getproc t' i). unfold t'.
        destruct (decide (k = i)) as [<-|Hne].
        -- rewrite getproc_upd, Ek by done. by rewrite decide_True by lia.
        -- rewrite getproc_upd_ne, Hg by done. apply decide_ext. lia.
  - intros [] t (Ht & Hr & Hg). split_and!; [done|done|]. intros i Hi. rewrite Hg by done. by rewrite decide_True by lia.
Qed.
End Sched.

(** ** Properties *)

(** C11: first come, first served.  The search of the FCFS scheduler never
    panics and picks a runnable process that no runnable process is older than,
    the lowest-numbered one among equals; it holds that process's lock and no
    other, and has changed nothing.  It picks nobody only when nobody is runnable. *)
Theorem fcfs_picks_oldest {F : Type} (s : kst F) (Hok : kst_ok s) :
  exists low, fcfs_select s = Ret low (match low with None => settle s | Some i => hold i s end) /\
    match low with
    | None => forall j, (j < NPROC)%nat -> p_state (getproc s j) <> RUNNABLE
    | Some i => (i < NPROC)%nat /\ p_state (getproc s i) = RUNNABLE /\
        forall j, (j < NPROC)%nat -> p_state (getproc s j) = RUNNABLE ->
          p_birthtime (getproc s i) <= p_birthtime (getproc s j) /\
          ((j < i)%nat -> p_birthtime (getproc s i) < p_birthtime (getproc s j))
    end.
Proof.
  destruct (select_spec (F := F) (fun _ => ret tt) p_birthtime (fun p => p)) with (s := s) as (low & E & Hl).
  - intros i t Hi. unfold ret. f_equal. symmetry. by apply upd_id.
  - done.
  - done.
  - done.
  - done.
  - rewrite prepared_id in E, Hl. exists low. split; [exact E|]. destruct low; exact Hl.
Qed.

Lemma fcfs_picks_oldest_witness :
  exists low, fcfs_select wit_kst = Ret low (match low with None => settle wit_kst | Some i => hold i wit_kst end) /\
    match low with
    | None => forall j, (j < NPROC)%nat -> p_state (getproc wit_kst j) <> RUNNABLE
    | Some i => (i < NPROC)%nat /\ p_state (getproc wit_kst i) = RUNNABLE /\
        forall j, (j < NPROC)%nat -> p_state (getproc wit_kst j) = RUNNABLE ->
          p_birthtime (getproc wit_kst i) <= p_birthtime (getproc wit_kst j) /\
          ((j < i)%nat -> p_birthtime (getproc wit_kst i) < p_birthtime (getproc wit_kst j))
    end.
Proof. apply fcfs_picks_oldest, wit_kst_ok. Defined.

(** C12: priority based scheduling.  The search updates niceness and dynamic
    priority of exactly the runnable processes, and picks one of least dynamic
    priority, the lowest-numbered among equals; the dynamic priority of the process
    picked is between 0 and 100. *)
Theorem pbs_picks_least {F : Type} (d : Z) (s : kst F) (Hok : kst_ok s) :
  let s' := map_procs (fun _ p => if decide (p_state p = RUNNABLE) then pbs_update d p else p) s in
  exists low, pbs_select d s = Ret low (match low with None => settle s' | Some i => hold i s' end) /\
    match low with
    | None => forall j, (j < NPROC)%nat -> p_state (getproc s j) <> RUNNABLE
    | Some i => (i < NPROC)%nat /\ p_state (getproc s i) = RUNNABLE /\
        0 <= p_dynamicPriority (getproc s' i) <= 100 /\
        forall j, (j < NPROC)%nat -> p_state (getproc s j) = RUNNABLE ->
          p_dynamicPriority (getproc s' i) <= p_dynamicPriority (getproc s' j) /\
          ((j < i)%nat -> p_dynamicPriority (getproc s' i) < p_dynamicPriority (getproc s' j))
    end.
Proof.
  intros s'. destruct (select_spec (F := F) (fun i => pmod i (pbs_update d)) p_dynamicPriority (pbs_update d))
    with (s := s) as (low & E & Hl); try done.
  assert (prepared (pbs_update d) NPROC s = s') as Es.
  { apply map_procs_ext. intros i q Hi%lookup_lt_Some. rewrite (ok_len _ Hok) in Hi. apply decide_ext. tauto. }
  assert (forall j, (j < NPROC)%nat -> p_state (getproc s' j) = p_state (getproc s j)) as Hst.
  { intros j Hj. unfold s'. rewrite getproc_map by (by apply ok_has). by case_decide. }
  rewrite Es in E, Hl. exists low. split; [exact E|]. destruct low as [i|].
  - destruct Hl as (A & B & C). rewrite Hst in B by done. split_and!; [done|done| | |].
    1,2: unfold s'; rewrite getproc_map, decide_True by (done || by apply ok_has);
      unfold pbs_update, pbs_priority; cbn; set (e := u32 _);
      assert (0 <= e) by (apply Z.mod_pos_bound; lia); by zcase.
    intros j Hj Hr. apply C; [done|]. by rewrite Hst.
  - intros j Hj. rewrite <- Hst by done. by apply Hl.
Qed.

Lemma pbs_picks_least_witness :
  let s' := map_procs (fun _ p => if decide (p_state p = RUNNABLE) then pbs_update (-1) p else p) wit_kst in
  exists low, pbs_select (-1) wit_kst = Ret low (match low with None => settle s' | Some i => hold i s' end) /\
    match low with
    | None => forall j, (j < NPROC)%nat -> p_state (getproc wit_kst j) <> RUNNABLE
    | Some i => (i < NPROC)%nat /\ p_state (getproc wit_kst i) = RUNNABLE /\
        0 <= p_dynamicPriority (getproc s' i) <= 100 /\
        forall j, (j < NPROC)%nat -> p_state (getproc wit_kst j) = RUNNABLE ->
          p_dynamicPriority (getproc s' i) <= p_dynamicPriority (getproc s' j) /\
          ((j < i)%nat -> p_dynamicPriority (getproc s' i) < p_dynamicPriority (getproc s' j))
    end.
Proof. apply pbs_picks_least, wit_kst_ok. Defined.

(** The dynamic priority of a process meant to be the most urgent.  With a
    niceness between 0 and 10 the formula is max(0, min(static - niceness + 5,
    100)); on unsigned operands it agrees with that while static - niceness + 5
    is not negative, and when it is negative the result is 100, the least
    urgent, and not 0. *)
Theorem pbs_priority_wraps (p : proc)
  (Hs : 0 <= p_staticPriority p <= 100) (Hn : 0 <= p_niceness p <= 10) :
  pbs_priority p =
    (if p_staticPriority p - p_niceness p + 5 <? 0 then 100
     else Z.max 0 (Z.min (p_staticPriority p - p_niceness p + 5) 100)).
Proof.
  unfold pbs_priority, u32. destruct (Z.ltb_spec (p_staticPriority p - p_niceness p + 5) 0).
  - replace ((p_staticPriority p - p_niceness p + 5) mod 2 ^ 32)
      with (p_staticPriority p - p_niceness p + 5 + 2 ^ 32) by zmod. by zcase.
  - rewrite Z.mod_small by lia. zcase.
Qed.

Lemma pbs_priority_wraps_witness :
  let p := zero_proc <| p_niceness := 10 |> in
  pbs_priority p =
    (if p_staticPriority p - p_niceness p + 5 <? 0 then 100
     else Z.max 0 (Z.min (p_staticPriority p - p_niceness p + 5) 100)) /\
  pbs_priority p = 100.
Proof. intros p. split; [apply pbs_priority_wraps; simpl; lia|by vm_compute]. Defined.

(** The timer's accounting.  RunningTime() charges one tick to exactly the
    running processes, in the slot of their current queue level, and keeps the
    books balanced: the five slots of a process add up to its running time. *)
Theorem running_time_charges {F : Type} (s : kst F) (Hok : kst_ok s)
  (Hl : forall i, (i < NPROC)%nat -> level_ok (getproc s i)) :
  exists s', RunningTime s = Ret tt s' /\ kst_ok s' /\ rest_eq s s' /\
    (forall i, (i < NPROC)%nat -> getproc s' i = tick_proc (getproc s i)) /\
    ((forall i, (i < NPROC)%nat -> balanced (getproc s i)) ->
     forall i, (i < NPROC)%nat -> balanced (getproc s' i)).
Proof.
  destruct (RunningTime_eq s Hok Hl) as (s' & E & Hok' & Hr & Hg). exists s'. split_and!; try done.
  intros Hb i Hi. rewrite Hg by done. unfold tick_proc. case_decide; [|by apply Hb].
  apply charged_balanced; [by apply Hl|by apply Hb].
Qed.

Lemma running_time_charges_witness :
  exists s', RunningTime wit_kst = Ret tt s' /\ kst_ok s' /\ rest_eq wit_kst s' /\
    (forall i, (i < NPROC)%nat -> getproc s' i = tick_proc (getproc wit_kst i)) /\
    ((forall i, (i < NPROC)%nat -> balanced (getproc wit_kst i)) ->
     forall i, (i < NPROC)%nat -> balanced (getproc s' i)).
Proof.
  apply running_time_charges; [apply wit_kst_ok|].
  intros i Hi. do 64 (destruct i as [|i]; [by split|]). unfold NPROC in Hi. lia.
Defined.
