(* ===== verification/Syscall.v ===== *)
(** * Syscall: system call arguments, dispatch, and the process system calls

    Models kernel/syscall.c and kernel/sysproc.c.  The file system calls enter
    through the interface [FileSyscalls], console output through [Printk]. *)
From S2P Require Import Prelude Spinlock ProcQueue Mem Kalloc Vm KState Proc.

(** ** kernel/syscall.h *)

Definition SYS_fork : Z := 1.
Definition SYS_exit : Z := 2.
Definition SYS_wait : Z := 3.
Definition SYS_pipe : Z := 4.
Definition SYS_read : Z := 5.
Definition SYS_kill : Z := 6.
Definition SYS_exec : Z := 7.
Definition SYS_fstat : Z := 8.
Definition SYS_chdir : Z := 9.
Definition SYS_dup : Z := 10.
Definition SYS_getpid : Z := 11.
Definition SYS_sbrk : Z := 12.
Definition SYS_sleep : Z := 13.
Definition SYS_uptime : Z := 14.
Definition SYS_open : Z := 15.
Definition SYS_write : Z := 16.
Definition SYS_mknod : Z := 17.
Definition SYS_unlink : Z := 18.
Definition SYS_link : Z := 19.
Definition SYS_mkdir : Z := 20.
Definition SYS_close : Z := 21.
Definition SYS_trace : Z := 22.
Definition SYS_set_priority : Z := 23.
Definition SYS_waitx : Z := 24.

Definition syscall_names : list string :=
  ["fork"; "exit"; "wait"; "pipe"; "read"; "kill"; "exec"; "fstat"; "chdir"; "dup"; "getpid"; "sbrk";
   "sleep"; "uptime"; "open"; "write"; "mknod"; "unlink"; "link"; "mkdir"; "close"; "trace";
   "set_priority"]%string.
Definition syscall_argcnt : list Z :=
  [0; 1; 1; 1; 3; 1; 2; 2; 1; 1; 0; 1; 1; 0; 2; 3; 3; 1; 2; 1; 1; 1; 2].

(** The handlers of the file layer, by system call number; each returns the
    value of its uint64 result. *)
Class FileSyscalls (F : Type) := file_syscall : Z -> option (M (kst F) Z).

(** A printf call: the format and its arguments. *)
Class Printk (F : Type) := printk : string -> list varg -> M (kst F) unit.

Section Syscall.
Context {F : Type} `{!FileOps F} `{!Switch F} `{!FileSyscalls F} `{!Printk F}.
Context (kend trampoline forkret_addr : Z) (xstate_addr : nat -> Z) (proc_addr : option nat -> Z).

(** [scratch] is the address of the caller's local variable, [ticks_addr] of
    the global ticks; [junk] is what an uninitialised local holds. *)
Context (scratch ticks_addr junk : Z).

Notation curproc := (curproc (F := F)).

(** ** Arguments *)

Definition fetchaddr (addr : Z) : M (kst F) (Z * Z) :=
  p <- curproc ;;
  sz <- pget p p_sz ;;
  pt <- pget p p_pagetable ;;
  if (sz <=? addr) || (sz <? u64 (addr + 8)) then ret (-1, junk) else
  r <- km (copyin pt scratch addr 8) ;;
  if negb (r =? 0) then ret (-1, junk) else
  v <- km (kload scratch) ;;
  ret (0, v).

(** [fuel] bounds the length of the string in [buf]. *)
Definition fetchstr (fuel : nat) (addr buf max : Z) : M (kst F) Z :=
  p <- curproc ;;
  pt <- pget p p_pagetable ;;
  err <- km (copyinstr pt buf addr (u64 max)) ;;
  if err <? 0 then ret err else
  s <- get ;;
  match strlen fuel buf (k_mem (ks_km s)) with Some n => ret n | None => fail EHang end.

(** The registers a0 .. a5 are consecutive in the trapframe. *)
Definition argraw (n : Z) : M (kst F) Z :=
  p <- curproc ;;
  tf <- pget p p_trapframe ;;
  if (0 <=? n) && (n <=? 5) then km (kload (tf + tf_a0 + 8 * n)) else panic "argraw".

Definition argint (n : Z) : M (kst F) Z := v <- argraw n ;; ret (i32 v).
Definition argaddr (n : Z) : M (kst F) Z := argraw n.
Definition argstr (fuel : nat) (n buf max : Z) : M (kst F) Z :=
  addr <- argaddr n ;; fetchstr fuel addr buf max.

(** ** kernel/sysproc.c *)

Definition sys_exit : M (kst F) Z :=
  n <- argint 0 ;;
  exit proc_addr n ;;
  ret 0.

Definition sys_getpid : M (kst F) Z := p <- curproc ;; pget p p_pid.

Definition sys_fork : M (kst F) Z := fork kend trampoline forkret_addr.

Definition sys_wait (fuel : nat) : M (kst F) Z :=
  p <- argaddr 0 ;; wait kend xstate_addr proc_addr fuel p.

Definition sys_sbrk : M (kst F) Z :=
  n <- argint 0 ;;
  p <- curproc ;;
  addr <- gets (fun s => i32 (p_sz (getproc s p))) ;;
  r <- growproc kend n ;;
  if r <? 0 then ret (-1) else ret addr.

(** while(ticks - ticks0 < n), one round per wakeup; the comparison is on uint. *)
Fixpoint sleep_loop (fuel : nat) (ticks0 n : Z) : M (kst F) Z :=
  match fuel with
  | O => fail EHang
  | S f =>
      ticks <- gets ks_ticks ;;
      if u32 (ticks - ticks0) <? u32 n then
        p <- curproc ;;
        k <- pget p p_killed ;;
        if negb (k =? 0) then release cpul tickslockl ;; ret (-1)
        else sleep ticks_addr tickslockl ;; sleep_loop f ticks0 n
      else release cpul tickslockl ;; ret 0
  end.

Definition sys_sleep (fuel : nat) : M (kst F) Z :=
  n <- argint 0 ;;
  acquire cpul tickslockl ;;
  ticks0 <- gets ks_ticks ;;
  sleep_loop fuel ticks0 n.

Definition sys_kill : M (kst F) Z := pid <- argint 0 ;; kill pid.

Definition sys_uptime : M (kst F) Z :=
  acquire cpul tickslockl ;;
  xticks <- gets ks_ticks ;;
  release cpul tickslockl ;;
  ret xticks.

Definition sys_trace : M (kst F) Z :=
  n <- argint 0 ;;
  p <- curproc ;;
  pmod p (fun q => q <| p_trace_mask := n |>) ;;
  ret 0.

(** The arguments go to [_setpriority] in the order they came. *)
Definition sys_set_priority : M (kst F) Z :=
  new_priority <- argint 0 ;;
  procid <- argint 1 ;;
  _setpriority new_priority procid.

(** The local [wtime] is handed to [waitx] as the place for the running time. *)
Definition sys_waitx (fuel : nat) : M (kst F) Z :=
  addr <- argaddr 0 ;;
  addr1 <- argaddr 1 ;;
  addr2 <- argaddr 2 ;;
  r <- waitx kend xstate_addr proc_addr fuel addr ;;
  let '(wtime, rtime) := default (junk, junk) r.2 in
  p <- curproc ;;
  pt <- pget p p_pagetable ;;
  c <- km (kmodify (store_le 4 scratch (u32 wtime)) ;; copyout pt addr1 scratch 4) ;;
  if c <? 0 then ret (-1) else
  c <- km (kmodify (store_le 4 scratch (u32 rtime)) ;; copyout pt addr2 scratch 4) ;;
  if c <? 0 then ret (-1) else
  ret r.1.

(** ** The table of handlers and the dispatcher *)

Definition syscalls (fuel : nat) (num : Z) : option (M (kst F) Z) :=
  if num =? SYS_fork then Some sys_fork
  else if num =? SYS_exit then Some sys_exit
  else if num =? SYS_wait then Some (sys_wait fuel)
  else if num =? SYS_kill then Some sys_kill
  else if num =? SYS_getpid then Some sys_getpid
  else if num =? SYS_sbrk then Some sys_sbrk
  else if num =? SYS_sleep then Some (sys_sleep fuel)
  else if num =? SYS_uptime then Some sys_uptime
  else if num =? SYS_trace then Some sys_trace
  else if num =? SYS_set_priority then Some sys_set_priority
  else if num =? SYS_waitx then Some (sys_waitx fuel)
  else if (0 <? num) && (num <? 25) then file_syscall num
  else None.

(** The line printed for a traced call. *)
Definition trace_line (num a : Z) : M (kst F) unit :=
  match znth syscall_names (num - 1) with
  | None => fail EUndef
  | Some name =>
      printk "syscall %s (" [AStr (Some (bytes_of_string name))] ;;
      cnt <- aget syscall_argcnt (num - 1) ;;
      when (0 <? cnt) (printk "%d " [AInt a]) ;;
      for_each (seq 1 (Z.to_nat cnt - 1)) (fun i => n <- argint (Z.of_nat i) ;; printk "%d " [AInt n])
  end.

Definition syscall (fuel : nat) : M (kst F) unit :=
  p <- curproc ;;
  tf <- pget p p_trapframe ;;
  a7 <- km (kload (tf + tf_a7)) ;;
  let num := i32 a7 in
  cnt <- aget syscall_argcnt (num - 1) ;;
  a <- (if 0 <? cnt then argint 0 else ret junk) ;;
  match (if (0 <? num) && (num <? 25) then syscalls fuel num else None) with
  | Some handler =>
      r <- handler ;;
      tf <- pget p p_trapframe ;;
      km (kstore (tf + tf_a0) (u64 r)) ;;
      q <- curproc ;;
      mask <- pget q p_trace_mask ;;
      when (Z.testbit mask num)
        (trace_line num a ;;
         tf <- pget p p_trapframe ;;
         a0 <- km (kload (tf + tf_a0)) ;;
         printk (String (Ascii.ascii_of_nat 8) (") -> %d" ++ nl)) [AInt (i32 a0)])
  | None =>
      pid <- pget p p_pid ;;
      name <- pget p p_name ;;
      printk ("%d %s: unknown sys call %d" ++ nl) [AInt pid; AStr (Some (bytes_of_string name)); AInt num] ;;
      km (kstore (tf + tf_a0) (u64 (-1)))
  end.

(** ** Lemmas *)

Implicit Types s : kst F.

(** The current process and what its trapframe holds. *)
Definition saved_reg (p : nat) (off : Z) s : Z := ld64 (p_trapframe (getproc s p) + off) (k_mem (ks_km s)).

Lemma argraw_eq s p n : cpu_ok (lget cpul s) -> c_proc (lget cpul s) = Some p -> 0 <= n <= 5 ->
  argraw n s = Ret (saved_reg p (tf_a0 + 8 * n) s) (settle s).
Proof.
  intros Hc Hp Hn. unfold argraw. erewrite bind_ret by (by apply curproc_eq). erewrite bind_ret by done.
  replace ((0 <=? n) && (n <=? 5)) with true by zcase.
  unfold km, zoom, kload, gets. cbn. unfold saved_reg. by rewrite Z.add_assoc.
Qed.

Lemma argint_eq s p n : cpu_ok (lget cpul s) -> c_proc (lget cpul s) = Some p -> 0 <= n <= 5 ->
  argint n s = Ret (i32 (saved_reg p (tf_a0 + 8 * n) s)) (settle s).
Proof. intros Hc Hp Hn. unfold argint. by erewrite bind_ret by (by apply argraw_eq). Qed.

Lemma settle_cpu_ok s : cpu_ok (lget cpul s) -> cpu_ok (lget cpul (settle s)).
Proof. apply touched_ok. Qed.

Lemma settle_cproc s : c_proc (lget cpul (settle s)) = c_proc (lget cpul s).
Proof. apply touched_proc. Qed.

Lemma for_first_pure {A} (body : nat -> M (kst F) (option A)) (P : proc -> Prop)
    `{!forall p, Decision (P p)} (hit : nat -> A * kst F) s :
  (forall i, (i < length (ks_procs s))%nat -> body i s =
    if decide (P (getproc s i)) then Ret (Some (hit i).1) (hit i).2 else Ret None s) ->
  for_first (seq 0 (length (ks_procs s))) body s =
  match list_find P (ks_procs s) with
  | Some (i, _) => Ret (Some (hit i).1) (hit i).2
  | None => Ret None s
  end.
Proof.
  intros Hb.
  assert (forall n k, (k + n)%nat = length (ks_procs s) -> for_first (seq k n) body s =
    match list_find P (drop k (ks_procs s)) with
    | Some (i, _) => Ret (Some (hit (k + i)%nat).1) (hit (k + i)%nat).2
    | None => Ret None s
    end) as Hgen.
  { induction n as [|n IH]; intros k Hk; simpl.
    - by rewrite drop_ge by lia.
    - unfold bind. rewrite Hb by lia. destruct (lookup_lt_is_Some_2 (ks_procs s) k) as [p Ep]; [lia|].
      rewrite (drop_S _ _ _ Ep). unfold getproc. rewrite Ep. simpl.
      case_decide; simpl; [by rewrite Nat.add_0_r|]. rewrite IH by lia.
      destruct (list_find P (drop (S k) (ks_procs s))) as [[i q]|]; simpl; [|done].
      by replace (k + S i)%nat with (S (k + i)) by lia. }
  rewrite (Hgen _ 0%nat) by done. by destruct (list_find _ _) as [[]|].
Qed.

Definition set_prio (priority : Z) (q : proc) : proc :=
  q <| p_staticPriority := u32 priority |> <| p_niceness := 5 |>.

Lemma setpriority_eq pid priority s : length (ks_procs s) = NPROC ->
  _setpriority pid priority s =
  match list_find (fun q => p_pid q = pid) (ks_procs s) with
  | Some (i, _) => Ret (i32 (p_staticPriority (getproc s i))) (upd i (set_prio priority) s)
  | None => Ret 0 s
  end.
Proof.
  intros Hl. unfold _setpriority, bind at 1. rewrite <- Hl at 1.
  rewrite (for_first_pure _ (fun q => p_pid q = pid)
    (fun i => (i32 (p_staticPriority (getproc s i)), upd i (set_prio priority) s))).
  - by destruct (list_find _ _) as [[]|].
  - intros i Hi. erewrite bind_ret by done.
    destruct (Z.eqb_spec (p_pid (getproc s i)) pid); [rewrite decide_True by done|by rewrite decide_False].
    erewrite bind_ret by done. erewrite bind_ret by done. erewrite bind_ret by done.
    unfold ret. do 2 f_equal. cbn [snd]. apply (upd_upd i (fun q => q <| p_niceness := 5 |>)
      (fun q => q <| p_staticPriority := u32 priority |>) s Hi).
Qed.
End Syscall.

(** ** Properties *)

(** C24: the dispatcher indexes syscall_argcnt before it looks at the number.
    The table has 23 entries: for every number outside 1 .. 23, whether it is a
    call nobody defined or SYS_waitx, which is 24, the access is out of the
    array's bounds before anything else happens. *)
Theorem syscall_index_unchecked {F : Type} `{!FileOps F} `{!Switch F} `{!FileSyscalls F} `{!Printk F}
  (kend trampoline forkret_addr : Z) (xstate_addr : nat -> Z) (proc_addr : option nat -> Z)
  (scratch ticks_addr junk : Z) (fuel : nat) (s : kst F) (p : nat)
  (Hc : cpu_ok (lget cpul s)) (Hp : c_proc (lget cpul s) = Some p)
  (Hnum : i32 (saved_reg p tf_a7 s) < 1 \/ SYS_set_priority < i32 (saved_reg p tf_a7 s)) :
  syscall kend trampoline forkret_addr xstate_addr proc_addr scratch ticks_addr junk fuel s = Fail EUndef.
Proof.
  unfold syscall. erewrite bind_ret by (by apply curproc_eq). erewrite bind_ret by done.
  erewrite bind_ret by done. unfold bind at 1, aget.
  change (ld64 _ _) with (saved_reg p tf_a7 s).
  assert (znth syscall_argcnt (i32 (saved_reg p tf_a7 s) - 1) = None) as ->; [|done].
  apply znth_none. unfold SYS_set_priority in Hnum. simpl. lia.
Qed.

#[export] Instance wit_fileops : FileOps unit :=
  Build_FileOps unit (fun f => ret f) (fun _ => ret tt) (fun i => ret i) (fun _ => ret tt) (ret tt) (ret tt) (fun _ => ret None).
Definition wit_filesys : FileSyscalls unit := fun _ => None.
Definition wit_printk : Printk unit := fun _ _ => ret tt.

(** The running process of [wit_kst], with a trapframe that asks for waitx(). *)
Definition wit_trap : kst unit :=
  setproc 2 ((getproc wit_kst 2) <| p_trapframe := 0x80300000 |>)
    (wit_kst <| ks_km := (ks_km wit_kst) <| k_mem := st64 (0x80300000 + tf_a7) SYS_waitx ∅ |> |>).

Lemma syscall_index_unchecked_witness :
  i32 (saved_reg 2 tf_a7 wit_trap) = SYS_waitx /\
  syscall (Switch0 := wit_switch) (FileSyscalls0 := wit_filesys) (Printk0 := wit_printk)
    0x80021000 0 0 (fun _ => 0) wit_addr 0 0 0 10 wit_trap = Fail EUndef.
Proof.
  split; [by vm_compute|].
  apply (syscall_index_unchecked (Switch0 := wit_switch) (FileSyscalls0 := wit_filesys) (Printk0 := wit_printk)
    _ _ _ _ _ _ _ _ _ wit_trap 2); [by split|done|right; by vm_compute].
Defined.

(** Set_priority(priority, pid) as the user calls it.  The kernel looks
    for a process whose *pid* is the first argument, the priority, and gives it
    the second argument, the pid, as static priority: the process named by the
    caller is not touched unless the two numbers agree, and when no process has
    the priority for its pid the call reports 0 and does nothing. *)
Theorem set_priority_swapped {F : Type} (s : kst F) (p : nat)
  (Hok : kst_ok s) (Hp : c_proc (lget cpul s) = Some p) :
  let prio := i32 (saved_reg p tf_a0 s) in
  let pid := i32 (saved_reg p tf_a1 s) in
  sys_set_priority s =
  match list_find (fun q => p_pid q = prio) (ks_procs s) with
  | Some (i, _) => Ret (i32 (p_staticPriority (getproc s i))) (settle (upd i (set_prio pid) s))
  | None => Ret 0 (settle s)
  end.
Proof.
  cbv zeta. unfold sys_set_priority.
  erewrite bind_ret by (apply (argint_eq s p 0); [apply Hok|done|lia]).
  erewrite bind_ret by (apply (argint_eq (settle s) p 1); [apply touched_ok, Hok|by rewrite settle_cproc|lia]).
  rewrite settle_settle, setpriority_eq by apply Hok.
  change (saved_reg p (tf_a0 + 8 * 0) s) with (saved_reg p tf_a0 s).
  change (saved_reg p (tf_a0 + 8 * 1) (settle s)) with (saved_reg p tf_a1 s).
  change (ks_procs (settle s)) with (ks_procs s).
  by destruct (list_find _ _) as [[i q]|].
Qed.

Lemma set_priority_swapped_witness :
  let prio := i32 (saved_reg 2 tf_a0 wit_trap) in
  let pid := i32 (saved_reg 2 tf_a1 wit_trap) in
  sys_set_priority wit_trap =
  match list_find (fun q => p_pid q = prio) (ks_procs wit_trap) with
  | Some (i, _) => Ret (i32 (p_staticPriority (getproc wit_trap i))) (settle (upd i (set_prio pid) wit_trap))
  | None => Ret 0 (settle wit_trap)
  end.
Proof.
  apply set_priority_swapped; [|done]. apply kst_ok_intro; [by split|done|].
  repeat first [apply Forall_nil_2 | apply Forall_cons_2; [done|]].
Defined.
