(* ===== verification/Trap.v ===== *)
(** * Trap: interrupts, exceptions and the way back to user space

    Models kernel/trap.c and kernel/plic.c.  The supervisor registers other
    than sstatus, and the PLIC's memory, are hardware: the class [Hart].
    [sched_kind] is the scheduler the kernel was built with. *)
From S2P Require Import Prelude Spinlock ProcQueue Mem Kalloc Vm KState Proc Sched Syscall.

Inductive sched_kind : Type := DEFAULT_SCHEDULER | FCFS | PBS | MLFQ.
#[export] Instance sched_kind_eq_dec : EqDecision sched_kind.
Proof. solve_decision. Defined.

Definition SSTATUS_SPP : Z := Z.shiftl 1 8.
Definition SSTATUS_SPIE : Z := Z.shiftl 1 5.
Definition UART0_IRQ : Z := 10.
Definition VIRTIO0_IRQ : Z := 1.

Definition PLIC_SENABLE (hart : Z) : Z := PLIC + 0x2080 + hart * 0x100.
Definition PLIC_SPRIORITY (hart : Z) : Z := PLIC + 0x201000 + hart * 0x2000.
Definition PLIC_SCLAIM (hart : Z) : Z := PLIC + 0x201004 + hart * 0x2000.

(** Registers of this hart, 32-bit device registers, the two device drivers,
    and the jump to the trampoline. *)
Class Hart (F : Type) := {
  r_scause : M (kst F) Z;
  r_sepc : M (kst F) Z;
  r_stval : M (kst F) Z;
  r_satp : M (kst F) Z;
  r_sip : M (kst F) Z;
  w_sepc : Z -> M (kst F) unit;
  w_stvec : Z -> M (kst F) unit;
  w_sip : Z -> M (kst F) unit;
  io_read : Z -> M (kst F) Z;
  io_write : Z -> Z -> M (kst F) unit;
  uartintr : M (kst F) unit;
  virtio_disk_intr : M (kst F) unit;
  userret : Z -> Z -> M (kst F) unit;
}.

Section Trap.
Context {F : Type} `{!FileOps F} `{!Switch F} `{!FileSyscalls F} `{!Printk F} `{!Hart F}.
Context (kind : sched_kind).
Context (kend trampoline forkret_addr : Z) (xstate_addr : nat -> Z) (proc_addr : option nat -> Z).
Context (scratch ticks_addr junk : Z).

(** Addresses of kernelvec, usertrap, and of uservec and userret in the
    trampoline page. *)
Context (kernelvec usertrap_addr uservec userret_addr : Z).

(** ** kernel/plic.c *)

Definition hartid : M (kst F) Z := id <- cpuid ;; ret (Z.of_nat id).

Definition plicinit : M (kst F) unit :=
  io_write (PLIC + UART0_IRQ * 4) 1 ;;
  io_write (PLIC + VIRTIO0_IRQ * 4) 1.

Definition plicinithart : M (kst F) unit :=
  hart <- hartid ;;
  io_write (PLIC_SENABLE hart) (Z.lor (Z.shiftl 1 UART0_IRQ) (Z.shiftl 1 VIRTIO0_IRQ)) ;;
  io_write (PLIC_SPRIORITY hart) 0.

Definition plic_claim : M (kst F) Z :=
  hart <- hartid ;;
  irq <- io_read (PLIC_SCLAIM hart) ;;
  ret (i32 irq).

Definition plic_complete (irq : Z) : M (kst F) unit :=
  hart <- hartid ;;
  io_write (PLIC_SCLAIM hart) (u32 irq).

(** ** Timer and device interrupts *)

Definition trapinit : M (kst F) unit := modify (fun s => s <| ks_tickslock := initlock "time" |>).

Definition trapinithart : M (kst F) unit := w_stvec kernelvec.

Definition clockintr : M (kst F) unit :=
  acquire cpul tickslockl ;;
  modify (fun s => s <| ks_ticks := u32 (ks_ticks s + 1) |>) ;;
  RunningTime ;;
  wakeup ticks_addr ;;
  release cpul tickslockl.

Definition devintr : M (kst F) Z :=
  scause <- r_scause ;;
  if negb (Z.land scause 0x8000000000000000 =? 0) && (Z.land scause 0xff =? 9) then
    irq <- plic_claim ;;
    (if irq =? UART0_IRQ then uartintr
     else if irq =? VIRTIO0_IRQ then virtio_disk_intr
     else when (negb (irq =? 0)) (printk ("unexpected interrupt irq=%d" ++ nl) [AInt irq])) ;;
    when (negb (irq =? 0)) (plic_complete irq) ;;
    ret 1
  else if scause =? 0x8000000000000001 then
    id <- cpuid ;;
    when (Nat.eqb id 0) clockintr ;;
    sip <- r_sip ;;
    w_sip (Z.ldiff sip 2) ;;
    ret 2
  else ret 0.

(** ** From user space and back *)

Definition usertrapret : M (kst F) unit :=
  p <- curproc ;;
  zoom cpul intr_off ;;
  w_stvec (TRAMPOLINE + (uservec - trampoline)) ;;
  tf <- pget p p_trapframe ;;
  satp <- r_satp ;;
  km (kstore (tf + 0) satp) ;;
  kstack <- pget p p_kstack ;;
  km (kstore (tf + 8) (kstack + PGSIZE)) ;;
  km (kstore (tf + 16) usertrap_addr) ;;
  hart <- hartid ;;
  km (kstore (tf + 32) hart) ;;
  modify (fun s => lset cpul ((lget cpul s) <| c_sstatus :=
    Z.lor (Z.ldiff (c_sstatus (lget cpul s)) SSTATUS_SPP) SSTATUS_SPIE |>) s) ;;
  epc <- km (kload (tf + tf_epc)) ;;
  w_sepc epc ;;
  pt <- pget p p_pagetable ;;
  userret TRAPFRAME (MAKE_SATP pt).

Definition exit_if_killed (p : nat) : M (kst F) unit :=
  k <- pget p p_killed ;;
  when (negb (k =? 0)) (exit proc_addr (-1)).

Definition usertrap (fuel : nat) : M (kst F) unit :=
  sstatus <- gets (fun s => c_sstatus (lget cpul s)) ;;
  if negb (Z.land sstatus SSTATUS_SPP =? 0) then panic "usertrap: not from user mode" else
  w_stvec kernelvec ;;
  p <- curproc ;;
  tf <- pget p p_trapframe ;;
  sepc <- r_sepc ;;
  km (kstore (tf + tf_epc) sepc) ;;
  scause <- r_scause ;;
  which_dev <-
    (if scause =? 8 then
       exit_if_killed p ;;
       epc <- km (kload (tf + tf_epc)) ;;
       km (kstore (tf + tf_epc) (u64 (epc + 4))) ;;
       zoom cpul intr_on ;;
       syscall kend trampoline forkret_addr xstate_addr proc_addr scratch ticks_addr junk fuel ;;
       ret 0
     else
       d <- devintr ;;
       when (d =? 0)
         (pid <- pget p p_pid ;;
          printk ("usertrap(): unexpected scause %p pid=%d" ++ nl) [ALong scause; AInt pid] ;;
          sepc <- r_sepc ;;
          stval <- r_stval ;;
          printk ("            sepc=%p stval=%p" ++ nl) [ALong sepc; ALong stval] ;;
          pmod p (fun q => q <| p_killed := 1 |>)) ;;
       ret d) ;;
  exit_if_killed p ;;
  when (which_dev =? 2)
    match kind with
    | DEFAULT_SCHEDULER => yield
    | MLFQ => p1 <- curproc ;; mlfq_slice p1
    | _ => ret tt
    end ;;
  usertrapret.

(** A trap from kernel mode; the registers are those at its start. *)
Definition kerneltrap : M (kst F) unit :=
  sepc <- r_sepc ;;
  sstatus <- gets (fun s => c_sstatus (lget cpul s)) ;;
  scause <- r_scause ;;
  if Z.land sstatus SSTATUS_SPP =? 0 then panic "kerneltrap: not from supervisor mode" else
  on <- zoom cpul intr_get ;;
  if (on : bool) then panic "kerneltrap: interrupts enabled" else
  which_dev <- devintr ;;
  if which_dev =? 0 then
    printk ("scause %p" ++ nl) [ALong scause] ;;
    sepc <- r_sepc ;;
    stval <- r_stval ;;
    printk ("sepc=%p stval=%p" ++ nl) [ALong sepc; ALong stval] ;;
    panic "kerneltrap"
  else
  (if negb (which_dev =? 2) then ret tt else
   match kind with
   | DEFAULT_SCHEDULER | MLFQ =>
       me <- myproc ;;
       match me with
       | None => ret tt
       | Some p =>
           st <- pget p p_state ;;
           if decide (st = RUNNING)
           then match kind with MLFQ => mlfq_slice p | _ => yield end
           else ret tt
       end
   | _ => ret tt
   end) ;;
  w_sepc sepc ;;
  modify (fun s => lset cpul ((lget cpul s) <| c_sstatus := sstatus |>) s).
End Trap.
