(* ===== verification/Os.v ===== *)
(** * Os: what the file layer and the drivers ask of the process layer

    The class [OS] is the interface between kernel/proc.c and its clients:
    the CPU, sleep and wakeup, the current process, copies to and from user
    memory, pages.  [os_kst] discharges it with the definitions of [Proc].
    [solo] is the instance in which no other process runs, for the theorems
    about one caller at a time. *)
From S2P Require Import Prelude Spinlock ProcQueue Mem Kalloc Vm KState Proc.

Class OS (S : Type) := {
  os_cpu : lens S cpu;
  os_sleep : Z -> lens S spinlock -> M S unit;
  os_wakeup : Z -> M S unit;
  os_pid : M S Z;                            (* myproc()->pid *)
  os_killed : M S bool;                      (* myproc()->killed *)
  os_cwd : M S (option nat);                 (* myproc()->cwd *)
  (** either_copyout of the bytes given; either_copyin over a kernel object that
      held [old], which returns what the object holds then. *)
  os_copyout : bool -> Z -> list Z -> M S Z;
  os_copyin : bool -> Z -> list Z -> M S (Z * list Z);
  (** Objects on the kernel stack, by their address. *)
  os_kread : Z -> nat -> M S (list Z);
  os_kwrite : Z -> list Z -> M S unit;
  os_kalloc : M S Z;
  os_kfree : Z -> M S unit;
}.

(** Composition of lenses. *)
Definition lens_comp {S A B} (l : lens S A) (k : lens A B) : lens S B :=
  Lens (fun s => lget k (lget l s)) (fun b s => lset l (lset k b (lget l s)) s).

Definition lread {S A} (l : lens S A) : M S A := gets (lget l).
Definition lmod {S A} (l : lens S A) (f : A -> A) : M S unit := modify (fun s => lset l (f (lget l s)) s).

(** The bytes at [a] .. [a + n - 1]. *)
Definition bytes_at (a : Z) (n : nat) (m : mem) : list Z := (fun i => mget m (a + Z.of_nat i)) <$> seq 0 n.
Fixpoint put_bytes (a : Z) (l : list Z) (m : mem) : mem :=
  match l with [] => m | b :: l' => put_bytes (a + 1) l' (mset a b m) end.

Lemma bytes_at_S a n m : bytes_at a (S n) m = mget m a :: bytes_at (a + 1) n m.
Proof.
  unfold bytes_at. change (seq 0 (S n)) with (0%nat :: seq 1 n). cbn [fmap list_fmap].
  rewrite Z.add_0_r. f_equal. rewrite <- (fmap_S_seq 0), <- list_fmap_compose.
  apply list_fmap_ext. intros i x _. cbn. f_equal. lia.
Qed.

Lemma length_bytes_at a n m : length (bytes_at a n m) = n.
Proof. unfold bytes_at. by rewrite length_fmap, length_seq. Qed.

(** [buf] is where the caller's buffer lies in kernel memory. *)
#[export] Instance os_kst {F} `{!Switch F} (kend buf : Z) : OS (kst F) := {|
  os_cpu := cpul;
  os_sleep := sleep;
  os_wakeup := wakeup;
  os_pid := (p <- curproc ;; pget p p_pid);
  os_killed := (p <- curproc ;; k <- pget p p_killed ;; ret (negb (k =? 0)));
  os_copyout := fun user dst l =>
    km (kmodify (put_bytes buf l)) ;; either_copyout user dst buf (Z.of_nat (length l));
  os_cwd := (p <- curproc ;; pget p p_cwd);
  os_copyin := fun user src old =>
    km (kmodify (put_bytes buf old)) ;;
    r <- either_copyin buf user src (Z.of_nat (length old)) ;;
    s <- get ;;
    ret (r, bytes_at buf (length old) (k_mem (ks_km s)));
  os_kread := fun a n => gets (fun s => bytes_at a n (k_mem (ks_km s)));
  os_kwrite := fun a l => km (kmodify (put_bytes a l));
  os_kalloc := km kalloc;
  os_kfree := fun pa => km (kfree kend pa);
|}.

(** One process alone, with a component state [A]: user memory is a function of
    the address; sleeping would never end. *)
Record solo (A : Type) : Type := mksolo {
  so_cpu : cpu;
  so_pid : Z;
  so_killed : bool;
  so_user : mem;
  so_comp : A;
}.
Arguments mksolo {A}.
Arguments so_cpu {A}.
Arguments so_pid {A}.
Arguments so_killed {A}.
Arguments so_user {A}.
Arguments so_comp {A}.
#[export] Instance eta_solo A : Settable (solo A) :=
  fun s => mksolo (so_cpu s) (so_pid s) (so_killed s) (so_user s) (so_comp s).

Definition solo_cpul {A} : lens (solo A) cpu := field so_cpu.
Definition solo_compl {A} : lens (solo A) A := field so_comp.

#[export] Instance os_solo A : OS (solo A) := {|
  os_cpu := solo_cpul;
  os_sleep := fun _ _ => fail EHang;
  os_wakeup := fun _ => ret tt;
  os_pid := gets so_pid;
  os_killed := gets so_killed;
  os_copyout := fun _ dst l => modify (fun s => s <| so_user := put_bytes dst l (so_user s) |>) ;; ret 0;
  os_cwd := ret None;
  os_copyin := fun _ src old => s <- get ;; ret (0, bytes_at src (length old) (so_user s));
  os_kread := fun a n => gets (fun s => bytes_at a n (so_user s));
  os_kwrite := fun a l => modify (fun s => s <| so_user := put_bytes a l (so_user s) |>);
  os_kalloc := ret 0;
  os_kfree := fun _ => ret tt;
|}.
