(* ===== verification/Sleeplock.v ===== *)
(** * Sleeplock: long-term locks

    Models kernel/sleeplock.c over the interface [OS]. *)
From S2P Require Import Prelude Spinlock Mem Os.

Record sleeplock : Type := mksleeplock {
  sl_locked : bool;            (* Is the lock held? *)
  sl_lk : spinlock;            (* spinlock protecting this sleep lock *)
  sl_name : string;
  sl_pid : Z;                  (* Process holding lock *)
}.
#[export] Instance eta_sleeplock : Settable sleeplock :=
  fun l => mksleeplock (sl_locked l) (sl_lk l) (sl_name l) (sl_pid l).

Definition initsleeplock (name : string) : sleeplock := mksleeplock false (initlock "sleep lock") name 0.

Section Sleeplock.
Context {S : Type} `{!OS S}.

(** [chan] is the address of the lock. *)
Definition inner (l : lens S sleeplock) : lens S spinlock := lens_comp l (field sl_lk).

(** while (lk->locked) sleep(lk, &lk->lk); *)
Fixpoint sleep_while_locked (fuel : nat) (chan : Z) (l : lens S sleeplock) : M S unit :=
  match fuel with
  | O => fail EHang
  | Datatypes.S f =>
      lk <- lread l ;;
      if sl_locked lk then os_sleep chan (inner l) ;; sleep_while_locked f chan l else ret tt
  end.

Definition acquiresleep (fuel : nat) (chan : Z) (l : lens S sleeplock) : M S unit :=
  acquire os_cpu (inner l) ;;
  sleep_while_locked fuel chan l ;;
  lmod l (fun lk => lk <| sl_locked := true |>) ;;
  pid <- os_pid ;;
  lmod l (fun lk => lk <| sl_pid := pid |>) ;;
  release os_cpu (inner l).

Definition releasesleep (chan : Z) (l : lens S sleeplock) : M S unit :=
  acquire os_cpu (inner l) ;;
  lmod l (fun lk => lk <| sl_locked := false |>) ;;
  lmod l (fun lk => lk <| sl_pid := 0 |>) ;;
  os_wakeup chan ;;
  release os_cpu (inner l).

Definition holdingsleep (l : lens S sleeplock) : M S bool :=
  acquire os_cpu (inner l) ;;
  lk <- lread l ;;
  pid <- os_pid ;;
  release os_cpu (inner l) ;;
  ret (sl_locked lk && (sl_pid lk =? pid)).
End Sleeplock.
