(* ===== verification/Pipe.v ===== *)
(** * Pipe: the pipe buffer

    Models kernel/pipe.c over the interface [OS]; pipealloc, which builds two
    struct file around a pipe, is in [File]. *)
From S2P Require Import Prelude Ring Spinlock ProcQueue Mem Os.

Definition PIPESIZE : Z := 512.

Record pipe : Type := mkpipe {
  pi_lock : spinlock;
  pi_data : list Z;            (* char data[PIPESIZE] *)
  pi_nread : Z;                (* number of bytes read *)
  pi_nwrite : Z;               (* number of bytes written *)
  pi_readopen : bool;          (* read fd is still open *)
  pi_writeopen : bool;         (* write fd is still open *)
}.
#[export] Instance eta_pipe : Settable pipe := fun p =>
  mkpipe (pi_lock p) (pi_data p) (pi_nread p) (pi_nwrite p) (pi_readopen p) (pi_writeopen p).

(** The assignments of pipealloc(). *)
Definition new_pipe (data : list Z) : pipe := mkpipe (initlock "pipe") data 0 0 true true.

Section Pipe.
Context {S : Type} `{!OS S}.

(** The pipe at address [pi]; the channels are the addresses of its counters. *)
Context (pi : Z) (pl : lens S pipe).

Definition nread_chan : Z := pi + 536.
Definition nwrite_chan : Z := pi + 540.
Definition pipelock : lens S spinlock := lens_comp pl (field pi_lock).

Definition pipeclose (writable : bool) : M S unit :=
  acquire os_cpu pipelock ;;
  (if writable
   then lmod pl (fun p => p <| pi_writeopen := false |>) ;; os_wakeup nread_chan
   else lmod pl (fun p => p <| pi_readopen := false |>) ;; os_wakeup nwrite_chan) ;;
  p <- lread pl ;;
  if negb (pi_readopen p) && negb (pi_writeopen p)
  then release os_cpu pipelock ;; os_kfree pi
  else release os_cpu pipelock.

(** pi->data[pi->nwrite++ % PIPESIZE] = ch *)
Definition put_char (ch : Z) : M S unit :=
  p <- lread pl ;;
  d <- aset (pi_data p) (pi_nwrite p mod PIPESIZE) ch ;;
  lmod pl (fun p => p <| pi_nwrite := u32 (pi_nwrite p + 1) |> <| pi_data := d |>).

(** ch = pi->data[pi->nread++ % PIPESIZE] *)
Definition get_char : M S Z :=
  p <- lread pl ;;
  ch <- aget (pi_data p) (pi_nread p mod PIPESIZE) ;;
  lmod pl (fun p => p <| pi_nread := u32 (pi_nread p + 1) |>) ;;
  ret ch.

Definition write_done (i : Z) : M S Z :=
  os_wakeup nread_chan ;;
  release os_cpu pipelock ;;
  ret i.

(** while(i < n) of [pipewrite] *)
Fixpoint write_loop (fuel : nat) (addr n i : Z) : M S Z :=
  match fuel with
  | O => fail EHang
  | Datatypes.S f =>
      if negb (i <? n) then write_done i else
      p <- lread pl ;;
      k <- os_killed ;;
      if negb (pi_readopen p) || k then release os_cpu pipelock ;; ret (-1) else
      if pi_nwrite p =? u32 (pi_nread p + PIPESIZE) then
        os_wakeup nread_chan ;;
        os_sleep nwrite_chan pipelock ;;
        write_loop f addr n i
      else
        r <- os_copyin true (u64 (addr + i)) [0] ;;
        if r.1 =? -1 then write_done i else
        put_char (nth 0 r.2 0) ;;
        write_loop f addr n (i + 1)
  end.

Definition pipewrite (fuel : nat) (addr n : Z) : M S Z :=
  acquire os_cpu pipelock ;;
  write_loop fuel addr n 0.

(** while(pi->nread == pi->nwrite && pi->writeopen): false when killed. *)
Fixpoint read_wait (fuel : nat) : M S bool :=
  match fuel with
  | O => fail EHang
  | Datatypes.S f =>
      p <- lread pl ;;
      if (pi_nread p =? pi_nwrite p) && pi_writeopen p then
        k <- os_killed ;;
        if k : bool then ret false
        else os_sleep nread_chan pipelock ;; read_wait f
      else ret true
  end.

(** for(i = 0; i < n; i++) of [piperead]; [k] iterations are left. *)
Fixpoint read_loop (k : nat) (addr i : Z) : M S Z :=
  match k with
  | O => ret i
  | Datatypes.S k' =>
      p <- lread pl ;;
      if pi_nread p =? pi_nwrite p then ret i else
      ch <- get_char ;;
      r <- os_copyout true (u64 (addr + i)) [ch] ;;
      if r =? -1 then ret i else read_loop k' addr (i + 1)
  end.

Definition piperead (fuel : nat) (addr n : Z) : M S Z :=
  acquire os_cpu pipelock ;;
  ok <- read_wait fuel ;;
  if negb ok then release os_cpu pipelock ;; ret (-1) else
  i <- read_loop (Z.to_nat n) addr 0 ;;
  os_wakeup nwrite_chan ;;
  release os_cpu pipelock ;;
  ret i.
End Pipe.

(** ** Specification: a queue of bytes *)

Definition pipe_count (p : pipe) : Z := u32 (pi_nwrite p - pi_nread p).

(** The bytes in the pipe, oldest first. *)
Definition pipe_items (p : pipe) : list Z :=
  ring_items PIPESIZE (pi_data p) (pi_nread p) (Z.to_nat (pipe_count p)).

(** The counters run modulo 2^32; only their difference is bounded. *)
Record pipe_wf (p : pipe) : Prop := {
  pw_data : length (pi_data p) = Z.to_nat PIPESIZE;
  pw_nread : 0 <= pi_nread p < 2 ^ 32;
  pw_nwrite : 0 <= pi_nwrite p < 2 ^ 32;
  pw_count : pipe_count p <= PIPESIZE;
}.

(** ** Lemmas *)

Lemma length_items p : length (pipe_items p) = Z.to_nat (pipe_count p).
Proof. apply length_ring_items. Qed.

Lemma count_range p : 0 <= pipe_count p < 2 ^ 32.
Proof. apply Z.mod_pos_bound. lia. Qed.

Lemma full_iff p : pipe_wf p -> pi_nwrite p = u32 (pi_nread p + PIPESIZE) <-> pipe_count p = PIPESIZE.
Proof. intros [_ Hr Hw _]. unfold pipe_count, u32, PIPESIZE. split; intros; zmod. Qed.

Lemma empty_iff p : pipe_wf p -> pi_nread p = pi_nwrite p <-> pipe_count p = 0.
Proof. intros [_ Hr Hw _]. unfold pipe_count, u32. split; intros; zmod. Qed.

Definition pushed_char (ch : Z) (p : pipe) : pipe :=
  p <| pi_nwrite := u32 (pi_nwrite p + 1) |>
    <| pi_data := <[Z.to_nat (pi_nwrite p mod PIPESIZE) := ch]> (pi_data p) |>.
Definition popped_char (p : pipe) : pipe := p <| pi_nread := u32 (pi_nread p + 1) |>.

Lemma pushed_count ch p : pipe_wf p -> pipe_count p < PIPESIZE -> pipe_count (pushed_char ch p) = pipe_count p + 1.
Proof. intros [_ Hr Hw _]. unfold pipe_count, pushed_char, u32, PIPESIZE. cbn. intros. zmod. Qed.

Lemma popped_count p : pipe_wf p -> 0 < pipe_count p -> pipe_count (popped_char p) = pipe_count p - 1.
Proof. intros [_ Hr Hw _]. unfold pipe_count, popped_char, u32. cbn. intros. zmod. Qed.

Lemma pushed_wf ch p : pipe_wf p -> pipe_count p < PIPESIZE -> pipe_wf (pushed_char ch p).
Proof.
  intros H Hc. pose proof (pushed_count ch p H Hc). destruct H as [Hd Hr Hw _]. constructor; cbn.
  - by rewrite length_insert.
  - done.
  - apply Z.mod_pos_bound. lia.
  - lia.
Qed.

Lemma popped_wf p : pipe_wf p -> 0 < pipe_count p -> pipe_wf (popped_char p).
Proof.
  intros H Hc. pose proof (popped_count p H Hc). destruct H as [Hd Hr Hw Hp]. constructor; cbn; try done.
  - apply Z.mod_pos_bound. lia.
  - lia.
Qed.

(** 2^32 is a multiple of the ring size, so wrapping a counter keeps its slot. *)
Lemma slot_u32 x : u32 x mod PIPESIZE = x mod PIPESIZE.
Proof. unfold u32, PIPESIZE. zmod. Qed.

Lemma pushed_items ch p : pipe_wf p -> pipe_count p < PIPESIZE ->
  pipe_items (pushed_char ch p) = pipe_items p ++ [ch].
Proof.
  intros H Hc. pose proof (count_range p) as Hr0. unfold pipe_items. rewrite pushed_count by done.
  replace (Z.to_nat (pipe_count p + 1)) with (S (Z.to_nat (pipe_count p))) by lia. destruct H as [Hd Hr Hw _].
  assert (pi_nwrite p mod PIPESIZE = (pi_nread p + Z.of_nat (Z.to_nat (pipe_count p))) mod PIPESIZE) as Es.
  { rewrite Z2Nat.id by lia. unfold pipe_count, u32, PIPESIZE. zmod. }
  cbn [pushed_char pi_nread pi_data set_field]. rewrite Es. apply ring_items_push; [done|done|lia].
Qed.

Lemma popped_items p : pipe_wf p -> 0 < pipe_count p ->
  pipe_items p = nth (Z.to_nat (pi_nread p mod PIPESIZE)) (pi_data p) 0 :: pipe_items (popped_char p).
Proof.
  intros H Hc. unfold pipe_items. rewrite popped_count by done.
  replace (Z.to_nat (pipe_count p)) with (S (Z.to_nat (pipe_count p - 1))) by lia.
  rewrite ring_items_S. f_equal. apply ring_items_mod. cbn [popped_char pi_nread set_field]. by rewrite slot_u32.
Qed.

Section Solo.
Notation st := (solo pipe).
Context (pi : Z).

Definition on_pipe (f : pipe -> pipe) (s : st) : st := s <| so_comp := f (so_comp s) |>.

Lemma put_char_eq ch (s : st) : pipe_wf (so_comp s) ->
  put_char solo_compl ch s = Ret tt (on_pipe (pushed_char ch) s).
Proof.
  intros [Hd _ _ _]. unfold put_char. erewrite bind_ret by done. cbn [lget solo_compl field].
  erewrite bind_ret.
  2: { apply aset_ok. rewrite Hd. unfold PIPESIZE. zmod. }
  done.
Qed.

Lemma get_char_eq (s : st) : pipe_wf (so_comp s) ->
  get_char solo_compl s =
  Ret (nth (Z.to_nat (pi_nread (so_comp s) mod PIPESIZE)) (pi_data (so_comp s)) 0) (on_pipe popped_char s).
Proof.
  intros [Hd _ _ _]. unfold get_char. erewrite bind_ret by done. cbn [lget solo_compl field].
  destruct (lookup_lt_is_Some_2 (pi_data (so_comp s)) (Z.to_nat (pi_nread (so_comp s) mod PIPESIZE))) as [c Hc].
  { rewrite Hd. unfold PIPESIZE. zmod. }
  erewrite bind_ret.
  2: { apply aget_ok. unfold znth. replace (_ <? 0) with false; [exact Hc|].
       symmetry. apply Z.ltb_ge. unfold PIPESIZE. zmod. }
  by rewrite (nth_lookup_Some _ _ _ _ Hc).
Qed.

(** The state after the bytes [l] went in. *)
Fixpoint pushed_all (l : list Z) (s : st) : st :=
  match l with [] => s | c :: l' => pushed_all l' (on_pipe (pushed_char c) s) end.

Lemma write_loop_eq fuel addr n i (s : st) :
  pipe_wf (so_comp s) -> pi_readopen (so_comp s) = true -> so_killed s = false ->
  0 <= addr -> 0 <= i <= n -> addr + n < 2 ^ 64 -> pipe_count (so_comp s) + (n - i) <= PIPESIZE ->
  (Z.to_nat (n - i) < fuel)%nat ->
  write_loop pi solo_compl fuel addr n i s =
  write_done pi solo_compl n (pushed_all (bytes_at (addr + i) (Z.to_nat (n - i)) (so_user s)) s).
Proof.
  revert i s. induction fuel as [|fuel IH]; intros i s Hwf Hro Hk Ha Hi Hm Hc Hf; [lia|]. cbn [write_loop].
  destruct (Z.ltb_spec i n); cbn [negb].
  2: { replace i with n by lia. by rewrite Z.sub_diag. }
  erewrite bind_ret by done. erewrite bind_ret by done. cbn [lget solo_compl field]. rewrite Hro, Hk. cbn [negb orb].
  destruct (Z.eqb_spec (pi_nwrite (so_comp s)) (u32 (pi_nread (so_comp s) + PIPESIZE))) as [E|_].
  { apply full_iff in E; [lia|done]. }
  erewrite bind_ret by (cbn [os_copyin os_solo]; by erewrite bind_ret by done). cbn [fst snd].
  change (0 =? -1) with false. cbv iota.
  assert (u64 (addr + i) = addr + i) as -> by (apply Z.mod_small; lia).
  erewrite bind_ret by (by apply put_char_eq).
  rewrite IH; cbn [on_pipe so_comp so_killed so_user set_field]; try done; try lia.
  - replace (Z.to_nat (n - i)) with (S (Z.to_nat (n - (i + 1)))) by lia.
    cbn [length]. rewrite !bytes_at_S. cbn [nth pushed_all].
    by replace (addr + i + 1) with (addr + (i + 1)) by lia.
  - apply pushed_wf; [done|lia].
  - rewrite pushed_count by (done || lia). lia.
Qed.

(** The pipe after the bytes [l] went in. *)
Definition pushes (l : list Z) (p : pipe) : pipe := foldl (fun p c => pushed_char c p) p l.

Lemma pushed_all_eq l (s : st) : pushed_all l s = on_pipe (pushes l) s.
Proof.
  revert s. induction l as [|c l IH]; intros s; simpl; [by destruct s|]. by rewrite IH.
Qed.

Lemma pushes_spec l p : pipe_wf p -> pipe_count p + Z.of_nat (length l) <= PIPESIZE ->
  pipe_wf (pushes l p) /\ pipe_items (pushes l p) = pipe_items p ++ l /\
  pipe_count (pushes l p) = pipe_count p + Z.of_nat (length l) /\
  pi_lock (pushes l p) = pi_lock p /\ pi_writeopen (pushes l p) = pi_writeopen p.
Proof.
  revert p. induction l as [|c l IH]; intros p H Hc; simpl in *.
  - rewrite app_nil_r. split_and!; [done|done|lia|done|done].
  - pose proof (pushed_count c p H ltac:(lia)).
    destruct (IH (pushed_char c p)) as (A & B & C & D & E); [apply pushed_wf; [done|lia]|lia|].
    rewrite B, pushed_items by (done || lia). rewrite <- app_assoc. split_and!; [done|done|lia|done|done].
Qed.

Lemma read_loop_eq k addr i (s : st) :
  pipe_wf (so_comp s) -> 0 <= addr -> 0 <= i -> addr + i + Z.of_nat k < 2 ^ 64 ->
  exists p', read_loop solo_compl k addr i s =
    Ret (i + Z.min (Z.of_nat k) (pipe_count (so_comp s)))
      (s <| so_comp := p' |>
         <| so_user := put_bytes (addr + i) (take k (pipe_items (so_comp s))) (so_user s) |>) /\
    pipe_wf p' /\ pipe_items p' = drop k (pipe_items (so_comp s)) /\ pi_lock p' = pi_lock (so_comp s).
Proof.
  revert i s. induction k as [|k IH]; intros i s H Ha Hi Hk; cbn [read_loop].
  - exists (so_comp s). pose proof (count_range (so_comp s)). rewrite Z.min_l, Z.add_0_r by lia.
    cbn [take put_bytes]. rewrite drop_0. split_and!; [by destruct s|done|done|done].
  - erewrite bind_ret by done. cbn [lget solo_compl field].
    destruct (Z.eqb_spec (pi_nread (so_comp s)) (pi_nwrite (so_comp s))) as [E|E].
    + apply empty_iff in E; [|done]. exists (so_comp s).
      assert (pipe_items (so_comp s) = []) as -> by (unfold pipe_items; by rewrite E).
      rewrite E, Z.min_r, Z.add_0_r by lia. split_and!; [by destruct s|done|done|done].
    + assert (0 < pipe_count (so_comp s)) as Hc.
      { pose proof (count_range (so_comp s)). destruct (Z.eq_dec (pipe_count (so_comp s)) 0) as [E0|]; [|lia].
        by apply empty_iff in E0. }
      erewrite bind_ret by (by apply get_char_eq).
      assert (u64 (addr + i) = addr + i) as -> by (apply Z.mod_small; lia).
      erewrite bind_ret by (cbn [os_copyout os_solo]; by erewrite bind_ret by done).
      change (0 =? -1) with false. cbv iota.
      match goal with |- context [read_loop _ _ _ _ ?t] => set (s1 := t) end.
      assert (so_comp s1 = popped_char (so_comp s)) as Es1 by done.
      destruct (IH (i + 1) s1) as (p' & E1 & W & I & L); [rewrite Es1; by apply popped_wf|lia|lia|lia|].
      exists p'. rewrite E1, Es1, popped_count by done. rewrite Es1 in I, L.
      rewrite (popped_items _ H Hc). cbn [take drop put_bytes].
      replace (i + 1 + Z.min (Z.of_nat k) (pipe_count (so_comp s) - 1))
        with (i + Z.min (Z.of_nat (S k)) (pipe_count (so_comp s))) by lia.
      replace (addr + i + 1) with (addr + (i + 1)) by lia.
      split_and!; [done|done|done|done].
Qed.

#[export] Instance pipe_cell : LockCell (fun _ : st => True) os_cpu (pipelock solo_compl).
Proof. by constructor. Qed.

Lemma pipewrite_eq fuel addr n (s : st) :
  cpu_ok (so_cpu s) -> lk_locked (pi_lock (so_comp s)) = false ->
  pipe_wf (so_comp s) -> pi_readopen (so_comp s) = true -> so_killed s = false ->
  0 <= addr -> 0 <= n -> addr + n < 2 ^ 64 -> pipe_count (so_comp s) + n <= PIPESIZE ->
  (Z.to_nat n < fuel)%nat ->
  exists p', pipewrite pi solo_compl fuel addr n s =
    Ret n (s <| so_cpu := touched (so_cpu s) |> <| so_comp := p' |>) /\
    pipe_wf p' /\ pipe_items p' = pipe_items (so_comp s) ++ bytes_at addr (Z.to_nat n) (so_user s) /\
    pipe_count p' = pipe_count (so_comp s) + n /\
    lk_locked (pi_lock p') = false /\ pi_writeopen p' = pi_writeopen (so_comp s).
Proof.
  intros Hc Hl Hwf Hro Hk Ha Hn Hm Hcnt Hf. unfold pipewrite.
  erewrite bind_ret by (by apply (acquire_free (D := fun _ => True))).
  set (p0 := (so_comp s) <| pi_lock := held_by (c_tp (so_cpu s)) (pi_lock (so_comp s)) |>).
  match goal with |- context [write_loop _ _ _ _ _ _ ?t] => set (s1 := t) end.
  assert (so_comp s1 = p0) as E1 by done.
  assert (pipe_wf p0) as W0 by (destruct Hwf; by constructor).
  rewrite write_loop_eq by (rewrite ?E1; try done; rewrite ?Z.sub_0_r; done || lia).
  rewrite Z.sub_0_r, Z.add_0_r, pushed_all_eq.
  destruct (pushes_spec (bytes_at addr (Z.to_nat n) (so_user s1)) p0) as (A & B & C & D & E);
    [done|rewrite length_bytes_at; change (pipe_count p0) with (pipe_count (so_comp s)); lia|].
  unfold write_done. erewrite bind_ret by done.
  change (so_user s1) with (so_user s) in *. set (p1 := pushes _ p0) in *.
  match goal with |- context [bind (release _ _) _ ?t] => assert (lget (pipelock solo_compl) t =
    held_by (c_tp (so_cpu s)) (pi_lock (so_comp s))) as El by exact D end.
  erewrite bind_ret by (apply (release_held (D := fun _ => True)) with (c := so_cpu s); by rewrite ?El).
  exists (p1 <| pi_lock := unheld (pi_lock p1) |>). rewrite length_bytes_at, Z2Nat.id in C by done.
  split_and!; [done| |done|done|done|done].
  destruct A. by constructor.
Qed.

Lemma piperead_eq fuel addr n (s : st) :
  cpu_ok (so_cpu s) -> lk_locked (pi_lock (so_comp s)) = false ->
  pipe_wf (so_comp s) -> 0 <= addr -> 0 <= n -> addr + n < 2 ^ 64 ->
  (0 < pipe_count (so_comp s) \/ pi_writeopen (so_comp s) = false) -> (0 < fuel)%nat ->
  exists p', piperead pi solo_compl fuel addr n s =
    Ret (Z.min n (pipe_count (so_comp s)))
      (s <| so_cpu := touched (so_cpu s) |> <| so_comp := p' |>
         <| so_user := put_bytes addr (take (Z.to_nat n) (pipe_items (so_comp s))) (so_user s) |>) /\
    pipe_wf p' /\ pipe_items p' = drop (Z.to_nat n) (pipe_items (so_comp s)).
Proof.
  intros Hc Hl Hwf Ha Hn Hm Hne Hf. unfold piperead.
  erewrite bind_ret by (by apply (acquire_free (D := fun _ => True))).
  set (p0 := (so_comp s) <| pi_lock := held_by (c_tp (so_cpu s)) (pi_lock (so_comp s)) |>).
  match goal with |- context [read_wait _ _ _ ?t] => idtac | |- context [bind (read_wait _ _ _) _ ?t] => set (s1 := t) end.
  assert (so_comp s1 = p0) as E1 by done.
  assert (pipe_wf p0) as W0 by (destruct Hwf; by constructor).
  erewrite bind_ret.
  2: { destruct fuel as [|fuel]; [lia|]. cbn [read_wait]. erewrite bind_ret by done.
       cbn [lget solo_compl field]. rewrite E1.
       replace ((pi_nread p0 =? pi_nwrite p0) && pi_writeopen p0) with false; [done|].
       symmetry. apply andb_false_iff. destruct Hne as [Hne|Hne]; [left|right; done].
       apply Z.eqb_neq. intros E. apply empty_iff in E; [|done].
       change (pipe_count p0) with (pipe_count (so_comp s)) in E. lia. }
  cbn [negb].
  destruct (read_loop_eq (Z.to_nat n) addr 0 s1) as (p' & E & W & I & L); [by rewrite E1|lia|lia|lia|].
  erewrite bind_ret by exact E. erewrite bind_ret by done. rewrite E1 in I, L.
  match goal with |- context [bind (release _ _) _ ?t] => assert (lget (pipelock solo_compl) t =
    held_by (c_tp (so_cpu s)) (pi_lock (so_comp s))) as El by exact L end.
  erewrite bind_ret by (apply (release_held (D := fun _ => True)) with (c := so_cpu s); by rewrite ?El).
  exists (p' <| pi_lock := unheld (pi_lock p') |>).
  split_and!; [| |exact I].
  - rewrite Z.add_0_r, Z.add_0_l, Z2Nat.id by done. rewrite E1. done.
  - destruct W. by constructor.
Qed.
End Solo.

(** ** Properties *)

(** C13: a pipe is a byte queue.  Writing [n] bytes into a pipe that has room
    for them and then reading up to [k] returns [n], then the smaller of [k]
    and what the pipe held plus [n]; the reader gets the oldest bytes first, in
    the order they were written, and the rest stays in the pipe.  This holds
    for all values of the 32-bit counters, wrapped around or not. *)
Theorem pipe_fifo (pi : Z) (fuel : nat) (addr n dst k : Z) (s : solo pipe)
  (Hc : cpu_ok (so_cpu s)) (Hl : lk_locked (pi_lock (so_comp s)) = false)
  (Hwf : pipe_wf (so_comp s)) (Hro : pi_readopen (so_comp s) = true) (Hk : so_killed s = false)
  (Ha : 0 <= addr) (Hn : 0 <= n) (Hm : addr + n < 2 ^ 64)
  (Hd : 0 <= dst) (Hk0 : 0 <= k) (Hdm : dst + k < 2 ^ 64)
  (Hroom : pipe_count (so_comp s) + n <= PIPESIZE) (Hsome : 0 < pipe_count (so_comp s) + n)
  (Hf : (Z.to_nat n < fuel)%nat) :
  let l := pipe_items (so_comp s) ++ bytes_at addr (Z.to_nat n) (so_user s) in
  returns (w <- pipewrite pi solo_compl fuel addr n ;;
           r <- piperead pi solo_compl fuel dst k ;; ret (w, r)) s
    (fun wr s' => wr = (n, Z.min k (Z.of_nat (length l))) /\
       so_user s' = put_bytes dst (take (Z.to_nat k) l) (so_user s) /\
       pipe_items (so_comp s') = drop (Z.to_nat k) l /\ pipe_wf (so_comp s')).
Proof.
  intros l. pose proof (count_range (so_comp s)).
  destruct (pipewrite_eq pi fuel addr n s) as (p1 & E1 & W1 & I1 & C1 & L1 & _); try done.
  apply returns_bind. eapply returns_intro; [exact E1|].
  destruct (piperead_eq pi fuel dst k (s <| so_cpu := touched (so_cpu s) |> <| so_comp := p1 |>))
    as (p2 & E2 & W2 & I2); cbn [so_comp so_cpu set_field]; try done; try lia; [by apply touched_ok|].
  apply returns_bind. eapply returns_intro; [exact E2|]. apply returns_ret.
  cbn [so_comp so_cpu so_user set_field] in *. rewrite I1 in *. fold l in I2 |- *.
  split_and!; [|done|done|done].
  do 2 f_equal. rewrite C1. unfold l. rewrite length_app, length_items, length_bytes_at. lia.
Qed.

(** A pipe whose counters are about to wrap, holding one byte. *)
Definition wit_pipe : solo pipe :=
  mksolo (mkcpu 0 None 0 false 0) 5 false (mset 1000 65 (mset 1001 66 ∅))
    (mkpipe (initlock "pipe") (replicate 511 0 ++ [64]) (2 ^ 32 - 1) 0 true true).

Lemma pipe_fifo_witness :
  returns (w <- pipewrite 0 solo_compl 10 1000 2 ;; r <- piperead 0 solo_compl 10 2000 2 ;; ret (w, r)) wit_pipe
    (fun wr s' => wr = (2, Z.min 2 3) /\
       so_user s' = put_bytes 2000 (take 2 ([64] ++ [65; 66])) (so_user wit_pipe) /\
       pipe_items (so_comp s') = drop 2 ([64] ++ [65; 66]) /\ pipe_wf (so_comp s')).
Proof.
  apply (pipe_fifo 0 10 1000 2 2000 2 wit_pipe); try done; try lia; try (by vm_compute).
Defined.
