(* ===== verification/Uart.v ===== *)
(** * Uart: the serial port's output buffer

    Models kernel/uart.c but for uartintr(), which is in [Console].  The device's
    registers are the interface [UartRegs]; the transmit buffer is a ring of 32
    bytes between two free-running counters. *)
From S2P Require Import Prelude Ring Spinlock Mem Os.

(** ** Registers *)

Definition RHR : Z := 0.
Definition THR : Z := 0.
Definition IER : Z := 1.
Definition IER_RX_ENABLE : Z := Z.shiftl 1 0.
Definition IER_TX_ENABLE : Z := Z.shiftl 1 1.
Definition FCR : Z := 2.
Definition FCR_FIFO_ENABLE : Z := Z.shiftl 1 0.
Definition FCR_FIFO_CLEAR : Z := Z.shiftl 3 1.
Definition LCR : Z := 3.
Definition LCR_EIGHT_BITS : Z := Z.shiftl 3 0.
Definition LCR_BAUD_LATCH : Z := Z.shiftl 1 7.
Definition LSR : Z := 5.
Definition LSR_TX_IDLE : Z := Z.shiftl 1 5.

Class UartRegs (S : Type) := {
  read_reg : Z -> M S Z;               (* ReadReg(reg) *)
  write_reg : Z -> Z -> M S unit;      (* WriteReg(reg, v), of the byte v *)
}.

Definition UART_TX_BUF_SIZE : Z := 32.

Record uart : Type := mkuart {
  ut_lock : spinlock;          (* uart_tx_lock *)
  ut_buf : list Z;             (* uart_tx_buf *)
  ut_w : Z;                    (* uart_tx_w: write next *)
  ut_r : Z;                    (* uart_tx_r: read next *)
  ut_panicked : bool;          (* panicked, of kernel/printf.c *)
}.
#[export] Instance eta_uart : Settable uart :=
  fun u => mkuart (ut_lock u) (ut_buf u) (ut_w u) (ut_r u) (ut_panicked u).

Section Uart.
Context {S : Type} `{!OS S} `{!UartRegs S}.
Context (ul : lens S uart).

(** The address of uart_tx_r, the channel uartputc() sleeps on. *)
Context (tx_r_addr : Z).

Definition uartlock : lens S spinlock := lens_comp ul (field ut_lock).

Definition uartinit : M S unit :=
  write_reg IER 0x00 ;;
  write_reg LCR LCR_BAUD_LATCH ;;
  write_reg 0 0x03 ;;
  write_reg 1 0x00 ;;
  write_reg LCR LCR_EIGHT_BITS ;;
  write_reg FCR (Z.lor FCR_FIFO_ENABLE FCR_FIFO_CLEAR) ;;
  write_reg IER (Z.lor IER_TX_ENABLE IER_RX_ENABLE) ;;
  lmod ul (fun u => u <| ut_lock := initlock "uart" |>).

(** while(1) of [uartstart]: at most one round per byte in the buffer. *)
Fixpoint uartstart_loop (k : nat) : M S unit :=
  match k with
  | O => fail EHang
  | Datatypes.S k' =>
      u <- lread ul ;;
      if ut_w u =? ut_r u then ret tt else
      lsr <- read_reg LSR ;;
      if Z.land lsr LSR_TX_IDLE =? 0 then ret tt else
      c <- aget (ut_buf u) (ut_r u mod UART_TX_BUF_SIZE) ;;
      lmod ul (fun u => u <| ut_r := u64 (ut_r u + 1) |>) ;;
      os_wakeup tx_r_addr ;;
      write_reg THR c ;;
      uartstart_loop k'
  end.

Definition uartstart : M S unit := uartstart_loop (Datatypes.S (Z.to_nat UART_TX_BUF_SIZE)).

(** while(1) of [uartputc], one round per wakeup *)
Fixpoint uartputc_loop (fuel : nat) (c : Z) : M S unit :=
  match fuel with
  | O => fail EHang
  | Datatypes.S f =>
      u <- lread ul ;;
      if ut_w u =? u64 (ut_r u + UART_TX_BUF_SIZE) then
        os_sleep tx_r_addr uartlock ;;
        uartputc_loop f c
      else
        b <- aset (ut_buf u) (ut_w u mod UART_TX_BUF_SIZE) (u8 c) ;;
        lmod ul (fun u => u <| ut_buf := b |>) ;;
        lmod ul (fun u => u <| ut_w := u64 (ut_w u + 1) |>) ;;
        uartstart ;;
        release os_cpu uartlock
  end.

Definition uartputc (fuel : nat) (c : Z) : M S unit :=
  acquire os_cpu uartlock ;;
  u <- lread ul ;;
  if ut_panicked u then fail EHang else uartputc_loop fuel c.

(** while((ReadReg(LSR) & LSR_TX_IDLE) == 0) ; *)
Fixpoint wait_idle (fuel : nat) : M S unit :=
  match fuel with
  | O => fail EHang
  | Datatypes.S f =>
      lsr <- read_reg LSR ;;
      if Z.land lsr LSR_TX_IDLE =? 0 then wait_idle f else ret tt
  end.

Definition uartputc_sync (fuel : nat) (c : Z) : M S unit :=
  zoom os_cpu push_off ;;
  u <- lread ul ;;
  if ut_panicked u then fail EHang else
  wait_idle fuel ;;
  write_reg THR (u8 c) ;;
  zoom os_cpu pop_off.

Definition uartgetc : M S Z :=
  lsr <- read_reg LSR ;;
  if negb (Z.land lsr 0x01 =? 0) then read_reg RHR else ret (-1).
End Uart.

(** ** Specification: bytes leave in the order they came *)

(** A device that is ready when its script says so, and keeps what it was sent. *)
Record uart_dev : Type := mkuart_dev {
  ud_uart : uart;
  ud_ready : list bool;        (* the answers of LSR_TX_IDLE to come; then never ready *)
  ud_sent : list Z;            (* bytes written to THR, oldest first *)
}.
#[export] Instance eta_uart_dev : Settable uart_dev := fun d => mkuart_dev (ud_uart d) (ud_ready d) (ud_sent d).

Notation st := (solo uart_dev).
Definition udl : lens st uart_dev := solo_compl.
Definition utl : lens st uart := lens_comp udl (field ud_uart).

#[export] Instance uart_script : UartRegs st := {|
  read_reg := fun r s =>
    if r =? LSR
    then Ret (if default false (head (ud_ready (so_comp s))) then LSR_TX_IDLE else 0)
           (s <| so_comp := (so_comp s) <| ud_ready := tail (ud_ready (so_comp s)) |> |>)
    else Ret 0 s;
  write_reg := fun r v =>
    if r =? THR then lmod udl (fun d => d <| ud_sent := ud_sent d ++ [v] |>) else ret tt;
|}.

Definition uart_count (u : uart) : Z := u64 (ut_w u - ut_r u).

(** The bytes in the buffer, oldest first. *)
Definition pending (u : uart) : list Z :=
  ring_items UART_TX_BUF_SIZE (ut_buf u) (ut_r u) (Z.to_nat (uart_count u)).

Record uart_wf (u : uart) : Prop := {
  uw_buf : length (ut_buf u) = Z.to_nat UART_TX_BUF_SIZE;
  uw_r : 0 <= ut_r u < 2 ^ 64;
  uw_w : 0 <= ut_w u < 2 ^ 64;
  uw_count : uart_count u <= UART_TX_BUF_SIZE;
}.

(** ** Lemmas *)

Lemma uart_count_range u : 0 <= uart_count u < 2 ^ 64.
Proof. apply Z.mod_pos_bound. lia. Qed.

Definition tx_pushed (c : Z) (u : uart) : uart :=
  u <| ut_buf := <[Z.to_nat (ut_w u mod UART_TX_BUF_SIZE) := c]> (ut_buf u) |> <| ut_w := u64 (ut_w u + 1) |>.
Definition tx_popped (u : uart) : uart := u <| ut_r := u64 (ut_r u + 1) |>.

Lemma tx_full_iff u : uart_wf u -> ut_w u = u64 (ut_r u + UART_TX_BUF_SIZE) <-> uart_count u = UART_TX_BUF_SIZE.
Proof. intros [_ Hr Hw _]. unfold uart_count, u64, UART_TX_BUF_SIZE. split; intros; zmod. Qed.

Lemma tx_empty_iff u : uart_wf u -> ut_w u = ut_r u <-> uart_count u = 0.
Proof. intros [_ Hr Hw _]. unfold uart_count, u64. split; intros; zmod. Qed.

Lemma tx_pushed_spec c u : uart_wf u -> uart_count u < UART_TX_BUF_SIZE ->
  uart_wf (tx_pushed c u) /\ uart_count (tx_pushed c u) = uart_count u + 1 /\ pending (tx_pushed c u) = pending u ++ [c].
Proof.
  intros [Hb Hr Hw _] Hc. pose proof (uart_count_range u) as Hr0.
  assert (uart_count (tx_pushed c u) = uart_count u + 1) as Ec.
  { unfold uart_count, tx_pushed, u64, UART_TX_BUF_SIZE in *. cbn. zmod. }
  split_and!; [|done|].
  - constructor; cbn; [by rewrite length_insert|done|apply Z.mod_pos_bound; lia|fold (tx_pushed c u); lia].
  - unfold pending. rewrite Ec. replace (Z.to_nat (uart_count u + 1)) with (S (Z.to_nat (uart_count u))) by lia.
    assert (ut_w u mod UART_TX_BUF_SIZE = (ut_r u + Z.of_nat (Z.to_nat (uart_count u))) mod UART_TX_BUF_SIZE) as Es.
    { rewrite Z2Nat.id by lia. unfold uart_count, u64, UART_TX_BUF_SIZE. zmod. }
    cbn [tx_pushed ut_r ut_buf set_field]. rewrite Es. apply ring_items_push; [done|done|lia].
Qed.

Lemma tx_popped_spec u : uart_wf u -> 0 < uart_count u ->
  uart_wf (tx_popped u) /\ uart_count (tx_popped u) = uart_count u - 1 /\
  pending u = nth (Z.to_nat (ut_r u mod UART_TX_BUF_SIZE)) (ut_buf u) 0 :: pending (tx_popped u).
Proof.
  intros [Hb Hr Hw Hc] Hp. assert (uart_count (tx_popped u) = uart_count u - 1) as Ec.
  { unfold uart_count, tx_popped, u64 in *. cbn. zmod. }
  split_and!; [|done|].
  - constructor; cbn; [done|apply Z.mod_pos_bound; lia|done|fold (tx_popped u); lia].
  - unfold pending. rewrite Ec. replace (Z.to_nat (uart_count u)) with (S (Z.to_nat (uart_count u - 1))) by lia.
    rewrite ring_items_S. f_equal. apply ring_items_mod. cbn [tx_popped ut_r set_field]. unfold u64, UART_TX_BUF_SIZE. zmod.
Qed.

Definition on_uart (f : uart -> uart) (s : st) : st := s <| so_comp := (so_comp s) <| ud_uart := f (ud_uart (so_comp s)) |> |>.

(** What went out or will. *)
Definition stream (s : st) : list Z := ud_sent (so_comp s) ++ pending (ud_uart (so_comp s)).

(** [s'] is [s] after the device took some of the pending bytes. *)
Record drained (s s' : st) : Prop := {
  dr_wf : uart_wf (ud_uart (so_comp s'));
  dr_stream : stream s' = stream s;
  dr_lock : ut_lock (ud_uart (so_comp s')) = ut_lock (ud_uart (so_comp s));
  dr_panicked : ut_panicked (ud_uart (so_comp s')) = ut_panicked (ud_uart (so_comp s));
  dr_cpu : so_cpu s' = so_cpu s;
}.

Lemma nth_in_ring u : uart_wf u -> znth (ut_buf u) (ut_r u mod UART_TX_BUF_SIZE) =
  Some (nth (Z.to_nat (ut_r u mod UART_TX_BUF_SIZE)) (ut_buf u) 0).
Proof.
  intros [Hb Hr _ _]. destruct (znth_is_some (ut_buf u) (ut_r u mod UART_TX_BUF_SIZE)) as (c & -> & Hc).
  - rewrite Hb. unfold UART_TX_BUF_SIZE. zmod.
  - by rewrite (nth_lookup_Some _ _ _ _ Hc).
Qed.

(** The loop of uartstart() ends within its fuel, leaving either an empty buffer
    or a device that said it was busy. *)
Lemma uartstart_spec addr k (s : st) : uart_wf (ud_uart (so_comp s)) -> uart_count (ud_uart (so_comp s)) < Z.of_nat k ->
  returns (uartstart_loop utl addr k) s (fun _ s' => drained s s' /\
    (pending (ud_uart (so_comp s')) = [] \/ exists n, ud_ready (so_comp s') = drop n (ud_ready (so_comp s)) /\
      (0 < n <= Z.to_nat (uart_count (ud_uart (so_comp s))))%nat /\ default false (ud_ready (so_comp s) !! pred n) = false)).
Proof.
  revert s. induction k as [|k IH]; intros s Hwf Hk; [pose proof (uart_count_range (ud_uart (so_comp s))); lia|].
  cbn [uartstart_loop]. apply returns_bind. eapply returns_intro; [done|]. change (lget utl s) with (ud_uart (so_comp s)).
  set (u := ud_uart (so_comp s)) in *. destruct (Z.eqb_spec (ut_w u) (ut_r u)) as [E|E].
  { apply tx_empty_iff in E; [|done]. apply returns_ret. split; [by constructor|left]. fold u. unfold pending. by rewrite E. }
  assert (0 < uart_count u) as Hp.
  { pose proof (uart_count_range u). destruct (Z.eq_dec (uart_count u) 0) as [E0|]; [by apply tx_empty_iff in E0|lia]. }
  apply returns_bind. eapply returns_intro; [done|]. set (s1 := set_field so_comp _ s).
  destruct (default false (head (ud_ready (so_comp s)))) eqn:Er.
  2: { apply returns_ret. split; [by constructor|right]. exists 1%nat. split; [done|]. split; [lia|].
       cbn [pred]. by rewrite <- head_lookup. }
  change (Z.land LSR_TX_IDLE LSR_TX_IDLE =? 0) with false. cbv iota.
  apply returns_bind. eapply returns_intro; [by apply aget_ok, nth_in_ring|].
  apply returns_bind. eapply returns_intro; [done|]. apply returns_bind. eapply returns_intro; [done|].
  apply returns_bind. eapply returns_intro; [done|]. set (c := nth _ _ _).
  match goal with |- returns _ ?t _ => set (s2 := t) end.
  assert (ud_uart (so_comp s2) = tx_popped u /\ ud_sent (so_comp s2) = ud_sent (so_comp s) ++ [c] /\
    ud_ready (so_comp s2) = tail (ud_ready (so_comp s)) /\ so_cpu s2 = so_cpu s) as (E1 & E2 & E3 & E4) by done.
  destruct (tx_popped_spec u Hwf Hp) as (W & C & P).
  eapply returns_mono; [apply IH; rewrite E1; [done|lia]|]. intros [] s' [[D1 D2 D3 D4 D5] H]. split.
  - constructor; [done| |by rewrite D3, E1|by rewrite D4, E1|by rewrite D5, E4].
    rewrite D2. unfold stream. rewrite E1, E2. fold u. rewrite P. fold c. by rewrite <- app_assoc.
  - destruct H as [H|(n & Hn & Hn0 & Hr)]; [by left|right]. exists (S n). rewrite Hn, E3. rewrite E3 in Hr. rewrite E1, C in Hn0.
    destruct (ud_ready (so_comp s)) as [|r rs]; [done|]. cbn [tail] in *. split; [done|]. split; [lia|].
    cbn [pred]. destruct n as [|n]; [lia|]. done.
Qed.

#[export] Instance uart_cell : LockCell (fun _ : st => True) os_cpu (uartlock utl).
Proof. by constructor. Qed.

(** ** Properties *)

(** C27: the serial port sends every byte once and in order.  uartputc() adds its
    byte behind all those sent or waiting, whatever the device answers when it
    is asked whether it is ready; with 32 bytes waiting it sleeps instead (for
    ever here, where nothing else runs).  This holds for all values of the 64-bit
    counters, and the buffer keeps its invariant. *)
Theorem uart_fifo (addr : Z) (fuel : nat) (c : Z) (s : st)
  (Hc : cpu_ok (so_cpu s)) (Hl : lk_locked (ut_lock (ud_uart (so_comp s))) = false)
  (Hp : ut_panicked (ud_uart (so_comp s)) = false) (Hwf : uart_wf (ud_uart (so_comp s))) :
  if uart_count (ud_uart (so_comp s)) =? UART_TX_BUF_SIZE
  then uartputc utl addr (S fuel) c s = Fail EHang
  else returns (uartputc utl addr (S fuel) c) s (fun _ s' =>
    stream s' = stream s ++ [u8 c] /\ uart_wf (ud_uart (so_comp s')) /\
    lk_locked (ut_lock (ud_uart (so_comp s'))) = false /\ so_cpu s' = touched (so_cpu s)).
Proof.
  set (u := ud_uart (so_comp s)) in *. unfold uartputc.
  set (u1 := u <| ut_lock := held_by (c_tp (so_cpu s)) (ut_lock u) |>).
  set (s1 := (on_uart (fun _ => u1) s) <| so_cpu := pushed (so_cpu s) |>).
  assert (acquire os_cpu (uartlock utl) s = Ret tt s1) as Ea
    by (etrans; [by apply (acquire_free (D := fun _ => True))|done]).
  assert (uart_wf u1) as W1 by (destruct Hwf; by constructor).
  assert ((ut_w u1 =? u64 (ut_r u1 + UART_TX_BUF_SIZE)) = (uart_count u =? UART_TX_BUF_SIZE)) as Efull.
  { apply eq_true_iff_eq. rewrite !Z.eqb_eq. exact (tx_full_iff u1 W1). }
  destruct (Z.eqb_spec (uart_count u) UART_TX_BUF_SIZE) as [E|E].
  - erewrite bind_ret by exact Ea. erewrite bind_ret by done. change (ut_panicked (lget utl s1)) with (ut_panicked u).
    rewrite Hp. cbn [uartputc_loop]. erewrite bind_ret by done. change (lget utl s1) with u1. by rewrite Efull.
  - apply returns_bind. eapply returns_intro; [exact Ea|]. apply returns_bind. eapply returns_intro; [done|].
    change (ut_panicked (lget utl s1)) with (ut_panicked u). rewrite Hp. cbn [uartputc_loop].
    apply returns_bind. eapply returns_intro; [done|]. change (lget utl s1) with u1. rewrite Efull.
    assert (uart_count u1 < UART_TX_BUF_SIZE) as Hroom by (pose proof (uw_count _ Hwf); change (uart_count u1) with (uart_count u); lia).
    apply returns_bind. eapply returns_intro.
    { apply aset_ok. rewrite (uw_buf _ W1). unfold UART_TX_BUF_SIZE. zmod. }
    apply returns_bind. eapply returns_intro; [done|]. apply returns_bind. eapply returns_intro; [done|].
    match goal with |- returns _ ?t _ => set (s2 := t) end.
    assert (ud_uart (so_comp s2) = tx_pushed (u8 c) u1 /\ ud_sent (so_comp s2) = ud_sent (so_comp s) /\
      ud_ready (so_comp s2) = ud_ready (so_comp s) /\ so_cpu s2 = pushed (so_cpu s)) as (E1 & E2 & E3 & E4) by done.
    destruct (tx_pushed_spec (u8 c) u1 W1 Hroom) as (W & C & P).
    apply returns_bind. eapply returns_mono.
    { apply uartstart_spec; rewrite E1; [done|]. rewrite C. unfold UART_TX_BUF_SIZE in *. lia. }
    intros [] s3 [[D1 D2 D3 D4 D5] H]. rewrite E1 in D3.
    eapply returns_intro.
    { apply (release_held (D := fun _ => True)) with (c := so_cpu s); [done|done|by rewrite <- E4, <- D5| |];
        change (lget (uartlock utl) s3) with (ut_lock (ud_uart (so_comp s3))); by rewrite D3. }
    split_and!; [| |done|done].
    + change (stream s3 = stream s ++ [u8 c]). rewrite D2. unfold stream. rewrite E1, E2, P.
      change (pending u1) with (pending u). by rewrite app_assoc.
    + destruct D1. by constructor.
Qed.

(** C28: bytes do leave.  When the device is ready as often as it is asked, once
    per waiting byte, uartstart() sends all that waits, in order, and the buffer
    is empty. *)
Theorem uart_drains (addr : Z) (s : st) (Hwf : uart_wf (ud_uart (so_comp s)))
  (Hready : forall k, (k < Z.to_nat (uart_count (ud_uart (so_comp s))))%nat -> ud_ready (so_comp s) !! k = Some true) :
  returns (uartstart utl addr) s (fun _ s' =>
    pending (ud_uart (so_comp s')) = [] /\
    ud_sent (so_comp s') = ud_sent (so_comp s) ++ pending (ud_uart (so_comp s)) /\ uart_wf (ud_uart (so_comp s'))).
Proof.
  eapply returns_mono; [apply uartstart_spec; [done|]|].
  - pose proof (uw_count _ Hwf). unfold UART_TX_BUF_SIZE in *. lia.
  - intros [] s' [[D1 D2 _ _ _] [H|(n & _ & Hn & Hr)]].
    + split_and!; [done| |done]. unfold stream in D2. by rewrite H, app_nil_r in D2.
    + by rewrite Hready in Hr by lia.
Qed.

(** ** Witnesses *)

(** Counters about to wrap; one byte waits, the device is ready twice. *)
Definition wit_uart : st :=
  mksolo (mkcpu 0 None 0 false 0) 1 false ∅
    (mkuart_dev (mkuart (initlock "uart") (replicate 31 0 ++ [65]) 0 (2 ^ 64 - 1) false) [true; true] [72]).

Lemma wit_uart_wf : uart_wf (ud_uart (so_comp wit_uart)).
Proof. constructor; [done|cbn; lia|cbn; lia|by vm_compute]. Defined.

Lemma uart_fifo_witness :
  if uart_count (ud_uart (so_comp wit_uart)) =? UART_TX_BUF_SIZE
  then uartputc utl 0 1 66 wit_uart = Fail EHang
  else returns (uartputc utl 0 1 66) wit_uart (fun _ s' =>
    stream s' = stream wit_uart ++ [u8 66] /\ uart_wf (ud_uart (so_comp s')) /\
    lk_locked (ut_lock (ud_uart (so_comp s'))) = false /\ so_cpu s' = touched (so_cpu wit_uart)).
Proof. apply (uart_fifo 0 0 66 wit_uart); [by split|done|done|apply wit_uart_wf]. Defined.

Lemma uart_drains_witness :
  returns (uartstart utl 0) wit_uart (fun _ s' =>
    pending (ud_uart (so_comp s')) = [] /\
    ud_sent (so_comp s') = [72] ++ pending (ud_uart (so_comp wit_uart)) /\ uart_wf (ud_uart (so_comp s'))).
Proof.
  apply (uart_drains 0 wit_uart); [apply wit_uart_wf|]. change (Z.to_nat _) with 1%nat.
  intros k Hk. by replace k with 0%nat by lia.
Defined.
