(* ===== verification/Console.v ===== *)
(** * Console: line-at-a-time input, and output through the serial port

    Models kernel/console.c and uartintr() of kernel/uart.c.  The line discipline
    is specified by two lists: the lines handed over to readers, and the line
    still being edited. *)
From S2P Require Import Prelude Ring Spinlock Mem Os Uart.

Definition BACKSPACE : Z := 0x100.
(** Control-x, for the code of x *)
Definition C (x : Z) : Z := x - 64.

(** devsw[] index of the console *)
Definition CONSOLE : Z := 1.

Definition INPUT_BUF : Z := 128.

Record cons : Type := mkcons {
  co_lock : spinlock;
  co_buf : list Z;
  co_r : Z;                    (* Read index *)
  co_w : Z;                    (* Write index *)
  co_e : Z;                    (* Edit index *)
}.
#[export] Instance eta_cons : Settable cons := fun c => mkcons (co_lock c) (co_buf c) (co_r c) (co_w c) (co_e c).

Section Console.
Context {S : Type} `{!OS S} `{!UartRegs S}.
Context (ul : lens S uart) (cl : lens S cons).

(** Addresses of cons.r and uart_tx_r, channels; procdump() of kernel/proc.c. *)
Context (cons_r_addr tx_r_addr : Z) (procdump : M S unit) (fuel : nat).

Definition conslock : lens S spinlock := lens_comp cl (field co_lock).
Definition cmod (f : cons -> cons) : M S unit := lmod cl f.

Definition consputc (c : Z) : M S unit :=
  if c =? BACKSPACE then
    uartputc_sync ul fuel 8 ;; uartputc_sync ul fuel 32 ;; uartputc_sync ul fuel 8
  else uartputc_sync ul fuel c.

(** for(i = 0; i < n; i++) of [consolewrite]; [k] bounds the rounds left *)
Fixpoint consolewrite_loop (k : nat) (user_src : bool) (src n i : Z) : M S Z :=
  match k with
  | O => ret i
  | Datatypes.S k' =>
      if negb (i <? n) then ret i else
      r <- os_copyin user_src (u64 (src + i)) [0] ;;
      if fst r =? -1 then ret i else
      uartputc ul tx_r_addr fuel (nth 0 (snd r) 0) ;;
      consolewrite_loop k' user_src src n (i + 1)
  end.

Definition consolewrite (user_src : bool) (src n : Z) : M S Z :=
  consolewrite_loop (Datatypes.S (Z.to_nat n)) user_src src n 0.

(** while(cons.r == cons.w); [true] is the return -1 of a killed process *)
Fixpoint cons_wait (f : nat) : M S bool :=
  match f with
  | O => fail EHang
  | Datatypes.S f' =>
      c <- lread cl ;;
      if co_r c =? co_w c then
        killed <- os_killed ;;
        if killed then release os_cpu conslock ;; ret true
        else os_sleep cons_r_addr conslock ;; cons_wait f'
      else ret false
  end.

Definition consoleread_done (target n : Z) : M S Z :=
  release os_cpu conslock ;;
  ret (i32 (u32 (target - n))).

(** while(n > 0) of [consoleread] *)
Fixpoint consoleread_loop (k : nat) (user_dst : bool) (dst n target : Z) : M S Z :=
  match k with
  | O => fail EHang
  | Datatypes.S k' =>
      if negb (0 <? n) then consoleread_done target n else
      killed <- cons_wait fuel ;;
      if killed then ret (-1) else
      s <- lread cl ;;
      c <- aget (co_buf s) (co_r s mod INPUT_BUF) ;;
      cmod (fun s => s <| co_r := u32 (co_r s + 1) |>) ;;
      if c =? C 68 then (* end-of-file *)
        (if u32 n <? target then cmod (fun s => s <| co_r := u32 (co_r s - 1) |>) else ret tt) ;;
        consoleread_done target n
      else
        r <- os_copyout user_dst dst [c] ;;
        if r =? -1 then consoleread_done target n else
        if c =? 10 then consoleread_done target (n - 1)
        else consoleread_loop k' user_dst (u64 (dst + 1)) (n - 1) target
  end.

Definition consoleread (user_dst : bool) (dst n : Z) : M S Z :=
  acquire os_cpu conslock ;;
  consoleread_loop (Datatypes.S (Z.to_nat n)) user_dst dst n (u32 n).

(** while(cons.e != cons.w && ...) of Kill line *)
Fixpoint kill_line (k : nat) : M S unit :=
  match k with
  | O => fail EHang
  | Datatypes.S k' =>
      s <- lread cl ;;
      if co_e s =? co_w s then ret tt else
      c <- aget (co_buf s) (u32 (co_e s - 1) mod INPUT_BUF) ;;
      if c =? 10 then ret tt else
      cmod (fun s => s <| co_e := u32 (co_e s - 1) |>) ;;
      consputc BACKSPACE ;;
      kill_line k'
  end.

Definition backspace : M S unit :=
  s <- lread cl ;;
  if co_e s =? co_w s then ret tt else
  cmod (fun s => s <| co_e := u32 (co_e s - 1) |>) ;;
  consputc BACKSPACE.

(** the default case of the switch in [consoleintr] *)
Definition store_char (c : Z) : M S unit :=
  s <- lread cl ;;
  if negb (c =? 0) && (u32 (co_e s - co_r s) <? INPUT_BUF) then
    let c := if c =? 13 then 10 else c in
    consputc c ;;
    s <- lread cl ;;
    b <- aset (co_buf s) (co_e s mod INPUT_BUF) (u8 c) ;;
    cmod (fun s => s <| co_buf := b |>) ;;
    cmod (fun s => s <| co_e := u32 (co_e s + 1) |>) ;;
    s <- lread cl ;;
    if (c =? 10) || (c =? C 68) || (co_e s =? u32 (co_r s + INPUT_BUF)) then
      cmod (fun s => s <| co_w := co_e s |>) ;;
      os_wakeup cons_r_addr
    else ret tt
  else ret tt.

Definition consoleintr (c : Z) : M S unit :=
  acquire os_cpu conslock ;;
  (if c =? C 80 then procdump
   else if c =? C 85 then kill_line (Datatypes.S (Z.to_nat INPUT_BUF))
   else if (c =? C 72) || (c =? 127) then backspace
   else store_char c) ;;
  release os_cpu conslock.

(** devsw[CONSOLE] is connected by the instance of [Devsw] in [Kernel]. *)
Definition consoleinit : M S unit :=
  cmod (fun c => c <| co_lock := initlock "cons" |>) ;;
  uartinit ul.

(** while(1) of [uartintr], which ends when no character waits *)
Fixpoint uartintr_loop (k : nat) : M S unit :=
  match k with
  | O => fail EHang
  | Datatypes.S k' =>
      c <- uartgetc ;;
      if c =? -1 then ret tt else
      consoleintr c ;;
      uartintr_loop k'
  end.

Definition uartintr : M S unit :=
  uartintr_loop fuel ;;
  acquire os_cpu (uartlock ul) ;;
  uartstart ul tx_r_addr ;;
  release os_cpu (uartlock ul).
End Console.

(** ** Specification of the line discipline *)

Definition NL : Z := 10.
Definition EOT : Z := C 68.

(** [li_ready]: committed input; [li_edit]: the line being typed. *)
Record lines : Type := mklines { li_ready : list Z; li_edit : list Z }.

(** One character typed. *)
Definition type_char (l : lines) (c : Z) : lines :=
  if c =? C 80 then l
  else if c =? C 85 then mklines (li_ready l) []
  else if (c =? C 72) || (c =? 127) then mklines (li_ready l) (removelast (li_edit l))
  else if negb (c =? 0) && (Z.of_nat (length (li_ready l ++ li_edit l)) <? INPUT_BUF) then
    let c := if c =? 13 then NL else c in
    let edit := li_edit l ++ [c] in
    if (c =? NL) || (c =? EOT) || (Z.of_nat (length (li_ready l ++ edit)) =? INPUT_BUF)
    then mklines (li_ready l ++ edit) []
    else mklines (li_ready l) edit
  else l.

(** What one read of up to [n] bytes takes from the committed input: the bytes it
    gets and what is left.  [None]: the input ends before the line does, and the
    reader waits.  A ^D ends the read; it stays for the next one unless this one
    is empty so far ([first]). *)
Fixpoint take_line (n : nat) (first : bool) (input : list Z) : option (list Z * list Z) :=
  match n, input with
  | O, _ => Some ([], input)
  | Datatypes.S _, [] => None
  | Datatypes.S n', c :: rest =>
      if c =? EOT then Some ([], if first then rest else input)
      else if c =? NL then Some ([c], rest)
      else '(got, rest') ← take_line n' false rest; Some (c :: got, rest')
  end.

(** What an echoed character puts on the line. *)
Definition erased : list Z := [8; 32; 8].
Definition echoed (c : Z) : list Z := if c =? BACKSPACE then erased else [u8 c].

(** What the terminal shows when [c] is typed; [pd] is what procdump() prints. *)
Definition echo_char (pd : list Z) (l : lines) (c : Z) : list Z :=
  if c =? C 80 then pd
  else if c =? C 85 then concat (replicate (length (li_edit l)) erased)
  else if (c =? C 72) || (c =? 127) then match li_edit l with [] => [] | _ => erased end
  else if negb (c =? 0) && (Z.of_nat (length (li_ready l ++ li_edit l)) <? INPUT_BUF)
  then [if c =? 13 then NL else c]
  else [].

Fixpoint echo_all (pd : list Z) (l : lines) (cs : list Z) : list Z :=
  match cs with [] => [] | c :: cs' => echo_char pd l c ++ echo_all pd (type_char l c) cs' end.

(** ** A terminal: a device always ready to send *)

Record tty (A : Type) : Type := mktty {
  ty_uart : uart;
  ty_comp : A;
  ty_input : list Z;           (* typed characters the device has received *)
  ty_sent : list Z;            (* bytes written to THR *)
}.
Arguments mktty {A}.
Arguments ty_uart {A}.
Arguments ty_comp {A}.
Arguments ty_input {A}.
Arguments ty_sent {A}.
#[export] Instance eta_tty A : Settable (tty A) :=
  fun t => mktty (ty_uart t) (ty_comp t) (ty_input t) (ty_sent t).

Section Tty.
Context {A : Type}.
Notation st := (solo (tty A)).

Definition ttyl : lens st (tty A) := solo_compl.
Definition tty_uartl : lens st uart := lens_comp ttyl (field ty_uart).
Definition tty_compl : lens st A := lens_comp ttyl (field ty_comp).

#[export] Instance tty_regs : UartRegs st := {|
  read_reg := fun r s =>
    if r =? LSR then Ret (Z.lor LSR_TX_IDLE (if ty_input (so_comp s) then 0 else 1)) s
    else if r =? RHR then
      Ret (default 0 (head (ty_input (so_comp s))))
        (s <| so_comp := (so_comp s) <| ty_input := tail (ty_input (so_comp s)) |> |>)
    else Ret 0 s;
  write_reg := fun r v =>
    if r =? THR then lmod ttyl (fun t => t <| ty_sent := ty_sent t ++ [v] |>) else ret tt;
|}.

(** [s] after [l] was sent. *)
Definition echo (l : list Z) (s : st) : st :=
  s <| so_cpu := touched (so_cpu s) |> <| so_comp := (so_comp s) <| ty_sent := ty_sent (so_comp s) ++ l |> |>.

Lemma echo_echo l l' s : echo l' (echo l s) = echo (l ++ l') s.
Proof. unfold echo. cbn. by rewrite touched_idemp, app_assoc. Qed.

Lemma uartputc_sync_eq fuel c (s : st) : cpu_ok (so_cpu s) -> ut_panicked (ty_uart (so_comp s)) = false ->
  uartputc_sync tty_uartl (S fuel) c s = Ret tt (echo [u8 c] s).
Proof.
  intros Hc Hp. unfold uartputc_sync. erewrite bind_ret by (unfold zoom; by rewrite push_off_eq).
  erewrite bind_ret by done. change (ut_panicked _) with (ut_panicked (ty_uart (so_comp s))). rewrite Hp.
  erewrite bind_ret by (cbn [wait_idle]; erewrite bind_ret by done; cbn; by destruct (ty_input (so_comp s))).
  erewrite bind_ret by done. unfold zoom. cbn [lget solo_cpul os_cpu os_solo field].
  change (so_cpu (lset _ _ _)) with (pushed (so_cpu s)). by rewrite pop_off_pushed.
Qed.

Lemma consputc_eq fuel c (s : st) : cpu_ok (so_cpu s) -> ut_panicked (ty_uart (so_comp s)) = false ->
  consputc tty_uartl (S fuel) c s = Ret tt (echo (echoed c) s).
Proof.
  intros Hc Hp. unfold consputc, echoed. destruct (c =? BACKSPACE); [|by apply uartputc_sync_eq].
  erewrite bind_ret by (by apply uartputc_sync_eq).
  erewrite bind_ret by (apply uartputc_sync_eq; [by apply touched_ok|done]).
  rewrite uartputc_sync_eq; [by rewrite !echo_echo|by do 2 apply touched_ok|done].
Qed.
End Tty.

(** ** The two lists of the buffer *)

Definition n_ready (c : cons) : Z := u32 (co_w c - co_r c).
Definition n_edit (c : cons) : Z := u32 (co_e c - co_w c).

Definition cons_lines (c : cons) : lines :=
  mklines (ring_items INPUT_BUF (co_buf c) (co_r c) (Z.to_nat (n_ready c)))
    (ring_items INPUT_BUF (co_buf c) (co_w c) (Z.to_nat (n_edit c))).

(** A line being edited has no end of line in it. *)
Record cons_wf (c : cons) : Prop := {
  cw_buf : length (co_buf c) = Z.to_nat INPUT_BUF;
  cw_r : 0 <= co_r c < 2 ^ 32;
  cw_w : 0 <= co_w c < 2 ^ 32;
  cw_e : 0 <= co_e c < 2 ^ 32;
  cw_count : n_ready c + n_edit c <= INPUT_BUF;
  cw_nl : Forall (fun b => b <> NL) (li_edit (cons_lines c));
}.

Lemma n_ready_range c : 0 <= n_ready c < 2 ^ 32.
Proof. apply Z.mod_pos_bound. lia. Qed.

Lemma n_edit_range c : 0 <= n_edit c < 2 ^ 32.
Proof. apply Z.mod_pos_bound. lia. Qed.

Lemma edit_empty_iff c : cons_wf c -> co_e c = co_w c <-> n_edit c = 0.
Proof. intros [_ Hr Hw He _ _]. unfold n_edit, u32. split; intros; zmod. Qed.

Lemma ready_empty_iff c : cons_wf c -> co_r c = co_w c <-> n_ready c = 0.
Proof. intros [_ Hr Hw He _ _]. unfold n_ready, u32. split; intros; zmod. Qed.

Lemma n_total c : cons_wf c -> u32 (co_e c - co_r c) = n_ready c + n_edit c.
Proof. intros [_ Hr Hw He Hc _]. unfold n_ready, n_edit, u32, INPUT_BUF in *. zmod. Qed.

Lemma all_full_iff c : cons_wf c -> co_e c = u32 (co_r c + INPUT_BUF) <-> n_ready c + n_edit c = INPUT_BUF.
Proof. intros [_ Hr Hw He Hc _]. unfold n_ready, n_edit, u32, INPUT_BUF in *. split; intros; zmod. Qed.

Lemma length_edit c : Z.of_nat (length (li_edit (cons_lines c))) = n_edit c.
Proof. cbn. rewrite length_ring_items. pose proof (n_edit_range c). lia. Qed.

Lemma length_ready c : Z.of_nat (length (li_ready (cons_lines c))) = n_ready c.
Proof. cbn. rewrite length_ring_items. pose proof (n_ready_range c). lia. Qed.

(** Both lists are one stretch of the ring. *)
Lemma lines_all c : cons_wf c ->
  li_ready (cons_lines c) ++ li_edit (cons_lines c) =
  ring_items INPUT_BUF (co_buf c) (co_r c) (Z.to_nat (n_ready c) + Z.to_nat (n_edit c)).
Proof.
  intros [_ Hr Hw He Hc _]. cbn. rewrite ring_items_app by done. f_equal. apply ring_items_mod.
  pose proof (n_ready_range c). rewrite Z2Nat.id by lia. unfold n_ready, u32, INPUT_BUF. zmod.
Qed.

Definition cons_erased (c : cons) : cons := c <| co_e := u32 (co_e c - 1) |>.
Definition cons_stored (b : Z) (c : cons) : cons :=
  c <| co_buf := <[Z.to_nat (co_e c mod INPUT_BUF) := b]> (co_buf c) |> <| co_e := u32 (co_e c + 1) |>.
Definition cons_committed (c : cons) : cons := c <| co_w := co_e c |>.
Definition cons_taken (c : cons) : cons := c <| co_r := u32 (co_r c + 1) |>.

(** The last byte of the line being edited is in the slot before [e]. *)
Lemma erased_spec c : cons_wf c -> 0 < n_edit c ->
  cons_wf (cons_erased c) /\ n_edit (cons_erased c) = n_edit c - 1 /\
  li_ready (cons_lines (cons_erased c)) = li_ready (cons_lines c) /\
  li_edit (cons_lines c) =
    li_edit (cons_lines (cons_erased c)) ++ [nth (Z.to_nat (u32 (co_e c - 1) mod INPUT_BUF)) (co_buf c) 0].
Proof.
  intros [Hb Hr Hw He Hc Hn] Hp. assert (n_edit (cons_erased c) = n_edit c - 1) as En.
  { unfold n_edit, cons_erased, u32 in *. cbn. zmod. }
  assert (li_edit (cons_lines c) =
    li_edit (cons_lines (cons_erased c)) ++ [nth (Z.to_nat (u32 (co_e c - 1) mod INPUT_BUF)) (co_buf c) 0]) as Ee.
  { unfold cons_lines. cbn [li_edit]. rewrite En.
    replace (Z.to_nat (n_edit c)) with (S (Z.to_nat (n_edit c - 1))) by lia. rewrite ring_items_snoc.
    do 2 f_equal. f_equal. f_equal. rewrite Z2Nat.id by lia. unfold n_edit, u32, INPUT_BUF. zmod. }
  split_and!; [|done|done|done]. constructor; [done|done|done|apply Z.mod_pos_bound; lia| |].
  - rewrite En. change (n_ready (cons_erased c)) with (n_ready c). lia.
  - rewrite Ee in Hn. by apply Forall_app in Hn as [? _].
Qed.

Lemma stored_counts b c : cons_wf c -> n_ready c + n_edit c < INPUT_BUF ->
  n_ready (cons_stored b c) = n_ready c /\ n_edit (cons_stored b c) = n_edit c + 1.
Proof. intros [Hb Hr Hw He _ _]. unfold n_ready, n_edit, cons_stored, u32, INPUT_BUF. cbn. intros. zmod. Qed.

Lemma stored_lines b c : cons_wf c -> n_ready c + n_edit c < INPUT_BUF ->
  cons_lines (cons_stored b c) = mklines (li_ready (cons_lines c)) (li_edit (cons_lines c) ++ [b]).
Proof.
  intros Hwf Hc. destruct (stored_counts b c Hwf Hc) as [Er Ee]. unfold cons_lines. rewrite Er, Ee. destruct Hwf as [Hb Hr Hw He _ _].
  pose proof (n_edit_range c). pose proof (n_ready_range c).
  replace (Z.to_nat (n_edit c + 1)) with (S (Z.to_nat (n_edit c))) by lia. cbn [cons_stored co_buf co_r co_w set_field li_ready li_edit].
  f_equal.
  - replace (co_e c mod INPUT_BUF) with ((co_r c + (n_ready c + n_edit c)) mod INPUT_BUF); [apply ring_items_store; [done|done|lia]|].
    unfold n_ready, n_edit, u32, INPUT_BUF in *. zmod.
  - replace (co_e c mod INPUT_BUF) with ((co_w c + Z.of_nat (Z.to_nat (n_edit c))) mod INPUT_BUF); [apply ring_items_push; [done|done|lia]|].
    rewrite Z2Nat.id by lia. unfold n_edit, u32, INPUT_BUF in *. zmod.
Qed.

Lemma committed_lines c : n_ready c + n_edit c <= INPUT_BUF ->
  cons_lines (cons_committed c) = mklines (li_ready (cons_lines c) ++ li_edit (cons_lines c)) [].
Proof.
  intros Hc. pose proof (n_edit_range c). pose proof (n_ready_range c). unfold cons_lines.
  assert (n_edit (cons_committed c) = 0) as -> by (unfold n_edit; cbn; by rewrite Z.sub_diag).
  assert (n_ready (cons_committed c) = n_ready c + n_edit c) as ->.
  { unfold n_ready, n_edit, u32, INPUT_BUF in *. cbn. zmod. }
  cbn [cons_committed co_buf co_r co_w set_field li_ready li_edit]. f_equal.
  rewrite Z2Nat.inj_add, ring_items_app by lia. f_equal. apply ring_items_mod. rewrite Z2Nat.id by lia.
  unfold n_ready, u32, INPUT_BUF in *. zmod.
Qed.

Lemma stored_wf b c : cons_wf c -> b <> NL -> n_ready c + n_edit c < INPUT_BUF -> cons_wf (cons_stored b c).
Proof.
  intros Hwf Hnl Hc. pose proof (stored_lines b c Hwf Hc) as El. destruct (stored_counts b c Hwf Hc) as [Er Ee].
  destruct Hwf as [Hb Hr Hw He _ Hn]. constructor; [by cbn; rewrite length_insert|done|done|apply Z.mod_pos_bound; lia|lia|].
  rewrite El. cbn [li_edit]. apply Forall_app. split; [done|]. by constructor.
Qed.

(** Committing also a line that has its end of line. *)
Lemma committed_wf b c : cons_wf c -> n_ready c + n_edit c < INPUT_BUF -> cons_wf (cons_committed (cons_stored b c)).
Proof.
  intros Hwf Hc. destruct (stored_counts b c Hwf Hc) as [Er Ee].
  assert (n_ready (cons_stored b c) + n_edit (cons_stored b c) <= INPUT_BUF) as Hs by lia.
  pose proof (committed_lines _ Hs) as El. pose proof (n_ready_range c). pose proof (n_edit_range c).
  destruct Hwf as [Hb Hr Hw He _ Hn].
  constructor; [by cbn; rewrite length_insert|done|apply Z.mod_pos_bound; lia|apply Z.mod_pos_bound; lia| |by rewrite El].
  pose proof (length_ready (cons_committed (cons_stored b c))) as L1.
  pose proof (length_edit (cons_committed (cons_stored b c))) as L2.
  pose proof (length_ready (cons_stored b c)). pose proof (length_edit (cons_stored b c)).
  rewrite El in L1, L2. cbn [li_ready li_edit length] in L1, L2. rewrite length_app in L1. lia.
Qed.

(** Taking the oldest committed byte. *)
Lemma taken_spec c : cons_wf c -> 0 < n_ready c ->
  cons_wf (cons_taken c) /\ n_ready (cons_taken c) = n_ready c - 1 /\ li_edit (cons_lines (cons_taken c)) = li_edit (cons_lines c) /\
  li_ready (cons_lines c) = nth (Z.to_nat (co_r c mod INPUT_BUF)) (co_buf c) 0 :: li_ready (cons_lines (cons_taken c)).
Proof.
  intros [Hb Hr Hw He Hc Hn] Hp. assert (n_ready (cons_taken c) = n_ready c - 1) as Er.
  { unfold n_ready, cons_taken, u32 in *. cbn. zmod. }
  split_and!; [|done|done|].
  - constructor; [done|apply Z.mod_pos_bound; lia|done|done| |done].
    rewrite Er. change (n_edit (cons_taken c)) with (n_edit c). lia.
  - unfold cons_lines. cbn [li_ready]. rewrite Er. replace (Z.to_nat (n_ready c)) with (S (Z.to_nat (n_ready c - 1))) by lia.
    rewrite ring_items_S. f_equal. apply ring_items_mod. cbn. unfold u32, INPUT_BUF. zmod.
Qed.

Lemma cons_nth x c : cons_wf c -> znth (co_buf c) (x mod INPUT_BUF) = Some (nth (Z.to_nat (x mod INPUT_BUF)) (co_buf c) 0).
Proof.
  intros [Hb _ _ _ _ _]. destruct (znth_is_some (co_buf c) (x mod INPUT_BUF)) as (b & -> & Hx).
  - rewrite Hb. unfold INPUT_BUF. zmod.
  - by rewrite (nth_lookup_Some _ _ _ _ Hx).
Qed.

(** ** The handlers on a terminal *)

Section Solo.
Notation st := (solo (tty cons)).
Context (ra ta : Z).

#[local] Notation con s := (ty_comp (so_comp s)).
Notation putc := (consputc tty_uartl).

(** [s] with input state [c], after [l] was sent. *)
Definition upd (c : cons) (l : list Z) (s : st) : st :=
  s <| so_comp := (so_comp s) <| ty_comp := c |> <| ty_sent := ty_sent (so_comp s) ++ l |> |>.

(** Inside a critical section, with output not frozen. *)
Record inside (s : st) : Prop := {
  in_ok : cpu_ok (so_cpu s);
  in_cpu : touched (so_cpu s) = so_cpu s;
  in_panicked : ut_panicked (ty_uart (so_comp s)) = false;
}.

Lemma upd_inside c l s : inside s -> inside (upd c l s).
Proof. intros [? ? ?]. by constructor. Qed.

Lemma shown_upd c c' l l' s : upd c' l' (upd c l s) = upd c' (l ++ l') s.
Proof. unfold upd. cbn. by rewrite app_assoc. Qed.

Lemma upd_nil s : upd (con s) [] s = s.
Proof. unfold upd. destruct s as [? ? ? ? []]. cbn. by rewrite app_nil_r. Qed.

Lemma cmod_eq f s : cmod tty_compl f s = Ret tt (upd (f (con s)) [] s).
Proof. unfold upd, cmod, lmod, modify. destruct s as [? ? ? ? []]. cbn. by rewrite app_nil_r. Qed.

Lemma echo_inside l s : inside s -> echo l s = upd (con s) l s.
Proof. intros [_ Hc _]. unfold echo, upd. rewrite Hc. by destruct s as [? ? ? ? []]. Qed.

Lemma consputc_inside fuel c s : inside s -> putc (S fuel) c s = Ret tt (upd (con s) (echoed c) s).
Proof. intros Hs. rewrite consputc_eq, echo_inside; [done|done|apply Hs|apply Hs]. Qed.

(** What a handler of a typed character leaves: the lines [l'], after showing [e]. *)
Definition typed (s : st) (l' : lines) (e : list Z) (s' : st) : Prop :=
  exists c', s' = upd c' e s /\ cons_wf c' /\ cons_lines c' = l' /\ co_lock c' = co_lock (con s).

Lemma typed_same s : cons_wf (con s) -> typed s (cons_lines (con s)) [] s.
Proof. intros H. exists (con s). by rewrite upd_nil. Qed.

Lemma backspace_spec fuel s : inside s -> cons_wf (con s) ->
  returns (backspace tty_uartl tty_compl (S fuel)) s (fun _ s' =>
    typed s (mklines (li_ready (cons_lines (con s))) (removelast (li_edit (cons_lines (con s)))))
      (match li_edit (cons_lines (con s)) with [] => [] | _ => erased end) s').
Proof.
  intros Hin Hwf. unfold backspace. apply returns_bind. eapply returns_intro; [done|].
  change (lget tty_compl s) with (con s). pose proof (edit_empty_iff _ Hwf) as He. pose proof (length_edit (con s)) as Hl.
  pose proof (n_edit_range (con s)). destruct (Z.eqb_spec (co_e (con s)) (co_w (con s))) as [E|E].
  - apply He in E. apply returns_ret. exists (con s). destruct (cons_lines (con s)) as [rd ed] eqn:El.
    cbn [li_edit li_ready] in *. assert (ed = []) as -> by (apply length_zero_iff_nil; lia). by rewrite upd_nil.
  - assert (0 < n_edit (con s)) as Hp by (destruct (Z.eq_dec (n_edit (con s)) 0) as [E0|]; [by apply He in E0|lia]).
    destruct (erased_spec _ Hwf Hp) as (W & _ & Er & Ee).
    apply returns_bind. eapply returns_intro; [apply cmod_eq|].
    eapply returns_intro; [by apply consputc_inside, upd_inside|]. rewrite shown_upd.
    exists (cons_erased (con s)). split; [|split; [done|split; [|done]]].
    + f_equal. by destruct (li_edit (cons_lines (con s))); [apply (f_equal length) in Ee; rewrite length_app in Ee; cbn in Ee; lia|].
    + rewrite Ee, removelast_last, <- Er. by destruct (cons_lines _).
Qed.

Lemma kill_line_spec fuel k s : inside s -> cons_wf (con s) -> n_edit (con s) < Z.of_nat k ->
  returns (kill_line tty_uartl tty_compl (S fuel) k) s (fun _ s' =>
    typed s (mklines (li_ready (cons_lines (con s))) [])
      (concat (replicate (length (li_edit (cons_lines (con s)))) erased)) s').
Proof.
  revert s. induction k as [|k IH]; intros s Hin Hwf Hk; [pose proof (n_edit_range (con s)); lia|].
  cbn [kill_line]. apply returns_bind. eapply returns_intro; [done|].
  change (lget tty_compl s) with (con s). pose proof (edit_empty_iff _ Hwf) as He. pose proof (length_edit (con s)) as Hl.
  pose proof (n_edit_range (con s)). destruct (Z.eqb_spec (co_e (con s)) (co_w (con s))) as [E|E].
  - apply He in E. apply returns_ret. exists (con s). replace (length _) with 0%nat by lia. cbn [replicate concat].
    rewrite upd_nil. split_and!; [done|done| |done]. destruct (cons_lines (con s)) as [rd ed]. cbn [li_edit li_ready] in *.
    f_equal. apply length_zero_iff_nil. lia.
  - assert (0 < n_edit (con s)) as Hp by (destruct (Z.eq_dec (n_edit (con s)) 0) as [E0|]; [by apply He in E0|lia]).
    destruct (erased_spec _ Hwf Hp) as (W & En & Er & Ee).
    apply returns_bind. eapply returns_intro; [by apply aget_ok, cons_nth|].
    assert (nth (Z.to_nat (u32 (co_e (con s) - 1) mod INPUT_BUF)) (co_buf (con s)) 0 <> NL) as Hnl.
    { pose proof (cw_nl _ Hwf) as Hf. rewrite Ee in Hf. apply Forall_app in Hf as [_ Hf]. by inversion Hf. }
    destruct (Z.eqb_spec (nth (Z.to_nat (u32 (co_e (con s) - 1) mod INPUT_BUF)) (co_buf (con s)) 0) 10) as [|_]; [done|].
    apply returns_bind. eapply returns_intro; [apply cmod_eq|].
    apply returns_bind. eapply returns_intro; [by apply consputc_inside, upd_inside|]. rewrite shown_upd.
    change (con (upd _ _ s)) with (cons_erased (con s)). cbn [app].
    set (s1 := upd (cons_erased (con s)) erased s). change (echoed BACKSPACE) with erased. fold s1.
    eapply returns_mono; [apply IH|].
    + by apply upd_inside.
    + done.
    + change (con s1) with (cons_erased (con s)). lia.
    + intros [] s' (c' & -> & W' & L' & K'). change (con s1) with (cons_erased (con s)) in *. exists c'.
      split_and!; [|done|by rewrite L', Er|done]. unfold s1. rewrite shown_upd. f_equal.
      rewrite Ee, length_app, Nat.add_comm. done.
Qed.

(** A typed byte, as type_char and echo_char treat it by default. *)
Definition stored_byte (c : Z) : Z := if c =? 13 then NL else c.

Lemma stored_byte_range c : 0 <= c < 256 -> 0 <= stored_byte c < 256.
Proof. unfold stored_byte, NL. zcase. Qed.

Lemma echoed_byte c : 0 <= c < 256 -> echoed c = [c].
Proof. intros ?. unfold echoed, BACKSPACE, u8. zcase. by rewrite Z.mod_small by lia. Qed.

Lemma store_char_full fuel c s : inside s -> cons_wf (con s) ->
  negb (c =? 0) && (Z.of_nat (length (li_ready (cons_lines (con s)) ++ li_edit (cons_lines (con s)))) <? INPUT_BUF) = false ->
  store_char tty_uartl tty_compl ra (S fuel) c s = Ret tt s.
Proof.
  intros Hin Hwf Hb. unfold store_char. erewrite bind_ret by done. change (lget tty_compl s) with (con s).
  rewrite n_total by done. rewrite length_app, Nat2Z.inj_add, length_ready, length_edit in Hb. by rewrite Hb.
Qed.

Lemma store_char_room fuel c s : inside s -> cons_wf (con s) -> 0 < c < 256 ->
  Z.of_nat (length (li_ready (cons_lines (con s)) ++ li_edit (cons_lines (con s)))) < INPUT_BUF ->
  returns (store_char tty_uartl tty_compl ra (S fuel) c) s (fun _ s' =>
    typed s
      (let edit := li_edit (cons_lines (con s)) ++ [stored_byte c] in
       if (stored_byte c =? NL) || (stored_byte c =? EOT) ||
          (Z.of_nat (length (li_ready (cons_lines (con s)) ++ edit)) =? INPUT_BUF)
       then mklines (li_ready (cons_lines (con s)) ++ edit) [] else mklines (li_ready (cons_lines (con s))) edit)
      [stored_byte c] s').
Proof.
  intros Hin Hwf Hc Hroom. pose proof (stored_byte_range c ltac:(lia)) as Hb.
  rewrite length_app, Nat2Z.inj_add, length_ready, length_edit in Hroom.
  unfold store_char. apply returns_bind. eapply returns_intro; [done|]. change (lget tty_compl s) with (con s).
  rewrite n_total by done. replace (negb (c =? 0) && _) with true by (symmetry; apply andb_true_iff; split; zcase).
  cbv zeta. change (if c =? 13 then 10 else c) with (stored_byte c). change 10 with NL. set (b := stored_byte c) in *.
  apply returns_bind. eapply returns_intro; [by apply consputc_inside|]. rewrite echoed_byte by done.
  apply returns_bind. eapply returns_intro; [done|]. change (lget tty_compl _) with (con s).
  apply returns_bind. eapply returns_intro.
  { assert (u8 b = b) as -> by (by apply Z.mod_small). apply aset_ok. rewrite (cw_buf _ Hwf). unfold INPUT_BUF. zmod. }
  apply returns_bind. eapply returns_intro; [apply cmod_eq|]. apply returns_bind. eapply returns_intro; [apply cmod_eq|].
  rewrite !shown_upd. cbn [app]. change (set_field co_e _ _) with (cons_stored b (con s)).
  apply returns_bind. eapply returns_intro; [done|]. change (lget tty_compl _) with (cons_stored b (con s)).
  destruct (stored_counts b _ Hwf Hroom) as [Er Ee]. pose proof (stored_lines b _ Hwf Hroom) as El.
  assert ((co_e (cons_stored b (con s)) =? u32 (co_r (cons_stored b (con s)) + INPUT_BUF)) =
    (Z.of_nat (length (li_ready (cons_lines (con s)) ++ li_edit (cons_lines (con s)) ++ [b])) =? INPUT_BUF)) as Efull.
  { rewrite !length_app, !Nat2Z.inj_add, length_ready, length_edit. cbn [length]. apply eq_true_iff_eq. rewrite !Z.eqb_eq.
    destruct Hwf as [_ Hr Hw He _ _]. unfold n_ready, n_edit, cons_stored, u32, INPUT_BUF in *. cbn. split; intros; zmod. }
  rewrite Efull. fold EOT. destruct ((b =? NL) || (b =? EOT) || _) eqn:Ecommit.
  - apply returns_bind. eapply returns_intro; [apply cmod_eq|]. eapply returns_intro; [done|]. rewrite shown_upd.
    exists (cons_committed (cons_stored b (con s))). split_and!; [done|by apply committed_wf| |done].
    rewrite committed_lines by lia. by rewrite El.
  - apply returns_ret. exists (cons_stored b (con s)). split_and!; [done| |done|done].
    apply stored_wf; [done| |done]. intros ->. done.
Qed.

#[export] Instance cons_cell : LockCell (fun _ : st => True) os_cpu (conslock tty_compl).
Proof. by constructor. Qed.

Definition with_cons_lock (f : spinlock -> spinlock) (c : cons) : cons := c <| co_lock := f (co_lock c) |>.

Lemma lock_lines f c : cons_lines (with_cons_lock f c) = cons_lines c.
Proof. done. Qed.

Lemma lock_wf f c : cons_wf c -> cons_wf (with_cons_lock f c).
Proof. intros [? ? ? ? ? ?]. by constructor. Qed.

(** Outside any critical section of the console. *)
Record idle (s : st) : Prop := {
  id_cpu : cpu_ok (so_cpu s);
  id_lock : lk_locked (co_lock (con s)) = false;
  id_wf : cons_wf (con s);
  id_panicked : ut_panicked (ty_uart (so_comp s)) = false;
}.

(** What the interrupt handler leaves. *)
Record heard (l : lines) (e : list Z) (s s' : st) : Prop := {
  hd_idle : idle s';
  hd_lines : cons_lines (con s') = l;
  hd_sent : ty_sent (so_comp s') = ty_sent (so_comp s) ++ e;
  hd_input : ty_input (so_comp s') = ty_input (so_comp s);
  hd_uart : ty_uart (so_comp s') = ty_uart (so_comp s);
  hd_cpu : so_cpu s' = touched (so_cpu s);
}.

(** procdump() as the handler sees it: it shows [pd]. *)
Context (procdump : M st unit) (pd : list Z).
Context (procdump_shows : forall s, inside s -> procdump s = Ret tt (upd (con s) pd s)).

Lemma consoleintr_spec fuel c s : idle s -> 0 <= c < 256 ->
  returns (consoleintr tty_uartl tty_compl ra procdump (S fuel) c) s
    (fun _ s' => heard (type_char (cons_lines (con s)) c) (echo_char pd (cons_lines (con s)) c) s s').
Proof using procdump_shows.
  intros [Hcpu Hl Hwf Hp] Hc. unfold consoleintr.
  apply returns_bind. eapply returns_intro; [by apply (acquire_free (D := fun _ => True))|].
  set (s1 := lset os_cpu _ _). set (c1 := with_cons_lock (held_by (c_tp (so_cpu s))) (con s)).
  assert (con s1 = c1 /\ so_cpu s1 = pushed (so_cpu s) /\ ty_sent (so_comp s1) = ty_sent (so_comp s) /\
    ty_input (so_comp s1) = ty_input (so_comp s) /\ ty_uart (so_comp s1) = ty_uart (so_comp s)) as (E1 & E2 & E3 & E4 & E5) by done.
  assert (cons_wf (con s1)) as W1 by (rewrite E1; by apply lock_wf).
  assert (cons_lines (con s1) = cons_lines (con s)) as L1 by done.
  assert (inside s1) as I1.
  { constructor; [rewrite E2; by apply pushed_ok|by rewrite E2, touched_pushed|by rewrite E5]. }
  clearbody s1. apply returns_bind. eapply returns_mono.
  - instantiate (1 := fun _ s' => typed s1 (type_char (cons_lines (con s)) c) (echo_char pd (cons_lines (con s)) c) s').
    rewrite <- L1. unfold type_char, echo_char. destruct (c =? C 80).
    { eapply returns_intro; [by apply procdump_shows|]. by exists (con s1). }
    destruct (c =? C 85).
    { apply kill_line_spec; [done|done|]. pose proof (cw_count _ W1). pose proof (n_ready_range (con s1)).
      unfold INPUT_BUF in *. lia. }
    destruct ((c =? C 72) || (c =? 127)); [by apply backspace_spec|].
    destruct (negb (c =? 0) && _) eqn:Eb.
    { apply andb_true_iff in Eb as [Hc0 Hroom%Z.ltb_lt]. apply store_char_room; [done|done|zcase|done]. }
    eapply returns_intro; [by apply store_char_full|]. by apply typed_same.
  - intros [] s2 (c' & -> & W2 & L2 & K2). rewrite E1 in K2.
    eapply returns_intro.
    { apply (release_held (D := fun _ => True)) with (c := so_cpu s); [done|done|exact E2| |];
        change (lget (conslock tty_compl) _) with (co_lock c'); by rewrite K2. }
    constructor; [constructor| | | | |]; try done.
    + by apply touched_ok.
    + exact (lock_wf unheld c' W2).
    + cbn. by rewrite E5.
    + cbn. by rewrite E3.
Qed.

(** Reading the device: the next typed character, or -1. *)
Lemma uartgetc_eq (s : st) : uartgetc s =
  match ty_input (so_comp s) with
  | [] => Ret (-1) s
  | c :: l => Ret c (s <| so_comp := (so_comp s) <| ty_input := l |> |>)
  end.
Proof.
  unfold uartgetc. erewrite bind_ret by done. destruct (ty_input (so_comp s)) eqn:E; [done|].
  change (negb _) with true. cbv iota. cbn. by rewrite E.
Qed.

Lemma uartintr_loop_spec fuel k s : idle s -> Forall (fun c => 0 <= c < 256) (ty_input (so_comp s)) ->
  (length (ty_input (so_comp s)) < k)%nat ->
  returns (uartintr_loop tty_uartl tty_compl ra procdump (S fuel) k) s (fun _ s' =>
    idle s' /\ cons_lines (con s') = foldl type_char (cons_lines (con s)) (ty_input (so_comp s)) /\
    ty_sent (so_comp s') = ty_sent (so_comp s) ++ echo_all pd (cons_lines (con s)) (ty_input (so_comp s)) /\
    ty_input (so_comp s') = [] /\ ty_uart (so_comp s') = ty_uart (so_comp s)).
Proof using procdump_shows.
  revert s. induction k as [|k IH]; intros s Hid Hin Hk; [lia|]. cbn [uartintr_loop].
  apply returns_bind. destruct (ty_input (so_comp s)) as [|c l] eqn:Ei.
  - eapply returns_intro; [by rewrite uartgetc_eq, Ei|]. apply returns_ret. cbn. rewrite app_nil_r. by split_and!.
  - inversion Hin as [|? ? Hc Hl]; subst. eapply returns_intro; [by rewrite uartgetc_eq, Ei|].
    destruct (Z.eqb_spec c (-1)); [lia|]. set (s1 := set_field so_comp _ s).
    assert (idle s1) as Hid1 by (destruct Hid; by constructor).
    apply returns_bind. eapply returns_mono; [by apply consoleintr_spec|]. intros [] s2 [A B C D E F].
    change (con s1) with (con s) in *. change (ty_sent (so_comp s1)) with (ty_sent (so_comp s)) in *.
    change (ty_input (so_comp s1)) with l in *. change (ty_uart (so_comp s1)) with (ty_uart (so_comp s)) in *.
    eapply returns_mono; [apply IH; [done|by rewrite D|rewrite D; cbn in Hk; lia]|].
    intros [] s3 (A3 & B3 & C3 & D3 & E3). rewrite B, D in *. cbn [foldl echo_all].
    split_and!; [done|done| |done|by rewrite E3, E]. by rewrite C3, C, app_assoc.
Qed.
End Solo.

(** ** Reading *)

Section Read.
Notation st := (solo (tty cons)).
#[local] Notation con s := (ty_comp (so_comp s)).
Context (ra : Z).

(** [s] after a reader took up to input state [c] and got the bytes [l] at [dst]. *)
Definition got (c : cons) (dst : Z) (l : list Z) (s : st) : st :=
  s <| so_user := put_bytes dst l (so_user s) |> <| so_comp := (so_comp s) <| ty_comp := c |> |>.

Lemma got_got c c' dst b l s : got c' (dst + 1) l (got c dst [b] s) = got c' dst (b :: l) s.
Proof. done. Qed.

(** The loop of consoleread(), up to the release of the lock, when the input has
    a whole line. *)
Lemma consoleread_loop_spec fuel k dst n target s input got' rest :
  cons_wf (con s) -> 0 <= n < 2 ^ 31 -> n <= target < 2 ^ 32 -> (Z.to_nat n < k)%nat -> 0 <= dst -> dst + n < 2 ^ 64 ->
  li_ready (cons_lines (con s)) = input ->
  take_line (Z.to_nat n) (negb (n <? target)) input = Some (got', rest) ->
  exists c', consoleread_loop tty_compl ra (S fuel) k true dst n target s =
      consoleread_done tty_compl target (n - Z.of_nat (length got')) (got c' dst got' s) /\
    cons_wf c' /\ cons_lines c' = mklines rest (li_edit (cons_lines (con s))) /\ co_lock c' = co_lock (con s) /\
    Z.of_nat (length got') <= n.
Proof.
  revert dst n s input got' rest. induction k as [|k IH]; intros dst n s input got' rest Hwf Hn Ht Hk Hd Hm Hin Htake; [lia|].
  cbn [consoleread_loop]. destruct (Z.ltb_spec 0 n) as [Hp|Hp]; cbn [negb].
  2: { replace n with 0 in * by lia. cbn in Htake. injection Htake as <- <-. exists (con s). cbn [length].
       split_and!; [|done|by destruct (cons_lines (con s)); cbn in *; subst|done|done].
       f_equal. unfold got. by destruct s as [? ? ? ? []]. }
  replace (Z.to_nat n) with (S (Z.to_nat (n - 1))) in Htake by lia. cbn [take_line] in Htake.
  destruct input as [|b input]; [done|].
  assert (0 < n_ready (con s)) as Hr by (rewrite <- length_ready, Hin; cbn [length]; lia).
  destruct (taken_spec _ Hwf Hr) as (W & _ & Ee & Er). rewrite Hin in Er. injection Er as Eb Ei.
  assert (cons_wait tty_compl ra (S fuel) s = Ret false s) as Ew.
  { cbn [cons_wait]. erewrite bind_ret by done. change (lget tty_compl s) with (con s).
    destruct (Z.eqb_spec (co_r (con s)) (co_w (con s))) as [E|]; [|done]. apply ready_empty_iff in E; [lia|done]. }
  erewrite bind_ret by exact Ew. cbv iota. erewrite bind_ret by done. change (lget tty_compl s) with (con s).
  erewrite bind_ret by (by apply aget_ok, cons_nth). rewrite <- Eb.
  erewrite bind_ret by apply cmod_eq. set (s1 := upd _ [] s).
  assert (s1 = got (cons_taken (con s)) dst [] s) as Es1.
  { unfold s1, upd, got. destruct s as [? ? ? ? []]. cbn. by rewrite app_nil_r. }
  assert (u32 n = n) as Eu by (apply Z.mod_small; lia). fold EOT.
  destruct (Z.eqb_spec b EOT) as [->|Hb].
  - rewrite Eu. injection Htake as <- <-. cbn [length]. rewrite Z.sub_0_r. destruct (n <? target); cbn [negb].
    + erewrite bind_ret by apply cmod_eq. exists (con s). split_and!; [| |by rewrite <- Hin; destruct (cons_lines (con s))|done|lia].
      * f_equal. rewrite Es1. unfold upd, got. destruct s as [? ? ? ? [? c ? ?]]. cbn. rewrite app_nil_r.
        do 2 f_equal. destruct c as [? ? r ? ?]. destruct Hwf as [_ Hr0 _ _ _ _]. cbn in *. unfold cons_taken. cbn. f_equal.
        unfold u32. zmod.
      * done.
    + erewrite bind_ret by done. exists (cons_taken (con s)). rewrite Es1.
      split_and!; [done|done| |done|lia]. rewrite <- Ee. subst input. by destruct (cons_lines _).
  - erewrite bind_ret by (cbn [os_copyout os_solo]; by erewrite bind_ret by done). change (0 =? -1) with false. cbv iota. fold NL.
    assert (set_field so_user (put_bytes dst [b] (so_user s1)) s1 = got (cons_taken (con s)) dst [b] s) as Es2.
    { rewrite Es1. unfold got. by destruct s. }
    destruct (Z.eqb_spec b NL) as [->|Hb2].
    + injection Htake as <- <-. cbn [length]. change (Z.of_nat 1) with 1. exists (cons_taken (con s)).
      split_and!; [by f_equal|done| |done|lia]. rewrite <- Ee. subst input. by destruct (cons_lines _).
    + apply bind_Some in Htake as ([g r'] & Htake & E). injection E as <- <-.
      assert (u64 (dst + 1) = dst + 1) as -> by (apply Z.mod_small; lia).
      destruct (IH (dst + 1) (n - 1) (got (cons_taken (con s)) dst [b] s) input g r') as (c' & E & W' & L & K & Hle);
        [done|lia|lia|lia|lia|lia|by symmetry|by replace (n - 1 <? target) with true by zcase|].
      rewrite Es2. rewrite E. exists c'. cbn [length]. rewrite got_got.
      replace (n - 1 - Z.of_nat (length g)) with (n - Z.of_nat (S (length g))) by lia.
      split_and!; [done|done| |by rewrite K|lia]. by rewrite L.
Qed.
End Read.

(** ** Properties *)

#[local] Notation tst := (solo (tty cons)).
#[local] Notation con s := (ty_comp (so_comp s)).

#[export] Instance tty_uart_cell : LockCell (fun _ : tst => True) os_cpu (uartlock tty_uartl).
Proof. by constructor. Qed.

(** C26: the line discipline.  One interrupt hands the console everything typed
    since the last one; the ring buffer behaves as two lists, committed input and
    the line being edited, on which each character acts in turn: ^H and DEL erase
    the last byte of the line, ^U the whole line, never committed input; other
    bytes are added while fewer than 128 are held, newline (or return), ^D and the
    128th byte commit the line; the terminal shows exactly these edits.  The
    indices are 32-bit counters at any value, also about to wrap. *)
Theorem console_lines (ra ta : Z) (procdump : M tst unit) (pd : list Z) (fuel : nat) (s : tst)
  (Hpd : forall s, inside s -> procdump s = Ret tt (upd (con s) pd s))
  (Hs : idle s) (Hin : Forall (fun c => 0 <= c < 256) (ty_input (so_comp s)))
  (Hu : lk_locked (ut_lock (ty_uart (so_comp s))) = false) (Hout : ut_w (ty_uart (so_comp s)) = ut_r (ty_uart (so_comp s)))
  (Hf : (length (ty_input (so_comp s)) <= fuel)%nat) :
  returns (uartintr tty_uartl tty_compl ra ta procdump (S fuel)) s (fun _ s' =>
    idle s' /\ cons_lines (con s') = foldl type_char (cons_lines (con s)) (ty_input (so_comp s)) /\
    ty_sent (so_comp s') = ty_sent (so_comp s) ++ echo_all pd (cons_lines (con s)) (ty_input (so_comp s)) /\
    ty_input (so_comp s') = []).
Proof.
  unfold uartintr. apply returns_bind. eapply returns_mono; [apply (uartintr_loop_spec ra procdump pd Hpd); [done|done|lia]|].
  intros [] s1 ([Hc Hl Hw Hp] & L & T & I & U).
  apply returns_bind. eapply returns_intro; [apply (acquire_free (D := fun _ => True)); [done|]|].
  { change (lget (uartlock tty_uartl) s1) with (ut_lock (ty_uart (so_comp s1))). by rewrite U. }
  set (s2 := lset os_cpu _ _).
  apply returns_bind. eapply returns_intro.
  { unfold uartstart. cbn [uartstart_loop]. erewrite bind_ret by done.
    change (ut_w (lget tty_uartl s2)) with (ut_w (ty_uart (so_comp s1))).
    change (ut_r (lget tty_uartl s2)) with (ut_r (ty_uart (so_comp s1))). rewrite U, Hout, Z.eqb_refl. done. }
  eapply returns_intro.
  { by apply (release_held (D := fun _ => True)) with (c := so_cpu s1). }
  split; [|done]. constructor; [by apply touched_ok|done|done|done].
Qed.

(** Read() gives one line at a time.  When the committed input holds a whole
    line (or [n] bytes), consoleread() copies exactly the bytes up to and including
    the newline, at most [n], to the caller's buffer, returns their number and
    leaves the rest; ^D ends the read without being copied, and stays in the
    buffer unless the read is empty, so that the next one returns 0. *)
Theorem consoleread_line (ra dst n : Z) (fuel : nat) (s : tst) (line rest : list Z)
  (Hs : idle s) (Hn : 0 <= n < 2 ^ 31) (Hd : 0 <= dst) (Hm : dst + n < 2 ^ 64)
  (Hline : take_line (Z.to_nat n) true (li_ready (cons_lines (con s))) = Some (line, rest)) :
  returns (consoleread tty_compl ra (S fuel) true dst n) s (fun r s' =>
    r = Z.of_nat (length line) /\ so_user s' = put_bytes dst line (so_user s) /\
    cons_lines (con s') = mklines rest (li_edit (cons_lines (con s))) /\ idle s').
Proof.
  destruct Hs as [Hcpu Hl Hwf Hp]. unfold consoleread.
  apply returns_bind. eapply returns_intro; [by apply (acquire_free (D := fun _ => True))|].
  set (s1 := lset os_cpu _ _). set (c1 := with_cons_lock (held_by (c_tp (so_cpu s))) (con s)).
  assert (cons_wf (con s1)) as W1 by (by apply (lock_wf (held_by (c_tp (so_cpu s))))).
  assert (u32 n = n) as -> by (apply Z.mod_small; lia).
  destruct (consoleread_loop_spec ra fuel (S (Z.to_nat n)) dst n n s1 (li_ready (cons_lines (con s))) line rest) as (c' & E & W & L & K & Hle);
    [done|lia|lia|lia|lia|lia|reflexivity|by rewrite Z.ltb_irrefl|].
  eapply returns_eq; [exact E|]. apply returns_bind. eapply returns_intro.
  { apply (release_held (D := fun _ => True)) with (c := so_cpu s); [done|done|done| |];
      change (lget (conslock tty_compl) _) with (co_lock c'); by rewrite K. }
  apply returns_ret. replace (n - (n - Z.of_nat (length line))) with (Z.of_nat (length line)) by lia.
  split_and!; [|done|exact L|].
  - unfold i32, u32. rewrite (Z.mod_small (Z.of_nat _)) by lia. rewrite Z.mod_small by lia. lia.
  - constructor; [by apply touched_ok|done|exact (lock_wf unheld c' W)|done].
Qed.

(** ** Witnesses *)

(** Indices about to wrap; "a" is being edited, then "b", DEL, "c" and return are
    typed. *)
Definition wit_cons : tst :=
  mksolo (mkcpu 0 None 0 false 0) 1 false ∅
    (mktty (mkuart (initlock "uart") (replicate 32 0) 5 5 false)
      (mkcons (initlock "cons") (replicate 127 0 ++ [97]) (2 ^ 32 - 1) (2 ^ 32 - 1) 0) [98; 127; 99; 13] []).

Lemma wit_cons_idle : idle wit_cons.
Proof.
  constructor; [by split|done| |done]. constructor; [done|cbn; lia|cbn; lia|cbn; lia|by vm_compute|].
  change (li_edit _) with [97]. by repeat constructor.
Defined.

Lemma console_lines_witness :
  returns (uartintr tty_uartl tty_compl 0 0 (consputc tty_uartl 1 33) 5) wit_cons (fun _ s' =>
    idle s' /\ cons_lines (con s') = mklines [97; 99; 10] [] /\
    ty_sent (so_comp s') = [98; 8; 32; 8; 99; 10] /\ ty_input (so_comp s') = []).
Proof.
  apply (console_lines 0 0 (consputc tty_uartl 1 33) [33] 4 wit_cons);
    [|apply wit_cons_idle|by repeat constructor|done|done|cbn; lia].
  intros s Hs. by apply consputc_inside.
Defined.

(** The same terminal with the line "hi" committed. *)
Definition wit_read : tst :=
  wit_cons <| so_comp := (so_comp wit_cons)
    <| ty_comp := mkcons (initlock "cons") ([104; 105; 10] ++ replicate 125 0) 0 3 3 |> |>.

Lemma wit_read_idle : idle wit_read.
Proof.
  constructor; [by split|done| |done]. constructor; [done|cbn; lia|cbn; lia|cbn; lia|by vm_compute|].
  change (li_edit _) with (@nil Z). constructor.
Defined.

Lemma consoleread_line_witness :
  returns (consoleread tty_compl 0 1 true 4096 100) wit_read (fun r s' =>
    r = 3 /\ so_user s' = put_bytes 4096 [104; 105; 10] (so_user wit_read) /\
    cons_lines (con s') = mklines [] [] /\ idle s').
Proof.
  apply (consoleread_line 0 4096 100 0 wit_read [104; 105; 10] []); [apply wit_read_idle|lia|lia|lia|by vm_compute].
Defined.
