(* ===== verification/Digits.v ===== *)
(** * Digits: the text of a number

    The loops that kernel/printf.c and user/printf.c share: digits are divided out
    into a buffer and written backwards.  The client says where characters go
    (the class [Sink]) and which table of digits it uses. *)
From S2P Require Import Prelude.

Section Digits.
Context {S : Type} (table : list Z) (emit : Z -> M S unit).

(** do { buf[i++] = digits[x % base]; } while((x /= base) != 0); at most one
    round per bit *)
Fixpoint digit_loop (k : nat) (buf : list Z) (i x base : Z) : M S (list Z * Z) :=
  match k with
  | O => fail EHang
  | Datatypes.S k' =>
      d <- aget table (x mod base) ;;
      buf <- aset buf i d ;;
      let x := x / base in
      if x =? 0 then ret (buf, i + 1) else digit_loop k' buf (i + 1) x base
  end.

(** while(--i >= 0) consputc(buf[i]); *)
Fixpoint emit_back (i : nat) (buf : list Z) : M S unit :=
  match i with
  | O => ret tt
  | Datatypes.S i' => c <- aget buf (Z.of_nat i') ;; emit c ;; emit_back i' buf
  end.

(** The digits of [x] go into the buffer [junk], a minus sign after them, and out
    backwards. *)
Definition print_digits (junk : list Z) (neg : bool) (x base : Z) : M S unit :=
  r <- digit_loop 32 junk 0 x base ;;
  let '(buf, i) := r in
  r <- (if neg then b <- aset buf i 45 ;; ret (b, i + 1) else ret (buf, i)) ;;
  emit_back (Z.to_nat (snd r)) (fst r).

(** for (i = 0; i < 16; i++, x <<= 4) *)
Fixpoint ptr_loop (k : nat) (x : Z) : M S unit :=
  match k with
  | O => ret tt
  | Datatypes.S k' => d <- aget table (Z.shiftr x 60) ;; emit d ;; ptr_loop k' (u64 (Z.shiftl x 4))
  end.

(** for(; *s; s++) consputc( *s ); *)
Fixpoint emit_all (l : list Z) : M S unit :=
  match l with
  | [] => ret tt
  | c :: l' => if c =? 0 then ret tt else emit c ;; emit_all l'
  end.
End Digits.

(** ** Specification *)

(** Where characters go: on states with [I], emitting [c] extends what was sent. *)
Class Sink {S} (emit : Z -> M S unit) (I : S -> Prop) (out : list Z -> S -> S) : Prop := {
  sk_emit : forall c s, 0 <= c < 256 -> I s -> emit c s = Ret tt (out [c] s);
  sk_inv : forall l s, I s -> I (out l s);
  sk_nil : forall s, out [] s = s;
  sk_app : forall l l' s, out l' (out l s) = out (l ++ l') s;
}.

Definition read_digit (c : Z) : Z :=
  if c <=? 57 then c - 48 else if c <=? 70 then c - 55 else c - 87.

Definition read_num (base : Z) (l : list Z) : Z := foldl (fun v c => v * base + read_digit c) 0 l.

(** Minus is 45. *)
Definition read_int (base : Z) (l : list Z) : Z :=
  match l with [] => 0 | c :: l' => if c =? 45 then - read_num base l' else read_num base l end.

(** The table has a character for each of sixteen digits. *)
Definition good_table (table : list Z) : Prop :=
  forall d, 0 <= d < 16 -> exists c, znth table d = Some c /\ read_digit c = d /\ 48 <= c < 128.

(** The text of [x], of at most [k] digits. *)
Fixpoint num_text (table : list Z) (k : nat) (x base : Z) : list Z :=
  match k with
  | O => []
  | S k' =>
      (if x / base =? 0 then [] else num_text table k' (x / base) base) ++
      [default 0 (znth table (x mod base))]
  end.

(** The text of an int. *)
Definition int_text (table : list Z) (xx base : Z) (sign : bool) : list Z :=
  if sign && (xx <? 0) then 45 :: num_text table 32 (- xx) base else num_text table 32 (u32 xx) base.

(** Sixteen digits, most significant first. *)
Definition ptr_text (table : list Z) (x : Z) : list Z :=
  (fun i => default 0 (znth table (x / 16 ^ Z.of_nat (15 - i) mod 16))) <$> seq 0 16.

(** ** Lemmas *)

Lemma pow_32 base n : 5 <= base -> (14 <= n)%nat -> 2 ^ 32 < base ^ Z.of_nat n.
Proof.
  intros Hb Hn. assert (5 ^ 14 <= 5 ^ Z.of_nat n) by (apply Z.pow_le_mono_r; lia).
  assert (5 ^ Z.of_nat n <= base ^ Z.of_nat n) by (apply Z.pow_le_mono_l; lia). lia.
Qed.

(** Shifting left by a digit moves the next one to its place. *)
Lemma next_digit x e : 0 <= x -> 0 <= e <= 14 -> x * 16 mod 2 ^ 64 / 16 ^ Z.succ e mod 16 = x / 16 ^ e mod 16.
Proof.
  intros Hx He. pose proof (Z.pow_pos_nonneg 16 e ltac:(lia) ltac:(lia)).
  pose proof (Z.pow_pos_nonneg 16 (14 - e) ltac:(lia) ltac:(lia)).
  replace (2 ^ 64) with (16 ^ Z.succ e * (16 * 16 ^ (14 - e))).
  2: { rewrite <- Z.pow_succ_r, <- Z.pow_add_r by lia. replace (Z.succ e + Z.succ (14 - e)) with 16 by lia. done. }
  rewrite (Z.pow_succ_r _ e), Z.rem_mul_r, (Z.mul_comm (16 * 16 ^ e)), Z.div_add by lia.
  rewrite (Z.div_small (_ mod _)), Z.add_0_l, (Z.mul_comm 16 (16 ^ e)), Z.div_mul_cancel_r by (lia || (apply Z.mod_pos_bound; lia)).
  apply Z.mod_mod_divide, Z.divide_factor_l.
Qed.

Section Text.
Context (table : list Z) (Htable : good_table table) (base : Z) (Hbase : 2 <= base <= 16).

Lemma digit_char x : 0 <= x -> exists c, znth table (x mod base) = Some c /\ read_digit c = x mod base /\ 48 <= c < 128.
Proof. intros Hx. apply Htable. pose proof (Z.mod_pos_bound x base). lia. Qed.

Lemma div_bound k x : 0 <= x < base ^ Z.of_nat (S k) -> 0 <= x / base < base ^ Z.of_nat k.
Proof.
  intros Hx. rewrite Nat2Z.inj_succ, Z.pow_succ_r in Hx by lia. split; [apply Z.div_pos; lia|].
  apply Z.div_lt_upper_bound; lia.
Qed.

Lemma read_num_snoc b l c : read_num b (l ++ [c]) = read_num b l * b + read_digit c.
Proof. unfold read_num. by rewrite foldl_app. Qed.

Lemma num_text_reads k x : 0 <= x < base ^ Z.of_nat k -> read_num base (num_text table k x base) = x.
Proof.
  revert x. induction k as [|k IH]; intros x Hx; [cbn in *; lia|].
  cbn [num_text]. rewrite read_num_snoc. destruct (digit_char x ltac:(lia)) as (c & -> & Hc & _). change (default 0 (Some c)) with c. rewrite Hc.
  pose proof (div_bound k x Hx). pose proof (Z.div_mod x base ltac:(lia)).
  destruct (Z.eqb_spec (x / base) 0) as [E|E]; [cbn; lia|].
  rewrite IH by done. lia.
Qed.

Lemma num_text_chars k x : 0 <= x -> Forall (fun c => 48 <= c < 128) (num_text table k x base).
Proof.
  revert x. induction k as [|k IH]; intros x Hx; [constructor|]. cbn [num_text]. apply Forall_app. split.
  - destruct (x / base =? 0); [constructor|]. apply IH. apply Z.div_pos; lia.
  - destruct (digit_char x Hx) as (c & -> & _ & Hc). by constructor.
Qed.

Lemma num_text_length k n x : 0 <= x < base ^ Z.of_nat n -> (0 < n)%nat -> (length (num_text table k x base) <= n)%nat.
Proof.
  revert n x. induction k as [|k IH]; intros n x Hx Hn; [cbn; lia|]. cbn [num_text]. rewrite length_app. cbn [length].
  destruct (Z.eqb_spec (x / base) 0) as [E|E]; [cbn; lia|].
  destruct n as [|n]; [lia|]. pose proof (div_bound n x Hx) as Hd. destruct n as [|n]; [cbn in Hd; lia|].
  specialize (IH (S n) (x / base) Hd ltac:(lia)). lia.
Qed.

(** No leading zero, but for the text of zero. *)
Lemma num_text_head k x : 0 <= x < base ^ Z.of_nat k -> (0 < k)%nat ->
  exists c l, num_text table k x base = c :: l /\ (read_digit c <> 0 \/ x = 0 /\ l = []).
Proof.
  revert x. induction k as [|k IH]; intros x Hx Hk; [lia|]. cbn [num_text].
  destruct (digit_char x ltac:(lia)) as (c & -> & Hc & _). change (default 0 (Some c)) with c.
  pose proof (div_bound k x Hx) as Hd. pose proof (Z.div_mod x base ltac:(lia)).
  destruct (Z.eqb_spec (x / base) 0) as [E|E].
  - exists c, []. split; [done|]. destruct (Z.eq_dec x 0); [by right|left; lia].
  - destruct k as [|k]; [cbn in Hd; lia|]. destruct (IH _ Hd ltac:(lia)) as (c' & l & -> & [H1|[H1 _]]); [|lia].
    exists c', (l ++ [c]). split; [done|by left].
Qed.

Lemma num_text_fuel k n x : 0 <= x < base ^ Z.of_nat n -> (0 < n <= k)%nat -> num_text table k x base = num_text table n x base.
Proof.
  revert n x. induction k as [|k IH]; intros n x Hx Hn; [lia|]. destruct n as [|n]; [lia|]. cbn [num_text]. f_equal.
  pose proof (div_bound n x Hx) as Hd. destruct (Z.eqb_spec (x / base) 0) as [E|E]; [done|].
  destruct n as [|n]; [cbn in Hd; lia|]. apply IH; [done|lia].
Qed.

(** The argument of print_digits() in both programs. *)
Lemma int_text_eq xx sign : - 2 ^ 31 <= xx < 2 ^ 31 ->
  int_text table xx base sign =
  (if sign && (xx <? 0) then [45] else []) ++
  num_text table 32 (if sign && (xx <? 0) then u32 (i32 (- xx)) else u32 xx) base.
Proof using.
  clear Hbase Htable. intros Hx. unfold int_text. destruct (sign && (xx <? 0)) eqn:E; [|done]. apply andb_true_iff in E as [_ E%Z.ltb_lt].
  cbn [app]. do 2 f_equal. unfold u32, i32. zmod.
Qed.

(** ** The loops *)

Context {S : Type}.

Lemma digit_loop_spec k (buf : list Z) i x (s : S) : 0 <= x < base ^ Z.of_nat k -> (0 < k)%nat -> 0 <= i ->
  i + Z.of_nat (length (num_text table k x base)) <= Z.of_nat (length buf) ->
  exists buf', digit_loop table k buf i x base s = Ret (buf', i + Z.of_nat (length (num_text table k x base))) s /\
    length buf' = length buf /\
    take (Z.to_nat i + length (num_text table k x base)) buf' = take (Z.to_nat i) buf ++ rev (num_text table k x base).
Proof.
  revert buf i x. induction k as [|k IH]; intros buf i x Hx Hk Hi Hl; [lia|].
  pose proof (div_bound k x Hx) as Hd. cbn [digit_loop num_text] in *. rewrite length_app in Hl. cbn [length] in Hl.
  destruct (digit_char x ltac:(lia)) as (c & Ec & _ & _). rewrite Ec in *. change (default 0 (Some c)) with c in *.
  erewrite bind_ret by (by apply aget_ok). erewrite bind_ret by (apply aset_ok; lia). cbv zeta.
  set (b1 := <[Z.to_nat i := c]> buf).
  assert (length b1 = length buf) as Lb by apply length_insert.
  assert (take (Z.to_nat i + 1) b1 = take (Z.to_nat i) buf ++ [c]) as Tb.
  { rewrite Nat.add_1_r. unfold b1. erewrite take_S_r by (apply list_lookup_insert_eq; lia). by rewrite take_insert_ge. }
  destruct (Z.eqb_spec (x / base) 0) as [E|E].
  - exists b1. cbn [app length rev]. split_and!; [done|done|exact Tb].
  - destruct k as [|k]; [cbn in Hd; lia|].
    destruct (IH b1 (i + 1) (x / base) Hd ltac:(lia) ltac:(lia) ltac:(lia)) as (b2 & -> & L2 & T2).
    exists b2. rewrite length_app. cbn [length].
    replace (Z.to_nat (i + 1)) with (Z.to_nat i + 1)%nat in T2 by lia.
    split_and!; [f_equal; f_equal; lia|lia|].
    rewrite rev_app_distr. cbn [rev app]. rewrite Tb, <- app_assoc in T2. change ([c] ++ ?l) with (c :: l) in T2. rewrite <- T2. f_equal. lia.
Qed.

Context (emit : Z -> M S unit) (I : S -> Prop) (out : list Z -> S -> S) `{!Sink emit I out}.

Lemma emit_back_spec i (buf : list Z) (s : S) : I s -> (i <= length buf)%nat -> Forall (fun c => 0 <= c < 256) (take i buf) ->
  emit_back emit i buf s = Ret tt (out (rev (take i buf)) s).
Proof.
  revert s. induction i as [|i IH]; intros s Hs Hi Hc; [by rewrite take_0, sk_nil|]. cbn [emit_back].
  destruct (lookup_lt_is_Some_2 buf i) as [c Hb]; [lia|]. rewrite (take_S_r _ _ _ Hb) in *.
  apply Forall_app in Hc as [Hc Hc1]. inversion Hc1; subst.
  erewrite bind_ret by (apply aget_ok; by rewrite znth_nat). erewrite bind_ret by (by apply sk_emit).
  rewrite IH by (done || lia || by apply sk_inv). by rewrite rev_app_distr, sk_app.
Qed.

Lemma emit_all_spec l (s : S) : I s -> Forall (fun c => 0 < c < 256) l -> emit_all emit l s = Ret tt (out l s).
Proof.
  revert s. induction l as [|c l IH]; intros s Hs Hc; [cbn; by rewrite sk_nil|]. inversion Hc; subst. cbn [emit_all].
  destruct (Z.eqb_spec c 0); [lia|]. erewrite bind_ret by (apply sk_emit; [lia|done]).
  rewrite IH by (done || by apply sk_inv). by rewrite sk_app.
Qed.

(** The text fits in the 16 bytes of the buffer, whatever the base from 5 on. *)
Lemma print_digits_eq junk neg x (s : S) : I s -> length junk = 16%nat -> 0 <= x < 2 ^ 32 -> 5 <= base ->
  print_digits table emit junk neg x base s = Ret tt (out ((if neg then [45] else []) ++ num_text table 32 x base) s).
Proof.
  intros Hs Hjunk Hx0 Hb. unfold print_digits. set (txt := num_text table 32 x base).
  pose proof (pow_32 base 32 ltac:(lia) ltac:(lia)). pose proof (pow_32 base 14 ltac:(lia) ltac:(lia)).
  assert (length txt <= 14)%nat as Hl by (apply num_text_length; lia).
  assert (Forall (fun c => 0 <= c < 256) txt) as Hc.
  { eapply Forall_impl; [apply num_text_chars; lia|]. cbn. lia. }
  destruct (digit_loop_spec 32 junk 0 x s) as (b & E & Lb & Tb); [lia|lia|lia|fold txt; rewrite Hjunk; lia|].
  erewrite bind_ret by exact E. fold txt in Tb |- *. change (Z.to_nat 0) with 0%nat in Tb. rewrite take_0, Nat.add_0_l in Tb.
  cbn [app] in Tb. destruct neg.
  - assert (length txt < length b)%nat by lia.
    erewrite bind_ret.
    2: { erewrite bind_ret by (apply aset_ok; lia). done. }
    cbn [fst snd]. rewrite Z.add_0_l, Nat2Z.id. replace (Z.to_nat (Z.of_nat (length txt) + 1)) with (Datatypes.S (length txt)) by lia.
    assert (take (Datatypes.S (length txt)) (<[length txt:=45]> b) = rev txt ++ [45]) as T.
    { erewrite take_S_r by (by apply list_lookup_insert_eq). by rewrite take_insert_ge, Tb. }
    rewrite (emit_back_spec _ _ _ Hs); [|rewrite length_insert; lia|]; rewrite T.
    + by rewrite rev_app_distr, rev_involutive.
    + apply Forall_app. split; [by apply Forall_rev|]. by repeat constructor.
  - erewrite bind_ret by done. cbn [fst snd]. rewrite Z.add_0_l, Nat2Z.id.
    rewrite (emit_back_spec _ _ _ Hs); [by rewrite Tb, rev_involutive|lia|]. rewrite Tb. by apply Forall_rev.
Qed.

(** The loop shows the top digit first. *)
Lemma ptr_loop_eq k x (s : S) : I s -> 0 <= x < 2 ^ 64 -> (k <= 16)%nat ->
  ptr_loop table emit k x s =
  Ret tt (out ((fun i => default 0 (znth table (x / 16 ^ Z.of_nat (15 - i) mod 16))) <$> seq 0 k) s).
Proof using Htable Sink0.
  clear Hbase base. revert x s. induction k as [|k IH]; intros x s Hs Hx Hk; [cbn; by rewrite sk_nil|].
  change (seq 0 (Datatypes.S k)) with (0%nat :: seq 1 k). cbn [ptr_loop fmap list_fmap].
  assert (Z.shiftr x 60 = x / 16 ^ 15) as -> by (rewrite Z.shiftr_div_pow2 by lia; done).
  assert (x / 16 ^ Z.of_nat (15 - 0) mod 16 = x / 16 ^ 15) as ->.
  { change (Z.of_nat (15 - 0)) with 15. apply Z.mod_small. zmod. }
  destruct (Htable (x / 16 ^ 15)) as (c & E & _ & Hc); [zmod|]. rewrite E.
  change (default 0 (Some c)) with c. erewrite bind_ret by (by apply aget_ok).
  erewrite bind_ret by (apply sk_emit; [lia|done]).
  assert (u64 (Z.shiftl x 4) = x * 16 mod 2 ^ 64) as -> by (unfold u64; by rewrite Z.shiftl_mul_pow2 by lia).
  rewrite IH; [|by apply sk_inv|apply Z.mod_pos_bound; lia|lia].
  rewrite sk_app. do 3 f_equal.
  rewrite <- (fmap_S_seq 0), <- list_fmap_compose. apply list_fmap_ext. intros i j Hj. apply lookup_seq in Hj as [-> Hi].
  cbn [compose]. do 2 f_equal. rewrite <- (next_digit x (Z.of_nat (15 - Datatypes.S (0 + i)))) by lia. do 3 f_equal. lia.
Qed.
End Text.
