(* ===== verification/Printf.v ===== *)
(** * Printf: formatted console output

    Models kernel/printf.c, and procdump() of kernel/proc.c.  The text of a number
    is built backwards in a buffer of 16 bytes; what it reads back as is the
    specification. *)
From S2P Require Import Prelude Spinlock ProcQueue Mem Kalloc Vm KState Proc Sched Syscall Trap Os Uart Console Digits.

Record prst : Type := mkpr { pr_lock : spinlock; pr_locking : bool }.
#[export] Instance eta_prst : Settable prst := fun p => mkpr (pr_lock p) (pr_locking p).

(** digits[], its NUL included *)
Definition digits : list Z := bytes_of_string "0123456789abcdef" ++ [0].

Section Printf.
Context {S : Type} `{!OS S} `{!UartRegs S}.
Context (ul : lens S uart) (prl : lens S prst) (fuel : nat).

(** [junk] is what the uninitialised buf[16] holds. *)
Context (junk : list Z).

Definition prlock : lens S spinlock := lens_comp prl (field pr_lock).
Notation putc := (consputc ul fuel).

(** [xx] and [base] are ints.  -xx wraps for the least one, as the compiled code does. *)
Definition printint (xx base : Z) (sign : bool) : M S unit :=
  let neg := sign && (xx <? 0) in
  let x := if neg then u32 (i32 (- xx)) else u32 xx in
  print_digits digits putc junk neg x base.

Definition printptr (x : Z) : M S unit :=
  putc 48 ;; putc 120 ;; ptr_loop digits putc 16 x.

(** for(i = 0; (c = fmt[i] & 0xff) != 0; i++), on the bytes of fmt before its NUL *)
Fixpoint printf_loop (fmt : list Z) (ap : list varg) : M S unit :=
  match fmt with
  | [] => ret tt
  | c :: rest =>
      if c =? 0 then ret tt else
      if negb (c =? 37) then putc c ;; printf_loop rest ap else
      match rest with
      | [] => ret tt
      | c :: rest =>
          if c =? 0 then ret tt else
          if c =? 100 then (* d *)
            match ap with AInt x :: ap => printint x 10 true ;; printf_loop rest ap | _ => fail EUndef end
          else if c =? 120 then (* x *)
            match ap with AInt x :: ap => printint x 16 true ;; printf_loop rest ap | _ => fail EUndef end
          else if c =? 112 then (* p *)
            match ap with ALong x :: ap => printptr x ;; printf_loop rest ap | _ => fail EUndef end
          else if c =? 115 then (* s *)
            match ap with
            | AStr s :: ap => emit_all putc (default (bytes_of_string "(null)") s) ;; printf_loop rest ap
            | _ => fail EUndef
            end
          else if c =? 37 then putc 37 ;; printf_loop rest ap
          else putc 37 ;; putc c ;; printf_loop rest ap
      end
  end.

Definition printf (fmt : option (list Z)) (ap : list varg) : M S unit :=
  pr <- lread prl ;;
  let locking := pr_locking pr in
  when locking (acquire os_cpu prlock) ;;
  match fmt with
  | None => Prelude.panic "null fmt"
  | Some f =>
      printf_loop f ap ;;
      when locking (release os_cpu prlock)
  end.

Definition panic (s : list Z) : M S unit :=
  lmod prl (fun pr => pr <| pr_locking := false |>) ;;
  printf (Some (bytes_of_string "panic: ")) [] ;;
  printf (Some s) [] ;;
  printf (Some (bytes_of_string nl)) [] ;;
  lmod ul (fun u => u <| ut_panicked := true |>) ;;
  fail EHang.

Definition printfinit : M S unit :=
  lmod prl (fun pr => pr <| pr_lock := initlock "pr" |>) ;;
  lmod prl (fun pr => pr <| pr_locking := true |>).
End Printf.

(** ** procdump() *)

Section Procdump.
Context {F : Type} `{!Printk F}.
Context (kind : sched_kind).

(** states[]: there is no entry for USED. *)
Definition state_name (st : procstate) : string :=
  match st with
  | UNUSED => "unused"
  | SLEEPING => "sleep "
  | RUNNABLE => "runble"
  | RUNNING => "run   "
  | ZOMBIE => "zombie"
  | USED => "???"
  end.

Definition tab : string := String (Ascii.ascii_of_nat 9) EmptyString.
Definition text (s : string) : varg := AStr (Some (bytes_of_string s)).

Definition dump_line (p : proc) (ticks : Z) : M (kst F) unit :=
  let state := text (state_name (p_state p)) in
  match kind with
  | DEFAULT_SCHEDULER | FCFS =>
      printk "%d %s %s" [AInt (p_pid p); state; text (p_name p)]
  | PBS =>
      printk ("%d" ++ tab ++ "%d" ++ tab ++ "%s" ++ tab ++ "%d" ++ tab ++ "%d" ++ tab ++ "%d" ++ nl)
        [AInt (p_pid p); AInt (p_dynamicPriority p); state; AInt (i32 (p_rtime p));
         AInt (i32 (ticks - p_birthtime p - p_rtime p)); AInt (i32 (p_nrun p))]
  | MLFQ =>
      printk ("%d" ++ tab ++ "%d" ++ tab ++ tab ++ "%s" ++ tab ++ "%d" ++ tab ++ "%d" ++ tab ++ "%d" ++ tab ++
              "%d" ++ tab ++ "%d" ++ tab ++ "%d" ++ tab ++ "%d" ++ tab ++ "%d" ++ nl)
        ([AInt (p_pid p); AInt (p_level p); state; AInt (i32 (p_rtime p));
          AInt (i32 (ticks - p_qEnter p)); AInt (i32 (p_nrun p))] ++
         ((fun q => AInt (i32 q)) <$> take 5 (p_timeineachq p)))
  end.

Definition procdump : M (kst F) unit :=
  printk nl [] ;;
  match kind with
  | DEFAULT_SCHEDULER | FCFS => ret tt
  | PBS => printk ("PID" ++ tab ++ "Priority" ++ tab ++ "State" ++ tab ++ "rtime" ++ tab ++ "wtime" ++ tab ++ "nrun" ++ nl) []
  | MLFQ =>
      printk ("PID" ++ tab ++ "Priority" ++ tab ++ "State" ++ tab ++ "rtime" ++ tab ++ "wtime" ++ tab ++ "nrun" ++ tab ++
              "q0" ++ tab ++ "q1" ++ tab ++ "q2" ++ tab ++ "q3" ++ tab ++ "q4" ++ nl) []
  end ;;
  for_each (seq 0 NPROC) (fun i =>
    p <- gets (fun s => getproc s i) ;;
    if bool_decide (p_state p = UNUSED) then ret tt else
    ticks <- gets ks_ticks ;;
    dump_line p ticks ;;
    printk nl []).
End Procdump.

(** ** Specification *)

Lemma digits_good : good_table digits.
Proof.
  intros d Hd. assert (d = 0 \/ d = 1 \/ d = 2 \/ d = 3 \/ d = 4 \/ d = 5 \/ d = 6 \/ d = 7 \/ d = 8 \/ d = 9 \/
    d = 10 \/ d = 11 \/ d = 12 \/ d = 13 \/ d = 14 \/ d = 15) as H by lia.
  repeat (destruct H as [->|H]; [eexists; split; [reflexivity|done]|]). subst. by eexists.
Qed.

(** What printf() shows of a format and its arguments; [None] when an argument is
    missing or of the wrong kind. *)
Fixpoint render (fmt : list Z) (ap : list varg) : option (list Z) :=
  match fmt with
  | [] => Some []
  | c :: rest =>
      if c =? 37 then
        match rest with
        | [] => Some []
        | d :: rest =>
            '(shown, ap) ←
              (if d =? 100 then match ap with AInt x :: ap => Some (int_text digits x 10 true, ap) | _ => None end
               else if d =? 120 then match ap with AInt x :: ap => Some (int_text digits x 16 true, ap) | _ => None end
               else if d =? 112 then match ap with ALong x :: ap => Some (48 :: 120 :: ptr_text digits x, ap) | _ => None end
               else if d =? 115 then
                 match ap with AStr s :: ap => Some (default (bytes_of_string "(null)") s, ap) | _ => None end
               else Some (if d =? 37 then [37] else [37; d], ap));
            text ← render rest ap; Some (shown ++ text)
        end
      else text ← render rest ap; Some (c :: text)
  end.

(** Values of the C types, and bytes of strings. *)
Definition arg_ok (a : varg) : Prop :=
  match a with
  | AInt x => - 2 ^ 31 <= x < 2 ^ 31
  | ALong x => 0 <= x < 2 ^ 64
  | AStr s => Forall (fun c => 0 < c < 256) (default [] s)
  end.

(** ** Lemmas *)

#[local] Notation tst := (solo (tty prst)).
#[local] Notation putc fuel := (consputc (S := tst) tty_uartl (S fuel)).

Definition writable (s : tst) : Prop := cpu_ok (so_cpu s) /\ ut_panicked (ty_uart (so_comp s)) = false.
Definition shown (l : list Z) (s : tst) : tst := match l with [] => s | _ => echo l s end.

#[export] Instance console_sink fuel : Sink (putc fuel) writable shown.
Proof.
  constructor.
  - intros c s Hc [H1 H2]. rewrite consputc_eq, echoed_byte by done. done.
  - intros l s [H1 H2]. destruct l; [done|]. split; [by apply touched_ok|done].
  - done.
  - intros l l' s. destruct l, l'; cbn [shown app]; rewrite ?app_nil_r; try done. by rewrite echo_echo.
Qed.

Section Run.
Context (fuel : nat) (junk : list Z) (Hjunk : length junk = 16%nat).

Lemma printint_eq xx base sign (s : tst) : writable s -> - 2 ^ 31 <= xx < 2 ^ 31 -> 5 <= base <= 16 ->
  printint tty_uartl (S fuel) junk xx base sign s = Ret tt (shown (int_text digits xx base sign) s).
Proof using Hjunk.
  intros Hs Hx Hb. unfold printint. rewrite int_text_eq by done. apply (print_digits_eq digits digits_good base ltac:(lia) _ writable shown); [done|done| |lia].
  destruct (sign && (xx <? 0)); apply Z.mod_pos_bound; lia.
Qed.

Lemma printptr_eq x (s : tst) : writable s -> 0 <= x < 2 ^ 64 ->
  printptr tty_uartl (S fuel) x s = Ret tt (shown (48 :: 120 :: ptr_text digits x) s).
Proof using.
  clear junk Hjunk. intros Hs Hx. pose proof (sk_inv (Sink := console_sink fuel)) as Hinv. unfold printptr.
  erewrite bind_ret by (by apply (sk_emit (Sink := console_sink fuel))).
  erewrite bind_ret by (apply (sk_emit (Sink := console_sink fuel)); [done|by apply Hinv]).
  erewrite ptr_loop_eq; [|apply digits_good|apply (console_sink fuel)|by do 2 apply Hinv|done|lia]. by rewrite !(sk_app (Sink := console_sink fuel)).
Qed.

Lemma printf_loop_eq fmt ap out (s : tst) : writable s -> Forall (fun c => 0 < c < 256) fmt -> Forall arg_ok ap ->
  render fmt ap = Some out -> printf_loop tty_uartl (S fuel) junk fmt ap s = Ret tt (shown out s).
Proof using Hjunk.
  pose proof (sk_inv (Sink := console_sink fuel)) as Hinv. pose proof (sk_emit (Sink := console_sink fuel)) as Hemit.
  pose proof (sk_app (Sink := console_sink fuel)) as Happ.
  remember (length fmt) as n eqn:En. assert (length fmt <= n)%nat as Hn by lia. clear En.
  revert fmt ap out s Hn. induction n as [|n IH]; intros fmt ap out s Hn Hs Hf Ha Hr;
    (destruct fmt as [|c fmt]; [by injection Hr as <-|]); cbn in Hn; [lia|].
  inversion Hf as [|? ? Hc Hf']; subst. cbn [printf_loop render] in *.
  destruct (Z.eqb_spec c 0); [lia|]. destruct (Z.eqb_spec c 37) as [->|Hc37]; cbn [negb].
  2: { apply bind_Some in Hr as (t & Hr & E). injection E as <-. erewrite bind_ret by (apply Hemit; [lia|done]).
       erewrite IH; [by rewrite Happ|lia|by apply Hinv|done|exact Ha|exact Hr]. }
  destruct fmt as [|d fmt]; [by injection Hr as <-|]. inversion Hf' as [|? ? Hd Hf'']; subst. cbn [length] in Hn.
  destruct (Z.eqb_spec d 0); [lia|]. apply bind_Some in Hr as ([t ap'] & Ht & Hr).
  apply bind_Some in Hr as (t' & Hr & E). injection E as <-.
  assert (forall s1, s1 = shown t s -> Forall arg_ok ap' -> printf_loop tty_uartl (S fuel) junk fmt ap' s1 = Ret tt (shown (t ++ t') s)) as Hrest.
  { intros s1 -> Ha'. erewrite IH; [by rewrite Happ|lia|by apply Hinv|done|done|exact Hr]. }
  destruct (d =? 100).
  { destruct ap as [|[x| |] ap]; try done. injection Ht as <- <-. inversion Ha; subst.
    erewrite bind_ret by (apply printint_eq; [done|done|lia]). by apply Hrest. }
  destruct (d =? 120).
  { destruct ap as [|[x| |] ap]; try done. injection Ht as <- <-. inversion Ha; subst.
    erewrite bind_ret by (apply printint_eq; [done|done|lia]). by apply Hrest. }
  destruct (d =? 112).
  { destruct ap as [|[|x|] ap]; try done. injection Ht as <- <-. inversion Ha; subst.
    erewrite bind_ret by (by apply printptr_eq). by apply Hrest. }
  destruct (d =? 115).
  { destruct ap as [|[| |x] ap]; try done. injection Ht as <- <-. inversion Ha as [|? ? Hx]; subst.
    erewrite bind_ret. { by apply Hrest. }
    apply (emit_all_spec _ _ _ _ _ Hs). destruct x as [x|]; [done|]. by repeat constructor. }
  destruct (Z.eqb_spec d 37) as [->|_]; injection Ht as <- <-.
  - erewrite bind_ret by (by apply Hemit). by apply Hrest.
  - erewrite bind_ret by (by apply Hemit). erewrite bind_ret by (apply Hemit; [lia|by apply Hinv]). rewrite Happ. by apply Hrest.
Qed.
End Run.

#[export] Instance pr_cell : LockCell (fun _ : tst => True) os_cpu (prlock tty_compl).
Proof. by constructor. Qed.

Lemma shown_fields l s :
  ty_sent (so_comp (shown l s)) = ty_sent (so_comp s) ++ l /\ ty_comp (so_comp (shown l s)) = ty_comp (so_comp s) /\
  ty_uart (so_comp (shown l s)) = ty_uart (so_comp s) /\
  (so_cpu (shown l s) = so_cpu s \/ so_cpu (shown l s) = touched (so_cpu s)).
Proof. destruct l; [rewrite app_nil_r; by eauto|]. cbn. eauto. Qed.

(** ** Properties *)

(** C29: printf() shows what its format and arguments say, on every branch: %d and
    %x an int in base 10 and 16, %p all sixteen digits of a pointer, %s a string
    or "(null)", %% a percent sign, any other letter itself after a percent sign;
    a trailing percent sign shows nothing.  It neither overruns the 16 bytes of
    printint()'s buffer nor keeps the print lock, whether locking is on or, after
    a panic, off. *)
Theorem printf_renders (fuel : nat) (junk fmt : list Z) (ap : list varg) (out : list Z) (s : tst)
  (Hjunk : length junk = 16%nat) (Hs : writable s) (Hl : lk_locked (pr_lock (ty_comp (so_comp s))) = false)
  (Hfmt : Forall (fun c => 0 < c < 256) fmt) (Hap : Forall arg_ok ap) (Hr : render fmt ap = Some out) :
  returns (printf tty_uartl tty_compl (S fuel) junk (Some fmt) ap) s (fun _ s' =>
    ty_sent (so_comp s') = ty_sent (so_comp s) ++ out /\ writable s' /\
    lk_locked (pr_lock (ty_comp (so_comp s'))) = false /\
    pr_locking (ty_comp (so_comp s')) = pr_locking (ty_comp (so_comp s))).
Proof.
  destruct Hs as [Hc Hp]. unfold printf. apply returns_bind. eapply returns_intro; [done|].
  change (lget tty_compl s) with (ty_comp (so_comp s)). destruct (pr_locking (ty_comp (so_comp s))) eqn:Eb; cbn [when].
  - apply returns_bind. eapply returns_intro; [by apply (acquire_free (D := fun _ => True))|].
    set (s1 := lset os_cpu _ _).
    assert (writable s1) as W1 by (split; [by apply pushed_ok|done]).
    apply returns_bind. eapply returns_intro; [by apply printf_loop_eq|].
    destruct (shown_fields out s1) as (F1 & F2 & F3 & F4).
    assert (so_cpu (shown out s1) = pushed (so_cpu s)) as Ec.
    { destruct F4 as [->| ->]; [done|]. by apply touched_pushed. }
    eapply returns_intro.
    { apply (release_held (D := fun _ => True)) with (c := so_cpu s); [done|done|exact Ec| |];
        change (lget (prlock tty_compl) (shown out s1)) with (pr_lock (ty_comp (so_comp (shown out s1)))); by rewrite F2. }
    split_and!; [exact F1| |done|].
    + split; [by apply touched_ok|]. change (ut_panicked (ty_uart (so_comp (shown out s1))) = false). by rewrite F3.
    + change (pr_locking (ty_comp (so_comp (shown out s1))) = true). by rewrite F2.
  - apply returns_bind. eapply returns_intro; [done|]. apply returns_bind.
    eapply returns_intro; [by apply printf_loop_eq|]. apply returns_ret.
    destruct (shown_fields out s) as (F1 & F2 & F3 & F4). split_and!; [done| |by rewrite F2|by rewrite F2].
    split; [|by rewrite F3]. destruct F4 as [->| ->]; [done|by apply touched_ok].
Qed.

(** The text of a number reads back.  In base 10 or 16, for every int also
    the least, what printint() shows is the number in at most 11 characters, with
    a minus sign exactly when the number is shown as signed and negative, and no
    leading zero. *)
Theorem printint_reads_back (fuel : nat) (junk : list Z) (xx base : Z) (sign : bool) (s : tst)
  (Hjunk : length junk = 16%nat) (Hs : writable s) (Hx : - 2 ^ 31 <= xx < 2 ^ 31) (Hb : base = 10 \/ base = 16) :
  returns (printint tty_uartl (S fuel) junk xx base sign) s (fun _ s' =>
    exists out c rest, ty_sent (so_comp s') = ty_sent (so_comp s) ++ out /\ (length out <= 11)%nat /\
      read_int base out = (if sign then xx else u32 xx) /\
      out = (if sign && (xx <? 0) then [45] else []) ++ c :: rest /\ (read_digit c <> 0 \/ rest = [] /\ xx = 0)).
Proof.
  eapply returns_intro; [apply printint_eq; [done|done|done|lia]|]. exists (int_text digits xx base sign).
  assert (2 <= base <= 16) as Hb2 by lia.
  assert (2 ^ 32 < base ^ 10) as H10 by (by destruct Hb as [-> | ->]).
  pose proof (pow_32 base 32 ltac:(lia) ltac:(lia)).
  assert (forall x, 0 <= x < 2 ^ 32 -> exists c rest, num_text digits 32 x base = c :: rest /\
    (length (c :: rest) <= 10)%nat /\ read_num base (c :: rest) = x /\ c <> 45 /\ (read_digit c <> 0 \/ x = 0 /\ rest = [])) as Hnum.
  { intros x Hx0. destruct (num_text_head digits digits_good base Hb2 32 x) as (c & rest & E & Hz); [lia|lia|].
    exists c, rest. rewrite <- E. split_and!; [done| | | |done].
    - apply (num_text_length digits base Hb2); lia.
    - apply (num_text_reads digits digits_good base Hb2). lia.
    - pose proof (num_text_chars digits digits_good base Hb2 32 x ltac:(lia)) as Hc. rewrite E in Hc.
      inversion Hc as [|? ? Hc0 _]. lia. }
  destruct (shown_fields (int_text digits xx base sign) s) as [-> _].
  unfold int_text. destruct (sign && (xx <? 0)) eqn:En.
  - apply andb_true_iff in En as [-> Hn%Z.ltb_lt]. destruct (Hnum (- xx) ltac:(lia)) as (c & rest & -> & Hl & Hv & _ & Hz).
    exists c, rest. cbn [read_int length] in *. rewrite Z.eqb_refl, Hv. split_and!; [done|lia|lia|done|]. destruct Hz as [?|[? _]]; [by left|lia].
  - destruct (Hnum (u32 xx)) as (c & rest & -> & Hl & Hv & Hc & Hz); [apply Z.mod_pos_bound; lia|].
    exists c, rest. cbn [read_int]. destruct (Z.eqb_spec c 45); [done|]. rewrite Hv. split_and!; [done|lia| |done|].
    + destruct sign; [|done]. apply andb_false_iff in En as [|En%Z.ltb_ge]; [done|]. apply Z.mod_small. lia.
    + destruct Hz as [?|[Hu ?]]; [by left|right]. split; [done|]. unfold u32 in Hu. zmod.
Qed.

(** ** Witnesses *)

(** "%d %s %% %p" of the least int, the null string and a pointer, right after boot. *)
Definition wit_pr : tst :=
  mksolo (mkcpu 0 None 0 false 0) 1 false ∅
    (mktty (mkuart (initlock "uart") (replicate 32 0) 0 0 false) (mkpr (initlock "pr") true) [] [36]).

Lemma printf_renders_witness :
  returns (printf tty_uartl tty_compl 1 (replicate 16 7) (Some (bytes_of_string "%d %s %% %p"))
    [AInt (- 2 ^ 31); AStr None; ALong 0xdeadbeef]) wit_pr (fun _ s' =>
    ty_sent (so_comp s') = [36] ++ bytes_of_string "-2147483648 (null) % 0x00000000deadbeef" /\ writable s' /\
    lk_locked (pr_lock (ty_comp (so_comp s'))) = false /\ pr_locking (ty_comp (so_comp s')) = true).
Proof.
  apply (printf_renders 0 (replicate 16 7) _ _ (bytes_of_string "-2147483648 (null) % 0x00000000deadbeef") wit_pr);
    [done|by split|done|by repeat constructor| |by vm_compute].
  constructor; [cbn; lia|]. constructor; [constructor|]. constructor; [cbn; lia|constructor].
Defined.

Lemma printint_reads_back_witness :
  returns (printint tty_uartl 1 (replicate 16 7) (- 2 ^ 31) 16 true) wit_pr (fun _ s' =>
    exists out c rest, ty_sent (so_comp s') = [36] ++ out /\ (length out <= 11)%nat /\
      read_int 16 out = - 2 ^ 31 /\ out = [45] ++ c :: rest /\ (read_digit c <> 0 \/ rest = [] /\ - 2 ^ 31 = 0)).
Proof. apply (printint_reads_back 0 (replicate 16 7) (- 2 ^ 31) 16 true wit_pr); [done|by split|lia|by right]. Defined.
