(* ===== verification/Bio.v ===== *)
(** * Bio: the buffer cache

    Models kernel/bio.c and kernel/buf.h.  The circular doubly linked LRU list
    is kept as the code has it: [prev] and [next] are indices into the array of
    buffers, the list head being one more entry, number [NBUF]. *)
From S2P Require Import Prelude Spinlock Mem Os Sleeplock.

Definition BSIZE : Z := 1024.

Record buf : Type := mkbuf {
  b_valid : bool;              (* has data been read from disk? *)
  b_disk : bool;               (* does disk "own" buf? *)
  b_dev : Z;
  b_blockno : Z;
  b_lock : sleeplock;
  b_refcnt : Z;
  b_prev : nat;                (* LRU cache list *)
  b_next : nat;
  b_data : list Z;             (* uchar data[BSIZE] *)
}.
#[export] Instance eta_buf : Settable buf := fun b =>
  mkbuf (b_valid b) (b_disk b) (b_dev b) (b_blockno b) (b_lock b) (b_refcnt b) (b_prev b) (b_next b) (b_data b).

Record bcache : Type := mkbcache {
  bc_lock : spinlock;
  bc_buf : list buf;           (* buf[NBUF] and, last, head *)
}.
#[export] Instance eta_bcache : Settable bcache := fun c => mkbcache (bc_lock c) (bc_buf c).

Definition head : nat := NBUF.

Definition zero_buf : buf :=
  mkbuf false false 0 0 (mksleeplock false (mkspinlock false "" None) "" 0) 0 0 0 (replicate (Z.to_nat BSIZE) 0).

(** The interface of the cache to its clients (kernel/log.c, kernel/fs.c): a
    buffer is named by a number. *)
Class Bufs (S : Type) := {
  bread : Z -> Z -> M S nat;
  bwrite : nat -> M S unit;
  brelse : nat -> M S unit;
  bpin : nat -> M S unit;
  bunpin : nat -> M S unit;
  get_data : nat -> M S (list Z);
  set_data : nat -> list Z -> M S unit;
  get_blockno : nat -> M S Z;
}.

(** virtio_disk_rw(b, write). *)
Class Disk (S : Type) := virtio_disk_rw : nat -> bool -> M S unit.

Section Bio.
Context {S : Type} `{!OS S} `{!Disk S}.
Context (cl : lens S bcache).

(** The address of buffer [i], as a sleep channel, and a bound on how often a
    process sleeping for a buffer is woken in vain. *)
Context (buf_addr : nat -> Z) (fuel : nat).

Definition getbuf (c : bcache) (i : nat) : buf := default zero_buf (bc_buf c !! i).
Definition setbuf (i : nat) (b : buf) (c : bcache) : bcache := c <| bc_buf := <[i := b]> (bc_buf c) |>.

Definition bufl (i : nat) : lens S buf :=
  lens_comp cl (Lens (fun c => getbuf c i) (fun b c => setbuf i b c)).
Definition bclock : lens S spinlock := lens_comp cl (field bc_lock).
Definition bufsleep (i : nat) : lens S sleeplock := lens_comp (bufl i) (field b_lock).

Definition bmod (i : nat) (f : buf -> buf) : M S unit := lmod (bufl i) f.
Definition bget_field {A} (i : nat) (f : buf -> A) : M S A := b <- lread (bufl i) ;; ret (f b).

(** b goes right after the head: the last four assignments of binit's loop body
    and of brelse. *)
Definition link_front (b : nat) : M S unit :=
  n <- bget_field head b_next ;;
  bmod b (fun x => x <| b_next := n |>) ;;
  bmod b (fun x => x <| b_prev := head |>) ;;
  n <- bget_field head b_next ;;
  bmod n (fun x => x <| b_prev := b |>) ;;
  bmod head (fun x => x <| b_next := b |>).

Definition binit : M S unit :=
  lmod cl (fun c => c <| bc_lock := initlock "bcache" |>) ;;
  bmod head (fun x => x <| b_prev := head |>) ;;
  bmod head (fun x => x <| b_next := head |>) ;;
  for_each (seq 0 NBUF) (fun b =>
    n <- bget_field head b_next ;;
    bmod b (fun x => x <| b_next := n |>) ;;
    bmod b (fun x => x <| b_prev := head |>) ;;
    bmod b (fun x => x <| b_lock := initsleeplock "buffer" |>) ;;
    n <- bget_field head b_next ;;
    bmod n (fun x => x <| b_prev := b |>) ;;
    bmod head (fun x => x <| b_next := b |>)).

(** The two searches of [bget]: forward for the block, backward for a buffer
    nobody uses.  The list has at most NBUF entries. *)
Fixpoint find_cached (k : nat) (b : nat) (dev blockno : Z) : M S (option nat) :=
  match k with
  | O => fail EHang
  | Datatypes.S k' =>
      if Nat.eqb b head then ret None else
      x <- lread (bufl b) ;;
      if (b_dev x =? dev) && (b_blockno x =? blockno) then ret (Some b)
      else find_cached k' (b_next x) dev blockno
  end.

Fixpoint find_unused_buf (k : nat) (b : nat) : M S (option nat) :=
  match k with
  | O => fail EHang
  | Datatypes.S k' =>
      if Nat.eqb b head then ret None else
      x <- lread (bufl b) ;;
      if b_refcnt x =? 0 then ret (Some b) else find_unused_buf k' (b_prev x)
  end.

Definition bget (dev blockno : Z) : M S nat :=
  acquire os_cpu bclock ;;
  first <- bget_field head b_next ;;
  r <- find_cached (Datatypes.S NBUF) first dev blockno ;;
  match r with
  | Some b =>
      bmod b (fun x => x <| b_refcnt := u32 (b_refcnt x + 1) |>) ;;
      release os_cpu bclock ;;
      acquiresleep fuel (buf_addr b) (bufsleep b) ;;
      ret b
  | None =>
      last <- bget_field head b_prev ;;
      r <- find_unused_buf (Datatypes.S NBUF) last ;;
      match r with
      | Some b =>
          bmod b (fun x => x <| b_dev := dev |> <| b_blockno := blockno |> <| b_valid := false |> <| b_refcnt := 1 |>) ;;
          release os_cpu bclock ;;
          acquiresleep fuel (buf_addr b) (bufsleep b) ;;
          ret b
      | None => panic "bget: no buffers"
      end
  end.

Definition bread_impl (dev blockno : Z) : M S nat :=
  b <- bget dev blockno ;;
  v <- bget_field b b_valid ;;
  when (negb v)
    (virtio_disk_rw b false ;;
     bmod b (fun x => x <| b_valid := true |>)) ;;
  ret b.

Definition bwrite_impl (b : nat) : M S unit :=
  h <- holdingsleep (bufsleep b) ;;
  if negb h then panic "bwrite" else virtio_disk_rw b true.

Definition brelse_impl (b : nat) : M S unit :=
  h <- holdingsleep (bufsleep b) ;;
  if negb h then panic "brelse" else
  releasesleep (buf_addr b) (bufsleep b) ;;
  acquire os_cpu bclock ;;
  bmod b (fun x => x <| b_refcnt := u32 (b_refcnt x - 1) |>) ;;
  r <- bget_field b b_refcnt ;;
  when (r =? 0)
    (x <- lread (bufl b) ;;
     bmod (b_next x) (fun y => y <| b_prev := b_prev x |>) ;;
     x <- lread (bufl b) ;;
     bmod (b_prev x) (fun y => y <| b_next := b_next x |>) ;;
     link_front b) ;;
  release os_cpu bclock.

Definition bpin_impl (b : nat) : M S unit :=
  acquire os_cpu bclock ;;
  bmod b (fun x => x <| b_refcnt := u32 (b_refcnt x + 1) |>) ;;
  release os_cpu bclock.

Definition bunpin_impl (b : nat) : M S unit :=
  acquire os_cpu bclock ;;
  bmod b (fun x => x <| b_refcnt := u32 (b_refcnt x - 1) |>) ;;
  release os_cpu bclock.

#[export] Instance bufs_impl : Bufs S := {|
  bread := bread_impl;
  bwrite := bwrite_impl;
  brelse := brelse_impl;
  bpin := bpin_impl;
  bunpin := bunpin_impl;
  get_data := fun b => bget_field b b_data;
  set_data := fun b d => bmod b (fun x => x <| b_data := d |>);
  get_blockno := fun b => bget_field b b_blockno;
|}.
End Bio.

(** ** Little-endian fields of a block *)

Fixpoint get_le (n : nat) (off : nat) (d : list Z) : Z :=
  match n with O => 0 | S n' => nth off d 0 + 256 * get_le n' (S off) d end.
Fixpoint put_le (n : nat) (off : nat) (v : Z) (d : list Z) : list Z :=
  match n with O => d | S n' => put_le n' (S off) (v / 256) (<[off := v mod 256]> d) end.

(** memmove within and between blocks: [l] at offset [off]. *)
Definition splice (off : nat) (l : list Z) (d : list Z) : list Z :=
  take off d ++ l ++ drop (off + length l) d.

Lemma length_put_le n off v d : length (put_le n off v d) = length d.
Proof. revert off v d. induction n as [|n IH]; intros; simpl; [done|]. by rewrite IH, length_insert. Qed.

Lemma nth_put_le n off v d j : (j < off \/ off + n <= j)%nat -> nth j (put_le n off v d) 0 = nth j d 0.
Proof.
  revert off v d. induction n as [|n IH]; intros off v d Hj; simpl; [done|].
  rewrite IH by lia. rewrite !nth_lookup, list_lookup_insert_ne by lia. done.
Qed.

Lemma get_put_le n off v d : (off + n <= length d)%nat -> 0 <= v < 256 ^ Z.of_nat n ->
  get_le n off (put_le n off v d) = v.
Proof.
  revert off v d. induction n as [|n IH]; intros off v d Hl Hv; simpl; [change (256 ^ Z.of_nat 0) with 1 in Hv; lia|].
  rewrite nth_put_le by lia. rewrite nth_lookup, list_lookup_insert_eq by lia. simpl.
  rewrite IH.
  - zmod.
  - rewrite length_insert. lia.
  - rewrite Nat2Z.inj_succ, Z.pow_succ_r in Hv by lia. split; [apply Z.div_pos; lia|].
    apply Z.div_lt_upper_bound; lia.
Qed.

Lemma get_put_le_ne n k off off' v d : (off' + k <= off \/ off + n <= off')%nat ->
  get_le k off' (put_le n off v d) = get_le k off' d.
Proof.
  revert off'. induction k as [|k IH]; intros off' H; simpl; [done|].
  rewrite nth_put_le, IH by lia. done.
Qed.

Lemma splice_all l d : length l = length d -> splice 0 l d = l.
Proof. intros H. unfold splice. rewrite drop_ge by lia. by rewrite app_nil_r. Qed.
