(* ===== verification/BioSpec.v ===== *)
(** * BioSpec: the buffer cache is an LRU list

    The code of [Bio] over one process ([solo]) and any disk: the links always
    form one ring through every buffer, in the order of last use; a block is in
    at most one buffer; the buffer recycled is the least recently used one. *)
From S2P Require Import Prelude Spinlock Mem Os Sleeplock Bio.

Notation st := (solo bcache).

(** ** The ring *)

(** From [x] through [l] to [y], by the links [nx] and back by [pv]. *)
Fixpoint chain (nx pv : nat -> nat) (x : nat) (l : list nat) (y : nat) : Prop :=
  match l with
  | [] => nx x = y /\ pv y = x
  | a :: l' => nx x = a /\ pv a = x /\ chain nx pv a l' y
  end.

Definition nx (c : bcache) (i : nat) : nat := b_next (getbuf c i).
Definition pv (c : bcache) (i : nat) : nat := b_prev (getbuf c i).

(** The buffers in the order of the list, most recently used first. *)
Record ring (c : bcache) (order : list nat) : Prop := {
  rg_len : length (bc_buf c) = S NBUF;
  rg_chain : chain (nx c) (pv c) head order head;
  rg_nodup : NoDup order;
  rg_all : forall i, i ∈ order <-> (i < NBUF)%nat;
}.

(** No block of a device is in two buffers (device 0 is nobody's: binit leaves
    every buffer there). *)
Definition one_copy (c : bcache) : Prop :=
  forall i j, (i < NBUF)%nat -> (j < NBUF)%nat -> b_dev (getbuf c i) <> 0 ->
    b_dev (getbuf c i) = b_dev (getbuf c j) -> b_blockno (getbuf c i) = b_blockno (getbuf c j) -> i = j.

(** ** Lemmas: chains *)

Lemma chain_app n p x l1 a l2 y : chain n p x (l1 ++ a :: l2) y <-> chain n p x l1 a /\ chain n p a l2 y.
Proof.
  revert x. induction l1 as [|b l1 IH]; intros x; simpl; [tauto|]. rewrite IH. tauto.
Qed.

Lemma links_ext n p n' p' x l y :
  (forall i, i = x \/ i ∈ l -> n' i = n i) -> (forall i, i = y \/ i ∈ l -> p' i = p i) ->
  chain n p x l y -> chain n' p' x l y.
Proof.
  revert x. induction l as [|a l IH]; intros x Hn Hp; simpl.
  - intros [<- H]. rewrite Hn, Hp by set_solver. done.
  - intros (<- & Ha & H). rewrite Hn, Hp by set_solver. split_and!; [done|done|].
    apply IH; [set_solver|set_solver|done].
Qed.

(** The predecessor of [y] and the successor of [x] along a chain. *)
Lemma chain_last n p x l y : chain n p x l y -> p y = default x (last l) /\ n (default x (last l)) = y.
Proof.
  revert x. induction l as [|a l IH]; intros x; [simpl; tauto|]. intros (_ & _ & H). apply IH in H.
  rewrite last_cons. by destruct (last l).
Qed.

Lemma chain_first n p x l y : chain n p x l y -> n x = hd y l /\ p (hd y l) = x.
Proof. destruct l; simpl; tauto. Qed.

(** The end of a chain moved to [z]. *)
Lemma chain_end n p x l b z n' p' : chain n p x l b -> NoDup (x :: l) -> z ∉ l ->
  (forall i, n' i = if decide (i = default x (last l)) then z else n i) ->
  (forall i, p' i = if decide (i = z) then default x (last l) else p i) ->
  chain n' p' x l z.
Proof.
  revert x. induction l as [|a l IH]; intros x Hc Hnd Hz Hn Hp; simpl in *.
  - rewrite Hn, Hp. by rewrite !decide_True by done.
  - destruct Hc as (Hx & Ha & Hc). apply NoDup_cons in Hnd as [Hxl Hnd].
    assert (default x (last (a :: l)) = default a (last l)) as E by (rewrite last_cons; by destruct (last l)).
    rewrite E in *. rewrite Hn, Hp, !decide_False; [split_and!; [done|done|by apply IH; set_solver]|set_solver|].
    intros ->. apply Hxl. destruct (last l) as [c|] eqn:El; [|set_solver]. simpl. right. by apply last_Some_elem_of in El.
Qed.

(** Taking [b] out of a chain. *)
Lemma chain_unlink n p x l1 b l2 y n' p' : chain n p x (l1 ++ b :: l2) y -> NoDup (x :: l1 ++ b :: l2) ->
  y ∉ l1 ++ b :: l2 ->
  (forall i, n' i = if decide (i = p b) then n b else n i) ->
  (forall i, p' i = if decide (i = n b) then p b else p i) ->
  chain n' p' x (l1 ++ l2) y.
Proof.
  intros Hc Hnd Hy Hn Hp. apply chain_app in Hc as [H1 H2].
  destruct (chain_last _ _ _ _ _ H1) as [EP _], (chain_first _ _ _ _ _ H2) as [EN _]. rewrite EP, EN in *.
  apply NoDup_cons in Hnd as [Hx Hnd]. apply NoDup_app in Hnd as (Hnd1 & Hd & Hnd2). apply NoDup_cons in Hnd2 as [Hb Hnd2].
  assert (default x (last l1) = x \/ default x (last l1) ∈ l1) as HP.
  { destruct (last l1) as [c|] eqn:El; [right|by left]. by apply last_Some_elem_of in El. }
  destruct l2 as [|a l2]; simpl in *.
  - rewrite app_nil_r. apply (chain_end n p x l1 b y n' p' H1); [constructor; set_solver|set_solver|done|done].
  - destruct H2 as (_ & _ & H2). apply NoDup_cons in Hnd2 as [Ha Hnd2]. apply chain_app. split.
    + apply (chain_end n p x l1 b a n' p' H1); [constructor; set_solver|set_solver|done|done].
    + apply (links_ext n p); [|intros i Hi; rewrite Hp, decide_False; [done|set_solver]|done].
      intros i Hi. rewrite Hn, decide_False; [done|]. destruct HP as [->|HP]; set_solver.
Qed.

(** Putting [b] at the front. *)
Lemma chain_link n p x b l y n' p' : chain n p x l y -> b ∉ l -> b <> x -> b <> y -> x ∉ l -> hd y l ∉ tail l -> y ∉ l ->
  (forall i, n' i = if decide (i = x) then b else if decide (i = b) then n x else n i) ->
  (forall i, p' i = if decide (i = n x) then b else if decide (i = b) then x else p i) ->
  chain n' p' x (b :: l) y.
Proof.
  intros Hc Hb Hbx Hby Hx Hh Hy Hn Hp. destruct (chain_first _ _ _ _ _ Hc) as [EN _]. rewrite EN in *.
  assert (hd y l <> b) as Hne by (destruct l; simpl; set_solver).
  simpl. rewrite Hn, Hp, decide_True, decide_False, decide_True by done. split_and!; [done|done|].
  destruct l as [|a l]; simpl in *.
  - rewrite Hn, Hp, decide_False, decide_True, decide_True by done. done.
  - destruct Hc as (Hxa & Hax & Hc). rewrite Hn, Hp, decide_False, decide_True, decide_True by done.
    split_and!; [done|done|]. apply (links_ext n p); [| |done].
    + intros i Hi. rewrite Hn, !decide_False; [done|set_solver|set_solver].
    + intros i Hi. rewrite Hp, !decide_False; [done|set_solver|set_solver].
Qed.

(** ** Lemmas: the cache's state *)

Definition setb (i : nat) (f : buf -> buf) (c : bcache) : bcache := setbuf i (f (getbuf c i)) c.
Definition on_cache (f : bcache -> bcache) (s : st) : st := s <| so_comp := f (so_comp s) |>.

Lemma getbuf_setb i f c j : (i < length (bc_buf c))%nat ->
  getbuf (setb i f c) j = if decide (j = i) then f (getbuf c i) else getbuf c j.
Proof.
  intros Hi. unfold getbuf at 1, setb, setbuf. cbn. case_decide; subst.
  - by rewrite list_lookup_insert_eq.
  - by rewrite list_lookup_insert_ne.
Qed.

Lemma length_setb i f c : length (bc_buf (setb i f c)) = length (bc_buf c).
Proof. apply length_insert. Qed.

Lemma bmod_eq i f (s : st) : bmod solo_compl i f s = Ret tt (on_cache (setb i f) s).
Proof. done. Qed.

Lemma bget_field_eq {A} i (f : buf -> A) (s : st) : bget_field solo_compl i f s = Ret (f (getbuf (so_comp s) i)) s.
Proof. done. Qed.

(** link_front and the unlinking of brelse, on the state. *)
Definition linked_front (b : nat) (c : bcache) : bcache :=
  let c1 := setb b (fun x => x <| b_next := nx c head |>) c in
  let c2 := setb b (fun x => x <| b_prev := head |>) c1 in
  setb head (fun x => x <| b_next := b |>) (setb (nx c2 head) (fun x => x <| b_prev := b |>) c2).

Definition unlinked (b : nat) (c : bcache) : bcache :=
  let c1 := setb (nx c b) (fun y => y <| b_prev := pv c b |>) c in
  setb (pv c1 b) (fun y => y <| b_next := nx c1 b |>) c1.

Lemma link_front_eq b (s : st) : link_front solo_compl b s = Ret tt (on_cache (linked_front b) s).
Proof. done. Qed.

Lemma nx_set c i g j : (i < length (bc_buf c))%nat ->
  nx (setb i (fun x => x <| b_next := g |>) c) j = if decide (j = i) then g else nx c j.
Proof. intros H. unfold nx. rewrite getbuf_setb by done. by case_decide. Qed.
Lemma nx_set_prev c i g j : (i < length (bc_buf c))%nat -> nx (setb i (fun x => x <| b_prev := g |>) c) j = nx c j.
Proof. intros H. unfold nx. rewrite getbuf_setb by done. case_decide; by subst. Qed.
Lemma pv_set c i g j : (i < length (bc_buf c))%nat ->
  pv (setb i (fun x => x <| b_prev := g |>) c) j = if decide (j = i) then g else pv c j.
Proof. intros H. unfold pv. rewrite getbuf_setb by done. by case_decide. Qed.
Lemma pv_set_next c i g j : (i < length (bc_buf c))%nat -> pv (setb i (fun x => x <| b_next := g |>) c) j = pv c j.
Proof. intros H. unfold pv. rewrite getbuf_setb by done. case_decide; by subst. Qed.

Lemma nx_linked b c j : length (bc_buf c) = S NBUF -> (b < NBUF)%nat -> (nx c head <= NBUF)%nat ->
  nx (linked_front b c) j = if decide (j = head) then b else if decide (j = b) then nx c head else nx c j.
Proof.
  intros Hl Hb Hh. unfold linked_front. assert (b <> head) as Hne by (unfold head; lia).
  repeat first [rewrite nx_set by (rewrite ?length_setb; unfold head; lia)
    | rewrite nx_set_prev by (rewrite ?nx_set_prev, ?nx_set, ?decide_False by (rewrite ?length_setb; done || lia); rewrite ?length_setb; lia)].
  repeat case_decide; subst; done.
Qed.

Lemma pv_linked b c j : length (bc_buf c) = S NBUF -> (b < NBUF)%nat -> (nx c head <= NBUF)%nat ->
  pv (linked_front b c) j = if decide (j = nx c head) then b else if decide (j = b) then head else pv c j.
Proof.
  intros Hl Hb Hh. unfold linked_front. assert (head <> b) as Hne by (unfold head; lia).
  rewrite pv_set_next by (rewrite !length_setb; unfold head; lia).
  rewrite nx_set_prev, nx_set, decide_False by (rewrite ?length_setb; done || lia).
  rewrite pv_set by (rewrite !length_setb; lia). rewrite pv_set by (rewrite !length_setb; lia).
  rewrite pv_set_next by lia. done.
Qed.

Lemma nx_unlinked b c j : length (bc_buf c) = S NBUF -> (nx c b <= NBUF)%nat -> (pv c b <= NBUF)%nat -> nx c b <> b ->
  nx (unlinked b c) j = if decide (j = pv c b) then nx c b else nx c j.
Proof.
  intros Hl Hn Hp Hne. unfold unlinked. rewrite nx_set_prev by lia. rewrite pv_set, decide_False by (done || lia).
  rewrite nx_set by (rewrite length_setb; lia). by rewrite nx_set_prev by lia.
Qed.

Lemma pv_unlinked b c j : length (bc_buf c) = S NBUF -> (nx c b <= NBUF)%nat -> (pv c b <= NBUF)%nat -> nx c b <> b ->
  pv (unlinked b c) j = if decide (j = nx c b) then pv c b else pv c j.
Proof.
  intros Hl Hn Hp Hne. unfold unlinked. rewrite pv_set_next; [by rewrite pv_set by lia|].
  rewrite length_setb, pv_set, decide_False by (done || lia). lia.
Qed.

(** Unlinking and linking touch nothing but the links. *)
Definition same_but_links (x y : buf) : Prop :=
  b_valid y = b_valid x /\ b_disk y = b_disk x /\ b_dev y = b_dev x /\ b_blockno y = b_blockno x /\
  b_lock y = b_lock x /\ b_refcnt y = b_refcnt x /\ b_data y = b_data x.

Lemma setb_links i f c j : (i < length (bc_buf c))%nat -> (forall x, same_but_links x (f x)) ->
  same_but_links (getbuf c j) (getbuf (setb i f c) j).
Proof. intros Hi Hf. rewrite getbuf_setb by done. case_decide; [subst; apply Hf|done]. Qed.

#[export] Instance same_preorder : PreOrder same_but_links.
Proof. split; [by intros x|]. intros x y z. unfold same_but_links. intuition congruence. Qed.

Lemma linked_links b c j : length (bc_buf c) = S NBUF -> (b < NBUF)%nat -> (nx c head <= NBUF)%nat ->
  same_but_links (getbuf c j) (getbuf (linked_front b c) j).
Proof.
  intros Hl Hb Hh. assert (head <> b) as Hne by (unfold head; lia). unfold linked_front.
  rewrite nx_set_prev, nx_set, decide_False by (rewrite ?length_setb; done || lia).
  do 4 (etrans; [|apply setb_links; [rewrite ?length_setb; first [lia | unfold head; lia]|done]]). done.
Qed.

Lemma unlinked_links b c j : length (bc_buf c) = S NBUF -> (nx c b <= NBUF)%nat -> (pv c b <= NBUF)%nat -> nx c b <> b ->
  same_but_links (getbuf c j) (getbuf (unlinked b c) j).
Proof.
  intros Hl Hn Hp Hne. unfold unlinked. rewrite pv_set, decide_False by (done || lia).
  do 2 (etrans; [|apply setb_links; [rewrite ?length_setb; lia|done]]). done.
Qed.

Lemma length_linked b c : length (bc_buf (linked_front b c)) = length (bc_buf c).
Proof. unfold linked_front. by rewrite !length_setb. Qed.
Lemma length_unlinked b c : length (bc_buf (unlinked b c)) = length (bc_buf c).
Proof. unfold unlinked. by rewrite !length_setb. Qed.

(** Moving [b] to the front, in the list and in the ring. *)
Definition to_front (b : nat) (order : list nat) : list nat := b :: filter (fun i => i <> b) order.

Lemma head_not_in c order : ring c order -> head ∉ order.
Proof. intros [_ _ _ H] Hin%H. unfold head in Hin. lia. Qed.

Lemma ring_split c order b : ring c order -> (b < NBUF)%nat -> exists l1 l2, order = l1 ++ b :: l2 /\ b ∉ l1 /\ b ∉ l2.
Proof.
  intros [_ _ Hnd H] Hb. apply H in Hb. apply list_elem_of_split in Hb as (l1 & l2 & ->). exists l1, l2.
  apply NoDup_app in Hnd as (_ & Hd & Hnd2). apply NoDup_cons in Hnd2 as [H2 _]. split_and!; [done|set_solver|done].
Qed.

Lemma filter_split (b : nat) l1 l2 : b ∉ l1 -> b ∉ l2 -> filter (fun i => i <> b) (l1 ++ b :: l2) = l1 ++ l2.
Proof.
  intros H1 H2. rewrite filter_app, filter_cons_False by tauto.
  assert (forall l : list nat, b ∉ l -> filter (fun i => i <> b) l = l) as Hf.
  { clear. induction l as [|a l IH]; intros H; [done|]. rewrite filter_cons_True by set_solver. f_equal. apply IH. set_solver. }
  by rewrite !Hf.
Qed.

Lemma ring_range c order i : ring c order -> (i <= NBUF)%nat -> (nx c i <= NBUF)%nat /\ (pv c i <= NBUF)%nat.
Proof.
  intros Hr Hi. pose proof Hr as [_ Hch _ Hall]. destruct (decide (i = head)) as [->|Hne].
  - destruct (chain_first _ _ _ _ _ Hch) as [-> _], (chain_last _ _ _ _ _ Hch) as [-> _].
    split; [destruct order as [|a l]; simpl; [done|]; assert (a < NBUF)%nat by (apply Hall; set_solver); lia|].
    destruct (last order) as [c0|] eqn:El; simpl; [|done]. apply last_Some_elem_of, Hall in El. lia.
  - destruct (ring_split c order i Hr) as (l1 & l2 & -> & _); [unfold head in Hne; lia|].
    apply chain_app in Hch as [H1 H2].
    destruct (chain_last _ _ _ _ _ H1) as [-> _], (chain_first _ _ _ _ _ H2) as [-> _].
    split; [destruct l2 as [|a l]; simpl; [done|]; assert (a < NBUF)%nat by (apply Hall; set_solver); lia|].
    destruct (last l1) as [c0|] eqn:El; simpl; [|done]. apply last_Some_elem_of in El.
    assert (c0 < NBUF)%nat by (apply Hall; set_solver). lia.
Qed.

Lemma ring_nx_ne c order b : ring c order -> (b < NBUF)%nat -> nx c b <> b.
Proof.
  intros Hr Hb E. pose proof Hr as [_ Hch Hnd Hall]. destruct (ring_split c order b Hr Hb) as (l1 & l2 & -> & _ & H2).
  apply chain_app in Hch as [_ Hch]. destruct (chain_first _ _ _ _ _ Hch) as [E' _]. rewrite E in E'.
  destruct l2 as [|a l2]; simpl in E'; [unfold head in E'; lia|set_solver].
Qed.

(** The last part of brelse() keeps the ring and moves the buffer to the front. *)
Lemma ring_move c order b : ring c order -> (b < NBUF)%nat -> ring (linked_front b (unlinked b c)) (to_front b order).
Proof.
  intros Hr Hb. pose proof Hr as [Hlen Hch Hnd Hall]. pose proof (ring_range c order b Hr ltac:(lia)) as [Hn Hp].
  pose proof (ring_nx_ne c order b Hr Hb) as Hne. pose proof (head_not_in c order Hr) as Hh.
  destruct (ring_split c order b Hr Hb) as (l1 & l2 & -> & H1 & H2). unfold to_front. rewrite filter_split by done.
  assert (NoDup (l1 ++ l2)) as Hnd'.
  { apply NoDup_app in Hnd as (A & B & C). apply NoDup_cons in C as [_ C]. apply NoDup_app. set_solver. }
  assert (chain (nx (unlinked b c)) (pv (unlinked b c)) head (l1 ++ l2) head) as Hu.
  { apply (chain_unlink (nx c) (pv c) head l1 b l2 head); [done|by constructor|done| |];
      intros i; [by apply nx_unlinked|by apply pv_unlinked]. }
  destruct (chain_first _ _ _ _ _ Hu) as [EN _].
  assert (nx (unlinked b c) head <= NBUF)%nat as Hnh.
  { rewrite EN. destruct (l1 ++ l2) as [|a l] eqn:E; simpl; [done|].
    assert (a < NBUF)%nat; [|lia]. apply Hall. assert (a ∈ l1 ++ l2) by (rewrite E; set_solver). set_solver. }
  constructor.
  - by rewrite length_linked, length_unlinked.
  - apply (chain_link (nx (unlinked b c)) (pv (unlinked b c))); [done|set_solver|unfold head; lia|unfold head; lia|set_solver| |set_solver| |].
    + destruct (l1 ++ l2) as [|a l]; simpl; [set_solver|]. by apply NoDup_cons in Hnd' as [? _].
    + intros i. apply nx_linked; [by rewrite length_unlinked|done|done].
    + intros i. apply pv_linked; [by rewrite length_unlinked|done|done].
  - constructor; [set_solver|done].
  - intros i. rewrite <- Hall. set_solver.
Qed.

(** ** Lemmas: the searches *)

Definition holds (c : bcache) (dev blockno : Z) (i : nat) : bool :=
  (b_dev (getbuf c i) =? dev) && (b_blockno (getbuf c i) =? blockno).
Definition idle (c : bcache) (i : nat) : bool := b_refcnt (getbuf c i) =? 0.

Lemma find_cached_eq k x l (s : st) dev blockno : chain (nx (so_comp s)) (pv (so_comp s)) x l head -> head ∉ l ->
  (length l < k)%nat ->
  find_cached solo_compl k (hd head l) dev blockno s = Ret (find (holds (so_comp s) dev blockno) l) s.
Proof.
  revert x k. induction l as [|a l IH]; intros x k Hc Hh Hk; (destruct k as [|k]; [simpl in Hk; lia|]); cbn [find_cached hd].
  - by rewrite Nat.eqb_refl.
  - destruct (Nat.eqb_spec a head) as [->|Hne]; [set_solver|]. erewrite bind_ret by done.
    change (lget (bufl solo_compl a) s) with (getbuf (so_comp s) a). cbn [find]. unfold holds at 1.
    destruct (_ && _); [done|]. destruct Hc as (_ & _ & Hc). destruct (chain_first _ _ _ _ _ Hc) as [E _].
    fold (nx (so_comp s) a). rewrite E. apply (IH a); [done|set_solver|simpl in Hk; lia].
Qed.

Lemma find_unused_eq k l y (s : st) : chain (nx (so_comp s)) (pv (so_comp s)) head l y -> head ∉ l ->
  (length l < k)%nat ->
  find_unused_buf solo_compl k (default head (last l)) s = Ret (find (idle (so_comp s)) (rev l)) s.
Proof.
  revert y k. induction l as [|a l IH] using rev_ind; intros y k Hc Hh Hk; (destruct k as [|k]; [simpl in Hk; lia|]); cbn [find_unused_buf].
  - by rewrite Nat.eqb_refl.
  - rewrite last_snoc. cbn [default from_option id]. destruct (Nat.eqb_spec a head) as [->|Hne]; [set_solver|].
    erewrite bind_ret by done. change (lget (bufl solo_compl a) s) with (getbuf (so_comp s) a).
    rewrite rev_app_distr. cbn [rev app find]. unfold idle at 1. destruct (_ =? 0); [done|].
    apply chain_app in Hc as [Hc _]. destruct (chain_last _ _ _ _ _ Hc) as [E _].
    fold (pv (so_comp s) a). rewrite E. apply (IH a); [done|set_solver|rewrite length_app in Hk; simpl in Hk; lia].
Qed.

Lemma find_in {A} (f : A -> bool) l x : find f l = Some x -> x ∈ l /\ f x = true.
Proof. intros H. apply find_some in H as [H1 H2]. split; [by apply list_elem_of_In|done]. Qed.

Lemma find_none_in {A} (f : A -> bool) l x : find f l = None -> x ∈ l -> f x = false.
Proof. intros H Hx. apply (find_none f l H). by apply list_elem_of_In. Qed.

(** The last element that qualifies: none behind it does. *)
Lemma find_rev_last {A} (f : A -> bool) l x : find f (rev l) = Some x ->
  exists l1 l2, l = l1 ++ x :: l2 /\ forall y, y ∈ l2 -> f y = false.
Proof.
  induction l as [|a l IH] using rev_ind; [done|]. rewrite rev_app_distr. cbn [rev app find].
  destruct (f a) eqn:E.
  - intros [= <-]. exists l, []. split; [done|]. intros y Hy. by apply elem_of_nil in Hy.
  - intros H. destruct (IH H) as (l1 & l2 & -> & H2). exists l1, (l2 ++ [a]). split; [by rewrite <- app_assoc|].
    intros y [Hy|Hy]%elem_of_app; [by apply H2|]. apply list_elem_of_singleton in Hy as ->. done.
Qed.

(** ** Lemmas: locks *)

Definition has_buf (i : nat) (s : st) : Prop := (i < length (bc_buf (so_comp s)))%nat.

#[export] Instance bc_cell : LockCell (fun _ : st => True) os_cpu (bclock solo_compl).
Proof. by constructor. Qed.

Lemma setbuf_setbuf i x y c : setbuf i x (setbuf i y c) = setbuf i x c.
Proof. unfold setbuf. cbn. by rewrite list_insert_insert_eq. Qed.
Lemma getbuf_setbuf i x c : (i < length (bc_buf c))%nat -> getbuf (setbuf i x c) i = x.
Proof. intros H. unfold getbuf, setbuf. cbn. by rewrite list_lookup_insert_eq. Qed.

#[export] Instance inner_cell i : LockCell (has_buf i) os_cpu (inner (bufsleep solo_compl i)).
Proof.
  constructor; try done; intros; cbn [lget lset inner bufsleep lens_comp bufl field solo_compl set_field so_comp].
  - unfold has_buf in *. cbn. by rewrite length_insert.
  - by rewrite getbuf_setbuf.
  - rewrite getbuf_setbuf by done. cbn. unfold setbuf. cbn. rewrite list_insert_insert_eq. done.
Qed.

Definition lockb (pid : Z) (x : buf) : buf :=
  x <| b_lock := mksleeplock true (unheld (sl_lk (b_lock x))) (sl_name (b_lock x)) pid |>.
Definition unlockb (x : buf) : buf :=
  x <| b_lock := mksleeplock false (unheld (sl_lk (b_lock x))) (sl_name (b_lock x)) 0 |>.
Definition relockb (x : buf) : buf := x <| b_lock := (b_lock x) <| sl_lk := unheld (sl_lk (b_lock x)) |> |>.

(** A buffer at rest: neither of its locks is taken. *)
Definition quiet (x : buf) : Prop := sl_locked (b_lock x) = false /\ lk_locked (sl_lk (b_lock x)) = false.

Lemma setb_twice i f g c : (i < length (bc_buf c))%nat -> setb i g (setb i f c) = setb i (fun x => g (f x)) c.
Proof. intros H. unfold setb at 1 3. rewrite getbuf_setb, decide_True by done. unfold setb. by rewrite setbuf_setbuf. Qed.

(** The state with buffer [i] changed and one balanced push/pop of this CPU. *)
Definition bupd (i : nat) (f : buf -> buf) (s : st) : st :=
  s <| so_cpu := touched (so_cpu s) |> <| so_comp := setb i f (so_comp s) |>.

(** The inner spin lock of buffer [i], on the buffer. *)
Definition set_inner (l : spinlock) (x : buf) : buf := x <| b_lock := (b_lock x) <| sl_lk := l |> |>.
Definition set_held (b : bool) (x : buf) : buf := x <| b_lock := (b_lock x) <| sl_locked := b |> |>.
Definition set_pid (pid : Z) (x : buf) : buf := x <| b_lock := (b_lock x) <| sl_pid := pid |> |>.

Definition with_cpu (c : cpu) (s : st) : st := s <| so_cpu := c |>.

Lemma inner_acquire i (s : st) : has_buf i s -> lk_locked (sl_lk (b_lock (getbuf (so_comp s) i))) = false ->
  acquire os_cpu (inner (bufsleep solo_compl i)) s =
  Ret tt (with_cpu (pushed (so_cpu s)) (on_cache (setb i (set_inner (held_by (c_tp (so_cpu s)) (sl_lk (b_lock (getbuf (so_comp s) i)))))) s)).
Proof. intros Hi Hl. by rewrite (acquire_free (D := has_buf i)). Qed.

(** Releasing it in a state reached from [s] by changing only the buffer. *)
Lemma inner_release i g (s : st) : cpu_ok (so_cpu s) -> has_buf i s ->
  (forall x, sl_lk (b_lock (g x)) = sl_lk (b_lock x)) ->
  let l := sl_lk (b_lock (getbuf (so_comp s) i)) in
  let t := with_cpu (pushed (so_cpu s)) (on_cache (setb i (fun x => g (set_inner (held_by (c_tp (so_cpu s)) l) x))) s) in
  release os_cpu (inner (bufsleep solo_compl i)) t =
  Ret tt (bupd i (fun x => set_inner (unheld l) (g (set_inner (held_by (c_tp (so_cpu s)) l) x))) s).
Proof.
  intros Hc Hi Hg l t.
  assert (has_buf i t) as Hit by (unfold has_buf, t; cbn; by rewrite length_insert).
  assert (lget (inner (bufsleep solo_compl i)) t = held_by (c_tp (so_cpu s)) l) as El.
  { unfold t. cbn [lget inner bufsleep lens_comp bufl field solo_compl with_cpu on_cache so_comp set_field].
    rewrite getbuf_setb, decide_True, Hg by done. done. }
  rewrite (release_held (D := has_buf i)) with (c := so_cpu s); rewrite ?El; try done.
  unfold bupd. f_equal.
  change (lset (inner (bufsleep solo_compl i)) ?l t) with (with_cpu (pushed (so_cpu s)) (s <| so_comp :=
    setb i (set_inner l) (setb i (fun x => g (set_inner (held_by (c_tp (so_cpu s)) (sl_lk (b_lock (getbuf (so_comp s) i)))) x)) (so_comp s)) |>)).
  rewrite setb_twice by done. done.
Qed.

Lemma bupd_ext i f g (s : st) : f (getbuf (so_comp s) i) = g (getbuf (so_comp s) i) -> bupd i f s = bupd i g s.
Proof. intros H. unfold bupd, setb. by rewrite H. Qed.

Lemma acquiresleep_eq fuel chan i (s : st) : cpu_ok (so_cpu s) -> has_buf i s -> quiet (getbuf (so_comp s) i) -> (0 < fuel)%nat ->
  acquiresleep fuel chan (bufsleep solo_compl i) s = Ret tt (bupd i (lockb (so_pid s)) s).
Proof.
  intros Hc Hi [Hq1 Hq2] Hf. unfold acquiresleep. erewrite bind_ret by (by apply inner_acquire).
  destruct fuel as [|fuel]; [lia|]. cbn [sleep_while_locked]. set (l := sl_lk _). set (h := held_by _ _).
  set (s1 := with_cpu _ _).
  erewrite bind_ret.
  2: { erewrite bind_ret by done. change (lget (bufsleep solo_compl i) s1) with (b_lock (getbuf (setb i (set_inner h) (so_comp s)) i)).
       rewrite getbuf_setb, decide_True by done. cbn [set_inner b_lock set_field sl_locked]. by rewrite Hq1. }
  erewrite bind_ret by done. erewrite bind_ret by done. erewrite bind_ret by done.
  etrans; [|etrans; [apply (inner_release i (fun x => set_pid (so_pid s) (set_held true x)) s Hc Hi)|]].
  - f_equal. unfold s1, with_cpu, on_cache, lmod. cbn [lset lget bufsleep lens_comp bufl field solo_compl set_field so_comp so_pid so_cpu].
    fold l. fold h.
    change (with_cpu (pushed (so_cpu s)) (s <| so_comp := setb i (set_pid (so_pid s)) (setb i (set_held true) (setb i (set_inner h) (so_comp s))) |>) =
      with_cpu (pushed (so_cpu s)) (s <| so_comp := setb i (fun x => set_pid (so_pid s) (set_held true (set_inner h x))) (so_comp s) |>)).
    rewrite setb_twice by (unfold has_buf in Hi; by rewrite ?length_setb). by rewrite setb_twice by done.
  - done.
  - done.
Qed.

Lemma releasesleep_eq chan i (s : st) : cpu_ok (so_cpu s) -> has_buf i s ->
  lk_locked (sl_lk (b_lock (getbuf (so_comp s) i))) = false ->
  releasesleep chan (bufsleep solo_compl i) s = Ret tt (bupd i unlockb s).
Proof.
  intros Hc Hi Hq. unfold releasesleep. erewrite bind_ret by (by apply inner_acquire).
  set (l := sl_lk _). set (h := held_by _ _). set (s1 := with_cpu _ _).
  erewrite bind_ret by done. erewrite bind_ret by done. erewrite bind_ret by done.
  etrans; [|etrans; [apply (inner_release i (fun x => set_pid 0 (set_held false x)) s Hc Hi)|]].
  - f_equal. unfold s1, with_cpu, on_cache, lmod. cbn [lset lget bufsleep lens_comp bufl field solo_compl set_field so_comp so_pid so_cpu].
    fold l. fold h.
    change (with_cpu (pushed (so_cpu s)) (s <| so_comp := setb i (set_pid 0) (setb i (set_held false) (setb i (set_inner h) (so_comp s))) |>) =
      with_cpu (pushed (so_cpu s)) (s <| so_comp := setb i (fun x => set_pid 0 (set_held false (set_inner h x))) (so_comp s) |>)).
    rewrite setb_twice by (unfold has_buf in Hi; by rewrite ?length_setb). by rewrite setb_twice by done.
  - done.
  - done.
Qed.

Lemma holdingsleep_eq i (s : st) : cpu_ok (so_cpu s) -> has_buf i s ->
  lk_locked (sl_lk (b_lock (getbuf (so_comp s) i))) = false ->
  holdingsleep (bufsleep solo_compl i) s =
  Ret (sl_locked (b_lock (getbuf (so_comp s) i)) && (sl_pid (b_lock (getbuf (so_comp s) i)) =? so_pid s)) (bupd i relockb s).
Proof.
  intros Hc Hi Hq. unfold holdingsleep. erewrite bind_ret by (by apply inner_acquire).
  set (l := sl_lk _). set (h := held_by _ _). set (s1 := with_cpu _ _).
  erewrite bind_ret by done. erewrite bind_ret by done.
  erewrite bind_ret by (apply (inner_release i (fun x => x) s Hc Hi); done).
  change (lget (bufsleep solo_compl i) s1) with (b_lock (getbuf (setb i (set_inner h) (so_comp s)) i)).
  rewrite getbuf_setb, decide_True by done. done.
Qed.

(** ** Lemmas: bget *)

Lemma ring_ext c c' order : ring c order -> length (bc_buf c') = S NBUF ->
  (forall i, nx c' i = nx c i) -> (forall i, pv c' i = pv c i) -> ring c' order.
Proof.
  intros [H1 H2 H3 H4] Hl Hn Hp. constructor; [done| |done|done]. by eapply links_ext; [intros; apply Hn|intros; apply Hp|].
Qed.

(** A buffer's fields changed, its links kept. *)
Lemma ring_setb c order i f l : ring c order -> (i < S NBUF)%nat ->
  (forall x, b_next (f x) = b_next x /\ b_prev (f x) = b_prev x) -> ring ((setb i f c) <| bc_lock := l |>) order.
Proof.
  intros Hr Hi Hf. pose proof (rg_len _ _ Hr) as Hlen. apply (ring_ext c); [done|etrans; [apply (length_setb i f c)|done]| |]; intros j;
    unfold nx, pv; change (getbuf (?c <| bc_lock := l |>)) with (getbuf c); rewrite getbuf_setb by lia;
    case_decide; subst; try done; apply Hf.
Qed.

Lemma bclock_acquire (s : st) : lk_locked (bc_lock (so_comp s)) = false ->
  acquire os_cpu (bclock solo_compl) s =
  Ret tt (with_cpu (pushed (so_cpu s)) (on_cache (fun c => c <| bc_lock := held_by (c_tp (so_cpu s)) (bc_lock (so_comp s)) |>) s)).
Proof. intros H. by rewrite (acquire_free (D := fun _ => True)). Qed.

Lemma bclock_release c (s t : st) : cpu_ok c -> so_cpu t = pushed c -> bc_lock (so_comp t) = held_by (c_tp c) (bc_lock (so_comp s)) ->
  release os_cpu (bclock solo_compl) t =
  Ret tt (with_cpu (touched c) (on_cache (fun c => c <| bc_lock := unheld (bc_lock (so_comp s)) |>) t)).
Proof.
  intros Hc Ht Hl. rewrite (release_held (D := fun _ => True)) with (c := c); try done; cbn [lget bclock lens_comp solo_compl field]; rewrite Hl; try done.
Qed.

(** What bget() makes of the buffer it picks, before locking it. *)
Definition claimed (dev blockno : Z) (hit : bool) (x : buf) : buf :=
  if hit then x <| b_refcnt := u32 (b_refcnt x + 1) |>
  else x <| b_dev := dev |> <| b_blockno := blockno |> <| b_valid := false |> <| b_refcnt := 1 |>.

(** The buffer bget() picks. *)
Definition pick (c : bcache) (order : list nat) (dev blockno : Z) : option (bool * nat) :=
  match find (holds c dev blockno) order with
  | Some b => Some (true, b)
  | None => match find (idle c) (rev order) with Some b => Some (false, b) | None => None end
  end.

Lemma bget_eq buf_addr fuel dev blockno order (s : st) : cpu_ok (so_cpu s) -> lk_locked (bc_lock (so_comp s)) = false ->
  ring (so_comp s) order -> (forall i, (i < NBUF)%nat -> quiet (getbuf (so_comp s) i)) -> (0 < fuel)%nat ->
  match pick (so_comp s) order dev blockno with
  | None => bget solo_compl buf_addr fuel dev blockno s = Fail (EPanic "bget: no buffers")
  | Some (hit, b) => exists l,
      bget solo_compl buf_addr fuel dev blockno s =
      Ret b (with_cpu (touched (so_cpu s)) (on_cache (fun c => (setb b (fun x => lockb (so_pid s) (claimed dev blockno hit x)) c) <| bc_lock := l |>) s)) /\
      lk_locked l = false /\ b ∈ order
  end.
Proof.
  intros Hc Hl Hr Hq Hf. pose proof Hr as [Hlen Hch Hnd Hall]. pose proof (head_not_in _ _ Hr) as Hh.
  assert (length order = NBUF) as Hlo.
  { assert (order ≡ₚ seq 0 NBUF) as ->; [|apply length_seq].
    apply NoDup_Permutation; [done|apply NoDup_seq|]. intros x. rewrite Hall, elem_of_seq. lia. }
  set (h := held_by (c_tp (so_cpu s)) (bc_lock (so_comp s))).
  set (s1 := with_cpu (pushed (so_cpu s)) (on_cache (fun c => c <| bc_lock := h |>) s)).
  assert (forall b f, (b < NBUF)%nat -> quiet (f (getbuf (so_comp s) b)) ->
    bind (release os_cpu (bclock solo_compl)) (fun _ => bind (acquiresleep fuel (buf_addr b) (bufsleep solo_compl b)) (fun _ => ret b))
      (on_cache (setb b f) s1) =
    Ret b (with_cpu (touched (so_cpu s)) (on_cache (fun c => (setb b (fun x => lockb (so_pid s) (f x)) c) <| bc_lock := unheld (bc_lock (so_comp s)) |>) s))) as Hend.
  { intros b f Hb Hqf. erewrite bind_ret by (by apply (bclock_release (so_cpu s) s)).
    set (s2 := with_cpu (touched (so_cpu s)) _).
    assert (has_buf b s2) as Hb2 by (unfold has_buf; cbn; rewrite length_insert; lia).
    assert (getbuf (so_comp s2) b = f (getbuf (so_comp s) b)) as Eb by (apply getbuf_setbuf; cbn; lia).
    erewrite bind_ret by (apply acquiresleep_eq; [by apply touched_ok|done|by rewrite Eb|done]).
    unfold ret, bupd. f_equal. unfold with_cpu. cbn [so_cpu set_field]. 
    change (so_cpu s2) with (touched (so_cpu s)). rewrite touched_idemp. unfold on_cache.
    change (so_pid s2) with (so_pid s).
    assert (setb b (lockb (so_pid s)) (so_comp s2) =
      (setb b (lockb (so_pid s)) (setb b f (so_comp s))) <| bc_lock := unheld (bc_lock (so_comp s)) |>) as -> by done.
    rewrite setb_twice by lia. done. }
  unfold bget. erewrite bind_ret by (by apply bclock_acquire). fold h. fold s1.
  erewrite bind_ret by apply bget_field_eq. change (b_next (getbuf (so_comp s1) head)) with (nx (so_comp s) head).
  destruct (chain_first _ _ _ _ _ Hch) as [-> _].
  erewrite bind_ret by (apply (find_cached_eq _ head order s1); [done|done|lia]).
  change (holds (so_comp s1)) with (holds (so_comp s)). unfold pick.
  destruct (find (holds (so_comp s) dev blockno) order) as [b|] eqn:E1.
  - apply find_in in E1 as [Hin _]. assert (b < NBUF)%nat as Hb by (by apply Hall).
    exists (unheld (bc_lock (so_comp s))). split; [|done]. erewrite bind_ret by done.
    apply (Hend b (claimed dev blockno true)); [done|]. by apply Hq.
  - erewrite bind_ret by apply bget_field_eq. change (b_prev (getbuf (so_comp s1) head)) with (pv (so_comp s) head).
    destruct (chain_last _ _ _ _ _ Hch) as [-> _].
    erewrite bind_ret by (apply (find_unused_eq _ order head s1); [done|done|lia]).
    change (idle (so_comp s1)) with (idle (so_comp s)).
    destruct (find (idle (so_comp s)) (rev order)) as [b|] eqn:E2; [|done].
    assert (b ∈ order) as Hin by (apply find_some in E2 as [H _]; apply list_elem_of_In; by apply in_rev).
    assert (b < NBUF)%nat as Hb by (by apply Hall).
    exists (unheld (bc_lock (so_comp s))). split; [|done]. erewrite bind_ret by done.
    apply (Hend b (claimed dev blockno false)); [done|]. by apply Hq.
Qed.

(** ** Lemmas: brelse *)

Definition dropped (x : buf) : buf := (unlockb (relockb x)) <| b_refcnt := u32 (b_refcnt x - 1) |>.

Definition released (b : nat) (c : bcache) : bcache :=
  let c1 := setb b dropped c in
  if b_refcnt (getbuf c1 b) =? 0 then linked_front b (unlinked b c1) else c1.

Lemma brelse_eq buf_addr b order (s : st) : cpu_ok (so_cpu s) -> lk_locked (bc_lock (so_comp s)) = false ->
  ring (so_comp s) order -> (b < NBUF)%nat ->
  sl_locked (b_lock (getbuf (so_comp s) b)) = true -> sl_pid (b_lock (getbuf (so_comp s) b)) = so_pid s ->
  lk_locked (sl_lk (b_lock (getbuf (so_comp s) b))) = false ->
  exists l, brelse_impl solo_compl buf_addr b s =
    Ret tt (with_cpu (touched (so_cpu s)) (on_cache (fun _ => (released b (so_comp s)) <| bc_lock := l |>) s)) /\ lk_locked l = false.
Proof.
  intros Hc Hl Hr Hb Hlk Hpid Hin. pose proof (rg_len _ _ Hr) as Hlen.
  assert (has_buf b s) as Hi by (unfold has_buf; lia).
  exists (unheld (bc_lock (so_comp s))). split; [|done]. unfold brelse_impl.
  erewrite bind_ret by (by apply holdingsleep_eq). rewrite Hlk, Hpid, Z.eqb_refl. cbn [andb negb].
  set (s1 := bupd b relockb s).
  assert (getbuf (so_comp s1) b = relockb (getbuf (so_comp s) b)) as E1 by (apply getbuf_setbuf; lia).
  assert (has_buf b s1) as Hi1 by (unfold has_buf; cbn; rewrite length_insert; lia).
  erewrite bind_ret by (apply releasesleep_eq; [by apply touched_ok|done|by rewrite E1]).
  set (s2 := bupd b unlockb s1). set (h := held_by (c_tp (touched (so_cpu s))) (bc_lock (so_comp s))).
  assert (acquire os_cpu (bclock solo_compl) s2 =
    Ret tt (with_cpu (pushed (touched (so_cpu s))) (on_cache (fun c => (setb b (fun x => unlockb (relockb x)) c) <| bc_lock := h |>) s))) as Ea.
  { rewrite bclock_acquire by done. unfold with_cpu, on_cache. cbn [so_cpu set_field].
    change (so_cpu s2) with (touched (touched (so_cpu s))). rewrite touched_idemp.
    assert (so_comp s2 = setb b (fun x => unlockb (relockb x)) (so_comp s)) as Ec2.
    { unfold s2, s1, bupd. cbn [so_comp set_field]. apply setb_twice. lia. }
    cbv beta. rewrite Ec2. done. }
  erewrite bind_ret by exact Ea. erewrite bind_ret by apply bmod_eq.
  match goal with |- bind (bget_field _ _ _) _ ?t = _ => set (s4 := t) end.
  assert (s4 = with_cpu (pushed (touched (so_cpu s))) (on_cache (fun c => (setb b dropped c) <| bc_lock := h |>) s)) as E4.
  { assert (setb b (fun x => x <| b_refcnt := u32 (b_refcnt x - 1) |>) (setb b (fun x => unlockb (relockb x)) (so_comp s)) =
      setb b dropped (so_comp s)) as Ed
      by exact (setb_twice b (fun x => unlockb (relockb x)) (fun x => x <| b_refcnt := u32 (b_refcnt x - 1) |>) (so_comp s) Hi).
    unfold s4, with_cpu, on_cache. cbv beta. rewrite <- Ed. done. }
  erewrite bind_ret by apply bget_field_eq. rewrite E4.
  cbn [so_comp on_cache with_cpu set_field]. change (getbuf (?c <| bc_lock := ?x |>)) with (getbuf c).
  unfold released. set (c1 := setb b dropped (so_comp s)).
  assert (so_cpu s4 = pushed (touched (so_cpu s))) as Ecpu by (by rewrite E4).
  assert (forall c2, release os_cpu (bclock solo_compl)
      (with_cpu (pushed (touched (so_cpu s))) (on_cache (fun _ => c2 <| bc_lock := h |>) s)) =
    Ret tt (with_cpu (touched (so_cpu s)) (on_cache (fun _ => c2 <| bc_lock := unheld (bc_lock (so_comp s)) |>) s))) as Hrel.
  { intros c2. rewrite (bclock_release (touched (so_cpu s)) s); [|by apply touched_ok|done|done].
    by rewrite touched_idemp. }
  change (getbuf (mkbcache h (bc_buf c1)) b) with (getbuf c1 b).
  destruct (b_refcnt (getbuf c1 b) =? 0); cbn [when].
  - rewrite (bind_ret _ _ _ tt (with_cpu (pushed (touched (so_cpu s)))
      (on_cache (fun _ => (linked_front b (unlinked b c1)) <| bc_lock := h |>) s))).
    2: { erewrite bind_ret by done. erewrite bind_ret by apply bmod_eq. erewrite bind_ret by done.
         erewrite bind_ret by apply bmod_eq. rewrite link_front_eq. done. }
    exact (Hrel _).
  - apply (Hrel c1).
Qed.

(** ** Lemmas: binit *)

Definition init_lock (x : buf) : buf := x <| b_lock := initsleeplock "buffer" |>.

(** One round of binit()'s loop. *)
Lemma binit_round b (s : st) : length (bc_buf (so_comp s)) = S NBUF -> (b < NBUF)%nat ->
  bind (bget_field solo_compl head b_next) (fun n =>
    bmod solo_compl b (fun x => x <| b_next := n |>) ;;
    bmod solo_compl b (fun x => x <| b_prev := head |>) ;;
    bmod solo_compl b (fun x => x <| b_lock := initsleeplock "buffer" |>) ;;
    n <- bget_field solo_compl head b_next ;;
    bmod solo_compl n (fun x => x <| b_prev := b |>) ;;
    bmod solo_compl head (fun x => x <| b_next := b |>)) s =
  Ret tt (on_cache (fun c => linked_front b (setb b init_lock c)) s).
Proof.
  intros Hl Hb. erewrite bind_ret by apply bget_field_eq. do 3 erewrite bind_ret by apply bmod_eq.
  erewrite bind_ret by apply bget_field_eq. erewrite bind_ret by apply bmod_eq. rewrite bmod_eq.
  set (c := so_comp s) in *.
  set (X := setb b (fun x => x <| b_lock := initsleeplock "buffer" |>) (setb b (fun x => x <| b_prev := head |>)
      (setb b (fun x => x <| b_next := nx c head |>) c))).
  transitivity (Ret (A := unit) tt (s <| so_comp := setb head (fun x => x <| b_next := b |>) (setb (nx X head) (fun x => x <| b_prev := b |>) X) |>)); [done|].
  unfold on_cache, linked_front. fold c. assert (nx (setb b init_lock c) head = nx c head) as En.
  { unfold nx. rewrite getbuf_setb by lia. case_decide as E; [by rewrite <- E|done]. }
  rewrite En.
  assert (X = setb b (fun x => x <| b_prev := head |>) (setb b (fun x => x <| b_next := nx c head |>) (setb b init_lock c))) as ->.
  { unfold X. rewrite !setb_twice by (rewrite ?length_setb; lia). done. }
  done.
Qed.

Record linked_upto (k : nat) (c0 c : bcache) : Prop := {
  lu_len : length (bc_buf c) = S NBUF;
  lu_chain : chain (nx c) (pv c) head (rev (seq 0 k)) head;
  lu_quiet : forall i, (i < k)%nat -> quiet (getbuf c i);
  lu_same : forall i, (i < NBUF)%nat -> b_valid (getbuf c i) = b_valid (getbuf c0 i) /\ b_dev (getbuf c i) = b_dev (getbuf c0 i) /\
    b_blockno (getbuf c i) = b_blockno (getbuf c0 i) /\ b_refcnt (getbuf c i) = b_refcnt (getbuf c0 i);
}.

Lemma in_rev_seq k i : i ∈ rev (seq 0 k) <-> (i < k)%nat.
Proof. rewrite list_elem_of_In, <- in_rev, <- list_elem_of_In, elem_of_seq. lia. Qed.

Lemma linked_upto_S k c0 c : linked_upto k c0 c -> (k < NBUF)%nat ->
  linked_upto (S k) c0 (linked_front k (setb k init_lock c)).
Proof.
  intros [Hl Hc Hq Hs] Hk. set (c1 := setb k init_lock c).
  assert (length (bc_buf c1) = S NBUF) as Hl1 by (unfold c1; by rewrite length_setb).
  assert (forall j, nx c1 j = nx c j) as Hn by (intros j; unfold nx, c1; rewrite getbuf_setb by lia; by case_decide; subst).
  assert (forall j, pv c1 j = pv c j) as Hp by (intros j; unfold pv, c1; rewrite getbuf_setb by lia; by case_decide; subst).
  assert (chain (nx c1) (pv c1) head (rev (seq 0 k)) head) as Hc1 by (by apply (links_ext (nx c) (pv c))).
  assert (nx c1 head <= NBUF)%nat as Hh.
  { destruct (chain_first _ _ _ _ _ Hc1) as [-> _]. destruct (rev (seq 0 k)) as [|a l] eqn:E; simpl; [done|].
    assert (a ∈ rev (seq 0 k)) as Ha by (rewrite E; set_solver). apply in_rev_seq in Ha. lia. }
  assert (head ∉ rev (seq 0 k)) as Hnh by (rewrite in_rev_seq; unfold head; lia).
  constructor.
  - by rewrite length_linked.
  - rewrite seq_S, rev_app_distr. cbn [rev app]. rewrite Nat.add_0_l.
    apply (chain_link (nx c1) (pv c1)); [done|rewrite in_rev_seq; lia|unfold head; lia|unfold head; lia|done| |done| |].
    + assert (NoDup (rev (seq 0 k))) as Hnd by (apply NoDup_ListNoDup, NoDup_rev, NoDup_ListNoDup, NoDup_seq).
      destruct (rev (seq 0 k)) as [|a l]; simpl; [set_solver|]. by apply NoDup_cons in Hnd as [? _].
    + intros i. by apply nx_linked.
    + intros i. by apply pv_linked.
  - intros i Hi. destruct (linked_links k c1 i Hl1 Hk Hh) as (_ & _ & _ & _ & E & _). unfold quiet. rewrite E.
    unfold c1. rewrite getbuf_setb by lia. case_decide; [done|]. apply Hq. lia.
  - intros i Hi. destruct (linked_links k c1 i Hl1 Hk Hh) as (E1 & _ & E3 & E4 & _ & E6 & _). rewrite E1, E3, E4, E6.
    unfold c1. rewrite getbuf_setb by lia. case_decide; subst; apply Hs; done.
Qed.

(** ** Properties *)

(** binit() builds the LRU list: whatever the buffers held, one ring runs
    through all of them, every lock is free, and no buffer's block changed. *)
Theorem binit_builds_ring (s : st) (Hl : length (bc_buf (so_comp s)) = S NBUF) :
  returns (binit solo_compl) s (fun _ t =>
    ring (so_comp t) (rev (seq 0 NBUF)) /\ lk_locked (bc_lock (so_comp t)) = false /\
    forall i, (i < NBUF)%nat -> quiet (getbuf (so_comp t) i) /\
      b_dev (getbuf (so_comp t) i) = b_dev (getbuf (so_comp s) i) /\
      b_blockno (getbuf (so_comp t) i) = b_blockno (getbuf (so_comp s) i) /\
      b_refcnt (getbuf (so_comp t) i) = b_refcnt (getbuf (so_comp s) i)).
Proof.
  unfold binit. apply returns_bind. eapply returns_intro; [done|].
  apply returns_bind. eapply returns_intro; [apply bmod_eq|]. apply returns_bind. eapply returns_intro; [apply bmod_eq|].
  match goal with |- returns _ ?t _ => set (s1 := t) end.
  assert (linked_upto 0 (so_comp s) (so_comp s1) /\ lk_locked (bc_lock (so_comp s1)) = false) as H1.
  { split; [|done]. set (c0 := (so_comp s) <| bc_lock := initlock "bcache" |>).
    change (so_comp s1) with (setb head (fun x => x <| b_next := head |>) (setb head (fun x => x <| b_prev := head |>) c0)).
    assert (length (bc_buf c0) = S NBUF) as Hl0 by exact Hl.
    constructor.
    - by rewrite !length_setb.
    - split; [by rewrite nx_set, decide_True by (rewrite ?length_setb; first [done | unfold head; lia])|].
      by rewrite pv_set_next, pv_set, decide_True by (rewrite ?length_setb; first [done | unfold head; lia]).
    - intros; lia.
    - intros i Hi. rewrite !getbuf_setb by (rewrite ?length_setb; unfold head; lia).
      rewrite !decide_False by (unfold head; lia). done. }
  eapply returns_mono; [apply (for_each_returns _ (fun k t => linked_upto k (so_comp s) (so_comp t) /\
    lk_locked (bc_lock (so_comp t)) = false) NBUF 0 s1 H1)|].
  - intros i t Hi [Hu Hq]. pose proof (lu_len _ _ _ Hu). eapply returns_intro; [apply binit_round; [done|lia]|].
    split; [|done]. apply linked_upto_S; [done|lia].
  - intros [] t [[A B C D] Hq]. split_and!; [|done|].
    + constructor; [done|done| |apply in_rev_seq]. apply NoDup_ListNoDup, NoDup_rev, NoDup_ListNoDup, NoDup_seq.
    + intros i Hi. destruct (D i Hi) as (_ & E1 & E2 & E3). split_and!; [by apply C|done|done|done].
Qed.

(** C14: bget() finds a block's buffer, or recycles the least recently used one.
    It returns a buffer locked by the caller: the one that holds the block, with
    one more reference and its contents kept; or, when no buffer holds it, the
    free buffer nearest the end of the list (no buffer behind it is free), now
    naming the block, with one reference and marked not yet read.  The ring, and
    that no block is in two buffers, are kept; every other buffer is left alone.
    When every buffer is in use and none holds the block it panics.  The sleep locks of
    the buffers are free and no count of references is at its largest value. *)
Theorem bget_lru (buf_addr : nat -> Z) (fuel : nat) (dev blockno : Z) (order : list nat) (s : st)
  (Hc : cpu_ok (so_cpu s)) (Hl : lk_locked (bc_lock (so_comp s)) = false)
  (Hr : ring (so_comp s) order) (Ho : one_copy (so_comp s)) (Hd : dev <> 0)
  (Hq : forall i, (i < NBUF)%nat -> quiet (getbuf (so_comp s) i) /\ 0 <= b_refcnt (getbuf (so_comp s) i) < 2 ^ 32 - 1)
  (Hf : (0 < fuel)%nat) :
  let c := so_comp s in
  if bool_decide (Exists (fun i => holds c dev blockno i = true \/ idle c i = true) order) then
    returns (bget solo_compl buf_addr fuel dev blockno) s (fun b t =>
      let c' := so_comp t in
      ring c' order /\ one_copy c' /\ lk_locked (bc_lock c') = false /\ so_cpu t = touched (so_cpu s) /\
      (forall j, j <> b -> getbuf c' j = getbuf c j) /\
      holds c' dev blockno b = true /\ sl_locked (b_lock (getbuf c' b)) = true /\ sl_pid (b_lock (getbuf c' b)) = so_pid s /\
      ((holds c dev blockno b = true /\ b_refcnt (getbuf c' b) = b_refcnt (getbuf c b) + 1 /\
        b_valid (getbuf c' b) = b_valid (getbuf c b) /\ b_data (getbuf c' b) = b_data (getbuf c b)) \/
       ((forall i, i ∈ order -> holds c dev blockno i = false) /\
        b_refcnt (getbuf c b) = 0 /\ b_refcnt (getbuf c' b) = 1 /\ b_valid (getbuf c' b) = false /\
        exists l1 l2, order = l1 ++ b :: l2 /\ forall i, i ∈ l2 -> b_refcnt (getbuf c i) <> 0)))
  else bget solo_compl buf_addr fuel dev blockno s = Fail (EPanic "bget: no buffers").
Proof.
  intros c. pose proof (bget_eq buf_addr fuel dev blockno order s Hc Hl Hr (fun i Hi => proj1 (Hq i Hi)) Hf) as H.
  fold c in H. unfold pick in H. fold c in Hr, Ho, Hq. unfold one_copy in Ho. pose proof (rg_all _ _ Hr) as Hall. pose proof (rg_len _ _ Hr) as Hlen.
  assert (forall hit b l, (b < NBUF)%nat ->
    (if hit : bool then holds c dev blockno b = true else forall i, i ∈ order -> holds c dev blockno i = false) ->
    let c' := (setb b (fun x => lockb (so_pid s) (claimed dev blockno hit x)) c) <| bc_lock := l |> in
    ring c' order /\ one_copy c' /\ (forall j, j <> b -> getbuf c' j = getbuf c j) /\ holds c' dev blockno b = true /\
    getbuf c' b = lockb (so_pid s) (claimed dev blockno hit (getbuf c b))) as Hpost.
  { intros hit b l Hb Hh c'. assert (forall j, getbuf c' j = if decide (j = b) then lockb (so_pid s) (claimed dev blockno hit (getbuf c b)) else getbuf c j) as Hg
      by (intros j; apply getbuf_setb; lia).
    assert (b_dev (getbuf c' b) = dev /\ b_blockno (getbuf c' b) = blockno) as [Ed Eb].
    { rewrite Hg, decide_True by done. destruct hit; [|done]. apply andb_prop in Hh as [E1 E2].
      apply Z.eqb_eq in E1, E2. done. }
    split_and!.
    - apply ring_setb; [done|lia|]. intros x. by destruct hit.
    - assert (forall j, (j < NBUF)%nat -> b_dev (getbuf c' j) = dev -> b_blockno (getbuf c' j) = blockno -> j = b) as Honly.
      { intros j Hj E1 E2. destruct (decide (j = b)) as [|Hne]; [done|]. rewrite Hg, decide_False in E1, E2 by done.
        destruct hit.
        - apply andb_prop in Hh as [E3 E4]. apply Z.eqb_eq in E3, E4. apply (Ho j b); [done|done|by rewrite E1|congruence|congruence].
        - specialize (Hh j ltac:(by apply Hall)). unfold holds in Hh. by rewrite E1, E2, !Z.eqb_refl in Hh. }
      intros i j Hi Hj Hnz E1 E2. destruct (decide (i = b)) as [->|Hib], (decide (j = b)) as [->|Hjb]; [done| | |].
      + symmetry. apply Honly; [done|congruence|congruence].
      + apply Honly; [done|congruence|congruence].
      + rewrite !Hg, !decide_False in E1, E2 by done. rewrite Hg, decide_False in Hnz by done. by apply Ho.
    - intros j Hj. by rewrite Hg, decide_False.
    - unfold holds. by rewrite Ed, Eb, !Z.eqb_refl.
    - by rewrite Hg, decide_True. }
  destruct (find (holds c dev blockno) order) as [b|] eqn:E1; [|destruct (find (idle c) (rev order)) as [b|] eqn:E2].
  - destruct H as (l & H & Hll & Hin). apply find_in in E1 as [_ Eh].
    rewrite bool_decide_eq_true_2 by (apply Exists_exists; exists b; tauto).
    eapply returns_intro; [exact H|].
    destruct (Hpost true b l ltac:(by apply Hall) Eh) as (P1 & P2 & P3 & P4 & P5).
    set (c' := (setb b (fun x => lockb (so_pid s) (claimed dev blockno true x)) c) <| bc_lock := l |>) in *.
    match goal with |- context [so_comp (with_cpu ?a ?b)] => change (so_comp (with_cpu a b)) with c' end.
    cbv zeta. split_and!; try done.
    + by rewrite P5.
    + by rewrite P5.
    + left. rewrite P5. split_and!; [done| |done|done]. apply Z.mod_small. destruct (Hq b ltac:(by apply Hall)) as [_ ?]. lia.
  - destruct H as (l & H & Hll & Hin). pose proof (find_rev_last _ _ _ E2) as (l1 & l2 & El & Hl2).
    apply find_some in E2 as [_ Ei].
    rewrite bool_decide_eq_true_2 by (apply Exists_exists; exists b; tauto).
    eapply returns_intro; [exact H|].
    assert (forall i, i ∈ order -> holds c dev blockno i = false) as Hno by (intros i Hi; by apply (find_none_in _ order)).
    destruct (Hpost false b l ltac:(by apply Hall) Hno) as (P1 & P2 & P3 & P4 & P5).
    set (c' := (setb b (fun x => lockb (so_pid s) (claimed dev blockno false x)) c) <| bc_lock := l |>) in *.
    match goal with |- context [so_comp (with_cpu ?a ?b)] => change (so_comp (with_cpu a b)) with c' end.
    cbv zeta. split_and!; try done.
    + by rewrite P5.
    + by rewrite P5.
    + right. rewrite P5. split_and!; [done|by apply Z.eqb_eq|done|done|]. exists l1, l2. split; [done|].
      intros i Hi. apply Z.eqb_neq. by apply Hl2.
  - rewrite bool_decide_eq_false_2; [done|]. intros (i & Hi & [Hh|Hh])%Exists_exists.
    + by rewrite (find_none_in _ _ _ E1 Hi) in Hh.
    + assert (i ∈ rev order) as Hi' by (apply list_elem_of_In; rewrite <- in_rev; by apply list_elem_of_In).
      by rewrite (find_none_in _ _ _ E2 Hi') in Hh.
Qed.

(** brelse() gives up one reference and the lock.  When it was the last
    reference the buffer moves to the front of the list, most recently used;
    otherwise the order stays.  Nothing but links changes in other buffers. *)
Theorem brelse_moves_front (buf_addr : nat -> Z) (b : nat) (order : list nat) (s : st)
  (Hc : cpu_ok (so_cpu s)) (Hl : lk_locked (bc_lock (so_comp s)) = false)
  (Hr : ring (so_comp s) order) (Hb : (b < NBUF)%nat)
  (Hlk : sl_locked (b_lock (getbuf (so_comp s) b)) = true) (Hpid : sl_pid (b_lock (getbuf (so_comp s) b)) = so_pid s)
  (Hin : lk_locked (sl_lk (b_lock (getbuf (so_comp s) b))) = false)
  (Href : 1 <= b_refcnt (getbuf (so_comp s) b) < 2 ^ 32) :
  returns (brelse_impl solo_compl buf_addr b) s (fun _ t =>
    let c := so_comp s in let c' := so_comp t in
    ring c' (if b_refcnt (getbuf c b) =? 1 then to_front b order else order) /\
    lk_locked (bc_lock c') = false /\ so_cpu t = touched (so_cpu s) /\
    quiet (getbuf c' b) /\ b_refcnt (getbuf c' b) = b_refcnt (getbuf c b) - 1 /\
    b_dev (getbuf c' b) = b_dev (getbuf c b) /\ b_blockno (getbuf c' b) = b_blockno (getbuf c b) /\
    b_valid (getbuf c' b) = b_valid (getbuf c b) /\ b_data (getbuf c' b) = b_data (getbuf c b) /\
    forall j, j <> b -> same_but_links (getbuf c j) (getbuf c' j)).
Proof.
  destruct (brelse_eq buf_addr b order s Hc Hl Hr Hb Hlk Hpid Hin) as (l & E & Hll).
  eapply returns_intro; [exact E|]. set (c := so_comp s) in *. pose proof (rg_len _ _ Hr) as Hlen.
  match goal with |- context [so_comp (with_cpu ?a ?b)] => set (c' := so_comp (with_cpu a b)) end.
  assert (forall j, getbuf c' j = getbuf (released b c) j) as Eg by done.
  assert (bc_lock c' = l /\ length (bc_buf c') = length (bc_buf (released b c))) as [El Elen] by done.
  cbv zeta. clearbody c'. set (c1 := setb b dropped c) in *.
  assert (released b c = if b_refcnt (getbuf c1 b) =? 0 then linked_front b (unlinked b c1) else c1) as Erel by done.
  assert (getbuf c1 b = dropped (getbuf c b)) as E1 by (unfold c1; by rewrite getbuf_setb, decide_True by lia).
  assert (ring c1 order) as Hr1.
  { unfold c1. apply (ring_ext ((setb b dropped c) <| bc_lock := l |>)); try done; [|by rewrite length_setb].
    apply ring_setb; [done|lia|done]. }
  assert (b_refcnt (getbuf c1 b) = b_refcnt (getbuf c b) - 1) as Er by (rewrite E1; apply Z.mod_small; lia).
  assert (forall j, j <> b -> getbuf c1 j = getbuf c j) as Hother by (intros; unfold c1; by rewrite getbuf_setb, decide_False by lia).
  pose proof (rg_len _ _ Hr1) as Hlen1. clearbody c1. rewrite Er in Erel.
  assert (forall x, same_but_links (dropped (getbuf c b)) x -> quiet x /\ b_refcnt x = b_refcnt (getbuf c b) - 1 /\
    b_dev x = b_dev (getbuf c b) /\ b_blockno x = b_blockno (getbuf c b) /\ b_valid x = b_valid (getbuf c b) /\
    b_data x = b_data (getbuf c b)) as Hx.
  { intros x (X1 & _ & X3 & X4 & X5 & X6 & X7). unfold quiet. rewrite X1, X3, X4, X5, X6, X7, <- E1, Er. by rewrite E1. }
  assert (ring c' (if b_refcnt (getbuf c b) =? 1 then to_front b order else order) /\
    forall j, same_but_links (getbuf c1 j) (getbuf c' j)) as [Hring Hs].
  { destruct (Z.eqb_spec (b_refcnt (getbuf c b)) 1) as [H1|H1].
    - rewrite H1 in Erel. change (1 - 1 =? 0) with true in Erel. rewrite Erel in *.
      pose proof (ring_range c1 order b Hr1 ltac:(lia)) as [Hn Hp]. pose proof (ring_nx_ne c1 order b Hr1 Hb) as Hne.
      assert (nx (unlinked b c1) head <= NBUF)%nat as Hnh.
      { rewrite nx_unlinked by done. pose proof (ring_range c1 order head Hr1 ltac:(done)) as [? _]. by case_decide. }
      split.
      + apply (ring_ext (linked_front b (unlinked b c1))); [by apply ring_move| | |].
        * by rewrite Elen, length_linked, length_unlinked.
        * intros i. unfold nx. by rewrite Eg.
        * intros i. unfold pv. by rewrite Eg.
      + intros j. rewrite Eg. etrans; [by apply unlinked_links|].
        apply linked_links; [by rewrite length_unlinked|done|done].
    - replace (b_refcnt (getbuf c b) - 1 =? 0) with false in Erel by zcase. rewrite Erel in *. split.
      + apply (ring_ext c1); [done|by rewrite Elen| |]; intros i; [unfold nx|unfold pv]; by rewrite Eg.
      + intros j. by rewrite Eg. }
  destruct (Hx (getbuf c' b)) as (X1 & X2 & X3 & X4 & X5 & X6); [rewrite <- E1; apply Hs|].
  rewrite El. split_and!; try done. intros j Hj. rewrite <- Hother by done. apply Hs.
Qed.

(** ** Witnesses *)

(** Buffer [i] holds block [i] of device 1; buffer 5 is held by process 7. *)
Definition wit_buf (i : nat) : buf :=
  zero_buf <| b_dev := 1 |> <| b_blockno := Z.of_nat i |> <| b_next := if Nat.eqb i 0 then head else pred i |> <| b_prev := S i |>.
Definition wit_cache : bcache :=
  mkbcache (initlock "bcache") ((wit_buf <$> seq 0 NBUF) ++ [zero_buf <| b_next := 29%nat |> <| b_prev := 0%nat |>]).
Definition wit_held : bcache :=
  setb 5 (fun x => x <| b_refcnt := 1 |> <| b_lock := mksleeplock true (mkspinlock false "" None) "buffer" 7 |>) wit_cache.
Definition wit_st (c : bcache) : st := mksolo (mkcpu 0 None 0 false 0) 7 false ∅ c.

Lemma wit_getbuf i : (i < NBUF)%nat -> getbuf wit_cache i = wit_buf i.
Proof.
  intros Hi. unfold getbuf, wit_cache. cbn [bc_buf].
  rewrite lookup_app_l by (rewrite length_fmap, length_seq; done).
  rewrite list_lookup_fmap, (proj2 (lookup_seq 0 NBUF i i)) by (split; [lia|done]). done.
Defined.

Lemma wit_ring : ring wit_cache (rev (seq 0 NBUF)).
Proof.
  constructor; [done| | |].
  - vm_compute. repeat split.
  - apply NoDup_ListNoDup, NoDup_rev, NoDup_ListNoDup, NoDup_seq.
  - apply in_rev_seq.
Defined.

Lemma binit_builds_ring_witness :
  returns (binit solo_compl) (wit_st wit_held) (fun _ t =>
    ring (so_comp t) (rev (seq 0 NBUF)) /\ lk_locked (bc_lock (so_comp t)) = false /\
    forall i, (i < NBUF)%nat -> quiet (getbuf (so_comp t) i) /\
      b_dev (getbuf (so_comp t) i) = b_dev (getbuf (so_comp (wit_st wit_held)) i) /\
      b_blockno (getbuf (so_comp t) i) = b_blockno (getbuf (so_comp (wit_st wit_held)) i) /\
      b_refcnt (getbuf (so_comp t) i) = b_refcnt (getbuf (so_comp (wit_st wit_held)) i)).
Proof. apply (binit_builds_ring (wit_st wit_held)). reflexivity. Defined.

Lemma wit_one_copy : one_copy wit_cache.
Proof. intros i j Hi Hj _ _. rewrite !wit_getbuf by done. cbn. lia. Defined.

Lemma bget_lru_witness :
  let c := wit_cache in
  if bool_decide (Exists (fun i => holds c 1 99 i = true \/ idle c i = true) (rev (seq 0 NBUF))) then
    returns (bget solo_compl (fun _ => 0) 1 1 99) (wit_st c) (fun b t =>
      let c' := so_comp t in
      ring c' (rev (seq 0 NBUF)) /\ one_copy c' /\ lk_locked (bc_lock c') = false /\ so_cpu t = touched (so_cpu (wit_st c)) /\
      (forall j, j <> b -> getbuf c' j = getbuf c j) /\
      holds c' 1 99 b = true /\ sl_locked (b_lock (getbuf c' b)) = true /\ sl_pid (b_lock (getbuf c' b)) = so_pid (wit_st c) /\
      ((holds c 1 99 b = true /\ b_refcnt (getbuf c' b) = b_refcnt (getbuf c b) + 1 /\
        b_valid (getbuf c' b) = b_valid (getbuf c b) /\ b_data (getbuf c' b) = b_data (getbuf c b)) \/
       ((forall i, i ∈ rev (seq 0 NBUF) -> holds c 1 99 i = false) /\
        b_refcnt (getbuf c b) = 0 /\ b_refcnt (getbuf c' b) = 1 /\ b_valid (getbuf c' b) = false /\
        exists l1 l2, rev (seq 0 NBUF) = l1 ++ b :: l2 /\ forall i, i ∈ l2 -> b_refcnt (getbuf c i) <> 0)))
  else bget solo_compl (fun _ => 0) 1 1 99 (wit_st c) = Fail (EPanic "bget: no buffers").
Proof.
  apply (bget_lru (fun _ => 0) 1 1 99 (rev (seq 0 NBUF)) (wit_st wit_cache));
    [by split|done|apply wit_ring|apply wit_one_copy|done| |lia].
  intros i Hi. cbn [so_comp wit_st]. rewrite wit_getbuf by done. cbn. split; [done|lia].
Defined.

Lemma brelse_moves_front_witness :
  returns (brelse_impl solo_compl (fun _ => 0) 5) (wit_st wit_held) (fun _ t =>
    let c := so_comp (wit_st wit_held) in let c' := so_comp t in
    ring c' (if b_refcnt (getbuf c 5) =? 1 then to_front 5 (rev (seq 0 NBUF)) else rev (seq 0 NBUF)) /\
    lk_locked (bc_lock c') = false /\ so_cpu t = touched (so_cpu (wit_st wit_held)) /\
    quiet (getbuf c' 5) /\ b_refcnt (getbuf c' 5) = b_refcnt (getbuf c 5) - 1 /\
    b_dev (getbuf c' 5) = b_dev (getbuf c 5) /\ b_blockno (getbuf c' 5) = b_blockno (getbuf c 5) /\
    b_valid (getbuf c' 5) = b_valid (getbuf c 5) /\ b_data (getbuf c' 5) = b_data (getbuf c 5) /\
    forall j, j <> 5%nat -> same_but_links (getbuf c j) (getbuf c' j)).
Proof.
  assert (ring wit_held (rev (seq 0 NBUF))) as Hr.
  { apply (ring_ext wit_cache); [apply wit_ring|done| |]; intros i; unfold nx, pv, wit_held; rewrite getbuf_setb by (rewrite (rg_len _ _ wit_ring); unfold NBUF; lia);
      by case_decide; subst. }
  assert (cpu_ok (so_cpu (wit_st wit_held))) as Hc by (by split).
  assert (5 < NBUF)%nat as Hb by (unfold NBUF; lia).
  assert (1 <= b_refcnt (getbuf wit_held 5) < 2 ^ 32) as Href by (split; by vm_compute).
  exact (brelse_moves_front (fun _ => 0) 5 (rev (seq 0 NBUF)) (wit_st wit_held) Hc eq_refl Hr Hb eq_refl eq_refl eq_refl Href).
Defined.
