(* ===== verification/Virtio.v ===== *)
(** * Virtio: the disk driver

    Models kernel/virtio_disk.c and kernel/virtio.h.  The descriptors and the two
    rings, which the driver shares with the device, are records; addresses of the
    objects descriptors point to are parameters.  The device is not part of the
    program: its registers are the interface [VirtioRegs], and the theorems hold
    for every device that serves a request as the virtio specification says
    ([serves]). *)
From S2P Require Import Prelude Spinlock Mem Kalloc Os Sleeplock Bio.

Definition u16 (x : Z) : Z := x mod 2 ^ 16.

(** ** kernel/virtio.h *)

Definition VIRTIO_MMIO_MAGIC_VALUE : Z := 0x000.
Definition VIRTIO_MMIO_VERSION : Z := 0x004.
Definition VIRTIO_MMIO_DEVICE_ID : Z := 0x008.
Definition VIRTIO_MMIO_VENDOR_ID : Z := 0x00c.
Definition VIRTIO_MMIO_DEVICE_FEATURES : Z := 0x010.
Definition VIRTIO_MMIO_DRIVER_FEATURES : Z := 0x020.
Definition VIRTIO_MMIO_GUEST_PAGE_SIZE : Z := 0x028.
Definition VIRTIO_MMIO_QUEUE_SEL : Z := 0x030.
Definition VIRTIO_MMIO_QUEUE_NUM_MAX : Z := 0x034.
Definition VIRTIO_MMIO_QUEUE_NUM : Z := 0x038.
Definition VIRTIO_MMIO_QUEUE_PFN : Z := 0x040.
Definition VIRTIO_MMIO_QUEUE_NOTIFY : Z := 0x050.
Definition VIRTIO_MMIO_INTERRUPT_STATUS : Z := 0x060.
Definition VIRTIO_MMIO_INTERRUPT_ACK : Z := 0x064.
Definition VIRTIO_MMIO_STATUS : Z := 0x070.

Definition VIRTIO_CONFIG_S_ACKNOWLEDGE : Z := 1.
Definition VIRTIO_CONFIG_S_DRIVER : Z := 2.
Definition VIRTIO_CONFIG_S_DRIVER_OK : Z := 4.
Definition VIRTIO_CONFIG_S_FEATURES_OK : Z := 8.

Definition VIRTIO_BLK_F_RO : Z := 5.
Definition VIRTIO_BLK_F_SCSI : Z := 7.
Definition VIRTIO_BLK_F_CONFIG_WCE : Z := 11.
Definition VIRTIO_BLK_F_MQ : Z := 12.
Definition VIRTIO_F_ANY_LAYOUT : Z := 27.
Definition VIRTIO_RING_F_INDIRECT_DESC : Z := 28.
Definition VIRTIO_RING_F_EVENT_IDX : Z := 29.

(** this many virtio descriptors *)
Definition NUM : Z := 8.

Record virtq_desc : Type := mkdesc { vd_addr : Z; vd_len : Z; vd_flags : Z; vd_next : Z }.
#[export] Instance eta_desc : Settable virtq_desc := fun d => mkdesc (vd_addr d) (vd_len d) (vd_flags d) (vd_next d).
Definition VRING_DESC_F_NEXT : Z := 1.
Definition VRING_DESC_F_WRITE : Z := 2.

Record virtq_avail : Type := mkavail { va_flags : Z; va_idx : Z; va_ring : list Z }.
#[export] Instance eta_avail : Settable virtq_avail := fun a => mkavail (va_flags a) (va_idx a) (va_ring a).

(** a ring[] entry: id and len *)
Definition virtq_used_elem : Type := Z * Z.
Record virtq_used : Type := mkused { vu_flags : Z; vu_idx : Z; vu_ring : list virtq_used_elem }.
#[export] Instance eta_used : Settable virtq_used := fun u => mkused (vu_flags u) (vu_idx u) (vu_ring u).

Definition VIRTIO_BLK_T_IN : Z := 0.
Definition VIRTIO_BLK_T_OUT : Z := 1.

Record virtio_blk_req : Type := mkreq { vr_type : Z; vr_reserved : Z; vr_sector : Z }.

(** ** The driver's state *)

Record disk : Type := mkdisk {
  vk_desc : list virtq_desc;
  vk_avail : virtq_avail;
  vk_used : virtq_used;
  vk_free : list bool;             (* is a descriptor free? *)
  vk_used_idx : Z;                 (* we've looked this far in used[2..NUM] *)
  vk_info : list (option nat * Z); (* b and status, by first descriptor of the chain *)
  vk_ops : list virtio_blk_req;    (* disk command headers *)
  vk_lock : spinlock;              (* vdisk_lock *)
}.
#[export] Instance eta_disk : Settable disk := fun d =>
  mkdisk (vk_desc d) (vk_avail d) (vk_used d) (vk_free d) (vk_used_idx d) (vk_info d) (vk_ops d) (vk_lock d).

Class VirtioRegs (S : Type) := {
  vio_read : Z -> M S Z;              (* *R(r) *)
  vio_write : Z -> Z -> M S unit;
}.

Section Virtio.
Context {S : Type} `{!OS S} `{!VirtioRegs S}.
Context (dl : lens S disk) (bufl : nat -> lens S buf).

(** Addresses: disk.pages, disk.ops[i], the status of disk.info[i], b->data, b;
    and of disk.free[0], a channel. *)
Context (pages_addr : Z) (ops_addr status_addr : Z -> Z) (data_addr buf_chan : nat -> Z) (free_chan : Z).

Definition vdisk_lock : lens S spinlock := lens_comp dl (field vk_lock).
Definition dmod (f : disk -> disk) : M S unit := lmod dl f.

(** disk.desc[i] *)
Definition get_desc (i : Z) : M S virtq_desc := d <- lread dl ;; aget (vk_desc d) i.
Definition mod_desc (i : Z) (f : virtq_desc -> virtq_desc) : M S unit :=
  d <- lread dl ;;
  e <- aget (vk_desc d) i ;;
  l <- aset (vk_desc d) i (f e) ;;
  dmod (fun d => d <| vk_desc := l |>).
Definition set_free (i : Z) (b : bool) : M S unit :=
  d <- lread dl ;; l <- aset (vk_free d) i b ;; dmod (fun d => d <| vk_free := l |>).
Definition get_info (i : Z) : M S (option nat * Z) := d <- lread dl ;; aget (vk_info d) i.
Definition set_info (i : Z) (f : option nat * Z -> option nat * Z) : M S unit :=
  d <- lread dl ;; e <- aget (vk_info d) i ;; l <- aset (vk_info d) i (f e) ;; dmod (fun d => d <| vk_info := l |>).

Definition virtio_disk_init : M S unit :=
  dmod (fun d => d <| vk_lock := initlock "virtio_disk" |>) ;;
  magic <- vio_read VIRTIO_MMIO_MAGIC_VALUE ;;
  version <- (if negb (magic =? 0x74726976) then ret 0 else vio_read VIRTIO_MMIO_VERSION) ;;
  device <- (if negb (version =? 1) then ret 0 else vio_read VIRTIO_MMIO_DEVICE_ID) ;;
  vendor <- (if negb (device =? 2) then ret 0 else vio_read VIRTIO_MMIO_VENDOR_ID) ;;
  if negb (vendor =? 0x554d4551) then panic "could not find virtio disk" else
  vio_write VIRTIO_MMIO_STATUS VIRTIO_CONFIG_S_ACKNOWLEDGE ;;
  let status := Z.lor VIRTIO_CONFIG_S_ACKNOWLEDGE VIRTIO_CONFIG_S_DRIVER in
  vio_write VIRTIO_MMIO_STATUS status ;;
  features <- vio_read VIRTIO_MMIO_DEVICE_FEATURES ;;
  let features := foldl (fun f b => Z.land f (Z.lnot (Z.shiftl 1 b))) features
    [VIRTIO_BLK_F_RO; VIRTIO_BLK_F_SCSI; VIRTIO_BLK_F_CONFIG_WCE; VIRTIO_BLK_F_MQ; VIRTIO_F_ANY_LAYOUT;
     VIRTIO_RING_F_EVENT_IDX; VIRTIO_RING_F_INDIRECT_DESC] in
  vio_write VIRTIO_MMIO_DRIVER_FEATURES (u32 features) ;;
  let status := Z.lor status VIRTIO_CONFIG_S_FEATURES_OK in
  vio_write VIRTIO_MMIO_STATUS status ;;
  let status := Z.lor status VIRTIO_CONFIG_S_DRIVER_OK in
  vio_write VIRTIO_MMIO_STATUS status ;;
  vio_write VIRTIO_MMIO_GUEST_PAGE_SIZE PGSIZE ;;
  vio_write VIRTIO_MMIO_QUEUE_SEL 0 ;;
  max <- vio_read VIRTIO_MMIO_QUEUE_NUM_MAX ;;
  if max =? 0 then panic "virtio disk has no queue 0" else
  if max <? NUM then panic "virtio disk max queue too short" else
  vio_write VIRTIO_MMIO_QUEUE_NUM NUM ;;
  dmod (fun d => d <| vk_desc := replicate 8 (mkdesc 0 0 0 0) |>
                   <| vk_avail := mkavail 0 0 (replicate 8 0) |>
                   <| vk_used := mkused 0 0 (replicate 8 (0, 0)) |>) ;;
  vio_write VIRTIO_MMIO_QUEUE_PFN (u32 (Z.shiftr pages_addr PGSHIFT)) ;;
  for_each (seq 0 8) (fun i => set_free (Z.of_nat i) true).

Definition alloc_desc : M S Z :=
  r <- for_first (seq 0 8) (fun i =>
    d <- lread dl ;;
    f <- aget (vk_free d) (Z.of_nat i) ;;
    if (f : bool) then set_free (Z.of_nat i) false ;; ret (Some (Z.of_nat i)) else ret None) ;;
  ret (default (-1) r).

Definition free_desc (i : Z) : M S unit :=
  if NUM <=? i then panic "free_desc 1" else
  d <- lread dl ;;
  f <- aget (vk_free d) i ;;
  if (f : bool) then panic "free_desc 2" else
  mod_desc i (fun _ => mkdesc 0 0 0 0) ;;
  set_free i true ;;
  os_wakeup free_chan.

(** while(1) of [free_chain]: a descriptor is freed at most once. *)
Fixpoint free_chain_loop (k : nat) (i : Z) : M S unit :=
  match k with
  | O => fail EHang
  | Datatypes.S k' =>
      e <- get_desc i ;;
      free_desc i ;;
      if negb (Z.land (vd_flags e) VRING_DESC_F_NEXT =? 0) then free_chain_loop k' (vd_next e) else ret tt
  end.
Definition free_chain (i : Z) : M S unit := free_chain_loop 9 i.

(** for(int i = 0; i < 3; i++) of [alloc3_desc]; [idx] holds the descriptors so far *)
Fixpoint alloc3_loop (k : nat) (idx : list Z) : M S (option (list Z)) :=
  match k with
  | O => ret (Some idx)
  | Datatypes.S k' =>
      i <- alloc_desc ;;
      if i <? 0 then
        for_each (seq 0 (length idx)) (fun j => free_desc (nth j idx 0)) ;;
        ret None
      else alloc3_loop k' (idx ++ [i])
  end.
Definition alloc3_desc : M S (option (list Z)) := alloc3_loop 3 [].

(** while(1) of [virtio_disk_rw], one round per wakeup *)
Fixpoint alloc3_wait (fuel : nat) : M S (list Z) :=
  match fuel with
  | O => fail EHang
  | Datatypes.S f =>
      r <- alloc3_desc ;;
      match r with
      | Some idx => ret idx
      | None => os_sleep free_chan vdisk_lock ;; alloc3_wait f
      end
  end.

(** Format the three descriptors of a request. *)
Definition format_descs (b : nat) (write : bool) (sector i0 i1 i2 : Z) : M S unit :=
  d <- lread dl ;;
  ops <- aset (vk_ops d) i0 (mkreq (if write then VIRTIO_BLK_T_OUT else VIRTIO_BLK_T_IN) 0 sector) ;;
  dmod (fun d => d <| vk_ops := ops |>) ;;
  mod_desc i0 (fun _ => mkdesc (ops_addr i0) 16 VRING_DESC_F_NEXT (u16 i1)) ;;
  mod_desc i1 (fun _ => mkdesc (data_addr b) BSIZE
                 (Z.lor (if write then 0 else VRING_DESC_F_WRITE) VRING_DESC_F_NEXT) (u16 i2)) ;;
  set_info i0 (fun e => (fst e, 0xff)) ;;
  mod_desc i2 (fun _ => mkdesc (status_addr i0) 1 VRING_DESC_F_WRITE 0).

(** Tell the device. *)
Definition submit (i0 : Z) : M S unit :=
  d <- lread dl ;;
  ring <- aset (va_ring (vk_avail d)) (va_idx (vk_avail d) mod NUM) (u16 i0) ;;
  dmod (fun d => d <| vk_avail := (vk_avail d) <| va_ring := ring |> |>) ;;
  dmod (fun d => d <| vk_avail := (vk_avail d) <| va_idx := u16 (va_idx (vk_avail d) + 1) |> |>) ;;
  vio_write VIRTIO_MMIO_QUEUE_NOTIFY 0.

(** while(b->disk == 1) sleep(b, &disk.vdisk_lock); *)
Fixpoint wait_disk (fuel : nat) (b : nat) : M S unit :=
  match fuel with
  | O => fail EHang
  | Datatypes.S f =>
      x <- lread (bufl b) ;;
      if b_disk x then os_sleep (buf_chan b) vdisk_lock ;; wait_disk f b else ret tt
  end.

Definition virtio_disk_rw_impl (fuel : nat) (b : nat) (write : bool) : M S unit :=
  x <- lread (bufl b) ;;
  let sector := u32 (b_blockno x * (BSIZE / 512)) in
  acquire os_cpu vdisk_lock ;;
  idx <- alloc3_wait fuel ;;
  i0 <- aget idx 0 ;;
  i1 <- aget idx 1 ;;
  i2 <- aget idx 2 ;;
  format_descs b write sector i0 i1 i2 ;;
  lmod (bufl b) (fun x => x <| b_disk := true |>) ;;
  set_info i0 (fun e => (Some b, snd e)) ;;
  submit i0 ;;
  wait_disk fuel b ;;
  set_info i0 (fun e => (None, snd e)) ;;
  free_chain i0 ;;
  release os_cpu vdisk_lock.

(** while(disk.used_idx != disk.used->idx): at most one round per used entry *)
Fixpoint intr_loop (k : nat) : M S unit :=
  match k with
  | O => fail EHang
  | Datatypes.S k' =>
      d <- lread dl ;;
      if vk_used_idx d =? vu_idx (vk_used d) then ret tt else
      e <- aget (vu_ring (vk_used d)) (vk_used_idx d mod NUM) ;;
      let id := i32 (fst e) in
      inf <- get_info id ;;
      if negb (snd inf =? 0) then panic "virtio_disk_intr status" else
      match fst inf with
      | None => fail EFault
      | Some b =>
          lmod (bufl b) (fun x => x <| b_disk := false |>) ;;
          os_wakeup (buf_chan b) ;;
          dmod (fun d => d <| vk_used_idx := u16 (vk_used_idx d + 1) |>) ;;
          intr_loop k'
      end
  end.

Definition virtio_disk_intr : M S unit :=
  acquire os_cpu vdisk_lock ;;
  st <- vio_read VIRTIO_MMIO_INTERRUPT_STATUS ;;
  vio_write VIRTIO_MMIO_INTERRUPT_ACK (Z.land st 0x3) ;;
  intr_loop (Datatypes.S (Z.to_nat (2 ^ 16))) ;;
  release os_cpu vdisk_lock.
End Virtio.

(** ** A disk that serves one request at a time *)

(** The driver's structures, the buffers, the image on the disk, and how often
    the driver will be woken before the device is done. *)
Record vdev : Type := mkvdev {
  dv_disk : disk;
  dv_bufs : list buf;
  dv_image : list Z;
  dv_delay : nat;
}.
#[export] Instance eta_vdev : Settable vdev := fun v => mkvdev (dv_disk v) (dv_bufs v) (dv_image v) (dv_delay v).

Definition dv_buf (v : vdev) (i : nat) : buf := default zero_buf (dv_bufs v !! i).

Definition img_read (img : list Z) (off n : Z) : list Z := take (Z.to_nat n) (drop (Z.to_nat off) img).
Definition img_write (img : list Z) (off : Z) (l : list Z) : list Z :=
  take (Z.to_nat off) img ++ l ++ drop (Z.to_nat off + length l) img.

Section Serves.
Context (ops_addr status_addr : Z -> Z) (data_addr : nat -> Z).

(** One request is outstanding: a chain of three descriptors for block transfer
    between sector [sector] and buffer [b]. *)
Record pending (d : disk) (i0 i1 i2 : Z) (b : nat) (write : bool) (sector : Z) : Prop := {
  pe_one : va_idx (vk_avail d) = u16 (vu_idx (vk_used d) + 1);
  pe_head : znth (va_ring (vk_avail d)) (vu_idx (vk_used d) mod NUM) = Some i0;
  pe_d0 : znth (vk_desc d) i0 = Some (mkdesc (ops_addr i0) 16 VRING_DESC_F_NEXT i1);
  pe_op : znth (vk_ops d) i0 = Some (mkreq (if write then VIRTIO_BLK_T_OUT else VIRTIO_BLK_T_IN) 0 sector);
  pe_d1 : znth (vk_desc d) i1 = Some (mkdesc (data_addr b) BSIZE
            (Z.lor (if write then 0 else VRING_DESC_F_WRITE) VRING_DESC_F_NEXT) i2);
  pe_d2 : znth (vk_desc d) i2 = Some (mkdesc (status_addr i0) 1 VRING_DESC_F_WRITE 0);
}.

(** The request served: [len] is what the device reports as written. *)
Definition served (i0 : Z) (b : nat) (write : bool) (sector len : Z) (v : vdev) : vdev :=
  let d := dv_disk v in
  let d' := d <| vk_info := alter (fun e => (fst e, 0)) (Z.to_nat i0) (vk_info d) |>
              <| vk_used := (vk_used d)
                   <| vu_ring := <[Z.to_nat (vu_idx (vk_used d) mod NUM) := (i0, len)]> (vu_ring (vk_used d)) |>
                   <| vu_idx := u16 (vu_idx (vk_used d) + 1) |> |> in
  if write
  then v <| dv_disk := d' |> <| dv_image := img_write (dv_image v) (512 * sector) (b_data (dv_buf v b)) |>
  else v <| dv_disk := d' |>
         <| dv_bufs := alter (fun x => x <| b_data := img_read (dv_image v) (512 * sector) BSIZE |>) b (dv_bufs v) |>.

(** What the driver relies on of the device, of section 5.2 of the virtio
    specification. *)
Definition serves (dev : vdev -> vdev) : Prop :=
  forall v i0 i1 i2 b write sector, pending (dv_disk v) i0 i1 i2 b write sector ->
    exists len, dev v = served i0 b write sector len v.
End Serves.

(** ** Invariants of the driver *)

Record disk_wf (d : disk) : Prop := {
  kw_desc : length (vk_desc d) = 8%nat;
  kw_free : length (vk_free d) = 8%nat;
  kw_info : length (vk_info d) = 8%nat;
  kw_ops : length (vk_ops d) = 8%nat;
  kw_avail : length (va_ring (vk_avail d)) = 8%nat;
  kw_used : length (vu_ring (vk_used d)) = 8%nat;
  kw_idx : 0 <= vu_idx (vk_used d) < 2 ^ 16;
  (** A free descriptor is blank. *)
  kw_blank : forall i, vk_free d !! i = Some true -> vk_desc d !! i = Some (mkdesc 0 0 0 0);
}.

(** No request is outstanding, and every completion was seen. *)
Definition quiet (d : disk) : Prop :=
  va_idx (vk_avail d) = vu_idx (vk_used d) /\ vk_used_idx d = vu_idx (vk_used d).

Definition free_count (d : disk) : nat := length (filter (fun b : bool => b = true) (vk_free d)).

(** ** Allocation *)

#[local] Notation st := (solo vdev).

Definition diskl : lens st disk := lens_comp solo_compl (field dv_disk).
Definition bufsl (i : nat) : lens st buf :=
  lens_comp solo_compl (Lens (fun v => dv_buf v i) (fun b v => v <| dv_bufs := <[i := b]> (dv_bufs v) |>)).

#[export] Instance vdev_regs : VirtioRegs st := {| vio_read := fun _ => ret 1; vio_write := fun _ _ => ret tt |}.

(** [s] with driver state [d]. *)
Definition sd (d : disk) (s : st) : st := s <| so_comp := (so_comp s) <| dv_disk := d |> |>.
#[local] Notation dk s := (dv_disk (so_comp s)).

Lemma sd_sd d d' s : sd d' (sd d s) = sd d' s.
Proof. done. Qed.

Lemma sd_same s : sd (dk s) s = s.
Proof. by destruct s as [? ? ? ? []]. Qed.

Lemma dk_sd d s : dk (sd d s) = d.
Proof. done. Qed.

Lemma dmod_eq f (s : st) : dmod diskl f s = Ret tt (sd (f (dk s)) s).
Proof. done. Qed.

Lemma znth_lookup {A} (l : list A) (i : nat) x : l !! i = Some x -> znth l (Z.of_nat i) = Some x.
Proof. by rewrite znth_nat. Qed.

Lemma aget_nat {A} (l : list A) (i : nat) x (s : st) : l !! i = Some x -> aget l (Z.of_nat i) s = Ret x s.
Proof. intros H. by apply aget_ok, znth_lookup. Qed.

Lemma aset_nat {A} (l : list A) (i : nat) x (s : st) : (i < length l)%nat -> aset l (Z.of_nat i) x s = Ret (<[i := x]> l) s.
Proof. intros H. rewrite aset_ok by lia. by rewrite Nat2Z.id. Qed.

Definition with_free (i : nat) (b : bool) (d : disk) : disk := d <| vk_free := <[i := b]> (vk_free d) |>.
Definition with_desc (i : nat) (e : virtq_desc) (d : disk) : disk := d <| vk_desc := <[i := e]> (vk_desc d) |>.

Lemma set_free_eq (i : nat) b (s : st) : (i < length (vk_free (dk s)))%nat ->
  set_free diskl (Z.of_nat i) b s = Ret tt (sd (with_free i b (dk s)) s).
Proof. intros Hi. unfold set_free. erewrite bind_ret by done. by erewrite bind_ret by (by apply aset_nat). Qed.

Lemma mod_desc_eq (i : nat) e (s : st) : (i < length (vk_desc (dk s)))%nat ->
  mod_desc diskl (Z.of_nat i) (fun _ => e) s = Ret tt (sd (with_desc i e (dk s)) s).
Proof.
  intros Hi. unfold mod_desc. erewrite bind_ret by done. destruct (lookup_lt_is_Some_2 _ _ Hi) as [e0 He].
  erewrite bind_ret by (by apply aget_nat). by erewrite bind_ret by (by apply aset_nat).
Qed.

Lemma alloc_desc_some (i : nat) (s : st) : length (vk_free (dk s)) = 8%nat -> vk_free (dk s) !! i = Some true ->
  (forall j, (j < i)%nat -> vk_free (dk s) !! j = Some false) ->
  alloc_desc diskl s = Ret (Z.of_nat i) (sd (with_free i false (dk s)) s).
Proof.
  intros Hl Hi Hj. pose proof (lookup_lt_Some _ _ _ Hi). unfold alloc_desc.
  assert (returns (for_first (seq 0 8) (fun i => d <- lread diskl ;; f <- aget (vk_free d) (Z.of_nat i) ;;
    if (f : bool) then set_free diskl (Z.of_nat i) false ;; ret (Some (Z.of_nat i)) else ret None)) s
    (fun r s' => exists a, r = Some a /\ a = Z.of_nat i /\ s' = sd (with_free i false (dk s)) s)) as H0.
  { apply (for_first_some _ (fun _ s' => s' = s) _ 8 0 i); [lia|done| |].
    - intros k s' Hk ->. specialize (Hj k ltac:(lia)). apply returns_bind. eapply returns_intro; [done|].
      apply returns_bind. eapply returns_intro; [by apply aget_nat|]. by apply returns_ret.
    - intros s' ->. apply returns_bind. eapply returns_intro; [done|].
      apply returns_bind. eapply returns_intro; [by apply aget_nat|].
      apply returns_bind. eapply returns_intro; [apply set_free_eq; lia|]. apply returns_ret. by eexists. }
  apply returns_inv in H0 as (r & s' & E & a & -> & -> & ->). by erewrite bind_ret by exact E.
Qed.

Lemma alloc_desc_none (s : st) : length (vk_free (dk s)) = 8%nat ->
  (forall j, (j < 8)%nat -> vk_free (dk s) !! j = Some false) -> alloc_desc diskl s = Ret (-1) s.
Proof.
  intros Hl Hj. unfold alloc_desc.
  assert (returns (for_first (seq 0 8) (fun i => d <- lread diskl ;; f <- aget (vk_free d) (Z.of_nat i) ;;
    if (f : bool) then set_free diskl (Z.of_nat i) false ;; ret (Some (Z.of_nat i)) else ret None)) s
    (fun r s' => r = None /\ s' = s)) as H0.
  { apply (for_first_none _ (fun _ s' => s' = s) 8 0); [done|].
    intros k s' Hk ->. specialize (Hj k ltac:(lia)). apply returns_bind. eapply returns_intro; [done|].
    apply returns_bind. eapply returns_intro; [by apply aget_nat|]. by apply returns_ret. }
  apply returns_inv in H0 as (r & s' & E & -> & ->). by erewrite bind_ret by exact E.
Qed.

(** The lowest free descriptor, or none. *)
Lemma first_true (l : list bool) :
  (exists i, l !! i = Some true /\ (forall j, (j < i)%nat -> l !! j = Some false) /\
     length (filter (fun b : bool => b = true) l) = S (length (filter (fun b : bool => b = true) (<[i := false]> l)))) \/
  (forall j, (j < length l)%nat -> l !! j = Some false) /\ filter (fun b : bool => b = true) l = [].
Proof.
  induction l as [|[] l IH].
  - right. split; [cbn; lia|done].
  - left. exists 0%nat. split; [done|]. split; [lia|]. done.
  - destruct IH as [(i & Hi & Hj & Hc)|[Hj Hc]].
    + left. exists (S i). split; [done|]. split; [|exact Hc].
      intros [|j] ?; [done|]. apply Hj. lia.
    + right. split; [|exact Hc]. intros [|j] ?; [done|]. apply Hj. cbn in *. lia.
Qed.

Definition blank : virtq_desc := mkdesc 0 0 0 0.
Definition freed (i : nat) (d : disk) : disk := with_free i true (with_desc i blank d).
Definition taken (i : nat) (d : disk) : disk := with_free i false d.

Lemma free_desc_eq ch (i : nat) (s : st) : length (vk_free (dk s)) = 8%nat -> length (vk_desc (dk s)) = 8%nat ->
  vk_free (dk s) !! i = Some false -> free_desc diskl ch (Z.of_nat i) s = Ret tt (sd (freed i (dk s)) s).
Proof.
  intros Hf Hd Hi. pose proof (lookup_lt_Some _ _ _ Hi). unfold free_desc.
  destruct (Z.leb_spec NUM (Z.of_nat i)); [unfold NUM in *; lia|].
  erewrite bind_ret by done. erewrite bind_ret by (by apply aget_nat). cbv iota.
  erewrite bind_ret by (apply mod_desc_eq; lia). by erewrite bind_ret by (apply set_free_eq; rewrite dk_sd; cbn; lia).
Qed.

(** Giving back what was just taken, blank as it was. *)
Lemma freed_taken i d : vk_free d !! i = Some true -> vk_desc d !! i = Some blank -> freed i (taken i d) = d.
Proof.
  intros Hf Hd. destruct d. unfold freed, taken, with_free, with_desc. cbn in *.
  by rewrite list_insert_insert_eq, !list_insert_id.
Qed.

Lemma free_count_taken i d : vk_free d !! i = Some true ->
  length (filter (fun b : bool => b = true) (vk_free d)) = S (length (filter (fun b : bool => b = true) (<[i := false]> (vk_free d)))) ->
  free_count d = S (free_count (taken i d)).
Proof. done. Qed.

(** One more descriptor, or the end of the list of free ones. *)
Lemma alloc_desc_cases (s : st) : length (vk_free (dk s)) = 8%nat ->
  (exists i, vk_free (dk s) !! i = Some true /\ free_count (dk s) = S (free_count (taken i (dk s))) /\
     alloc_desc diskl s = Ret (Z.of_nat i) (sd (taken i (dk s)) s)) \/
  (free_count (dk s) = 0%nat /\ alloc_desc diskl s = Ret (-1) s).
Proof.
  intros Hl. destruct (first_true (vk_free (dk s))) as [(i & Hi & Hj & Hc)|[Hj Hc]].
  - left. exists i. split_and!; [done|exact Hc|by apply alloc_desc_some].
  - right. unfold free_count. rewrite Hc. split; [done|]. apply alloc_desc_none; [done|]. rewrite <- Hl. exact Hj.
Qed.

Lemma of_nat_nonneg i : (Z.of_nat i <? 0) = false.
Proof. by apply Z.ltb_ge; lia. Qed.

Lemma taken_lookup i j d b : vk_free (taken i d) !! j = Some b -> b = true -> j <> i /\ vk_free d !! j = Some true.
Proof.
  intros H ->. cbn in H. destruct (decide (j = i)) as [->|Hn].
  - destruct (decide (i < length (vk_free d)))%nat; [by rewrite list_lookup_insert_eq in H|].
    rewrite list_insert_ge in H by lia. apply lookup_lt_Some in H. lia.
  - rewrite list_lookup_insert_ne in H by done. done.
Qed.

Lemma alloc3_spec ch (s : st) : disk_wf (dk s) ->
  (exists i0 i1 i2, vk_free (dk s) !! i0 = Some true /\ vk_free (dk s) !! i1 = Some true /\ vk_free (dk s) !! i2 = Some true /\
     i0 <> i1 /\ i0 <> i2 /\ i1 <> i2 /\ (3 <= free_count (dk s))%nat /\
     alloc3_desc diskl ch s =
       Ret (Some [Z.of_nat i0; Z.of_nat i1; Z.of_nat i2]) (sd (taken i2 (taken i1 (taken i0 (dk s)))) s)) \/
  ((free_count (dk s) < 3)%nat /\ alloc3_desc diskl ch s = Ret None s).
Proof.
  intros Hwf. pose proof (kw_desc _ Hwf) as Hld. pose proof (kw_free _ Hwf) as Hlf. unfold alloc3_desc. cbn [alloc3_loop].
  destruct (alloc_desc_cases s Hlf) as [(i0 & F0 & C0 & E0)|[C0 E0]]; erewrite !bind_ret by exact E0.
  2: { right. split; [lia|done]. }
  rewrite of_nat_nonneg. cbn [app]. set (s0 := sd _ s).
  destruct (alloc_desc_cases s0) as [(i1 & F1 & C1 & E1)|[C1 E1]];
    [cbn; by rewrite length_insert|erewrite !bind_ret by exact E1|erewrite !bind_ret by exact E1].
  2: { right. change (dk s0) with (taken i0 (dk s)) in *. split; [lia|]. change (-1 <? 0) with true. cbv iota.
       change (seq 0 (length [Z.of_nat i0])) with [0%nat]. cbn [for_each].
       erewrite bind_ret.
       2: { cbn [nth]. erewrite bind_ret by (apply free_desc_eq; cbn;
              [by rewrite length_insert|done|apply list_lookup_insert_eq; apply lookup_lt_Some in F0; lia]). done. }
       unfold s0. rewrite dk_sd, sd_sd, freed_taken; [by rewrite sd_same|done|by apply kw_blank]. }
  rewrite of_nat_nonneg. cbn [app]. change (dk s0) with (taken i0 (dk s)) in *. unfold s0 in *. rewrite sd_sd in *. clear s0. set (s1 := sd _ s).
  destruct (taken_lookup _ _ _ _ F1 eq_refl) as [N1 F1'].
  destruct (alloc_desc_cases s1) as [(i2 & F2 & C2 & E2)|[C2 E2]];
    [cbn; by rewrite !length_insert|erewrite !bind_ret by exact E2|erewrite !bind_ret by exact E2].
  2: { right. change (dk s1) with (taken i1 (taken i0 (dk s))) in *. split; [lia|]. change (-1 <? 0) with true. cbv iota.
       change (seq 0 (length [Z.of_nat i0; Z.of_nat i1])) with [0%nat; 1%nat]. cbn [for_each].
       apply lookup_lt_Some in F0 as L0. apply lookup_lt_Some in F1' as L1.
       erewrite bind_ret.
       2: { cbn [nth]. erewrite bind_ret.
            2: { apply free_desc_eq; cbn; [by rewrite !length_insert|done|].
                 rewrite list_lookup_insert_ne by done. apply list_lookup_insert_eq. lia. }
            erewrite bind_ret.
            2: { apply free_desc_eq; cbn; [by rewrite !length_insert|by rewrite length_insert|].
                 rewrite list_lookup_insert_ne by done. apply list_lookup_insert_eq. rewrite length_insert. lia. }
            done. }
       unfold s1. rewrite !dk_sd, !sd_sd. f_equal.
       assert (freed i1 (freed i0 (taken i1 (taken i0 (dk s)))) = freed i1 (taken i1 (freed i0 (taken i0 (dk s))))) as ->.
       { unfold freed, taken, with_free, with_desc. cbn. by rewrite (list_insert_insert_ne _ i0 i1) by done. }
       rewrite (freed_taken i0), (freed_taken i1), sd_same; try done; by apply kw_blank. }
  left. change (dk s1) with (taken i1 (taken i0 (dk s))) in *. rewrite of_nat_nonneg. cbn [app alloc3_loop].
  destruct (taken_lookup _ _ _ _ F2 eq_refl) as [N2 F2']. destruct (taken_lookup _ _ _ _ F2' eq_refl) as [N3 F2''].
  exists i0, i1, i2. unfold s1. rewrite sd_sd. split_and!; [done|done|done|done|done|done|lia|done].
Qed.

(** ** One transfer *)

Section Transfer.
Context (buf_chan : nat -> Z).

(** The disk interrupt, once the device is done with a request. *)
Definition acked (b : nat) (v : vdev) : vdev :=
  v <| dv_bufs := <[b := (dv_buf v b) <| b_disk := false |>]> (dv_bufs v) |>
    <| dv_disk := (dv_disk v) <| vk_used_idx := vu_idx (vk_used (dv_disk v)) |> |>.

#[export] Instance vdisk_cell : LockCell (fun _ : st => True) os_cpu (vdisk_lock diskl).
Proof. by constructor. Qed.

Lemma intr_loop_one k (s : st) (i0 : nat) (b : nat) len st0 : (i0 < 8)%nat ->
  u16 (vk_used_idx (dk s) + 1) = vu_idx (vk_used (dk s)) -> 0 <= vk_used_idx (dk s) < 2 ^ 16 ->
  znth (vu_ring (vk_used (dk s))) (vk_used_idx (dk s) mod NUM) = Some (Z.of_nat i0, len) ->
  vk_info (dk s) !! i0 = Some (Some b, st0) -> st0 = 0 ->
  intr_loop diskl bufsl buf_chan (S (S k)) s = Ret tt (s <| so_comp := acked b (so_comp s) |>).
Proof.
  intros Hi Hu Hr Hring Hinf ->. cbn [intr_loop]. erewrite bind_ret by done. change (lget diskl s) with (dk s).
  destruct (Z.eqb_spec (vk_used_idx (dk s)) (vu_idx (vk_used (dk s)))) as [E|_].
  { exfalso. rewrite <- E in Hu. unfold u16 in Hu. zmod. }
  erewrite bind_ret by (by apply aget_ok). cbn [fst snd].
  assert (i32 (Z.of_nat i0) = Z.of_nat i0) as -> by (unfold i32; zmod).
  erewrite bind_ret.
  2: { unfold get_info. erewrite bind_ret by done. apply aget_nat. exact Hinf. }
  cbn [fst snd]. change (negb (0 =? 0)) with false. cbv iota.
  erewrite bind_ret by done. erewrite bind_ret by done. erewrite bind_ret by apply dmod_eq.
  erewrite bind_ret by done. match goal with |- context [if ?a =? ?b then _ else _] => replace (a =? b) with true end.
  - unfold ret. f_equal. unfold acked. destruct s as [? ? ? ? [d ? ? ?]]. cbn in *. by rewrite Hu.
  - symmetry. apply Z.eqb_eq. exact Hu.
Qed.

Definition lock_with (l : spinlock) (s : st) : st := sd ((dk s) <| vk_lock := l |>) s.

Lemma lock_set l (s : st) : lset (vdisk_lock diskl) l s = lock_with l s.
Proof. done. Qed.

(** Taking and releasing the driver's lock, with [l] its free state. *)
Lemma vdisk_acquire l c (s : st) : lk_locked l = false -> vk_lock (dk s) = l -> so_cpu s = c ->
  acquire os_cpu (vdisk_lock diskl) s = Ret tt (lock_with (held_by (c_tp c) l) (s <| so_cpu := pushed c |>)).
Proof. intros Hl <- <-. etrans; [by apply (acquire_free (D := fun _ => True))|done]. Qed.

Lemma vdisk_release l c (s : st) : cpu_ok c -> vk_lock (dk s) = held_by (c_tp c) l -> so_cpu s = pushed c ->
  release os_cpu (vdisk_lock diskl) s = Ret tt (lock_with (unheld l) (s <| so_cpu := touched c |>)).
Proof.
  intros Hc Hl Es. etrans; [apply (release_held (D := fun _ => True)) with (c := c); try done|];
    change (lget (vdisk_lock diskl) s) with (vk_lock (dk s)); by rewrite Hl.
Qed.

Lemma touched_tp c : c_tp (touched c) = c_tp c.
Proof. unfold touched. by destruct (c_noff c =? 0). Qed.

Lemma virtio_disk_intr_one l c (s : st) (i0 : nat) (b : nat) len : (i0 < 8)%nat -> cpu_ok c ->
  lk_locked l = false -> vk_lock (dk s) = l -> so_cpu s = touched c ->
  u16 (vk_used_idx (dk s) + 1) = vu_idx (vk_used (dk s)) -> 0 <= vk_used_idx (dk s) < 2 ^ 16 ->
  znth (vu_ring (vk_used (dk s))) (vk_used_idx (dk s) mod NUM) = Some (Z.of_nat i0, len) ->
  vk_info (dk s) !! i0 = Some (Some b, 0) ->
  virtio_disk_intr diskl bufsl buf_chan s =
  Ret tt (lock_with (unheld l) (s <| so_comp := acked b (so_comp s) |>)).
Proof.
  intros Hi Hc Hl Hk Hs Hu Hr Hring Hinf. unfold virtio_disk_intr.
  erewrite bind_ret by (by apply (vdisk_acquire l (touched c))). erewrite bind_ret by done. erewrite bind_ret by done.
  set (k := Z.to_nat (2 ^ 16)). assert (k = S (pred k)) as -> by (unfold k; lia). clearbody k.
  erewrite bind_ret by (by eapply intr_loop_one).
  rewrite (vdisk_release l (touched c)); [|by apply touched_ok|done|done].
  rewrite touched_idemp. f_equal. destruct s as [? ? ? ? [[] ? ? ?]]. cbn in *. by subst.
Qed.
End Transfer.

Section Device.
Context (ops_addr status_addr : Z -> Z) (data_addr buf_chan : nat -> Z) (free_chan : Z).
Context (dev : vdev -> vdev).

(** What happens while the driver sleeps: nothing, [dv_delay] times, or the
    device works and raises its interrupt. *)
Definition wake : M st unit := fun s =>
  match dv_delay (so_comp s) with
  | S n => Ret tt (s <| so_comp := (so_comp s) <| dv_delay := n |> |>)
  | O => virtio_disk_intr diskl bufsl buf_chan (s <| so_comp := dev (so_comp s) |>)
  end.

Definition os_disk : OS st := {|
  os_cpu := solo_cpul;
  os_sleep := fun _ lk => release solo_cpul lk ;; wake ;; acquire solo_cpul lk;
  os_wakeup := os_wakeup;
  os_pid := os_pid;
  os_killed := os_killed;
  os_cwd := os_cwd;
  os_copyout := os_copyout;
  os_copyin := os_copyin;
  os_kread := os_kread;
  os_kwrite := os_kwrite;
  os_kalloc := os_kalloc;
  os_kfree := os_kfree;
|}.

(** The request [i0] for buffer [b] is with the device; the driver holds its
    lock, on a CPU that took it in state [c]. *)
Record waiting (s : st) (l : spinlock) (c : cpu) (i0 i1 i2 : nat) (b : nat) (write : bool) (sector : Z) : Prop := {
  wt_pending : pending ops_addr status_addr data_addr (dk s) (Z.of_nat i0) (Z.of_nat i1) (Z.of_nat i2) b write sector;
  wt_i0 : (i0 < 8)%nat;
  wt_idx : vk_used_idx (dk s) = vu_idx (vk_used (dk s)) /\ 0 <= vu_idx (vk_used (dk s)) < 2 ^ 16;
  wt_ring : length (vu_ring (vk_used (dk s))) = 8%nat;
  wt_info : exists st0, vk_info (dk s) !! i0 = Some (Some b, st0);
  wt_buf : (b < length (dv_bufs (so_comp s)))%nat;
  wt_disk : b_disk (dv_buf (so_comp s) b) = true;
  wt_lock : vk_lock (dk s) = held_by (c_tp c) l /\ lk_locked l = false;
  wt_cpu : so_cpu s = pushed c /\ cpu_ok c;
}.

(** The state once the request is done. *)
Definition done_state (i0 b : nat) (write : bool) (sector len : Z) (s : st) : st :=
  s <| so_comp := acked b (served (Z.of_nat i0) b write sector len ((so_comp s) <| dv_delay := O |>)) |>.

Lemma dv_buf_served i0 b write sector len v b' : b_disk (dv_buf (served i0 b write sector len v) b') = b_disk (dv_buf v b').
Proof.
  unfold served. destruct write; [done|]. unfold dv_buf. cbn. destruct (decide (b' = b)) as [->|Hn].
  - rewrite list_lookup_alter_eq. by destruct (dv_bufs v !! b).
  - by rewrite list_lookup_alter_ne.
Qed.

Lemma pending_lock d l i0 i1 i2 b write sector :
  pending ops_addr status_addr data_addr d i0 i1 i2 b write sector ->
  pending ops_addr status_addr data_addr (d <| vk_lock := l |>) i0 i1 i2 b write sector.
Proof. intros [? ? ? ? ? ?]. by constructor. Qed.

(** Changing the lock of the structures commutes with the device's work. *)
Lemma served_lock i0 b write sector len v l :
  served i0 b write sector len (v <| dv_disk := (dv_disk v) <| vk_lock := l |> |>) =
  (served i0 b write sector len v) <| dv_disk := (dv_disk (served i0 b write sector len v)) <| vk_lock := l |> |>.
Proof. by destruct write. Qed.

Lemma served_disk i0 b write sector len v :
  vu_idx (vk_used (dv_disk (served i0 b write sector len v))) = u16 (vu_idx (vk_used (dv_disk v)) + 1) /\
  vk_used_idx (dv_disk (served i0 b write sector len v)) = vk_used_idx (dv_disk v) /\
  vu_ring (vk_used (dv_disk (served i0 b write sector len v))) =
    <[Z.to_nat (vu_idx (vk_used (dv_disk v)) mod NUM) := (i0, len)]> (vu_ring (vk_used (dv_disk v))) /\
  vk_info (dv_disk (served i0 b write sector len v)) = alter (fun e => (fst e, 0)) (Z.to_nat i0) (vk_info (dv_disk v)).
Proof. by destruct write. Qed.

(** The interrupt after the device's work. *)
Lemma wake_serves (Hdev : serves ops_addr status_addr data_addr dev) (s : st) l c i0 i1 i2 b write sector :
  waiting s l c i0 i1 i2 b write sector -> dv_delay (so_comp s) = O -> forall s1,
  s1 = lock_with (unheld l) (s <| so_cpu := touched c |>) ->
  exists len, wake s1 = Ret tt (lock_with (unheld l) ((done_state i0 b write sector len s) <| so_cpu := touched c |>)).
Proof.
  intros [Hp Hi [Hu Hr] Hring [st0 Hinf] Hb Hd [Hl Hl0] [Hc Hok]] Hdl s1 Es1. unfold wake.
  assert (so_comp s1 = (so_comp s) <| dv_disk := (dk s) <| vk_lock := unheld l |> |>) as Ec by (by subst).
  assert (dv_delay (so_comp s1) = O) as -> by (by rewrite Ec).
  destruct (Hdev (so_comp s1) (Z.of_nat i0) (Z.of_nat i1) (Z.of_nat i2) b write sector) as [len E].
  { rewrite Ec. by apply pending_lock. }
  exists len. rewrite E, Ec, served_lock. set (v := served (Z.of_nat i0) b write sector len (so_comp s)).
  destruct (served_disk (Z.of_nat i0) b write sector len (so_comp s)) as (S1 & S2 & S3 & S4). fold v in S1, S2, S3, S4.
  rewrite (virtio_disk_intr_one buf_chan (unheld l) c _ i0 b len).
  - f_equal. unfold done_state.
    assert (served (Z.of_nat i0) b write sector len ((so_comp s) <| dv_delay := O |>) = v) as ->.
    { unfold v. destruct (so_comp s). cbn in Hdl. by subst. }
    subst s1. clearbody v. clear. destruct s as [? ? ? ? []], v as [[] ? ? ?]. done.
  - done.
  - done.
  - done.
  - done.
  - by subst.
  - change (u16 (vk_used_idx (dv_disk v) + 1) = vu_idx (vk_used (dv_disk v))). by rewrite S1, S2, Hu.
  - change (0 <= vk_used_idx (dv_disk v) < 2 ^ 16). by rewrite S2, Hu.
  - change (znth (vu_ring (vk_used (dv_disk v))) (vk_used_idx (dv_disk v) mod NUM) = Some (Z.of_nat i0, len)).
    rewrite S2, S3, Hu. rewrite znth_insert; [by rewrite Z.eqb_refl|]. rewrite Hring. unfold NUM. zmod.
  - change (vk_info (dv_disk v) !! i0 = Some (Some b, 0)). rewrite S4, Nat2Z.id, list_lookup_alter_eq, Hinf. done.
Qed.
(** Sleeping and waking hand the lock and the CPU back as they were. *)
Lemma relock l c (s t : st) : lk_locked l = false -> vk_lock (dk s) = held_by (c_tp c) l -> so_cpu s = pushed c ->
  (exists v, t = s <| so_comp := v |> /\ vk_lock (dv_disk v) = vk_lock (dk s)) ->
  acquire solo_cpul (vdisk_lock diskl) (lock_with (unheld l) (t <| so_cpu := touched c |>)) = Ret tt t.
Proof.
  intros Hl Hk Hc (v & -> & Hv). etrans; [by apply (vdisk_acquire (unheld l) (touched c))|]. f_equal.
  rewrite pushed_touched, touched_tp. rewrite Hk in Hv. destruct s as [? ? ? ? w], v as [[] ? ? ?]. cbn in *. by subst.
Qed.

Lemma wait_disk_spec (Hdev : serves ops_addr status_addr data_addr dev) fuel (s : st) l c i0 i1 i2 b write sector :
  waiting s l c i0 i1 i2 b write sector -> (dv_delay (so_comp s) + 2 <= fuel)%nat ->
  exists len, wait_disk (OS0 := os_disk) diskl bufsl buf_chan fuel b s = Ret tt (done_state i0 b write sector len s).
Proof.
  revert s. induction fuel as [|fuel IH]; intros s Hw Hf; [lia|].
  destruct Hw as [Hp Hi Hu Hring Hinf Hb Hd [Hl Hl0] [Hc Hok]] eqn:Ew. clear Ew. cbn [wait_disk].
  destruct (dv_delay (so_comp s)) as [|n] eqn:Edl.
  - destruct (wake_serves Hdev s l c i0 i1 i2 b write sector Hw Edl _ eq_refl) as [len Ewake]. exists len.
    erewrite bind_ret by done. change (b_disk (lget (bufsl b) s)) with (b_disk (dv_buf (so_comp s) b)). rewrite Hd.
    erewrite bind_ret.
    2: { cbn [os_disk os_sleep]. erewrite bind_ret by (by apply (vdisk_release l c)).
         erewrite bind_ret by exact Ewake. apply (relock l c s); [done|done|done|]. eexists. split; [done|].
         cbn. unfold served. by destruct write. }
    destruct fuel as [|fuel]; [lia|]. cbn [wait_disk]. erewrite bind_ret by done.
    assert (b_disk (lget (bufsl b) (done_state i0 b write sector len s)) = false) as ->; [|done].
    change (b_disk (dv_buf (acked b (served (Z.of_nat i0) b write sector len ((so_comp s) <| dv_delay := O |>))) b) = false).
    unfold acked, dv_buf. cbn. rewrite list_lookup_insert_eq; [done|].
    unfold served. destruct write; cbn; rewrite ?length_alter; done.
  - erewrite bind_ret by done. change (b_disk (lget (bufsl b) s)) with (b_disk (dv_buf (so_comp s) b)). rewrite Hd.
    set (s1 := s <| so_comp := (so_comp s) <| dv_delay := n |> |>).
    erewrite bind_ret.
    2: { cbn [os_disk os_sleep]. erewrite bind_ret by (by apply (vdisk_release l c)).
         erewrite bind_ret by (unfold wake; cbn; by rewrite Edl).
         etrans; [|apply (relock l c s s1); [done|done|done|by eexists]]. done. }
    destruct (IH s1) as [len E]; [by constructor|cbn; lia|]. exists len. rewrite E. done.
Qed.
End Device.

Lemma restore3 {A} (l : list A) i0 i1 i2 (x a0 a1 a2 : A) : i0 <> i1 -> i0 <> i2 -> i1 <> i2 ->
  l !! i0 = Some x -> l !! i1 = Some x -> l !! i2 = Some x ->
  <[i2:=x]> (<[i1:=x]> (<[i0:=x]> (<[i2:=a2]> (<[i1:=a1]> (<[i0:=a0]> l))))) = l.
Proof.
  intros N1 N2 N3 H0 H1 H2.
  rewrite (list_insert_insert_ne _ i0 i2 x a2), (list_insert_insert_ne _ i1 i2 x a2), list_insert_insert_eq by done.
  rewrite (list_insert_insert_ne _ i0 i1 x a1), list_insert_insert_eq, list_insert_insert_eq by done.
  rewrite (list_insert_id l i0), (list_insert_id l i1), (list_insert_id l i2); done.
Qed.

Section Main.
Context (ops_addr status_addr : Z -> Z) (data_addr buf_chan : nat -> Z) (free_chan : Z).
Context (dev : vdev -> vdev) (Hdev : serves ops_addr status_addr data_addr dev).

Definition request_descs (i0 i1 i2 b : nat) (write : bool) (l : list virtq_desc) : list virtq_desc :=
  <[i2 := mkdesc (status_addr (Z.of_nat i0)) 1 VRING_DESC_F_WRITE 0]>
    (<[i1 := mkdesc (data_addr b) BSIZE (Z.lor (if write then 0 else VRING_DESC_F_WRITE) VRING_DESC_F_NEXT) (Z.of_nat i2)]>
      (<[i0 := mkdesc (ops_addr (Z.of_nat i0)) 16 VRING_DESC_F_NEXT (Z.of_nat i1)]> l)).

(** The structures once a request is submitted. *)
Definition requested (i0 i1 i2 b : nat) (write : bool) (sector : Z) (d : disk) : disk :=
  d <| vk_desc := request_descs i0 i1 i2 b write (vk_desc d) |>
    <| vk_ops := <[i0 := mkreq (if write then VIRTIO_BLK_T_OUT else VIRTIO_BLK_T_IN) 0 sector]> (vk_ops d) |>
    <| vk_info := <[i0 := (Some b, 0xff)]> (vk_info d) |>
    <| vk_avail := mkavail (va_flags (vk_avail d)) (u16 (va_idx (vk_avail d) + 1))
         (<[Z.to_nat (va_idx (vk_avail d) mod NUM) := Z.of_nat i0]> (va_ring (vk_avail d))) |>.

Definition buf_sent (b : nat) (s : st) : st :=
  s <| so_comp := (so_comp s) <| dv_bufs := <[b := (dv_buf (so_comp s) b) <| b_disk := true |>]> (dv_bufs (so_comp s)) |> |>.

Lemma u16_small i : (i < 8)%nat -> u16 (Z.of_nat i) = Z.of_nat i.
Proof. intros ?. apply Z.mod_small. lia. Qed.

Lemma set_info_eq (i : nat) f e (s : st) : vk_info (dk s) !! i = Some e ->
  set_info diskl (Z.of_nat i) f s = Ret tt (sd ((dk s) <| vk_info := <[i := f e]> (vk_info (dk s)) |>) s).
Proof.
  intros He. unfold set_info. erewrite bind_ret by done. erewrite bind_ret by (by apply aget_nat).
  by erewrite bind_ret by (apply aset_nat; apply lookup_lt_Some in He; exact He).
Qed.

Definition with_info (i : nat) (e : option nat * Z) (d : disk) : disk := d <| vk_info := <[i := e]> (vk_info d) |>.
Definition with_op (i : nat) (e : virtio_blk_req) (d : disk) : disk := d <| vk_ops := <[i := e]> (vk_ops d) |>.
Definition with_avail (i : nat) (x : Z) (d : disk) : disk :=
  d <| vk_avail := mkavail (va_flags (vk_avail d)) (u16 (va_idx (vk_avail d) + 1)) (<[i := x]> (va_ring (vk_avail d))) |>.

(** The same steps on a state whose structures are [d]. *)
Lemma mod_desc_sd (i : nat) e d (s : st) : (i < length (vk_desc d))%nat ->
  mod_desc diskl (Z.of_nat i) (fun _ => e) (sd d s) = Ret tt (sd (with_desc i e d) s).
Proof. exact (mod_desc_eq i e (sd d s)). Qed.

Lemma set_info_sd (i : nat) f e d (s : st) : vk_info d !! i = Some e ->
  set_info diskl (Z.of_nat i) f (sd d s) = Ret tt (sd (with_info i (f e) d) s).
Proof. exact (set_info_eq i f e (sd d s)). Qed.

Lemma submit_sd (i : nat) d (s : st) : (i < 8)%nat -> length (va_ring (vk_avail d)) = 8%nat ->
  submit diskl (Z.of_nat i) (sd d s) = Ret tt (sd (with_avail (Z.to_nat (va_idx (vk_avail d) mod NUM)) (Z.of_nat i) d) s).
Proof using.
  clear Hdev dev buf_chan free_chan ops_addr status_addr data_addr. intros Hi Ha. unfold submit. erewrite bind_ret by done.
  erewrite bind_ret.
  2: { apply aset_ok. change (lget diskl (sd d s)) with d. rewrite Ha. unfold NUM. zmod. }
  rewrite u16_small by done. erewrite bind_ret by apply dmod_eq. by erewrite bind_ret by apply dmod_eq.
Qed.

Lemma format_sd i0 i1 i2 b write sector d (s : st) : disk_wf d -> (i0 < 8)%nat -> (i1 < 8)%nat -> (i2 < 8)%nat ->
  exists st0,
  format_descs diskl ops_addr status_addr data_addr b write sector (Z.of_nat i0) (Z.of_nat i1) (Z.of_nat i2) (sd d s) =
  Ret tt (sd (with_desc i2 (mkdesc (status_addr (Z.of_nat i0)) 1 VRING_DESC_F_WRITE 0) (with_info i0 (st0, 0xff)
    (with_desc i1 (mkdesc (data_addr b) BSIZE (Z.lor (if write then 0 else VRING_DESC_F_WRITE) VRING_DESC_F_NEXT) (Z.of_nat i2))
    (with_desc i0 (mkdesc (ops_addr (Z.of_nat i0)) 16 VRING_DESC_F_NEXT (Z.of_nat i1))
    (with_op i0 (mkreq (if write then VIRTIO_BLK_T_OUT else VIRTIO_BLK_T_IN) 0 sector) d))))) s).
Proof using.
  clear Hdev dev buf_chan free_chan. intros [Hd Hf Hi Ho Ha Hu _ _] H0 H1 H2.
  destruct (lookup_lt_is_Some_2 (vk_info d) i0) as [e He]; [lia|]. exists (fst e).
  unfold format_descs. erewrite bind_ret by done.
  erewrite bind_ret by (apply aset_nat; change (lget diskl (sd d s)) with d; lia).
  change (lget diskl (sd d s)) with d. erewrite bind_ret by apply dmod_eq. rewrite sd_sd, dk_sd.
  match goal with |- context [sd ?x s] => change x with (with_op i0 (mkreq (if write then VIRTIO_BLK_T_OUT else VIRTIO_BLK_T_IN) 0 sector) d) end.
  rewrite !u16_small by done.
  erewrite bind_ret by (apply mod_desc_sd; cbn; lia).
  erewrite bind_ret by (apply mod_desc_sd; cbn; rewrite length_insert; lia).
  erewrite bind_ret by (by apply (set_info_sd _ _ e)).
  apply mod_desc_sd. cbn. rewrite !length_insert. lia.
Qed.

(** Formatting, recording and submitting a request. *)
Lemma request_eq i0 i1 i2 b write sector (s : st) : disk_wf (dk s) -> (i0 < 8)%nat -> (i1 < 8)%nat -> (i2 < 8)%nat ->
  (format_descs diskl ops_addr status_addr data_addr b write sector (Z.of_nat i0) (Z.of_nat i1) (Z.of_nat i2) ;;
   lmod (bufsl b) (fun x => x <| b_disk := true |>) ;;
   set_info diskl (Z.of_nat i0) (fun e => (Some b, snd e)) ;;
   submit diskl (Z.of_nat i0)) s =
  Ret tt (sd (requested i0 i1 i2 b write sector (dk s)) (buf_sent b s)).
Proof using.
  clear Hdev dev buf_chan free_chan. intros Hwf H0 H1 H2. rewrite <- (sd_same s) at 1. set (d := dk s) in *.
  destruct (format_sd i0 i1 i2 b write sector d s Hwf H0 H1 H2) as [st0 E]. erewrite bind_ret by exact E. clear E.
  set (d1 := with_desc i2 _ _).
  assert (lmod (bufsl b) (fun x => x <| b_disk := true |>) (sd d1 s) = Ret tt (sd d1 (buf_sent b s))) as E by done.
  erewrite bind_ret by exact E.
  assert (vk_info d1 !! i0 = Some (st0, 0xff)) as Hi1.
  { unfold d1. cbn. apply list_lookup_insert_eq. rewrite (kw_info _ Hwf). lia. }
  erewrite bind_ret by (by apply (set_info_sd _ _ (st0, 0xff))).
  rewrite submit_sd; [|done|exact (kw_avail _ Hwf)]. do 2 f_equal.
  unfold d1, requested, request_descs, with_avail, with_info, with_desc, with_op. destruct d. cbn.
  by rewrite list_insert_insert_eq.
Qed.

Lemma chain_flags (write : bool) : Z.land (Z.lor (if write then 0 else VRING_DESC_F_WRITE) VRING_DESC_F_NEXT) VRING_DESC_F_NEXT = 1.
Proof. by destruct write. Qed.

(** Freeing a request's chain. *)
Lemma free_chain_eq i0 i1 i2 b write ds (s : st) : i0 <> i1 -> i0 <> i2 -> i1 <> i2 -> (i0 < 8)%nat -> (i1 < 8)%nat -> (i2 < 8)%nat ->
  length ds = 8%nat -> vk_desc (dk s) = request_descs i0 i1 i2 b write ds -> length (vk_free (dk s)) = 8%nat ->
  vk_free (dk s) !! i0 = Some false -> vk_free (dk s) !! i1 = Some false -> vk_free (dk s) !! i2 = Some false ->
  free_chain diskl free_chan (Z.of_nat i0) s = Ret tt (sd (freed i2 (freed i1 (freed i0 (dk s)))) s).
Proof using.
  clear Hdev dev buf_chan. intros N1 N2 N3 H0 H1 H2 Hl Hd Hf F0 F1 F2. unfold free_chain.
  assert (length (vk_desc (dk s)) = 8%nat) as Hld by (rewrite Hd; unfold request_descs; by rewrite !length_insert).
  cbn [free_chain_loop]. erewrite bind_ret.
  2: { unfold get_desc. erewrite bind_ret by done. apply aget_nat. change (lget diskl s) with (dk s). rewrite Hd. unfold request_descs.
       rewrite !list_lookup_insert_ne by done. apply list_lookup_insert_eq. lia. }
  erewrite bind_ret by (by apply free_desc_eq). cbn [vd_flags vd_next].
  change (negb (Z.land VRING_DESC_F_NEXT VRING_DESC_F_NEXT =? 0)) with true. cbv iota.
  erewrite bind_ret.
  2: { unfold get_desc. erewrite bind_ret by done. apply aget_nat.
       change (vk_desc (lget diskl _)) with (<[i0 := blank]> (vk_desc (dk s))). rewrite Hd. unfold request_descs.
       rewrite (list_lookup_insert_ne _ i0), (list_lookup_insert_ne _ i2) by done. apply list_lookup_insert_eq. rewrite length_insert. lia. }
  erewrite bind_ret by (apply free_desc_eq; cbn; rewrite ?length_insert, ?list_lookup_insert_ne by done; done).
  cbn [vd_flags vd_next]. rewrite chain_flags. change (negb (1 =? 0)) with true. cbv iota.
  erewrite bind_ret.
  2: { unfold get_desc. erewrite bind_ret by done. apply aget_nat.
       change (vk_desc (lget diskl _)) with (<[i1 := blank]> (<[i0 := blank]> (vk_desc (dk s)))). rewrite Hd. unfold request_descs.
       rewrite (list_lookup_insert_ne _ i1), (list_lookup_insert_ne _ i0) by done. apply list_lookup_insert_eq. rewrite !length_insert. lia. }
  erewrite bind_ret by (apply free_desc_eq; cbn; rewrite ?length_insert, ?list_lookup_insert_ne by done; done).
  done.
Qed.

Lemma bind4 {T A B C D E : Type} (a : M T A) (f : M T B) (g : M T C) (h : M T D) (k : D -> M T E) t x t' :
  (a ;; f ;; g ;; h) t = Ret x t' -> (a ;; f ;; g ;; y <- h ;; k y) t = k x t'.
Proof.
  unfold bind. destruct (a t) as [? t1|]; [|done]. destruct (f t1) as [? t2|]; [|done].
  destruct (g t2) as [? t3|]; [|done]. by intros ->.
Qed.

(** The request the driver sends is well formed. *)
Lemma requested_pending i0 i1 i2 b write sector d : disk_wf d -> quiet d -> (i0 < 8)%nat -> (i1 < 8)%nat -> (i2 < 8)%nat ->
  i0 <> i1 -> i0 <> i2 -> i1 <> i2 ->
  pending ops_addr status_addr data_addr (requested i0 i1 i2 b write sector d) (Z.of_nat i0) (Z.of_nat i1) (Z.of_nat i2) b write sector.
Proof using.
  clear Hdev dev buf_chan free_chan. intros [Hd _ _ Ho Ha _ Hx _] [Q1 Q2] H0 H1 H2 N1 N2 N3.
  constructor; cbn [requested vk_avail vk_used vk_desc vk_ops va_idx va_ring set_field]; rewrite ?znth_nat.
  - by rewrite Q1.
  - rewrite Q1, znth_insert, Z.eqb_refl; [done|]. rewrite Ha. unfold NUM. zmod.
  - unfold request_descs. rewrite !list_lookup_insert_ne by done. apply list_lookup_insert_eq. lia.
  - apply list_lookup_insert_eq. lia.
  - unfold request_descs. rewrite list_lookup_insert_ne by done. apply list_lookup_insert_eq. rewrite length_insert. lia.
  - unfold request_descs. apply list_lookup_insert_eq. rewrite !length_insert. lia.
Qed.

(** What remains once the request is done: forget it, free its chain. *)
Definition finished (i0 i1 i2 : nat) (d : disk) : disk := freed i2 (freed i1 (freed i0 (with_info i0 (None, 0) d))).

Lemma finished_free i0 i1 i2 b write sector len v d0 :
  disk_wf d0 -> vk_free d0 !! i0 = Some true -> vk_free d0 !! i1 = Some true -> vk_free d0 !! i2 = Some true ->
  i0 <> i1 -> i0 <> i2 -> i1 <> i2 ->
  dv_disk v = requested i0 i1 i2 b write sector (taken i2 (taken i1 (taken i0 d0))) -> quiet d0 ->
  let d' := finished i0 i1 i2 (dv_disk (acked b (served (Z.of_nat i0) b write sector len v))) in
  disk_wf d' /\ quiet d' /\ vk_free d' = vk_free d0 /\ vk_desc d' = vk_desc d0.
Proof using.
  clear Hdev dev buf_chan free_chan. intros Hwf F0 F1 F2 N1 N2 N3 Ev [Q1 Q2] d'.
  pose proof (kw_blank _ Hwf) as Hblank.
  assert (vk_free d' = vk_free d0) as Ef.
  { unfold d', finished, acked, served. destruct write; cbn; rewrite Ev; cbn; by apply restore3. }
  assert (vk_desc d' = vk_desc d0) as Ed.
  { unfold d', finished, acked, served. destruct write; cbn; rewrite Ev; cbn; unfold request_descs;
      apply restore3; try done; by apply Hblank. }
  assert (vu_idx (vk_used d') = u16 (vu_idx (vk_used d0) + 1)) as Eu.
  { unfold d', finished, acked, served. destruct write; cbn; rewrite Ev; done. }
  split_and!; [|split|done|done].
  - destruct Hwf as [Hd Hf Hi Ho Ha Hu Hx _]. constructor.
    + by rewrite Ed.
    + by rewrite Ef.
    + unfold d', finished, acked, served. destruct write; cbn; rewrite Ev; cbn; by rewrite length_insert, length_alter, length_insert.
    + unfold d', finished, acked, served. destruct write; cbn; rewrite Ev; cbn; by rewrite length_insert.
    + unfold d', finished, acked, served. destruct write; cbn; rewrite Ev; cbn; by rewrite length_insert.
    + unfold d', finished, acked, served. destruct write; cbn; rewrite Ev; cbn; by rewrite length_insert.
    + rewrite Eu. apply Z.mod_pos_bound. lia.
    + by rewrite Ef, Ed.
  - rewrite Eu. unfold d', finished, acked, served. destruct write; cbn; rewrite Ev; cbn; by rewrite Q1.
  - unfold d', finished, acked, served. destruct write; done.
Qed.

Lemma insert_alter {A} (l : list A) f i x : <[i := x]> (alter f i l) = <[i := x]> l.
Proof. revert i. induction l as [|y l IH]; intros [|i]; [done..|]. cbn. f_equal. apply IH. Qed.

Lemma taken_wf i d : disk_wf d -> disk_wf (taken i d).
Proof.
  intros [Kd Kf Ki Ko Ka Ku Kx Kb]. constructor; try done; [cbn; by rewrite length_insert|].
  intros j Hj. apply (taken_lookup _ _ _ _) in Hj as [_ Hj]; [|done]. by apply Kb.
Qed.

Lemma taken3_wf i0 i1 i2 d : disk_wf d -> disk_wf (taken i2 (taken i1 (taken i0 d))).
Proof. intros. by do 3 apply taken_wf. Qed.

(** The data after the device's work. *)
Lemma served_data i0 b write sector len v : (b < length (dv_bufs v))%nat ->
  let v' := acked b (served i0 b write sector len v) in
  dv_image v' = (if write then img_write (dv_image v) (512 * sector) (b_data (dv_buf v b)) else dv_image v) /\
  dv_bufs v' = <[b := (dv_buf v b) <| b_disk := false |>
    <| b_data := if write then b_data (dv_buf v b) else img_read (dv_image v) (512 * sector) BSIZE |>]> (dv_bufs v).
Proof.
  intros Hb. unfold acked, served, dv_buf. destruct (lookup_lt_is_Some_2 _ _ Hb) as [x Hx].
  destruct write; cbn; (split; [done|]).
  - rewrite Hx. cbn. by destruct x.
  - rewrite list_lookup_alter_eq, Hx. cbn. by rewrite insert_alter.
Qed.

(** Waiting for the device, then forgetting the request. *)
Lemma finish_eq fuel (s : st) l c i0 i1 i2 b write sector d0 :
  waiting ops_addr status_addr data_addr s l c i0 i1 i2 b write sector -> (dv_delay (so_comp s) + 2 <= fuel)%nat ->
  disk_wf d0 -> quiet d0 -> vk_free d0 !! i0 = Some true -> vk_free d0 !! i1 = Some true -> vk_free d0 !! i2 = Some true ->
  i0 <> i1 -> i0 <> i2 -> i1 <> i2 ->
  dk s = requested i0 i1 i2 b write sector (taken i2 (taken i1 (taken i0 d0))) ->
  exists len,
  let v := acked b (served (Z.of_nat i0) b write sector len ((so_comp s) <| dv_delay := O |>)) in
  (wait_disk (OS0 := os_disk buf_chan dev) diskl bufsl buf_chan fuel b ;;
   set_info diskl (Z.of_nat i0) (fun e => (None, snd e)) ;;
   free_chain diskl free_chan (Z.of_nat i0) ;;
   release os_cpu (vdisk_lock diskl)) s =
  Ret tt (lock_with (unheld l) (sd (finished i0 i1 i2 (dv_disk v)) ((s <| so_comp := v |>) <| so_cpu := touched c |>))).
Proof.
  intros Hw Hf Hwf Hq F0 F1 F2 N1 N2 N3 Es. pose proof Hw as [_ Hi _ _ _ Hb _ [Hl Hl0] [Hc Hok]].
  destruct (wait_disk_spec ops_addr status_addr data_addr buf_chan dev Hdev fuel s l c i0 i1 i2 b write sector Hw Hf) as [len Ew].
  exists len. intros v. erewrite bind_ret by exact Ew.
  change (done_state i0 b write sector len s) with (s <| so_comp := v |>).
  pose proof (lookup_lt_Some _ _ _ F0) as L0. pose proof (lookup_lt_Some _ _ _ F1) as L1. pose proof (lookup_lt_Some _ _ _ F2) as L2.
  rewrite (kw_free _ Hwf) in L0, L1, L2.
  assert (vk_info (dv_disk v) !! i0 = Some (Some b, 0) /\
    vk_desc (dv_disk v) = request_descs i0 i1 i2 b write (vk_desc d0) /\
    vk_free (dv_disk v) = <[i2 := false]> (<[i1 := false]> (<[i0 := false]> (vk_free d0))) /\
    vk_lock (dv_disk v) = vk_lock (dk s)) as (Vi & Vd & Vf & Vl).
  { unfold v, acked, served. destruct write; cbn; rewrite Es; cbn; rewrite Nat2Z.id, list_lookup_alter_eq, list_lookup_insert_eq
      by (rewrite (kw_info _ Hwf); lia); done. }
  clearbody v. clear Ew Es Hw.
  erewrite bind_ret by (by apply (set_info_eq _ _ (Some b, 0))).
  change (sd _ (s <| so_comp := v |>)) with (sd (with_info i0 (None, 0) (dv_disk v)) (s <| so_comp := v |>)).
  erewrite bind_ret.
  2: { apply (free_chain_eq i0 i1 i2 b write (vk_desc d0)); rewrite ?dk_sd; try done; try lia; cbn; rewrite ?Vf.
       - exact (kw_desc _ Hwf).
       - rewrite !length_insert. exact (kw_free _ Hwf).
       - rewrite !list_lookup_insert_ne by done. apply list_lookup_insert_eq. rewrite (kw_free _ Hwf). lia.
       - rewrite list_lookup_insert_ne by done. apply list_lookup_insert_eq. rewrite length_insert, (kw_free _ Hwf). lia.
       - apply list_lookup_insert_eq. rewrite !length_insert, (kw_free _ Hwf). lia. }
  rewrite dk_sd, sd_sd. fold (finished i0 i1 i2 (dv_disk v)).
  rewrite (vdisk_release l c); [done|done| |done]. rewrite dk_sd. change (vk_lock (finished i0 i1 i2 (dv_disk v))) with (vk_lock (dv_disk v)).
  by rewrite Vl.
Qed.
End Main.

Lemma end_state l c d v (s : st) img bufs fr :
  dv_image v = img -> dv_bufs v = bufs -> disk_wf d -> quiet d -> vk_free d = fr ->
  let s' := lock_with (unheld l) (sd d ((s <| so_comp := v |>) <| so_cpu := touched c |>)) in
  dv_image (so_comp s') = img /\ dv_bufs (so_comp s') = bufs /\ disk_wf (dk s') /\ quiet (dk s') /\
  vk_free (dk s') = fr /\ lk_locked (vk_lock (dk s')) = false /\ so_cpu s' = touched c.
Proof. intros ? ? [? ? ? ? ? ? ? ?] [? ?] ?. split_and!; done. Qed.

(** ** Properties *)

(** C30: a transfer moves exactly one block.  For every device that serves
    requests as its specification says, however many vain wakeups come first,
    virtio_disk_rw() returns after the block of the image that the buffer names
    was copied to the buffer, or the buffer to that block; no other buffer and no
    other byte changes.  The descriptors are free again and the rings in step, so
    that the next call finds the driver as this one did. *)
Theorem virtio_disk_rw_transfers (ops_addr status_addr : Z -> Z) (data_addr buf_chan : nat -> Z) (free_chan : Z)
  (dev : vdev -> vdev) (fuel b : nat) (write : bool) (s : st)
  (Hdev : serves ops_addr status_addr data_addr dev)
  (Hc : cpu_ok (so_cpu s)) (Hl : lk_locked (vk_lock (dk s)) = false)
  (Hwf : disk_wf (dk s)) (Hq : quiet (dk s)) (Hfree : (3 <= free_count (dk s))%nat)
  (Hb : (b < length (dv_bufs (so_comp s)))%nat) (Hno : 0 <= b_blockno (dv_buf (so_comp s) b) < 2 ^ 31)
  (Hf : (dv_delay (so_comp s) + 2 <= fuel)%nat) :
  returns (virtio_disk_rw_impl (OS0 := os_disk buf_chan dev) diskl bufsl ops_addr status_addr data_addr buf_chan free_chan fuel b write) s
    (fun _ s' =>
      let x := dv_buf (so_comp s) b in
      dv_image (so_comp s') =
        (if write then img_write (dv_image (so_comp s)) (BSIZE * b_blockno x) (b_data x) else dv_image (so_comp s)) /\
      dv_bufs (so_comp s') = <[b := x <| b_disk := false |>
        <| b_data := if write then b_data x else img_read (dv_image (so_comp s)) (BSIZE * b_blockno x) BSIZE |>]> (dv_bufs (so_comp s)) /\
      disk_wf (dk s') /\ quiet (dk s') /\ vk_free (dk s') = vk_free (dk s) /\
      lk_locked (vk_lock (dk s')) = false /\ so_cpu s' = touched (so_cpu s)).
Proof.
  unfold virtio_disk_rw_impl. apply returns_bind. eapply returns_intro; [done|].
  change (lget (bufsl b) s) with (dv_buf (so_comp s) b). set (x := dv_buf (so_comp s) b) in *.
  set (sector := u32 (b_blockno x * (BSIZE / 512))).
  assert (512 * sector = BSIZE * b_blockno x) as Esec.
  { unfold sector, u32. change BSIZE with 1024. change (1024 / 512) with 2. rewrite Z.mod_small by lia. lia. }
  set (l := vk_lock (dk s)). set (c := so_cpu s). set (d0 := (dk s) <| vk_lock := held_by (c_tp c) l |>).
  apply returns_bind. eapply returns_intro; [by apply (vdisk_acquire l c)|].
  change (lock_with _ _) with (sd d0 (s <| so_cpu := pushed c |>)).
  assert (disk_wf d0 /\ quiet d0) as [Hwf0 Hq0] by (split; [destruct Hwf; by constructor|done]).
  destruct fuel as [|fuel]; [lia|].
  destruct (alloc3_spec free_chan (sd d0 (s <| so_cpu := pushed c |>)) Hwf0)
    as [(i0 & i1 & i2 & F0 & F1 & F2 & N1 & N2 & N3 & _ & Ea)|[Hcnt _]];
    [|rewrite dk_sd in Hcnt; change (free_count d0) with (free_count (dk s)) in Hcnt; lia].
  rewrite dk_sd in F0, F1, F2, Ea. set (d1 := taken i2 (taken i1 (taken i0 d0))) in *. rewrite sd_sd in Ea.
  apply returns_bind. eapply returns_intro; [cbn [alloc3_wait]; by erewrite bind_ret by exact Ea|].
  apply returns_bind. eapply returns_intro; [done|]. apply returns_bind. eapply returns_intro; [done|].
  apply returns_bind. eapply returns_intro; [done|].
  pose proof (taken3_wf i0 i1 i2 d0 Hwf0) as Hwf1. fold d1 in Hwf1.
  pose proof (kw_free _ Hwf0) as K. pose proof (lookup_lt_Some _ _ _ F0). pose proof (lookup_lt_Some _ _ _ F1).
  pose proof (lookup_lt_Some _ _ _ F2).
  eapply returns_eq; [apply bind4, (request_eq ops_addr status_addr data_addr); rewrite ?dk_sd; [done|lia|lia|lia]|].
  rewrite dk_sd. set (s2 := sd _ _).
  assert (waiting ops_addr status_addr data_addr s2 l c i0 i1 i2 b write sector) as Hw.
  { constructor; [by apply requested_pending; [done|exact Hq0|lia..|done|done|done]|lia|split; [apply Hq|apply Hwf]|apply Hwf|
      |by cbn; rewrite length_insert| |done|done].
    - exists 0xff. cbn. apply list_lookup_insert_eq. rewrite (kw_info _ Hwf). lia.
    - unfold dv_buf. cbn. by rewrite list_lookup_insert_eq. }
  destruct (finish_eq ops_addr status_addr data_addr buf_chan free_chan dev Hdev (S fuel) s2 l c i0 i1 i2 b write sector d0 Hw)
    as [len E]; try done.
  eapply returns_intro; [exact E|]. clear E. set (v := (so_comp s2) <| dv_delay := O |>).
  destruct (finished_free ops_addr status_addr data_addr i0 i1 i2 b write sector len v d0 Hwf0 F0 F1 F2 N1 N2 N3 eq_refl Hq0)
    as (W & Q & Ff & _).
  destruct (served_data (Z.of_nat i0) b write sector len v) as [Ei Eb]; [cbn; by rewrite length_insert|].
  set (v' := acked b (served (Z.of_nat i0) b write sector len v)) in *. clearbody v'.
  set (d' := finished i0 i1 i2 (dv_disk v')) in *. clearbody d'.
  assert (dv_image v = dv_image (so_comp s) /\ dv_bufs v = <[b := x <| b_disk := true |>]> (dv_bufs (so_comp s))) as [Vi Vb] by done.
  assert (dv_buf v b = x <| b_disk := true |>) as Ex by (unfold dv_buf; by rewrite Vb, list_lookup_insert_eq).
  rewrite Ex, Esec, Vi in Ei. rewrite Ex, Esec, Vi, Vb, list_insert_insert_eq in Eb.
  assert (vk_free d0 = vk_free (dk s)) as E0 by done. rewrite E0 in Ff.
  exact (end_state _ _ _ _ _ _ _ _ Ei Eb W Q Ff).
Qed.

(** Descriptors are taken three at a time or not at all.  With three or more
    free, alloc3_desc() takes three different free ones; with fewer it fails and
    leaves the driver's structures exactly as they were. *)
Theorem alloc3_all_or_nothing (ch : Z) (s : st) (Hwf : disk_wf (dk s)) :
  if (free_count (dk s) <? 3)%nat then alloc3_desc diskl ch s = Ret None s
  else returns (alloc3_desc diskl ch) s (fun r s' => exists i0 i1 i2,
    r = Some [Z.of_nat i0; Z.of_nat i1; Z.of_nat i2] /\ i0 <> i1 /\ i0 <> i2 /\ i1 <> i2 /\
    vk_free (dk s) !! i0 = Some true /\ vk_free (dk s) !! i1 = Some true /\ vk_free (dk s) !! i2 = Some true /\
    s' = sd ((dk s) <| vk_free := <[i2 := false]> (<[i1 := false]> (<[i0 := false]> (vk_free (dk s)))) |>) s).
Proof.
  destruct (alloc3_spec ch s Hwf) as [(i0 & i1 & i2 & F0 & F1 & F2 & N1 & N2 & N3 & Hc & E)|[Hc E]].
  - replace (free_count (dk s) <? 3)%nat with false by (symmetry; apply Nat.ltb_ge; lia).
    eapply returns_intro; [exact E|]. by exists i0, i1, i2.
  - by replace (free_count (dk s) <? 3)%nat with true by (symmetry; apply Nat.ltb_lt; lia).
Qed.

(** ** Witnesses *)

(** A device: it follows the chain the newest avail entry names.  Buffer [b] lies
    at address [b] here. *)
Definition wit_dev (v : vdev) : vdev :=
  let d := dv_disk v in
  let i0 := default 0 (znth (va_ring (vk_avail d)) (vu_idx (vk_used d) mod NUM)) in
  let d0 := default blank (znth (vk_desc d) i0) in
  let d1 := default blank (znth (vk_desc d) (vd_next d0)) in
  let r := default (mkreq 0 0 0) (znth (vk_ops d) i0) in
  served i0 (Z.to_nat (vd_addr d1)) (vr_type r =? VIRTIO_BLK_T_OUT) (vr_sector r) 0 v.

Lemma wit_dev_serves : serves (fun _ => 0) (fun _ => 0) Z.of_nat wit_dev.
Proof.
  intros v i0 i1 i2 b write sector [_ Hh H0 Ho H1 _]. exists 0. unfold wit_dev. rewrite Hh. cbn [default from_option id].
  rewrite H0. cbn [default from_option id vd_next]. rewrite H1, Ho. cbn [default from_option id vd_addr vr_type vr_sector].
  rewrite Nat2Z.id. by destruct write.
Defined.

(** A driver after 65535 requests, a disk of three blocks and one buffer for block 2. *)
Definition wit_virtio : st :=
  mksolo (mkcpu 0 None 0 false 0) 1 false ∅
    (mkvdev (mkdisk (replicate 8 blank) (mkavail 0 (2 ^ 16 - 1) (replicate 8 0)) (mkused 0 (2 ^ 16 - 1) (replicate 8 (0, 0)))
               (replicate 8 true) (2 ^ 16 - 1) (replicate 8 (None, 0)) (replicate 8 (mkreq 0 0 0)) (initlock "virtio_disk"))
       [zero_buf <| b_blockno := 2 |>] (replicate 2048 1 ++ replicate 1024 2) 1).

Lemma wit_virtio_wf : disk_wf (dk wit_virtio).
Proof. constructor; try done. intros i Hi. do 8 (destruct i; [done|]). done. Defined.

Lemma virtio_disk_rw_transfers_witness :
  returns (virtio_disk_rw_impl (OS0 := os_disk (fun _ => 0) wit_dev) diskl bufsl (fun _ => 0) (fun _ => 0) Z.of_nat (fun _ => 0) 0 3 0 false)
    wit_virtio (fun _ s' =>
      let x := dv_buf (so_comp wit_virtio) 0 in
      dv_image (so_comp s') = dv_image (so_comp wit_virtio) /\
      dv_bufs (so_comp s') = <[0%nat := x <| b_disk := false |>
        <| b_data := img_read (dv_image (so_comp wit_virtio)) (BSIZE * b_blockno x) BSIZE |>]> (dv_bufs (so_comp wit_virtio)) /\
      disk_wf (dk s') /\ quiet (dk s') /\ vk_free (dk s') = vk_free (dk wit_virtio) /\
      lk_locked (vk_lock (dk s')) = false /\ so_cpu s' = touched (so_cpu wit_virtio)).
Proof.
  apply (virtio_disk_rw_transfers (fun _ => 0) (fun _ => 0) Z.of_nat (fun _ => 0) 0 wit_dev 3 0 false wit_virtio);
    [apply wit_dev_serves|by split|done|apply wit_virtio_wf|by split|vm_compute; lia|cbn; lia|cbn; lia|cbn; lia].
Defined.

Lemma alloc3_all_or_nothing_witness :
  returns (alloc3_desc diskl 0) wit_virtio (fun r s' => exists i0 i1 i2,
    r = Some [Z.of_nat i0; Z.of_nat i1; Z.of_nat i2] /\ i0 <> i1 /\ i0 <> i2 /\ i1 <> i2 /\
    vk_free (dk wit_virtio) !! i0 = Some true /\ vk_free (dk wit_virtio) !! i1 = Some true /\
    vk_free (dk wit_virtio) !! i2 = Some true /\
    s' = sd ((dk wit_virtio) <| vk_free := <[i2 := false]> (<[i1 := false]> (<[i0 := false]> (vk_free (dk wit_virtio)))) |>) wit_virtio).
Proof. exact (alloc3_all_or_nothing 0 wit_virtio wit_virtio_wf). Defined.
