(* ===== verification/Log.v ===== *)
(** * Log: the write-ahead log

    Models kernel/log.c over the interfaces [OS] and [Bufs]. *)
From S2P Require Import Prelude Spinlock Mem Os Bio.

Record log : Type := mklog {
  lg_lock : spinlock;
  lg_start : Z;
  lg_size : Z;
  lg_outstanding : Z;          (* how many FS sys calls are executing. *)
  lg_committing : bool;        (* in commit(), please wait. *)
  lg_dev : Z;
  lg_n : Z;                    (* lh.n *)
  lg_block : list Z;           (* lh.block[LOGSIZE] *)
}.
#[export] Instance eta_log : Settable log := fun l =>
  mklog (lg_lock l) (lg_start l) (lg_size l) (lg_outstanding l) (lg_committing l) (lg_dev l) (lg_n l) (lg_block l).

Section Log.
Context {S : Type} `{!OS S} `{!Bufs S}.
Context (ll : lens S log).

(** The address of [log], the channel begin_op() sleeps on. *)
Context (log_addr : Z).

Definition loglock : lens S spinlock := lens_comp ll (field lg_lock).

(** lh.block[i] *)
Definition lh_block (i : Z) : M S Z := l <- lread ll ;; aget (lg_block l) i.
Definition set_lh_block (i v : Z) : M S unit :=
  l <- lread ll ;;
  bl <- aset (lg_block l) i v ;;
  lmod ll (fun l => l <| lg_block := bl |>).

(** memmove(to->data, from->data, BSIZE) *)
Definition copy_block (to from : nat) : M S unit := d <- get_data from ;; set_data to d.

(** Copy committed blocks from log to their home location *)
Definition install_trans (recovering : bool) : M S unit :=
  l <- lread ll ;;
  for_each (seq 0 (Z.to_nat (lg_n l))) (fun tail =>
    let tail := Z.of_nat tail in
    l <- lread ll ;;
    lbuf <- bread (lg_dev l) (lg_start l + tail + 1) ;;
    h <- lh_block tail ;;
    dbuf <- bread (lg_dev l) h ;;
    copy_block dbuf lbuf ;;
    bwrite dbuf ;;
    when (negb recovering) (bunpin dbuf) ;;
    brelse lbuf ;;
    brelse dbuf).

(** The header: n at offset 0, block[i] at 4 + 4 * i. *)
Definition read_head : M S unit :=
  l <- lread ll ;;
  buf <- bread (lg_dev l) (lg_start l) ;;
  d <- get_data buf ;;
  let n := i32 (get_le 4 0 d) in
  lmod ll (fun l => l <| lg_n := n |>) ;;
  for_each (seq 0 (Z.to_nat n)) (fun i =>
    set_lh_block (Z.of_nat i) (i32 (get_le 4 (4 + 4 * i) d))) ;;
  brelse buf.

Definition write_head : M S unit :=
  l <- lread ll ;;
  buf <- bread (lg_dev l) (lg_start l) ;;
  d <- get_data buf ;;
  set_data buf (put_le 4 0 (u32 (lg_n l)) d) ;;
  for_each (seq 0 (Z.to_nat (lg_n l))) (fun i =>
    h <- lh_block (Z.of_nat i) ;;
    d <- get_data buf ;;
    set_data buf (put_le 4 (4 + 4 * i) (u32 h) d)) ;;
  bwrite buf ;;
  brelse buf.

Definition recover_from_log : M S unit :=
  read_head ;;
  install_trans true ;;
  lmod ll (fun l => l <| lg_n := 0 |>) ;;
  write_head.

(** sizeof(struct logheader) is 4 + 4 * LOGSIZE, below BSIZE. *)
Definition initlog (dev logstart nlog : Z) : M S unit :=
  if BSIZE <=? 4 + 4 * LOGSIZE then panic "initlog: too big logheader" else
  lmod ll (fun l => l <| lg_lock := initlock "log" |>) ;;
  lmod ll (fun l => l <| lg_start := i32 logstart |>) ;;
  lmod ll (fun l => l <| lg_size := i32 nlog |>) ;;
  lmod ll (fun l => l <| lg_dev := dev |>) ;;
  recover_from_log.

(** while(1) of [log_begin], one round per wakeup *)
Fixpoint begin_loop (fuel : nat) : M S unit :=
  match fuel with
  | O => fail EHang
  | Datatypes.S f =>
      l <- lread ll ;;
      if lg_committing l then os_sleep log_addr loglock ;; begin_loop f
      else if LOGSIZE <? lg_n l + (lg_outstanding l + 1) * MAXOPBLOCKS
      then os_sleep log_addr loglock ;; begin_loop f
      else
        lmod ll (fun l => l <| lg_outstanding := lg_outstanding l + 1 |>) ;;
        release os_cpu loglock
  end.

Definition log_begin_op (fuel : nat) : M S unit :=
  acquire os_cpu loglock ;;
  begin_loop fuel.

Definition write_log : M S unit :=
  l <- lread ll ;;
  for_each (seq 0 (Z.to_nat (lg_n l))) (fun tail =>
    let tail := Z.of_nat tail in
    l <- lread ll ;;
    to <- bread (lg_dev l) (lg_start l + tail + 1) ;;
    h <- lh_block tail ;;
    from <- bread (lg_dev l) h ;;
    copy_block to from ;;
    bwrite to ;;
    brelse from ;;
    brelse to).

Definition commit : M S unit :=
  l <- lread ll ;;
  when (0 <? lg_n l)
    (write_log ;;
     write_head ;;
     install_trans false ;;
     lmod ll (fun l => l <| lg_n := 0 |>) ;;
     write_head).

Definition log_end_op : M S unit :=
  acquire os_cpu loglock ;;
  lmod ll (fun l => l <| lg_outstanding := lg_outstanding l - 1 |>) ;;
  l <- lread ll ;;
  if lg_committing l then panic "log.committing" else
  (if lg_outstanding l =? 0
   then lmod ll (fun l => l <| lg_committing := true |>)
   else os_wakeup log_addr) ;;
  release os_cpu loglock ;;
  when (lg_outstanding l =? 0)
    (commit ;;
     acquire os_cpu loglock ;;
     lmod ll (fun l => l <| lg_committing := false |>) ;;
     os_wakeup log_addr ;;
     release os_cpu loglock).

(** for (i = 0; i < log.lh.n; i++) if (log.lh.block[i] == b->blockno) break; *)
Fixpoint find_logged (bl : list Z) (n : nat) (i : Z) (blockno : Z) : Z :=
  match n, bl with
  | Datatypes.S n', b :: bl' => if u32 b =? blockno then i else find_logged bl' n' (i + 1) blockno
  | _, _ => i
  end.

Definition log_write (b : nat) : M S unit :=
  acquire os_cpu loglock ;;
  l <- lread ll ;;
  if (LOGSIZE <=? lg_n l) || (lg_size l - 1 <=? lg_n l) then panic "too big a transaction" else
  if lg_outstanding l <? 1 then panic "log_write outside of trans" else
  bno <- get_blockno b ;;
  let i := find_logged (lg_block l) (Z.to_nat (lg_n l)) 0 bno in
  set_lh_block i (i32 bno) ;;
  when (i =? lg_n l)
    (bpin b ;;
     lmod ll (fun l => l <| lg_n := lg_n l + 1 |>)) ;;
  release os_cpu loglock.
End Log.
