(* ===== verification/Crash.v ===== *)
(** * Crash: the log makes transactions atomic

    The code of [Log] run over an ideal buffer cache: a disk, the cached copies,
    their reference counts, and the sequence of disk writes.  A buffer is
    dropped from the cache, changes and all, as soon as nobody holds or pins it;
    a crash keeps a prefix of the disk writes and loses the rest. *)
From Stdlib Require Import FunctionalExtensionality.
From S2P Require Import Prelude Spinlock Mem Os Bio Log.

Notation block := (list Z) (only parsing).

(** ** The ideal cache *)

Definition fset {A} (f : Z -> A) (a : Z) (v : A) : Z -> A := fun x => if x =? a then v else f x.

Record crash : Type := mkcrash {
  cr_disk : Z -> block;
  cr_cache : Z -> option block;
  cr_ref : Z -> Z;
  cr_trace : list (Z * block);   (* disk writes, oldest first *)
  cr_log : log;
  cr_cpu : cpu;
}.
#[export] Instance eta_crash : Settable crash :=
  fun s => mkcrash (cr_disk s) (cr_cache s) (cr_ref s) (cr_trace s) (cr_log s) (cr_cpu s).

Definition logl : lens crash log := field cr_log.

Definition cget (s : crash) (b : Z) : block := default (cr_disk s b) (cr_cache s b).

Definition ref_up (b : Z) (s : crash) : crash := s <| cr_ref := fset (cr_ref s) b (cr_ref s b + 1) |>.
Definition ref_down (b : Z) (s : crash) : crash :=
  s <| cr_ref := fset (cr_ref s) b (cr_ref s b - 1) |>
    <| cr_cache := if cr_ref s b - 1 =? 0 then fset (cr_cache s) b None else cr_cache s |>.
Definition cache_put (b : Z) (d : block) (s : crash) : crash := s <| cr_cache := fset (cr_cache s) b (Some d) |>.
Definition flush (b : Z) (s : crash) : crash :=
  s <| cr_disk := fset (cr_disk s) b (cget s b) |> <| cr_trace := cr_trace s ++ [(b, cget s b)] |>.

(** One process alone: sleeping would never end. *)
#[export] Instance os_crash : OS crash := {|
  os_cpu := field cr_cpu;
  os_sleep := fun _ _ => fail EHang;
  os_wakeup := fun _ => ret tt;
  os_pid := ret 1;
  os_killed := ret false;
  os_copyout := fun _ _ _ => ret (-1);
  os_cwd := ret None;
  os_copyin := fun _ _ old => ret (-1, old);
  os_kread := fun _ n => ret (replicate n 0);
  os_kwrite := fun _ _ => ret tt;
  os_kalloc := ret 0;
  os_kfree := fun _ => ret tt;
|}.

#[export] Instance bufs_crash : Bufs crash := {|
  bread := fun _ b s => Ret (Z.to_nat b) (ref_up b s);
  bwrite := fun h => modify (flush (Z.of_nat h));
  brelse := fun h => modify (ref_down (Z.of_nat h));
  bpin := fun h => modify (ref_up (Z.of_nat h));
  bunpin := fun h => modify (ref_down (Z.of_nat h));
  get_data := fun h => gets (fun s => cget s (Z.of_nat h));
  set_data := fun h d => modify (cache_put (Z.of_nat h) d);
  get_blockno := fun h => ret (Z.of_nat h);
|}.

(** ** Specification *)

Definition apply_writes (d : Z -> block) (w : list (Z * block)) : Z -> block :=
  foldl (fun d x => fset d x.1 x.2) d w.

(** The header [h] says: [length bs] blocks, [bs]. *)
Definition decodes (h : block) (bs : list Z) : Prop :=
  length h = Z.to_nat BSIZE /\ i32 (get_le 4 0 h) = Z.of_nat (length bs) /\
  forall i b, bs !! i = Some b -> i32 (get_le 4 (4 + 4 * i) h) = b.

Section Spec.
Context (start : Z) (bs : list Z) (new : Z -> block).

Definition log_writes : list (Z * block) := imap (fun t b => (start + Z.of_nat t + 1, new b)) bs.
Definition home_writes : list (Z * block) := (fun b => (b, new b)) <$> bs.

(** Block numbers the log may hold: distinct, representable, and not those of
    the log itself. *)
Record blocks_ok (size : Z) : Prop := {
  bk_start : 0 <= start < 2 ^ 31;
  bk_size : Z.of_nat (length bs) < size;
  bk_max : Z.of_nat (length bs) <= LOGSIZE;
  bk_nodup : NoDup bs;
  bk_range : forall b, b ∈ bs -> 0 <= b < 2 ^ 31 /\ ~ (start <= b < start + size);
}.
End Spec.

(** A machine just booted: empty cache, nothing in memory. *)
Definition reboot (d : Z -> block) (l : log) : crash := mkcrash d (fun _ => None) (fun _ => 0) [] l (mkcpu 0 None 0 false 0).

(** ** Lemmas: writes *)

Lemma fset_eq {A} (f : Z -> A) a v : fset f a v a = v.
Proof. unfold fset. by rewrite Z.eqb_refl. Qed.
Lemma fset_ne {A} (f : Z -> A) a v x : x <> a -> fset f a v x = f x.
Proof. intros H. unfold fset. by zcase. Qed.

Lemma fset_fset {A} (f : Z -> A) a v w : fset (fset f a v) a w = fset f a w.
Proof. extensionality x. unfold fset. by destruct (x =? a). Qed.

Lemma apply_app d w w' : apply_writes d (w ++ w') = apply_writes (apply_writes d w) w'.
Proof. apply foldl_app. Qed.

Lemma apply_other d w x : x ∉ w.*1 -> apply_writes d w x = d x.
Proof.
  revert d. induction w as [|[a v] w IH]; intros d Hx; simpl; [done|]. cbn in Hx.
  rewrite IH by set_solver. apply fset_ne. set_solver.
Qed.

Lemma apply_in d w x v : NoDup w.*1 -> (x, v) ∈ w -> apply_writes d w x = v.
Proof.
  revert d. induction w as [|[a u] w IH]; intros d Hnd Hx; simpl; [by apply elem_of_nil in Hx|].
  cbn in Hnd. apply NoDup_cons in Hnd as [Ha Hnd]. apply elem_of_cons in Hx as [[= -> ->]|Hx].
  - rewrite apply_other by done. apply fset_eq.
  - by apply IH.
Qed.

Lemma home_fst bs new : (home_writes bs new).*1 = bs.
Proof. unfold home_writes. rewrite <- list_fmap_compose. apply list_fmap_id. Qed.

Lemma in_log_writes start bs new x v :
  (x, v) ∈ log_writes start bs new <-> exists t b, bs !! t = Some b /\ x = start + Z.of_nat t + 1 /\ v = new b.
Proof.
  unfold log_writes. rewrite list_elem_of_lookup. split.
  - intros [t Ht]. rewrite list_lookup_imap in Ht. destruct (bs !! t) as [b|] eqn:E; [|done].
    simpl in Ht. injection Ht as <- <-. by exists t, b.
  - intros (t & b & E & -> & ->). exists t. by rewrite list_lookup_imap, E.
Qed.

Lemma log_fst_range start bs new x : x ∈ (log_writes start bs new).*1 ->
  start < x <= start + Z.of_nat (length bs).
Proof.
  intros ([y v] & -> & H)%list_elem_of_fmap. apply in_log_writes in H as (t & b & Ht & -> & _).
  apply lookup_lt_Some in Ht. simpl. lia.
Qed.

Lemma log_fst_nodup start bs new : NoDup (log_writes start bs new).*1.
Proof.
  apply NoDup_alt. intros i j x Hi Hj. rewrite !list_lookup_fmap in *. unfold log_writes in *.
  rewrite !list_lookup_imap in *. destruct (bs !! i), (bs !! j); try done. cbn in *. simplify_eq. lia.
Qed.

(** ** Lemmas: one round of a copy loop *)

Lemma get_data_eq s b : 0 <= b -> get_data (Z.to_nat b) s = Ret (cget s b) s.
Proof. intros H. cbn. unfold gets. by rewrite Z2Nat.id. Qed.

Lemma copy_block_eq s a b : 0 <= a -> 0 <= b ->
  copy_block (Z.to_nat a) (Z.to_nat b) s = Ret tt (cache_put a (cget s b) s).
Proof.
  intros Ha Hb. unfold copy_block. erewrite bind_ret by (by apply get_data_eq).
  cbn. unfold modify. by rewrite Z2Nat.id.
Qed.

(** Reference counts are those of resting buffers. *)
Definition counted (s : crash) : Prop :=
  forall b, 0 <= cr_ref s b /\ (cr_ref s b = 0 -> cr_cache s b = None).

(** [s'] is [s] after block [a] was given contents [v] and written, nothing
    else having changed, and the references having come back to [ref']. *)
Record wrote (s s' : crash) (a : Z) (v : block) (ref' : Z -> Z) : Prop := {
  wr_disk : cr_disk s' = fset (cr_disk s) a v;
  wr_trace : cr_trace s' = cr_trace s ++ [(a, v)];
  wr_log : cr_log s' = cr_log s;
  wr_ref : forall x, cr_ref s' x = ref' x;
  wr_at : cget s' a = v;
  wr_other : forall x, x <> a -> cr_cache s' x = cr_cache s x;
  wr_counted : counted s';
}.

(** Unfolding the operations, and rewriting with facts about the references. *)
Tactic Notation "crash_simp" "using" tactic(tac) :=
  unfold cget, fset; repeat (progress (
    cbn [cr_disk cr_cache cr_ref cr_trace cr_log ref_up ref_down cache_put flush set_field default];
    unfold cget, fset; tac; rewrite ?Z.eqb_refl; cbv beta iota)).

(** to = a, from = b: read both, copy, write a, release both. *)
Lemma copy_round s a b : counted s -> 0 <= a -> 0 <= b -> a <> b -> 1 <= cr_ref s b ->
  wrote s (ref_down a (ref_down b (flush a (cache_put a (cget s b) (ref_up b (ref_up a s)))))) a (cget s b) (cr_ref s).
Proof.
  intros Hc Ha Hb Hne Hr. destruct (Hc a) as [Hra Hca].
  assert ((a =? b) = false /\ (b =? a) = false) as [E1 E2] by (split; zcase).
  assert (cr_ref s b + 1 - 1 = cr_ref s b /\ cr_ref s a + 1 - 1 = cr_ref s a) as [E3 E4] by lia.
  assert ((cr_ref s b =? 0) = false) as E5 by zcase.
  constructor; unfold counted; crash_simp using (rewrite ?E1, ?E2, ?E3, ?E4, ?E5); try done.
  - intros x. zcase; subst; lia.
  - destruct (cr_ref s a =? 0); rewrite ?Z.eqb_refl; done.
  - intros x Hx. destruct (Z.eqb_spec (cr_ref s a) 0); zcase; done.
  - intros x. destruct (Hc x) as [Hrx Hcx]. split; [zcase; subst; lia|].
    destruct (Z.eqb_spec x a); [subst; intros ->; by rewrite ?Z.eqb_refl|].
    intros Hx. assert (cr_ref s x = 0) as Hx0 by (revert Hx; zcase; subst; lia).
    destruct (Z.eqb_spec (cr_ref s a) 0); zcase; first [done|by apply Hcx].
Qed.

(** The same with b = home block: read the log block [a], the home block [b],
    copy a to b, write b; with or without the unpin of commit(). *)
Lemma install_round s a b pinned : counted s -> 0 <= a -> 0 <= b -> a <> b ->
  (pinned = true -> 1 <= cr_ref s b) ->
  let s1 := flush b (cache_put b (cget s a) (ref_up b (ref_up a s))) in
  wrote s (ref_down b (ref_down a (if pinned then ref_down b s1 else s1))) b (cget s a)
    (fun x => if pinned && (x =? b) then cr_ref s b - 1 else cr_ref s x).
Proof.
  intros Hc Ha Hb Hne Hr. destruct (Hc a) as [Hra Hca], (Hc b) as [Hrb Hcb].
  assert ((a =? b) = false /\ (b =? a) = false) as [E1 E2] by (split; zcase).
  assert (cr_ref s b + 1 - 1 = cr_ref s b /\ cr_ref s a + 1 - 1 = cr_ref s a) as [E3 E4] by lia.
  destruct pinned.
  - specialize (Hr eq_refl). assert ((cr_ref s b =? 0) = false) as E5 by zcase.
    constructor; unfold counted; crash_simp using (rewrite ?E1, ?E2, ?E3, ?E4, ?E5); try done.
    + intros x. cbn. zcase; subst; lia.
    + destruct (cr_ref s a =? 0), (cr_ref s b - 1 =? 0); rewrite ?E1, ?E2, ?Z.eqb_refl; done.
    + intros x Hx. destruct (Z.eqb_spec (cr_ref s a) 0), (Z.eqb_spec (cr_ref s b - 1) 0); zcase; subst; auto.
      all: by rewrite Hca.
    + intros x. destruct (Hc x) as [Hrx Hcx]. split; [zcase; subst; lia|].
      destruct (Z.eqb_spec x b); [subst; intros ->; by rewrite ?Z.eqb_refl|].
      intros Hx. assert (cr_ref s x = 0) as Hx0 by (revert Hx; zcase; subst; lia).
      destruct (Z.eqb_spec (cr_ref s a) 0), (Z.eqb_spec (cr_ref s b - 1) 0); zcase; first [done|by apply Hcx].
  - constructor; unfold counted; crash_simp using (rewrite ?E1, ?E2, ?E3, ?E4); try done.
    + intros x. cbn. zcase; subst; lia.
    + destruct (cr_ref s a =? 0), (cr_ref s b =? 0); rewrite ?E1, ?E2, ?Z.eqb_refl; done.
    + intros x Hx. destruct (Z.eqb_spec (cr_ref s a) 0), (Z.eqb_spec (cr_ref s b) 0); zcase; subst; auto.
      all: by rewrite Hca.
    + intros x. destruct (Hc x) as [Hrx Hcx]. split; [zcase; subst; lia|].
      destruct (Z.eqb_spec x b); [subst; intros Hx; rewrite Hx, ?Z.eqb_refl; done|].
      intros Hx. assert (cr_ref s x = 0) as Hx0 by (revert Hx; zcase; subst; lia).
      destruct (Z.eqb_spec (cr_ref s a) 0), (Z.eqb_spec (cr_ref s b) 0); zcase; first [done|by apply Hcx].
Qed.

Lemma wrote_cget s s' a v r x : wrote s s' a v r -> x <> a -> cget s' x = cget s x.
Proof. intros H Hx. unfold cget. by rewrite (wr_disk _ _ _ _ _ H), (wr_other _ _ _ _ _ H), fset_ne. Qed.

(** ** The loops of commit() *)

Section Commit.
Context (start size : Z) (bs : list Z) (new : Z -> block).
Context (Hb : blocks_ok start bs size).

Notation n := (length bs).
Notation W1 := (log_writes start bs new).
Notation W3 := (home_writes bs new).

(** The in-memory header lists [bs]. *)
Record lists (l : log) : Prop := {
  li_start : lg_start l = start;
  li_n : lg_n l = Z.of_nat n;
  li_block : forall i b, bs !! i = Some b -> lg_block l !! i = Some b;
}.

Lemma lh_block_eq l (s : crash) i b : cr_log s = l -> lists l -> bs !! i = Some b ->
  lh_block logl (Z.of_nat i) s = Ret b s.
Proof.
  intros El Hl Hi. unfold lh_block. erewrite bind_ret by done. cbn [lget logl field]. rewrite El.
  apply aget_ok. rewrite znth_nat. by apply Hl.
Qed.

Lemma bs_range i b : bs !! i = Some b -> 0 <= b < 2 ^ 31 /\ ~ (start <= b < start + size) /\ Z.of_nat i < Z.of_nat n.
Proof.
  intros Hi. destruct (bk_range _ _ _ Hb b) as [? ?]; [by eapply list_elem_of_lookup_2|].
  apply lookup_lt_Some in Hi. split_and!; lia || done.
Qed.

Lemma take_W1 k b : bs !! k = Some b -> take (S k) W1 = take k W1 ++ [(start + Z.of_nat k + 1, new b)].
Proof. intros Hk. apply take_S_r. unfold log_writes. by rewrite list_lookup_imap, Hk. Qed.

Lemma take_W3 k b : bs !! k = Some b -> take (S k) W3 = take k W3 ++ [(b, new b)].
Proof. intros Hk. apply take_S_r. unfold home_writes. by rewrite list_lookup_fmap, Hk. Qed.

Lemma length_W1 : length W1 = n.
Proof. apply length_imap. Qed.
Lemma length_W3 : length W3 = n.
Proof. apply length_fmap. Qed.

Lemma apply_snoc d w a (v : block) : apply_writes d (w ++ [(a, v)]) = fset (apply_writes d w) a v.
Proof. by rewrite apply_app. Qed.

(** Pinned blocks with their new contents. *)
Definition pinned_new (s : crash) : Prop := forall b, b ∈ bs -> cget s b = new b /\ 1 <= cr_ref s b.

Record logged (s : crash) (k : nat) (s' : crash) : Prop := {
  lo_log : cr_log s' = cr_log s;
  lo_trace : cr_trace s' = cr_trace s ++ take k W1;
  lo_disk : cr_disk s' = apply_writes (cr_disk s) (take k W1);
  lo_counted : counted s';
  lo_ref : forall x, cr_ref s' x = cr_ref s x;
  lo_new : pinned_new s';
  lo_at : forall t b, (t < k)%nat -> bs !! t = Some b -> cget s' (start + Z.of_nat t + 1) = new b;
  lo_start : cget s' start = cget s start;
}.

Lemma write_log_spec s : lists (cr_log s) -> counted s -> pinned_new s ->
  returns (write_log logl) s (fun _ s' => logged s n s').
Proof.
  intros Hl Hc Hp. unfold write_log. apply returns_bind. eapply returns_intro; [done|].
  cbn [lget logl field]. rewrite (li_n _ Hl), Nat2Z.id.
  apply (for_each_returns _ (logged s) n 0 s).
  { constructor; try done; [by rewrite take_0, app_nil_r|intros; lia]. }
  intros k s' Hk [A B C D E G H J]. destruct (lookup_lt_is_Some_2 bs k) as [b Hbk]; [lia|].
  destruct (bs_range k b Hbk) as (Hr1 & Hr2 & _). pose proof (bk_start _ _ _ Hb). pose proof (bk_size _ _ _ Hb).
  set (a := start + Z.of_nat k + 1). assert (a <> b) as Hab by (unfold a; lia).
  destruct (G b) as [Gb Rb]; [by eapply list_elem_of_lookup_2|].
  pose proof (copy_round s' a b D ltac:(unfold a; lia) ltac:(lia) Hab Rb) as W.
  apply returns_intro with (a := tt)
    (s' := ref_down a (ref_down b (flush a (cache_put a (cget s' b) (ref_up b (ref_up a s')))))).
  { erewrite bind_ret by done. cbn [lget logl field]. rewrite A, (li_start _ Hl). fold a.
    erewrite bind_ret by done. erewrite bind_ret by (apply (lh_block_eq (cr_log s)); [exact A|done|done]).
    erewrite bind_ret by done. erewrite bind_ret by (apply copy_block_eq; unfold a; lia).
    erewrite bind_ret by done. erewrite bind_ret by done.
    cbn [brelse bufs_crash]. unfold modify. rewrite !Z2Nat.id by (unfold a; lia). done. }
  pose proof W as [W1d W1t W1l W1r W1a W1o W1c].
  assert (forall x, x <> a -> cget (ref_down a (ref_down b (flush a (cache_put a (cget s' b) (ref_up b (ref_up a s')))))) x
    = cget s' x) as Hx by (intros; by eapply wrote_cget; [exact W|]).
  change (1 + k)%nat with (S k). constructor.
  - by rewrite W1l.
  - rewrite W1t, B, (take_W1 _ _ Hbk), Gb. by rewrite app_assoc.
  - rewrite W1d, C, (take_W1 _ _ Hbk), Gb, apply_snoc. done.
  - done.
  - intros x. by rewrite W1r.
  - intros c Hc'. destruct (G c Hc') as [Gc Rc]. split; [|by rewrite W1r].
    rewrite Hx; [done|]. destruct (bk_range _ _ _ Hb c Hc'). unfold a. lia.
  - intros t c Ht Hct. destruct (decide (t = k)) as [->|Hne].
    + etrans; [exact W1a|]. rewrite Gb. congruence.
    + rewrite Hx by (unfold a; lia). apply H; [lia|done].
  - by rewrite Hx by (unfold a; lia).
Qed.

(** write_head() writes a header that decodes to the in-memory one. *)
Definition header_upto (k : nat) (h : block) : Prop :=
  length h = Z.to_nat BSIZE /\ get_le 4 0 h = Z.of_nat n /\
  forall i b, (i < k)%nat -> bs !! i = Some b -> get_le 4 (4 + 4 * i) h = b.

Lemma i32_small x : 0 <= x < 2 ^ 31 -> i32 x = x.
Proof. intros. unfold i32. rewrite Z.mod_small by lia. lia. Qed.

Lemma header_decodes h : header_upto n h -> decodes h bs.
Proof.
  intros (Hl & Hn & Hi). pose proof (bk_max _ _ _ Hb). unfold LOGSIZE, MAXOPBLOCKS in *. split_and!; [done| |].
  - rewrite Hn. apply i32_small. lia.
  - intros i b Hib. destruct (bs_range i b Hib) as (? & _ & ?). rewrite (Hi i b) by (done || lia).
    by apply i32_small.
Qed.

Record head_written (s s' : crash) (h : block) : Prop := {
  hw_disk : cr_disk s' = fset (cr_disk s) start h;
  hw_trace : cr_trace s' = cr_trace s ++ [(start, h)];
  hw_log : cr_log s' = cr_log s;
  hw_counted : counted s';
  hw_ref : forall x, cr_ref s' x = cr_ref s x;
  hw_cget : forall x, x <> start -> cget s' x = cget s x;
  hw_at : cget s' start = h;
}.

Lemma write_head_spec s : lists (cr_log s) -> counted s -> length (cget s start) = Z.to_nat BSIZE ->
  returns (write_head logl) s (fun _ s' => exists h, head_written s s' h /\ decodes h bs).
Proof.
  intros Hl Hc Hlen. pose proof (bk_start _ _ _ Hb) as Hs0. pose proof (bk_max _ _ _ Hb) as Hmax.
  unfold LOGSIZE, MAXOPBLOCKS in Hmax. unfold write_head.
  apply returns_bind. eapply returns_intro; [done|]. cbn [lget logl field]. rewrite (li_start _ Hl), (li_n _ Hl), Nat2Z.id.
  apply returns_bind. eapply returns_intro; [done|].
  apply returns_bind. eapply returns_intro; [apply get_data_eq; lia|].
  apply returns_bind. eapply returns_intro; [done|].
  set (s1 := cache_put _ _ _).
  assert (s1 = cache_put start (put_le 4 0 (u32 (Z.of_nat n)) (cget s start)) (ref_up start s)) as Es1.
  { unfold s1. by rewrite Z2Nat.id by lia. }
  apply returns_bind.
  eapply returns_mono; [apply (for_each_returns _ (fun k t => exists h, header_upto k h /\
    cr_disk t = cr_disk s /\ cr_trace t = cr_trace s /\ cr_log t = cr_log s /\
    cr_ref t = fset (cr_ref s) start (cr_ref s start + 1) /\
    forall x, cr_cache t x = if x =? start then Some h else cr_cache s x) n 0 s1)|].
  - rewrite Es1. exists (put_le 4 0 (u32 (Z.of_nat n)) (cget s start)). split_and!; try done.
    split_and!; [by rewrite length_put_le| |intros; lia].
    rewrite get_put_le; [apply Z.mod_small; lia|rewrite Hlen; unfold BSIZE; lia|apply Z.mod_pos_bound; lia].
  - intros i t Hi (h & (Hhl & Hhn & Hhb) & A & B & C & D & E).
    destruct (lookup_lt_is_Some_2 bs i) as [b Hbi]; [lia|]. destruct (bs_range i b Hbi) as (Hr & _ & _).
    apply returns_bind. eapply returns_intro; [apply (lh_block_eq (cr_log s)); [exact C|done|done]|].
    apply returns_bind. eapply returns_intro; [apply get_data_eq; lia|].
    assert (cget t start = h) as Eh by (unfold cget; rewrite E, Z.eqb_refl; done).
    eapply returns_intro; [done|]. rewrite Eh, Z2Nat.id by lia.
    assert (u32 b = b) as Eb by (apply Z.mod_small; lia). rewrite Eb.
    exists (put_le 4 (4 + 4 * i) b h). split_and!; try done.
    + split_and!; [by rewrite length_put_le| |].
      * rewrite get_put_le_ne by lia. done.
      * intros j c Hj Hcj. destruct (decide (j = i)) as [->|Hne].
        -- rewrite get_put_le; [congruence|rewrite Hhl; unfold BSIZE; lia|change (256 ^ Z.of_nat 4) with (2 ^ 32); lia].
        -- rewrite get_put_le_ne by lia. apply Hhb; [lia|done].
    + intros x. cbn. unfold fset. destruct (Z.eqb_spec x start); [done|]. rewrite E. by zcase.
  - intros [] t (h & Hh & A & B & C & D & E). rewrite Nat.add_0_l in Hh.
    apply returns_bind. eapply returns_intro; [done|]. eapply returns_intro; [done|].
    assert (cget t start = h) as Eh by (unfold cget; rewrite E, Z.eqb_refl; done).
    rewrite !Z2Nat.id by lia. exists h. split; [|by apply header_decodes].
    constructor.
    + cbn. by rewrite A, Eh.
    + cbn. by rewrite B, Eh.
    + exact C.
    + intros x. destruct (Hc x) as [Hx1 Hx2], (Hc start) as [Hy1 Hy2]. cbn. rewrite D.
      rewrite fset_eq, fset_fset. unfold fset at 1 2.
      destruct (Z.eqb_spec x start) as [->|Hne].
      * replace (cr_ref s start + 1 - 1) with (cr_ref s start) by lia. split; [done|].
        intros H0. by rewrite H0, Z.eqb_refl, fset_eq.
      * split; [done|]. intros H0. case_match; rewrite ?fset_ne, E by done; zcase; auto.
    + intros x. cbn. rewrite D, fset_eq, fset_fset. unfold fset. zcase; subst; lia.
    + intros x Hx. unfold cget. cbn. rewrite D, A, fset_eq, fset_ne by done. f_equal.
      case_match; rewrite ?fset_ne, E by done; by replace (x =? start) with false by zcase.
    + etrans; [|exact Eh]. unfold cget at 1. cbn. rewrite !fset_eq.
      case_match; rewrite ?fset_eq; [done|]. unfold cget. rewrite E, Z.eqb_refl. done.
Qed.
(** install_trans() copies the logged blocks home. *)
Definition log_holds (s : crash) : Prop :=
  forall t b, bs !! t = Some b -> cget s (start + Z.of_nat t + 1) = new b.

Record installed (recovering : bool) (s : crash) (k : nat) (s' : crash) : Prop := {
  is_log : cr_log s' = cr_log s;
  is_trace : cr_trace s' = cr_trace s ++ take k W3;
  is_disk : cr_disk s' = apply_writes (cr_disk s) (take k W3);
  is_counted : counted s';
  is_ref : forall x, cr_ref s' x = if negb recovering && bool_decide (x ∈ take k bs) then cr_ref s x - 1 else cr_ref s x;
  is_cget : forall x, cget s' x = if bool_decide (x ∈ take k bs) then new x else cget s x;
}.

Lemma when_unpin c b s :
  when c (bunpin (Z.to_nat b)) s = Ret tt (if c then ref_down (Z.of_nat (Z.to_nat b)) s else s).
Proof. by destruct c. Qed.

Lemma not_yet k b : bs !! k = Some b -> b ∉ take k bs.
Proof.
  intros Hk Hin. apply list_elem_of_lookup in Hin as [j Hj].
  pose proof (lookup_lt_Some _ _ _ Hj) as Hlt. rewrite length_take in Hlt.
  rewrite lookup_take_lt in Hj by lia.
  pose proof (NoDup_lookup bs j k b (bk_nodup _ _ _ Hb) Hj Hk). lia.
Qed.

Lemma in_take_S k b x : bs !! k = Some b -> x ∈ take (S k) bs <-> x ∈ take k bs \/ x = b.
Proof. intros Hk. rewrite (take_S_r _ _ _ Hk). set_solver. Qed.

Lemma log_not_home t b : bs !! t = Some b -> start + Z.of_nat t + 1 ∉ bs.
Proof.
  intros Ht Hin. destruct (bk_range _ _ _ Hb _ Hin) as [_ Hr]. pose proof (bk_start _ _ _ Hb).
  pose proof (bk_size _ _ _ Hb). apply lookup_lt_Some in Ht. lia.
Qed.

Lemma install_spec recovering s : lists (cr_log s) -> counted s -> log_holds s ->
  (recovering = false -> forall b, b ∈ bs -> 1 <= cr_ref s b) ->
  returns (install_trans logl recovering) s (fun _ s' => installed recovering s n s').
Proof.
  intros Hl Hc Hlog Hp. unfold install_trans. apply returns_bind. eapply returns_intro; [done|].
  cbn [lget logl field]. rewrite (li_n _ Hl), Nat2Z.id.
  apply (for_each_returns _ (installed recovering s) n 0 s).
  { constructor; rewrite ?take_0; try done; [by rewrite app_nil_r|].
    all: intros x; rewrite bool_decide_eq_false_2 by apply not_elem_of_nil; by rewrite ?andb_false_r. }
  intros k s' Hk [A B C D E G]. destruct (lookup_lt_is_Some_2 bs k) as [b Hbk]; [lia|].
  destruct (bs_range k b Hbk) as (Hr1 & Hr2 & _). pose proof (bk_start _ _ _ Hb). pose proof (bk_size _ _ _ Hb).
  set (a := start + Z.of_nat k + 1). assert (a <> b) as Hab by (unfold a; lia).
  assert (cget s' a = new b) as Ga.
  { rewrite G, bool_decide_eq_false_2; [by apply Hlog|]. intros Hin.
    apply (log_not_home _ _ Hbk). eapply subseteq_take. exact Hin. }
  assert (negb recovering = true -> 1 <= cr_ref s' b) as Rb.
  { intros Hrec. rewrite E, (bool_decide_eq_false_2 (b ∈ _)) by (by apply not_yet). rewrite andb_false_r.
    apply Hp; [by destruct recovering|]. by eapply list_elem_of_lookup_2. }
  pose proof (install_round s' a b (negb recovering) D ltac:(unfold a; lia) ltac:(lia) Hab Rb) as W.
  cbv zeta in W. set (s1 := ref_down b _) in W. apply returns_intro with (a := tt) (s' := s1).
  { erewrite bind_ret by done. cbn [lget logl field]. rewrite A, (li_start _ Hl). fold a.
    erewrite bind_ret by done. erewrite bind_ret by (apply (lh_block_eq (cr_log s)); [exact A|done|done]).
    erewrite bind_ret by done. erewrite bind_ret by (apply copy_block_eq; unfold a; lia).
    erewrite bind_ret by done. erewrite bind_ret by apply when_unpin. erewrite bind_ret by done.
    cbn [brelse bufs_crash]. unfold modify. rewrite !Z2Nat.id by (unfold a; lia). done. }
  pose proof W as [W1d W1t W1l W1r W1a W1o W1c].
  change (1 + k)%nat with (S k).
  assert (forall x, bool_decide (x ∈ take (S k) bs) = bool_decide (x ∈ take k bs) || (x =? b)) as Ht.
  { intros x. apply eq_true_iff_eq. rewrite orb_true_iff, Z.eqb_eq, !bool_decide_eq_true. by apply in_take_S. }
  constructor.
  - by rewrite W1l.
  - rewrite W1t, B, (take_W3 _ _ Hbk), Ga. by rewrite app_assoc.
  - rewrite W1d, C, (take_W3 _ _ Hbk), Ga, apply_snoc. done.
  - done.
  - intros x. rewrite W1r, Ht, E. destruct (Z.eqb_spec x b) as [->|Hne].
    + rewrite E, (bool_decide_eq_false_2 (b ∈ _)) by (by apply not_yet). by destruct recovering.
    + rewrite andb_false_r, orb_false_r. done.
  - intros x. rewrite Ht. destruct (Z.eqb_spec x b) as [->|Hne].
    + rewrite orb_true_r. etrans; [exact W1a|done].
    + rewrite orb_false_r, <- G. unfold cget. by rewrite W1d, W1o, fset_ne.
Qed.
End Commit.

(** ** commit() *)

Section CommitSpec.
Context (start size : Z) (bs : list Z) (new : Z -> block).
Context (Hb : blocks_ok start bs size).

Lemma blocks_ok_nil : blocks_ok start [] size.
Proof.
  destruct Hb as [H1 H2 H3 H4 H5]. constructor; [done|cbn; lia|cbn; unfold LOGSIZE, MAXOPBLOCKS; lia|constructor|].
  intros b Hin. by apply elem_of_nil in Hin.
Qed.

(** The last write of a commit or a recovery: the header, now empty. *)
Lemma clear_spec s : lg_start (cr_log s) = start -> counted s -> length (cget s start) = Z.to_nat BSIZE ->
  returns (lmod logl (fun l => l <| lg_n := 0 |>) ;; write_head logl) s
    (fun _ s' => exists h, cr_trace s' = cr_trace s ++ [(start, h)] /\ cr_disk s' = fset (cr_disk s) start h /\ decodes h []).
Proof.
  intros Hst Hc Hlen. apply returns_bind. eapply returns_intro; [done|].
  eapply returns_mono; [apply (write_head_spec start size [] blocks_ok_nil)|].
  - constructor; [exact Hst|done|intros i b Hi; done].
  - exact Hc.
  - exact Hlen.
  - intros [] s' (h & [Hd Ht _ _ _ _ _] & Hdec). exists h. by rewrite Hd, Ht.
Qed.

(** The writes of a commit, in order. *)
Definition commit_writes (h h0 : block) : list (Z * block) :=
  log_writes start bs new ++ [(start, h)] ++ home_writes bs new ++ [(start, h0)].

Lemma commit_spec s : lists start bs (cr_log s) -> counted s -> pinned_new bs new s ->
  length (cget s start) = Z.to_nat BSIZE -> bs <> [] ->
  returns (commit logl) s (fun _ s' => exists h h0,
    cr_trace s' = cr_trace s ++ commit_writes h h0 /\ decodes h bs /\ decodes h0 []).
Proof.
  intros Hl Hc Hp Hlen Hne. unfold commit. apply returns_bind. eapply returns_intro; [done|].
  cbn [lget logl field]. rewrite (li_n _ _ _ Hl).
  replace (0 <? Z.of_nat (length bs)) with true by (destruct bs; [done|symmetry; apply Z.ltb_lt; cbn; lia]).
  cbn [when]. apply returns_bind. eapply returns_mono; [by apply (write_log_spec start size bs new Hb)|].
  intros [] s1 [L1 T1 D1 C1 R1 P1 A1 S1]. apply returns_bind.
  eapply returns_mono; [apply (write_head_spec start size bs Hb); [by rewrite L1|done|by rewrite S1]|].
  intros [] s2 (h & [D2 T2 L2 C2 R2 G2 A2] & Hdec). apply returns_bind.
  pose proof (bk_start _ _ _ Hb) as Hs0.
  eapply returns_mono; [apply (install_spec start size bs new Hb)|].
  - by rewrite L2, L1.
  - done.
  - intros t b Ht. rewrite G2 by lia. apply A1; [by eapply lookup_lt_Some|done].
  - intros _ b Hin. rewrite R2. by apply P1.
  - intros [] s3 [L3 T3 D3 C3 R3 G3].
    eapply returns_mono; [apply clear_spec|].
    + by rewrite L3, L2, L1, (li_start _ _ _ Hl).
    + done.
    + rewrite G3, bool_decide_eq_false_2; [by rewrite A2; apply Hdec|].
      intros Hin%subseteq_take. destruct (bk_range _ _ _ Hb _ Hin) as [_ Hr].
      pose proof (bk_size _ _ _ Hb). lia.
    + intros [] s4 (h0 & T4 & _ & Hdec0). exists h, h0. split_and!; [|done|done].
      rewrite T4, T3, T2, T1. unfold commit_writes.
      rewrite (take_ge (log_writes _ _ _)) by (unfold log_writes; by rewrite length_imap).
      rewrite (take_ge (home_writes _ _)) by (unfold home_writes; by rewrite length_fmap).
      by rewrite <- !app_assoc.
Qed.
End CommitSpec.

(** ** Recovery *)

Section Recovery.
Context (start size : Z) (bs : list Z) (new : Z -> block).
Context (Hb : blocks_ok start bs size).

(** read_head() loads the header that is on disk. *)
Lemma read_head_spec s : lg_start (cr_log s) = start -> length (lg_block (cr_log s)) = Z.to_nat LOGSIZE ->
  counted s -> decodes (cget s start) bs ->
  returns (read_head logl) s (fun _ s' => lists start bs (cr_log s') /\ counted s' /\
    cr_disk s' = cr_disk s /\ cr_trace s' = cr_trace s /\
    (forall x, cr_ref s' x = cr_ref s x) /\ forall x, cget s' x = cget s x).
Proof.
  intros Hst Hlen Hc (Hdl & Hdn & Hdb). pose proof (bk_start _ _ _ Hb) as Hs0. pose proof (bk_max _ _ _ Hb) as Hmax.
  unfold read_head. apply returns_bind. eapply returns_intro; [done|]. cbn [lget logl field]. rewrite Hst.
  apply returns_bind. eapply returns_intro; [done|].
  apply returns_bind. eapply returns_intro; [apply get_data_eq; lia|].
  change (cget (ref_up start s) start) with (cget s start). cbv zeta. rewrite Hdn, Nat2Z.id.
  apply returns_bind. eapply returns_intro; [done|]. set (s1 := lset _ _ _).
  apply returns_bind. eapply returns_mono; [apply (for_each_returns _ (fun k t => exists l,
    t = (ref_up start s) <| cr_log := l |> /\ lg_start l = start /\ lg_n l = Z.of_nat (length bs) /\
    length (lg_block l) = Z.to_nat LOGSIZE /\
    forall i b, (i < k)%nat -> bs !! i = Some b -> lg_block l !! i = Some b) (length bs) 0 s1)|].
  - eexists. split; [done|]. split_and!; [done|done|done|]. intros; lia.
  - intros i t Hi (l & -> & A & B & C & D). destruct (lookup_lt_is_Some_2 bs i) as [b Hbi]; [lia|].
    rewrite (Hdb _ _ Hbi). unfold set_lh_block. apply returns_bind. eapply returns_intro; [done|].
    apply returns_bind. eapply returns_intro; [apply aset_ok; cbn; rewrite C; lia|]. cbn. rewrite Nat2Z.id.
    eexists. split; [done|]. split_and!; [done|done|cbn; by rewrite length_insert|].
    intros j c Hj Hcj. cbn. destruct (decide (j = i)) as [->|Hne].
    + rewrite list_lookup_insert_eq by (rewrite C; lia). congruence.
    + rewrite list_lookup_insert_ne by done. apply D; [lia|done].
  - intros [] t (l & -> & A & B & C & D). rewrite Nat.add_0_l in D.
    eapply returns_intro; [done|]. rewrite Z2Nat.id by lia.
    destruct (Hc start) as [Hr1 Hr2].
    assert (forall x, fset (fset (cr_ref s) start (cr_ref s start + 1)) start
      (fset (cr_ref s) start (cr_ref s start + 1) start - 1) x = cr_ref s x) as Href.
    { intros x. rewrite fset_eq, fset_fset. unfold fset. zcase; subst; lia. }
    split_and!; try done.
    + constructor; [done|done|]. intros i b Hib. apply D; [by eapply lookup_lt_Some|done].
    + intros x. destruct (Hc x) as [Hx1 Hx2]. cbn. rewrite Href. split; [done|]. intros H0.
      rewrite fset_eq. case_match; [|by apply Hx2]. unfold fset. case_match; [done|by apply Hx2].
    + intros x. unfold cget. cbn. rewrite fset_eq. case_match eqn:E; [|done].
      apply Z.eqb_eq in E. unfold fset. destruct (Z.eqb_spec x start) as [->|]; [|done].
      rewrite Hr2 by lia. done.
Qed.

Lemma counted_boot d l : counted (reboot d l).
Proof. intros x. done. Qed.

Lemma log_writes_start x : x ∈ (log_writes start bs new).*1 -> x <> start.
Proof. intros Hx%log_fst_range. lia. Qed.

(** The disk [d] says the log holds the new contents of [bs]. *)
Definition logged_disk (d : Z -> block) : Prop :=
  decodes (d start) bs /\ forall t b, bs !! t = Some b -> d (start + Z.of_nat t + 1) = new b.

(** Recovery replays exactly what the on-disk header lists, then clears it. *)
Lemma recovery_spec dev d l : logged_disk d -> 0 <= size < 2 ^ 31 ->
  length (lg_block l) = Z.to_nat LOGSIZE ->
  returns (initlog logl dev start size) (reboot d l) (fun _ r => exists h,
    cr_trace r = home_writes bs new ++ [(start, h)] /\
    cr_disk r = fset (apply_writes d (home_writes bs new)) start h /\ decodes h []).
Proof.
  intros [Hdec Hslots] Hsz Hlen. pose proof (bk_start _ _ _ Hb) as Hs0. unfold initlog.
  replace (BSIZE <=? 4 + 4 * LOGSIZE) with false by done.
  do 4 (apply returns_bind; eapply returns_intro; [done|]).
  unfold recover_from_log. apply returns_bind.
  eapply returns_mono; [apply read_head_spec|].
  - cbn. by apply i32_small.
  - exact Hlen.
  - intros x. done.
  - exact Hdec.
  - intros [] s1 (L1 & C1 & D1 & T1 & R1 & G1). apply returns_bind.
    eapply returns_mono; [apply (install_spec start size bs new Hb true); try done|].
    + intros t b Ht. rewrite G1. by apply Hslots.
    + intros [] s2 [L2 T2 D2 C2 R2 G2].
      eapply returns_mono; [apply (clear_spec start size bs Hb)|].
      * by rewrite L2, (li_start _ _ _ L1).
      * done.
      * rewrite G2, bool_decide_eq_false_2; [rewrite G1; apply Hdec|].
        intros Hin%subseteq_take. destruct (bk_range _ _ _ Hb _ Hin) as [_ Hr].
        pose proof (bk_size _ _ _ Hb). lia.
      * intros [] s3 (h & T3 & D3 & Hd3). exists h. rewrite T3, D3, T2, D2, T1, D1. cbn [cr_trace reboot].
        rewrite (take_ge (home_writes _ _)) by (unfold home_writes; by rewrite length_fmap). done.
Qed.
End Recovery.

(** ** Crashes *)

(** The disk after the crash: a prefix of the writes reached it. *)
Definition crash_disk (d : Z -> block) (w : list (Z * block)) (k : nat) : Z -> block := apply_writes d (take k w).

(** The contents the transaction means the disk to have. *)
Definition committed (bs : list Z) (new d : Z -> block) (x : Z) : block :=
  if bool_decide (x ∈ bs) then new x else d x.

(** Mounting [d]: recovery returns, the log is empty again, and the blocks that
    are not the log's hold [v]. *)
Definition recovers_to (start size dev : Z) (l : log) (d v : Z -> block) : Prop :=
  returns (initlog logl dev start size) (reboot d l) (fun _ r =>
    decodes (cr_disk r start) [] /\ forall x, ~ (start <= x < start + size) -> cr_disk r x = v x).

Section Crash.
Context (start size dev : Z) (bs : list Z) (new : Z -> block) (l : log).
Context (Hb : blocks_ok start bs size) (Hsz : 0 <= size < 2 ^ 31).
Context (Hl : length (lg_block l) = Z.to_nat LOGSIZE).

Lemma home_in b : b ∈ bs -> (b, new b) ∈ home_writes bs new.
Proof using bs new. intros Hin. apply list_elem_of_fmap. by exists b. Qed.

Lemma apply_home d x : apply_writes d (home_writes bs new) x = committed bs new d x.
Proof using Hb. clear dev l Hl Hsz.
  unfold committed. case_bool_decide as Hin.
  - apply apply_in; [rewrite home_fst; apply Hb|by apply home_in].
  - apply apply_other. by rewrite home_fst.
Qed.

Lemma apply_home_prefix d k x : x ∉ bs -> apply_writes d (take k (home_writes bs new)) x = d x.
Proof using Hb. clear dev l Hl Hsz.
  intros Hx. apply apply_other. rewrite fmap_take, home_fst. by intros ?%subseteq_take.
Qed.

Lemma start_not_home : start ∉ bs.
Proof using Hb. clear dev l Hl Hsz.
  intros Hin. destruct (bk_range _ _ _ Hb _ Hin) as [_ Hr]. pose proof (bk_size _ _ _ Hb).
  pose proof (bk_start _ _ _ Hb). lia.
Qed.

(** Recovering a disk whose log is empty changes nothing. *)
Lemma recover_empty d v : decodes (d start) [] -> (forall x, ~ (start <= x < start + size) -> d x = v x) ->
  recovers_to start size dev l d v.
Proof.
  intros Hd Hv. pose proof (bk_size _ _ _ Hb). unfold recovers_to.
  eapply returns_mono; [apply (recovery_spec start size [] new (blocks_ok_nil start size bs Hb) dev d l)|]; try done.
  intros [] r (h & _ & Dr & Hdec). rewrite Dr. cbn [home_writes fmap list_fmap apply_writes foldl].
  rewrite fset_eq. split; [done|]. intros x Hx. rewrite fset_ne by lia. by apply Hv.
Qed.

(** Recovering a disk whose log is full installs it. *)
Lemma recover_full d v : logged_disk start bs new d ->
  (forall x, ~ (start <= x < start + size) -> committed bs new d x = v x) ->
  recovers_to start size dev l d v.
Proof.
  intros Hd Hv. pose proof (bk_size _ _ _ Hb). unfold recovers_to.
  eapply returns_mono; [by apply (recovery_spec start size bs new Hb dev d l)|].
  intros [] r (h & _ & Dr & Hdec). rewrite Dr, fset_eq. split; [done|].
  intros x Hx. rewrite fset_ne by lia. rewrite apply_home. by apply Hv.
Qed.

(** A logged disk stays logged while its blocks are being copied home. *)
Lemma logged_prefix d k : logged_disk start bs new d ->
  logged_disk start bs new (apply_writes d (take k (home_writes bs new))).
Proof using Hb. clear dev l Hl Hsz.
  intros [Hd Hs]. split.
  - rewrite apply_home_prefix; [done|apply start_not_home].
  - intros t b Ht. rewrite apply_home_prefix; [by apply Hs|]. by eapply log_not_home.
Qed.

Lemma committed_prefix d k x : committed bs new (apply_writes d (take k (home_writes bs new))) x = committed bs new d x.
Proof using Hb. clear dev l Hl Hsz. unfold committed. case_bool_decide; [done|]. by apply apply_home_prefix. Qed.

(** The disk after the log blocks and the header are written. *)
Lemma logged_after d h : decodes h bs ->
  logged_disk start bs new (fset (apply_writes d (log_writes start bs new)) start h).
Proof using start bs new. clear Hb Hsz dev l Hl.
  intros Hd. split; [by rewrite fset_eq|]. intros t b Ht. rewrite fset_ne by lia.
  apply apply_in; [apply log_fst_nodup|]. apply in_log_writes. by exists t, b.
Qed.

Lemma log_region d k x : ~ (start <= x < start + size) -> apply_writes d (take k (log_writes start bs new)) x = d x.
Proof using Hb. clear dev l Hl Hsz.
  intros Hx. apply apply_other. rewrite fmap_take. intros Hin%subseteq_take. apply log_fst_range in Hin.
  pose proof (bk_size _ _ _ Hb). lia.
Qed.

Lemma committed_logged d h x : ~ (start <= x < start + size) ->
  committed bs new (fset (apply_writes d (log_writes start bs new)) start h) x = committed bs new d x.
Proof using Hb. clear dev l Hl Hsz.
  intros Hx. pose proof (bk_size _ _ _ Hb). unfold committed. case_bool_decide; [done|]. rewrite fset_ne by lia.
  rewrite <- (take_ge (log_writes start bs new) (length (log_writes start bs new))) by done. by apply log_region.
Qed.
End Crash.

Lemma crash_disk_app d w w' k :
  crash_disk d (w ++ w') k = if (k <=? length w)%nat then crash_disk d w k else crash_disk (apply_writes d w) w' (k - length w).
Proof.
  unfold crash_disk. rewrite take_app. destruct (Nat.leb_spec k (length w)).
  - replace (k - length w)%nat with 0%nat by lia. by rewrite take_0, app_nil_r.
  - rewrite take_ge by lia. by rewrite apply_app.
Qed.

Lemma crash_disk_one d a (v : block) k : (0 < k)%nat -> crash_disk d [(a, v)] k = fset d a v.
Proof. intros. unfold crash_disk. rewrite take_ge by (cbn; lia). done. Qed.

(** ** The operations of a transaction *)

#[export] Instance log_cell : LockCell (fun _ : crash => True) os_cpu (loglock logl).
Proof. by constructor. Qed.

Lemma find_logged_spec bl bs bno i : (forall b, b ∈ bs -> 0 <= b < 2 ^ 32) ->
  (forall k b, bs !! k = Some b -> bl !! k = Some b) -> (length bs <= length bl)%nat ->
  exists k, find_logged bl (length bs) i bno = i + Z.of_nat k /\
    ((bs !! k = Some bno) \/ (bno ∉ bs /\ k = length bs)).
Proof.
  revert bl i. induction bs as [|b bs IH]; intros bl i Hr Hbl Hlen.
  { exists 0%nat. split; [destruct bl; cbn; lia|]. right. split; [apply not_elem_of_nil|done]. }
  destruct bl as [|c bl]; [cbn in Hlen; lia|]. cbn [find_logged length].
  assert (c = b) as -> by (specialize (Hbl 0%nat b eq_refl); cbn in Hbl; congruence).
  assert (u32 b = b) as -> by (apply Z.mod_small, Hr; set_solver).
  destruct (Z.eqb_spec b bno) as [->|Hne].
  { exists 0%nat. split; [lia|by left]. }
  destruct (IH bl (i + 1)) as (k & E & H); [set_solver|intros k; apply (Hbl (S k))|cbn in Hlen; lia|].
  exists (S k). split; [rewrite E; lia|]. destruct H as [H|[H ->]]; [by left|right]. split; [set_solver|done].
Qed.

(** The blocks the header lists once [bno] is logged. *)
Definition log_add (bs : list Z) (bno : Z) : list Z := if bool_decide (bno ∈ bs) then bs else bs ++ [bno].

(** ** Properties *)

(** C3: a transaction is atomic.  commit() returns and writes a sequence of
    blocks such that, whatever prefix of it had reached the disk when the
    machine crashed, mounting that disk again returns, leaves the log empty, and
    every block outside the log then holds its old contents (the crash came
    before the header was written) or every one of the transaction's blocks its
    new contents and the others their old ones (it came after). *)
Theorem commit_atomic start size dev bs new l s :
  blocks_ok start bs size -> 0 <= size < 2 ^ 31 -> bs <> [] ->
  length (lg_block l) = Z.to_nat LOGSIZE ->
  lists start bs (cr_log s) -> counted s -> pinned_new bs new s ->
  length (cget s start) = Z.to_nat BSIZE -> decodes (cr_disk s start) [] ->
  returns (commit logl) s (fun _ s' => exists w, cr_trace s' = cr_trace s ++ w /\
    forall k, recovers_to start size dev l (crash_disk (cr_disk s) w k)
      (if (k <=? length bs)%nat then cr_disk s else committed bs new (cr_disk s))).
Proof.
  intros Hb Hsz Hne Hl Hli Hc Hp Hlen Hd. pose proof (bk_size _ _ _ Hb) as Hbs.
  eapply returns_mono; [by apply (commit_spec start size bs new Hb)|].
  intros [] s' (h & h0 & Ht & Hh & Hh0). exists (commit_writes start bs new h h0). split; [done|]. intros k.
  unfold commit_writes. rewrite crash_disk_app.
  assert (length (log_writes start bs new) = length bs) as -> by apply length_imap.
  destruct (Nat.leb_spec k (length bs)).
  - apply (recover_empty start size dev bs new l Hb Hsz Hl).
    + unfold crash_disk. rewrite apply_other; [done|]. rewrite fmap_take.
      intros Hin%subseteq_take. apply log_fst_range in Hin. lia.
    + intros x Hx. by apply (log_region start size bs new Hb).
  - rewrite crash_disk_app. cbn [length]. set (d1 := apply_writes _ (log_writes _ _ _)).
    pose proof (logged_after start bs new (cr_disk s) h Hh) as Hlog. fold d1 in Hlog.
    assert (forall x, ~ (start <= x < start + size) ->
      committed bs new (fset d1 start h) x = committed bs new (cr_disk s) x) as Hcm.
    { intros x Hx. by apply (committed_logged start size). }
    destruct (Nat.leb_spec (k - length bs) 1).
    { rewrite crash_disk_one by lia. by apply (recover_full start size dev bs new). }
    change (apply_writes d1 [(start, h)]) with (fset d1 start h). rewrite crash_disk_app.
    destruct (Nat.leb_spec (k - length bs - 1) (length (home_writes bs new))).
    + apply (recover_full start size dev bs new); try done.
      * by apply (logged_prefix start size).
      * intros x Hx. unfold crash_disk. rewrite (committed_prefix start size bs new Hb). by apply Hcm.
    + rewrite crash_disk_one by lia. apply (recover_empty start size dev bs new l Hb Hsz Hl).
      * by rewrite fset_eq.
      * intros x Hx. rewrite fset_ne by lia. rewrite (apply_home start size) by done. by apply Hcm.
Qed.

(** C8: recovery may itself be interrupted.  Mounting a disk whose log holds a
    committed transaction returns, and after a crash at any of its writes,
    mounting again still leads to the same contents. *)
Theorem recovery_idempotent start size dev bs new l d :
  blocks_ok start bs size -> 0 <= size < 2 ^ 31 ->
  length (lg_block l) = Z.to_nat LOGSIZE ->
  logged_disk start bs new d ->
  returns (initlog logl dev start size) (reboot d l) (fun _ r =>
    forall k, recovers_to start size dev l (crash_disk d (cr_trace r) k) (committed bs new d)).
Proof.
  intros Hb Hsz Hl Hd. pose proof (bk_size _ _ _ Hb) as Hbs.
  eapply returns_mono; [by apply (recovery_spec start size bs new Hb dev d l)|].
  intros [] r (h & -> & _ & Hh) k. rewrite crash_disk_app.
  destruct (Nat.leb_spec k (length (home_writes bs new))).
  - apply (recover_full start size dev bs new); try done.
    + by apply (logged_prefix start size).
    + intros x Hx. by apply (committed_prefix start size).
  - rewrite crash_disk_one by lia. apply (recover_empty start size dev bs new l Hb Hsz Hl).
    + by rewrite fset_eq.
    + intros x Hx. rewrite fset_ne by lia. by rewrite (apply_home start size).
Qed.

(** Log_write() puts the block on the transaction's list once: a block
    already there is absorbed, a new one is appended and pinned in the cache, so
    the list stays free of duplicates and every block on it stays cached. *)
Theorem log_write_adds start size bs s bno :
  cpu_ok (cr_cpu s) -> lk_locked (lg_lock (cr_log s)) = false ->
  blocks_ok start bs size -> lists start bs (cr_log s) -> lg_size (cr_log s) = size ->
  length (lg_block (cr_log s)) = Z.to_nat LOGSIZE -> 1 <= lg_outstanding (cr_log s) ->
  Z.of_nat (length bs) < LOGSIZE -> Z.of_nat (length bs) + 1 < size ->
  0 <= bno < 2 ^ 31 -> ~ (start <= bno < start + size) ->
  (forall b, b ∈ bs -> 1 <= cr_ref s b) -> 1 <= cr_ref s bno ->
  returns (log_write logl (Z.to_nat bno)) s (fun _ s' =>
    blocks_ok start (log_add bs bno) size /\ lists start (log_add bs bno) (cr_log s') /\
    lk_locked (lg_lock (cr_log s')) = false /\ cr_cpu s' = touched (cr_cpu s) /\
    cr_disk s' = cr_disk s /\ cr_trace s' = cr_trace s /\ cr_cache s' = cr_cache s /\
    forall x, cr_ref s' x = cr_ref s x + (if bool_decide (x = bno /\ bno ∉ bs) then 1 else 0)).
Proof.
  intros Hcpu Hlk Hb Hli Hsz Hlen Hout Hn1 Hn2 Hbno Hnl Hpin Href. unfold log_write.
  pose proof (li_n _ _ _ Hli) as Hn.
  apply returns_bind. eapply returns_intro; [by apply (acquire_free (D := fun _ => True))|].
  set (s1 := lset _ _ _). apply returns_bind. eapply returns_intro; [done|].
  set (l := cr_log s). change (lget logl s1) with (l <| lg_lock := held_by (c_tp (cr_cpu s)) (lg_lock l) |>).
  cbn [lg_n lg_size lg_outstanding lg_block set_field]. fold l in Hn, Hsz, Hlen, Hout. rewrite Hn, Hsz.
  replace (LOGSIZE <=? _) with false by zcase. replace (size - 1 <=? _) with false by zcase. cbn [orb].
  replace (lg_outstanding l <? 1) with false by zcase.
  apply returns_bind. eapply returns_intro; [done|]. rewrite Nat2Z.id, Z2Nat.id by lia.
  destruct (find_logged_spec (lg_block l) bs bno 0) as (k & -> & Hk).
  { intros b Hin. destruct (bk_range _ _ _ Hb b Hin). lia. }
  { apply Hli. }
  { rewrite Hlen. lia. }
  rewrite Z.add_0_l, i32_small by done.
  assert (k <= length bs)%nat as Hkle by (destruct Hk as [?%lookup_lt_Some|[_ ->]]; lia).
  set (l2 := l <| lg_lock := held_by (c_tp (cr_cpu s)) (lg_lock l) |> <| lg_block := <[k := bno]> (lg_block l) |>).
  set (c1 := pushed (cr_cpu s)).
  assert (s1 = s <| cr_log := l <| lg_lock := held_by (c_tp (cr_cpu s)) (lg_lock l) |> |> <| cr_cpu := c1 |>) as Es1 by done.
  apply returns_bind. apply returns_intro with (a := tt) (s' := s <| cr_log := l2 |> <| cr_cpu := c1 |>).
  { unfold set_lh_block. erewrite bind_ret by done.
    erewrite bind_ret by (apply aset_ok; change (0 <= Z.of_nat k < Z.of_nat (length (lg_block l))); lia).
    rewrite Nat2Z.id. done. }
  unfold log_add. destruct Hk as [Hk|[Hk ->]].
  - assert (bno ∈ bs) as Hin by (by eapply list_elem_of_lookup_2). pose proof (lookup_lt_Some _ _ _ Hk).
    rewrite (bool_decide_eq_true_2 _ Hin). replace (Z.of_nat k =? Z.of_nat (length bs)) with false by zcase.
    apply returns_bind. eapply returns_intro; [done|].
    eapply returns_intro; [by apply (release_held (D := fun _ => True)) with (c := cr_cpu s)|].
    split_and!; try done.
    + constructor; [apply Hli|done|]. intros i b Hib. cbn.
      destruct (decide (i = k)) as [->|]; [rewrite list_lookup_insert_eq by lia; congruence|].
      rewrite list_lookup_insert_ne by done. by apply Hli.
    + intros x. rewrite bool_decide_eq_false_2 by tauto. cbn. lia.
  - rewrite (bool_decide_eq_false_2 _ Hk), Z.eqb_refl. cbn [when].
    apply returns_bind. eapply returns_intro; [done|].
    rewrite Z2Nat.id by lia.
    eapply returns_intro; [by apply (release_held (D := fun _ => True)) with (c := cr_cpu s)|].
    split_and!; try done.
    + destruct Hb as [H1 H2 H3 H4 H5]. constructor; [done| | | |].
      * rewrite length_app. cbn. lia.
      * rewrite length_app. cbn. lia.
      * apply NoDup_app. split_and!; [done| |apply NoDup_singleton]. intros x Hx. set_solver.
      * intros b [Hin|Hin]%elem_of_app; [by apply H5|]. apply list_elem_of_singleton in Hin as ->. done.
    + constructor; [apply Hli| |].
      * cbn. fold l. rewrite Hn, length_app. cbn. lia.
      * intros i b Hib. cbn. destruct (decide (i = length bs)) as [->|Hne].
        -- rewrite list_lookup_insert_eq by lia. rewrite lookup_app_r, Nat.sub_diag in Hib by lia. done.
        -- rewrite list_lookup_insert_ne by done. apply Hli.
           apply lookup_lt_Some in Hib as Hlt. rewrite length_app in Hlt. cbn in Hlt.
           rewrite lookup_app_l in Hib by lia. done.
    + intros x. cbn. unfold fset. destruct (Z.eqb_spec x bno) as [->|Hne].
      * by rewrite bool_decide_eq_true_2.
      * rewrite bool_decide_eq_false_2 by tauto. lia.
Qed.

(** log_begin_op() lets a system call in exactly when no commit is running
    and the log has room for all that the calls already in, and this one, may
    still write (MAXOPBLOCKS each); it counts the call and leaves that room
    reserved.  Otherwise the process sleeps (which never ends here, where no
    other process runs). *)
Theorem log_begin_reserves log_addr fuel s :
  cpu_ok (cr_cpu s) -> lk_locked (lg_lock (cr_log s)) = false ->
  let l := cr_log s in
  if lg_committing l || (LOGSIZE <? lg_n l + (lg_outstanding l + 1) * MAXOPBLOCKS)
  then log_begin_op logl log_addr (S fuel) s = Fail EHang
  else returns (log_begin_op logl log_addr (S fuel)) s (fun _ s' =>
    let l' := cr_log s' in
    lg_n l' + lg_outstanding l' * MAXOPBLOCKS <= LOGSIZE /\
    lg_outstanding l' = lg_outstanding l + 1 /\ lg_n l' = lg_n l /\ lg_block l' = lg_block l /\
    lk_locked (lg_lock l') = false /\ lg_committing l' = false /\ cr_cpu s' = touched (cr_cpu s)).
Proof.
  intros Hcpu Hlk l. unfold log_begin_op.
  assert (acquire os_cpu (loglock logl) s = Ret tt (s <| cr_log := l <| lg_lock := held_by (c_tp (cr_cpu s)) (lg_lock l) |> |>
    <| cr_cpu := pushed (cr_cpu s) |>)) as Ea
    by (etrans; [by apply (acquire_free (D := fun _ => True))|done]).
  destruct (lg_committing l) eqn:Ec; [|destruct (Z.ltb_spec LOGSIZE (lg_n l + (lg_outstanding l + 1) * MAXOPBLOCKS))]; cbn [orb].
  - erewrite bind_ret by exact Ea. cbn [begin_loop]. erewrite bind_ret by done.
    cbn [lget logl field cr_log set_field lg_committing]. fold l. by rewrite Ec.
  - erewrite bind_ret by exact Ea. cbn [begin_loop]. erewrite bind_ret by done.
    cbn [lget logl field cr_log set_field lg_committing lg_n lg_outstanding]. fold l. rewrite Ec.
    by replace (LOGSIZE <? _) with true by zcase.
  - apply returns_bind. eapply returns_intro; [exact Ea|]. cbn [begin_loop]. apply returns_bind.
    eapply returns_intro; [done|].
    cbn [lget logl field cr_log set_field lg_committing lg_n lg_outstanding]. fold l. rewrite Ec.
    replace (LOGSIZE <? _) with false by zcase.
    apply returns_bind. eapply returns_intro; [done|].
    eapply returns_intro; [by apply (release_held (D := fun _ => True)) with (c := cr_cpu s)|].
    split_and!; done || (cbn; fold l; lia).
Qed.

(** ** Witnesses *)

(** Blocks 40 and 41 logged and pinned, in a log of 31 blocks at block 2. *)
Definition wit_new (x : Z) : block := replicate 1024 x.
Definition wit_log (bs : list Z) (outstanding : Z) : log :=
  mklog (initlock "log") 2 31 outstanding false 1 (Z.of_nat (length bs)) (bs ++ replicate (30 - length bs) 0).
Definition wit_crash (bs : list Z) : crash :=
  mkcrash (fun _ => replicate 1024 0)
    (fun x => if bool_decide (x ∈ bs) then Some (wit_new x) else None)
    (fun x => if bool_decide (x ∈ bs) then 1 else 0) [] (wit_log bs 1) (mkcpu 0 None 0 false 0).

Lemma wit_blocks_ok : blocks_ok 2 [40; 41] 31.
Proof.
  constructor; try (cbn; unfold LOGSIZE, MAXOPBLOCKS; lia); [by apply (bool_decide_unpack _)|].
  intros b Hin. repeat (apply elem_of_cons in Hin as [-> | Hin]; [lia|]). by apply elem_of_nil in Hin.
Defined.

Lemma wit_lists : lists 2 [40; 41] (cr_log (wit_crash [40; 41])).
Proof. constructor; [done|done|]. intros i b Hi. by apply lookup_app_l_Some. Defined.

Lemma wit_counted bs : counted (wit_crash bs).
Proof. intros x. cbn. case_bool_decide; split; try done; lia. Defined.

Lemma wit_empty : decodes (replicate 1024 0) [].
Proof. split_and!; [done|by vm_compute|intros i b Hi; done]. Defined.

Lemma commit_atomic_witness :
  returns (commit logl) (wit_crash [40; 41]) (fun _ s' => exists w, cr_trace s' = [] ++ w /\
    forall k, recovers_to 2 31 1 (wit_log [] 0) (crash_disk (fun _ => replicate 1024 0) w k)
      (if (k <=? 2)%nat then (fun _ => replicate 1024 0) else committed [40; 41] wit_new (fun _ => replicate 1024 0))).
Proof.
  apply (commit_atomic 2 31 1 [40; 41] wit_new (wit_log [] 0) (wit_crash [40; 41]));
    [apply wit_blocks_ok|lia|done|done|apply wit_lists|apply wit_counted| |done|apply wit_empty].
  intros b Hin. unfold cget. cbn. rewrite bool_decide_eq_true_2 by done. done.
Defined.

(** The disk of a machine that crashed right after writing the header. *)
Definition wit_disk (x : Z) : block :=
  if x =? 2 then put_le 4 8 41 (put_le 4 4 40 (put_le 4 0 2 (replicate 1024 0)))
  else if x =? 3 then wit_new 40 else if x =? 4 then wit_new 41 else replicate 1024 0.

Lemma recovery_idempotent_witness :
  returns (initlog logl 1 2 31) (reboot wit_disk (wit_log [] 0)) (fun _ r =>
    forall k, recovers_to 2 31 1 (wit_log [] 0) (crash_disk wit_disk (cr_trace r) k) (committed [40; 41] wit_new wit_disk)).
Proof.
  apply (recovery_idempotent 2 31 1 [40; 41] wit_new (wit_log [] 0) wit_disk); [apply wit_blocks_ok|lia|done|].
  split.
  - split_and!; [by vm_compute|by vm_compute|]. intros [|[|i]] b Hi; [| |done]; injection Hi as <-; by vm_compute.
  - intros [|[|i]] b Hi; [| |done]; injection Hi as <-; by vm_compute.
Defined.

Lemma log_write_adds_witness :
  let s := (wit_crash [40; 41]) <| cr_log := wit_log [40] 1 |> in
  returns (log_write logl (Z.to_nat 41)) s (fun _ s' =>
    blocks_ok 2 (log_add [40] 41) 31 /\ lists 2 (log_add [40] 41) (cr_log s') /\
    lk_locked (lg_lock (cr_log s')) = false /\ cr_cpu s' = touched (cr_cpu s) /\
    cr_disk s' = cr_disk s /\ cr_trace s' = cr_trace s /\ cr_cache s' = cr_cache s /\
    forall x, cr_ref s' x = cr_ref s x + (if bool_decide (x = 41 /\ 41 ∉ [40]) then 1 else 0)).
Proof.
  intros s. apply (log_write_adds 2 31 [40] ((wit_crash [40; 41]) <| cr_log := wit_log [40] 1 |>) 41);
    try done; try (cbn; unfold LOGSIZE, MAXOPBLOCKS; lia).
  - constructor; try (cbn; unfold LOGSIZE, MAXOPBLOCKS; lia); [apply NoDup_singleton|].
    intros b ->%list_elem_of_singleton. lia.
  - constructor; [done|done|]. intros i b Hi. by apply lookup_app_l_Some.
  - intros b ->%list_elem_of_singleton. done.
Defined.

Lemma log_begin_reserves_witness :
  let s := (wit_crash []) <| cr_log := wit_log [40] 1 |> in
  let l := cr_log s in
  let full := lg_committing l || (LOGSIZE <? lg_n l + (lg_outstanding l + 1) * MAXOPBLOCKS) in
  full = false /\
  if full then log_begin_op logl 0 1 s = Fail EHang
  else returns (log_begin_op logl 0 1) s (fun _ s' =>
    let l' := cr_log s' in
    lg_n l' + lg_outstanding l' * MAXOPBLOCKS <= LOGSIZE /\
    lg_outstanding l' = lg_outstanding l + 1 /\ lg_n l' = lg_n l /\ lg_block l' = lg_block l /\
    lk_locked (lg_lock l') = false /\ lg_committing l' = false /\ cr_cpu s' = touched (cr_cpu s)).
Proof.
  intros s l full. split; [by vm_compute|]. assert (cpu_ok (cr_cpu s)) as Hc by done.
  exact (log_begin_reserves 0 0 s Hc eq_refl).
Defined.
