(* ===== verification/Fs.v ===== *)
(** * Fs: inodes, directories and path names

    Models kernel/fs.c, kernel/fs.h, kernel/stat.h and struct inode over the
    interfaces [OS], [Bufs] and [Txn].  An in-memory inode is named by its index
    in [itable]; a pointer that may be NULL is an option.  Path names are lists
    of bytes without the terminating NUL; [char name[DIRSIZ]] is a list of 14
    bytes, which may hold no NUL at all. *)
From S2P Require Import Prelude Spinlock Mem Os Sleeplock Bio Log.

(** ** On-disk format *)

Definition ROOTINO : Z := 1.
Definition FSMAGIC : Z := 0x10203040.
Definition NDIRECT : Z := 12.
Definition NINDIRECT : Z := BSIZE / 4.
Definition MAXFILE : Z := NDIRECT + NINDIRECT.
Definition IPB : Z := BSIZE / 64.          (* sizeof(struct dinode) = 64 *)
Definition BPB : Z := BSIZE * 8.
Definition DIRSIZ : nat := 14.
Definition T_DIR : Z := 1.
Definition T_FILE : Z := 2.
Definition T_DEVICE : Z := 3.

Record superblock : Type := mksuperblock {
  sb_magic : Z;
  sb_size : Z;
  sb_nblocks : Z;
  sb_ninodes : Z;
  sb_nlog : Z;
  sb_logstart : Z;
  sb_inodestart : Z;
  sb_bmapstart : Z;
}.

Definition IBLOCK (i : Z) (sb : superblock) : Z := u32 (i / IPB + sb_inodestart sb).
Definition BBLOCK (b : Z) (sb : superblock) : Z := u32 (b / BPB + sb_bmapstart sb).

Definition i16 (x : Z) : Z := (x + 2 ^ 15) mod 2 ^ 16 - 2 ^ 15.

(** The part of struct inode that is on disk, and its place in a block:
    type, major, minor and nlink (2 bytes each), size, addrs[NDIRECT+1]. *)
Record dinode : Type := mkdinode {
  d_type : Z;
  d_major : Z;
  d_minor : Z;
  d_nlink : Z;
  d_size : Z;
  d_addrs : list Z;
}.

Definition dinode_off (inum : Z) : nat := Z.to_nat (64 * (inum mod IPB)).

Fixpoint get_words (n : nat) (off : nat) (b : list Z) : list Z :=
  match n with O => [] | S n' => get_le 4 off b :: get_words n' (off + 4) b end.

Definition get_dinode (off : nat) (b : list Z) : dinode :=
  mkdinode (i16 (get_le 2 off b)) (i16 (get_le 2 (off + 2) b)) (i16 (get_le 2 (off + 4) b))
    (i16 (get_le 2 (off + 6) b)) (get_le 4 (off + 8) b)
    (get_words 13 (off + 12) b).

Fixpoint put_words (off : nat) (l : list Z) (b : list Z) : list Z :=
  match l with [] => b | v :: l' => put_words (off + 4) l' (put_le 4 off v b) end.

Definition put_dinode (off : nat) (d : dinode) (b : list Z) : list Z :=
  put_words (off + 12) (d_addrs d)
    (put_le 4 (off + 8) (d_size d) (put_le 2 (off + 6) (d_nlink d mod 2 ^ 16)
      (put_le 2 (off + 4) (d_minor d mod 2 ^ 16) (put_le 2 (off + 2) (d_major d mod 2 ^ 16)
        (put_le 2 off (d_type d mod 2 ^ 16) b))))).

Definition zero_dinode : dinode := mkdinode 0 0 0 0 0 (replicate 13 0).

(** struct dirent: inum (2 bytes), name. *)
Definition de_size : Z := 16.
Definition de_inum (de : list Z) : Z := get_le 2 0 de.
Definition de_name (de : list Z) : list Z := drop 2 de.

(** ** In memory *)

Record inode : Type := mkinode {
  i_dev : Z;
  i_inum : Z;
  i_ref : Z;
  i_lock : sleeplock;          (* protects everything below here *)
  i_valid : bool;              (* inode has been read from disk? *)
  i_type : Z;
  i_major : Z;
  i_minor : Z;
  i_nlink : Z;
  i_size : Z;
  i_addrs : list Z;
}.
#[export] Instance eta_inode : Settable inode := fun i =>
  mkinode (i_dev i) (i_inum i) (i_ref i) (i_lock i) (i_valid i) (i_type i) (i_major i) (i_minor i)
    (i_nlink i) (i_size i) (i_addrs i).

Record itable : Type := mkitable {
  it_lock : spinlock;
  it_inode : list inode;       (* inode[NINODE] *)
  it_sb : superblock;          (* the global sb *)
}.
#[export] Instance eta_itable : Settable itable := fun t => mkitable (it_lock t) (it_inode t) (it_sb t).

Definition zero_inode : inode :=
  mkinode 0 0 0 (mksleeplock false (mkspinlock false "" None) "" 0) false 0 0 0 0 0 (replicate 13 0).

(** kernel/log.c, as its clients see it. *)
Class Txn (S : Type) := {
  tx_begin : M S unit;                 (* begin_op *)
  tx_end : M S unit;                   (* end_op *)
  tx_write : nat -> M S unit;          (* log_write *)
  tx_init : Z -> Z -> Z -> M S unit;   (* initlog(dev, sb.logstart, sb.nlog) *)
}.

#[export] Instance txn_log {S} `{!OS S} `{!Bufs S} (ll : lens S log) (log_addr : Z) (fuel : nat) : Txn S := {|
  tx_begin := log_begin_op ll log_addr fuel;
  tx_end := log_end_op ll log_addr;
  tx_write := log_write ll;
  tx_init := initlog ll;
|}.

(** ** Names *)

(** strncmp(s, t, n) on two byte arrays; beyond an array's end nothing is read,
    its last byte being NUL. *)
Fixpoint bstrncmp (n : nat) (s t : list Z) : Z :=
  match n with
  | O => 0
  | S n' =>
      let a := nth 0 s 0 in let b := nth 0 t 0 in
      if negb (a =? 0) && (a =? b) then bstrncmp n' (tail s) (tail t) else a - b
  end.
Definition namecmp (s t : list Z) : Z := bstrncmp DIRSIZ s t.

(** strncpy(name, s, DIRSIZ): the bytes of [s] up to its NUL, then NULs. *)
Fixpoint bstrncpy (n : nat) (t : list Z) : list Z :=
  match n with
  | O => []
  | S n' => if nth 0 t 0 =? 0 then replicate n 0 else nth 0 t 0 :: bstrncpy n' (tail t)
  end.

Definition slash : Z := 47.

(** while( *path == '/') path++; *)
Fixpoint skip_slashes (path : list Z) : list Z :=
  match path with c :: p => if c =? slash then skip_slashes p else path | [] => [] end.

(** while( *path != '/' && *path != 0) path++; what was passed over and the rest *)
Fixpoint span_elem (path : list Z) : list Z * list Z :=
  match path with
  | c :: p => if (c =? slash) || (c =? 0) then ([], path) else let r := span_elem p in (c :: r.1, r.2)
  | [] => ([], [])
  end.

Definition skipelem (path name : list Z) : option (list Z * list Z) :=
  let path := skip_slashes path in
  if nth 0 path 0 =? 0 then None else
  let r := span_elem path in
  let len := length r.1 in
  let name := if (DIRSIZ <=? len)%nat then splice 0 (take DIRSIZ r.1) name
              else splice 0 (r.1 ++ [0]) name in
  Some (skip_slashes r.2, name).

Section Fs.
Context {S : Type} `{!OS S} `{!Bufs S} `{!Txn S}.
Context (fl : lens S itable).

(** The address of inode [i] (the channel of its sleep lock) and of the struct
    dirent on the kernel stack; a bound on vain wakeups. *)
Context (inode_addr : nat -> Z) (de_addr : Z) (fuel : nat).

(** ** Super block and free map *)

Definition readsb (dev : Z) : M S superblock :=
  bp <- bread dev 1 ;;
  d <- get_data bp ;;
  let w i := get_le 4 (4 * i) d in
  brelse bp ;;
  ret (mksuperblock (w 0%nat) (w 1%nat) (w 2%nat) (w 3%nat) (w 4%nat) (w 5%nat) (w 6%nat) (w 7%nat)).

Definition sb : M S superblock := t <- lread fl ;; ret (it_sb t).

Definition fsinit (dev : Z) : M S unit :=
  s <- readsb dev ;;
  lmod fl (fun t => t <| it_sb := s |>) ;;
  if negb (sb_magic s =? FSMAGIC) then panic "invalid file system" else
  tx_init dev (sb_logstart s) (sb_nlog s).

Definition bzero (dev bno : Z) : M S unit :=
  bp <- bread dev bno ;;
  set_data bp (replicate (Z.to_nat BSIZE) 0) ;;
  tx_write bp ;;
  brelse bp.

(** The bit of block [bi] in a bitmap block. *)
Definition map_bit (d : list Z) (bi : Z) : bool := Z.testbit (nth (Z.to_nat (bi / 8)) d 0) (bi mod 8).
Definition map_set (d : list Z) (bi : Z) : list Z :=
  let i := Z.to_nat (bi / 8) in <[i := Z.lor (nth i d 0) (Z.shiftl 1 (bi mod 8))]> d.
Definition map_clear (d : list Z) (bi : Z) : list Z :=
  let i := Z.to_nat (bi / 8) in <[i := Z.ldiff (nth i d 0) (Z.shiftl 1 (bi mod 8))]> d.

(** The inner loop of [balloc], over the blocks b .. b + [n] - 1 of one bitmap
    block. *)
Definition balloc_block (dev b n : Z) (bp : nat) : M S (option Z) :=
  for_first (seq 0 (Z.to_nat n)) (fun bi =>
    let bi := Z.of_nat bi in
    d <- get_data bp ;;
    if map_bit d bi then ret None else
    set_data bp (map_set d bi) ;;
    tx_write bp ;;
    brelse bp ;;
    bzero dev (b + bi) ;;
    ret (Some (b + bi))).

Definition balloc (dev : Z) : M S Z :=
  s <- sb ;;
  r <- for_first (seq 0 (Z.to_nat ((sb_size s + BPB - 1) / BPB))) (fun k =>
    let b := BPB * Z.of_nat k in
    bp <- bread dev (BBLOCK b s) ;;
    r <- balloc_block dev b (Z.min BPB (sb_size s - b)) bp ;;
    match r with
    | Some x => ret (Some x)
    | None => brelse bp ;; ret None
    end) ;;
  match r with
  | Some x => ret (u32 x)
  | None => panic "balloc: out of blocks"
  end.

Definition bfree (dev b : Z) : M S unit :=
  s <- sb ;;
  bp <- bread dev (BBLOCK b s) ;;
  d <- get_data bp ;;
  let bi := b mod BPB in
  if negb (map_bit d bi) then panic "freeing free block" else
  set_data bp (map_clear d bi) ;;
  tx_write bp ;;
  brelse bp.

(** ** Inodes *)

Definition itlock : lens S spinlock := lens_comp fl (field it_lock).
Definition geti (t : itable) (i : nat) : inode := default zero_inode (it_inode t !! i).
Definition il (i : nat) : lens S inode :=
  lens_comp fl (Lens (fun t => geti t i) (fun x t => t <| it_inode := <[i := x]> (it_inode t) |>)).
Definition ilk (i : nat) : lens S sleeplock := lens_comp (il i) (field i_lock).
Definition imod (i : nat) (f : inode -> inode) : M S unit := lmod (il i) f.

(** A pointer to an inode, followed. *)
Definition deref (p : option nat) : M S nat := match p with Some i => ret i | None => fail EFault end.

Definition iinit : M S unit :=
  lmod fl (fun t => t <| it_lock := initlock "itable" |>) ;;
  for_each (seq 0 NINODE) (fun i => imod i (fun x => x <| i_lock := initsleeplock "inode" |>)).

(** The loop of [iget] over the table: the entry for (dev, inum), or else the
    first free one. *)
Fixpoint iget_scan (k i : nat) (dev inum : Z) (empty : option nat) : M S (nat + option nat) :=
  match k with
  | O => ret (inr empty)
  | Datatypes.S k' =>
      ip <- lread (il i) ;;
      if (0 <? i_ref ip) && (i_dev ip =? dev) && (i_inum ip =? inum) then ret (inl i)
      else iget_scan k' (Datatypes.S i) dev inum
             (if match empty with None => i_ref ip =? 0 | Some _ => false end then Some i else empty)
  end.

Definition iget (dev inum : Z) : M S nat :=
  acquire os_cpu itlock ;;
  r <- iget_scan NINODE 0 dev inum None ;;
  match r with
  | inl ip =>
      imod ip (fun x => x <| i_ref := i_ref x + 1 |>) ;;
      release os_cpu itlock ;;
      ret ip
  | inr None => panic "iget: no inodes"
  | inr (Some ip) =>
      imod ip (fun x => x <| i_dev := dev |> <| i_inum := inum |> <| i_ref := 1 |> <| i_valid := false |>) ;;
      release os_cpu itlock ;;
      ret ip
  end.

Definition ialloc (dev type : Z) : M S nat :=
  s <- sb ;;
  r <- for_first (seq 1 (Z.to_nat (sb_ninodes s) - 1)) (fun inum =>
    let inum := Z.of_nat inum in
    bp <- bread dev (IBLOCK inum s) ;;
    d <- get_data bp ;;
    let off := dinode_off inum in
    if d_type (get_dinode off d) =? 0 then
      set_data bp (put_dinode off (mkdinode type 0 0 0 0 (replicate 13 0)) d) ;;
      tx_write bp ;;
      brelse bp ;;
      ip <- iget dev inum ;;
      ret (Some ip)
    else brelse bp ;; ret None) ;;
  match r with Some ip => ret ip | None => panic "ialloc: no inodes" end.

Definition iupdate (i : nat) : M S unit :=
  ip <- lread (il i) ;;
  s <- sb ;;
  bp <- bread (i_dev ip) (IBLOCK (i_inum ip) s) ;;
  d <- get_data bp ;;
  set_data bp (put_dinode (dinode_off (i_inum ip))
    (mkdinode (i_type ip) (i_major ip) (i_minor ip) (i_nlink ip) (i_size ip) (i_addrs ip)) d) ;;
  tx_write bp ;;
  brelse bp.

Definition idup (p : option nat) : M S (option nat) :=
  acquire os_cpu itlock ;;
  i <- deref p ;;
  imod i (fun x => x <| i_ref := i_ref x + 1 |>) ;;
  release os_cpu itlock ;;
  ret p.

Definition ilock (p : option nat) : M S unit :=
  match p with
  | None => panic "ilock"
  | Some i =>
      ip <- lread (il i) ;;
      if i_ref ip <? 1 then panic "ilock" else
      acquiresleep fuel (inode_addr i) (ilk i) ;;
      ip <- lread (il i) ;;
      when (negb (i_valid ip))
        (s <- sb ;;
         bp <- bread (i_dev ip) (IBLOCK (i_inum ip) s) ;;
         b <- get_data bp ;;
         let d := get_dinode (dinode_off (i_inum ip)) b in
         imod i (fun x => x <| i_type := d_type d |> <| i_major := d_major d |> <| i_minor := d_minor d |>
           <| i_nlink := d_nlink d |> <| i_size := d_size d |> <| i_addrs := d_addrs d |>) ;;
         brelse bp ;;
         imod i (fun x => x <| i_valid := true |>) ;;
         if d_type d =? 0 then panic "ilock: no type" else ret tt)
  end.

Definition iunlock (p : option nat) : M S unit :=
  match p with
  | None => panic "iunlock"
  | Some i =>
      h <- holdingsleep (ilk i) ;;
      if negb h then panic "iunlock" else
      ip <- lread (il i) ;;
      if i_ref ip <? 1 then panic "iunlock" else
      releasesleep (inode_addr i) (ilk i)
  end.

(** ** Inode content *)

Definition bmap (i : nat) (bn : Z) : M S Z :=
  ip <- lread (il i) ;;
  if bn <? NDIRECT then
    addr <- aget (i_addrs ip) bn ;;
    if negb (addr =? 0) then ret addr else
    addr <- balloc (i_dev ip) ;;
    imod i (fun x => x <| i_addrs := <[Z.to_nat bn := addr]> (i_addrs x) |>) ;;
    ret addr
  else
    let bn := bn - NDIRECT in
    if bn <? NINDIRECT then
      addr <- aget (i_addrs ip) NDIRECT ;;
      addr <- (if negb (addr =? 0) then ret addr else
               addr <- balloc (i_dev ip) ;;
               imod i (fun x => x <| i_addrs := <[Z.to_nat NDIRECT := addr]> (i_addrs x) |>) ;;
               ret addr) ;;
      bp <- bread (i_dev ip) addr ;;
      a <- get_data bp ;;
      let off := (4 * Z.to_nat bn)%nat in
      addr <- (if negb (get_le 4 off a =? 0) then ret (get_le 4 off a) else
               addr <- balloc (i_dev ip) ;;
               a <- get_data bp ;;
               set_data bp (put_le 4 off addr a) ;;
               tx_write bp ;;
               ret addr) ;;
      brelse bp ;;
      ret addr
    else panic "bmap: out of range".

Definition itrunc (i : nat) : M S unit :=
  for_each (seq 0 (Z.to_nat NDIRECT)) (fun k =>
    ip <- lread (il i) ;;
    a <- aget (i_addrs ip) (Z.of_nat k) ;;
    when (negb (a =? 0))
      (bfree (i_dev ip) a ;;
       imod i (fun x => x <| i_addrs := <[k := 0]> (i_addrs x) |>))) ;;
  ip <- lread (il i) ;;
  a <- aget (i_addrs ip) NDIRECT ;;
  when (negb (a =? 0))
    (bp <- bread (i_dev ip) a ;;
     for_each (seq 0 (Z.to_nat NINDIRECT)) (fun j =>
       d <- get_data bp ;;
       when (negb (get_le 4 (4 * j) d =? 0)) (bfree (i_dev ip) (get_le 4 (4 * j) d))) ;;
     brelse bp ;;
     bfree (i_dev ip) a ;;
     imod i (fun x => x <| i_addrs := <[Z.to_nat NDIRECT := 0]> (i_addrs x) |>)) ;;
  imod i (fun x => x <| i_size := 0 |>) ;;
  iupdate i.

Definition iput (p : option nat) : M S unit :=
  acquire os_cpu itlock ;;
  i <- deref p ;;
  ip <- lread (il i) ;;
  when ((i_ref ip =? 1) && i_valid ip && (i_nlink ip =? 0))
    (acquiresleep fuel (inode_addr i) (ilk i) ;;
     release os_cpu itlock ;;
     itrunc i ;;
     imod i (fun x => x <| i_type := 0 |>) ;;
     iupdate i ;;
     imod i (fun x => x <| i_valid := false |>) ;;
     releasesleep (inode_addr i) (ilk i) ;;
     acquire os_cpu itlock) ;;
  imod i (fun x => x <| i_ref := i_ref x - 1 |>) ;;
  release os_cpu itlock.

Definition iunlockput (p : option nat) : M S unit := iunlock p ;; iput p.

(** struct stat: dev, ino, type, nlink, size, with 4 bytes of padding. *)
Definition stati (i : nat) : M S (list Z) :=
  ip <- lread (il i) ;;
  ret (put_le 8 16 (i_size ip) (put_le 2 10 (i_nlink ip mod 2 ^ 16) (put_le 2 8 (i_type ip mod 2 ^ 16)
    (put_le 4 4 (i_inum ip) (put_le 4 0 (i_dev ip) (replicate 24 0)))))).

(** for(tot = 0; tot < n; tot += m, off += m, dst += m) of [readi]; every round
    but the first and the last moves a whole block. *)
Fixpoint readi_loop (k : nat) (i : nat) (user_dst : bool) (dst off n tot : Z) : M S Z :=
  match k with
  | O => fail EHang
  | Datatypes.S k' =>
      if negb (tot <? n) then ret tot else
      ip <- lread (il i) ;;
      addr <- bmap i (off / BSIZE) ;;
      bp <- bread (i_dev ip) addr ;;
      let m := Z.min (n - tot) (BSIZE - off mod BSIZE) in
      d <- get_data bp ;;
      r <- os_copyout user_dst dst (take (Z.to_nat m) (drop (Z.to_nat (off mod BSIZE)) d)) ;;
      if r =? -1 then brelse bp ;; ret (u32 (-1)) else
      brelse bp ;;
      readi_loop k' i user_dst (u64 (dst + m)) (u32 (off + m)) n (tot + m)
  end.

Definition readi (i : nat) (user_dst : bool) (dst off n : Z) : M S Z :=
  ip <- lread (il i) ;;
  if (i_size ip <? off) || (u32 (off + n) <? off) then ret 0 else
  let n := if i_size ip <? u32 (off + n) then u32 (i_size ip - off) else n in
  r <- readi_loop (Z.to_nat (n / BSIZE) + 3) i user_dst dst off n 0 ;;
  ret (i32 r).

(** The same of [writei]: what was written and the offset reached. *)
Fixpoint writei_loop (k : nat) (i : nat) (user_src : bool) (src off n tot : Z) : M S (Z * Z) :=
  match k with
  | O => fail EHang
  | Datatypes.S k' =>
      if negb (tot <? n) then ret (tot, off) else
      ip <- lread (il i) ;;
      addr <- bmap i (off / BSIZE) ;;
      bp <- bread (i_dev ip) addr ;;
      let m := Z.min (n - tot) (BSIZE - off mod BSIZE) in
      let o := Z.to_nat (off mod BSIZE) in
      d <- get_data bp ;;
      r <- os_copyin user_src src (take (Z.to_nat m) (drop o d)) ;;
      set_data bp (splice o r.2 d) ;;
      if r.1 =? -1 then brelse bp ;; ret (tot, off) else
      tx_write bp ;;
      brelse bp ;;
      writei_loop k' i user_src (u64 (src + m)) (u32 (off + m)) n (tot + m)
  end.

Definition writei (i : nat) (user_src : bool) (src off n : Z) : M S Z :=
  ip <- lread (il i) ;;
  if (i_size ip <? off) || (u32 (off + n) <? off) then ret (-1) else
  if MAXFILE * BSIZE <? u32 (off + n) then ret (-1) else
  r <- writei_loop (Z.to_nat (n / BSIZE) + 3) i user_src src off n 0 ;;
  ip <- lread (il i) ;;
  when (i_size ip <? r.2) (imod i (fun x => x <| i_size := r.2 |>)) ;;
  iupdate i ;;
  ret (i32 r.1).

(** ** Directories *)

(** readi(dp, 0, &de, off, sizeof(de)) and the entry read. *)
Definition read_dirent (dp : nat) (off : Z) (msg : string) : M S (list Z) :=
  r <- readi dp false de_addr off de_size ;;
  if negb (r =? de_size) then panic msg else os_kread de_addr (Z.to_nat de_size).

(** The entry found and its offset. *)
Definition dirlookup (dp : nat) (name : list Z) : M S (option (nat * Z)) :=
  ip <- lread (il dp) ;;
  if negb (i_type ip =? T_DIR) then panic "dirlookup not DIR" else
  for_first (seq 0 (Z.to_nat ((i_size ip + de_size - 1) / de_size))) (fun k =>
    let off := de_size * Z.of_nat k in
    de <- read_dirent dp off "dirlookup read" ;;
    if de_inum de =? 0 then ret None else
    if namecmp name (de_name de) =? 0 then
      ip <- lread (il dp) ;;
      x <- iget (i_dev ip) (de_inum de) ;;
      ret (Some (x, off))
    else ret None).

Definition dirlink (dp : nat) (name : list Z) (inum : Z) : M S Z :=
  r <- dirlookup dp name ;;
  match r with
  | Some (ip, _) => iput (Some ip) ;; ret (-1)
  | None =>
      ip <- lread (il dp) ;;
      let n := (i_size ip + de_size - 1) / de_size in
      r <- for_first (seq 0 (Z.to_nat n)) (fun k =>
        let off := de_size * Z.of_nat k in
        de <- read_dirent dp off "dirlink read" ;;
        ret (if de_inum de =? 0 then Some off else None)) ;;
      let off := default (de_size * n) r in
      os_kwrite de_addr (put_le 2 0 (inum mod 2 ^ 16) [0; 0] ++ bstrncpy DIRSIZ name) ;;
      w <- writei dp false de_addr off de_size ;;
      if negb (w =? de_size) then panic "dirlink" else ret 0
  end.

(** ** Paths *)

(** while((path = skipelem(path, name)) != 0) of [namex]; every element takes at
    least one byte of the path. *)
Fixpoint namex_loop (k : nat) (ip : nat) (path name : list Z) (parent : bool) : M S (option nat * list Z) :=
  match k with
  | O => fail EHang
  | Datatypes.S k' =>
      match skipelem path name with
      | None =>
          if parent then iput (Some ip) ;; ret (None, name) else ret (Some ip, name)
      | Some (path, name) =>
          ilock (Some ip) ;;
          x <- lread (il ip) ;;
          if negb (i_type x =? T_DIR) then iunlockput (Some ip) ;; ret (None, name) else
          if parent && (nth 0 path 0 =? 0) then iunlock (Some ip) ;; ret (Some ip, name) else
          next <- dirlookup ip name ;;
          match next with
          | None => iunlockput (Some ip) ;; ret (None, name)
          | Some (next, _) => iunlockput (Some ip) ;; namex_loop k' next path name parent
          end
      end
  end.

Definition namex (path : list Z) (parent : bool) (name : list Z) : M S (option nat * list Z) :=
  ip <- (if nth 0 path 0 =? slash then ip <- iget ROOTDEV ROOTINO ;; ret (Some ip)
         else cwd <- os_cwd ;; idup cwd) ;;
  ip <- deref ip ;;
  namex_loop (Datatypes.S (length path)) ip path name parent.

Definition namei (path : list Z) : M S (option nat) :=
  r <- namex path false (replicate DIRSIZ 0) ;; ret r.1.
Definition nameiparent (path : list Z) : M S (option nat * list Z) :=
  namex path true (replicate DIRSIZ 0).
End Fs.
