(* ===== verification/File.v ===== *)
(** * File: the table of open files

    Models kernel/file.c, kernel/file.h and pipealloc() of kernel/pipe.c.  A
    struct file is named by its index in [ftable]; a pipe by its address. *)
From S2P Require Import Prelude Spinlock Mem Os Sleeplock Pipe Bio Log Fs.

Inductive ftype : Type := FD_NONE | FD_PIPE | FD_INODE | FD_DEVICE.
#[export] Instance ftype_eq_dec : EqDecision ftype.
Proof. solve_decision. Defined.

Record file : Type := mkfile {
  f_type : ftype;
  f_ref : Z;                   (* reference count *)
  f_readable : bool;
  f_writable : bool;
  f_pipe : Z;                  (* FD_PIPE *)
  f_ip : option nat;           (* FD_INODE and FD_DEVICE *)
  f_off : Z;                   (* FD_INODE *)
  f_major : Z;                 (* FD_DEVICE *)
}.
#[export] Instance eta_file : Settable file := fun f =>
  mkfile (f_type f) (f_ref f) (f_readable f) (f_writable f) (f_pipe f) (f_ip f) (f_off f) (f_major f).

Record ftable : Type := mkftable { ft_lock : spinlock; ft_file : list file }.
#[export] Instance eta_ftable : Settable ftable := fun t => mkftable (ft_lock t) (ft_file t).

Definition zero_file : file := mkfile FD_NONE 0 false false 0 None 0 0.

(** devsw[]: the read and write functions of a device, when it has them; the
    first argument of these, user_dst, is 1 here. *)
Class Devsw (S : Type) := {
  devsw_read : Z -> option (Z -> Z -> M S Z);
  devsw_write : Z -> option (Z -> Z -> M S Z);
}.

(** int max = ((MAXOPBLOCKS-1-1-2) / 2) * BSIZE *)
Definition max_write : Z := ((MAXOPBLOCKS - 1 - 1 - 2) / 2) * BSIZE.

Section File.
Context {S : Type} `{!OS S} `{!Bufs S} `{!Txn S} `{!Devsw S}.
Context (ftl : lens S ftable) (fl : lens S itable) (pipel : Z -> lens S pipe).
Context (inode_addr : nat -> Z) (de_addr : Z) (fuel : nat).

Definition ftlock : lens S spinlock := lens_comp ftl (field ft_lock).
Definition getf (t : ftable) (i : nat) : file := default zero_file (ft_file t !! i).
Definition fil (i : nat) : lens S file :=
  lens_comp ftl (Lens (fun t => getf t i) (fun f t => t <| ft_file := <[i := f]> (ft_file t) |>)).
Definition fmod (i : nat) (g : file -> file) : M S unit := lmod (fil i) g.

Definition fileinit : M S unit := lmod ftl (fun t => t <| ft_lock := initlock "ftable" |>).

Definition filealloc : M S (option nat) :=
  acquire os_cpu ftlock ;;
  r <- for_first (seq 0 NFILE) (fun i =>
    f <- lread (fil i) ;;
    if f_ref f =? 0 then
      fmod i (fun f => f <| f_ref := 1 |>) ;;
      release os_cpu ftlock ;;
      ret (Some i)
    else ret None) ;;
  match r with
  | Some i => ret (Some i)
  | None => release os_cpu ftlock ;; ret None
  end.

Definition filedup (i : nat) : M S nat :=
  acquire os_cpu ftlock ;;
  f <- lread (fil i) ;;
  if f_ref f <? 1 then panic "filedup" else
  fmod i (fun f => f <| f_ref := f_ref f + 1 |>) ;;
  release os_cpu ftlock ;;
  ret i.

Definition fileclose (i : nat) : M S unit :=
  acquire os_cpu ftlock ;;
  f <- lread (fil i) ;;
  if f_ref f <? 1 then panic "fileclose" else
  fmod i (fun f => f <| f_ref := f_ref f - 1 |>) ;;
  ff <- lread (fil i) ;;
  if 0 <? f_ref ff then release os_cpu ftlock else
  fmod i (fun f => f <| f_ref := 0 |>) ;;
  fmod i (fun f => f <| f_type := FD_NONE |>) ;;
  release os_cpu ftlock ;;
  match f_type ff with
  | FD_PIPE => pipeclose (f_pipe ff) (pipel (f_pipe ff)) (f_writable ff)
  | FD_INODE | FD_DEVICE =>
      tx_begin ;;
      iput fl inode_addr fuel (f_ip ff) ;;
      tx_end
  | FD_NONE => ret tt
  end.

Definition filestat (i : nat) (addr : Z) : M S Z :=
  f <- lread (fil i) ;;
  match f_type f with
  | FD_INODE | FD_DEVICE =>
      ilock fl inode_addr fuel (f_ip f) ;;
      ip <- deref (f_ip f) ;;
      st <- stati fl ip ;;
      iunlock fl inode_addr (f_ip f) ;;
      r <- os_copyout true addr st ;;
      ret (if r <? 0 then -1 else 0)
  | _ => ret (-1)
  end.

Definition fileread (i : nat) (addr n : Z) : M S Z :=
  f <- lread (fil i) ;;
  if negb (f_readable f) then ret (-1) else
  match f_type f with
  | FD_PIPE => piperead (f_pipe f) (pipel (f_pipe f)) fuel addr n
  | FD_DEVICE =>
      if (f_major f <? 0) || (Z.of_nat NDEV <=? f_major f) then ret (-1) else
      match devsw_read (f_major f) with
      | None => ret (-1)
      | Some read => read addr n
      end
  | FD_INODE =>
      ilock fl inode_addr fuel (f_ip f) ;;
      ip <- deref (f_ip f) ;;
      f <- lread (fil i) ;;
      r <- readi fl ip true addr (f_off f) (u32 n) ;;
      when (0 <? r) (fmod i (fun f => f <| f_off := u32 (f_off f + r) |>)) ;;
      iunlock fl inode_addr (f_ip f) ;;
      ret r
  | FD_NONE => panic "fileread"
  end.

(** while(i < n) of [filewrite]; a round that goes on writes a whole chunk.  The
    value of [i] when the loop is left. *)
Fixpoint filewrite_loop (k : nat) (fi : nat) (addr n i : Z) : M S Z :=
  match k with
  | O => fail EHang
  | Datatypes.S k' =>
      if negb (i <? n) then ret i else
      let n1 := Z.min (n - i) max_write in
      tx_begin ;;
      f <- lread (fil fi) ;;
      ilock fl inode_addr fuel (f_ip f) ;;
      ip <- deref (f_ip f) ;;
      f <- lread (fil fi) ;;
      r <- writei fl ip true (u64 (addr + i)) (f_off f) n1 ;;
      when (0 <? r) (fmod fi (fun f => f <| f_off := u32 (f_off f + r) |>)) ;;
      iunlock fl inode_addr (f_ip f) ;;
      tx_end ;;
      if negb (r =? n1) then ret i else filewrite_loop k' fi addr n (i + r)
  end.

Definition filewrite (fi : nat) (addr n : Z) : M S Z :=
  f <- lread (fil fi) ;;
  if negb (f_writable f) then ret (-1) else
  match f_type f with
  | FD_PIPE => pipewrite (f_pipe f) (pipel (f_pipe f)) fuel addr n
  | FD_DEVICE =>
      if (f_major f <? 0) || (Z.of_nat NDEV <=? f_major f) then ret (-1) else
      match devsw_write (f_major f) with
      | None => ret (-1)
      | Some write => write addr n
      end
  | FD_INODE =>
      i <- filewrite_loop (Z.to_nat (n / max_write) + 2) fi addr n 0 ;;
      ret (if i =? n then n else -1)
  | FD_NONE => panic "filewrite"
  end.

(** ** kernel/pipe.c: pipealloc *)

(** if(x) f(x); *)
Definition opt_do {A} (x : option A) (f : A -> M S unit) : M S unit :=
  match x with Some a => f a | None => ret tt end.

(** The code at [bad]; [pi] was allocated on no path that leads there. *)
Definition pipealloc_bad (f0 f1 : option nat) : M S (option (nat * nat)) :=
  opt_do f0 fileclose ;;
  opt_do f1 fileclose ;;
  ret None.

(** The two files, or [None] for -1. *)
Definition pipealloc : M S (option (nat * nat)) :=
  f0 <- filealloc ;;
  match f0 with
  | None => pipealloc_bad None None
  | Some r =>
      f1 <- filealloc ;;
      match f1 with
      | None => pipealloc_bad (Some r) None
      | Some w =>
          pi <- os_kalloc ;;
          if pi =? 0 then pipealloc_bad (Some r) (Some w) else
          lmod (pipel pi) (fun p => new_pipe (pi_data p)) ;;
          fmod r (fun f => f <| f_type := FD_PIPE |> <| f_readable := true |> <| f_writable := false |> <| f_pipe := pi |>) ;;
          fmod w (fun f => f <| f_type := FD_PIPE |> <| f_readable := false |> <| f_writable := true |> <| f_pipe := pi |>) ;;
          ret (Some (r, w))
      end
  end.
End File.
