(* ===== verification/FsSpec.v ===== *)
(** * FsSpec: theorems about the file system's data and allocators

    Path elements, the on-disk inode format, the inode table and the free map.
    The code of [Fs] runs here over an ideal disk without a log: one process, a
    function from block numbers to contents. *)
From Stdlib Require Import FunctionalExtensionality.
From S2P Require Import Prelude Spinlock Mem Os Sleeplock Bio Log Fs File.

(** ** Path elements *)

(** The names between the slashes of a path. *)
Fixpoint split_path (path : list Z) : list (list Z) :=
  match path with
  | [] => [[]]
  | c :: p => if c =? slash then [] :: split_path p
              else match split_path p with e :: es => (c :: e) :: es | [] => [[c]] end
  end.
Definition elements (path : list Z) : list (list Z) := filter (fun e => e <> []) (split_path path).

(** What [name] holds after the element [e] was copied to it: its first 14
    bytes, with a NUL after a shorter one; what follows is left as it was. *)
Definition name_of (e name : list Z) : list Z :=
  if (DIRSIZ <=? length e)%nat then take DIRSIZ e ++ drop DIRSIZ name
  else e ++ 0 :: drop (Datatypes.S (length e)) name.

(** A C string: no NUL inside. *)
Definition cstr (path : list Z) : Prop := Forall (fun c => c <> 0) path.

Lemma split_nonnil p : split_path p <> [].
Proof. destruct p as [|c p]; simpl; [done|]. destruct (c =? slash); [done|]. by destruct (split_path p). Qed.

Lemma elements_skip p : elements (skip_slashes p) = elements p.
Proof.
  induction p as [|c p IH]; [done|]. cbn [skip_slashes]. destruct (c =? slash) eqn:E; [|done].
  rewrite IH. unfold elements. cbn [split_path]. rewrite E. by rewrite filter_cons_False by tauto.
Qed.

Lemma skip_head p : nth 0 (skip_slashes p) 0 <> slash.
Proof. induction p as [|c p IH]; simpl; [done|]. destruct (Z.eqb_spec c slash); done. Qed.

Lemma skip_cstr p : cstr p -> cstr (skip_slashes p).
Proof. induction 1; simpl; [constructor|]. destruct (x =? slash); [done|by constructor]. Qed.

Lemma span_elements p : cstr p -> p <> [] -> nth 0 p 0 <> slash ->
  elements p = (span_elem p).1 :: elements (span_elem p).2.
Proof.
  intros Hc Hne Hh.
  assert (forall p, cstr p -> split_path p = (span_elem p).1 :: tail (split_path p) /\
    filter (fun e => e <> []) (tail (split_path p)) = elements (span_elem p).2) as H.
  { clear. induction 1 as [|c p Hc0 Hc IH]; [done|]. cbn [split_path span_elem].
    destruct (Z.eqb_spec c slash) as [->|Hs]; cbn [orb].
    - split; [done|]. cbn [tail fst snd]. unfold elements. cbn [split_path]. rewrite Z.eqb_refl.
      by rewrite filter_cons_False by tauto.
    - destruct (Z.eqb_spec c 0); [done|]. destruct IH as [IH1 IH2]. rewrite IH1. cbn. split; [done|].
      exact IH2. }
  destruct (H p Hc) as [H1 H2]. unfold elements at 1. rewrite H1, filter_cons_True, H2; [done|].
  destruct p as [|c p]; [done|]. cbn in *. apply Forall_cons in Hc as [Hc0 Hc].
  destruct (Z.eqb_spec c slash); [done|]. destruct (Z.eqb_spec c 0); done.
Qed.

Lemma span_cstr p : cstr p -> cstr (span_elem p).2.
Proof.
  induction 1; simpl; [constructor|]. destruct ((x =? slash) || (x =? 0)); [by constructor|done].
Qed.

Lemma splice_name e name : (length e <= length name)%nat -> splice 0 e name = e ++ drop (length e) name.
Proof. done. Qed.

(** ** The on-disk inode *)

(** The values a struct dinode can hold. *)
Record dinode_wf (d : dinode) : Prop := {
  dw_type : - 2 ^ 15 <= d_type d < 2 ^ 15;
  dw_major : - 2 ^ 15 <= d_major d < 2 ^ 15;
  dw_minor : - 2 ^ 15 <= d_minor d < 2 ^ 15;
  dw_nlink : - 2 ^ 15 <= d_nlink d < 2 ^ 15;
  dw_size : 0 <= d_size d < 2 ^ 32;
  dw_addrs : length (d_addrs d) = 13%nat /\ Forall (fun a => 0 <= a < 2 ^ 32) (d_addrs d);
}.

Lemma i16_mod x : - 2 ^ 15 <= x < 2 ^ 15 -> i16 (x mod 2 ^ 16) = x.
Proof. intros. unfold i16. zmod. Qed.

Lemma length_put_words off l b : length (put_words off l b) = length b.
Proof. revert off b. induction l as [|v l IH]; intros off b; cbn [put_words]; [done|]. by rewrite IH, length_put_le. Qed.

Lemma get_put_words_ne n off l k b : (k + n <= off \/ off + 4 * length l <= k)%nat ->
  get_le n k (put_words off l b) = get_le n k b.
Proof.
  revert off b. induction l as [|v l IH]; intros off b H; cbn [put_words]; [done|]. cbn [length] in H.
  rewrite IH by lia. apply get_put_le_ne. lia.
Qed.

Lemma get_put_words off l b : (off + 4 * length l <= length b)%nat -> Forall (fun a => 0 <= a < 2 ^ 32) l ->
  get_words (length l) off (put_words off l b) = l.
Proof.
  intros Hl Hf. revert off b Hl. induction Hf as [|v l Hv Hf IH]; intros off b Hl; [done|].
  cbn [put_words length get_words] in *. f_equal.
  - rewrite get_put_words_ne by lia. apply get_put_le; [lia|]. change (256 ^ Z.of_nat 4) with (2 ^ 32). lia.
  - apply IH. rewrite length_put_le. lia.
Qed.

Lemma get_words_ext n off b b' :
  (forall k m, (off <= k)%nat -> (k + m <= off + 4 * n)%nat -> get_le m k b = get_le m k b') ->
  get_words n off b = get_words n off b'.
Proof.
  revert off. induction n as [|n IH]; intros off H; [done|]. cbn [get_words]. f_equal; [apply H; lia|].
  apply IH. intros. apply H; lia.
Qed.

Lemma length_put_dinode off d b : length (put_dinode off d b) = length b.
Proof. unfold put_dinode. by rewrite length_put_words, !length_put_le. Qed.

Lemma get_put_dinode_same off d b : dinode_wf d -> (off + 64 <= length b)%nat ->
  get_dinode off (put_dinode off d b) = d.
Proof.
  intros [H1 H2 H3 H4 H5 [H6 H7]] Hl. unfold get_dinode, put_dinode.
  rewrite !get_put_words_ne by (rewrite H6; lia).
  pose proof (Z.mod_pos_bound (d_type d) (2 ^ 16) ltac:(lia)). pose proof (Z.mod_pos_bound (d_major d) (2 ^ 16) ltac:(lia)).
  pose proof (Z.mod_pos_bound (d_minor d) (2 ^ 16) ltac:(lia)). pose proof (Z.mod_pos_bound (d_nlink d) (2 ^ 16) ltac:(lia)).
  repeat first [rewrite get_put_le_ne by lia | rewrite get_put_le
    by (rewrite ?length_put_le; first [lia | change (256 ^ Z.of_nat 2) with (2 ^ 16); lia | change (256 ^ Z.of_nat 4) with (2 ^ 32); lia])].
  rewrite !i16_mod by done. rewrite <- H6 at 1. rewrite get_put_words; [by destruct d| |done].
  rewrite !length_put_le, H6. lia.
Qed.

Lemma get_put_dinode_other off off' d b : dinode_wf d -> (off' + 64 <= off \/ off + 64 <= off')%nat ->
  get_dinode off' (put_dinode off d b) = get_dinode off' b.
Proof.
  intros [_ _ _ _ _ [H6 _]] Hne. unfold get_dinode, put_dinode.
  rewrite !get_put_words_ne by (rewrite H6; lia). rewrite !get_put_le_ne by lia. f_equal.
  apply get_words_ext. intros k m Hk Hm. rewrite get_put_words_ne by (rewrite H6; lia).
  rewrite !get_put_le_ne by lia. done.
Qed.

(** ** The ideal file system state *)

Record ideal : Type := mkideal {
  id_cpu : cpu;
  id_blk : Z -> list Z;        (* the blocks, as the cache shows them *)
  id_it : itable;
  id_kern : mem;
  id_cwd : option nat;         (* of the one process *)
  id_ft : ftable;
}.
#[export] Instance eta_ideal : Settable ideal :=
  fun s => mkideal (id_cpu s) (id_blk s) (id_it s) (id_kern s) (id_cwd s) (id_ft s).
Definition itl : lens ideal itable := field id_it.
Definition ftl : lens ideal ftable := field id_ft.

(** What the disk and the entries of the table of inodes are not *)
Definition outside (s : ideal) : cpu * mem * option nat * ftable * spinlock :=
  (id_cpu s, id_kern s, id_cwd s, id_ft s, it_lock (id_it s)).

(** Of these, what no lock touches *)
Definition own (s : ideal) : mem * option nat * ftable := (id_kern s, id_cwd s, id_ft s).

Lemma outside_own s t : outside t = outside s -> own t = own s.
Proof. unfold outside, own. congruence. Qed.
Lemma outside_cpu s t : outside t = outside s -> id_cpu t = id_cpu s.
Proof. by intros [=]. Qed.
Lemma outside_lock s t : outside t = outside s -> it_lock (id_it t) = it_lock (id_it s).
Proof. by intros [=]. Qed.
Lemma outside_kern s t : outside t = outside s -> id_kern t = id_kern s.
Proof. by intros [=]. Qed.

Definition blk_put (b : Z) (d : list Z) (s : ideal) : ideal :=
  s <| id_blk := fun x => if x =? b then d else id_blk s x |>.

#[export] Instance os_ideal : OS ideal := {|
  os_cpu := field id_cpu;
  os_sleep := fun _ _ => fail EHang;
  os_wakeup := fun _ => ret tt;
  os_pid := ret 1;
  os_killed := ret false;
  os_cwd := gets id_cwd;
  os_copyout := fun _ dst l => modify (fun s => s <| id_kern := put_bytes dst l (id_kern s) |>) ;; ret 0;
  os_copyin := fun _ src old => s <- get ;; ret (0, bytes_at src (length old) (id_kern s));
  os_kread := fun a n => gets (fun s => bytes_at a n (id_kern s));
  os_kwrite := fun a l => modify (fun s => s <| id_kern := put_bytes a l (id_kern s) |>);
  os_kalloc := ret 0;
  os_kfree := fun _ => ret tt;
|}.
#[export] Instance bufs_ideal : Bufs ideal := {|
  bread := fun _ b => ret (Z.to_nat b);
  bwrite := fun _ => ret tt;
  brelse := fun _ => ret tt;
  bpin := fun _ => ret tt;
  bunpin := fun _ => ret tt;
  get_data := fun h => gets (fun s => id_blk s (Z.of_nat h));
  set_data := fun h d => modify (blk_put (Z.of_nat h) d);
  get_blockno := fun h => ret (Z.of_nat h);
|}.
#[export] Instance txn_ideal : Txn ideal := {|
  tx_begin := ret tt;
  tx_end := ret tt;
  tx_write := fun _ => ret tt;
  tx_init := fun _ _ _ => ret tt;
|}.
#[export] Instance it_cell : LockCell (fun _ : ideal => True) os_cpu (itlock itl).
Proof. by constructor. Qed.

(** ** The inode table *)

Definition cached (t : itable) (dev inum : Z) (i : nat) : Prop :=
  (i < NINODE)%nat /\ 0 < i_ref (geti t i) /\ i_dev (geti t i) = dev /\ i_inum (geti t i) = inum.

(** At most one entry in use per inode on disk. *)
Definition unique (t : itable) : Prop :=
  forall dev inum i j, cached t dev inum i -> cached t dev inum j -> i = j.

Lemma iget_scan_spec k i dev inum empty (s : ideal) :
  exists r, iget_scan itl k i dev inum empty s = Ret r s /\
  match r with
  | inl j => (i <= j < i + k)%nat /\ 0 < i_ref (geti (id_it s) j) /\ i_dev (geti (id_it s) j) = dev /\ i_inum (geti (id_it s) j) = inum
  | inr e =>
      (forall j, (i <= j < i + k)%nat -> ~ (0 < i_ref (geti (id_it s) j) /\ i_dev (geti (id_it s) j) = dev /\ i_inum (geti (id_it s) j) = inum)) /\
      match empty with
      | Some x => e = Some x
      | None => match e with
                | Some j => (i <= j < i + k)%nat /\ i_ref (geti (id_it s) j) = 0
                | None => forall j, (i <= j < i + k)%nat -> i_ref (geti (id_it s) j) <> 0
                end
      end
  end.
Proof.
  revert i empty. induction k as [|k IH]; intros i empty; cbn [iget_scan].
  { exists (inr empty). split; [done|]. split; [intros; lia|]. destruct empty; [done|]. intros; lia. }
  erewrite bind_ret by done. change (lget (il itl i) s) with (geti (id_it s) i). set (x := geti (id_it s) i).
  destruct ((0 <? i_ref x) && (i_dev x =? dev) && (i_inum x =? inum)) eqn:E.
  { exists (inl i). split; [done|]. apply andb_prop in E as [[E1 E2]%andb_prop E3].
    split; [lia|]. apply Z.ltb_lt in E1. apply Z.eqb_eq in E2, E3. done. }
  assert (~ (0 < i_ref x /\ i_dev x = dev /\ i_inum x = inum)) as Hi.
  { intros (H1 & H2 & H3). rewrite H2, H3, !Z.eqb_refl in E. apply Z.ltb_lt in H1. by rewrite H1 in E. }
  destruct (IH (S i) (if match empty with None => i_ref x =? 0 | Some _ => false end then Some i else empty)) as (r & -> & Hr).
  exists r. split; [done|]. destruct r as [j|e].
  - destruct Hr as (H1 & H2). split; [lia|done].
  - destruct Hr as (H1 & H2). split.
    + intros j Hj. destruct (decide (j = i)) as [->|]; [done|]. apply H1. lia.
    + destruct empty as [y|]; [done|]. destruct (Z.eqb_spec (i_ref x) 0) as [E0|E0].
      * rewrite H2. split; [lia|done].
      * destruct e as [j|]; [split; [lia|apply H2]|].
        intros j Hj. destruct (decide (j = i)) as [->|]; [done|]. apply H2. lia.
Qed.

Lemma geti_insert t i j x : (i < length (it_inode t))%nat ->
  geti (t <| it_inode := <[i := x]> (it_inode t) |>) j = if decide (j = i) then x else geti t j.
Proof.
  intros Hi. unfold geti. cbn. case_decide; subst; [by rewrite list_lookup_insert_eq|by rewrite list_lookup_insert_ne].
Qed.

(** What iget() makes of the entry it picks. *)
Definition got (dev inum : Z) (hit : bool) (x : inode) : inode :=
  if hit then x <| i_ref := i_ref x + 1 |>
  else x <| i_dev := dev |> <| i_inum := inum |> <| i_ref := 1 |> <| i_valid := false |>.

Lemma iget_eq dev inum (s : ideal) : cpu_ok (id_cpu s) -> lk_locked (it_lock (id_it s)) = false ->
  length (it_inode (id_it s)) = NINODE ->
  (exists i, cached (id_it s) dev inum i \/ ((i < NINODE)%nat /\ i_ref (geti (id_it s) i) = 0)) ->
  exists ip hit t', iget itl dev inum s = Ret ip (s <| id_cpu := touched (id_cpu s) |> <| id_it := t' |>) /\
    it_inode t' = <[ip := got dev inum hit (geti (id_it s) ip)]> (it_inode (id_it s)) /\
    lk_locked (it_lock t') = false /\ it_sb t' = it_sb (id_it s) /\ (ip < NINODE)%nat /\
    if hit : bool then cached (id_it s) dev inum ip
    else i_ref (geti (id_it s) ip) = 0 /\ forall i, ~ cached (id_it s) dev inum i.
Proof.
  intros Hc Hl Hlen Hex. set (t1 := (id_it s) <| it_lock := held_by (c_tp (id_cpu s)) (it_lock (id_it s)) |>).
  set (s1 := s <| id_it := t1 |> <| id_cpu := pushed (id_cpu s) |>).
  assert (acquire os_cpu (itlock itl) s = Ret tt s1) as Ea.
  { etrans; [by apply (acquire_free (D := fun _ => True))|]. by destruct s. }
  destruct (iget_scan_spec NINODE 0 dev inum None s1) as (r & Er & Hr).
  change (id_it s1) with t1 in Hr. change (geti t1) with (geti (id_it s)) in Hr.
  unfold iget. erewrite bind_ret by exact Ea. erewrite bind_ret by exact Er.
  assert (forall t2 a, it_lock t2 = it_lock t1 -> bind (release os_cpu (itlock itl)) (fun _ => ret a) (s1 <| id_it := t2 |>) =
    Ret (a : nat) (s <| id_cpu := touched (id_cpu s) |> <| id_it := t2 <| it_lock := unheld (it_lock t1) |> |>)) as Hrel.
  { intros t2 a E2. erewrite bind_ret.
    2: { apply (release_held (D := fun _ => True)) with (c := id_cpu s); try done; cbn [lget itlock lens_comp itl field id_it set_field]; by rewrite E2. }
    unfold ret. cbn. by rewrite E2. }
  destruct r as [j|[j|]].
  - destruct Hr as (Hj & H1 & H2 & H3). exists j, true. eexists. erewrite bind_ret by done.
    split; [apply (Hrel ((lset (il itl j) (got dev inum true (geti (id_it s) j)) s1).(id_it)) j); done|].
    split_and!; [done|done|done|lia|]. by split; [lia|].
  - destruct Hr as (Hno & Hj & H0). exists j, false. eexists. erewrite bind_ret by done.
    split; [apply (Hrel ((lset (il itl j) (got dev inum false (geti (id_it s) j)) s1).(id_it)) j); done|].
    split_and!; [done|done|done|lia|done|]. intros i (Hi & Hi'). apply (Hno i); [lia|done].
  - exfalso. destruct Hr as (Hno & Hz). destruct Hex as (i & [(Hi & Hi')|[Hi Hi']]).
    + apply (Hno i); [lia|done].
    + apply (Hz i); [lia|done].
Qed.

Lemma got_unique t dev inum ip hit l : unique t -> length (it_inode t) = NINODE -> (ip < NINODE)%nat ->
  (if hit : bool then cached t dev inum ip else i_ref (geti t ip) = 0 /\ forall i, ~ cached t dev inum i) ->
  unique (t <| it_inode := <[ip := got dev inum hit (geti t ip)]> (it_inode t) |> <| it_lock := l |>).
Proof.
  intros Hu Hlen Hip Hh d n i j (Hi & Hi') (Hj & Hj').
  change (geti (?t <| it_lock := l |>)) with (geti t) in *. rewrite !geti_insert in * by lia.
  destruct hit.
  - destruct Hh as (_ & Hh). apply (Hu d n); (split; [done|]); [destruct (decide (i = ip)) as [->|]|destruct (decide (j = ip)) as [->|]];
      try done; cbn in Hi', Hj'; tauto.
  - destruct Hh as [H0 Hno]. destruct (decide (i = ip)) as [Ei|Ei], (decide (j = ip)) as [Ej|Ej]; [congruence| | |by apply (Hu d n)].
    + exfalso. apply (Hno j). split; [done|]. cbn in Hi'. destruct Hi' as (_ & -> & ->). done.
    + exfalso. apply (Hno i). split; [done|]. cbn in Hj'. destruct Hj' as (_ & -> & ->). done.
Qed.

(** ** The free map *)

(** Block [x]'s bit, in the bitmap blocks of [s]. *)
Definition used (s : ideal) (x : Z) : bool :=
  map_bit (id_blk s (BBLOCK x (it_sb (id_it s)))) (x mod BPB).

(** The bitmap blocks are whole blocks, and blocks in use themselves. *)
Record map_ok (s : ideal) : Prop := {
  mo_size : 0 < sb_size (it_sb (id_it s)) < 2 ^ 31;
  mo_len : forall x, 0 <= x < sb_size (it_sb (id_it s)) -> length (id_blk s (BBLOCK x (it_sb (id_it s)))) = Z.to_nat BSIZE;
  mo_used : forall x y, 0 <= x < sb_size (it_sb (id_it s)) -> 0 <= y < sb_size (it_sb (id_it s)) ->
    BBLOCK x (it_sb (id_it s)) = y -> used s y = true;
}.

Lemma bit_shift k j : 0 <= k -> 0 <= j -> Z.testbit (Z.shiftl 1 k) j = (j =? k).
Proof.
  intros Hk Hj. rewrite Z.shiftl_1_l, Z.pow2_bits_eqb by done. by rewrite Z.eqb_sym.
Qed.

Lemma map_bit_set d bi bj : 0 <= bi -> 0 <= bj -> bi / 8 < Z.of_nat (length d) ->
  map_bit (map_set d bi) bj = (bj =? bi) || map_bit d bj.
Proof.
  intros Hi Hj Hl. unfold map_bit, map_set. rewrite !nth_lookup.
  destruct (Z.eq_dec (bj / 8) (bi / 8)) as [E|E].
  - rewrite E, list_lookup_insert_eq by zmod. cbn [default from_option id]. rewrite Z.lor_spec, bit_shift by zmod.
    rewrite orb_comm. f_equal. zcase; zmod.
  - rewrite list_lookup_insert_ne by zmod. destruct (Z.eqb_spec bj bi); [by subst|done].
Qed.

Lemma map_bit_clear d bi bj : 0 <= bi -> 0 <= bj -> bi / 8 < Z.of_nat (length d) ->
  map_bit (map_clear d bi) bj = negb (bj =? bi) && map_bit d bj.
Proof.
  intros Hi Hj Hl. unfold map_bit, map_clear. rewrite !nth_lookup.
  destruct (Z.eq_dec (bj / 8) (bi / 8)) as [E|E].
  - rewrite E, list_lookup_insert_eq by zmod. cbn [default from_option id]. rewrite Z.ldiff_spec, bit_shift by zmod.
    rewrite andb_comm. f_equal. f_equal. zcase; zmod.
  - rewrite list_lookup_insert_ne by zmod. destruct (Z.eqb_spec bj bi); [by subst|done].
Qed.

Section Balloc.
Context (s : ideal) (Hok : map_ok s) (dev : Z).
Notation sbl := (it_sb (id_it s)).
Notation size := (sb_size sbl).

(** The state once block [x] was allocated. *)
Definition marked (x : Z) : ideal :=
  blk_put (BBLOCK x sbl) (map_set (id_blk s (BBLOCK x sbl)) (x mod BPB)) s.
Definition allocated (x : Z) : ideal := blk_put x (replicate (Z.to_nat BSIZE) 0) (marked x).

Lemma BBLOCK_nonneg x : 0 <= BBLOCK x sbl.
Proof. apply Z.mod_pos_bound. lia. Qed.

Lemma BBLOCK_block k bi : 0 <= bi < BPB -> BBLOCK (BPB * k + bi) sbl = BBLOCK (BPB * k) sbl.
Proof. intros H. unfold BBLOCK, BPB, BSIZE in *. do 2 f_equal. zmod. Qed.

Lemma mod_block k bi : 0 <= bi < BPB -> (BPB * k + bi) mod BPB = bi.
Proof. intros H. unfold BPB, BSIZE in *. zmod. Qed.

Lemma bit_at k bi : 0 <= bi < BPB ->
  map_bit (id_blk s (Z.of_nat (Z.to_nat (BBLOCK (BPB * k) sbl)))) bi = used s (BPB * k + bi).
Proof.
  intros H. unfold used. rewrite BBLOCK_block, mod_block by done. by rewrite Z2Nat.id by apply BBLOCK_nonneg.
Qed.

Lemma balloc_block_full k n : 0 <= n <= BPB -> (forall x, BPB * k <= x < BPB * k + n -> used s x = true) ->
  returns (balloc_block dev (BPB * k) n (Z.to_nat (BBLOCK (BPB * k) sbl))) s (fun r t => r = None /\ t = s).
Proof.
  intros Hn Hu. unfold balloc_block. apply (for_first_none _ (fun _ t => t = s)); [done|].
  intros i t Hi ->. apply returns_bind. eapply returns_intro; [done|].
  rewrite bit_at, Hu by lia. done.
Qed.

Lemma balloc_block_free k n x : 0 <= k -> 0 <= n <= BPB -> BPB * k <= x < BPB * k + n -> used s x = false ->
  (forall y, BPB * k <= y < x -> used s y = true) ->
  returns (balloc_block dev (BPB * k) n (Z.to_nat (BBLOCK (BPB * k) sbl))) s
    (fun r t => exists y, r = Some y /\ y = x /\ t = allocated x).
Proof.
  intros Hk Hn Hx Hf Hu. unfold balloc_block.
  apply (for_first_some _ (fun _ t => t = s) (fun y t => y = x /\ t = allocated x) _ _ (Z.to_nat (x - BPB * k))); [lia|done| |].
  - intros i t Hi ->. apply returns_bind. eapply returns_intro; [done|]. rewrite bit_at, Hu by lia. done.
  - intros t ->. apply returns_bind. eapply returns_intro; [done|]. rewrite (Z2Nat.id (x - BPB * k)) by lia.
    rewrite bit_at by lia. replace (BPB * k + (x - BPB * k)) with x by lia. rewrite Hf.
    assert (x mod BPB = x - BPB * k) as Em by (replace x with (BPB * k + (x - BPB * k)) at 1 by lia; apply mod_block; lia).
    assert (BBLOCK x sbl = BBLOCK (BPB * k) sbl) as Eb
      by (replace x with (BPB * k + (x - BPB * k)) at 1 by lia; apply BBLOCK_block; lia).
    eapply returns_intro; [reflexivity|]. exists x. split; [done|]. split; [done|].
    unfold allocated, marked. rewrite Em, Eb, !Z2Nat.id by (apply BBLOCK_nonneg || (unfold BPB, BSIZE in *; lia)). done.
Qed.

Lemma balloc_free x : 0 <= x < size -> used s x = false -> (forall y, 0 <= y < x -> used s y = true) ->
  returns (balloc itl dev) s (fun y t => y = x /\ t = allocated x).
Proof.
  intros Hx Hf Hu. pose proof (mo_size _ Hok) as Hs. assert (BPB = 8192) as EB by done. unfold balloc.
  apply returns_bind. eapply returns_intro; [done|]. change (it_sb (lget itl s)) with sbl.
  apply returns_bind. eapply returns_mono.
  - apply (for_first_some _ (fun _ t => t = s) (fun y t => y = x /\ t = allocated x) _ _ (Z.to_nat (x / BPB)));
      [rewrite EB; zmod|done| |].
    + intros i t Hi ->. assert (BPB * Z.of_nat i + BPB <= x) by (rewrite EB in *; zmod).
      apply returns_bind. eapply returns_intro; [done|]. apply returns_bind.
      eapply returns_mono; [apply balloc_block_full; [lia|intros; apply Hu; lia]|].
      intros r t [-> ->]. apply returns_bind. by eapply returns_intro.
    + intros t ->. rewrite Z2Nat.id by (rewrite EB; zmod). apply returns_bind. eapply returns_intro; [done|].
      assert (BPB * (x / BPB) <= x < BPB * (x / BPB) + BPB) by (rewrite EB; zmod).
      apply returns_bind. eapply returns_mono; [apply (balloc_block_free (x / BPB) _ x); [rewrite EB; zmod|lia|lia|done|]|].
      * intros. apply Hu. rewrite EB in *. zmod.
      * intros r t (y & -> & -> & ->). apply returns_ret. by exists x.
  - intros r t (y & -> & -> & ->). apply returns_ret. split; [|done]. apply Z.mod_small. lia.
Qed.

Lemma balloc_full : (forall x, 0 <= x < size -> used s x = true) -> balloc itl dev s = Fail (EPanic "balloc: out of blocks").
Proof.
  intros Hu. pose proof (mo_size _ Hok) as Hs. assert (BPB = 8192) as EB by done. unfold balloc.
  erewrite bind_ret by done. change (it_sb (lget itl s)) with sbl.
  edestruct (returns_inv (for_first (seq 0 (Z.to_nat ((size + BPB - 1) / BPB))) (fun k =>
    let b := BPB * Z.of_nat k in
    bp <- bread dev (BBLOCK b sbl) ;;
    r <- balloc_block dev b (Z.min BPB (size - b)) bp ;;
    match r with Some x => ret (Some x) | None => brelse bp ;; ret None end)) s
    (fun r t => r = None /\ t = s)) as (r & t & E & -> & ->).
  - apply (for_first_none _ (fun _ t => t = s)); [done|]. intros i t Hi ->.
    assert (BPB * Z.of_nat i < size) by (rewrite EB in *; zmod).
    apply returns_bind. eapply returns_intro; [done|]. apply returns_bind.
    eapply returns_mono; [apply balloc_block_full; [lia|intros; apply Hu; lia]|].
    intros r t [-> ->]. apply returns_bind. by eapply returns_intro.
  - by erewrite bind_ret by exact E.
Qed.
End Balloc.

Lemma BBLOCK_inj t x y : 0 <= x < 2 ^ 31 -> 0 <= y < 2 ^ 31 -> BBLOCK x t = BBLOCK y t -> x / BPB = y / BPB.
Proof. intros Hx Hy. unfold BBLOCK, u32, BPB, BSIZE. intros H. zmod. Qed.

Lemma blk_put_eq b d s : id_blk (blk_put b d s) b = d.
Proof. cbn. by rewrite Z.eqb_refl. Qed.
Lemma blk_put_ne b d s x : x <> b -> id_blk (blk_put b d s) x = id_blk s x.
Proof. intros H. cbn. by replace (x =? b) with false by zcase. Qed.

(** Changing one bit of the map changes what the map says of one block. *)
Lemma used_change s x y d f : map_ok s -> 0 <= x < sb_size (it_sb (id_it s)) -> 0 <= y < sb_size (it_sb (id_it s)) ->
  d = id_blk s (BBLOCK x (it_sb (id_it s))) ->
  (forall bj, 0 <= bj -> map_bit (f d (x mod BPB)) bj = if bj =? x mod BPB then negb (map_bit d (x mod BPB)) else map_bit d bj) ->
  used (blk_put (BBLOCK x (it_sb (id_it s))) (f d (x mod BPB)) s) y = if y =? x then negb (used s x) else used s y.
Proof.
  intros Hok Hx Hy -> Hf. pose proof (mo_size _ Hok). set (sbl := it_sb (id_it s)) in *. unfold used.
  change (id_it (blk_put _ _ s)) with (id_it s). fold sbl.
  assert (0 <= y mod BPB < BPB /\ 0 <= x mod BPB < BPB) as [Hy0 Hx0] by (split; apply Z.mod_pos_bound; done).
  destruct (Z.eq_dec (BBLOCK y sbl) (BBLOCK x sbl)) as [E|E].
  - rewrite E, blk_put_eq, Hf by lia. pose proof (BBLOCK_inj sbl y x ltac:(lia) ltac:(lia) E) as Eq.
    destruct (Z.eqb_spec y x) as [->|Hne]; [by rewrite Z.eqb_refl|].
    replace (y mod BPB =? x mod BPB) with false; [done|]. symmetry. apply Z.eqb_neq. unfold BPB, BSIZE in *. zmod.
  - rewrite blk_put_ne by done. destruct (Z.eqb_spec y x); [by subst|done].
Qed.

Lemma length_map_set d bi : length (map_set d bi) = length d.
Proof. apply length_insert. Qed.
Lemma length_map_clear d bi : length (map_clear d bi) = length d.
Proof. apply length_insert. Qed.

Lemma bit_in_block s x : map_ok s -> 0 <= x < sb_size (it_sb (id_it s)) ->
  x mod BPB / 8 < Z.of_nat (length (id_blk s (BBLOCK x (it_sb (id_it s))))).
Proof.
  intros Hok Hx. rewrite (mo_len _ Hok) by done. change (Z.of_nat (Z.to_nat BSIZE)) with 1024. unfold BPB, BSIZE. zmod.
Qed.

(** Zeroing a block that is not part of the map leaves the map alone. *)
Lemma used_zeroed s x y d : (BBLOCK y (it_sb (id_it s)) <> x) -> used (blk_put x d s) y = used s y.
Proof. intros H. unfold used. change (id_it (blk_put _ _ s)) with (id_it s). by rewrite blk_put_ne. Qed.

Lemma used_allocated s x y : map_ok s -> 0 <= x < sb_size (it_sb (id_it s)) -> 0 <= y < sb_size (it_sb (id_it s)) ->
  used s x = false -> used (allocated s x) y = (y =? x) || used s y.
Proof.
  intros Hok Hx Hy Hf. unfold allocated. rewrite used_zeroed.
  - unfold marked. rewrite (used_change s x y _ map_set Hok Hx Hy eq_refl).
    + destruct (Z.eqb_spec y x) as [->|]; [by rewrite Hf|done].
    + intros bj Hbj. unfold used in Hf. rewrite map_bit_set; [|apply Z.mod_pos_bound; done|done|by apply bit_in_block].
      rewrite Hf. by destruct (bj =? x mod BPB).
  - intros E. by rewrite (mo_used _ Hok y x) in Hf.
Qed.

Lemma allocated_ok s x : map_ok s -> 0 <= x < sb_size (it_sb (id_it s)) -> used s x = false -> map_ok (allocated s x).
Proof.
  intros Hok Hx Hf. assert (it_sb (id_it (allocated s x)) = it_sb (id_it s)) as Es by done.
  constructor; rewrite ?Es; [apply Hok| |].
  - intros y Hy. unfold allocated. destruct (Z.eq_dec (BBLOCK y (it_sb (id_it s))) x) as [->|E].
    + rewrite blk_put_eq. by rewrite length_replicate.
    + rewrite blk_put_ne by done. unfold marked.
      destruct (Z.eq_dec (BBLOCK y (it_sb (id_it s))) (BBLOCK x (it_sb (id_it s)))) as [->|E'].
      * rewrite blk_put_eq, length_map_set. by apply (mo_len _ Hok).
      * rewrite blk_put_ne by done. by apply (mo_len _ Hok).
  - intros y z Hy Hz E. rewrite used_allocated by done. rewrite (mo_used _ Hok y z Hy Hz E). apply orb_true_r.
Qed.

(** The state once block [x] was freed. *)
Definition freed (s : ideal) (x : Z) : ideal :=
  blk_put (BBLOCK x (it_sb (id_it s))) (map_clear (id_blk s (BBLOCK x (it_sb (id_it s)))) (x mod BPB)) s.

Lemma used_freed s x y : map_ok s -> 0 <= x < sb_size (it_sb (id_it s)) -> 0 <= y < sb_size (it_sb (id_it s)) ->
  used s x = true -> used (freed s x) y = negb (y =? x) && used s y.
Proof.
  intros Hok Hx Hy Ht. unfold freed. rewrite (used_change s x y _ map_clear Hok Hx Hy eq_refl).
  - destruct (Z.eqb_spec y x) as [->|]; [by rewrite Ht|done].
  - intros bj Hbj. unfold used in Ht. rewrite map_bit_clear; [|apply Z.mod_pos_bound; done|done|by apply bit_in_block].
    rewrite Ht. by destruct (bj =? x mod BPB).
Qed.

Lemma bfree_eq s dev x : bfree itl dev x s =
  if used s x then Ret tt (freed s x) else Fail (EPanic "freeing free block").
Proof.
  unfold bfree. erewrite bind_ret by done. erewrite bind_ret by done. erewrite bind_ret by done.
  change (it_sb (lget itl s)) with (it_sb (id_it s)). rewrite Z2Nat.id by apply BBLOCK_nonneg.
  change (map_bit _ _) with (used s x). destruct (used s x); [|done]. cbn [negb].
  erewrite bind_ret by done. unfold freed. by rewrite Z2Nat.id by apply BBLOCK_nonneg.
Qed.

Lemma least_free s x : 0 <= x -> used s x = false ->
  exists y, 0 <= y <= x /\ used s y = false /\ forall z, 0 <= z < y -> used s z = true.
Proof.
  intros Hx. pattern x. apply Zlt_0_ind; [|done]. clear x Hx. intros x IH Hx Hf.
  destruct (decide (Exists (fun k => used s (Z.of_nat k) = false) (seq 0 (Z.to_nat x)))) as [H|Hno].
  - apply Exists_exists in H as (k & Hk%elem_of_seq & Hkf).
    destruct (IH (Z.of_nat k)) as (y & Hy & H1 & H2); [lia|done|]. exists y. split; [lia|done].
  - exists x. split; [lia|]. split; [done|]. intros z Hz. destruct (used s z) eqn:E; [done|].
    exfalso. apply Hno, Exists_exists. exists (Z.to_nat z). rewrite elem_of_seq, Z2Nat.id by lia. split; [lia|done].
Qed.

Lemma iget_spec (dev inum : Z) (s : ideal)
  (Hc : cpu_ok (id_cpu s)) (Hl : lk_locked (it_lock (id_it s)) = false)
  (Hlen : length (it_inode (id_it s)) = NINODE) (Hu : unique (id_it s))
  (Hex : exists i, cached (id_it s) dev inum i \/ ((i < NINODE)%nat /\ i_ref (geti (id_it s) i) = 0)) :
  returns (iget itl dev inum) s (fun ip t =>
    unique (id_it t) /\ cached (id_it t) dev inum ip /\
    (forall j, j <> ip -> geti (id_it t) j = geti (id_it s) j) /\ id_blk t = id_blk s /\
    ((cached (id_it s) dev inum ip /\
      geti (id_it t) ip = (geti (id_it s) ip) <| i_ref := i_ref (geti (id_it s) ip) + 1 |>) \/
     ((forall j, ~ cached (id_it s) dev inum j) /\ i_ref (geti (id_it s) ip) = 0 /\
      i_ref (geti (id_it t) ip) = 1 /\ i_valid (geti (id_it t) ip) = false))).
Proof.
  destruct (iget_eq dev inum s Hc Hl Hlen Hex) as (ip & hit & t' & E & Eit & El & Esb & Hip & Hh).
  eapply returns_intro; [exact E|]. cbn [id_it set_field].
  assert (forall j, geti t' j = if decide (j = ip) then got dev inum hit (geti (id_it s) ip) else geti (id_it s) j) as Hg.
  { intros j. unfold geti at 1. rewrite Eit. change (default zero_inode _) with
      (geti ((id_it s) <| it_inode := <[ip := got dev inum hit (geti (id_it s) ip)]> (it_inode (id_it s)) |>) j).
    apply geti_insert. lia. }
  split_and!.
  - pose proof (got_unique _ _ _ _ _ (it_lock t') Hu Hlen Hip Hh) as Hu'.
    replace t' with ((id_it s) <| it_inode := <[ip := got dev inum hit (geti (id_it s) ip)]> (it_inode (id_it s)) |>
      <| it_lock := it_lock t' |>); [done|]. destruct t'. cbn in *. by subst.
  - split; [done|]. rewrite Hg, decide_True by done. destruct hit; cbn; [|done]. destruct Hh as (_ & ? & ? & ?). split_and!; [lia|done|done].
  - intros j Hj. by rewrite Hg, decide_False.
  - done.
  - rewrite Hg, decide_True by done. destruct hit; [by left|right]. destruct Hh as [H0 Hno]. done.
Qed.

(** ** Properties *)

(** Balloc() finds a free block whenever there is one, and it is the first:
    it comes back full of zeroes and marked used; no other block's mark changes,
    no block but this one and its bitmap block is touched, and the map keeps its
    invariant.  With no block free it panics. *)
Theorem balloc_allocates (dev : Z) (s : ideal) (Hok : map_ok s) :
  let size := sb_size (it_sb (id_it s)) in
  ((exists x, 0 <= x < size /\ used s x = false) ->
   returns (balloc itl dev) s (fun x t =>
     (0 <= x < size /\ used s x = false /\ (forall y, 0 <= y < x -> used s y = true)) /\
     id_blk t x = replicate (Z.to_nat BSIZE) 0 /\
     (forall y, 0 <= y < size -> used t y = (y =? x) || used s y) /\
     (forall b, b <> x -> b <> BBLOCK x (it_sb (id_it s)) -> id_blk t b = id_blk s b) /\
     map_ok t /\ id_it t = id_it s)) /\
  ((forall x, 0 <= x < size -> used s x = true) ->
   balloc itl dev s = Fail (EPanic "balloc: out of blocks")).
Proof.
  intros size. split; [|by apply balloc_full]. intros (x0 & Hx0 & Hf0).
  destruct (least_free s x0 ltac:(lia) Hf0) as (x & Hx & Hf & Hu).
  eapply returns_mono; [apply (balloc_free s Hok dev x); [unfold size in *; lia|done|done]|].
  intros y t [-> ->]. assert (0 <= x < size) as Hx' by lia. split_and!; try done.
  - lia.
  - lia.
  - unfold allocated. by rewrite blk_put_eq.
  - intros y Hy. by apply used_allocated.
  - intros b H1 H2. unfold allocated, marked. by rewrite !blk_put_ne.
  - by apply allocated_ok.
Qed.

(** C22: bfree() undoes balloc(): after both every block is marked as it was.
    Freeing a block that is not in use panics, so a second bfree() does. *)
Theorem bfree_undoes_balloc (dev : Z) (s : ideal) (Hok : map_ok s)
  (Hfree : exists x, 0 <= x < sb_size (it_sb (id_it s)) /\ used s x = false) :
  returns (x <- balloc itl dev ;; bfree itl dev x ;; ret x) s (fun x t =>
    (forall y, 0 <= y < sb_size (it_sb (id_it s)) -> used t y = used s y) /\
    bfree itl dev x t = Fail (EPanic "freeing free block")).
Proof.
  destruct Hfree as (x0 & Hx0 & Hf0). destruct (least_free s x0 ltac:(lia) Hf0) as (x & Hx & Hf & Hu).
  assert (0 <= x < sb_size (it_sb (id_it s))) as Hx' by lia.
  apply returns_bind. eapply returns_mono; [by apply (balloc_free s Hok dev x)|]. intros y t [-> ->].
  pose proof (allocated_ok s x Hok Hx' Hf) as Hok'.
  assert (used (allocated s x) x = true) as Ht by (rewrite used_allocated by done; by rewrite Z.eqb_refl).
  apply returns_bind. eapply returns_intro; [rewrite bfree_eq, Ht; done|]. apply returns_ret.
  assert (forall y, 0 <= y < sb_size (it_sb (id_it s)) -> used (freed (allocated s x) x) y = used s y) as Hall.
  { intros y Hy. rewrite used_freed, used_allocated by done. destruct (Z.eqb_spec y x) as [->|]; [by rewrite Hf|done]. }
  split; [done|]. rewrite bfree_eq, Hall, Hf by done. done.
Qed.

(** Iget() keeps the table free of duplicates.  It returns an entry for the
    inode asked for: the one in use for it, with one more reference and all else
    kept, or, when there is none, a free entry with one reference and not yet
    read from disk.  Every other entry stays as it was. *)
Theorem iget_unique (dev inum : Z) (s : ideal)
  (Hc : cpu_ok (id_cpu s)) (Hl : lk_locked (it_lock (id_it s)) = false)
  (Hlen : length (it_inode (id_it s)) = NINODE) (Hu : unique (id_it s))
  (Hex : exists i, cached (id_it s) dev inum i \/ ((i < NINODE)%nat /\ i_ref (geti (id_it s) i) = 0)) :
  returns (iget itl dev inum) s (fun ip t =>
    unique (id_it t) /\ cached (id_it t) dev inum ip /\
    (forall j, j <> ip -> geti (id_it t) j = geti (id_it s) j) /\
    ((cached (id_it s) dev inum ip /\
      geti (id_it t) ip = (geti (id_it s) ip) <| i_ref := i_ref (geti (id_it s) ip) + 1 |>) \/
     ((forall j, ~ cached (id_it s) dev inum j) /\ i_ref (geti (id_it s) ip) = 0 /\
      i_ref (geti (id_it t) ip) = 1 /\ i_valid (geti (id_it t) ip) = false))).
Proof. eapply returns_mono; [by apply iget_spec|]. intros ip t (H1 & H2 & H3 & _ & H4). done. Qed.

(** The on-disk inode format is a round trip: an inode written to its slot
    reads back as it was, every other inode of the block reads as before, and
    the block keeps its length. *)
Theorem dinode_roundtrip (inum : Z) (d : dinode) (b : list Z) (Hd : dinode_wf d) (Hb : length b = Z.to_nat BSIZE) :
  get_dinode (dinode_off inum) (put_dinode (dinode_off inum) d b) = d /\
  (forall inum', inum' mod IPB <> inum mod IPB ->
     get_dinode (dinode_off inum') (put_dinode (dinode_off inum) d b) = get_dinode (dinode_off inum') b) /\
  length (put_dinode (dinode_off inum) d b) = length b.
Proof.
  assert (IPB = 16) as EI by done. unfold dinode_off. split_and!.
  - apply get_put_dinode_same; [done|]. rewrite Hb. change (Z.to_nat BSIZE) with 1024%nat. rewrite EI. zmod.
  - intros i Hi. apply get_put_dinode_other; [done|]. rewrite EI in *. zmod.
  - apply length_put_dinode.
Qed.

(** skipelem() takes the first name off a path: it fails exactly on a path
    without names; otherwise the rest it returns has exactly the other names,
    no leading slash and no more bytes than the path, and [name] holds the
    first 14 bytes of the name taken, NUL-terminated when shorter. *)
Theorem skipelem_elements (path name : list Z) (Hp : cstr path) (Hn : length name = DIRSIZ) :
  match elements path with
  | [] => skipelem path name = None
  | e :: es => exists rest, skipelem path name = Some (rest, name_of e name) /\
      elements rest = es /\ nth 0 rest 0 <> slash /\ cstr rest /\ (length rest < length path)%nat /\
      length (name_of e name) = DIRSIZ
  end.
Proof.
  rewrite <- elements_skip. pose proof (skip_cstr _ Hp) as Hc. pose proof (skip_head path) as Hh.
  assert (length (skip_slashes path) <= length path)%nat as Hlen.
  { clear. induction path as [|c p IH]; simpl; [lia|]. destruct (c =? slash); simpl; lia. }
  unfold skipelem. destruct (skip_slashes path) as [|c p] eqn:E; [done|].
  rewrite (span_elements _ Hc) by done. apply Forall_cons in Hc as [Hc0 Hc].
  cbn [nth]. replace (c =? 0) with false by zcase. set (r := span_elem (c :: p)).
  exists (skip_slashes r.2). rewrite elements_skip. unfold r. cbn [span_elem] in *. cbn [nth] in Hh.
  replace ((c =? slash) || (c =? 0)) with false by zcase. cbn [fst snd].
  assert (length (skip_slashes (span_elem p).2) <= length p)%nat as Hrl.
  { clear. assert (forall q, length (skip_slashes q) <= length q)%nat as H1.
    { induction q as [|d q IH]; simpl; [lia|]. destruct (d =? slash); simpl; lia. }
    etrans; [apply H1|]. induction p as [|d q IH]; simpl; [lia|]. destruct ((d =? slash) || (d =? 0)); simpl; lia. }
  split_and!; [|done|apply skip_head|by apply skip_cstr, span_cstr|cbn in *; lia|].
  - unfold name_of. set (e := c :: (span_elem p).1). destruct (Nat.leb_spec DIRSIZ (length e)) as [Hle|Hle].
    + rewrite splice_name by (rewrite length_take; lia). do 3 f_equal. by rewrite length_take, Nat.min_l.
    + rewrite splice_name by (rewrite length_app; cbn [length]; lia). do 2 f_equal.
      rewrite length_app, <- app_assoc. cbn. by rewrite Nat.add_1_r.
  - unfold name_of. set (e := c :: (span_elem p).1). destruct (Nat.leb_spec DIRSIZ (length e)) as [Hle|Hle].
    + rewrite length_app, length_take, length_drop. lia.
    + rewrite length_app. cbn [length]. rewrite length_drop. lia.
Qed.

(** ** Witnesses *)

(** A file system of 100 blocks, bitmap at block 45, blocks 0 .. 46 in use. *)
Definition wit_sb : superblock := mksuperblock FSMAGIC 100 53 20 30 2 32 45.
Definition wit_map : list Z := replicate 5 255 ++ [127] ++ replicate 1018 0.
Definition wit_fs : ideal :=
  mkideal (mkcpu 0 None 0 false 0) (fun x => if x =? 45 then wit_map else replicate 1024 7)
    (mkitable (initlock "itable") (<[3%nat := zero_inode <| i_ref := 1 |> <| i_dev := 1 |> <| i_inum := 1 |>]> (replicate NINODE zero_inode)) wit_sb) ∅ None (mkftable (initlock "ftable") (replicate NFILE zero_file)).

Lemma wit_BBLOCK x : 0 <= x < 100 -> BBLOCK x wit_sb = 45.
Proof. intros Hx. unfold BBLOCK, BPB, BSIZE, u32. cbn. zmod. Defined.

Lemma wit_map_ok : map_ok wit_fs.
Proof.
  constructor; cbn [id_it wit_fs it_sb sb_size wit_sb]; [lia| |].
  - intros x Hx. change (mksuperblock _ _ _ _ _ _ _ _) with wit_sb. rewrite wit_BBLOCK by done. done.
  - intros x y Hx Hy. change (mksuperblock _ _ _ _ _ _ _ _) with wit_sb. rewrite wit_BBLOCK by done.
    intros <-. by vm_compute.
Defined.

Lemma wit_free : exists x, 0 <= x < sb_size (it_sb (id_it wit_fs)) /\ used wit_fs x = false.
Proof. exists 50. split; [cbn; lia|by vm_compute]. Defined.

Lemma balloc_allocates_witness :
  returns (balloc itl 1) wit_fs (fun x t =>
     (0 <= x < 100 /\ used wit_fs x = false /\ (forall y, 0 <= y < x -> used wit_fs y = true)) /\
     id_blk t x = replicate (Z.to_nat BSIZE) 0 /\
     (forall y, 0 <= y < 100 -> used t y = (y =? x) || used wit_fs y) /\
     (forall b, b <> x -> b <> BBLOCK x wit_sb -> id_blk t b = id_blk wit_fs b) /\
     map_ok t /\ id_it t = id_it wit_fs).
Proof. exact (proj1 (balloc_allocates 1 wit_fs wit_map_ok) wit_free). Defined.

Lemma bfree_undoes_balloc_witness :
  returns (x <- balloc itl 1 ;; bfree itl 1 x ;; ret x) wit_fs (fun x t =>
    (forall y, 0 <= y < 100 -> used t y = used wit_fs y) /\
    bfree itl 1 x t = Fail (EPanic "freeing free block")).
Proof. exact (bfree_undoes_balloc 1 wit_fs wit_map_ok wit_free). Defined.

Lemma wit_unique : unique (id_it wit_fs).
Proof.
  assert (forall k, (k < NINODE)%nat -> 0 < i_ref (geti (id_it wit_fs) k) -> k = 3%nat) as H.
  { intros k Hk Hr. destruct (decide (k = 3%nat)) as [|Hne]; [done|]. exfalso. unfold geti in Hr. cbn [id_it wit_fs it_inode] in Hr.
    rewrite list_lookup_insert_ne in Hr by done. rewrite lookup_replicate_2 in Hr by done. cbn in Hr. lia. }
  intros d n i j (Hi & Ri & _) (Hj & Rj & _). by rewrite (H i), (H j).
Defined.

Lemma iget_unique_witness :
  returns (iget itl 1 1) wit_fs (fun ip t =>
    unique (id_it t) /\ cached (id_it t) 1 1 ip /\
    (forall j, j <> ip -> geti (id_it t) j = geti (id_it wit_fs) j) /\
    ((cached (id_it wit_fs) 1 1 ip /\
      geti (id_it t) ip = (geti (id_it wit_fs) ip) <| i_ref := i_ref (geti (id_it wit_fs) ip) + 1 |>) \/
     ((forall j, ~ cached (id_it wit_fs) 1 1 j) /\ i_ref (geti (id_it wit_fs) ip) = 0 /\
      i_ref (geti (id_it t) ip) = 1 /\ i_valid (geti (id_it t) ip) = false))).
Proof.
  apply (iget_unique 1 1 wit_fs); [done|done|done|apply wit_unique|]. exists 3%nat. left. split_and!; [unfold NINODE; lia|done|done|done].
Defined.

Definition wit_dinode : dinode := mkdinode 1 0 (-1) 2 4096 [47; 48; 49; 50; 0; 0; 0; 0; 0; 0; 0; 0; 0].

Lemma dinode_roundtrip_witness :
  dinode_wf wit_dinode /\
  get_dinode (dinode_off 17) (put_dinode (dinode_off 17) wit_dinode (replicate 1024 0)) = wit_dinode.
Proof.
  assert (dinode_wf wit_dinode) as H.
  { constructor; cbn; try lia. split; [done|]. repeat constructor; lia. }
  split; [done|]. exact (proj1 (dinode_roundtrip 17 wit_dinode (replicate 1024 0) H eq_refl)).
Defined.

(** "//usr/b" *)
Lemma skipelem_elements_witness :
  elements [47; 47; 117; 115; 114; 47; 98] = [[117; 115; 114]; [98]] /\
  exists rest, skipelem [47; 47; 117; 115; 114; 47; 98] (replicate 14 9) = Some (rest, name_of [117; 115; 114] (replicate 14 9)) /\
      elements rest = [[98]] /\ nth 0 rest 0 <> slash /\ cstr rest /\ (length rest < 7)%nat /\
      length (name_of [117; 115; 114] (replicate 14 9)) = DIRSIZ.
Proof.
  assert (elements [47; 47; 117; 115; 114; 47; 98] = [[117; 115; 114]; [98]]) as He by reflexivity.
  split; [done|]. assert (cstr [47; 47; 117; 115; 114; 47; 98]) as Hp by (repeat constructor; lia).
  pose proof (skipelem_elements [47; 47; 117; 115; 114; 47; 98] (replicate 14 9) Hp eq_refl) as H.
  rewrite He in H. exact H.
Defined.
