(* ===== verification/Content.v ===== *)
(** * Content: the bytes of a file

    writei(), readi() and bmap() of [Fs] over the ideal disk of [FsSpec], against files
    that are lists of bytes.  The blocks of an inode are its slots: 0 .. MAXFILE - 1 its
    data, through the indirect block from NDIRECT on, and MAXFILE the indirect block. *)
From S2P Require Import Prelude Spinlock Mem Os Sleeplock Bio Log Fs File FsSpec.

(** ** The slots of an inode *)

Definition ind_of (x : inode) : Z := nth 12 (i_addrs x) 0.

(** The block in slot [k] of [x], 0 for none, when the disk holds [B]. *)
Definition slot (B : Z -> list Z) (x : inode) (k : Z) : Z :=
  if k <? NDIRECT then nth (Z.to_nat k) (i_addrs x) 0
  else if k =? MAXFILE then ind_of x
  else if ind_of x =? 0 then 0 else get_le 4 (4 * Z.to_nat (k - NDIRECT)) (B (ind_of x)).

(** A byte of the file; a block that is missing reads as zeroes. *)
Definition byte_of (B : Z -> list Z) (x : inode) (off : Z) : Z :=
  let a := slot B x (off / BSIZE) in if a =? 0 then 0 else nth (Z.to_nat (off mod BSIZE)) (B a) 0.

Definition content (s : ideal) (i : nat) : list Z :=
  (fun k => byte_of (id_blk s) (geti (id_it s) i) (Z.of_nat k)) <$> seq 0 (Z.to_nat (i_size (geti (id_it s) i))).

Definition in_slots (k : Z) : Prop := 0 <= k <= MAXFILE.

(** ** Well-formed file systems *)

Notation sbl s := (it_sb (id_it s)).
Notation node s i := (geti (id_it s) i).
Notation slot_of s i := (slot (id_blk s) (node s i)).

(** Block 0 and the blocks of inodes are in use, and are not part of the map. *)
Record disk_ok (s : ideal) : Prop := {
  dk_map : map_ok s;
  dk_zero : used s 0 = true;
  dk_ninodes : sb_ninodes (sbl s) < 2 ^ 31;
  dk_inode : forall inum, 0 <= inum < sb_ninodes (sbl s) -> 0 <= IBLOCK inum (sbl s) < sb_size (sbl s) /\
    used s (IBLOCK inum (sbl s)) = true /\ length (id_blk s (IBLOCK inum (sbl s))) = Z.to_nat BSIZE /\
    forall y, 0 <= y < sb_size (sbl s) -> BBLOCK y (sbl s) <> IBLOCK inum (sbl s);
}.

(** A block that may belong to a file *)
Record data_block (s : ideal) (a : Z) : Prop := {
  db_range : 0 < a < sb_size (sbl s);
  db_used : used s a = true;
  db_map : forall y, 0 <= y < sb_size (sbl s) -> BBLOCK y (sbl s) <> a;
  db_inode : forall inum, 0 <= inum < sb_ninodes (sbl s) -> IBLOCK inum (sbl s) <> a;
  db_length : length (id_blk s a) = Z.to_nat BSIZE;
}.

Record inode_ok (s : ideal) (x : inode) : Prop := {
  no_inum : 0 <= i_inum x < sb_ninodes (sbl s);
  no_addrs : length (i_addrs x) = 13%nat;
  no_size : 0 <= i_size x <= MAXFILE * BSIZE;
  no_short : Forall (fun v => - 2 ^ 15 <= v < 2 ^ 15) [i_type x; i_major x; i_minor x; i_nlink x];
  no_full : forall k, 0 <= k -> k * BSIZE < i_size x -> slot (id_blk s) x k <> 0;
}.

(** The table entries of [L] hold files, and no block belongs to two of their slots. *)
Record files_ok (s : ideal) (L : list nat) : Prop := {
  fo_disk : disk_ok s;
  fo_table : forall i, i ∈ L -> (i < length (it_inode (id_it s)))%nat;
  fo_inode : forall i, i ∈ L -> inode_ok s (node s i);
  fo_data : forall i k, i ∈ L -> in_slots k -> slot_of s i k = 0 \/ data_block s (slot_of s i k);
  fo_apart : forall i j k k', i ∈ L -> j ∈ L -> in_slots k -> in_slots k' -> slot_of s i k = slot_of s j k' ->
    slot_of s i k <> 0 -> i = j /\ k = k';
}.

Ltac sizes := unfold in_slots, MAXFILE, NINDIRECT, NDIRECT, BSIZE in *; try change (1024 / 4) with 256 in *.

(** ** Free blocks *)

Definition free_blocks (s : ideal) : list nat := filter (fun y => used s (Z.of_nat y) = false) (seq 0 (Z.to_nat (sb_size (sbl s)))).
Definition room (s : ideal) : nat := length (free_blocks s).

Lemma filter_less `{EqDecision A} (P Q : A -> Prop) `{!forall x, Decision (P x), !forall x, Decision (Q x)} (x : A) (l : list A) :
  NoDup l -> x ∈ l -> P x -> (forall y, y ∈ l -> Q y <-> P y /\ y <> x) -> length (filter P l) = S (length (filter Q l)).
Proof.
  intros Hnd Hx Hp Hq. change (S (length (filter Q l))) with (length (x :: filter Q l)). apply Permutation_length, NoDup_Permutation.
  - by apply NoDup_filter.
  - constructor; [|by apply NoDup_filter]. rewrite list_elem_of_filter. intros [Hz _]. by apply Hq in Hz as [_ ?].
  - intros y. rewrite elem_of_cons, !list_elem_of_filter. split.
    + intros [H1 H2]. destruct (decide (y = x)) as [->|Hne]; [by left|]. right. by rewrite Hq.
    + intros [->|[H1 H2]]; [done|]. by apply Hq in H1 as [? _].
Qed.

Lemma filter_same {A} (P Q : A -> Prop) `{!forall x, Decision (P x), !forall x, Decision (Q x)} (l : list A) :
  (forall y, y ∈ l -> P y <-> Q y) -> filter P l = filter Q l.
Proof.
  induction l as [|y l IH]; intros Hl; [done|]. rewrite !filter_cons, IH by (intros z Hz; apply Hl; by right).
  assert (P y <-> Q y) as Hy by (apply Hl; by left). by destruct (decide (P y)), (decide (Q y)); try tauto.
Qed.

Lemma room_allocated s x : map_ok s -> 0 <= x < sb_size (sbl s) -> used s x = false -> room s = S (room (allocated s x)).
Proof.
  intros Hok Hx Hf. unfold room, free_blocks. change (sbl (allocated s x)) with (sbl s). apply (filter_less _ _ (Z.to_nat x)).
  - apply NoDup_seq.
  - apply elem_of_seq. lia.
  - by rewrite Z2Nat.id by lia.
  - intros y Hy%elem_of_seq. rewrite used_allocated by (done || lia). destruct (Z.eqb_spec (Z.of_nat y) x) as [<-|Hne]; cbn [orb].
    + rewrite Nat2Z.id. split; [done|]. by intros [_ ?].
    + split; [|tauto]. intros H. split; [done|]. lia.
Qed.

Lemma balloc_takes s dev : disk_ok s -> (0 < room s)%nat -> exists x, balloc itl dev s = Ret x (allocated s x) /\
  0 <= x < sb_size (sbl s) /\ used s x = false.
Proof.
  intros [Hok _ _ _] Hr. unfold room in Hr. destruct (free_blocks s) as [|x0 l] eqn:E; [cbn in Hr; lia|].
  assert (x0 ∈ free_blocks s) as Hx0 by (rewrite E; by left). apply list_elem_of_filter in Hx0 as [Hf0 Hx0%elem_of_seq].
  destruct (least_free s (Z.of_nat x0) ltac:(lia) Hf0) as (x & Hx & Hf & Hu).
  destruct (returns_inv _ _ _ (balloc_free s Hok dev x ltac:(lia) Hf Hu)) as (y & t & E1 & -> & ->). exists x. split_and!; [done|lia|lia|done].
Qed.

(** What a newly allocated block is not *)
Lemma fresh_block s x : disk_ok s -> 0 <= x < sb_size (sbl s) -> used s x = false ->
  x <> 0 /\ (forall y, 0 <= y < sb_size (sbl s) -> BBLOCK y (sbl s) <> x) /\
  (forall inum, 0 <= inum < sb_ninodes (sbl s) -> IBLOCK inum (sbl s) <> x) /\ ~ data_block s x.
Proof.
  intros [Hok Hz _ Hi] Hx Hf. split_and!.
  - intros ->. congruence.
  - intros y Hy E. by rewrite (mo_used _ Hok y x Hy Hx E) in Hf.
  - intros inum Hn <-. destruct (Hi inum Hn) as (_ & E & _). congruence.
  - intros [_ E _ _ _]. congruence.
Qed.

(** Blocks that are neither the new one nor in the map stay as they are. *)
Lemma blk_allocated s x a : a <> x -> a <> BBLOCK x (sbl s) -> id_blk (allocated s x) a = id_blk s a.
Proof. intros H1 H2. unfold allocated, marked. by rewrite !blk_put_ne. Qed.

Lemma blk_allocated_new s x : id_blk (allocated s x) x = replicate (Z.to_nat BSIZE) 0.
Proof. apply blk_put_eq. Qed.

Lemma data_allocated s x a : disk_ok s -> 0 <= x < sb_size (sbl s) -> used s x = false -> data_block s a ->
  data_block (allocated s x) a /\ id_blk (allocated s x) a = id_blk s a.
Proof.
  intros Hd Hx Hf Ha. assert (id_blk (allocated s x) a = id_blk s a) as E.
  { apply blk_allocated; [intros ->; destruct Ha; congruence|]. apply not_eq_sym, (db_map _ _ Ha). lia. }
  split; [|done]. destruct Ha as [H1 H2 H3 H4 H5]. split; [done| |done|done|by rewrite E].
  rewrite used_allocated by (apply Hd || done || lia). rewrite H2. apply orb_true_r.
Qed.

Lemma data_new s x : disk_ok s -> 0 <= x < sb_size (sbl s) -> used s x = false -> data_block (allocated s x) x.
Proof.
  intros Hd Hx Hf. destruct (fresh_block s x Hd Hx Hf) as (H1 & H2 & H3 & _). split; [|by rewrite used_allocated, Z.eqb_refl by (apply Hd || done)|done|done|].
  - change (0 < x < sb_size (sbl s)). lia.
  - rewrite blk_allocated_new. apply length_replicate.
Qed.

Lemma disk_allocated s x : disk_ok s -> 0 <= x < sb_size (sbl s) -> used s x = false -> disk_ok (allocated s x).
Proof.
  intros Hd Hx Hf. destruct Hd as [Hok H0 Hlt Hi]. pose proof (mo_size _ Hok) as Hsz. split; [by apply allocated_ok| |exact Hlt|].
  - rewrite used_allocated by (done || lia). rewrite H0. apply orb_true_r.
  - intros inum Hn. destruct (Hi inum Hn) as (E1 & E2 & E3 & E4). split; [done|]. split.
    + rewrite used_allocated by done. change (sbl (allocated s x)) with (sbl s). rewrite E2. apply orb_true_r.
    + split; [|done]. change (sbl (allocated s x)) with (sbl s). rewrite blk_allocated; [done|intros E; rewrite E in E2; congruence|]. apply not_eq_sym, E4, Hx.
Qed.

(** ** A block of a file is written *)

Lemma used_put s a d y : data_block s a -> 0 <= y < sb_size (sbl s) -> used (blk_put a d s) y = used s y.
Proof. intros Ha Hy. apply used_zeroed. by apply (db_map _ _ Ha). Qed.

Lemma disk_put s a d : disk_ok s -> data_block s a -> disk_ok (blk_put a d s).
Proof.
  intros [Hok H0 Hlt Hi] Ha. pose proof (mo_size _ Hok) as Hs. assert (sbl (blk_put a d s) = sbl s) as Es by done.
  split; [split| |exact Hlt|]; rewrite ?Es; [done|..].
  - intros x Hx. rewrite blk_put_ne by (by apply (db_map _ _ Ha)). by apply (mo_len _ Hok).
  - intros x y Hx Hy E. rewrite used_put by done. by apply (mo_used _ Hok x).
  - rewrite used_put by (done || lia). done.
  - intros inum Hn. destruct (Hi inum Hn) as (E1 & E2 & E3 & E4). split; [done|]. rewrite used_put by done. split; [done|].
    rewrite blk_put_ne by (by apply (db_inode _ _ Ha)). done.
Qed.

Lemma data_put s a d b : data_block s a -> length d = Z.to_nat BSIZE -> data_block s b -> data_block (blk_put a d s) b.
Proof.
  intros Ha Hl Hb. split; [apply Hb| |apply Hb|apply Hb|].
  - rewrite used_put by (try done; pose proof (db_range _ _ Hb); lia). apply Hb.
  - destruct (decide (b = a)) as [->|]; [by rewrite blk_put_eq|]. rewrite blk_put_ne by done. apply Hb.
Qed.

Lemma room_put s a d : data_block s a -> room (blk_put a d s) = room s.
Proof.
  intros Ha. unfold room, free_blocks. change (sbl (blk_put a d s)) with (sbl s). f_equal.
  apply filter_same. intros y Hy%elem_of_seq. by rewrite used_put by (done || lia).
Qed.

(** ** A new block becomes part of a file *)

Definition with_node (i : nat) (x : inode) (s : ideal) : ideal :=
  s <| id_it := (id_it s) <| it_inode := <[i := x]> (it_inode (id_it s)) |> |>.

Lemma node_with i x s j : (i < length (it_inode (id_it s)))%nat -> node (with_node i x s) j = if decide (j = i) then x else node s j.
Proof. apply geti_insert. Qed.

Lemma disk_with i x s : disk_ok s -> disk_ok (with_node i x s).
Proof. intros [[H1 H2 H3] H4 H5 H6]. by split; [split|..]. Qed.

Lemma data_with i x s a : data_block s a -> data_block (with_node i x s) a.
Proof. intros [H1 H2 H3 H4 H5]. by split. Qed.

Lemma imod_eq i f s : imod itl i f s = Ret tt (with_node i (f (node s i)) s).
Proof. done. Qed.

(** All of an inode but its addresses *)
Definition meta (x : inode) : inode := x <| i_addrs := [] |>.

(** The blocks of inodes are as they were. *)
Definition inodes_same (s t : ideal) : Prop :=
  forall inum, 0 <= inum < sb_ninodes (sbl s) -> id_blk t (IBLOCK inum (sbl s)) = id_blk s (IBLOCK inum (sbl s)).

(** Slot [k] of file [i], which was empty, gets the free block [x], full of zeroes. *)
Record attach (s t : ideal) (L : list nat) (i : nat) (k x : Z) : Prop := {
  at_range : 0 <= x < sb_size (sbl s);
  at_free : used s x = false;
  at_sb : sbl t = sbl s;
  at_disk : disk_ok t;
  at_data : forall a, data_block s a -> data_block t a;
  at_new : data_block t x;
  at_zero : k <> MAXFILE -> id_blk t x = replicate (Z.to_nat BSIZE) 0;
  at_table : length (it_inode (id_it t)) = length (it_inode (id_it s));
  at_slot : forall j k', j ∈ L -> in_slots k' -> slot_of t j k' = if decide (j = i /\ k' = k) then x else slot_of s j k';
  at_meta : forall j, j ∈ L -> meta (node t j) = meta (node s j) /\ length (i_addrs (node t j)) = length (i_addrs (node s j));
  at_bytes : forall j k', j ∈ L -> in_slots k' -> k' <> MAXFILE -> slot_of s j k' <> 0 -> id_blk t (slot_of s j k') = id_blk s (slot_of s j k');
  at_inode : inodes_same s t;
}.

Lemma meta_size x y : meta x = meta y -> i_size x = i_size y /\ i_inum x = i_inum y.
Proof. destruct x, y. intros [=]. done. Qed.

Lemma meta_type x y : meta x = meta y -> i_type x = i_type y.
Proof. destruct x, y. intros [=]. done. Qed.

Lemma attach_files s t L i k x : files_ok s L -> i ∈ L -> in_slots k -> slot_of s i k = 0 -> attach s t L i k x -> files_ok t L.
Proof.
  intros [Fd Ft Fi Fb Fa] Hi Hk H0 [T1 T2 T3 T4 T5 T6 T7 T8 T9 T10 T11 T12].
  destruct (fresh_block s x Fd T1 T2) as (Hx0 & _ & _ & Hnd).
  assert (forall j k', j ∈ L -> in_slots k' -> slot_of s j k' <> x) as Hne.
  { intros j k' Hj Hk' E. destruct (Fb j k' Hj Hk') as [E0|Hb]; [congruence|]. apply Hnd. by rewrite <- E. }
  split; [done| | | |].
  - intros j Hj. rewrite T8. by apply Ft.
  - intros j Hj. destruct (Fi j Hj) as [N1 N2 N3 N5 N4]. destruct (T10 j Hj) as [Em El]. destruct (meta_size _ _ Em) as [Es En].
    split; rewrite ?T3, ?Es, ?En, ?El; [done..| |].
    { change (Forall (fun v => - 2 ^ 15 <= v < 2 ^ 15) [i_type (meta (node t j)); i_major (meta (node t j)); i_minor (meta (node t j)); i_nlink (meta (node t j))]).
      rewrite Em. exact N5. }
     intros k' Hk' Hlt. assert (in_slots k') as Hin by (sizes; lia).
    rewrite T9 by done. case_decide; [done|]. by apply N4.
  - intros j k' Hj Hk'. rewrite T9 by done. case_decide; [by right|]. destruct (Fb j k' Hj Hk'); [by left|right; auto].
  - intros j j' k1 k2 Hj Hj' Hk1 Hk2. rewrite !T9 by done. case_decide as E1; case_decide as E2.
    + destruct E1 as [-> ->], E2 as [-> ->]. done.
    + intros E. by destruct (Hne j' k2).
    + intros E. by destruct (Hne j k1).
    + apply Fa; done.
Qed.

Lemma nth_zeros n k : nth k (replicate n 0) 0 = 0.
Proof. rewrite nth_lookup. destruct (replicate n 0 !! k) as [y|] eqn:E; [|done]. by apply lookup_replicate in E as [-> _]. Qed.

Lemma get_le_zeros n m off : get_le n off (replicate m 0) = 0.
Proof. revert off. induction n as [|n IH]; intros off; cbn [get_le]; [done|]. by rewrite nth_zeros, IH. Qed.

Lemma attach_bytes s t L i k x j off : files_ok s L -> i ∈ L -> in_slots k -> slot_of s i k = 0 -> attach s t L i k x ->
  j ∈ L -> 0 <= off < MAXFILE * BSIZE -> byte_of (id_blk t) (node t j) off = byte_of (id_blk s) (node s j) off.
Proof.
  intros Hf Hi Hk H0 Ha Hj Ho. assert (in_slots (off / BSIZE) /\ off / BSIZE <> MAXFILE) as [Hin Hm] by (sizes; split; zmod).
  unfold byte_of. rewrite (at_slot _ _ _ _ _ _ Ha) by done. case_decide as E.
  - destruct E as [-> <-]. rewrite H0, Z.eqb_refl. rewrite (at_zero _ _ _ _ _ _ Ha Hm), nth_zeros. by case_match.
  - destruct (Z.eqb_spec (slot_of s j (off / BSIZE)) 0) as [?|Hne]; [done|].
    by rewrite (at_bytes _ _ _ _ _ _ Ha).
Qed.

(** *** The three ways to attach a block *)

(** The address in the inode of slot [k] *)
Definition addr_index (k : Z) : nat := if k =? MAXFILE then 12%nat else Z.to_nat k.

Lemma slot_insert B x k k' a : length (i_addrs x) = 13%nat -> in_slots k' -> 0 <= k < NDIRECT \/ (k = MAXFILE /\ ind_of x = 0) ->
  (k = MAXFILE -> forall n off, get_le n off (B a) = 0) ->
  slot B (x <| i_addrs := <[addr_index k := a]> (i_addrs x) |>) k' = if decide (k' = k) then a else slot B x k'.
Proof.
  intros Hl Hk' Hk Hz. unfold slot, ind_of, addr_index in *. cbn [i_addrs set_field]. sizes. destruct Hk as [Hk|[-> Hi]].
  - replace (k =? 12 + 256) with false by zcase. rewrite (nth_lookup (<[_ := _]> _) 12), list_lookup_insert_ne by lia. rewrite <- nth_lookup.
    destruct (Z.ltb_spec k' 12); [|by rewrite decide_False by lia]. rewrite !nth_lookup. case_decide as E.
    + subst. by rewrite list_lookup_insert_eq by lia.
    + by rewrite list_lookup_insert_ne by lia.
  - rewrite Z.eqb_refl. rewrite !(nth_lookup (<[_ := _]> _)), list_lookup_insert_eq by lia. cbn [default from_option id]. rewrite Hi.
    change (12 + 256) with 268 in *. destruct (Z.ltb_spec k' 12).
    + rewrite decide_False by lia. rewrite list_lookup_insert_ne by lia. by rewrite nth_lookup.
    + case_decide as E; [by subst|]. replace (k' =? 268) with false by zcase. rewrite Hz by done. cbn. by case_match.
Qed.

Lemma slot_ind B x : slot B x MAXFILE = ind_of x.
Proof. done. Qed.

Lemma slot_blocks B B' x k : (ind_of x <> 0 -> B' (ind_of x) = B (ind_of x)) -> slot B' x k = slot B x k.
Proof.
  intros H. unfold slot. case_match; [done|]. case_match; [done|]. destruct (Z.eqb_spec (ind_of x) 0); [done|]. by rewrite H.
Qed.

Lemma max_in_slots : in_slots MAXFILE.
Proof. by sizes. Qed.

Section Attach.
Context (s : ideal) (L : list nat) (Hf : files_ok s L) (i : nat) (Hi : i ∈ L).
Context (x : Z) (Hx : 0 <= x < sb_size (sbl s)) (Hfree : used s x = false).

Lemma slot_allocated j k : j ∈ L -> slot (id_blk (allocated s x)) (node s j) k = slot_of s j k.
Proof.
  intros Hj. apply slot_blocks. intros Hne. apply data_allocated; [apply Hf|done|done|].
  destruct (fo_data _ _ Hf j MAXFILE Hj max_in_slots) as [E|Hb]; [by rewrite slot_ind in E|exact Hb].
Qed.

Lemma bytes_allocated j k : j ∈ L -> in_slots k -> slot_of s j k <> 0 -> id_blk (allocated s x) (slot_of s j k) = id_blk s (slot_of s j k).
Proof.
  intros Hj Hk Hne. apply data_allocated; [apply Hf|done|done|]. by destruct (fo_data _ _ Hf j k Hj Hk).
Qed.

Lemma inodes_allocated : inodes_same s (allocated s x).
Proof.
  intros inum Hn. destruct (fresh_block s x (fo_disk _ _ Hf) Hx Hfree) as (_ & _ & H1 & _).
  destruct (dk_inode _ (fo_disk _ _ Hf) inum Hn) as (_ & _ & _ & H2). apply blk_allocated; [by apply H1|]. by apply not_eq_sym, H2.
Qed.

Lemma attach_addr k : 0 <= k < NDIRECT \/ k = MAXFILE -> slot_of s i k = 0 ->
  attach s (with_node i ((node s i) <| i_addrs := <[addr_index k := x]> (i_addrs (node s i)) |>) (allocated s x)) L i k x.
Proof.
  intros Hk H0. set (nx := _ <| i_addrs := _ |>). pose proof (fo_table _ _ Hf i Hi) as Hlt.
  assert (forall j, node (with_node i nx (allocated s x)) j = if decide (j = i) then nx else node s j) as Hn
    by (intros j; exact (node_with i nx (allocated s x) j Hlt)).
  pose proof (fo_disk _ _ Hf) as Hd. split; try done.
  - apply disk_with. exact (disk_allocated s x Hd Hx Hfree).
  - intros a Ha. apply data_with. exact (proj1 (data_allocated s x a Hd Hx Hfree Ha)).
  - apply data_with. exact (data_new s x Hd Hx Hfree).
  - intros _. exact (blk_allocated_new s x).
  - apply length_insert.
  - intros j k' Hj Hk'. rewrite Hn. change (id_blk (with_node i nx (allocated s x))) with (id_blk (allocated s x)). destruct (decide (j = i)) as [->|Hne].
    + unfold nx. rewrite slot_insert; [|by apply (fo_inode _ _ Hf)|done| |].
      * rewrite slot_allocated by done. by destruct (decide (k' = k)), (decide (i = i /\ k' = k)); try tauto.
      * destruct Hk as [?| ->]; [by left|right]. done.
      * intros _ n off. rewrite blk_allocated_new. apply get_le_zeros.
    + rewrite slot_allocated, decide_False by tauto. done.
  - intros j Hj. rewrite Hn. case_decide as E; [subst j|done]. split; [done|]. apply length_insert.
  - intros j k' Hj Hk' _ Hne. by apply bytes_allocated.
  - exact inodes_allocated.
Qed.

Lemma attach_entry k : NDIRECT <= k < MAXFILE -> slot_of s i k = 0 -> ind_of (node s i) <> 0 ->
  attach s (blk_put (ind_of (node s i)) (put_le 4 (4 * Z.to_nat (k - NDIRECT)) x (id_blk s (ind_of (node s i)))) (allocated s x)) L i k x.
Proof.
  intros Hk H0 Hind. set (ind := ind_of (node s i)) in *. set (d := put_le _ _ _ _). pose proof (fo_disk _ _ Hf) as Hd.
  assert (data_block s ind) as Hb by (destruct (fo_data _ _ Hf i MAXFILE Hi max_in_slots); done).
  destruct (data_allocated s x ind Hd Hx Hfree Hb) as [Hb' Eb]. pose proof (db_length _ _ Hb) as Hlen.
  assert (length d = Z.to_nat BSIZE) as Hd' by (unfold d; by rewrite length_put_le).
  assert (x <> ind) as Hxi by (intros <-; by destruct (fresh_block s x Hd Hx Hfree) as (_ & _ & _ & ?)).
  assert (disk_ok (allocated s x)) as Hda by exact (disk_allocated s x Hd Hx Hfree).
  assert (forall a, a <> ind -> id_blk (blk_put ind d (allocated s x)) a = id_blk (allocated s x) a) as Hne by (intros; by apply blk_put_ne).
  split; try done.
  - by apply disk_put.
  - intros a Ha. apply data_put; [done|done|]. exact (proj1 (data_allocated s x a Hd Hx Hfree Ha)).
  - apply data_put; [done|done|]. by apply data_new.
  - intros _. rewrite Hne by done. apply blk_allocated_new.
  - intros j k' Hj Hk'. destruct (decide (j = i)) as [->|Hji].
    + change (node (blk_put ind d (allocated s x)) i) with (node s i). destruct (decide (i = i /\ k' = k)) as [[_ ->]|E].
      * unfold slot. fold ind. replace (k <? NDIRECT) with false by (sizes; zcase; done). replace (k =? MAXFILE) with false by (sizes; zcase; done).
        replace (ind =? 0) with false by zcase. rewrite blk_put_eq. unfold d. apply get_put_le; [rewrite Hlen; sizes; lia|].
        change (256 ^ Z.of_nat 4) with (2 ^ 32). pose proof (mo_size _ (dk_map _ Hd)). lia.
      * unfold slot. fold ind. case_match eqn:E1; [done|]. case_match eqn:E2; [done|]. replace (ind =? 0) with false by zcase.
        rewrite blk_put_eq. unfold d. apply Z.ltb_ge in E1. apply Z.eqb_neq in E2. apply get_put_le_ne. sizes.
        assert (k' <> k) by tauto. lia.
    + rewrite decide_False by tauto. rewrite <- (slot_allocated j k' Hj). apply slot_blocks. intros Hj0. apply Hne. intros E.
      destruct (fo_apart _ _ Hf j i MAXFILE MAXFILE) as [? _]; try done; apply max_in_slots.
  - intros j k' Hj Hk' Hm Hs. rewrite Hne; [by apply bytes_allocated|]. intros E.
    destruct (fo_apart _ _ Hf j i k' MAXFILE) as [_ ?]; done.
  - intros inum Hn. rewrite Hne; [by apply inodes_allocated|]. by apply (db_inode _ _ Hb).
Qed.
End Attach.

(** ** bmap() *)

Lemma inodes_same_trans s t u : sbl t = sbl s -> inodes_same s t -> inodes_same t u -> inodes_same s u.
Proof. intros Es H1 H2 inum Hn. rewrite <- H1 by done. rewrite <- Es in *. by apply H2. Qed.

(** [t] is [s] with more blocks for file [i]: nothing that can be read has changed. *)
Record grown (s t : ideal) (L : list nat) (i : nat) : Prop := {
  gr_files : files_ok t L;
  gr_bytes : forall j off, j ∈ L -> 0 <= off < MAXFILE * BSIZE -> byte_of (id_blk t) (node t j) off = byte_of (id_blk s) (node s j) off;
  gr_meta : forall j, meta (node t j) = meta (node s j);
  gr_slots : forall j k, j ∈ L -> in_slots k -> slot_of s j k <> 0 -> slot_of t j k = slot_of s j k;
  gr_sb : sbl t = sbl s;
  gr_kern : outside t = outside s;
  gr_table : length (it_inode (id_it t)) = length (it_inode (id_it s));
  gr_others : forall j, j <> i -> node t j = node s j;
  gr_inode : inodes_same s t;
}.

Lemma file_grown_refl s L i : files_ok s L -> grown s s L i.
Proof. by split. Qed.

Lemma file_grown_trans s t u L i : grown s t L i -> grown t u L i -> grown s u L i.
Proof.
  intros [A1 A2 A3 A4 A5 A6 A7 A8 A9] [B1 B2 B3 B4 B5 B6 B7 B8 B9]. split; [done| | | |congruence| |congruence| |].
  - intros j off Hj Ho. rewrite B2 by done. by apply A2.
  - intros j. by rewrite B3.
  - intros j k Hj Hk Hs. rewrite B4; [by apply A4|done|done|]. by rewrite A4.
  - destruct A6, B6. split; congruence.
  - intros j Hj. rewrite B8 by done. by apply A8.
  - by eapply inodes_same_trans.
Qed.

Lemma attach_grown s t L i k x : files_ok s L -> i ∈ L -> in_slots k -> slot_of s i k = 0 -> attach s t L i k x ->
  outside t = outside s -> (forall j, j <> i -> node t j = node s j) -> grown s t L i.
Proof.
  intros Hf Hi Hk H0 Ha Hkern Hoth. split; [by eapply attach_files| | | |apply Ha|done|apply Ha|done|apply Ha].
  - intros j off Hj Ho. exact (attach_bytes s t L i k x j off Hf Hi Hk H0 Ha Hj Ho).
  - intros j. destruct (decide (j = i)) as [->|]; [exact (proj1 (at_meta _ _ _ _ _ _ Ha i Hi))|by rewrite Hoth].
  - intros j k' Hj Hk' Hs. rewrite (at_slot _ _ _ _ _ _ Ha) by done. rewrite decide_False; [done|]. intros [-> ->]. done.
Qed.

(** The blocks that slot [k] still needs: its own, and the indirect block *)
Definition cost (s : ideal) (i : nat) (k : Z) : nat :=
  (if slot_of s i k =? 0 then 1 else 0) + (if (NDIRECT <=? k) && (ind_of (node s i) =? 0) then 1 else 0).

Lemma cost_zero s i k : 0 <= k < MAXFILE -> slot_of s i k <> 0 -> cost s i k = 0%nat.
Proof.
  intros Hk Hs. unfold cost. replace (slot_of s i k =? 0) with false by zcase. destruct (Z.leb_spec NDIRECT k); [|done].
  destruct (Z.eqb_spec (ind_of (node s i)) 0) as [E|]; [|done]. exfalso. apply Hs. unfold slot.
  replace (k <? NDIRECT) with false by zcase. replace (k =? MAXFILE) with false by zcase. by rewrite E.
Qed.

Lemma room_with i x s : room (with_node i x s) = room s.
Proof. done. Qed.

Lemma take_addr s L i k dev : files_ok s L -> i ∈ L -> 0 <= k < NDIRECT \/ k = MAXFILE -> slot_of s i k = 0 -> (0 < room s)%nat ->
  exists x t, (a <- balloc itl dev ;; imod itl i (fun x => x <| i_addrs := <[addr_index k := a]> (i_addrs x) |>) ;; ret a) s = Ret x t /\
  x = slot_of t i k /\ x <> 0 /\ grown s t L i /\ room s = S (room t).
Proof.
  intros Hf Hi Hk H0 Hroom. assert (in_slots k) as Hin by (sizes; lia). pose proof (fo_table _ _ Hf i Hi) as Hlt.
  destruct (balloc_takes s dev (fo_disk _ _ Hf) Hroom) as (x & E & Hx & Hfree).
  destruct (fresh_block s x (fo_disk _ _ Hf) Hx Hfree) as (Hx0 & _ & _ & _).
  pose proof (attach_addr s L Hf i Hi x Hx Hfree k Hk H0) as Ha. set (nx := _ <| i_addrs := _ |>) in Ha.
  exists x, (with_node i nx (allocated s x)). split; [by erewrite bind_ret by exact E|].
  assert (forall j, node (with_node i nx (allocated s x)) j = if decide (j = i) then nx else node s j) as Hn
    by (intros j; exact (node_with i nx (allocated s x) j Hlt)).
  split_and!; [|done| |].
  - rewrite (at_slot _ _ _ _ _ _ Ha) by done. by rewrite decide_True.
  - eapply attach_grown; try done. intros j Hj. by rewrite Hn, decide_False.
  - rewrite room_with. apply room_allocated; [apply (dk_map _ (fo_disk _ _ Hf))|done|done].
Qed.

(** What a run of bmap() for slot [k] guarantees *)
Definition mapped (s t : ideal) (L : list nat) (i : nat) (k : Z) : Prop :=
  slot_of t i k <> 0 /\ grown s t L i /\ (room s <= room t + cost s i k)%nat /\ (slot_of s i k <> 0 -> t = s) /\
  (NDIRECT <= k -> ind_of (node t i) <> 0).

Lemma mapped_already s L i k : files_ok s L -> 0 <= k < MAXFILE -> slot_of s i k <> 0 -> mapped s s L i k.
Proof.
  intros Hf Hk Hs. split; [done|]. split; [by apply file_grown_refl|]. split; [lia|]. split; [done|]. intros Hd E. apply Hs. unfold slot.
  replace (k <? NDIRECT) with false by zcase. replace (k =? MAXFILE) with false by zcase. by rewrite E.
Qed.

Lemma entry_maps s L i k dev : files_ok s L -> i ∈ L -> NDIRECT <= k < MAXFILE -> ind_of (node s i) <> 0 ->
  (cost s i k <= room s)%nat -> exists t,
  (bp <- bread dev (ind_of (node s i)) ;;
   a <- get_data bp ;;
   let off := (4 * Z.to_nat (k - NDIRECT))%nat in
   addr <- (if negb (get_le 4 off a =? 0) then ret (get_le 4 off a) else
            addr <- balloc itl dev ;;
            a <- get_data bp ;;
            set_data bp (put_le 4 off addr a) ;;
            tx_write bp ;;
            ret addr) ;;
   brelse bp ;;
   ret addr) s = Ret (slot_of t i k) t /\ mapped s t L i k.
Proof.
  intros Hf Hi Hk Hind Hav. assert (data_block s (ind_of (node s i))) as Hb by (destruct (fo_data _ _ Hf i MAXFILE Hi max_in_slots); done).
  set (ind := ind_of (node s i)) in *. pose proof (db_range _ _ Hb) as Hr. assert (in_slots k) as Hin by (sizes; lia).
  assert (slot_of s i k = get_le 4 (4 * Z.to_nat (k - NDIRECT)) (id_blk s ind)) as Es.
  { unfold slot. fold ind. replace (k <? NDIRECT) with false by (sizes; zcase; done). replace (k =? MAXFILE) with false by (sizes; zcase; done).
    by replace (ind =? 0) with false by zcase. }
  assert (forall (u : ideal) d, set_data (Z.to_nat ind) d u = Ret tt (blk_put ind d u)) as Eset by (intros; cbn; by rewrite Z2Nat.id by lia).
  assert (forall u : ideal, get_data (Z.to_nat ind) u = Ret (id_blk u ind) u) as Eget by (intros; cbn; unfold gets; by rewrite Z2Nat.id by lia).
  erewrite bind_ret by done. erewrite bind_ret by apply Eget. cbv zeta. rewrite <- Es. destruct (Z.eqb_spec (slot_of s i k) 0) as [E0|Hne]; cbn [negb].
  - assert (0 < room s)%nat as Hroom by (unfold cost in Hav; rewrite E0, Z.eqb_refl in Hav; lia).
    destruct (balloc_takes s dev (fo_disk _ _ Hf) Hroom) as (x & E & Hx & Hfree).
    pose proof (attach_entry s L Hf i Hi x Hx Hfree k Hk E0 Hind) as Ha. fold ind in Ha. set (d := put_le _ _ _ _) in Ha.
    destruct (data_allocated s x ind (fo_disk _ _ Hf) Hx Hfree Hb) as [Hb' Eb].
    exists (blk_put ind d (allocated s x)). pose proof (at_slot _ _ _ _ _ _ Ha i k Hi Hin) as Esl. rewrite decide_True in Esl by done. rewrite Esl. split.
    + erewrite bind_ret; [done|]. erewrite bind_ret by exact E. erewrite bind_ret by apply Eget. rewrite Eb. erewrite bind_ret by apply Eset. done.
    + split; [rewrite Esl; by destruct (fresh_block s x (fo_disk _ _ Hf) Hx Hfree)|]. split; [by eapply attach_grown|]. split; [|by split].
      unfold cost. rewrite E0, Z.eqb_refl. rewrite (room_put (allocated s x) ind d Hb').
      rewrite (room_allocated s x); [lia|apply (dk_map _ (fo_disk _ _ Hf))|done|done].
  - exists s. split; [by erewrite bind_ret by done|]. apply mapped_already; [done|sizes; lia|done].
Qed.

Lemma bmap_maps s L i k : files_ok s L -> i ∈ L -> 0 <= k < MAXFILE -> (cost s i k <= room s)%nat ->
  exists t, bmap itl i k s = Ret (slot_of t i k) t /\ mapped s t L i k.
Proof.
  intros Hf Hi Hk Hav. assert (in_slots k) as Hin by (sizes; lia). destruct (fo_inode _ _ Hf i Hi) as [_ Hl _ _ _].
  unfold bmap. erewrite bind_ret by done. change (lget (il itl i) s) with (node s i). destruct (Z.ltb_spec k NDIRECT) as [Hd|Hd].
  - assert (slot_of s i k = nth (Z.to_nat k) (i_addrs (node s i)) 0) as Es by (unfold slot; by replace (k <? NDIRECT) with true by zcase).
    assert (forall u : ideal, aget (i_addrs (node s i)) k u = Ret (slot_of s i k) u) as Eg.
    { intros u. apply aget_ok. rewrite Es, nth_lookup. destruct (znth_is_some (i_addrs (node s i)) k) as (a & E1 & E2); [sizes; lia|]. by rewrite E1, E2. }
    erewrite bind_ret by apply Eg. destruct (Z.eqb_spec (slot_of s i k) 0) as [E0|Hne]; cbn [negb].
    + destruct (take_addr s L i k (i_dev (node s i)) Hf Hi) as (x & t & E & -> & Hx & Hg & Ha); [by left; lia|done| |].
      { unfold cost in Hav. rewrite E0, Z.eqb_refl in Hav. lia. }
      assert (addr_index k = Z.to_nat k) as Ei by (unfold addr_index; replace (k =? MAXFILE) with false by (sizes; zcase; done); done).
      rewrite Ei in E. exists t. split; [exact E|]. split; [done|]. split; [done|].
      split; [unfold cost; rewrite E0, Z.eqb_refl; lia|]. split; [done|lia].
    + exists s. split; [done|]. by apply mapped_already; [|sizes; lia|].
  - replace (k - NDIRECT <? NINDIRECT) with true by (sizes; zcase; done).
    assert (forall u : ideal, aget (i_addrs (node s i)) NDIRECT u = Ret (ind_of (node s i)) u) as Eg.
    { intros u. apply aget_ok. unfold ind_of. rewrite nth_lookup. destruct (znth_is_some (i_addrs (node s i)) NDIRECT) as (a & E1 & E2); [sizes; lia|].
      change (Z.to_nat NDIRECT) with 12%nat in E2. by rewrite E1, E2. }
    erewrite bind_ret by apply Eg. destruct (Z.eqb_spec (ind_of (node s i)) 0) as [E0|Hne]; cbn [negb].
    + assert (slot_of s i k = 0) as Es0.
      { unfold slot. replace (k <? NDIRECT) with false by zcase. replace (k =? MAXFILE) with false by (sizes; zcase; done). by rewrite E0. }
      assert (cost s i k = 2%nat) as Ec by (unfold cost; rewrite Es0, E0; replace (NDIRECT <=? k) with true by zcase; done). rewrite Ec in Hav.
      destruct (take_addr s L i MAXFILE (i_dev (node s i)) Hf Hi) as (x & t & E & -> & Hx & Hg & Ha); [by right|done|lia|].
      change (slot_of t i MAXFILE) with (ind_of (node t i)) in *. assert (cost t i k <= 1)%nat as Ect.
      { unfold cost. replace (ind_of (node t i) =? 0) with false by zcase. rewrite andb_false_r. case_match; lia. }
      destruct (entry_maps t L i k (i_dev (node s i)) (gr_files _ _ _ _ Hg) Hi) as (u & E2 & M1 & M2 & M3 & _ & M5); [lia|done|lia|].
      exists u. split; [erewrite bind_ret by exact E; exact E2|]. split; [done|]. split; [by eapply file_grown_trans|]. split; [lia|]. split; [done|done].
    + erewrite bind_ret by done. apply entry_maps; try done. lia.
Qed.

(** ** A data block is written *)

Lemma data_in_slots k : 0 <= k < MAXFILE -> in_slots k /\ k <> MAXFILE.
Proof. sizes. lia. Qed.

Section Put.
Context (s : ideal) (L : list nat) (Hf : files_ok s L) (i : nat) (Hi : i ∈ L) (k : Z) (Hk : 0 <= k < MAXFILE).
Context (Hs : slot_of s i k <> 0) (d : list Z) (Hd : length d = Z.to_nat BSIZE).
Notation a := (slot_of s i k).
Notation u := (blk_put a d s).

Lemma put_block : data_block s a.
Proof using Hf Hi Hk Hs. clear d Hd. destruct (fo_data _ _ Hf i k Hi) as [?|?]; [exact (proj1 (data_in_slots k Hk))|done|done]. Qed.

(** Indirect blocks are not data blocks. *)
Lemma put_slot j k' : j ∈ L -> slot_of u j k' = slot_of s j k'.
Proof using Hf Hi Hk Hs.
  intros Hj. apply slot_blocks. intros Hne. apply blk_put_ne. intros E. change (node u j) with (node s j) in *.
  destruct (data_in_slots k Hk) as [H1 H2]. destruct (fo_apart _ _ Hf j i MAXFILE k Hj Hi max_in_slots H1 E Hne) as [_ E']. by destruct H2.
Qed.

Lemma put_files : files_ok u L.
Proof.
  pose proof put_block as Hb. destruct Hf as [Fd Ft Fi Fb Fa]. split; [by apply disk_put|done| | |].
  - intros j Hj. destruct (Fi j Hj) as [N1 N2 N3 N5 N4]. split; [done..|]. intros k' H1 H2. change (slot_of u j k' <> 0). rewrite put_slot by done. by apply N4.
  - intros j k' Hj Hk'. rewrite put_slot by done. destruct (Fb j k' Hj Hk') as [?|?]; [by left|right]. by apply data_put.
  - intros j j' k1 k2 Hj Hj' H1 H2. rewrite !put_slot by done. by apply Fa.
Qed.

Lemma put_bytes_of j off : j ∈ L -> 0 <= off < MAXFILE * BSIZE ->
  byte_of (id_blk u) (node u j) off = if decide (j = i /\ off / BSIZE = k) then nth (Z.to_nat (off mod BSIZE)) d 0 else byte_of (id_blk s) (node s j) off.
Proof using Hf Hi Hk Hs.
  clear Hd. intros Hj Ho. unfold byte_of. rewrite put_slot by done. case_decide as E.
  - destruct E as [-> ->]. replace (a =? 0) with false by zcase. by rewrite blk_put_eq.
  - destruct (Z.eqb_spec (slot_of s j (off / BSIZE)) 0); [done|]. rewrite blk_put_ne; [done|]. intros E2. apply E.
    apply (fo_apart _ _ Hf); try done; sizes; [split; zmod|lia].
Qed.

Lemma put_room : room u = room s.
Proof using Hf Hi Hk Hs. exact (room_put s a d put_block). Qed.
End Put.

(** ** writei() *)

Lemma nth_splice o l d j : (o <= length d)%nat ->
  nth j (splice o l d) 0 = if decide (o <= j < o + length l)%nat then nth (j - o) l 0 else nth j d 0.
Proof.
  intros Hl. unfold splice. rewrite !nth_lookup. case_decide as E.
  - rewrite lookup_app_r by (rewrite length_take; lia). rewrite length_take, Nat.min_l by lia. by rewrite lookup_app_l by lia.
  - destruct (decide (j < o)%nat) as [Hj|Hj].
    + rewrite lookup_app_l by (rewrite length_take; lia). by rewrite lookup_take_lt by lia.
    + rewrite lookup_app_r by (rewrite length_take; lia). rewrite length_take, Nat.min_l by lia.
      rewrite lookup_app_r by lia. rewrite lookup_drop. do 2 f_equal. lia.
Qed.

Lemma length_splice o l d : (o + length l <= length d)%nat -> length (splice o l d) = length d.
Proof. intros Hl. unfold splice. rewrite !length_app, length_take, length_drop. lia. Qed.

Lemma nth_bytes_at j a n m : (j < n)%nat -> nth j (bytes_at a n m) 0 = mget m (a + Z.of_nat j).
Proof. intros Hj. unfold bytes_at. rewrite nth_lookup, list_lookup_fmap, lookup_seq_lt by done. done. Qed.

(** The blocks that hold the bytes p .. e - 1 *)
Definition blocks (p e : Z) : Z := if p <? e then (e - 1) / BSIZE - p / BSIZE + 1 else 0.

(** Of file [i], [tot] bytes from [off] on are now those of [f]; all that they touch is allocated. *)
Record written (s t : ideal) (L : list nat) (i : nat) (off tot : Z) (f : Z -> Z) : Prop := {
  wr_files : files_ok t L;
  wr_bytes : forall j o, j ∈ L -> 0 <= o < MAXFILE * BSIZE -> byte_of (id_blk t) (node t j) o =
    if decide (j = i /\ off <= o < off + tot) then f (o - off) else byte_of (id_blk s) (node s j) o;
  wr_full : forall k, 0 <= k -> k * BSIZE < off + tot -> slot_of t i k <> 0;
  wr_slots : forall k, in_slots k -> slot_of s i k <> 0 -> slot_of t i k <> 0;
  wr_meta : forall j, meta (node t j) = meta (node s j);
  wr_sb : sbl t = sbl s;
  wr_kern : outside t = outside s;
  wr_table : length (it_inode (id_it t)) = length (it_inode (id_it s));
  wr_others : forall j, j <> i -> node t j = node s j;
  wr_inode : inodes_same s t;
}.

Lemma written_start s L i off f : files_ok s L -> i ∈ L -> off <= i_size (node s i) -> written s s L i off 0 f.
Proof.
  intros Hf Hi Ho. split; try done.
  - intros j o Hj Hr. by rewrite decide_False by lia.
  - intros k Hk Hlt. apply (no_full _ _ (fo_inode _ _ Hf i Hi)); lia.
Qed.

Lemma write_round s t v L i off tot f l : written s t L i off tot f -> i ∈ L -> 0 <= off -> 0 <= tot ->
  off + tot + Z.of_nat (length l) <= MAXFILE * BSIZE -> (0 < length l)%nat -> (off + tot) mod BSIZE + Z.of_nat (length l) <= BSIZE ->
  (forall j, (j < length l)%nat -> nth j l 0 = f (tot + Z.of_nat j)) -> mapped t v L i ((off + tot) / BSIZE) ->
  let a := slot_of v i ((off + tot) / BSIZE) in
  written s (blk_put a (splice (Z.to_nat ((off + tot) mod BSIZE)) l (id_blk v a)) v) L i off (tot + Z.of_nat (length l)) f.
Proof.
  intros [W1 W2 W3 W0 W4 W5 W6 W7 W8 W9] Hi Hoff Htot Hmax Hm Hfit Hl (Hs & [G1 G2 G3 G4 G5 G6 G7 G8 G9] & _ & _) a.
  set (p := off + tot) in *. set (k := p / BSIZE) in *. assert (0 <= k < MAXFILE) as Hk by (unfold k; sizes; zmod).
  assert (0 <= p mod BSIZE < BSIZE) as Hp by (apply Z.mod_pos_bound; done).
  assert (length (id_blk v a) = Z.to_nat BSIZE) as Hlen by (apply (db_length v), (put_block v L G1 i Hi k Hk Hs)).
  set (d := splice _ _ _). assert (length d = Z.to_nat BSIZE) as Hd by (unfold d; rewrite length_splice; lia).
  split; try done.
  - by apply put_files.
  - intros j o Hj Ho. etrans; [exact (put_bytes_of v L G1 i Hi k Hk Hs d j o Hj Ho)|]. assert (0 <= o mod BSIZE < BSIZE) by (apply Z.mod_pos_bound; done).
    case_decide as E.
    + destruct E as [-> E]. unfold d. rewrite nth_splice by lia. case_decide as E2.
      * rewrite decide_True by (split; [done|]; sizes; zmod). rewrite Hl by lia. f_equal. sizes. zmod.
      * transitivity (byte_of (id_blk v) (node v i) o).
        { unfold byte_of. rewrite E. fold a. by replace (a =? 0) with false by zcase. }
        rewrite G2, W2 by done. assert (off <= o < p <-> off <= o < off + (tot + Z.of_nat (length l))) as Hiff by (unfold k, p in *; sizes; zmod).
        by destruct (decide (i = i /\ off <= o < p)), (decide (i = i /\ off <= o < off + (tot + Z.of_nat (length l)))); tauto.
    + rewrite G2, W2 by done.
      destruct (decide (j = i /\ off <= o < p)) as [E1|E1], (decide (j = i /\ off <= o < off + (tot + Z.of_nat (length l)))) as [E2|E2]; try done; exfalso.
      * destruct E1. apply E2. split; [done|lia].
      * destruct E2 as [-> E2]. assert (o / BSIZE <> k) by tauto. assert (~ (off <= o < p)) by tauto. unfold k, p in *. sizes. zmod.
  - intros k' Hk' Hlt. assert (in_slots k') by (sizes; lia). intros E. assert (slot_of v i k' = 0) as E0 by (etrans; [symmetry; exact (put_slot v L G1 i Hi k Hk Hs d i k' Hi)|exact E]). revert E0. change (slot_of v i k' <> 0). clear E. destruct (decide (k' = k)) as [->|Hne]; [done|].
    assert (k' * BSIZE < p) as Hlt' by (unfold k, p in *; sizes; zmod). specialize (W3 k' Hk' Hlt'). by rewrite G4.
  - intros k' Hk' H0. intros E. apply (W0 k' Hk' H0). destruct (decide (slot_of t i k' = 0)) as [|Hne]; [done|]. rewrite <- (G4 i k') by done.
    etrans; [symmetry; exact (put_slot v L G1 i Hi k Hk Hs d i k' Hi)|exact E].
  - intros j. change (meta (node v j) = meta (node s j)). by rewrite G3.
  - change (sbl v = sbl s). congruence.
  - change (outside v = outside s). congruence.
  - change (length (it_inode (id_it v)) = length (it_inode (id_it s))). congruence.
  - intros j Hj. change (node v j = node s j). rewrite G8 by done. by apply W8.
  - eapply inodes_same_trans; [|by eapply inodes_same_trans|]; [congruence|]. intros inum Hn. apply blk_put_ne. exact (db_inode _ _ (put_block v L G1 i Hi k Hk Hs) inum Hn).
Qed.

Lemma blocks_next p e m : 0 <= p < e -> m = Z.min (e - p) (BSIZE - p mod BSIZE) -> blocks (p + m) e = blocks p e - 1 /\ 0 < m.
Proof. intros Hp ->. unfold blocks. sizes. split; [zcase; zmod|zmod]. Qed.

(** *** The blocks that a write needs *)

(** The slots for the bytes p .. e - 1, the one of the indirect block among them *)
Definition needs (p e : Z) : list Z :=
  seqZ (p / BSIZE) (blocks p e) ++ (if (p <? e) && (NDIRECT <=? (e - 1) / BSIZE) then [MAXFILE] else []).

(** How many of the slots of [l] are empty *)
Definition empty_slots (s : ideal) (i : nat) (l : list Z) : nat := length (filter (fun k => slot_of s i k = 0) l).

(** The free blocks that a write of the bytes p .. e - 1 takes *)
Definition missing (s : ideal) (i : nat) (p e : Z) : nat := empty_slots s i (needs p e).

Lemma empty_slots_app s i l l' : empty_slots s i (l ++ l') = (empty_slots s i l + empty_slots s i l')%nat.
Proof. unfold empty_slots. by rewrite filter_app, length_app. Qed.

Lemma empty_slots_one s i k : empty_slots s i [k] = if slot_of s i k =? 0 then 1%nat else 0%nat.
Proof. unfold empty_slots. rewrite filter_cons, filter_nil. by destruct (Z.eqb_spec (slot_of s i k) 0), (decide (slot_of s i k = 0)). Qed.

Lemma empty_slots_le s t i l : (forall k, k ∈ l -> slot_of s i k <> 0 -> slot_of t i k <> 0) -> (empty_slots t i l <= empty_slots s i l)%nat.
Proof.
  induction l as [|k l IH]; intros H; [done|]. change (k :: l) with ([k] ++ l). rewrite !empty_slots_app, !empty_slots_one.
  specialize (IH ltac:(intros k' Hk'; apply H; by right)). specialize (H k ltac:(by left)). destruct (Z.eqb_spec (slot_of s i k) 0), (Z.eqb_spec (slot_of t i k) 0); lia.
Qed.

Lemma needs_next p e m : 0 <= p < e -> m = Z.min (e - p) (BSIZE - p mod BSIZE) ->
  (p + m < e /\ needs p e = p / BSIZE :: needs (p + m) e) \/ (needs (p + m) e = [] /\ needs p e = p / BSIZE :: if NDIRECT <=? p / BSIZE then [MAXFILE] else []).
Proof.
  intros Hp Hm. destruct (blocks_next p e m Hp Hm) as [Hb Hm0]. unfold needs. replace (p <? e) with true by zcase. cbn [andb].
  assert (0 < blocks p e) as Hpos by (unfold blocks; replace (p <? e) with true by zcase; sizes; zmod).
  rewrite (seqZ_cons (p / BSIZE) (blocks p e)) by done. replace (Z.pred (blocks p e)) with (blocks (p + m) e) by lia. destruct (Z.ltb_spec (p + m) e) as [Hlt|Hge].
  - left. split; [done|]. assert (Z.succ (p / BSIZE) = (p + m) / BSIZE) as -> by (sizes; zmod). done.
  - right. assert (blocks (p + m) e = 0) as -> by (unfold blocks; by replace (p + m <? e) with false by zcase).
    rewrite !seqZ_nil by lia. split; [done|]. assert ((e - 1) / BSIZE = p / BSIZE) as -> by (sizes; zmod). done.
Qed.

Lemma elem_needs p e k : 0 <= p -> e <= MAXFILE * BSIZE -> k ∈ needs p e -> in_slots k /\ (k = MAXFILE \/ p / BSIZE <= k /\ k * BSIZE < e).
Proof.
  intros Hp He [Hk|Hk]%elem_of_app.
  - apply elem_of_seqZ in Hk. unfold blocks in Hk. sizes. destruct (Z.ltb_spec p e); [|lia]. split; [zmod|]. right. zmod.
  - case_match; [|set_solver]. apply list_elem_of_singleton in Hk as ->. split; [apply max_in_slots|by left].
Qed.

Lemma elem_needs_iff p e k : 0 <= p -> k ∈ needs p e <-> p < e /\ (p / BSIZE <= k <= (e - 1) / BSIZE \/ (k = MAXFILE /\ NDIRECT <= (e - 1) / BSIZE)).
Proof.
  intros Hp. unfold needs. rewrite elem_of_app, elem_of_seqZ. unfold blocks. destruct (Z.ltb_spec p e) as [Hlt|Hge]; cbn [andb].
  - destruct (Z.leb_spec NDIRECT ((e - 1) / BSIZE)).
    + rewrite list_elem_of_singleton. split; [intros [?|?]; (split; [done|]); [left; lia|by right]|intros [_ [?|[? _]]]; [left; lia|by right]].
    + rewrite elem_of_nil. split; [intros [?|[]]; split; [done|left; lia]|intros [_ [?|[_ ?]]]; [left; lia|lia]].
  - rewrite elem_of_nil. split; [intros [?|[]]; lia|lia].
Qed.

Lemma NoDup_needs p e : 0 <= p -> e <= MAXFILE * BSIZE -> NoDup (needs p e).
Proof.
  intros Hp He. unfold needs. apply NoDup_app. split; [apply NoDup_seqZ|]. split; [|case_match; [apply NoDup_singleton|constructor]].
  intros k Hk. case_match; [|set_solver]. rewrite list_elem_of_singleton. apply elem_of_seqZ in Hk. unfold blocks in Hk. intros ->. revert Hk. sizes. zcase; zmod.
Qed.

(** What is missing for one part of a write is no longer missing after it. *)
Lemma missing_split s t i p q e : 0 <= p <= q -> q <= e -> e <= MAXFILE * BSIZE ->
  (forall k, in_slots k -> slot_of s i k <> 0 -> slot_of t i k <> 0) -> (forall k, 0 <= k -> k * BSIZE < q -> slot_of t i k <> 0) ->
  (missing t i q e + missing s i p q <= missing s i p e)%nat.
Proof.
  intros Hpq Hqe Hmax Hkeep Hfull. unfold missing, empty_slots. rewrite <- length_app. apply submseteq_length, NoDup_submseteq.
  - apply NoDup_app. split; [by apply NoDup_filter, NoDup_needs; [lia|]|]. split; [|by apply NoDup_filter, NoDup_needs; lia].
    intros k [Ht _]%list_elem_of_filter [_ Hk]%list_elem_of_filter. apply elem_needs_iff in Hk as [Hlt Hk]; [|lia]. destruct Hk as [Hk|[-> Hk]].
    + apply (Hfull k); [sizes; zmod|sizes; zmod|done].
    + rewrite slot_ind in Ht. apply (Hfull ((q - 1) / BSIZE)); [sizes; zmod|sizes; zmod|]. unfold slot. replace ((q - 1) / BSIZE <? NDIRECT) with false by zcase.
      case_match; [done|]. by rewrite Ht.
  - intros k. rewrite elem_of_app, !list_elem_of_filter. intros [[Ht Hk]|[Ht Hk]]; apply elem_needs_iff in Hk as [Hlt Hk]; try lia.
    + assert (k ∈ needs p e) as Hin.
      { apply elem_needs_iff; [lia|]. split; [lia|]. destruct Hk as [Hk|Hk]; [left|by right]. sizes. zmod. }
      split; [|done]. destruct (decide (slot_of s i k = 0)) as [|H0]; [done|]. exfalso. apply (Hkeep k); [|done|done]. by apply (elem_needs p e); [lia|..].
    + split; [done|]. apply elem_needs_iff; [lia|]. split; [lia|]. destruct Hk as [Hk|[-> Hk]]; [left; sizes; zmod|right; split; [done|sizes; zmod]].
Qed.

Lemma missing_mono s i p q e : 0 <= p -> q <= e -> e <= MAXFILE * BSIZE -> (missing s i p q <= missing s i p e)%nat.
Proof.
  intros Hp Hq Hmax. apply submseteq_length, NoDup_submseteq; [by apply NoDup_filter, NoDup_needs; lia|].
  intros k. rewrite !list_elem_of_filter. intros [Ht Hk]. split; [done|]. apply elem_needs_iff in Hk as [Hlt Hk]; [|done]. apply elem_needs_iff; [done|]. split; [lia|].
  destruct Hk as [Hk|[-> Hk]]; [left|right; split; [done|]]; sizes; zmod.
Qed.

Lemma needs_indirect p e : 0 <= p < e -> NDIRECT <= p / BSIZE -> exists l, needs p e = l ++ [MAXFILE].
Proof.
  intros Hp Hd. unfold needs. replace (p <? e) with true by zcase. replace (NDIRECT <=? (e - 1) / BSIZE) with true by (sizes; symmetry; apply Z.leb_le; zmod).
  cbn [andb]. by eexists.
Qed.

Lemma missing_next t v L i p e m : files_ok t L -> i ∈ L -> 0 <= p < e -> e <= MAXFILE * BSIZE -> m = Z.min (e - p) (BSIZE - p mod BSIZE) ->
  mapped t v L i (p / BSIZE) -> (missing v i (p + m) e + cost t i (p / BSIZE) <= missing t i p e)%nat.
Proof.
  intros Hf Hi Hp He Hm (Hs & Hg & _ & _ & Hind). destruct (blocks_next p e m Hp Hm) as [_ Hm0].
  assert (forall k, in_slots k -> slot_of t i k <> 0 -> slot_of v i k <> 0) as Hkeep.
  { intros k Hk H0. by rewrite (gr_slots _ _ _ _ Hg) by done. }
  unfold missing, cost. destruct (needs_next p e m Hp Hm) as [[Hlt ->]|[-> ->]].
  - change (p / BSIZE :: needs (p + m) e) with ([p / BSIZE] ++ needs (p + m) e). rewrite empty_slots_app, empty_slots_one.
    assert (forall k, k ∈ needs (p + m) e -> slot_of t i k <> 0 -> slot_of v i k <> 0) as Hle.
    { intros k Hk. apply Hkeep. apply (elem_needs (p + m) e); [lia|done|done]. }
    pose proof (empty_slots_le t v i _ Hle) as Hmono. destruct (Z.leb_spec NDIRECT (p / BSIZE)) as [Hd|Hd]; cbn [andb]; [|lia].
    destruct (Z.eqb_spec (ind_of (node t i)) 0) as [E0|E0]; [|lia]. destruct (needs_indirect (p + m) e) as [l El]; [lia|sizes; zmod|]. rewrite El in *. rewrite !empty_slots_app, !empty_slots_one in *.
    rewrite !slot_ind in *. rewrite E0, Z.eqb_refl in *. replace (ind_of (node v i) =? 0) with false in * by (specialize (Hind Hd); zcase; done).
    assert (empty_slots v i l <= empty_slots t i l)%nat by (apply empty_slots_le; intros k Hk; apply Hle, elem_of_app; by left). lia.
  - change (p / BSIZE :: ?l) with ([p / BSIZE] ++ l). rewrite empty_slots_app, empty_slots_one.
    destruct (Z.leb_spec NDIRECT (p / BSIZE)) as [Hd|Hd]; cbn [andb]; [rewrite empty_slots_one, slot_ind; cbn; lia|cbn; lia].
Qed.

Lemma cost_le_missing t i p e : 0 <= p < e -> e <= MAXFILE * BSIZE -> (cost t i (p / BSIZE) <= missing t i p e)%nat.
Proof.
  intros Hp He. unfold missing, cost, needs. replace (p <? e) with true by zcase. cbn [andb].
  assert (0 < blocks p e) as Hpos by (unfold blocks; replace (p <? e) with true by zcase; sizes; zmod). rewrite (seqZ_cons (p / BSIZE) (blocks p e)) by done.
  set (l := seqZ _ (Z.pred _)). change (p / BSIZE :: l) with ([p / BSIZE] ++ l). rewrite !empty_slots_app, empty_slots_one.
  destruct (Z.leb_spec NDIRECT (p / BSIZE)) as [Hd|Hd]; cbn [andb]; [|lia]. replace (NDIRECT <=? (e - 1) / BSIZE) with true by (sizes; symmetry; apply Z.leb_le; zmod).
  rewrite empty_slots_one, slot_ind. lia.
Qed.

Lemma missing_put s L (Hf : files_ok s L) i (Hi : i ∈ L) k (Hk : 0 <= k < MAXFILE) (Hs : slot_of s i k <> 0) d p e :
  missing (blk_put (slot_of s i k) d s) i p e = missing s i p e.
Proof.
  unfold missing, empty_slots. f_equal. apply filter_same. intros k' _. by rewrite (put_slot s L Hf i Hi k Hk Hs d i k' Hi).
Qed.

(** The loop of writei(), from [tot] on *)
Lemma writei_loop_ok L i user off n f s : i ∈ L -> 0 <= off -> off + n <= MAXFILE * BSIZE -> forall src,
  0 <= src -> src + n <= 2 ^ 64 -> (forall j, 0 <= j < n -> f j = mget (id_kern s) (src + j)) ->
  forall fuel tot t, 0 <= tot <= n -> written s t L i off tot f -> forall spare, (missing t i (off + tot) (off + n) + spare <= room t)%nat ->
  blocks (off + tot) (off + n) < Z.of_nat fuel ->
  exists u, writei_loop itl fuel i user (u64 (src + tot)) (off + tot) n tot t = Ret (n, off + n) u /\ written s u L i off n f /\ (spare <= room u)%nat.
Proof.
  intros Hi Hoff Hmax src Hsrc Hwrap Hfs fuel. induction fuel as [|fuel IH]; intros tot t Htot Hw spare Hav Hfuel.
  { unfold blocks in Hfuel. sizes. zcase; zmod. }
  cbn [writei_loop]. destruct (Z.ltb_spec tot n) as [Hlt|Hge]; cbn [negb].
  2: { assert (tot = n) as -> by lia. exists t. split_and!; [done|done|lia]. }
  erewrite bind_ret by done. set (p := off + tot) in *. set (m := Z.min (n - tot) (BSIZE - p mod BSIZE)).
  assert (0 <= p mod BSIZE < BSIZE) as Hpm by (apply Z.mod_pos_bound; done).
  destruct (blocks_next p (off + n) m) as [Hb Hm]; [unfold p; lia|unfold m, p; lia|].
  assert (0 <= p < off + n /\ m = Z.min (off + n - p) (BSIZE - p mod BSIZE)) as [Hp Em] by (unfold m, p; lia).
  assert (cost t i (p / BSIZE) <= room t)%nat as Hcost.
  { etrans; [|exact Hav]. etrans; [apply (cost_le_missing t i p (off + n)); [lia|lia]|lia]. }
  destruct (bmap_maps t L i (p / BSIZE)) as (v & E & Hmap); [apply Hw|done|unfold p in *; sizes; zmod|done|].
  erewrite bind_ret by exact E. set (a := slot_of v i (p / BSIZE)) in *.
  assert (0 <= p / BSIZE < MAXFILE) as Hk by (unfold p in *; sizes; zmod).
  pose proof (put_block v L (gr_files _ _ _ _ (proj1 (proj2 Hmap))) i Hi (p / BSIZE) Hk (proj1 Hmap)) as Hblk. fold a in Hblk.
  pose proof (db_range _ _ Hblk) as Hr. pose proof (db_length _ _ Hblk) as Hlen.
  erewrite bind_ret by done. cbv zeta. fold m.
  assert (get_data (Z.to_nat a) v = Ret (id_blk v a) v) as Eg by (cbn; unfold gets; by rewrite Z2Nat.id by lia).
  erewrite bind_ret by exact Eg. set (l := bytes_at (src + tot) (Z.to_nat m) (id_kern s)).
  assert (length l = Z.to_nat m) as Hll by apply length_bytes_at.
  assert (os_copyin user (u64 (src + tot)) (take (Z.to_nat m) (drop (Z.to_nat (p mod BSIZE)) (id_blk v a))) v = Ret (0, l) v) as Ec.
  { cbn. unfold get, bind, ret. do 2 f_equal. unfold l. rewrite length_take, length_drop, Hlen, Nat.min_l by (unfold m; lia).
    replace (id_kern v) with (id_kern s); [|symmetry; apply outside_kern; rewrite (gr_kern _ _ _ _ (proj1 (proj2 Hmap))); apply Hw].
    f_equal. unfold u64. rewrite Z.mod_small by lia. done. }
  erewrite bind_ret by exact Ec. cbn [fst snd]. change (0 =? -1) with false. cbv iota.
  assert (forall (y : ideal) d, set_data (Z.to_nat a) d y = Ret tt (blk_put a d y)) as Es by (intros; cbn; by rewrite Z2Nat.id by lia).
  erewrite bind_ret by apply Es. do 2 (erewrite bind_ret by done).
  assert (Z.of_nat (length l) = m /\ m <= n - tot /\ m <= BSIZE - p mod BSIZE) as (Hlm & Hm1 & Hm2) by (rewrite Hll; unfold m; lia).
  pose proof (write_round s t v L i off tot f l Hw Hi Hoff ltac:(lia) ltac:(lia) ltac:(lia) ltac:(fold p; lia)) as Hround.
  cbv zeta in Hround. fold p a in Hround. rewrite Hll, Z2Nat.id in Hround by lia. set (w := blk_put _ _ v) in *.
  pose proof (missing_next t v L i p (off + n) m (wr_files _ _ _ _ _ _ _ Hw) Hi Hp Hmax Em Hmap) as Hmiss.
  assert (room w = room v) as Ew by exact (put_room v L (gr_files _ _ _ _ (proj1 (proj2 Hmap))) i Hi (p / BSIZE) Hk (proj1 Hmap) _).
  assert (u64 (u64 (src + tot) + m) = u64 (src + (tot + m))) as -> by (unfold u64; rewrite Zplus_mod_idemp_l; f_equal; lia).
  assert (u32 (p + m) = off + (tot + m)) as -> by (unfold u32, p, m in *; sizes; rewrite Z.mod_small; lia).
  apply IH.
  - unfold m; lia.
  - apply Hround; [|done]. intros j Hj. unfold l. rewrite nth_bytes_at by lia. rewrite Hfs by (unfold m in *; lia). f_equal. lia.
  - replace (off + (tot + m)) with (p + m) by (unfold p; lia). rewrite Ew. destruct Hmap as (Hs & Hg & Ha & _).
    assert (missing w i (p + m) (off + n) = missing v i (p + m) (off + n)) as -> by exact (missing_put v L (gr_files _ _ _ _ Hg) i Hi (p / BSIZE) Hk Hs _ (p + m) (off + n)). lia.
  - replace (off + (tot + m)) with (p + m) by (unfold p; lia). lia.
Qed.

(** ** iupdate() *)

Definition as_dinode (x : inode) : dinode := mkdinode (i_type x) (i_major x) (i_minor x) (i_nlink x) (i_size x) (i_addrs x).

(** The inode on disk is that in memory. *)
Definition on_disk (s : ideal) (i : nat) : Prop :=
  get_dinode (dinode_off (i_inum (node s i))) (id_blk s (IBLOCK (i_inum (node s i)) (sbl s))) = as_dinode (node s i).

Lemma as_dinode_wf s L i : files_ok s L -> i ∈ L -> dinode_wf (as_dinode (node s i)).
Proof.
  intros Hf Hi. destruct (fo_inode _ _ Hf i Hi) as [_ Hl Hs Hsh _]. apply Forall_cons in Hsh as [H1 Hsh]. apply Forall_cons in Hsh as [H2 Hsh].
  apply Forall_cons in Hsh as [H3 Hsh]. apply Forall_cons in Hsh as [H4 _]. split; try done.
  - cbn. sizes. lia.
  - cbn. split; [done|]. apply Forall_lookup. intros k a Ha. pose proof (lookup_lt_Some _ _ _ Ha) as Hk.
    assert (exists k', in_slots k' /\ slot_of s i k' = a) as (k' & Hk' & <-).
    { destruct (decide (k = 12%nat)) as [->|Hne].
      - exists MAXFILE. split; [apply max_in_slots|]. change (ind_of (node s i) = a). unfold ind_of. by rewrite nth_lookup, Ha.
      - exists (Z.of_nat k). split; [sizes; lia|]. unfold slot. replace (Z.of_nat k <? NDIRECT) with true by (sizes; zcase; done).
        by rewrite Nat2Z.id, nth_lookup, Ha. }
    destruct (fo_data _ _ Hf i k' Hi Hk') as [->|Hb]; [lia|]. pose proof (db_range _ _ Hb). pose proof (mo_size _ (dk_map _ (fo_disk _ _ Hf))). lia.
Qed.

(** A block of inodes is written. *)
Section Inode.
Context (s : ideal) (L : list nat) (Hf : files_ok s L) (inum : Z) (Hn : 0 <= inum < sb_ninodes (sbl s)).
Context (d : list Z) (Hd : length d = Z.to_nat BSIZE).
Notation b := (IBLOCK inum (sbl s)).
Notation u := (blk_put b d s).

Lemma inode_put_used y : 0 <= y < sb_size (sbl s) -> used u y = used s y.
Proof using Hf Hn. clear Hd. intros Hy. apply used_zeroed. by destruct (dk_inode _ (fo_disk _ _ Hf) inum Hn) as (_ & _ & _ & H); apply H. Qed.

Lemma inode_put_data a : data_block s a -> id_blk u a = id_blk s a.
Proof using Hn. clear Hd. intros Ha. apply blk_put_ne. by apply not_eq_sym, (db_inode _ _ Ha). Qed.

Lemma inode_put_block a : data_block s a -> data_block u a.
Proof using Hf Hn.
  clear Hd. intros Ha. pose proof (inode_put_data a Ha) as E. destruct Ha as [H1 H2 H3 H4 H5]. split; [done| |done|done|by rewrite E].
  rewrite inode_put_used by lia. done.
Qed.

Lemma inode_put_slot j k : j ∈ L -> slot_of u j k = slot_of s j k.
Proof using Hf Hn.
  clear Hd. intros Hj. apply slot_blocks. intros Hne. apply inode_put_data. destruct (fo_data _ _ Hf j MAXFILE Hj max_in_slots) as [?|?]; done.
Qed.

Lemma inode_put_byte j o : j ∈ L -> 0 <= o < MAXFILE * BSIZE -> byte_of (id_blk u) (node u j) o = byte_of (id_blk s) (node s j) o.
Proof using Hf Hn.
  clear Hd. intros Hj Ho. unfold byte_of. rewrite inode_put_slot by done. destruct (Z.eqb_spec (slot_of s j (o / BSIZE)) 0); [done|].
  rewrite inode_put_data; [done|]. destruct (fo_data _ _ Hf j (o / BSIZE) Hj) as [?|?]; [sizes; zmod|done|done].
Qed.

Lemma inode_put_files : files_ok u L.
Proof.
  destruct (dk_inode _ (fo_disk _ _ Hf) inum Hn) as (B1 & B2 & B3 & B4).
  split; [|apply Hf| | |].
  - destruct (fo_disk _ _ Hf) as [[M1 M2 M3] H0 Hlt Hi]. split; [split; [done| |]| |exact Hlt|].
    + intros x Hx. rewrite blk_put_ne; [by apply M2|by apply B4].
    + intros x y Hx Hy E. rewrite inode_put_used by done. by apply (M3 x y).
    + rewrite inode_put_used; [done|]. change (0 <= 0 < sb_size (sbl s)). lia.
    + intros inum' Hn'. destruct (Hi inum' Hn') as (E1 & E2 & E3 & E4). split; [done|]. rewrite inode_put_used by done. split; [done|]. split; [|done].
      change (sbl u) with (sbl s). destruct (decide (IBLOCK inum' (sbl s) = b)) as [->|Hne]; [by rewrite blk_put_eq|]. by rewrite blk_put_ne.
  - intros j Hj. destruct (fo_inode _ _ Hf j Hj) as [N1 N2 N3 N4 N5]. split; [done..|]. intros k H1 H2. change (slot_of u j k <> 0). rewrite inode_put_slot by done. by apply N5.
  - intros j k Hj Hk. rewrite inode_put_slot by done. destruct (fo_data _ _ Hf j k Hj Hk); [by left|right; by apply inode_put_block].
  - intros j j' k k' Hj Hj' Hk Hk'. rewrite !inode_put_slot by done. by apply (fo_apart _ _ Hf).
Qed.

Lemma inode_put_room : room u = room s.
Proof using Hf Hn.
  clear Hd. unfold room, free_blocks. change (sbl u) with (sbl s). f_equal. apply filter_same. intros y Hy%elem_of_seq.
  by rewrite inode_put_used by (done || lia).
Qed.
End Inode.

Lemma iupdate_ok s L i : files_ok s L -> i ∈ L -> exists d, length d = Z.to_nat BSIZE /\
  let u := blk_put (IBLOCK (i_inum (node s i)) (sbl s)) d s in
  iupdate itl i s = Ret tt u /\ on_disk u i /\
  forall j, j ∈ L -> i_inum (node s j) <> i_inum (node s i) -> on_disk s j -> on_disk u j.
Proof.
  intros Hf Hi. destruct (fo_inode _ _ Hf i Hi) as [Hn _ _ _ _]. destruct (dk_inode _ (fo_disk _ _ Hf) _ Hn) as (B1 & B2 & B3 & B4).
  set (x := node s i) in *. set (b := IBLOCK (i_inum x) (sbl s)) in *. assert (IPB = 16) as EI by done.
  exists (put_dinode (dinode_off (i_inum x)) (as_dinode x) (id_blk s b)). split; [by rewrite length_put_dinode|]. cbv zeta. split_and!.
  - unfold iupdate. do 3 (erewrite bind_ret by done). cbn. unfold bind, gets. change (geti (id_it s) i) with x.
    change (Z.of_nat (Z.to_nat (IBLOCK (i_inum x) (sbl s)))) with (Z.of_nat (Z.to_nat b)). by rewrite Z2Nat.id by lia.
  - unfold on_disk. change (node (blk_put _ _ s) i) with x. change (sbl (blk_put _ _ s)) with (sbl s). rewrite blk_put_eq.
    apply get_put_dinode_same; [by apply (as_dinode_wf s L)|]. rewrite B3. change (Z.to_nat BSIZE) with 1024%nat. unfold dinode_off. rewrite EI. zmod.
  - intros j Hj Hne Hod. unfold on_disk. change (node (blk_put _ _ s) j) with (node s j). change (sbl (blk_put _ _ s)) with (sbl s).
    destruct (decide (IBLOCK (i_inum (node s j)) (sbl s) = b)) as [E|E]; [|by rewrite blk_put_ne].
    rewrite E, blk_put_eq, get_put_dinode_other; [by rewrite <- E|by apply (as_dinode_wf s L)|].
    destruct (fo_inode _ _ Hf j Hj) as [Hnj _ _ _ _]. pose proof (dk_ninodes _ (fo_disk _ _ Hf)).
    unfold b, IBLOCK, u32, dinode_off in *. rewrite EI in *. assert (i_inum (node s j) / 16 = i_inum x / 16) as Eq by zmod. zmod.
Qed.

(** An entry of the table is replaced by one with the same blocks. *)
Lemma node_files s L i x : files_ok s L -> i ∈ L -> inode_ok s x -> i_addrs x = i_addrs (node s i) -> files_ok (with_node i x s) L.
Proof.
  intros Hf Hi Hx Ea. pose proof (fo_table _ _ Hf i Hi) as Hlt.
  assert (forall j, node (with_node i x s) j = if decide (j = i) then x else node s j) as Hn by (intros j; by apply node_with).
  assert (forall j k, slot_of (with_node i x s) j k = slot_of s j k) as Hsl.
  { intros j k. rewrite Hn. case_decide; [subst|done]. unfold slot, ind_of. by rewrite Ea. }
  destruct Hf as [Fd Ft Fi Fb Fa]. split.
  - by apply disk_with.
  - intros j Hj. change (j < length (<[i := x]> (it_inode (id_it s))))%nat. rewrite length_insert. by apply Ft.
  - intros j Hj. rewrite Hn. case_decide as E; [destruct Hx|destruct (Fi j Hj)]; by split.
  - intros j k Hj Hk. rewrite Hsl. destruct (Fb j k Hj Hk); [by left|right; by apply data_with].
  - intros j j' k k' Hj Hj' Hk Hk'. rewrite !Hsl. by apply Fa.
Qed.

(** The size changes. *)
Lemma resize_files s L i v : files_ok s L -> i ∈ L -> 0 <= v <= MAXFILE * BSIZE -> (forall k, 0 <= k -> k * BSIZE < v -> slot_of s i k <> 0) ->
  files_ok (with_node i ((node s i) <| i_size := v |>) s) L.
Proof. intros Hf Hi Hv Hfull. apply node_files; [done|done| |done]. destruct (fo_inode _ _ Hf i Hi) as [N1 N2 N3 N4 N5]. by split. Qed.

(** The bytes of a file, one by one *)
Lemma length_content s i : length (content s i) = Z.to_nat (i_size (node s i)).
Proof. unfold content. by rewrite length_fmap, length_seq. Qed.

Lemma nth_content s i j : nth j (content s i) 0 = if decide (Z.of_nat j < i_size (node s i)) then byte_of (id_blk s) (node s i) (Z.of_nat j) else 0.
Proof.
  rewrite nth_lookup. unfold content. rewrite list_lookup_fmap. case_decide as E.
  - by rewrite lookup_seq_lt by lia.
  - by rewrite lookup_seq_ge by lia.
Qed.

Lemma nth_ext (l l' : list Z) : length l = length l' -> (forall j, (j < length l)%nat -> nth j l 0 = nth j l' 0) -> l = l'.
Proof.
  intros Hl Hn. apply list_eq_same_length with (n := length l); [done..|]. intros j x y Hj Hx Hy. specialize (Hn j Hj).
  rewrite !nth_lookup, Hx, Hy in Hn. exact Hn.
Qed.

Lemma content_same s t i : i_size (node t i) = i_size (node s i) -> 0 <= i_size (node s i) <= MAXFILE * BSIZE ->
  (forall o, 0 <= o < MAXFILE * BSIZE -> byte_of (id_blk t) (node t i) o = byte_of (id_blk s) (node s i) o) -> content t i = content s i.
Proof.
  intros Es Hr Hb. unfold content. rewrite Es. apply list_fmap_ext. intros k x Hx. apply lookup_seq in Hx as [-> Hk]. apply Hb. lia.
Qed.

Lemma blocks_bound off n : 0 <= off -> 0 <= n -> blocks off (off + n) < n / BSIZE + 3.
Proof. intros H1 H2. unfold blocks. sizes. zcase; zmod. Qed.

(** All of an entry that a write does not change *)
Definition frame (x : inode) : inode := x <| i_addrs := [] |> <| i_size := 0 |>.

(** Nothing but the disk, and the blocks and the size of file [i], has changed. *)
Record beside (s t : ideal) (i : nat) : Prop := {
  be_others : forall j, j <> i -> node t j = node s j;
  be_node : frame (node t i) = frame (node s i);
  be_sb : sbl t = sbl s;
  be_table : length (it_inode (id_it t)) = length (it_inode (id_it s));
  be_outside : outside t = outside s;
}.

Lemma beside_trans s t u i : beside s t i -> beside t u i -> beside s u i.
Proof. intros [A1 A2 A3 A4 A5] [B1 B2 B3 B4 B5]. split; try congruence. intros j Hj. rewrite B1 by done. by apply A1. Qed.

Lemma meta_frame x y : meta x = meta y -> frame x = frame y.
Proof. destruct x, y. intros [=]. by subst. Qed.

Lemma frame_fields x y : frame x = frame y ->
  i_dev x = i_dev y /\ i_inum x = i_inum y /\ i_ref x = i_ref y /\ i_lock x = i_lock y /\ i_valid x = i_valid y /\ i_type x = i_type y /\ i_nlink x = i_nlink y.
Proof. destruct x, y. intros [=]. by subst. Qed.

Lemma written_beside s t L i off tot f : written s t L i off tot f -> beside s t i.
Proof. intros Hw. split; try apply Hw. apply meta_frame, Hw. Qed.

(** The end of writei(): the size grows, and the inode is written. *)
Lemma grow_size s t L i off n f : i ∈ L -> written s t L i off n f -> 0 <= off -> 0 <= n -> off + n <= MAXFILE * BSIZE -> files_ok s L ->
  exists u, when (i_size (node t i) <? off + n) (imod itl i (fun x => x <| i_size := off + n |>)) t = Ret tt u /\
  files_ok u L /\ id_blk u = id_blk t /\ beside t u i /\ (forall j, i_addrs (node u j) = i_addrs (node t j)) /\
  i_size (node u i) = Z.max (i_size (node s i)) (off + n).
Proof.
  intros Hi Hw Hoff Hn Hmax Hf. destruct (meta_size _ _ (wr_meta _ _ _ _ _ _ _ Hw i)) as [Es _].
  destruct (Z.ltb_spec (i_size (node t i)) (off + n)) as [Hlt|Hge].
  - exists (with_node i ((node t i) <| i_size := off + n |>) t). split; [done|].
    assert (i < length (it_inode (id_it t)))%nat as Hti by (apply (fo_table _ _ (wr_files _ _ _ _ _ _ _ Hw)), Hi).
    assert (forall j, node (with_node i ((node t i) <| i_size := off + n |>) t) j = if decide (j = i) then (node t i) <| i_size := off + n |> else node t j) as Hnode
      by (intros j; by apply node_with).
    split_and!; try done.
    + apply resize_files; [apply Hw|done|lia|]. intros k Hk Hlt'. by apply (wr_full _ _ _ _ _ _ _ Hw).
    + split; try done; [intros j Hj; by rewrite Hnode, decide_False|by rewrite Hnode, decide_True|apply length_insert].
    + intros j. rewrite Hnode. case_decide; [by subst|done].
    + rewrite Hnode, decide_True by done. cbn. lia.
  - exists t. split; [done|]. split_and!; try done; [apply Hw|lia].
Qed.

Lemma byte_of_addrs B x y o : i_addrs x = i_addrs y -> byte_of B x o = byte_of B y o.
Proof. intros E. unfold byte_of, slot, ind_of. by rewrite E. Qed.

(** The file after the write *)
Lemma content_written s w i src off n : 0 <= off <= i_size (node s i) -> 0 <= n -> off + n <= MAXFILE * BSIZE -> i_size (node s i) <= MAXFILE * BSIZE ->
  i_size (node w i) = Z.max (i_size (node s i)) (off + n) ->
  (forall o, 0 <= o < MAXFILE * BSIZE -> byte_of (id_blk w) (node w i) o =
    if decide (off <= o < off + n) then mget (id_kern s) (src + (o - off)) else byte_of (id_blk s) (node s i) o) ->
  content w i = splice (Z.to_nat off) (bytes_at src (Z.to_nat n) (id_kern s)) (content s i).
Proof.
  intros Ho Hn Hmax Hsz Es Hb. apply nth_ext.
  - unfold splice. rewrite !length_app, length_take, length_drop, length_bytes_at, !length_content, Es. lia.
  - intros j Hj. rewrite length_content, Es in Hj. rewrite nth_splice by (rewrite length_content; lia). rewrite length_bytes_at, !nth_content, Es.
    rewrite decide_True by lia. rewrite Hb by lia.
    destruct (decide (off <= Z.of_nat j < off + n)), (decide (Z.to_nat off <= j < Z.to_nat off + Z.to_nat n)%nat); try (exfalso; lia).
    + rewrite nth_bytes_at by lia. by replace (src + Z.of_nat (j - Z.to_nat off)) with (src + (Z.of_nat j - off)) by lia.
    + by rewrite decide_True by lia.
Qed.

Lemma on_disk_same s t j : node t j = node s j -> sbl t = sbl s -> id_blk t (IBLOCK (i_inum (node s j)) (sbl s)) = id_blk s (IBLOCK (i_inum (node s j)) (sbl s)) ->
  on_disk s j -> on_disk t j.
Proof. intros E1 E2 E3. unfold on_disk. by rewrite E1, E2, E3. Qed.

Lemma writei_refuses (s : ideal) (i : nat) (user : bool) (src off n : Z) : 0 <= off < 2 ^ 32 -> 0 <= n < 2 ^ 32 ->
  i_size (node s i) < off \/ MAXFILE * BSIZE < off + n -> writei itl i user src off n s = Ret (-1) s.
Proof.
  intros Hoff Hn Hbad. unfold writei. erewrite bind_ret by done. change (lget (il itl i) s) with (node s i). unfold u32.
  destruct (Z.ltb_spec (i_size (node s i)) off); [done|]. destruct (Z.ltb_spec ((off + n) mod 2 ^ 32) off); [done|]. cbn [orb].
  assert ((off + n) mod 2 ^ 32 = off + n) as -> by zmod. destruct (Z.ltb_spec (MAXFILE * BSIZE) (off + n)); [done|lia].
Qed.

Lemma writei_ok (s : ideal) (L : list nat) (i : nat) (user : bool) (src off n : Z)
  (Hf : files_ok s L) (Hi : i ∈ L) (Hoff : 0 <= off < 2 ^ 32) (Hn : 0 <= n < 2 ^ 32) (Hsrc : 0 <= src < 2 ^ 64 /\ src + n <= 2 ^ 64) :
  off <= i_size (node s i) -> off + n <= MAXFILE * BSIZE -> forall spare, (missing s i off (off + n) + spare <= room s)%nat ->
   returns (writei itl i user src off n) s (fun r t =>
     r = n /\ files_ok t L /\ content t i = splice (Z.to_nat off) (bytes_at src (Z.to_nat n) (id_kern s)) (content s i) /\
     (forall j, j ∈ L -> j <> i -> content t j = content s j) /\
     on_disk t i /\ (forall j, j ∈ L -> i_inum (node s j) <> i_inum (node s i) -> on_disk s j -> on_disk t j) /\ beside s t i /\ (spare <= room t)%nat /\
     (forall k, 0 <= k -> k * BSIZE < off + n -> slot_of t i k <> 0) /\ (forall k, in_slots k -> slot_of s i k <> 0 -> slot_of t i k <> 0)).
Proof.
  unfold writei. intros Hsize Hmax spare Hav. apply returns_bind. eapply returns_intro; [done|]. change (lget (il itl i) s) with (node s i).
  assert (u32 (off + n) = off + n) as -> by (apply Z.mod_small; sizes; lia).
  replace (i_size (node s i) <? off) with false by zcase. replace (off + n <? off) with false by zcase. cbn [orb].
  replace (MAXFILE * BSIZE <? off + n) with false by (symmetry; apply Z.ltb_ge; lia). set (f := fun j => mget (id_kern s) (src + j)).
  destruct (writei_loop_ok L i user off n f s Hi ltac:(lia) Hmax src ltac:(lia) ltac:(lia) ltac:(done) (Z.to_nat (n / BSIZE) + 3) 0 s)
    with (spare := spare) as (u & E & Hw & Hspare); [lia|by apply written_start|by rewrite Z.add_0_r| |].
  { rewrite Z.add_0_r. pose proof (blocks_bound off n ltac:(lia) ltac:(lia)). assert (0 <= n / BSIZE) by (sizes; zmod). lia. }
  replace (u64 (src + 0)) with src in E; [|unfold u64; rewrite Z.add_0_r; symmetry; apply Z.mod_small; lia].
  rewrite Z.add_0_r in E.
  apply returns_bind. eapply returns_intro; [exact E|]. apply returns_bind. eapply returns_intro; [done|]. change (lget (il itl i) u) with (node u i). cbn [fst snd].
  destruct (grow_size s u L i off n f Hi Hw ltac:(lia) ltac:(lia) Hmax Hf) as (v & Ev & Fv & Bv & Hbv & Av & Zv).
  pose proof (beside_trans _ _ _ _ (written_beside _ _ _ _ _ _ _ Hw) Hbv) as Hb. pose proof (be_others _ _ _ Hb) as Ov.
  apply returns_bind. eapply returns_intro; [exact Ev|]. destruct (iupdate_ok v L i Fv Hi) as (d & Hd & Ei & Hod & Hoth).
  apply returns_bind. eapply returns_intro; [exact Ei|]. apply returns_ret. set (w := blk_put _ d v) in *.
  destruct (fo_inode _ _ Fv i Hi) as [Hnum _ _ _ _]. assert (i_inum (node v i) = i_inum (node s i)) as Enum by (by destruct (frame_fields _ _ (be_node _ _ _ Hb)) as (_ & ? & _)).
  assert (forall j o, j ∈ L -> 0 <= o < MAXFILE * BSIZE -> byte_of (id_blk w) (node w j) o =
    if decide (j = i /\ off <= o < off + n) then f (o - off) else byte_of (id_blk s) (node s j) o) as Hbytes.
  { intros j o Hj Ho. etrans; [exact (inode_put_byte v L Fv _ Hnum d j o Hj Ho)|]. rewrite Bv, (byte_of_addrs _ _ _ _ (Av j)). by apply (wr_bytes _ _ _ _ _ _ _ Hw). }
  assert (forall k, slot_of w i k = slot_of u i k) as Hslots.
  { intros k. etrans; [exact (inode_put_slot v L Fv _ Hnum d i k Hi)|]. unfold slot, ind_of. by rewrite Bv, (Av i). }
  split_and!.
  + unfold i32. sizes. rewrite Z.mod_small; lia.
  + exact (inode_put_files v L Fv _ Hnum d Hd).
  + apply (content_written s w i src off n); try done; try lia; [by apply (no_size _ _ (fo_inode _ _ Hf i Hi))|]. intros o Ho. rewrite Hbytes by done.
    by destruct (decide (i = i /\ off <= o < off + n)), (decide (off <= o < off + n)); tauto.
  + intros j Hj Hne. apply content_same.
    * change (i_size (node v j) = i_size (node s j)). by rewrite Ov.
    * apply (no_size _ _ (fo_inode _ _ Hf j Hj)).
    * intros o Ho. rewrite Hbytes by done. by rewrite decide_False by tauto.
  + exact Hod.
  + intros j Hj Hne Hd0. assert (j <> i) as Hji by (intros ->; done). destruct (fo_inode _ _ Hf j Hj) as [Hnj _ _ _ _]. apply Hoth; [done|by rewrite Enum, Ov|].
    eapply on_disk_same; [by apply Ov|by apply Hb| |exact Hd0]. rewrite Bv. by apply (wr_inode _ _ _ _ _ _ _ Hw).
  + by destruct Hb.
  + etrans; [exact Hspare|]. assert (room v = room u) as <-. { unfold room, free_blocks. rewrite (be_sb _ _ _ Hbv). f_equal. apply filter_same. intros y _. unfold used. by rewrite Bv, (be_sb _ _ _ Hbv). }
    by rewrite <- (inode_put_room v L Fv _ Hnum d).
  + intros k Hk Hlt. rewrite Hslots. by apply (wr_full _ _ _ _ _ _ _ Hw).
  + intros k Hk H0. rewrite Hslots. by apply (wr_slots _ _ _ _ _ _ _ Hw).
Qed.

(** ** readi() *)

Definition with_kern (m : mem) (s : ideal) : ideal := s <| id_kern := m |>.

Lemma files_kern m s L : files_ok s L -> files_ok (with_kern m s) L.
Proof.
  intros [[[M1 M2 M3] H0 H1 Hi] Ft Fi Fb Fa]. split; [split; [split|..]|..]; try done.
  - intros j Hj. destruct (Fi j Hj). by split.
  - intros j k Hj Hk. destruct (Fb j k Hj Hk) as [?|[]]; [by left|right]. by split.
Qed.

(** The bytes that one round of readi() copies *)
Lemma block_bytes s i p m : let a := slot_of s i (p / BSIZE) in a <> 0 -> length (id_blk s a) = Z.to_nat BSIZE -> 0 <= p ->
  Z.of_nat m <= BSIZE - p mod BSIZE -> p + Z.of_nat m <= i_size (node s i) ->
  take m (drop (Z.to_nat (p mod BSIZE)) (id_blk s a)) = take m (drop (Z.to_nat p) (content s i)).
Proof.
  intros a Ha Hl Hp Hm Hs. assert (0 <= p mod BSIZE < BSIZE) by (apply Z.mod_pos_bound; done). apply nth_ext.
  - rewrite !length_take, !length_drop, length_content, Hl. sizes. lia.
  - intros j Hj. rewrite length_take, length_drop, Hl in Hj. rewrite !nth_lookup, !lookup_take_lt, !lookup_drop, <- !nth_lookup by lia.
    rewrite nth_content, decide_True by lia. unfold byte_of. replace (Z.of_nat (Z.to_nat p + j) / BSIZE) with (p / BSIZE) by (sizes; zmod).
    fold a. replace (a =? 0) with false by zcase. f_equal. sizes. zmod.
Qed.

Lemma put_bytes_app a l1 l2 m : put_bytes a (l1 ++ l2) m = put_bytes (a + Z.of_nat (length l1)) l2 (put_bytes a l1 m).
Proof.
  revert a m. induction l1 as [|b l1 IH]; intros a m; cbn [app put_bytes length]; [by rewrite Z.add_0_r|]. rewrite IH. f_equal. lia.
Qed.

Lemma readi_loop_ok s L i user dst off n : files_ok s L -> i ∈ L -> 0 <= off -> off + n <= i_size (node s i) -> 0 <= dst -> dst + n <= 2 ^ 64 ->
  let data := take (Z.to_nat n) (drop (Z.to_nat off) (content s i)) in
  forall fuel tot, 0 <= tot <= n -> blocks (off + tot) (off + n) < Z.of_nat fuel ->
  readi_loop itl fuel i user (u64 (dst + tot)) (off + tot) n tot (with_kern (put_bytes dst (take (Z.to_nat tot) data) (id_kern s)) s) =
  Ret n (with_kern (put_bytes dst data (id_kern s)) s).
Proof.
  intros Hf Hi Hoff Hsz Hdst Hwrap data. assert (length data = Z.to_nat n) as Hdl by (unfold data; rewrite length_take, length_drop, length_content; lia).
  destruct (fo_inode _ _ Hf i Hi) as [_ _ Hmax _ Hfull]. induction fuel as [|fuel IH]; intros tot Htot Hfuel.
  { unfold blocks in Hfuel. sizes. zcase; zmod. }
  cbn [readi_loop]. destruct (Z.ltb_spec tot n) as [Hlt|Hge]; cbn [negb].
  2: { assert (tot = n) as -> by lia. by rewrite take_ge by lia. }
  set (t := with_kern _ s). set (p := off + tot) in *. set (m := Z.min (n - tot) (BSIZE - p mod BSIZE)).
  assert (0 <= p mod BSIZE < BSIZE) as Hpm by (apply Z.mod_pos_bound; done).
  destruct (blocks_next p (off + n) m) as [Hb Hm]; [unfold p; lia|unfold m, p; lia|].
  assert (0 <= p / BSIZE < MAXFILE) as Hk by (unfold p in *; sizes; zmod).
  assert (slot_of s i (p / BSIZE) <> 0) as Hs by (apply Hfull; [lia|unfold p in *; sizes; zmod]).
  erewrite bind_ret by done. destruct (bmap_maps t L i (p / BSIZE)) as (v & E & _ & _ & _ & Hv & _); [by apply files_kern|done|done|rewrite cost_zero by done; lia|].
  rewrite (Hv Hs) in E. erewrite bind_ret by exact E. change (slot_of t i (p / BSIZE)) with (slot_of s i (p / BSIZE)).
  set (a := slot_of s i (p / BSIZE)) in *. pose proof (put_block s L Hf i Hi (p / BSIZE) Hk Hs) as Hblk. fold a in Hblk. pose proof (db_range _ _ Hblk) as Hr.
  erewrite bind_ret by done. cbv zeta. fold m. assert (get_data (Z.to_nat a) t = Ret (id_blk s a) t) as Eg by (cbn; unfold gets; by rewrite Z2Nat.id by lia).
  erewrite bind_ret by exact Eg. assert (Z.to_nat m <= Z.to_nat n)%nat as Hmn by (unfold m; lia).
  assert (take (Z.to_nat m) (drop (Z.to_nat (p mod BSIZE)) (id_blk s a)) = take (Z.to_nat m) (drop (Z.to_nat tot) data)) as ->.
  { unfold a. rewrite block_bytes; [|done|apply Hblk|unfold p; lia|unfold m; lia|unfold m, p; lia].
    unfold data. rewrite skipn_firstn_comm, drop_drop, take_take, Nat.min_l by (unfold m; lia). do 2 f_equal. unfold p. lia. }
  erewrite bind_ret by done. change (0 =? -1) with false. cbv iota. erewrite bind_ret by done.
  assert (u64 (u64 (dst + tot) + m) = u64 (dst + (tot + m))) as -> by (unfold u64; rewrite Zplus_mod_idemp_l; f_equal; lia).
  assert (u32 (p + m) = off + (tot + m)) as -> by (unfold u32, p, m in *; sizes; rewrite Z.mod_small; lia).
  rewrite <- (IH (tot + m)) by (replace (off + (tot + m)) with (p + m) by (unfold p; lia); unfold m in *; lia). f_equal. unfold with_kern, t. cbn.
  f_equal. unfold u64. rewrite Z.mod_small by lia. rewrite Z2Nat.inj_add, <- take_take_drop, put_bytes_app by lia.
  do 2 f_equal. rewrite length_take, Hdl. lia.
Qed.

Lemma readi_beyond (s : ideal) (i : nat) (user : bool) (dst off n : Z) : 0 <= off < 2 ^ 32 -> 0 <= n < 2 ^ 32 ->
  i_size (node s i) < off \/ 2 ^ 32 <= off + n -> readi itl i user dst off n s = Ret 0 s.
Proof.
  intros Hoff Hn Hbad. unfold readi. erewrite bind_ret by done. change (lget (il itl i) s) with (node s i). unfold u32.
  destruct (Z.ltb_spec (i_size (node s i)) off); [done|]. replace ((off + n) mod 2 ^ 32 <? off) with true; [done|]. symmetry. apply Z.ltb_lt. zmod.
Qed.

Lemma readi_ok (s : ideal) (L : list nat) (i : nat) (user : bool) (dst off n : Z)
  (Hf : files_ok s L) (Hi : i ∈ L) (Hoff : 0 <= off < 2 ^ 32) (Hn : 0 <= n < 2 ^ 32) (Hdst : 0 <= dst < 2 ^ 64 /\ dst + n <= 2 ^ 64) :
  off <= i_size (node s i) -> off + n < 2 ^ 32 ->
   readi itl i user dst off n s =
     Ret (Z.min n (i_size (node s i) - off)) (with_kern (put_bytes dst (take (Z.to_nat n) (drop (Z.to_nat off) (content s i))) (id_kern s)) s).
Proof.
  unfold readi. pose proof (no_size _ _ (fo_inode _ _ Hf i Hi)) as Hsz. intros Hsize Hwrap. erewrite bind_ret by done. change (lget (il itl i) s) with (node s i). set (size := i_size (node s i)) in *.
  assert (u32 (off + n) = off + n) as -> by (apply Z.mod_small; lia). replace (size <? off) with false by zcase. replace (off + n <? off) with false by zcase. cbn [orb].
  assert ((if size <? off + n then u32 (size - off) else n) = Z.min n (size - off)) as ->.
  { unfold u32. sizes. destruct (Z.ltb_spec size (off + n)); [rewrite Z.mod_small by lia|]; lia. }
  set (k := Z.min n (size - off)). pose proof (blocks_bound off k ltac:(lia) ltac:(unfold k; lia)).
  pose proof (readi_loop_ok s L i user dst off k Hf Hi ltac:(lia) ltac:(unfold k, size in *; lia) ltac:(lia) ltac:(unfold k; lia) (Z.to_nat (k / BSIZE) + 3) 0) as E.
  rewrite !Z.add_0_r in E. assert (0 <= k) by (unfold k; lia). assert (0 <= k / BSIZE) by (sizes; zmod).
  assert (u64 dst = dst) as Ed by (apply Z.mod_small; lia). rewrite Ed in E. cbv zeta in E. change (Z.to_nat 0) with 0%nat in E. rewrite take_0 in E.
  cbn [put_bytes] in E. replace (with_kern (id_kern s) s) with s in E by (by destruct s). erewrite bind_ret by (apply E; lia). unfold ret. f_equal.
  + unfold i32. rewrite Z.mod_small; sizes; unfold k in *; lia.
  + do 2 f_equal. apply nth_ext.
    * rewrite !length_take, !length_drop, length_content. fold size. unfold k. lia.
    * intros j Hj. rewrite length_take, length_drop, length_content in Hj. fold size in Hj. unfold k in *. rewrite !nth_lookup, !lookup_take_lt by lia. done.
Qed.

(** ** Properties *)

(** C15: writei() against files that are lists of bytes.  It refuses to start beyond the end of
    the file, to wrap around, or to go past the largest file, and then changes nothing.
    Otherwise, when there are free blocks for the slots that are empty ([missing]; an overwrite
    needs none): it takes all [n] bytes; the file is what it was with
    them put in at [off], longer if need be; no other file changes a byte; all
    files stay well-formed, no block belonging to two of them; the inode on
    disk is the one in memory, in which only the blocks and the size have changed; and the inodes
    of other files on disk are as before. *)
Theorem writei_writes (s : ideal) (L : list nat) (i : nat) (user : bool) (src off n : Z)
  (Hf : files_ok s L) (Hi : i ∈ L) (Hoff : 0 <= off < 2 ^ 32) (Hn : 0 <= n < 2 ^ 32) (Hsrc : 0 <= src < 2 ^ 64 /\ src + n <= 2 ^ 64) :
  (i_size (node s i) < off \/ MAXFILE * BSIZE < off + n -> writei itl i user src off n s = Ret (-1) s) /\
  (off <= i_size (node s i) -> off + n <= MAXFILE * BSIZE -> (missing s i off (off + n) <= room s)%nat ->
   returns (writei itl i user src off n) s (fun r t =>
     r = n /\ files_ok t L /\ content t i = splice (Z.to_nat off) (bytes_at src (Z.to_nat n) (id_kern s)) (content s i) /\
     (forall j, j ∈ L -> j <> i -> content t j = content s j) /\
     on_disk t i /\ (forall j, j ∈ L -> i_inum (node s j) <> i_inum (node s i) -> on_disk s j -> on_disk t j) /\ beside s t i)).
Proof.
  split; [by apply writei_refuses|]. intros H1 H2 H3. eapply returns_mono; [apply (writei_ok s L i user src off n Hf Hi Hoff Hn Hsrc H1 H2 0%nat); lia|].
  intros r t (E1 & E2 & E3 & E4 & E5 & E6 & E7 & _). by split_and!.
Qed.

(** Readi() against files that are lists of bytes: it copies out the part of the file
    from [off] on, at most [n] bytes and not beyond the end, and nothing else changes.
    Beyond the end, or when [off] + [n] wraps around, it reads nothing. *)
Theorem readi_reads (s : ideal) (L : list nat) (i : nat) (user : bool) (dst off n : Z)
  (Hf : files_ok s L) (Hi : i ∈ L) (Hoff : 0 <= off < 2 ^ 32) (Hn : 0 <= n < 2 ^ 32) (Hdst : 0 <= dst < 2 ^ 64 /\ dst + n <= 2 ^ 64) :
  (i_size (node s i) < off \/ 2 ^ 32 <= off + n -> readi itl i user dst off n s = Ret 0 s) /\
  (off <= i_size (node s i) -> off + n < 2 ^ 32 ->
   readi itl i user dst off n s =
     Ret (Z.min n (i_size (node s i) - off)) (with_kern (put_bytes dst (take (Z.to_nat n) (drop (Z.to_nat off) (content s i))) (id_kern s)) s)).
Proof. split; [by apply readi_beyond|by apply (readi_ok s L)]. Qed.

(** ** Witnesses *)

(** A file with one block, 50, that holds [b]: inode 1, in table entry 3. *)
Definition wit_bits : list Z := replicate 5 255 ++ [127; 4] ++ replicate 1017 0.
Definition wit_node (type size : Z) : inode :=
  zero_inode <| i_ref := 1 |> <| i_dev := 1 |> <| i_inum := 1 |> <| i_type := type |> <| i_nlink := 1 |> <| i_size := size |> <| i_addrs := 50 :: replicate 12 0 |>.
Definition wit_with (type size : Z) (b : list Z) (m : mem) : ideal :=
  mkideal (mkcpu 0 None 0 false 0) (fun x => if x =? 45 then wit_bits else if x =? 50 then b else replicate 1024 7)
    (mkitable (initlock "itable") (<[3%nat := wit_node type size]> (replicate NINODE zero_inode)) wit_sb) m None (mkftable (initlock "ftable") (replicate NFILE zero_file)).

Lemma wit_inode_block inum : 0 <= inum < 20 -> IBLOCK inum wit_sb = 32 \/ IBLOCK inum wit_sb = 33.
Proof. intros Hn. assert (IPB = 16) as E by done. unfold IBLOCK, u32. rewrite E. cbn [sb_inodestart wit_sb]. zmod. Defined.

Section Witness.
Context (type size : Z) (b : list Z) (m : mem) (Htype : - 2 ^ 15 <= type < 2 ^ 15) (Hsize : 0 <= size <= 1024) (Hb : length b = 1024%nat).
Notation w := (wit_with type size b m).

Lemma wit_disk_ok : disk_ok w.
Proof.
  split.
  - constructor; cbn [id_it wit_with it_sb sb_size wit_sb]; [lia| |].
    + intros x Hx. change (mksuperblock _ _ _ _ _ _ _ _) with wit_sb. rewrite wit_BBLOCK by done. by vm_compute.
    + intros x y Hx Hy. change (mksuperblock _ _ _ _ _ _ _ _) with wit_sb. rewrite wit_BBLOCK by done. intros <-. by vm_compute.
  - by vm_compute.
  - by vm_compute.
  - intros inum Hn. change (sbl w) with wit_sb in *. change (sb_size wit_sb) with 100.
    assert (forall y, 0 <= y < 100 -> BBLOCK y wit_sb <> IBLOCK inum wit_sb) as Hno.
    { intros y Hy. rewrite wit_BBLOCK by done. destruct (wit_inode_block inum Hn) as [-> | ->]; lia. }
    destruct (wit_inode_block inum Hn) as [E | E]; rewrite E in *; (split; [lia|]); (split; [by vm_compute|]); (split; [by vm_compute|exact Hno]).
Defined.

Lemma wit_slot k : in_slots k -> slot_of w 3 k = if k =? 0 then 50 else 0.
Proof.
  intros Hk. unfold slot, ind_of. change (i_addrs (node w 3)) with (50 :: replicate 12 0). sizes. destruct (Z.eqb_spec k 0) as [->|Hne]; [done|].
  destruct (Z.ltb_spec k 12); [|by case_match]. replace (Z.to_nat k) with (S (Z.to_nat (k - 1))) by lia. apply nth_zeros.
Defined.

Lemma wit_files : files_ok w [3%nat].
Proof.
  split; [apply wit_disk_ok| | | |].
  - intros i ->%list_elem_of_singleton. change (3 < NINODE)%nat. unfold NINODE. lia.
  - intros i ->%list_elem_of_singleton. change (node w 3) with (wit_node type size). split; [by vm_compute|done|cbn; sizes; lia| |].
    + repeat constructor; cbn; lia.
    + intros k Hk Hlt. change (i_size (wit_node type size)) with size in Hlt. change (slot_of w 3 k <> 0).
      rewrite wit_slot by (sizes; lia). by replace (k =? 0) with true by (sizes; zcase; done).
  - intros i k ->%list_elem_of_singleton Hk. rewrite wit_slot by done. destruct (Z.eqb_spec k 0); [right|by left]. split; [by vm_compute|by vm_compute| | |exact Hb].
    + intros y Hy. change (sbl w) with wit_sb. by rewrite wit_BBLOCK.
    + intros inum Hn. change (sbl w) with wit_sb. destruct (wit_inode_block inum Hn) as [-> | ->]; lia.
  - intros i j k k' ->%list_elem_of_singleton ->%list_elem_of_singleton Hk Hk'. rewrite !wit_slot by done. by zcase.
Defined.
End Witness.

(** Three bytes, and in memory at 100 five to write *)
Definition wit_disk : ideal := wit_with 2 3 ([10; 20; 30] ++ replicate 1021 0) (put_bytes 100 [1; 2; 3; 4; 5] ∅).

Lemma wit_disk_files : files_ok wit_disk [3%nat].
Proof. apply wit_files; done. Defined.

(** Five bytes are written over the last of the three. *)
Lemma writei_writes_witness :
  returns (writei itl 3 false 100 2 5) wit_disk (fun r t => r = 5 /\ content t 3 = [10; 20; 1; 2; 3; 4; 5] /\ on_disk t 3).
Proof.
  eapply returns_mono; [apply (proj2 (writei_writes wit_disk [3%nat] 3 false 100 2 5 wit_disk_files ltac:(by left) ltac:(lia) ltac:(lia) ltac:(lia)));
    [by vm_compute|by vm_compute|apply Nat.leb_le; vm_compute; reflexivity]|].
  intros r t (H1 & _ & H2 & _ & H3 & _). split; [exact H1|]. split; [|exact H3]. rewrite H2. vm_compute. reflexivity.
Defined.

Lemma readi_reads_witness :
  readi itl 3 false 200 1 9 wit_disk = Ret 2 (with_kern (put_bytes 200 [20; 30] (id_kern wit_disk)) wit_disk).
Proof. exact (proj2 (readi_reads wit_disk [3%nat] 3 false 200 1 9 wit_disk_files ltac:(by left) ltac:(lia) ltac:(lia) ltac:(lia)) ltac:(by vm_compute) ltac:(lia)). Defined.
