(* ===== verification/Trunc.v ===== *)
(** * Trunc: the blocks of a file are given back

    itrunc() of [Fs] against the files of [Content]. *)
From S2P Require Import Prelude Spinlock Mem Os Sleeplock Bio Log Fs File FsSpec Content.

(** ** A block is freed *)

Section Freed.
Context (s : ideal) (x : Z) (Hd : disk_ok s) (Hx : data_block s x).

Lemma freed_used y : 0 <= y < sb_size (sbl s) -> used (freed s x) y = negb (y =? x) && used s y.
Proof. intros Hy. apply used_freed; [apply Hd|pose proof (db_range _ _ Hx); lia|done|apply Hx]. Qed.

Lemma freed_data a : data_block s a -> id_blk (freed s x) a = id_blk s a.
Proof. intros Ha. apply blk_put_ne. apply not_eq_sym, (db_map _ _ Ha). pose proof (db_range _ _ Hx). lia. Qed.

Lemma freed_inodes : inodes_same s (freed s x).
Proof.
  intros inum Hn. destruct (dk_inode _ Hd inum Hn) as (_ & _ & _ & H). apply blk_put_ne. apply not_eq_sym, H. pose proof (db_range _ _ Hx). lia.
Qed.

Lemma freed_block a : data_block s a -> a <> x -> data_block (freed s x) a.
Proof.
  intros Ha Hne. pose proof (freed_data a Ha) as E. pose proof (db_range _ _ Ha) as Hr. split; [done| |apply Ha|apply Ha|rewrite E; apply Ha].
  rewrite freed_used by lia. rewrite (db_used _ _ Ha). by replace (a =? x) with false by zcase.
Qed.

Lemma freed_disk : disk_ok (freed s x).
Proof.
  pose proof (db_range _ _ Hx) as Hr. destruct Hd as [[M1 M2 M3] H0 Hlt Hi]. split; [split; [done| |]| |exact Hlt|].
  - intros y Hy. change (sbl (freed s x)) with (sbl s). unfold freed. destruct (decide (BBLOCK y (sbl s) = BBLOCK x (sbl s))) as [->|E].
    + rewrite blk_put_eq, length_map_clear. apply M2. lia.
    + rewrite blk_put_ne by done. by apply M2.
  - intros y z Hy Hz E. rewrite freed_used by done. rewrite (M3 y z Hy Hz E). replace (z =? x) with false; [done|]. symmetry. apply Z.eqb_neq. intros ->.
    by apply (db_map _ _ Hx y Hy).
  - rewrite freed_used by lia. rewrite H0. by replace (0 =? x) with false by zcase.
  - intros inum Hn. destruct (Hi inum Hn) as (E1 & E2 & E3 & E4). split; [done|]. rewrite freed_used by done. change (sbl (freed s x)) with (sbl s). rewrite E2.
    replace (IBLOCK inum (sbl s) =? x) with false by (symmetry; apply Z.eqb_neq; by apply (db_inode _ _ Hx)). split; [done|]. split; [|done].
    by rewrite freed_inodes.
Qed.
End Freed.

(** ** Some blocks are given back *)

(** [u] is [s] with the blocks of [D] free: of the inodes in memory, only the addresses of [i] may differ. *)
Record released (s u : ideal) (i : nat) (D : list Z) : Prop := {
  re_disk : disk_ok u;
  re_used : forall y, 0 <= y < sb_size (sbl s) -> used u y = used s y && bool_decide (y ∉ D);
  re_data : forall a, data_block s a -> id_blk u a = id_blk s a;
  re_block : forall a, data_block s a -> a ∉ D -> data_block u a;
  re_inode : inodes_same s u;
  re_sb : sbl u = sbl s;
  re_kern : outside u = outside s;
  re_lock : it_lock (id_it u) = it_lock (id_it s);
  re_table : length (it_inode (id_it u)) = length (it_inode (id_it s));
  re_others : forall j, j <> i -> node u j = node s j;
  re_meta : meta (node u i) = meta (node s i);
}.

Lemma released_nil s i : disk_ok s -> released s s i [].
Proof. intros Hd. split; try done. intros y _. rewrite bool_decide_eq_true_2 by set_solver. by rewrite andb_true_r. Qed.

Lemma released_free s u i D x dev : released s u i D -> data_block s x -> x ∉ D ->
  bfree itl dev x u = Ret tt (freed u x) /\ released s (freed u x) i (D ++ [x]).
Proof.
  intros [R1 R2 R3 R4 R5 R6 R7 R8 R9 R10 R11] Hs Hnew. pose proof (R4 x Hs Hnew) as Hx. pose proof (db_range _ _ Hs) as Hr.
  split; [rewrite bfree_eq; by rewrite (db_used _ _ Hx)|]. split; try done.
  - by apply freed_disk.
  - intros y Hy. rewrite freed_used by (done || by rewrite R6). rewrite R2 by done. destruct (Z.eqb_spec y x) as [->|Hne]; cbn [negb andb].
    + symmetry. apply andb_false_iff. right. apply bool_decide_eq_false. set_solver.
    + f_equal. apply bool_decide_ext. set_solver.
  - intros a Ha. rewrite <- R3 by done. apply blk_put_ne. rewrite R6. apply not_eq_sym, (db_map _ _ Ha). lia.
  - intros a Ha Hn. apply freed_block; [done|done|apply R4; set_solver|set_solver].
  - eapply inodes_same_trans; [exact R6|exact R5|]. by apply freed_inodes.
Qed.

Lemma released_node s u i D x : released s u i D -> (i < length (it_inode (id_it u)))%nat -> meta x = meta (node s i) ->
  released s (with_node i x u) i D.
Proof.
  intros [R1 R2 R3 R4 R5 R6 R7 R8 R9 R10 R11] Hi Hm. split; try done.
  - by apply disk_with.
  - intros a Ha Hn. by apply data_with, R4.
  - change (length (<[i := x]> (it_inode (id_it u))) = length (it_inode (id_it s))). by rewrite length_insert.
  - intros j Hj. rewrite node_with, decide_False by done. by apply R10.
  - by rewrite node_with, decide_True.
Qed.

(** The blocks of the first [n] slots of a file *)
Definition owned (s : ideal) (i n : nat) : list Z := filter (fun a => a <> 0) ((fun k => slot_of s i (Z.of_nat k)) <$> seq 0 n).

Lemma owned_elem s i n a : a ∈ owned s i n <-> a <> 0 /\ exists k, (k < n)%nat /\ slot_of s i (Z.of_nat k) = a.
Proof.
  unfold owned. rewrite list_elem_of_filter, list_elem_of_fmap. split; intros [H (k & H1 & H2)]; (split; [done|]); exists k.
  - apply elem_of_seq in H2. split; [lia|done].
  - split; [done|]. apply elem_of_seq. lia.
Qed.

Lemma owned_next s i n : owned s i (S n) = owned s i n ++ (if slot_of s i (Z.of_nat n) =? 0 then [] else [slot_of s i (Z.of_nat n)]).
Proof.
  unfold owned. rewrite seq_S, fmap_app, filter_app. f_equal. change ((fun k => slot_of s i (Z.of_nat k)) <$> [(0 + n)%nat]) with [slot_of s i (Z.of_nat n)].
  rewrite filter_cons, filter_nil. by destruct (Z.eqb_spec (slot_of s i (Z.of_nat n)) 0), (decide (slot_of s i (Z.of_nat n) <> 0)).
Qed.

Lemma not_owned s i y : y ∉ owned s i (Z.to_nat (MAXFILE + 1)) <-> forall k, in_slots k -> slot_of s i k <> 0 -> slot_of s i k <> y.
Proof.
  rewrite owned_elem. split.
  - intros H k Hk H0 E. apply H. split; [by rewrite <- E|]. exists (Z.to_nat k). rewrite Z2Nat.id by (sizes; lia). split; [sizes; lia|done].
  - intros H (H0 & k & Hk & E). apply (H (Z.of_nat k)); [sizes; lia|by rewrite E|done].
Qed.

(** ** itrunc() *)

Definition nslots : nat := Z.to_nat (MAXFILE + 1).

Lemma zero_addrs_insert n l : (n < length l)%nat -> <[n := 0]> (replicate n 0 ++ drop n l) = replicate (S n) 0 ++ drop (S n) l.
Proof.
  intros Hn. rewrite insert_app_r_alt by (by rewrite length_replicate). rewrite length_replicate, Nat.sub_diag.
  destruct (lookup_lt_is_Some_2 l n Hn) as [a Ha]. rewrite (drop_S _ _ _ Ha).
  change (replicate n 0 ++ [0] ++ drop (S n) l = replicate (S n) 0 ++ drop (S n) l). by rewrite app_assoc, <- replicate_cons_app.
Qed.

Section Itrunc.
Context (s : ideal) (L : list nat) (Hf : files_ok s L) (i : nat) (Hi : i ∈ L).
Notation addrs := (i_addrs (node s i)).

Lemma owned_block k : in_slots k -> slot_of s i k <> 0 -> data_block s (slot_of s i k) /\ slot_of s i k ∉ owned s i (Z.to_nat k).
Proof.
  intros Hk Hne. split; [by destruct (fo_data _ _ Hf i k Hi Hk)|]. intros (_ & k' & Hk' & E)%owned_elem.
  destruct (fo_apart _ _ Hf i i (Z.of_nat k') k Hi Hi) as [_ ?]; try done; [sizes; lia|by rewrite E|lia].
Qed.

(** One more slot is given back, if it has a block. *)
Lemma release_slot u k dev : in_slots k -> slot_of s i k <> 0 -> released s u i (owned s i (Z.to_nat k)) ->
  exists t, bfree itl dev (slot_of s i k) u = Ret tt t /\ released s t i (owned s i (S (Z.to_nat k))) /\ id_it t = id_it u.
Proof.
  intros Hk Hne Hr. destruct (owned_block k Hk Hne) as [Hb Hn]. destruct (released_free s u i _ _ dev Hr Hb Hn) as [E H].
  exists (freed u (slot_of s i k)). split; [done|]. split; [|done]. rewrite owned_next, Z2Nat.id by (sizes; lia). by replace (slot_of s i k =? 0) with false by zcase.
Qed.

Lemma release_skip k : 0 <= k -> slot_of s i k = 0 -> owned s i (S (Z.to_nat k)) = owned s i (Z.to_nat k).
Proof. intros Hk E. by rewrite owned_next, Z2Nat.id, E, Z.eqb_refl, app_nil_r. Qed.

(** The first loop, over the blocks of the inode *)
Definition direct_body (k : nat) : M ideal unit :=
  ip <- lread (il itl i) ;;
  a <- aget (i_addrs ip) (Z.of_nat k) ;;
  when (negb (a =? 0)) (bfree itl (i_dev ip) a ;; imod itl i (fun x => x <| i_addrs := <[k := 0]> (i_addrs x) |>)).

Definition cleared (n : nat) (u : ideal) : Prop := released s u i (owned s i n) /\ i_addrs (node u i) = replicate n 0 ++ drop n addrs.

Lemma direct_round k u : (k < 12)%nat -> cleared k u -> returns (direct_body k) u (fun _ t => cleared (S k) t).
Proof.
  intros Hk [Hr Ha]. pose proof (no_addrs _ _ (fo_inode _ _ Hf i Hi)) as Hlen. destruct (lookup_lt_is_Some_2 addrs k ltac:(lia)) as [a Hka].
  assert (slot_of s i (Z.of_nat k) = a) as Es.
  { unfold slot. replace (Z.of_nat k <? NDIRECT) with true by (sizes; zcase; done). by rewrite Nat2Z.id, nth_lookup, Hka. }
  assert (znth (i_addrs (node u i)) (Z.of_nat k) = Some a) as Eg.
  { unfold znth. replace (Z.of_nat k <? 0) with false by zcase. rewrite Nat2Z.id, Ha, lookup_app_r by (by rewrite length_replicate).
    by rewrite length_replicate, lookup_drop, Nat.sub_diag, Nat.add_0_r. }
  unfold direct_body. apply returns_bind. eapply returns_intro; [done|]. change (lget (il itl i) u) with (node u i).
  apply returns_bind. eapply returns_intro; [by apply aget_ok|]. destruct (Z.eqb_spec a 0) as [E0|Hne]; cbn [negb when].
  - apply returns_ret. split.
    + rewrite <- (Nat2Z.id k) at 1. rewrite release_skip by (lia || congruence). by rewrite Nat2Z.id.
    + rewrite Ha, (drop_S _ _ _ Hka), E0. change (0 :: drop (S k) addrs) with ([0] ++ drop (S k) addrs). by rewrite app_assoc, <- replicate_cons_app.
  - destruct (release_slot u (Z.of_nat k) (i_dev (node u i))) as (t & E & Ht & Eit); [sizes; lia|congruence|by rewrite Nat2Z.id|].
    rewrite Es in E. rewrite Nat2Z.id in Ht. apply returns_bind. eapply returns_intro; [exact E|].
    eapply returns_intro; [apply imod_eq|]. rewrite Eit.
    assert (i < length (it_inode (id_it t)))%nat as Hlt by (rewrite (re_table _ _ _ _ Ht); by apply (fo_table _ _ Hf)).
    split.
    + apply released_node; [done|done|]. exact (re_meta _ _ _ _ Hr).
    + rewrite node_with, decide_True by done. cbn [i_addrs set_field]. rewrite Ha. apply zero_addrs_insert. lia.
Qed.

(** The second loop, over the blocks of the indirect block *)
Definition indirect_body (dev : Z) (bp j : nat) : M ideal unit :=
  d <- get_data bp ;; when (negb (get_le 4 (4 * j) d =? 0)) (bfree itl dev (get_le 4 (4 * j) d)).

Lemma indirect_round dev j it u : ind_of (node s i) <> 0 -> (j < 256)%nat ->
  released s u i (owned s i (12 + j)) /\ id_it u = it ->
  returns (indirect_body dev (Z.to_nat (ind_of (node s i))) j) u (fun _ t => released s t i (owned s i (12 + S j)) /\ id_it t = it).
Proof.
  intros Hind Hj [Hr Hit]. set (ind := ind_of (node s i)) in *. assert (in_slots (Z.of_nat (12 + j))) as Hin by (sizes; lia).
  assert (data_block s ind) as Hb by (destruct (fo_data _ _ Hf i MAXFILE Hi max_in_slots); done). pose proof (db_range _ _ Hb) as Hrange.
  assert (slot_of s i (Z.of_nat (12 + j)) = get_le 4 (4 * j) (id_blk s ind)) as Es.
  { unfold slot. fold ind. replace (Z.of_nat (12 + j) <? NDIRECT) with false by (sizes; zcase; done).
    replace (Z.of_nat (12 + j) =? MAXFILE) with false by (sizes; zcase; done). replace (ind =? 0) with false by zcase. f_equal. sizes. lia. }
  unfold indirect_body. apply returns_bind. eapply returns_intro; [done|]. rewrite Z2Nat.id by lia.
  rewrite (re_data _ _ _ _ Hr) by done. rewrite <- Es. replace (12 + S j)%nat with (S (12 + j)) by lia.
  destruct (Z.eqb_spec (slot_of s i (Z.of_nat (12 + j))) 0) as [E0|Hne]; cbn [negb when].
  - apply returns_ret. split; [|done]. rewrite <- (Nat2Z.id (12 + j)) at 1. rewrite release_skip by (lia || done). by rewrite Nat2Z.id.
  - destruct (release_slot u (Z.of_nat (12 + j)) dev Hin Hne) as (t & E & Ht & Eit); [by rewrite Nat2Z.id|].
    rewrite Nat2Z.id in Ht. eapply returns_intro; [exact E|]. split; [done|congruence].
Qed.

(** Every block was given back, and the inode has none. *)
Definition emptied (u : ideal) : Prop := released s u i (owned s i nslots) /\ i_addrs (node u i) = replicate 13 0.

Lemma indirect_release u : cleared 12 u ->
  returns (ip <- lread (il itl i) ;;
           a <- aget (i_addrs ip) NDIRECT ;;
           when (negb (a =? 0))
             (bp <- bread (i_dev ip) a ;;
              for_each (seq 0 (Z.to_nat NINDIRECT)) (indirect_body (i_dev ip) bp) ;;
              brelse bp ;;
              bfree itl (i_dev ip) a ;;
              imod itl i (fun x => x <| i_addrs := <[Z.to_nat NDIRECT := 0]> (i_addrs x) |>))) u (fun _ t => emptied t).
Proof.
  intros [Hr Ha]. pose proof (no_addrs _ _ (fo_inode _ _ Hf i Hi)) as Hlen. destruct (lookup_lt_is_Some_2 addrs 12 ltac:(lia)) as [a Hka].
  assert (ind_of (node s i) = a) as Eind by (unfold ind_of; by rewrite nth_lookup, Hka).
  assert (drop 12 addrs = [a]) as Ed by (rewrite (drop_S _ _ _ Hka), drop_ge by lia; done).
  rewrite Ed in Ha. apply returns_bind. eapply returns_intro; [done|]. change (lget (il itl i) u) with (node u i).
  apply returns_bind. eapply returns_intro; [apply aget_ok; by rewrite Ha|].
  assert (owned s i nslots = owned s i 268 ++ if a =? 0 then [] else [a]) as Eo.
  { change nslots with (S 268). rewrite owned_next. change (slot_of s i (Z.of_nat 268)) with (ind_of (node s i)). by rewrite Eind. }
  destruct (Z.eqb_spec a 0) as [E0|Hne]; cbn [negb when].
  - apply returns_ret. split; [|by rewrite Ha, E0]. rewrite Eo, app_nil_r.
    assert (forall j, (j <= 256)%nat -> owned s i (12 + j) = owned s i 12) as H.
    { induction j as [|j IH]; intros Hj; [done|]. rewrite <- IH by lia. rewrite Nat.add_succ_r. rewrite <- (Nat2Z.id (12 + j)) at 1. rewrite release_skip; [by rewrite Nat2Z.id|lia|].
      unfold slot. rewrite Eind, E0. replace (Z.of_nat (12 + j) <? NDIRECT) with false by (sizes; zcase; done). by case_match. }
    change 268%nat with (12 + 256)%nat. by rewrite H.
  - apply returns_bind. eapply returns_intro; [done|]. apply returns_bind.
    eapply returns_mono; [apply (for_each_returns _ (fun j t => released s t i (owned s i (12 + j)) /\ id_it t = id_it u)); [done|]|].
    { intros j t Hj Ht. rewrite <- Eind in *. apply indirect_round; [done|change (Z.to_nat NINDIRECT) with 256%nat in Hj; lia|done]. }
    intros _ t [Ht Eit]. change (12 + (0 + Z.to_nat NINDIRECT))%nat with (Z.to_nat MAXFILE) in Ht.
    apply returns_bind. eapply returns_intro; [done|].
    destruct (release_slot t MAXFILE (i_dev (node u i)) max_in_slots) as (v & E & Hv & Eiv); [by rewrite slot_ind, Eind|exact Ht|].
    rewrite slot_ind, Eind in E. apply returns_bind. eapply returns_intro; [exact E|]. eapply returns_intro; [apply imod_eq|]. rewrite Eiv, Eit.
    assert (i < length (it_inode (id_it v)))%nat as Hlt by (rewrite (re_table _ _ _ _ Hv); by apply (fo_table _ _ Hf)).
    split; [apply released_node; [exact Hv|done|exact (re_meta _ _ _ _ Hr)]|].
    rewrite node_with, decide_True by done. cbn [i_addrs set_field]. by rewrite Ha.
Qed.

Lemma emptied_slots u k : emptied u -> in_slots k -> slot_of u i k = 0.
Proof.
  intros [_ Ea] Hk. unfold slot, ind_of. rewrite Ea, !nth_zeros. by repeat case_match.
Qed.

Lemma emptied_others u j k : emptied u -> j ∈ L -> j <> i -> slot_of u j k = slot_of s j k.
Proof.
  intros [Hr _] Hj Hne. rewrite (re_others _ _ _ _ Hr) by done. apply slot_blocks. intros H0. apply (re_data _ _ _ _ Hr).
  destruct (fo_data _ _ Hf j MAXFILE Hj max_in_slots); done.
Qed.

Lemma emptied_kept u j k : emptied u -> j ∈ L -> j <> i -> in_slots k -> slot_of s j k <> 0 -> data_block u (slot_of s j k).
Proof.
  intros [Hr _] Hj Hne Hk H0. apply (re_block _ _ _ _ Hr); [by destruct (fo_data _ _ Hf j k Hj Hk)|].
  intros (_ & k' & Hk' & E)%owned_elem. destruct (fo_apart _ _ Hf j i k (Z.of_nat k') Hj Hi) as [? _]; try done. unfold nslots in Hk'. sizes. lia.
Qed.

Lemma emptied_files u : emptied u -> files_ok (with_node i ((node u i) <| i_size := 0 |>) u) L.
Proof.
  intros He. pose proof He as [Hr Ea]. pose proof (fo_table _ _ Hf i Hi) as Hlt. rewrite <- (re_table _ _ _ _ Hr) in Hlt. set (nx := _ <| i_size := 0 |>).
  assert (forall j, node (with_node i nx u) j = if decide (j = i) then nx else node u j) as Hn by (intros j; by apply node_with).
  assert (forall j k, slot_of (with_node i nx u) j k = slot_of u j k) as Hs by (intros j k; rewrite Hn; case_decide; [by subst|done]).
  destruct (fo_inode _ _ Hf i Hi) as [N1 N2 N3 N4 N5]. destruct (meta_size _ _ (re_meta _ _ _ _ Hr)) as [_ Enum]. split.
  - apply disk_with. apply Hr.
  - intros j Hj. change (j < length (<[i := nx]> (it_inode (id_it u))))%nat. rewrite length_insert, (re_table _ _ _ _ Hr). by apply (fo_table _ _ Hf).
  - intros j Hj. rewrite Hn. case_decide as E; [subst j|].
    + split.
      * change (0 <= i_inum (node u i) < sb_ninodes (sbl u)). by rewrite Enum, (re_sb _ _ _ _ Hr).
      * change (length (i_addrs (node u i)) = 13%nat). by rewrite Ea.
      * done.
      * change (Forall (fun v => - 2 ^ 15 <= v < 2 ^ 15) [i_type (meta (node u i)); i_major (meta (node u i)); i_minor (meta (node u i)); i_nlink (meta (node u i))]).
        rewrite (re_meta _ _ _ _ Hr). exact N4.
      * intros k Hk Hlt'. change (k * BSIZE < 0) in Hlt'. sizes. lia.
    + rewrite (re_others _ _ _ _ Hr) by done. destruct (fo_inode _ _ Hf j Hj) as [P1 P2 P3 P4 P5]. split; try done.
      * change (0 <= i_inum (node s j) < sb_ninodes (sbl u)). by rewrite (re_sb _ _ _ _ Hr).
      * intros k Hk Hlt'. rewrite <- (re_others _ _ _ _ Hr) by done. change (slot_of u j k <> 0). rewrite emptied_others by done. by apply P5.
  - intros j k Hj Hk. rewrite Hs. destruct (decide (j = i)) as [->|Hne]; [left; by apply emptied_slots|]. rewrite emptied_others by done.
    destruct (decide (slot_of s j k = 0)) as [|H0]; [by left|right]. by apply data_with, emptied_kept.
  - intros j j' k k' Hj Hj' Hk Hk'. rewrite !Hs. destruct (decide (j = i)) as [->|Hne]; [by rewrite emptied_slots|].
    destruct (decide (j' = i)) as [->|Hne']; [rewrite (emptied_slots u k') by done; done|]. rewrite (emptied_others u j), (emptied_others u j') by done. by apply (fo_apart _ _ Hf).
Qed.

Lemma itrunc_runs : returns (itrunc itl i) s (fun _ t => exists u d, emptied u /\ length d = Z.to_nat BSIZE /\
  let v := with_node i ((node u i) <| i_size := 0 |>) u in
  t = blk_put (IBLOCK (i_inum (node v i)) (sbl v)) d v /\ on_disk t i /\
  forall j, j ∈ L -> i_inum (node v j) <> i_inum (node v i) -> on_disk v j -> on_disk t j).
Proof.
  unfold itrunc. apply returns_bind. eapply returns_mono.
  { apply (for_each_returns _ cleared); [|intros k t Hk; apply direct_round; change (Z.to_nat NDIRECT) with 12%nat in Hk; lia].
    split; [by apply released_nil, Hf|done]. }
  intros [] t Ht. apply returns_bind3. eapply returns_mono; [by apply indirect_release|]. intros [] u Hu.
  apply returns_bind. eapply returns_intro; [apply imod_eq|].
  destruct (iupdate_ok _ L i (emptied_files u Hu) Hi) as (d & Hd & E & H1 & H2). eapply returns_intro; [exact E|]. by exists u, d.
Qed.

(** All that itrunc() does: the blocks of file [i], and no others, are free; the inode is now [x]. *)
Record truncated (x : inode) (t : ideal) : Prop := {
  tc_files : files_ok t L;
  tc_node : node t i = x;
  tc_disk : on_disk t i;
  tc_used : forall y, 0 <= y < sb_size (sbl s) -> used t y = used s y && bool_decide (y ∉ owned s i nslots);
  tc_content : forall j, j ∈ L -> j <> i -> content t j = content s j;
  tc_others : forall j, j ∈ L -> i_inum (node s j) <> i_inum (node s i) -> on_disk s j -> on_disk t j;
  tc_same : forall j, j <> i -> node t j = node s j;
  tc_sb : sbl t = sbl s;
  tc_kern : outside t = outside s;
  tc_lock : it_lock (id_it t) = it_lock (id_it s);
  tc_table : length (it_inode (id_it t)) = length (it_inode (id_it s));
}.

Lemma meta_node x y : meta x = meta y -> x = y <| i_addrs := i_addrs x |>.
Proof. destruct x, y. intros [=]. by subst. Qed.

Definition no_blocks (x : inode) : inode := x <| i_addrs := replicate 13 0 |> <| i_size := 0 |>.

Lemma itrunc_ok : returns (itrunc itl i) s (fun _ t => truncated (no_blocks (node s i)) t).
Proof.
  eapply returns_mono; [exact itrunc_runs|]. intros _ t (u & d & He & Hd & Et & Hod & Hoth). pose proof He as [Hr Ea].
  set (v := with_node i _ u) in *. set (b := IBLOCK _ _) in Et. pose proof (fo_table _ _ Hf i Hi) as Hlt. rewrite <- (re_table _ _ _ _ Hr) in Hlt.
  assert (forall j, node v j = if decide (j = i) then (node u i) <| i_size := 0 |> else node u j) as Hv by (intros j; by apply node_with).
  pose proof (emptied_files u He) as Hfv. fold v in Hfv. pose proof (no_inum _ _ (fo_inode _ _ Hfv i Hi)) as Hn.
  assert (forall j, j <> i -> node v j = node s j) as Hne by (intros j Hj; rewrite Hv, decide_False by done; by apply (re_others _ _ _ _ Hr)).
  assert (node v i = no_blocks (node s i)) as Hvi.
  { rewrite Hv, decide_True by done. by rewrite (meta_node _ _ (re_meta _ _ _ _ Hr)), Ea. }
  assert (i_inum (node v i) = i_inum (node s i)) as Enum by (by rewrite Hvi).
  subst t. split; try done.
  - by apply inode_put_files.
  - intros y Hy. rewrite <- (re_used _ _ _ _ Hr) by done. apply (inode_put_used v L Hfv); [done|]. change (sbl v) with (sbl u). by rewrite (re_sb _ _ _ _ Hr).
  - intros j Hj Hji. apply content_same.
    + change (i_size (node v j) = i_size (node s j)). by rewrite Hne.
    + by apply (fo_inode _ _ Hf).
    + intros o Ho. etrans; [by apply (inode_put_byte v L Hfv)|]. rewrite Hne by done. change (id_blk v) with (id_blk u).
      pose proof (emptied_others u j (o / BSIZE) He Hj Hji) as Es. rewrite (re_others _ _ _ _ Hr) in Es by done. unfold byte_of. rewrite Es.
      destruct (Z.eqb_spec (slot_of s j (o / BSIZE)) 0); [done|]. rewrite (re_data _ _ _ _ Hr); [done|].
      destruct (fo_data _ _ Hf j (o / BSIZE) Hj) as [?|?]; [sizes; zmod|done|done].
  - intros j Hj Hji H. assert (j <> i) as Hne' by congruence. apply Hoth; [done|by rewrite Enum, Hne|].
    apply (on_disk_same s); [by apply Hne|apply Hr| |done]. apply (re_inode _ _ _ _ Hr). by apply (fo_inode _ _ Hf).
  - apply Hr.
  - apply Hr.
  - apply Hr.
  - change (length (<[i := (node u i) <| i_size := 0 |>]> (it_inode (id_it u))) = length (it_inode (id_it s))). rewrite length_insert. apply Hr.
Qed.

(** *** The inode itself is given back: its type becomes 0, on the disk too. *)
Lemma retype_ok x u : i_inum x = i_inum (node s i) -> truncated x u ->
  returns (imod itl i (fun x => x <| i_type := 0 |>) ;; iupdate itl i) u (fun _ t => truncated (x <| i_type := 0 |>) t).
Proof.
  intros Enum [T1 T2 T3 T4 T5 T6 T7 T8 T9 T10 T11]. set (y := x <| i_type := 0 |>). set (v := with_node i y u).
  apply returns_bind. eapply returns_intro; [apply imod_eq|]. rewrite T2. fold y v. pose proof (fo_table _ _ T1 i Hi) as Hlt.
  assert (forall j, node v j = if decide (j = i) then y else node u j) as Hv by (intros j; by apply node_with).
  assert (files_ok v L) as Hfv.
  { apply node_files; [done|done| |by rewrite T2]. pose proof (fo_inode _ _ T1 i Hi) as Hx. rewrite T2 in Hx. destruct Hx as [N1 N2 N3 N4 N5]. split; try done.
    apply Forall_cons in N4 as [_ N4]. constructor; [done|exact N4]. }
  assert (node v i = y) as Hvi by (by rewrite Hv, decide_True). assert (forall j, j <> i -> node v j = node s j) as Hne.
  { intros j Hj. rewrite Hv, decide_False by done. by apply T7. }
  destruct (iupdate_ok v L i Hfv Hi) as (d & Hd & E & Hod & Hoth). rewrite Hvi in *. eapply returns_intro; [exact E|]. set (t := blk_put _ d v) in *.
  pose proof (no_inum _ _ (fo_inode _ _ Hfv i Hi)) as Hn. rewrite Hvi in Hn. split; try done.
  - by apply inode_put_files.
  - intros z Hz. rewrite <- T4 by done. apply (inode_put_used v L Hfv); [done|]. change (sbl v) with (sbl u). by rewrite T8.
  - intros j Hj Hji. rewrite <- T5 by done. apply content_same.
    + change (i_size (node v j) = i_size (node u j)). by rewrite Hv, decide_False.
    + by apply (fo_inode _ _ T1).
    + intros o Ho. etrans; [by apply (inode_put_byte v L Hfv)|]. by rewrite Hv, decide_False.
  - intros j Hj Hji H. assert (j <> i) as Hj' by congruence. apply Hoth; [done|rewrite Hne by done; change (i_inum (node s j) <> i_inum x); congruence|].
    apply (on_disk_same u); [by rewrite Hv, decide_False|done|done|by apply T6].
  - change (length (<[i := y]> (it_inode (id_it u))) = length (it_inode (id_it s))). by rewrite length_insert.
Qed.
End Itrunc.

(** ** Properties *)

(** itrunc() gives back the blocks of a file and no others: its data blocks, those its
    indirect block names, and the indirect block.  It does not panic, the file is empty in
    memory and on the disk, and no other file of the disk has changed. *)
Theorem itrunc_frees (s : ideal) (L : list nat) (i : nat) (Hf : files_ok s L) (Hi : i ∈ L) :
  returns (itrunc itl i) s (fun _ t =>
    files_ok t L /\ content t i = [] /\ on_disk t i /\
    (forall k, in_slots k -> slot_of t i k = 0) /\
    (forall y, 0 <= y < sb_size (sbl s) ->
       used t y = true <-> used s y = true /\ forall k, in_slots k -> slot_of s i k <> 0 -> slot_of s i k <> y) /\
    (forall j, j ∈ L -> j <> i -> content t j = content s j) /\
    (forall j, j ∈ L -> i_inum (node s j) <> i_inum (node s i) -> on_disk s j -> on_disk t j)).
Proof.
  eapply returns_mono; [by apply itrunc_ok|]. intros _ t [T1 T2 T3 T4 T5 T6 T7 T8 T9 T10 T11]. split_and!; try done.
  - unfold content. by rewrite T2.
  - intros k Hk. unfold slot, ind_of. rewrite T2. cbn [i_addrs no_blocks set_field]. rewrite !nth_zeros. by repeat case_match.
  - intros y Hy. by rewrite T4, andb_true_iff, bool_decide_eq_true, not_owned.
Qed.

(** ** Witnesses *)

(** The file of one block of [Content] *)
Lemma itrunc_frees_witness :
  returns (itrunc itl 3) wit_disk (fun _ t => content t 3 = [] /\ used wit_disk 50 = true /\ used t 50 = false).
Proof.
  eapply returns_mono; [exact (itrunc_frees wit_disk [3%nat] 3 wit_disk_files ltac:(by left))|]. intros _ t (_ & H1 & _ & _ & H2 & _).
  split; [exact H1|]. split; [by vm_compute|]. destruct (used t 50) eqn:E; [|done]. exfalso.
  apply (H2 50) in E as [_ E]; [|by vm_compute]. apply (E 0); [by sizes|by vm_compute|by vm_compute].
Defined.
