(* ===== verification/Iput.v ===== *)
(** * Iput: the last reference to a file

    iput() of [Fs]: the locks it takes on the ideal disk of [FsSpec], and what becomes of
    the files of [Content] when the inode has no links left. *)
From S2P Require Import Prelude Spinlock Mem Os Sleeplock Bio Log Fs File FsSpec Content Trunc.

(** ** What the locks and counts of an entry do not touch *)

(** An entry but for its lock, its count and its valid flag *)
Definition core (x : inode) : inode := x <| i_lock := initsleeplock "" |> <| i_ref := 0 |> <| i_valid := false |>.

(** [t] shows the files of [s]: only locks, counts and valid flags of entry [i] have changed. *)
Record shadow (i : nat) (s t : ideal) : Prop := {
  sh_blk : id_blk t = id_blk s;
  sh_sb : sbl t = sbl s;
  sh_own : own t = own s;
  sh_core : core (node t i) = core (node s i);
  sh_others : forall j, j <> i -> node t j = node s j;
  sh_table : length (it_inode (id_it t)) = length (it_inode (id_it s));
}.

#[export] Instance shadow_refl i : Reflexive (shadow i).
Proof. by split. Qed.

#[export] Instance shadow_trans i : Transitive (shadow i).
Proof.
  intros s t u [A1 A2 A3 A4 A5 A6] [B1 B2 B3 B4 B5 B6]. split; try congruence. intros j Hj. rewrite B5 by done. by apply A5.
Qed.

Lemma core_fields x y : core x = core y ->
  i_dev x = i_dev y /\ i_inum x = i_inum y /\ i_size x = i_size y /\ i_addrs x = i_addrs y /\ as_dinode x = as_dinode y.
Proof. destruct x, y. intros [=]. by subst. Qed.

Lemma shadow_core i s t j : shadow i s t -> core (node t j) = core (node s j).
Proof. intros [_ _ _ H1 H2 _]. destruct (decide (j = i)) as [->|Hj]; [done|]. by rewrite H2. Qed.

Section Shadow.
Context (i : nat) (s t : ideal) (Hs : shadow i s t).

Lemma shadow_used y : used t y = used s y.
Proof. unfold used. by rewrite (sh_blk _ _ _ Hs), (sh_sb _ _ _ Hs). Qed.

Lemma shadow_slot j k : slot_of t j k = slot_of s j k.
Proof.
  destruct (core_fields _ _ (shadow_core i s t j Hs)) as (_ & _ & _ & E & _). unfold slot, ind_of. by rewrite E, (sh_blk _ _ _ Hs).
Qed.

Lemma shadow_owned n : owned t i n = owned s i n.
Proof. unfold owned. f_equal. apply list_fmap_ext. intros. apply shadow_slot. Qed.

Lemma shadow_content j : content t j = content s j.
Proof.
  destruct (core_fields _ _ (shadow_core i s t j Hs)) as (_ & _ & Es & Ea & _). unfold content. rewrite Es, (sh_blk _ _ _ Hs).
  apply list_fmap_ext. intros. by apply byte_of_addrs.
Qed.

Lemma shadow_on_disk j : on_disk t j <-> on_disk s j.
Proof.
  destruct (core_fields _ _ (shadow_core i s t j Hs)) as (_ & En & _ & _ & Ed). unfold on_disk. by rewrite En, Ed, (sh_blk _ _ _ Hs), (sh_sb _ _ _ Hs).
Qed.

Lemma shadow_data a : data_block s a -> data_block t a.
Proof.
  intros [H1 H2 H3 H4 H5]. split; rewrite ?(sh_sb _ _ _ Hs), ?(sh_blk _ _ _ Hs); try done. by rewrite shadow_used.
Qed.

Lemma shadow_disk : disk_ok s -> disk_ok t.
Proof.
  intros [[M1 M2 M3] D1 D2 D3]. split; [split|..]; rewrite ?(sh_sb _ _ _ Hs), ?(sh_blk _ _ _ Hs); try done.
  - intros x y. rewrite shadow_used. apply M3.
  - by rewrite shadow_used.
  - intros inum Hn. rewrite shadow_used. by apply D3.
Qed.

Lemma shadow_inode j : inode_ok s (node s j) -> inode_ok t (node t j).
Proof.
  intros [N1 N2 N3 N4 N5]. destruct (core_fields _ _ (shadow_core i s t j Hs)) as (_ & En & Es & Ea & Ed).
  split; rewrite ?En, ?Es, ?Ea, ?(sh_sb _ _ _ Hs); [done..| |].
  - assert (i_type (node t j) = i_type (node s j) /\ i_major (node t j) = i_major (node s j) /\ i_minor (node t j) = i_minor (node s j) /\
      i_nlink (node t j) = i_nlink (node s j)) as (-> & -> & -> & ->) by (by injection Ed). exact N4.
  - intros k Hk Hlt. change (slot_of t j k <> 0). rewrite shadow_slot. by apply N5.
Qed.

Lemma shadow_files L : files_ok s L -> files_ok t L.
Proof.
  intros [Fd Ft Fi Fb Fa]. split.
  - by apply shadow_disk.
  - intros j Hj. rewrite (sh_table _ _ _ Hs). by apply Ft.
  - intros j Hj. by apply shadow_inode, Fi.
  - intros j k Hj Hk. rewrite shadow_slot. destruct (Fb j k Hj Hk); [by left|right; by apply shadow_data].
  - intros j j' k k' Hj Hj' Hk Hk'. rewrite !shadow_slot. by apply Fa.
Qed.
End Shadow.

Lemma shadow_node i s x : (i < length (it_inode (id_it s)))%nat -> core x = core (node s i) -> shadow i s (with_node i x s).
Proof.
  intros Hi Hx. split; try done.
  - by rewrite node_with, decide_True.
  - intros j Hj. by rewrite node_with, decide_False.
  - apply length_insert.
Qed.

(** ** The locks *)

Definition with_cpu (c : cpu) (s : ideal) : ideal := s <| id_cpu := c |>.
Definition with_lock (l : spinlock) (s : ideal) : ideal := s <| id_it := (id_it s) <| it_lock := l |> |>.

Lemma shadow_cpu i c s : shadow i s (with_cpu c s).
Proof. by split. Qed.

Lemma shadow_lock i l s : shadow i s (with_lock l s).
Proof. by split. Qed.

Definition has_node (i : nat) (s : ideal) : Prop := (i < length (it_inode (id_it s)))%nat.

Lemma ilk_set i l (s : ideal) : lset (ilk itl i) l s = with_node i ((node s i) <| i_lock := l |>) s.
Proof. done. Qed.

Lemma ilk_inner_set i l (s : ideal) : lset (inner (ilk itl i)) l s = with_node i ((node s i) <| i_lock := (i_lock (node s i)) <| sl_lk := l |> |>) s.
Proof. done. Qed.

Lemma ilk_inner_get i (s : ideal) : lget (inner (ilk itl i)) s = sl_lk (i_lock (node s i)).
Proof. done. Qed.

Lemma with_node_twice i x y s : with_node i x (with_node i y s) = with_node i x s.
Proof. unfold with_node. cbn. by rewrite list_insert_insert_eq. Qed.

Lemma node_with_eq i x s : has_node i s -> node (with_node i x s) i = x.
Proof. intros Hi. by rewrite node_with, decide_True. Qed.

#[export] Instance node_cell i : LockCell (has_node i) os_cpu (inner (ilk itl i)).
Proof.
  constructor; try done; intros.
  - unfold has_node in *. cbn. by rewrite length_insert.
  - by rewrite ilk_inner_set, ilk_inner_get, node_with_eq.
  - rewrite !ilk_inner_set, node_with_eq by done. apply with_node_twice.
Qed.

(** No one holds the lock of the inode. *)
Definition idle (l : sleeplock) : Prop := sl_locked l = false /\ lk_locked (sl_lk l) = false.

Lemma pushed_stays c : cpu_ok c -> touched (pushed c) = pushed c.
Proof. intros [H _]. unfold touched, pushed. cbn. by replace (c_noff c + 1 =? 0) with false by zcase. Qed.

(** The caller, process 1, holds the lock of the inode. *)
Definition mine (l : sleeplock) : Prop := sl_locked l = true /\ sl_pid l = 1 /\ lk_locked (sl_lk l) = false.

(** The state once the inode's lock was taken or given back *)
Definition relocked (i : nat) (l : sleeplock) (s : ideal) : ideal :=
  with_cpu (touched (id_cpu s)) (with_node i ((node s i) <| i_lock := l |>) s).

(** Changing the inode's lock while another state of it is in the table *)
Lemma ilk_mod i f c x (s : ideal) : has_node i s ->
  lmod (ilk itl i) f (with_cpu c (with_node i x s)) = Ret tt (with_cpu c (with_node i (x <| i_lock := f (i_lock x) |>) s)).
Proof.
  intros Hi. unfold lmod, modify. f_equal. rewrite ilk_set. change (lget (ilk itl i) (with_cpu c (with_node i x s))) with (i_lock (node (with_node i x s) i)).
  change (node (with_cpu c (with_node i x s)) i) with (node (with_node i x s) i). rewrite node_with_eq by done.
  change (with_cpu c (with_node i (x <| i_lock := f (i_lock x) |>) (with_node i x s)) = with_cpu c (with_node i (x <| i_lock := f (i_lock x) |>) s)).
  by rewrite with_node_twice.
Qed.

Lemma acquire_inner i (s : ideal) : has_node i s -> lk_locked (sl_lk (i_lock (node s i))) = false ->
  acquire os_cpu (inner (ilk itl i)) s = Ret tt (with_cpu (pushed (id_cpu s)) (with_node i ((node s i) <| i_lock :=
    (i_lock (node s i)) <| sl_lk := held_by (c_tp (id_cpu s)) (sl_lk (i_lock (node s i))) |> |>) s)).
Proof. intros Hi Hl. by rewrite (acquire_free (D := has_node i)). Qed.

Lemma release_inner i x l (s : ideal) : has_node i s -> cpu_ok (id_cpu s) -> sl_lk (i_lock x) = held_by (c_tp (id_cpu s)) l ->
  release os_cpu (inner (ilk itl i)) (with_cpu (pushed (id_cpu s)) (with_node i x s)) =
  Ret tt (with_cpu (touched (id_cpu s)) (with_node i (x <| i_lock := (i_lock x) <| sl_lk := unheld l |> |>) s)).
Proof.
  intros Hi Hc El. set (t := with_cpu _ _). assert (node t i = x) as Ex by (by apply (node_with_eq i x s)).
  assert (has_node i t) as Hit by (unfold has_node; cbn; by rewrite length_insert).
  assert (lget (inner (ilk itl i)) t = held_by (c_tp (id_cpu s)) l) as Et by (by rewrite ilk_inner_get, Ex).
  rewrite (release_held (D := has_node i) t (id_cpu s)) by (try done; by rewrite Et). rewrite Et, ilk_inner_set, Ex. f_equal. unfold t.
  change (with_cpu (touched (id_cpu s)) (with_node i (x <| i_lock := (i_lock x) <| sl_lk := unheld l |> |>) (with_node i x s)) =
    with_cpu (touched (id_cpu s)) (with_node i (x <| i_lock := (i_lock x) <| sl_lk := unheld l |> |>) s)). by rewrite with_node_twice.
Qed.

Lemma acquiresleep_ideal fuel chan i (s : ideal) : cpu_ok (id_cpu s) -> has_node i s -> idle (i_lock (node s i)) -> (0 < fuel)%nat ->
  exists l, acquiresleep fuel chan (ilk itl i) s = Ret tt (relocked i l s) /\ mine l.
Proof.
  intros Hc Hi [H1 H2] Hf. unfold acquiresleep. destruct fuel as [|fuel]; [lia|].
  erewrite bind_ret by (by apply acquire_inner). set (x := _ <| i_lock := _ |>). set (s1 := with_cpu _ _).
  assert (node s1 i = x) as E1 by (by apply (node_with_eq i x s)).
  cbn [sleep_while_locked]. erewrite bind_ret.
  2: { erewrite bind_ret by done. change (lget (ilk itl i) s1) with (i_lock (node s1 i)). rewrite E1. cbn [x i_lock set_field sl_locked]. by rewrite H1. }
  erewrite bind_ret by (by apply ilk_mod). erewrite bind_ret by done. erewrite bind_ret by (by apply ilk_mod).
  eexists. split; [by erewrite release_inner|]. done.
Qed.

Lemma releasesleep_ideal chan i (s : ideal) : cpu_ok (id_cpu s) -> has_node i s -> lk_locked (sl_lk (i_lock (node s i))) = false ->
  exists l, releasesleep chan (ilk itl i) s = Ret tt (relocked i l s) /\ idle l.
Proof.
  intros Hc Hi H2. unfold releasesleep. erewrite bind_ret by (by apply acquire_inner).
  erewrite bind_ret by (by apply ilk_mod). erewrite bind_ret by (by apply ilk_mod). erewrite bind_ret by done.
  eexists. split; [by erewrite release_inner|]. done.
Qed.

Lemma holdingsleep_ideal i (s : ideal) : cpu_ok (id_cpu s) -> has_node i s -> lk_locked (sl_lk (i_lock (node s i))) = false ->
  let l := i_lock (node s i) in
  holdingsleep (ilk itl i) s = Ret (sl_locked l && (sl_pid l =? 1)) (relocked i (l <| sl_lk := unheld (sl_lk l) |>) s).
Proof.
  intros Hc Hi Hq l. unfold holdingsleep. erewrite bind_ret by (by apply acquire_inner). fold l. set (s1 := with_cpu _ _). set (x := _ <| i_lock := _ |>) in s1.
  assert (node s1 i = x) as E1 by (by apply (node_with_eq i x s)). erewrite bind_ret by done. erewrite bind_ret by done.
  erewrite bind_ret by (by apply (release_inner i x (sl_lk l))). change (lget (ilk itl i) s1) with (i_lock (node s1 i)). by rewrite E1.
Qed.

(** ** iput() *)

Lemma acquire_itable (s : ideal) : lk_locked (it_lock (id_it s)) = false ->
  acquire os_cpu (itlock itl) s = Ret tt (with_cpu (pushed (id_cpu s)) (with_lock (held_by (c_tp (id_cpu s)) (it_lock (id_it s))) s)).
Proof. intros Hl. by rewrite (acquire_free (D := fun _ => True)). Qed.

Lemma release_itable c l (s : ideal) : cpu_ok c -> id_cpu s = pushed c -> it_lock (id_it s) = held_by (c_tp c) l ->
  release os_cpu (itlock itl) s = Ret tt (with_cpu (touched c) (with_lock (unheld l) s)).
Proof.
  intros Hc Ec El. assert (lget (itlock itl) s = held_by (c_tp c) l) as Hl by exact El.
  rewrite (release_held (D := fun _ => True) s c) by (try done; by rewrite Hl). by rewrite Hl.
Qed.

(** The state in which no one holds the lock of the table *)
Definition at_rest (s : ideal) : Prop := cpu_ok (id_cpu s) /\ lk_locked (it_lock (id_it s)) = false.

(** The end of iput(): the count goes down. *)
Definition iput_end (i : nat) : M ideal unit := imod itl i (fun x => x <| i_ref := i_ref x - 1 |>) ;; release os_cpu (itlock itl).

Lemma iput_end_ok i c l (u : ideal) : cpu_ok c -> id_cpu u = pushed c -> it_lock (id_it u) = held_by (c_tp c) l -> has_node i u ->
  returns (iput_end i) u (fun _ t => shadow i u t /\ at_rest t /\ node t i = (node u i) <| i_ref := i_ref (node u i) - 1 |>).
Proof.
  intros Hc Ec El Hi. unfold iput_end. apply returns_bind. eapply returns_intro; [apply imod_eq|]. eapply returns_intro; [by apply (release_itable c l)|].
  set (x := _ <| i_ref := _ |>). split.
  - transitivity (with_node i x u); [by apply shadow_node|]. transitivity (with_lock (unheld l) (with_node i x u)); [apply shadow_lock|apply shadow_cpu].
  - split; [split; [by apply touched_ok|done]|]. by apply (node_with_eq i x u).
Qed.

(** While others use the entry, or the file has links, only the count changes. *)
Lemma iput_kept addr fuel (s : ideal) i : has_node i s -> at_rest s ->
  (i_ref (node s i) =? 1) && i_valid (node s i) && (i_nlink (node s i) =? 0) = false ->
  returns (iput itl addr fuel (Some i)) s (fun _ t => shadow i s t /\ at_rest t /\ node t i = (node s i) <| i_ref := i_ref (node s i) - 1 |>).
Proof.
  intros Hlt [Hc Hl] Hb. unfold iput.
  apply returns_bind. eapply returns_intro; [by apply acquire_itable|]. set (u := with_cpu _ _).
  apply returns_bind. eapply returns_intro; [done|]. apply returns_bind. eapply returns_intro; [done|]. change (lget (il itl i) u) with (node s i). rewrite Hb.
  apply returns_bind. eapply returns_intro; [done|].
  eapply returns_mono; [by apply (iput_end_ok i (id_cpu s) (it_lock (id_it s)))|]. intros _ t (H1 & H2 & H3). split_and!; [|done|exact H3].
  transitivity u; [|done]. unfold u. transitivity (with_lock (held_by (c_tp (id_cpu s)) (it_lock (id_it s))) s); [apply shadow_lock|apply shadow_cpu].
Qed.

Section Iput.
Context (addr : nat -> Z) (fuel : nat) (s : ideal) (L : list nat) (Hf : files_ok s L) (i : nat) (Hi : i ∈ L).
Context (Hrest : at_rest s) (Hfuel : (0 < fuel)%nat).

(** The inode's lock is taken under the lock of the table, which is then given back. *)
Lemma iput_locks : idle (i_lock (node s i)) ->
  let u := with_cpu (pushed (id_cpu s)) (with_lock (held_by (c_tp (id_cpu s)) (it_lock (id_it s))) s) in
  returns (acquiresleep fuel (addr i) (ilk itl i) ;; release os_cpu (itlock itl)) u (fun _ t =>
    shadow i s t /\ at_rest t /\ lk_locked (sl_lk (i_lock (node t i))) = false /\ i_ref (node t i) = i_ref (node s i)).
Proof.
  intros Hidle u. destruct Hrest as [Hc Hl]. pose proof (fo_table _ _ Hf i Hi) as Hlt.
  destruct (acquiresleep_ideal fuel (addr i) i u) as (l & E & Hlk); [by apply pushed_ok|done|exact Hidle|done|]. apply proj2, proj2 in Hlk.
  apply returns_bind. eapply returns_intro; [exact E|]. eapply returns_intro; [apply (release_itable (id_cpu s) (it_lock (id_it s)))|].
  { done. } { by apply pushed_stays. } { done. }
  set (x := (node u i) <| i_lock := l |>). split_and!.
  - transitivity u. { transitivity (with_lock (held_by (c_tp (id_cpu s)) (it_lock (id_it s))) s); [apply shadow_lock|apply shadow_cpu]. }
    transitivity (with_node i x u); [by apply shadow_node|]. by split.
  - split; [by apply touched_ok|done].
  - change (lk_locked (sl_lk (i_lock (node (with_node i x u) i))) = false). by rewrite node_with_eq.
  - change (i_ref (node (with_node i x u) i) = i_ref (node s i)). by rewrite node_with_eq.
Qed.

(** After the file is gone the entry is no longer valid, and its lock is given back. *)
Lemma iput_unlocks u : at_rest u -> has_node i u -> lk_locked (sl_lk (i_lock (node u i))) = false ->
  returns (imod itl i (fun x => x <| i_valid := false |>) ;; releasesleep (addr i) (ilk itl i) ;; acquire os_cpu (itlock itl)) u (fun _ t =>
    shadow i u t /\ i_valid (node t i) = false /\ i_ref (node t i) = i_ref (node u i) /\
    exists c l, cpu_ok c /\ id_cpu t = pushed c /\ it_lock (id_it t) = held_by (c_tp c) l).
Proof.
  intros [Hc Hl] Hlt Hq. apply returns_bind. eapply returns_intro; [apply imod_eq|]. set (v := with_node i _ u).
  assert (node v i = (node u i) <| i_valid := false |>) as Ev by (by apply node_with_eq). assert (has_node i v) as Hv by (unfold has_node; cbn; by rewrite length_insert).
  destruct (releasesleep_ideal (addr i) i v) as (l & E & _); [done|done|by rewrite Ev|].
  apply returns_bind. eapply returns_intro; [exact E|]. set (w := relocked i l v). eapply returns_intro; [by apply acquire_itable|].
  set (x := (node v i) <| i_lock := l |>). split_and!.
  - transitivity v; [by apply shadow_node|]. transitivity (with_node i x v); [by apply shadow_node|]. by split.
  - change (i_valid (node (with_node i x v) i) = false). rewrite node_with_eq by done. unfold x. by rewrite Ev.
  - change (i_ref (node (with_node i x v) i) = i_ref (node u i)). rewrite node_with_eq by done. unfold x. by rewrite Ev.
  - exists (id_cpu w), (it_lock (id_it w)). split; [by apply touched_ok|done].
Qed.

(** The last reference to a file without links *)
Lemma iput_last : idle (i_lock (node s i)) -> i_ref (node s i) = 1 -> i_valid (node s i) = true -> i_nlink (node s i) = 0 ->
  returns (iput itl addr fuel (Some i)) s (fun _ t => exists u v,
    shadow i s u /\ truncated u L i (no_blocks (node u i) <| i_type := 0 |>) v /\ shadow i v t /\
    at_rest t /\ i_ref (node t i) = 0 /\ i_valid (node t i) = false).
Proof.
  intros Hidle H1 H2 H3. destruct Hrest as [Hc Hl]. unfold iput.
  apply returns_bind. eapply returns_intro; [by apply acquire_itable|]. set (s1 := with_cpu _ _).
  apply returns_bind. eapply returns_intro; [done|]. apply returns_bind. eapply returns_intro; [done|]. change (lget (il itl i) s1) with (node s i).
  rewrite H1, H2, H3. change (_ && _) with true. cbn [when]. apply returns_bind.
  pose proof (iput_locks Hidle) as Hlocks. cbv zeta in Hlocks. fold s1 in Hlocks. apply returns_bind2. eapply returns_mono; [exact Hlocks|].
  intros [] u (Hu & Hur & Huq & Hun). pose proof (shadow_files i s u Hu L Hf) as Hfu.
  apply returns_bind. eapply returns_mono; [by apply (itrunc_ok u L Hfu i)|]. intros [] v Hv.
  apply returns_bind2. eapply returns_mono; [by apply (retype_ok u L i Hi (no_blocks (node u i)))|]. intros [] w Hw.
  assert (has_node i w) as Hwi by (apply (fo_table _ _ (tc_files _ _ _ _ _ Hw)), Hi).
  eapply returns_mono; [apply (iput_unlocks w); [|done|]|].
  { destruct Hur as [Hur1 Hur2]. split; [by rewrite (outside_cpu _ _ (tc_kern _ _ _ _ _ Hw))|by rewrite (tc_lock _ _ _ _ _ Hw)]. }
  { by rewrite (tc_node _ _ _ _ _ Hw). }
  intros [] z (Hz & Hzv & Hzr & c & l & Hzc & Ez & Elz). eapply returns_mono; [apply (iput_end_ok i c l z Hzc Ez Elz)|].
  { unfold has_node. rewrite (sh_table _ _ _ Hz). exact Hwi. }
  intros _ t (Ht & Hta & Htn). exists u, w. split_and!; [done|done|by transitivity z|done|..].
  - rewrite Htn. cbn [i_ref set_field]. rewrite Hzr, (tc_node _ _ _ _ _ Hw). change (i_ref (node u i) - 1 = 0). lia.
  - by rewrite Htn.
Qed.
End Iput.

(** ** Properties *)

(** C21: iput() drops a reference.  When it is the last one to a file without links, the
    file goes: its blocks and no others are free, the inode is free on the disk (ialloc() finds
    it by its type 0), the entry is free and not valid.  Otherwise only the count changes.
    Either way every other file, in memory and on the disk, is as it was, and the lock of the table is free. *)
Theorem iput_frees (addr : nat -> Z) (fuel : nat) (s : ideal) (L : list nat) (i : nat)
  (Hf : files_ok s L) (Hi : i ∈ L) (Hrest : at_rest s) (Hidle : idle (i_lock (node s i))) (Hfuel : (0 < fuel)%nat) :
  let last := i_ref (node s i) = 1 /\ i_valid (node s i) = true /\ i_nlink (node s i) = 0 in
  returns (iput itl addr fuel (Some i)) s (fun _ t =>
    files_ok t L /\ at_rest t /\ (forall j, j <> i -> node t j = node s j) /\ i_ref (node t i) = i_ref (node s i) - 1 /\
    (forall j, j ∈ L -> j <> i -> content t j = content s j) /\
    (forall j, j ∈ L -> i_inum (node s j) <> i_inum (node s i) -> on_disk s j -> on_disk t j) /\
    (last -> content t i = [] /\ i_valid (node t i) = false /\
      d_type (get_dinode (dinode_off (i_inum (node s i))) (id_blk t (IBLOCK (i_inum (node s i)) (sbl s)))) = 0 /\
      (forall y, 0 <= y < sb_size (sbl s) ->
         used t y = true <-> used s y = true /\ forall k, in_slots k -> slot_of s i k <> 0 -> slot_of s i k <> y)) /\
    (~ last -> content t i = content s i /\ id_blk t = id_blk s /\ node t i = (node s i) <| i_ref := i_ref (node s i) - 1 |>)).
Proof.
  intros last. destruct (decide (i_ref (node s i) = 1 /\ i_valid (node s i) = true /\ i_nlink (node s i) = 0)) as [Hl|Hl].
  - destruct Hl as (H1 & H2 & H3). eapply returns_mono; [by apply (iput_last addr fuel s L Hf i Hi Hrest Hfuel)|].
    intros _ t (u & v & Hu & Hv & Ht & Ha & Hr & Hval). destruct (core_fields _ _ (sh_core _ _ _ Hu)) as (_ & En & _).
    destruct (core_fields _ _ (sh_core _ _ _ Ht)) as (_ & En' & _). rewrite (tc_node _ _ _ _ _ Hv) in En'. cbn [i_inum set_field no_blocks] in En'.
    assert (forall j, j <> i -> node u j = node s j) as Hne by apply (sh_others _ _ _ Hu). split_and!.
    + by apply (shadow_files i v), Hv.
    + done.
    + intros j Hj. rewrite (sh_others _ _ _ Ht), (tc_same _ _ _ _ _ Hv) by done. by apply Hne.
    + lia.
    + intros j Hj Hji. rewrite (shadow_content i v t Ht), (tc_content _ _ _ _ _ Hv) by done. by apply (shadow_content i).
    + intros j Hj Hji H. apply (shadow_on_disk i v t Ht), (tc_others _ _ _ _ _ Hv); [done| |by apply (shadow_on_disk i s u Hu)].
      rewrite En, Hne; [done|congruence].
    + intros _. split_and!.
      * rewrite (shadow_content i v t Ht). unfold content. by rewrite (tc_node _ _ _ _ _ Hv).
      * done.
      * pose proof (tc_disk _ _ _ _ _ Hv) as Hd. unfold on_disk in Hd. rewrite (tc_node _ _ _ _ _ Hv) in Hd. cbn [i_inum set_field no_blocks] in Hd.
        rewrite (tc_sb _ _ _ _ _ Hv), (sh_sb _ _ _ Hu), En in Hd. by rewrite (sh_blk _ _ _ Ht), Hd.
      * intros y Hy. rewrite (shadow_used i v t Ht), (tc_used _ _ _ _ _ Hv) by (by rewrite (sh_sb _ _ _ Hu)).
        by rewrite (shadow_used i s u Hu), (shadow_owned i s u Hu), andb_true_iff, bool_decide_eq_true, not_owned.
    + intros Hn. by destruct Hn.
  - eapply returns_mono; [apply (iput_kept addr fuel s i (fo_table _ _ Hf i Hi) Hrest)|].
    { apply not_true_is_false. rewrite !andb_true_iff, !Z.eqb_eq. tauto. }
    intros _ t (Ht & Ha & Hn). split_and!; try done.
    + by apply (shadow_files i s).
    + intros j Hj. by apply (sh_others _ _ _ Ht).
    + by rewrite Hn.
    + intros j Hj _. by apply (shadow_content i).
    + intros j _ _. by apply (shadow_on_disk i).
    + intros _. split_and!; [by apply (shadow_content i)|apply Ht|done].
Qed.

(** ** Witnesses *)

(** The file of [Content], once it has no links *)
Definition wit_unlinked : ideal := with_node 3 ((wit_node 2 3) <| i_nlink := 0 |> <| i_valid := true |>) wit_disk.

Lemma wit_unlinked_files : files_ok wit_unlinked [3%nat].
Proof.
  apply node_files; [apply wit_disk_files|by left| |done]. destruct (fo_inode _ _ wit_disk_files 3 ltac:(by left)) as [N1 N2 N3 N4 N5].
  split; [by vm_compute|by vm_compute|by vm_compute| |exact N5]. repeat constructor; cbn; lia.
Defined.

Lemma iput_frees_witness :
  returns (iput itl (fun _ => 0) 1 (Some 3%nat)) wit_unlinked (fun _ t => content t 3 = [] /\ i_ref (node t 3) = 0 /\ used wit_unlinked 50 = true /\ used t 50 = false).
Proof.
  assert (at_rest wit_unlinked) as Hr by (by vm_compute). assert (idle (i_lock (node wit_unlinked 3))) as Hi by (by vm_compute).
  pose proof (iput_frees (fun _ => 0) 1 wit_unlinked [3%nat] 3 wit_unlinked_files ltac:(by left) Hr Hi ltac:(lia)) as H. cbv zeta in H.
  eapply returns_mono; [exact H|].
  assert (i_ref (node wit_unlinked 3) = 1 /\ i_valid (node wit_unlinked 3) = true /\ i_nlink (node wit_unlinked 3) = 0) as Hl by (split_and!; vm_compute; reflexivity).
  intros _ t (_ & _ & _ & H1 & _ & _ & H2 & _). destruct (H2 Hl) as (H2' & _ & _ & H3).
  split; [exact H2'|]. split; [exact H1|]. split; [vm_compute; reflexivity|]. destruct (used t 50) eqn:E; [|done]. exfalso.
  assert (slot_of wit_unlinked 3 0 = 50) as Es by (vm_compute; reflexivity). assert (sb_size (sbl wit_unlinked) = 100) as Eb by (vm_compute; reflexivity).
  assert (0 <= 50 < sb_size (sbl wit_unlinked)) as Hr50 by (rewrite Eb; lia). destruct (proj1 (H3 50 Hr50) E) as [_ E'].
  assert (in_slots 0) as H0 by (clear; by sizes). apply (E' 0 H0); [rewrite Es; lia|exact Es].
Defined.
