(* ===== verification/Icache.v ===== *)
(** * Icache: the table of inodes as a cache of the disk

    An invariant of the table of [Fs] that iget(), ilock(), iunlock(), idup() and iput()
    keep, over the ideal disk of [FsSpec]. *)
From S2P Require Import Prelude Spinlock Mem Os Sleeplock Bio Log Fs File FsSpec Content Trunc Iput.

(** ** Two states with one disk *)

Definition same_disk (s t : ideal) : Prop := id_blk t = id_blk s /\ sbl t = sbl s.

#[export] Instance same_disk_equivalence : Equivalence same_disk.
Proof.
  split.
  - by intros s.
  - intros s t [H1 H2]. by split.
  - intros s t u [H1 H2] [H3 H4]. split; congruence.
Qed.

(** The inode [inum] on the disk *)
Definition disk_inode (s : ideal) (inum : Z) : dinode := get_dinode (dinode_off inum) (id_blk s (IBLOCK inum (sbl s))).

Lemma same_inode s t inum : same_disk s t -> disk_inode t inum = disk_inode s inum.
Proof. intros [H1 H2]. unfold disk_inode. by rewrite H1, H2. Qed.

Lemma same_used s t y : same_disk s t -> used t y = used s y.
Proof. intros [H1 H2]. unfold used. by rewrite H1, H2. Qed.

Lemma same_data s t a : same_disk s t -> data_block s a -> data_block t a.
Proof.
  intros Hs [H1 H2 H3 H4 H5]. pose proof Hs as [E1 E2]. split; rewrite ?E1, ?E2; try done. by rewrite (same_used s).
Qed.

Lemma same_disk_ok s t : same_disk s t -> disk_ok s -> disk_ok t.
Proof.
  intros Hs [[M1 M2 M3] D1 D2 D3]. pose proof Hs as [E1 E2]. split; [split|..]; rewrite ?E1, ?E2; try done.
  - intros x y. rewrite (same_used s) by done. apply M3.
  - by rewrite (same_used s).
  - intros inum Hn. rewrite (same_used s) by done. by apply D3.
Qed.

Lemma same_on_disk s t i j : same_disk s t -> node t j = node s i -> on_disk s i -> on_disk t j.
Proof. intros [E1 E2] En. unfold on_disk. by rewrite En, E1, E2. Qed.

(** ** The invariant *)

(** The inodes of [I] are in use on the disk, and have links. *)
Definition live (s : ideal) (I : list Z) : Prop :=
  forall inum, inum ∈ I -> 0 <= inum < sb_ninodes (sbl s) /\ d_type (disk_inode s inum) <> 0 /\ d_nlink (disk_inode s inum) <> 0.

Lemma live_same s t I : same_disk s t -> live s I -> live t I.
Proof. intros Hs Hl inum Hin. rewrite (same_inode s t inum Hs), (proj2 Hs). by apply Hl. Qed.

(** Entries that are used hold inodes of [I], each once; those that are valid show what the
    disk has.  Only the lock of [held] is taken, by this process. *)
Record icache_ok (s : ideal) (I : list Z) (held : option nat) : Prop := {
  ic_length : length (it_inode (id_it s)) = NINODE;
  ic_rest : at_rest s;
  ic_unique : unique (id_it s);
  ic_ref : forall i, 0 <= i_ref (node s i);
  ic_inum : forall i, 0 < i_ref (node s i) -> i_dev (node s i) = ROOTDEV /\ i_inum (node s i) ∈ I;
  ic_valid : forall i, 0 < i_ref (node s i) -> i_valid (node s i) = true -> on_disk s i;
  ic_idle : forall i, held <> Some i -> idle (i_lock (node s i));
  ic_held : forall i, held = Some i -> 0 < i_ref (node s i) /\ i_valid (node s i) = true /\ mine (i_lock (node s i));
}.

Lemma unique_mono t t' : (forall d n i, cached t' d n i -> cached t d n i) -> unique t -> unique t'.
Proof. intros H Hu d n i j Hi Hj. by apply (Hu d n); apply H. Qed.

Lemma has_ref s I h i : icache_ok s I h -> 0 < i_ref (node s i) -> has_node i s /\ (i < NINODE)%nat.
Proof.
  intros Hs Hr. assert (has_node i s) as Hi.
  { unfold has_node. destruct (decide (i < length (it_inode (id_it s)))%nat) as [|Hge]; [done|]. exfalso. unfold geti in Hr.
    rewrite lookup_ge_None_2 in Hr by lia. cbn in Hr. lia. }
  split; [done|]. unfold has_node in Hi. by rewrite (ic_length _ _ _ Hs) in Hi.
Qed.

(** *** An entry changes *)

Section Entry.
Context (s : ideal) (I : list Z) (h h' : option nat) (i : nat) (x : inode) (c : cpu) (l : spinlock).
Context (Hs : icache_ok s I h) (Hh : h = None \/ h = Some i) (Hh' : h' = None \/ h' = Some i) (Hi : has_node i s).
Context (Hc : cpu_ok c) (Hl : lk_locked l = false).
Context (Hdev : i_dev x = i_dev (node s i)) (Hinum : i_inum x = i_inum (node s i)) (Href : 0 <= i_ref x <= i_ref (node s i)).
Context (Hvalid : i_valid x = true -> as_dinode x = disk_inode s (i_inum x)).
Context (Hidle : h' = None -> idle (i_lock x)) (Hheld : h' = Some i -> 0 < i_ref x /\ i_valid x = true /\ mine (i_lock x)).

Notation t := (with_cpu c (with_lock l (with_node i x s))).

Lemma set_node j : node t j = if decide (j = i) then x else node s j.
Proof using Hi. exact (node_with i x s j Hi). Qed.

Lemma icache_set : icache_ok t I h'.
Proof.
  destruct Hs as [C1 C2 C3 C4 C5 C6 C7 C8]. split.
  - change (length (<[i := x]> (it_inode (id_it s))) = NINODE). by rewrite length_insert.
  - done.
  - eapply unique_mono; [|exact C3]. intros d n j (Hj & Hr & Hd & Hn). rewrite set_node in Hr, Hd, Hn. case_decide; [subst j|done].
    split; [done|]. split; [lia|]. split; congruence.
  - intros j. rewrite set_node. case_decide; [lia|apply C4].
  - intros j. rewrite set_node. case_decide; [subst j|apply C5]. intros Hr. rewrite Hdev, Hinum. apply C5. lia.
  - intros j. unfold on_disk. rewrite set_node. case_decide; [subst j|apply C6]. intros _ Hv. symmetry. by apply Hvalid.
  - intros j Hj. rewrite set_node. case_decide; [subst j; apply Hidle|apply C7].
    + destruct Hh' as [?|?]; [done|]. congruence.
    + destruct Hh as [-> | ->]; [done|]. congruence.
  - intros j Hj. rewrite set_node. case_decide; [subst j; by apply Hheld|]. destruct Hh' as [?|?]; congruence.
Qed.
End Entry.

(** ** The operations *)

(** The counts of [t] are those of [s], and one more for entry [ip]. *)
Definition one_more (s t : ideal) (ip : nat) : Prop := forall j, i_ref (node t j) = i_ref (node s j) + if decide (j = ip) then 1 else 0.
Definition same_inums (s t : ideal) : Prop := forall j, i_inum (node t j) = i_inum (node s j).
Definition same_valid (s t : ideal) : Prop := forall j, i_valid (node t j) = i_valid (node s j).
Definition same_refs (s t : ideal) : Prop := forall j, i_ref (node t j) = i_ref (node s j).

Lemma iget_cached s I h inum : icache_ok s I h -> inum ∈ I ->
  (exists i, cached (id_it s) ROOTDEV inum i \/ ((i < NINODE)%nat /\ i_ref (node s i) = 0)) ->
  returns (iget itl ROOTDEV inum) s (fun ip t =>
    icache_ok t I h /\ same_disk s t /\ own t = own s /\ one_more s t ip /\ cached (id_it t) ROOTDEV inum ip /\
    forall j, 0 < i_ref (node s j) -> core (node t j) = core (node s j)).
Proof.
  intros Hs Hin Hex. destruct Hs as [C1 [C2 C3] C4 C5 C6 C7 C8 C9].
  destruct (iget_eq ROOTDEV inum s C2 C3 C1 Hex) as (ip & hit & t' & E & Eit & El & Esb & Hip & Hh).
  eapply returns_intro; [exact E|]. set (t := s <| id_cpu := _ |> <| id_it := _ |>).
  assert (forall j, node t j = if decide (j = ip) then got ROOTDEV inum hit (node s ip) else node s j) as Hn.
  { intros j. change (node t j) with (geti t' j). unfold geti at 1. rewrite Eit.
    change (default zero_inode _) with (geti ((id_it s) <| it_inode := <[ip := got ROOTDEV inum hit (geti (id_it s) ip)]> (it_inode (id_it s)) |>) j).
    apply geti_insert. lia. }
  assert (i_ref (node t ip) = i_ref (node s ip) + 1 /\ i_dev (node t ip) = ROOTDEV /\ i_inum (node t ip) = inum /\
    (0 < i_ref (node s ip) -> core (node t ip) = core (node s ip) /\ i_valid (node t ip) = i_valid (node s ip)) /\
    (i_ref (node s ip) = 0 -> i_valid (node t ip) = false) /\ i_lock (node t ip) = i_lock (node s ip)) as (N1 & N2 & N3 & N4 & N5 & N6).
  { rewrite Hn, decide_True by done. destruct hit; cbn.
    - destruct Hh as (_ & ? & ? & ?). split_and!; try done; lia.
    - destruct Hh as [-> _]. split_and!; try done; lia. }
  assert (same_disk s t) as Hsd by (split; [done|exact Esb]). split_and!; try done.
  - split.
    + change (length (it_inode t') = NINODE). by rewrite Eit, length_insert.
    + split; [by apply touched_ok|exact El].
    + pose proof (got_unique _ _ _ _ _ (it_lock t') C4 C1 Hip Hh) as Hu. change (unique t'). eapply unique_mono; [|exact Hu].
      intros d n j. set (T := _ <| it_lock := _ |>). assert (it_inode T = it_inode t') as ET by (by rewrite Eit). unfold cached, geti. by rewrite ET.
    + intros j. destruct (decide (j = ip)) as [->|Hne]; [specialize (C5 ip); lia|]. rewrite Hn, decide_False by done. apply C5.
    + intros j Hr. destruct (decide (j = ip)) as [->|Hne]; [by rewrite N2, N3|]. rewrite Hn, decide_False in * by done. by apply C6.
    + intros j Hr Hv. destruct (decide (j = ip)) as [->|Hne].
      * destruct (decide (0 < i_ref (node s ip))) as [H0|H0]; [|rewrite N5 in Hv by (specialize (C5 ip); lia); done].
        destruct (N4 H0) as [Ec Ev]. destruct (core_fields _ _ Ec) as (_ & En & _ & _ & Ed). pose proof (C7 ip H0 ltac:(congruence)) as Hd.
        unfold on_disk in *. rewrite En, Ed. by rewrite (proj1 Hsd), (proj2 Hsd).
      * rewrite Hn, decide_False in Hr, Hv by done. apply (same_on_disk s t j j Hsd); [by rewrite Hn, decide_False|by apply C7].
    + intros j Hj. destruct (decide (j = ip)) as [->|Hne]; [rewrite N6; by apply C8|]. rewrite Hn, decide_False by done. by apply C8.
    + intros j Hj. destruct (decide (j = ip)) as [->|Hne]; [|rewrite Hn, decide_False by done; by apply C9].
      destruct (C9 ip Hj) as (H1 & H2 & H3). rewrite N6, (proj2 (N4 H1)). split_and!; [lia|done|done].
  - intros j. case_decide; [by subst|]. by rewrite Hn, decide_False, Z.add_0_r by done.
  - split; [done|]. split; [specialize (C5 ip); lia|]. done.
  - intros j Hr. destruct (decide (j = ip)) as [->|Hne]; [by apply N4|]. by rewrite Hn, decide_False.
Qed.

Lemma with_lock_same i x (s : ideal) : with_lock (it_lock (id_it s)) (with_node i x s) = with_node i x s.
Proof. by destruct s as [? ? [? ? ?] ? ? ?]. Qed.

Lemma shadow_relocked i l s : has_node i s -> shadow i s (relocked i l s).
Proof. intros Hi. transitivity (with_node i ((node s i) <| i_lock := l |>) s); [by apply shadow_node|by split]. Qed.

(** Taking the lock of an entry that is valid *)
Lemma ilock_valid addr fuel s I i : icache_ok s I None -> 0 < i_ref (node s i) -> i_valid (node s i) = true -> (0 < fuel)%nat ->
  exists l, ilock itl addr fuel (Some i) s = Ret tt (relocked i l s) /\ icache_ok (relocked i l s) I (Some i).
Proof.
  intros Hs Hr Hv Hfuel. destruct (has_ref s I None i Hs Hr) as [Hi _]. destruct (ic_rest _ _ _ Hs) as [Hc Hl].
  destruct (acquiresleep_ideal fuel (addr i) i s Hc Hi (ic_idle _ _ _ Hs i ltac:(done)) Hfuel) as (l & E & Hm).
  exists l. split.
  - unfold ilock. erewrite bind_ret by done. change (lget (il itl i) s) with (node s i). replace (i_ref (node s i) <? 1) with false by zcase.
    erewrite bind_ret by exact E. erewrite bind_ret by done. change (lget (il itl i) (relocked i l s)) with (node (with_node i ((node s i) <| i_lock := l |>) s) i).
    rewrite node_with_eq by done. cbn [i_valid set_field]. by rewrite Hv.
  - unfold relocked. rewrite <- (with_lock_same i _ s).
    apply (icache_set s I None (Some i) i _ (touched (id_cpu s)) (it_lock (id_it s)) Hs); try done; [by left|by right|by apply touched_ok|cbn; lia|].
    intros _. symmetry. by apply (ic_valid _ _ _ Hs).
Qed.

(** Taking the lock of an entry, with its inode from the disk if it is not there *)
Lemma ilock_cached addr fuel s I i : icache_ok s I None -> live s I -> 0 < i_ref (node s i) -> (0 < fuel)%nat ->
  returns (ilock itl addr fuel (Some i)) s (fun _ t =>
    icache_ok t I (Some i) /\ same_disk s t /\ own t = own s /\ same_refs s t /\ same_inums s t).
Proof.
  intros Hs Hlive Hr Hfuel. destruct (has_ref s I None i Hs Hr) as [Hi _]. destruct (ic_rest _ _ _ Hs) as [Hc Hl].
  destruct (acquiresleep_ideal fuel (addr i) i s Hc Hi (ic_idle _ _ _ Hs i ltac:(done)) Hfuel) as (l & E & Hm).
  set (c := touched (id_cpu s)). assert (cpu_ok c) as Hct by (by apply touched_ok). destruct (ic_inum _ _ _ Hs i Hr) as [Hdev Hin].
  destruct (Hlive _ Hin) as (_ & Ht & _). unfold ilock. apply returns_bind. eapply returns_intro; [done|]. change (lget (il itl i) s) with (node s i).
  replace (i_ref (node s i) <? 1) with false by zcase. apply returns_bind. eapply returns_intro; [exact E|]. unfold relocked. fold c.
  set (x := (node s i) <| i_lock := l |>). set (s1 := with_cpu c _). assert (node s1 i = x) as E1 by exact (node_with_eq i x s Hi).
  apply returns_bind. eapply returns_intro; [done|]. change (lget (il itl i) s1) with (node s1 i). rewrite E1. change (i_valid x) with (i_valid (node s i)).
  assert (forall y, i_dev y = i_dev (node s i) -> i_inum y = i_inum (node s i) -> i_ref y = i_ref (node s i) -> i_lock y = l -> i_valid y = true ->
    as_dinode y = disk_inode s (i_inum y) -> let t := with_cpu c (with_node i y s) in
    icache_ok t I (Some i) /\ same_disk s t /\ own t = own s /\ same_refs s t /\ same_inums s t) as Hend.
  { intros y Y1 Y2 Y3 Y4 Y5 Y6 t. assert (forall j, node t j = if decide (j = i) then y else node s j) as Hn by (intros j; exact (node_with i y s j Hi)). split_and!; try done.
    - unfold t. rewrite <- (with_lock_same i y s). apply (icache_set s I None (Some i) i y c (it_lock (id_it s)) Hs); try done; [by left|by right|lia|].
      intros _. rewrite Y4. split_and!; [lia|done|done].
    - intros j. rewrite Hn. case_decide; by subst.
    - intros j. rewrite Hn. case_decide; by subst. }
  destruct (i_valid (node s i)) eqn:Ev; cbn [negb when].
  - apply returns_ret. apply Hend; try done. symmetry. by apply (ic_valid _ _ _ Hs).
  - do 3 (apply returns_bind; eapply returns_intro; [done|]). cbv zeta. set (b := id_blk _ _).
    assert (get_dinode (dinode_off (i_inum x)) b = disk_inode s (i_inum (node s i))) as ->.
    { unfold b, disk_inode. f_equal. change (it_sb (lget itl s1)) with (sbl s). rewrite Z2Nat.id; [done|]. destruct (Hlive _ Hin). unfold IBLOCK, u32. apply Z.mod_pos_bound. done. }
    set (d := disk_inode s _). apply returns_bind. eapply returns_intro; [apply imod_eq|]. rewrite E1. set (y := x <| i_type := _ |> <| i_major := _ |> <| i_minor := _ |> <| i_nlink := _ |> <| i_size := _ |> <| i_addrs := _ |>).
    apply returns_bind. eapply returns_intro; [done|]. apply returns_bind. eapply returns_intro; [apply imod_eq|].
    replace (d_type d =? 0) with false by (symmetry; by apply Z.eqb_neq). apply returns_ret. set (u := with_node i y s1).
    assert (node u i = y) as -> by (apply (node_with_eq i y s1); unfold has_node; cbn; by rewrite length_insert).
    assert (with_node i (y <| i_valid := true |>) u = with_cpu c (with_node i (y <| i_valid := true |>) s)) as ->.
    { unfold u, s1. change (with_cpu c (with_node i (y <| i_valid := true |>) (with_node i y (with_node i x s))) = with_cpu c (with_node i (y <| i_valid := true |>) s)). by rewrite !with_node_twice. }
    by apply Hend.
Qed.

Lemma iunlock_cached addr s I i : icache_ok s I (Some i) ->
  returns (iunlock itl addr (Some i)) s (fun _ t =>
    icache_ok t I None /\ same_disk s t /\ own t = own s /\ same_refs s t /\ same_inums s t /\ shadow i s t /\ same_valid s t).
Proof.
  intros Hs. destruct (ic_held _ _ _ Hs i eq_refl) as (Hr & Hv & Hm1 & Hm2 & Hm3). destruct (has_ref s I _ i Hs Hr) as [Hi _]. destruct (ic_rest _ _ _ Hs) as [Hc Hl].
  unfold iunlock. apply returns_bind. eapply returns_intro; [by apply holdingsleep_ideal|]. rewrite Hm1, Hm2. change (true && (1 =? 1)) with true. cbn [negb].
  unfold relocked. set (c := touched (id_cpu s)). assert (cpu_ok c) as Hct by (by apply touched_ok).
  set (x := (node s i) <| i_lock := _ |>). set (s1 := with_cpu c _). assert (node s1 i = x) as E1 by exact (node_with_eq i x s Hi).
  apply returns_bind. eapply returns_intro; [done|]. change (lget (il itl i) s1) with (node s1 i). rewrite E1. change (i_ref x) with (i_ref (node s i)).
  replace (i_ref (node s i) <? 1) with false by zcase.
  assert (has_node i s1) as Hi1 by (unfold has_node; cbn; by rewrite length_insert).
  destruct (releasesleep_ideal (addr i) i s1 Hct Hi1) as (l & E & Hidle); [by rewrite E1|]. eapply returns_intro; [exact E|]. unfold relocked. rewrite E1.
  change (id_cpu s1) with c. set (y := x <| i_lock := l |>).
  assert (with_cpu (touched c) (with_node i y s1) = with_cpu (touched c) (with_lock (it_lock (id_it s)) (with_node i y s))) as ->.
  { rewrite with_lock_same. unfold s1. change (with_cpu (touched c) (with_node i y (with_node i x s)) = with_cpu (touched c) (with_node i y s)). by rewrite with_node_twice. }
  set (t := with_cpu _ _). assert (forall j, node t j = if decide (j = i) then y else node s j) as Hn by (intros j; exact (node_with i y s j Hi)). split_and!; try done.
  - apply (icache_set s I (Some i) None i y (touched c) (it_lock (id_it s)) Hs); try done; [by right|by left|by apply touched_ok|change (0 <= i_ref (node s i) <= i_ref (node s i)); lia|].
    intros _. symmetry. by apply (ic_valid _ _ _ Hs).
  - intros j. rewrite Hn. case_decide; by subst.
  - intros j. rewrite Hn. case_decide; by subst.
  - transitivity (with_node i y s); [by apply shadow_node|]. unfold t. rewrite with_lock_same. by split.
  - intros j. rewrite Hn. case_decide; by subst.
Qed.

(** Dropping a reference; no inode is freed, since all have links. *)
Lemma iput_cached addr fuel s I i : icache_ok s I None -> live s I -> 0 < i_ref (node s i) ->
  returns (iput itl addr fuel (Some i)) s (fun _ t => icache_ok t I None /\ same_disk s t /\ own t = own s /\ one_more t s i /\ same_inums s t).
Proof.
  intros Hs Hlive Hr. destruct (has_ref s I None i Hs Hr) as [Hi _]. pose proof (ic_rest _ _ _ Hs) as Hrest.
  eapply returns_mono; [apply (iput_kept addr fuel s i Hi Hrest)|].
  { destruct (i_valid (node s i)) eqn:Ev; [|by rewrite andb_false_r]. pose proof (ic_valid _ _ _ Hs i Hr Ev) as Hd.
    destruct (ic_inum _ _ _ Hs i Hr) as [_ Hin]. destruct (Hlive _ Hin) as (_ & _ & Hn). unfold on_disk in Hd. unfold disk_inode in Hn. rewrite Hd in Hn.
    change (d_nlink (as_dinode (node s i))) with (i_nlink (node s i)) in Hn. replace (i_nlink (node s i) =? 0) with false by (symmetry; by apply Z.eqb_neq). apply andb_false_r. }
  intros _ t (Ht & Hat & Hn). assert (same_disk s t) as Hsd by (split; apply Ht). assert (one_more t s i) as Hone.
  { intros j. case_decide as E; [subst j; rewrite Hn; cbn; lia|]. rewrite (sh_others _ _ _ Ht) by done. lia. }
  split_and!; [|done|apply Ht|done|by intros j; destruct (core_fields _ _ (shadow_core i s t j Ht)) as (_ & ? & _)]. destruct Hs as [C1 C2 C3 C4 C5 C6 C7 C8].
  assert (forall j, j <> i -> node t j = node s j) as Hne by (intros; by apply (sh_others _ _ _ Ht)). split.
  - by rewrite (sh_table _ _ _ Ht).
  - done.
  - eapply unique_mono; [|exact C3]. intros d n j (Hj & Hr' & Hd' & Hn'). destruct (decide (j = i)) as [->|E]; [|by rewrite Hne in * by done].
    rewrite Hn in Hr', Hd', Hn'. split; [done|]. split; [exact Hr|]. by split.
  - intros j. destruct (decide (j = i)) as [->|E]; [rewrite Hn; cbn; lia|]. by rewrite Hne.
  - intros j. destruct (decide (j = i)) as [->|E]; [|rewrite Hne by done; apply C5]. rewrite Hn. intros _. by apply C5.
  - intros j Hr' Hv. apply (shadow_on_disk i s t Ht). destruct (decide (j = i)) as [->|E]; [|rewrite Hne in * by done; by apply C6]. rewrite Hn in Hv. by apply C6.
  - intros j _. destruct (decide (j = i)) as [->|E]; [rewrite Hn; by apply C7|]. rewrite Hne by done. by apply C7.
  - done.
Qed.

(** One more reference to an entry that is used *)
Lemma idup_cached s I i : icache_ok s I None -> 0 < i_ref (node s i) ->
  returns (idup itl (Some i)) s (fun r t => r = Some i /\ icache_ok t I None /\ same_disk s t /\ own t = own s /\ one_more s t i /\ same_inums s t).
Proof.
  intros Hs Hr. destruct (has_ref s I None i Hs Hr) as [Hi _]. destruct (ic_rest _ _ _ Hs) as [Hc Hl]. unfold idup.
  apply returns_bind. eapply returns_intro; [by apply acquire_itable|]. set (u := with_cpu _ _). apply returns_bind. eapply returns_intro; [done|].
  apply returns_bind. eapply returns_intro; [apply imod_eq|]. change (node u i) with (node s i). set (x := (node s i) <| i_ref := i_ref (node s i) + 1 |>).
  apply returns_bind. eapply returns_intro; [by apply (release_itable (id_cpu s) (it_lock (id_it s)))|]. apply returns_ret.
  set (t := with_cpu _ _). assert (forall j, node t j = if decide (j = i) then x else node s j) as Hn by (intros j; exact (node_with i x s j Hi)).
  assert (same_disk s t) as Hsd by done. split; [done|]. split_and!; try done.
  - destruct Hs as [C1 C2 C3 C4 C5 C6 C7 C8]. split.
    + change (length (<[i := x]> (it_inode (id_it s))) = NINODE). by rewrite length_insert.
    + split; [by apply touched_ok|done].
    + eapply unique_mono; [|exact C3]. intros d n j (Hj & Hr' & Hd' & Hn'). rewrite Hn in Hr', Hd', Hn'. case_decide; [subst j|done]. split; [done|]. split; [exact Hr|]. by split.
    + intros j. rewrite Hn. case_decide; [cbn; lia|apply C4].
    + intros j. rewrite Hn. case_decide; [subst j; intros _; by apply C5|apply C5].
    + intros j. unfold on_disk. rewrite Hn. case_decide; [subst j; intros _; by apply C6|apply C6].
    + intros j _. rewrite Hn. case_decide; by apply C7.
    + done.
  - intros j. rewrite Hn. case_decide; [subst; done|lia].
  - intros j. rewrite Hn. case_decide; by subst.
Qed.

Lemma iunlockput_cached addr fuel s I i : icache_ok s I (Some i) -> live s I ->
  returns (iunlockput itl addr fuel (Some i)) s (fun _ t => icache_ok t I None /\ same_disk s t /\ own t = own s /\ one_more t s i /\ same_inums s t).
Proof.
  intros Hs Hlive. destruct (ic_held _ _ _ Hs i eq_refl) as (Hr & _). unfold iunlockput. apply returns_bind.
  eapply returns_mono; [by apply iunlock_cached|]. intros [] t (T1 & T2 & T3 & T4 & T5 & _).
  eapply returns_mono; [apply (iput_cached addr fuel t I i T1); [by eapply live_same|by rewrite T4]|]. intros _ u (U1 & U2 & U3 & U4 & U5). split_and!; [done|by etrans|congruence| |].
  - intros j. by rewrite <- T4.
  - intros j. by rewrite U5.
Qed.
