(* ===== verification/Dirs.v ===== *)
(** * Dirs: directories as lists of entries

    dirlookup() and dirlink() of [Fs] against the entries of a directory, over the files of
    [Content]. *)
From S2P Require Import Prelude Spinlock Mem Os Sleeplock Bio Log Fs File FsSpec Content.

(** ** Names *)

(** A name in a field of [n] bytes: up to its NUL *)
Fixpoint cut (n : nat) (s : list Z) : list Z :=
  match n with
  | O => []
  | S n' => if nth 0 s 0 =? 0 then [] else nth 0 s 0 :: cut n' (tail s)
  end.

Lemma bstrncmp_cut n : forall s t, bstrncmp n s t = 0 <-> cut n s = cut n t.
Proof.
  induction n as [|n IH]; intros s t; cbn [bstrncmp cut]; [done|]. cbv zeta. set (a := nth 0 s 0). set (b := nth 0 t 0).
  destruct (Z.eqb_spec a 0) as [Ha|Ha], (Z.eqb_spec a b) as [Hab|Hab]; cbn [negb andb].
  - replace (b =? 0) with true by zcase. split; [done|]. lia.
  - replace (b =? 0) with false by zcase. split; [lia|done].
  - replace (b =? 0) with false by zcase. rewrite IH, Hab. split; [by intros ->|by intros [=]].
  - split; [lia|]. destruct (b =? 0); [done|]. by intros [=].
Qed.

Lemma cut_bstrncpy n : forall s, cut n (bstrncpy n s) = cut n s.
Proof.
  induction n as [|n IH]; intros s; cbn [cut bstrncpy]; [done|]. destruct (Z.eqb_spec (nth 0 s 0) 0) as [E|E]; [done|].
  cbn [nth tail]. replace (nth 0 s 0 =? 0) with false by zcase. by rewrite IH.
Qed.

Lemma length_name_field n : forall t, length (bstrncpy n t) = n.
Proof.
  induction n as [|n IH]; intros t; cbn [bstrncpy]; [done|]. case_match; [apply length_replicate|]. cbn [length]. by rewrite IH.
Qed.

(** ** Entries *)

Definition entry (c : list Z) (k : nat) : list Z := take 16 (drop (16 * k) c).
Definition entries (c : list Z) : list (list Z) := entry c <$> seq 0 (length c / 16).

(** The entry is in use, and has the name. *)
Definition names (name : list Z) (de : list Z) : Prop := de_inum de <> 0 /\ cut DIRSIZ name = cut DIRSIZ (de_name de).
#[export] Instance names_dec name de : Decision (names name de).
Proof. unfold names. apply _. Defined.
Definition unused (de : list Z) : Prop := de_inum de = 0.
#[export] Instance unused_dec de : Decision (unused de).
Proof. unfold unused. apply _. Defined.

Lemma lookup_entries c k de : entries c !! k = Some de <-> (k < length c / 16)%nat /\ de = entry c k.
Proof.
  unfold entries. rewrite list_lookup_fmap. split.
  - intros H. apply fmap_Some in H as (j & Hj & ->). by apply lookup_seq in Hj as [-> Hk].
  - intros [Hk ->]. by rewrite lookup_seq_lt.
Qed.

(** ** Reading an entry *)

Lemma mget_put_bytes l : forall a m x, mget (put_bytes a l m) x = if decide (a <= x < a + Z.of_nat (length l)) then nth (Z.to_nat (x - a)) l 0 else mget m x.
Proof.
  induction l as [|b l IH]; intros a m x; cbn [put_bytes length]; [by rewrite decide_False by lia|]. rewrite IH, mget_mset.
  destruct (decide (a + 1 <= x < a + 1 + Z.of_nat (length l))).
  - rewrite decide_True by lia. replace (Z.to_nat (x - a)) with (S (Z.to_nat (x - (a + 1)))) by lia. done.
  - destruct (Z.eqb_spec x a) as [->|]; [|by rewrite decide_False by lia]. rewrite decide_True by lia. by rewrite Z.sub_diag.
Qed.

Lemma bytes_at_put a l m : bytes_at a (length l) (put_bytes a l m) = l.
Proof.
  apply nth_ext; [apply length_bytes_at|]. intros j Hj. rewrite length_bytes_at in Hj. rewrite nth_bytes_at, mget_put_bytes, decide_True by lia.
  f_equal. lia.
Qed.

Section Dirs.
Context (de_addr : Z) (Hde : 0 <= de_addr /\ de_addr + 16 <= 2 ^ 64).
Context (s : ideal) (L : list nat) (Hf : files_ok s L) (dp : nat) (Hdp : dp ∈ L).
Context (Hdir : i_type (node s dp) = T_DIR) (Hwhole : i_size (node s dp) mod 16 = 0).

Notation dir := (content s dp).
Notation count := (length dir / 16)%nat.

Lemma dir_size : i_size (node s dp) = 16 * Z.of_nat count /\ length dir = (16 * count)%nat.
Proof.
  pose proof (no_size _ _ (fo_inode _ _ Hf dp Hdp)) as Hs. rewrite length_content. generalize dependent (i_size (node s dp)). intros z Hz Hs.
  assert (z = 16 * (z / 16)) as E by zmod. assert (0 <= z / 16) by zmod.
  assert (Z.to_nat z = (16 * Z.to_nat (z / 16))%nat) as Ez by lia. rewrite Ez. rewrite Nat.mul_comm, Nat.div_mul by lia. lia.
Qed.

Lemma length_entry_at k : (k < count)%nat -> length (entry dir k) = 16%nat.
Proof. intros Hk. unfold entry. rewrite length_take, length_drop. destruct dir_size as [_ ->]. lia. Qed.

(** One entry is read to the stack. *)
Lemma read_entry k m msg : (k < count)%nat ->
  read_dirent itl de_addr dp (de_size * Z.of_nat k) msg (with_kern m s) = Ret (entry dir k) (with_kern (put_bytes de_addr (entry dir k) m) s).
Proof.
  intros Hk. unfold read_dirent, de_size. destruct dir_size as [Es El]. pose proof (no_size _ _ (fo_inode _ _ Hf dp Hdp)) as Hs. rewrite Es in Hs.
  assert (i_size (node (with_kern m s) dp) = 16 * Z.of_nat count) as Es' by exact Es. sizes.
  erewrite bind_ret.
  2: { apply (readi_ok (with_kern m s) L dp false de_addr (16 * Z.of_nat k) 16); [by apply files_kern|done|lia|lia|lia|lia|lia]. }
  rewrite Es'. replace (Z.min 16 (16 * Z.of_nat count - 16 * Z.of_nat k)) with 16 by lia. change (16 =? 16) with true. cbn [negb].
  replace (take (Z.to_nat 16) (drop (Z.to_nat (16 * Z.of_nat k)) (content (with_kern m s) dp))) with (entry dir k).
  2: { unfold entry. change (content (with_kern m s) dp) with dir. change (Z.to_nat 16) with 16%nat. do 2 f_equal. lia. }
  assert (bytes_at de_addr 16 (put_bytes de_addr (entry dir k) m) = entry dir k) as E by (rewrite <- (length_entry_at k Hk) at 1; apply bytes_at_put).
  set (m' := put_bytes de_addr (entry dir k) m) in *. change (Ret (bytes_at de_addr 16 m') (with_kern m' s) = Ret (entry dir k) (with_kern m' s)). by rewrite E.
Qed.

(** A loop over the entries that passes those without [P] *)
Lemma scan_loop {A} (body : nat -> M ideal (option A)) (P : list Z -> Prop) `{!forall de, Decision (P de)} :
  (forall k m, (k < count)%nat -> ~ P (entry dir k) -> exists m', body k (with_kern m s) = Ret None (with_kern m' s)) ->
  forall n k m, (k + n = count)%nat ->
  match list_find P (entry dir <$> seq k n) with
  | None => exists m', for_first (seq k n) body (with_kern m s) = Ret None (with_kern m' s)
  | Some (j, de) => de = entry dir (k + j) /\ P de /\ (k + j < count)%nat /\ exists m', for_first (seq k n) body (with_kern m s) =
      (r <- body (k + j)%nat ;; match r with Some a => ret (Some a) | None => for_first (seq (S (k + j)) (n - S j)) body end) (with_kern m' s)
  end.
Proof.
  intros Hb n. induction n as [|n IH]; intros k m Hk; [by exists m|].
  change (seq k (S n)) with (k :: seq (S k) n). cbn [fmap list_fmap list_find]. case_decide as E.
  - rewrite Nat.add_0_r. split_and!; [done|done|lia|]. exists m. by rewrite Nat.sub_succ, Nat.sub_0_r.
  - destruct (Hb k m ltac:(lia) E) as [m1 E1]. specialize (IH (S k) m1 ltac:(lia)). change (list_fmap _ _ (entry dir) (seq (S k) n)) with (entry dir <$> seq (S k) n).
    destruct (list_find P (entry dir <$> seq (S k) n)) as [[j de]|]; cbn [fmap option_fmap option_map prod_map].
    + destruct IH as (H1 & H2 & H3 & m' & H4). cbn [id fst snd]. replace (k + S j)%nat with (S k + j)%nat by lia. split_and!; [done|done|lia|]. exists m'.
      cbn [for_first]. erewrite bind_ret by exact E1. exact H4.
    + destruct IH as [m2 H2]. exists m2. cbn [for_first]. by erewrite bind_ret by exact E1.
Qed.

(** dirlookup() looks at the entries in turn, to the first that has the name. *)
Lemma dirlookup_scan name m :
  match list_find (names name) (entries dir) with
  | None => exists m', dirlookup itl de_addr dp name (with_kern m s) = Ret None (with_kern m' s)
  | Some (k, de) => exists m', dirlookup itl de_addr dp name (with_kern m s) =
      (x <- iget itl (i_dev (node s dp)) (de_inum de) ;; ret (Some (x, de_size * Z.of_nat k))) (with_kern m' s)
  end.
Proof.
  unfold dirlookup. destruct dir_size as [Es El].
  assert (Z.to_nat ((i_size (node s dp) + de_size - 1) / de_size) = count) as Ec by (rewrite Es; generalize count; intros c; unfold de_size; zmod).
  erewrite bind_ret by done. change (lget (il itl dp) (with_kern m s)) with (node s dp). rewrite Hdir, Ec. change (T_DIR =? T_DIR) with true. cbn [negb].
  set (body := fun k : nat => _).
  assert (forall k m, (k < count)%nat -> ~ names name (entry dir k) -> exists m', body k (with_kern m s) = Ret None (with_kern m' s)) as Hno.
  { intros k m0 Hk Hn. unfold body. erewrite bind_ret by (by apply read_entry). eexists. destruct (Z.eqb_spec (de_inum (entry dir k)) 0) as [|Hi]; [done|].
    destruct (Z.eqb_spec (namecmp name (de_name (entry dir k))) 0) as [E|]; [|done]. destruct Hn. split; [done|]. by apply bstrncmp_cut. }
  pose proof (scan_loop body (names name) Hno count 0 m eq_refl) as H. unfold entries. destruct (list_find _ _) as [[k de]|]; [|exact H].
  cbn [Nat.add] in H. destruct H as (-> & [H1 H2%bstrncmp_cut] & Hk & m' & E). exists (put_bytes de_addr (entry dir k) m'). rewrite E. unfold body at 1.
  rewrite bind_assoc. erewrite bind_ret by (by apply read_entry). replace (de_inum (entry dir k) =? 0) with false by zcase.
  unfold namecmp. rewrite H2, Z.eqb_refl. rewrite bind_assoc. erewrite bind_ret by done. rewrite bind_assoc. by apply bind_ext.
Qed.

Context (inode_addr : nat -> Z) (fuel : nat).

(** dirlink() with a name that the directory does not have: the first unused entry, or a new one at the end *)
Definition new_entry (name : list Z) (inum : Z) : list Z := put_le 2 0 (inum mod 2 ^ 16) [0; 0] ++ bstrncpy DIRSIZ name.
Definition free_entry : nat := match list_find unused (entries dir) with Some (k, _) => k | None => length (entries dir) end.

Lemma dirlink_scan name inum : list_find (names name) (entries dir) = None -> exists m,
  dirlink itl inode_addr de_addr fuel dp name inum s =
  (os_kwrite de_addr (new_entry name inum) ;;
   w <- writei itl dp false de_addr (de_size * Z.of_nat free_entry) de_size ;;
   if negb (w =? de_size) then panic "dirlink" else ret 0) (with_kern m s).
Proof.
  intros Hno. unfold dirlink. pose proof (dirlookup_scan name (id_kern s)) as H. rewrite Hno in H. destruct H as [m E].
  replace (with_kern (id_kern s) s) with s in E by (by destruct s). erewrite bind_ret by exact E. cbv iota.
  destruct dir_size as [Es El]. assert ((i_size (node s dp) + de_size - 1) / de_size = Z.of_nat count) as Ec by (rewrite Es; generalize count; intros c; unfold de_size; zmod).
  erewrite bind_ret by done. change (lget (il itl dp) (with_kern m s)) with (node s dp). cbv zeta. rewrite Ec, Nat2Z.id. set (body := fun k : nat => _).
  assert (forall k m, (k < count)%nat -> ~ unused (entry dir k) -> exists m', body k (with_kern m s) = Ret None (with_kern m' s)) as Hu.
  { intros k m0 Hk Hn. unfold body. erewrite bind_ret by (by apply read_entry). eexists. unfold unused in Hn. by replace (de_inum (entry dir k) =? 0) with false by zcase. }
  pose proof (scan_loop body unused Hu count 0 m eq_refl) as H. unfold free_entry. assert (length (entries dir) = count) as -> by (unfold entries; by rewrite length_fmap, length_seq). unfold entries. destruct (list_find unused _) as [[k de]|].
  - cbn [Nat.add] in H. destruct H as (-> & H1 & Hk & m' & E'). exists (put_bytes de_addr (entry dir k) m').
    erewrite bind_ret; [|rewrite E'; unfold body at 1; rewrite bind_assoc; erewrite bind_ret by (by apply read_entry); unfold unused in H1; rewrite H1, Z.eqb_refl; erewrite bind_ret by done; done].
    done.
  - destruct H as [m' E']. exists m'. erewrite bind_ret by exact E'. done.
Qed.
End Dirs.

(** ** An entry is put in *)

Lemma nth_entry c k i : (i < 16)%nat -> nth i (entry c k) 0 = nth (16 * k + i) c 0.
Proof. intros Hi. unfold entry. by rewrite !nth_lookup, lookup_take_lt, lookup_drop by lia. Qed.

Lemma entry_splice c e k j : length e = 16%nat -> (16 * k <= length c)%nat -> (k <> j -> (16 * j + 16 <= length c)%nat) ->
  entry (splice (16 * k) e c) j = if decide (j = k) then e else entry c j.
Proof.
  intros He Hk Hj. assert (length (splice (16 * k) e c) = Nat.max (length c) (16 * k + 16)) as Hl.
  { unfold splice. rewrite !length_app, length_take, length_drop, He. lia. }
  assert (length (entry (splice (16 * k) e c) j) = 16%nat) as Hle.
  { unfold entry. rewrite length_take, length_drop, Hl. destruct (decide (k = j)); lia. }
  apply nth_ext.
  - rewrite Hle. case_decide; [done|]. unfold entry. rewrite length_take, length_drop. specialize (Hj (not_eq_sym H)). lia.
  - intros i Hi. rewrite Hle in Hi. rewrite nth_entry, nth_splice by lia. rewrite He. case_decide as E1; case_decide as E2; try (exfalso; lia).
    + f_equal. lia.
    + by rewrite nth_entry.
Qed.

Lemma entries_splice c e k n : length e = 16%nat -> length c = (16 * n)%nat -> (k <= n)%nat ->
  entries (splice (16 * k) e c) = take k (entries c) ++ e :: drop (S k) (entries c).
Proof.
  intros He Hc Hk. assert (length (splice (16 * k) e c) / 16 = Nat.max n (S k))%nat as Hl.
  { assert (length (splice (16 * k) e c) = (Nat.max n (S k) * 16)%nat) as -> by (unfold splice; rewrite !length_app, length_take, length_drop, He; lia).
    by apply Nat.div_mul. }
  assert (length c / 16 = n)%nat as Ec by (rewrite Hc, Nat.mul_comm; by apply Nat.div_mul).
  assert (length (entries c) = n) as Hn by (unfold entries; by rewrite length_fmap, length_seq).
  apply list_eq. intros j. apply option_eq. intros de. rewrite lookup_entries, Hl.
  destruct (decide (j < k)%nat) as [H1|H1]; [|destruct (decide (j = k)) as [->|H2]].
  - rewrite lookup_app_l by (rewrite length_take; lia). rewrite lookup_take_lt, lookup_entries, entry_splice, decide_False, Ec by lia. split; intros [? ?]; split; (done || lia).
  - rewrite lookup_app_r by (rewrite length_take; lia). rewrite length_take, Nat.min_l, Nat.sub_diag by lia. cbn [lookup list_lookup]. rewrite entry_splice, decide_True by (done || lia).
    split; [by intros [_ ->]|intros [= ->]; split; [lia|done]].
  - rewrite lookup_app_r by (rewrite length_take; lia). rewrite length_take, Nat.min_l by lia. replace (j - k)%nat with (S (j - S k)) by lia.
    change ((e :: drop (S k) (entries c)) !! S (j - S k)%nat) with (drop (S k) (entries c) !! (j - S k)%nat). rewrite lookup_drop. replace (S k + (j - S k))%nat with j by lia. rewrite lookup_entries, Ec. split.
    + intros [Hj ->]. rewrite entry_splice, decide_False by lia. split; [lia|done].
    + intros [Hj ->]. rewrite entry_splice, decide_False by lia. split; [lia|done].
Qed.

Lemma new_entry_ok name inum : 0 <= inum < 2 ^ 16 -> length (new_entry name inum) = 16%nat /\ de_inum (new_entry name inum) = inum /\
  cut DIRSIZ (de_name (new_entry name inum)) = cut DIRSIZ name.
Proof.
  intros Hi. unfold new_entry. set (h := put_le 2 0 _ _). assert (h = [inum mod 2 ^ 16 mod 256; inum mod 2 ^ 16 / 256 mod 256]) as -> by done. split_and!.
  - rewrite length_app, length_name_field. done.
  - unfold de_inum. cbn. zmod.
  - unfold de_name. change (drop 2 _) with (bstrncpy DIRSIZ name). apply cut_bstrncpy.
Qed.

(** The entry that was put in is the first with its name. *)
Lemma find_new name inum es k : 0 < inum < 2 ^ 16 -> list_find (names name) es = None -> (k <= length es)%nat ->
  list_find (names name) (take k es ++ new_entry name inum :: drop (S k) es) = Some (k, new_entry name inum).
Proof.
  intros Hi Hno Hk. apply list_find_None in Hno. rewrite Forall_forall in Hno. destruct (new_entry_ok name inum ltac:(lia)) as (_ & H1 & H2). apply list_find_Some. split_and!.
  - rewrite lookup_app_r by (rewrite length_take; lia). rewrite length_take, Nat.min_l, Nat.sub_diag by lia. done.
  - split; [lia|done].
  - intros j y Hj Hlt. rewrite lookup_app_l in Hj by (rewrite length_take; lia). apply lookup_take_Some in Hj as [Hj _]. apply Hno. by eapply list_elem_of_lookup_2.
Qed.

(** ** Properties *)

(** C19: dirlookup() on a directory finds the first entry in use with the name, compared up to
    a NUL and to 14 bytes; its inode is then in the table of inodes, with the other entries
    of the table as they were, and the offset of the entry is returned.  Without such
    an entry it returns nothing.  No block changes. *)
Theorem dirlookup_finds (de_addr : Z) (Hde : 0 <= de_addr /\ de_addr + 16 <= 2 ^ 64) (s : ideal) (L : list nat) (Hf : files_ok s L)
  (dp : nat) (Hdp : dp ∈ L) (Hdir : i_type (node s dp) = T_DIR) (Hwhole : i_size (node s dp) mod 16 = 0) (name : list Z) :
  match list_find (names name) (entries (content s dp)) with
  | None => exists m, dirlookup itl de_addr dp name s = Ret None (with_kern m s)
  | Some (k, de) =>
      cpu_ok (id_cpu s) -> lk_locked (it_lock (id_it s)) = false -> length (it_inode (id_it s)) = NINODE -> unique (id_it s) ->
      (exists i, cached (id_it s) (i_dev (node s dp)) (de_inum de) i \/ ((i < NINODE)%nat /\ i_ref (node s i) = 0)) ->
      returns (dirlookup itl de_addr dp name) s (fun r t =>
        exists ip, r = Some (ip, de_size * Z.of_nat k) /\ cached (id_it t) (i_dev (node s dp)) (de_inum de) ip /\ unique (id_it t) /\
          id_blk t = id_blk s /\ forall j, j <> ip -> node t j = node s j)
  end.
Proof.
  pose proof (dirlookup_scan de_addr Hde s L Hf dp Hdp Hdir Hwhole name (id_kern s)) as H. replace (with_kern (id_kern s) s) with s in H by (by destruct s).
  destruct (list_find _ _) as [[k de]|]; [|exact H]. destruct H as [m E]. intros Hc Hl Hlen Hu Hex. unfold returns. rewrite E.
  change (returns (x <- iget itl (i_dev (node s dp)) (de_inum de) ;; ret (Some (x, de_size * Z.of_nat k))) (with_kern m s) (fun r t =>
    exists ip, r = Some (ip, de_size * Z.of_nat k) /\ cached (id_it t) (i_dev (node s dp)) (de_inum de) ip /\ unique (id_it t) /\
      id_blk t = id_blk s /\ forall j, j <> ip -> node t j = node s j)).
  apply returns_bind. eapply returns_mono; [exact (iget_spec _ _ (with_kern m s) Hc Hl Hlen Hu Hex)|].
  intros ip t (H1 & H2 & H3 & H4 & _). apply returns_ret. by exists ip.
Qed.

(** C20: dirlink() of a name that the directory does not have puts the entry in the first slot that
    is not used, or at the end, and changes no other; the new entry is the one that a
    lookup of the name finds from then on.  No other file changes. *)
Theorem dirlink_adds (inode_addr : nat -> Z) (fuel : nat) (de_addr : Z) (Hde : 0 <= de_addr /\ de_addr + 16 <= 2 ^ 64) (s : ideal) (L : list nat) (Hf : files_ok s L)
  (dp : nat) (Hdp : dp ∈ L) (Hdir : i_type (node s dp) = T_DIR) (Hwhole : i_size (node s dp) mod 16 = 0) (name : list Z) (inum : Z)
  (Hinum : 0 < inum < 2 ^ 16) (Hno : list_find (names name) (entries (content s dp)) = None)
  (Hroom : (missing s dp (16 * Z.of_nat (free_entry s dp)) (16 * Z.of_nat (free_entry s dp) + 16) <= room s)%nat)
  (Hmax : 16 * Z.of_nat (free_entry s dp) + 16 <= MAXFILE * BSIZE) :
  returns (dirlink itl inode_addr de_addr fuel dp name inum) s (fun r t =>
    let es := entries (content s dp) in
    let k := free_entry s dp in
    r = 0 /\ files_ok t L /\ entries (content t dp) = take k es ++ new_entry name inum :: drop (S k) es /\
    list_find (names name) (entries (content t dp)) = Some (k, new_entry name inum) /\
    (forall j, j ∈ L -> j <> dp -> content t j = content s j) /\
    i_type (node t dp) = T_DIR /\ i_size (node t dp) mod 16 = 0).
Proof.
  destruct (dirlink_scan de_addr Hde s L Hf dp Hdp Hdir Hwhole inode_addr fuel name inum Hno) as [m E]. unfold returns. rewrite E.
  set (es := entries (content s dp)) in *. assert (length es = length (content s dp) / 16)%nat as Hes by (unfold es, entries; by rewrite length_fmap, length_seq).
  set (k := free_entry s dp) in *.
  destruct (dir_size s L Hf dp Hdp Hwhole) as [Es El]. rewrite <- Hes in Es, El. destruct (new_entry_ok name inum ltac:(lia)) as (Hlen & _ & _). set (e := new_entry name inum) in *.
  assert (k <= length es)%nat as Hk.
  { unfold k, free_entry. fold es. destruct (list_find unused es) as [[j de]|] eqn:Ef; [|lia]. apply list_find_Some in Ef as (Hj & _). apply lookup_lt_Some in Hj. lia. }
  change (returns (w <- writei itl dp false de_addr (de_size * Z.of_nat k) de_size ;; if negb (w =? de_size) then panic "dirlink" else ret 0)
    (with_kern (put_bytes de_addr e m) s) (fun r t => r = 0 /\ files_ok t L /\ entries (content t dp) = take k es ++ e :: drop (S k) es /\
      list_find (names name) (entries (content t dp)) = Some (k, e) /\ (forall j, j ∈ L -> j <> dp -> content t j = content s j) /\
      i_type (node t dp) = T_DIR /\ i_size (node t dp) mod 16 = 0)).
  apply returns_bind. eapply returns_mono.
  { apply (writei_ok (with_kern (put_bytes de_addr e m) s) L dp false de_addr (de_size * Z.of_nat k) de_size (files_kern _ _ _ Hf) Hdp); unfold de_size.
    - sizes. lia.
    - lia.
    - lia.
    - change (16 * Z.of_nat k <= i_size (node s dp)). lia.
    - done.
    - instantiate (1 := 0%nat). rewrite Nat.add_0_r. exact Hroom. }
  intros r t (-> & Hft & Hc & Hoth & _ & _ & Hbe & _). assert (i_type (node t dp) = i_type (node s dp)) as Ht by apply (frame_fields _ _ (be_node _ _ _ Hbe)). change (de_size =? de_size) with true. cbn [negb]. apply returns_ret.
  assert (content t dp = splice (16 * k) e (content s dp)) as Ec.
  { rewrite Hc. change (content (with_kern (put_bytes de_addr e m) s) dp) with (content s dp). f_equal; [unfold de_size; lia|].
    change (Z.to_nat de_size) with 16%nat. rewrite <- Hlen. apply bytes_at_put. }
  assert (entries (content t dp) = take k es ++ e :: drop (S k) es) as Ee by (rewrite Ec; by apply (entries_splice _ _ _ (length es))).
  rewrite Ee. split_and!; try done.
  - apply find_new; [done|exact Hno|done].
  - by rewrite Ht.
  - pose proof (length_content t dp) as Hl. rewrite Ec in Hl. unfold splice in Hl. rewrite !length_app, length_take, length_drop, Hlen in Hl.
    pose proof (no_size _ _ (fo_inode _ _ Hft dp Hdp)). assert (i_size (node t dp) = 16 * Z.of_nat (Nat.max (length es) (S k))) as -> by lia. by rewrite Z.mul_comm, Z_mod_mult.
Qed.

(** ** Witnesses *)

(** A directory of three entries: "a" for inode 1, one that is not used, "b" for inode 2. *)
Definition wit_entry (inum c : Z) : list Z := [inum; 0; c] ++ replicate 13 0.
Definition wit_dir : ideal := wit_with 1 48 (wit_entry 1 97 ++ replicate 16 0 ++ wit_entry 2 98 ++ replicate 976 0) ∅.

Lemma wit_dir_files : files_ok wit_dir [3%nat].
Proof. apply wit_files; done. Defined.

Lemma wit_dir_cpu : cpu_ok (id_cpu wit_dir).
Proof. done. Defined.

Lemma wit_dir_unique : unique (id_it wit_dir).
Proof.
  assert (forall k, (k < NINODE)%nat -> 0 < i_ref (node wit_dir k) -> k = 3%nat) as H.
  { intros k Hk Hr. destruct (decide (k = 3%nat)) as [|Hne]; [done|]. exfalso. unfold geti in Hr. cbn [id_it wit_dir wit_with it_inode] in Hr.
    rewrite list_lookup_insert_ne in Hr by done. rewrite lookup_replicate_2 in Hr by done. cbn in Hr. lia. }
  intros d n i j (Hi & Ri & _) (Hj & Rj & _). by rewrite (H i), (H j).
Defined.

Lemma dirlookup_finds_witness :
  returns (dirlookup itl 4096 3 [98]) wit_dir (fun r t => exists ip, r = Some (ip, 32) /\ cached (id_it t) 1 2 ip).
Proof.
  pose proof (dirlookup_finds 4096 ltac:(lia) wit_dir [3%nat] wit_dir_files 3 ltac:(by left) eq_refl eq_refl [98]) as H.
  assert (list_find (names [98]) (entries (content wit_dir 3)) = Some (2%nat, wit_entry 2 98)) as E by (vm_compute; reflexivity). rewrite E in H.
  assert (length (it_inode (id_it wit_dir)) = NINODE) as Hlen by reflexivity. assert (lk_locked (it_lock (id_it wit_dir)) = false) as Hl by reflexivity.
  assert (exists i, cached (id_it wit_dir) (i_dev (node wit_dir 3)) (de_inum (wit_entry 2 98)) i \/ ((i < NINODE)%nat /\ i_ref (node wit_dir i) = 0)) as Hex
    by (exists 0%nat; right; split; [unfold NINODE; lia|reflexivity]).
  eapply returns_mono; [exact (H wit_dir_cpu Hl Hlen wit_dir_unique Hex)|].
  intros r t (ip & H1 & H2 & _). exists ip. split; [exact H1|exact H2].
Defined.

Lemma dirlink_adds_witness :
  returns (dirlink itl (fun _ => 0) 4096 0 3 [99] 5) wit_dir (fun r t =>
    r = 0 /\ entries (content t 3) = [wit_entry 1 97; wit_entry 5 99; wit_entry 2 98]).
Proof.
  assert (list_find (names [99]) (entries (content wit_dir 3)) = None) as Hno by (vm_compute; reflexivity).
  assert (free_entry wit_dir 3 = 1%nat) as Ek by (vm_compute; reflexivity).
  assert (missing wit_dir 3 (16 * Z.of_nat (free_entry wit_dir 3)) (16 * Z.of_nat (free_entry wit_dir 3) + 16) <= room wit_dir)%nat as Hav
    by (apply Nat.leb_le; vm_compute; reflexivity).
  assert (16 * Z.of_nat (free_entry wit_dir 3) + 16 <= MAXFILE * BSIZE) as Hmax by (vm_compute; discriminate).
  pose proof (dirlink_adds (fun _ => 0) 0 4096 ltac:(lia) wit_dir [3%nat] wit_dir_files 3 ltac:(by left) eq_refl eq_refl [99] 5 ltac:(lia) Hno Hav Hmax) as H.
  eapply returns_mono; [exact H|].
  intros r t (H1 & _ & H2 & _). split; [exact H1|]. rewrite H2. vm_compute. reflexivity.
Defined.
