(* ===== verification/Namei.v ===== *)
(** * Namei: paths as walks over the directories of the disk

    namex() of [Fs], with the locks and references it takes on the way, against the
    entries that the directories have on the disk. *)
From S2P Require Import Prelude Spinlock Mem Os Sleeplock Bio Log Fs File FsSpec Content Trunc Iput Icache Dirs.

(** ** Files on the disk *)

(** The inode [inum] as ilock() would load it *)
Definition dnode (s : ideal) (inum : Z) : inode :=
  let d := disk_inode s inum in
  mkinode ROOTDEV inum 0 (initsleeplock "inode") true (d_type d) (d_major d) (d_minor d) (d_nlink d) (d_size d) (d_addrs d).

Definition file_bytes (s : ideal) (inum : Z) : list Z :=
  (fun k => byte_of (id_blk s) (dnode s inum) (Z.of_nat k)) <$> seq 0 (Z.to_nat (d_size (disk_inode s inum))).

(** A file is well-formed: see [files_ok]. *)
Record file_ok (s : ideal) (x : inode) : Prop := {
  fk_inode : inode_ok s x;
  fk_data : forall k, in_slots k -> slot (id_blk s) x k = 0 \/ data_block s (slot (id_blk s) x k);
  fk_apart : forall k k', in_slots k -> in_slots k' -> slot (id_blk s) x k = slot (id_blk s) x k' -> slot (id_blk s) x k <> 0 -> k = k';
}.

Lemma file_files s i : disk_ok s -> has_node i s -> file_ok s (node s i) -> files_ok s [i].
Proof.
  intros Hd Hi [F1 F2 F3]. split; [done|..].
  - by intros j ->%list_elem_of_singleton.
  - by intros j ->%list_elem_of_singleton.
  - intros j k ->%list_elem_of_singleton. apply F2.
  - intros j j' k k' ->%list_elem_of_singleton ->%list_elem_of_singleton Hk Hk' E H0. split; [done|]. by apply F3.
Qed.

Lemma as_dinode_fields x y : as_dinode x = as_dinode y ->
  i_type x = i_type y /\ i_major x = i_major y /\ i_minor x = i_minor y /\ i_nlink x = i_nlink y /\ i_size x = i_size y /\ i_addrs x = i_addrs y.
Proof. destruct x, y. intros E. by injection E. Qed.

Lemma slot_as_dinode B x y k : as_dinode x = as_dinode y -> slot B x k = slot B y k.
Proof. intros (_ & _ & _ & _ & _ & E)%as_dinode_fields. unfold slot, ind_of. by rewrite E. Qed.

Lemma file_ok_same s t x y : same_disk s t -> i_inum x = i_inum y -> as_dinode x = as_dinode y -> file_ok s x -> file_ok t y.
Proof.
  intros Hs En Ed [[N1 N2 N3 N4 N5] F2 F3]. pose proof Hs as [Eb Es].
  assert (forall k, slot (id_blk t) y k = slot (id_blk s) x k) as Hsl by (intros k; rewrite Eb; symmetry; by apply slot_as_dinode).
  destruct (as_dinode_fields _ _ Ed) as (E1 & E2 & E3 & E4 & E5 & E6). split; [split|..]; rewrite <- ?En, <- ?E1, <- ?E2, <- ?E3, <- ?E4, <- ?E5, <- ?E6, ?Es; try done.
  - intros k. rewrite Hsl. apply N5.
  - intros k Hk. rewrite Hsl. destruct (F2 k Hk); [by left|right; by apply (same_data s)].
  - intros k k'. rewrite !Hsl. apply F3.
Qed.

(** A valid entry shows the bytes that the file has on the disk. *)
Lemma content_file s t i : same_disk s t -> on_disk t i -> content t i = file_bytes s (i_inum (node t i)).
Proof.
  intros Hs Hd. assert (disk_inode s (i_inum (node t i)) = as_dinode (node t i)) as E by (rewrite <- (same_inode s t _ Hs); exact Hd).
  unfold content, file_bytes, dnode. rewrite E. change (d_size (as_dinode (node t i))) with (i_size (node t i)).
  rewrite (proj1 Hs). apply list_fmap_ext. intros k x _. by apply byte_of_addrs.
Qed.

(** *** The directory tree *)

(** The inodes of [I] are in use; the directories among them are whole entries, and name
    inodes of [I] only. *)
Record tree_ok (s : ideal) (I : list Z) : Prop := {
  tk_disk : disk_ok s;
  tk_live : live s I;
  tk_root : ROOTINO ∈ I;
  tk_dir : forall inum, inum ∈ I -> d_type (disk_inode s inum) = T_DIR -> file_ok s (dnode s inum) /\
    d_size (disk_inode s inum) mod 16 = 0 /\ forall de, de ∈ entries (file_bytes s inum) -> de_inum de <> 0 -> de_inum de ∈ I;
}.

(** The inode that the names of a path lead to from [inum]; for nameiparent(), the directory
    of the last name *)
Fixpoint resolve (s : ideal) (parent : bool) (inum : Z) (es : list (list Z)) : option Z :=
  match es with
  | [] => if parent then None else Some inum
  | e :: es' =>
      if negb (d_type (disk_inode s inum) =? T_DIR) then None else
      if parent && bool_decide (es' = []) then Some inum else
      match list_find (names e) (entries (file_bytes s inum)) with
      | Some (_, de) => resolve s parent (de_inum de) es'
      | None => None
      end
  end.

(** ** Names in a buffer *)

Lemma cut_app n : forall e r, Forall (fun c => c <> 0) e -> nth 0 r 0 = 0 \/ (n <= length e)%nat -> cut n (e ++ r) = take n e.
Proof.
  induction n as [|n IH]; intros e r He Hr; [done|]. cbn [cut]. destruct e as [|c e].
  - cbn [app]. destruct Hr as [->|?]; [done|cbn in *; lia].
  - cbn [app nth tail take]. apply Forall_cons in He as [Hc He]. replace (c =? 0) with false by zcase. f_equal. apply IH; [done|]. cbn in Hr. destruct Hr; [by left|right; lia].
Qed.

Lemma cut_name_of e name : cstr e -> length name = DIRSIZ -> cut DIRSIZ (name_of e name) = cut DIRSIZ e.
Proof.
  intros He Hn. assert (cut DIRSIZ e = take DIRSIZ e) as -> by (rewrite <- (app_nil_r e) at 1; apply cut_app; [done|by left]).
  unfold name_of. destruct (Nat.leb_spec DIRSIZ (length e)) as [Hle|Hlt].
  - rewrite cut_app; [by rewrite take_take, Nat.min_id|by apply Forall_take|]. right. by rewrite length_take, Nat.min_l.
  - apply cut_app; [done|by left].
Qed.

Lemma names_ext e e' es : cut DIRSIZ e = cut DIRSIZ e' -> list_find (names e) es = list_find (names e') es.
Proof. intros E. apply list_find_ext. intros de. unfold names. by rewrite E. Qed.

(** ** A step of namex() *)

Lemma icache_kern m s I h : icache_ok s I h -> icache_ok (with_kern m s) I h.
Proof. intros [C1 C2 C3 C4 C5 C6 C7 C8]. by split. Qed.

(** What belongs to the process, but for its memory *)
Definition same_proc (s t : ideal) : Prop := id_cwd t = id_cwd s /\ id_ft t = id_ft s.

Lemma own_proc s t : own t = own s -> same_proc s t.
Proof. by intros [=]. Qed.

(** Two entries of the table are free. *)
Definition two_free (s : ideal) : Prop := exists j k, j <> k /\ (j < NINODE)%nat /\ (k < NINODE)%nat /\ i_ref (node s j) = 0 /\ i_ref (node s k) = 0.

Lemma elements_cstr p e : cstr p -> e ∈ elements p -> cstr e.
Proof.
  intros Hp He. unfold elements in He. apply list_elem_of_filter in He as [_ He].
  revert e He. induction p as [|c p IH]; intros e He; cbn [split_path] in He; [apply list_elem_of_singleton in He as ->; constructor|].
  apply Forall_cons in Hp as [Hc Hp]. specialize (IH Hp). case_match.
  - apply elem_of_cons in He as [->|He]; [constructor|by apply IH].
  - destruct (split_path p) as [|d ds]; [apply list_elem_of_singleton in He as ->; by repeat constructor|].
    apply elem_of_cons in He as [->|He]; [|apply IH; by right]. constructor; [done|]. apply IH. by left.
Qed.

Section Walk.
Context (de_addr : Z) (Hde : 0 <= de_addr /\ de_addr + 16 <= 2 ^ 64) (addr : nat -> Z) (fuel : nat) (Hfuel : (0 < fuel)%nat).
Context (s : ideal) (I : list Z) (Htree : tree_ok s I) (Hs : icache_ok s I None).

(** A directory whose lock is held is searched. *)
Lemma dirlookup_cached t ip name : icache_ok t I (Some ip) -> same_disk s t -> d_type (disk_inode s (i_inum (node t ip))) = T_DIR ->
  (exists k, (k < NINODE)%nat /\ i_ref (node t k) = 0) ->
  returns (dirlookup itl de_addr ip name) t (fun r u => icache_ok u I (Some ip) /\ same_disk t u /\ same_proc t u /\
    match list_find (names name) (entries (file_bytes s (i_inum (node t ip)))) with
    | None => r = None /\ same_refs t u /\ same_inums t u
    | Some (k, de) => exists next off, r = Some (next, off) /\ one_more t u next /\ i_inum (node u next) = de_inum de
    end).
Proof.
  intros Ht Hsd Hdir Hfree. destruct (ic_held _ _ _ Ht ip eq_refl) as (Hr & Hv & _). destruct (has_ref t I _ ip Ht Hr) as [Hi _].
  pose proof (ic_valid _ _ _ Ht ip Hr Hv) as Hod. destruct (ic_inum _ _ _ Ht ip Hr) as [Hdev Hin]. set (inum := i_inum (node t ip)) in *.
  destruct (tk_dir _ _ Htree inum Hin Hdir) as (Hfile & Hwhole & Hents).
  assert (disk_inode s inum = as_dinode (node t ip)) as Ed by (rewrite <- (same_inode s t _ Hsd); exact Hod).
  assert (files_ok t [ip]) as Hf.
  { apply file_files; [by apply (same_disk_ok s), Htree|done|]. apply (file_ok_same s t (dnode s inum)); done. }
  assert (i_type (node t ip) = T_DIR) as Htype by (rewrite Ed in Hdir; exact Hdir).
  assert (i_size (node t ip) mod 16 = 0) as Hsize by (rewrite Ed in Hwhole; exact Hwhole).
  pose proof (dirlookup_scan de_addr Hde t [ip] Hf ip ltac:(by left) Htype Hsize name (id_kern t)) as H.
  replace (with_kern (id_kern t) t) with t in H by (by destruct t). rewrite (content_file s t ip Hsd Hod) in H. fold inum in H.
  destruct (list_find (names name) _) as [[k de]|] eqn:E.
  - destruct H as [m H]. unfold returns. rewrite H. apply list_find_Some in E as (Ek & [Hn0 _] & _). apply list_elem_of_lookup_2 in Ek. rewrite Hdev.
    change (returns (x <- iget itl ROOTDEV (de_inum de) ;; ret (Some (x, de_size * Z.of_nat k))) (with_kern m t) (fun r u => icache_ok u I (Some ip) /\ same_disk t u /\ same_proc t u /\
      exists next off, r = Some (next, off) /\ one_more t u next /\ i_inum (node u next) = de_inum de)).
    apply returns_bind. eapply returns_mono; [apply (iget_cached (with_kern m t) I (Some ip)); [by apply icache_kern|by apply Hents|]|].
    { destruct Hfree as (j & Hj & H0). exists j. by right. }
    intros next u (U1 & U2 & U3 & U4 & U5 & _). apply returns_ret. split_and!; [done|done|by apply own_proc in U3|].
    exists next, (de_size * Z.of_nat k). split_and!; [done|done|by apply U5].
  - destruct H as [m H]. unfold returns. rewrite H. split_and!; try done. by apply icache_kern.
Qed.

(** The count of [ip], of inode [inum], is one higher than at the start. *)
Definition at_inode (t : ideal) (ip : nat) (inum : Z) : Prop :=
  icache_ok t I None /\ same_disk s t /\ same_proc s t /\ one_more s t ip /\ i_inum (node t ip) = inum.
Definition let_go (t : ideal) : Prop := icache_ok t I None /\ same_disk s t /\ same_proc s t /\ same_refs s t.
Context (Hfree : two_free s).

Lemma same_proc_trans t u v : same_proc t u -> same_proc u v -> same_proc t v.
Proof. intros [A1 A2] [B1 B2]. split; congruence. Qed.

Lemma at_inode_ref t ip inum : at_inode t ip inum -> 0 < i_ref (node t ip) /\ inum ∈ I.
Proof.
  intros (H1 & H2 & _ & H4 & H5). assert (0 < i_ref (node t ip)) as Hr by (rewrite H4, decide_True by done; pose proof (ic_ref _ _ _ Hs ip); lia).
  split; [done|]. rewrite <- H5. by apply (ic_inum _ _ _ H1).
Qed.

(** The reference to [ip] is dropped. *)
Lemma drop_inode t u ip inum : at_inode t ip inum -> icache_ok u I None -> same_disk t u -> same_proc t u -> one_more u t ip -> let_go u.
Proof.
  intros (H1 & H2 & H3 & H4 & H5) U1 U2 U3 U4. split; [done|]. split; [by etrans|]. split; [by eapply same_proc_trans|].
  intros j. specialize (H4 j). specialize (U4 j). lia.
Qed.

Lemma rest_empty rest : cstr rest -> nth 0 rest 0 <> slash -> (nth 0 rest 0 =? 0) = bool_decide (elements rest = []).
Proof.
  intros Hc Hs0. destruct rest as [|c rest]; [done|]. cbn [nth] in *. apply Forall_cons in Hc as Hc'. destruct Hc' as [Hc0 _].
  replace (c =? 0) with false by zcase. symmetry. apply bool_decide_eq_false. by rewrite span_elements.
Qed.

Lemma namex_loop_ok parent : forall es k path name t ip inum, cstr path -> length name = DIRSIZ -> elements path = es -> (length path < k)%nat ->
  at_inode t ip inum ->
  returns (namex_loop itl addr de_addr fuel k ip path name parent) t (fun r u =>
    match resolve s parent inum es with
    | Some inum' => exists ip', r.1 = Some ip' /\ at_inode u ip' inum' /\ (parent = true -> exists e, last es = Some e /\ cut DIRSIZ r.2 = cut DIRSIZ e)
    | None => r.1 = None /\ let_go u
    end).
Proof.
  intros es k. revert es. induction k as [|k IH]; intros es path name t ip inum Hp Hn Hes Hk Ht; [lia|].
  pose proof (skipelem_elements path name Hp Hn) as Hskip. rewrite Hes in Hskip. cbn [namex_loop]. destruct (at_inode_ref t ip inum Ht) as [Hr Hin].
  pose proof Ht as (T1 & T2 & T3 & T4 & T5). assert (live t I) as Hlive by (eapply live_same; [done|apply Htree]). destruct es as [|e es].
  { rewrite Hskip. cbn [resolve]. destruct parent.
    - apply returns_bind. eapply returns_mono; [by apply (iput_cached addr fuel t I ip)|]. intros [] u (U1 & U2 & U3 & U4 & _). apply returns_ret.
      split; [done|]. eapply drop_inode; try done. by apply own_proc in U3.
    - apply returns_ret. exists ip. by split_and!. }
  destruct Hskip as (rest & -> & Hrest & Hslash & Hcr & Hlen & Hnl). cbn [resolve]. rewrite <- Hrest.
  apply returns_bind. eapply returns_mono; [by apply (ilock_cached addr fuel t I ip)|]. intros [] t1 (A1 & A2 & A3 & A4 & A5).
  apply returns_bind. eapply returns_intro; [done|]. change (lget (il itl ip) t1) with (node t1 ip).
  destruct (ic_held _ _ _ A1 ip eq_refl) as (Hr1 & Hv1 & _). pose proof (ic_valid _ _ _ A1 ip Hr1 Hv1) as Hod.
  assert (same_disk s t1) as S1 by (by etrans). assert (i_inum (node t1 ip) = inum) as En by (by rewrite A5).
  assert (i_type (node t1 ip) = d_type (disk_inode s inum)) as ->.
  { rewrite <- (same_inode s t1 inum S1), <- En. unfold disk_inode. by rewrite Hod. }
  pose proof (live_same t t1 I A2 Hlive) as Hlive1. apply own_proc in A3.
  assert (forall u, icache_ok u I None -> same_disk t1 u -> same_proc t1 u -> one_more u t1 ip -> let_go u) as Hdrop.
  { intros u U1 U2 U3 U4. eapply (drop_inode t u ip inum); [done|done|by etrans|by eapply same_proc_trans|]. intros j. rewrite <- A4. apply U4. }
  destruct (Z.eqb_spec (d_type (disk_inode s inum)) T_DIR) as [Hdir|Hnd]; cbn [negb].
  2: { apply returns_bind. eapply returns_mono; [by apply (iunlockput_cached addr fuel t1 I ip)|]. intros [] u (U1 & U2 & U3 & U4 & _). apply own_proc in U3.
       apply returns_ret. split; [done|]. by apply Hdrop. }
  rewrite (rest_empty rest Hcr Hslash). destruct (parent && bool_decide (elements rest = [])) eqn:Elast.
  { apply andb_true_iff in Elast as [-> Eb%bool_decide_eq_true]. apply returns_bind. eapply returns_mono; [by apply (iunlock_cached addr t1 I ip)|].
    intros [] u (U1 & U2 & U3 & U4 & U5 & _). apply own_proc in U3. apply returns_ret. exists ip. split; [done|]. split.
    - split; [done|]. split; [by etrans|]. split; [do 2 (eapply same_proc_trans; [done|]); done|]. split; [intros j; rewrite U4, A4; apply T4|]. by rewrite U5.
    - intros _. exists e. rewrite Eb. split; [done|]. apply cut_name_of; [|done]. eapply elements_cstr; [exact Hp|]. rewrite Hes. by left. }
  apply returns_bind. eapply returns_mono; [apply (dirlookup_cached t1 ip (name_of e name) A1 S1); [by rewrite En|]|].
  { destruct Hfree as (j & j' & Hne & Hj & Hj' & R1 & R2). destruct (decide (j = ip)) as [->|Hji].
    - exists j'. split; [done|]. rewrite A4, T4, decide_False by done. lia.
    - exists j. split; [done|]. rewrite A4, T4, decide_False by done. lia. }
  intros r u (U1 & U2 & U3 & U4). rewrite En in U4.
  assert (list_find (names (name_of e name)) (entries (file_bytes s inum)) = list_find (names e) (entries (file_bytes s inum))) as Efind.
  { apply names_ext, cut_name_of; [|done]. eapply elements_cstr; [exact Hp|]. rewrite Hes. by left. }
  rewrite Efind in U4. pose proof (live_same t1 u I U2 Hlive1) as Hlu. destruct (list_find (names e) _) as [[j de]|].
  - destruct U4 as (next & off & -> & U4 & U5). apply returns_bind. eapply returns_mono; [by apply (iunlockput_cached addr fuel u I ip)|].
    intros [] v (V1 & V2 & V3 & V4 & V5). apply own_proc in V3. eapply returns_mono; [apply (IH (elements rest)); try done; [lia|]|].
    + split; [done|]. split; [by do 2 (etrans; [done|])|]. split; [do 3 (eapply same_proc_trans; [done|]); done|]. split; [|by rewrite V5].
      intros x. specialize (V4 x). specialize (U4 x). specialize (A4 x). specialize (T4 x). lia.
    + intros r w Hw. destruct (resolve s parent (de_inum de) (elements rest)); [|done]. destruct Hw as (ip' & W1 & W2 & W3). exists ip'. split; [done|]. split; [done|].
      intros Hpar. destruct (W3 Hpar) as (e' & E1 & E2). exists e'. split; [|done]. by rewrite last_cons, E1.
  - destruct U4 as (-> & U4 & U5). apply returns_bind. eapply returns_mono; [by apply (iunlockput_cached addr fuel u I ip)|].
    intros [] v (V1 & V2 & V3 & V4 & V5). apply own_proc in V3. apply returns_ret. split; [done|]. apply Hdrop; [done|by etrans|by eapply same_proc_trans|].
    intros x. specialize (V4 x). rewrite U4 in V4. exact V4.
Qed.

Lemma at_inode_cached t ip inum : at_inode t ip inum -> cached (id_it t) ROOTDEV inum ip.
Proof.
  intros Ht. destruct (at_inode_ref t ip inum Ht) as [Hr Hin]. destruct Ht as (H1 & _ & _ & _ & <-). destruct (has_ref t I None ip H1 Hr) as [_ Hn].
  split; [done|]. split; [done|]. split; [|done]. by apply (ic_inum _ _ _ H1).
Qed.

(** Where a path starts: an absolute one at the root, others at the current directory *)
Definition start_of (path : list Z) : option Z := if nth 0 path 0 =? slash then Some ROOTINO else (fun i => i_inum (node s i)) <$> id_cwd s.

Lemma namex_start path inum : start_of path = Some inum -> (forall i, id_cwd s = Some i -> 0 < i_ref (node s i)) ->
  returns (if nth 0 path 0 =? slash then ip <- iget itl ROOTDEV ROOTINO ;; ret (Some ip) else cwd <- os_cwd ;; idup itl cwd) s (fun r t =>
    exists ip, r = Some ip /\ at_inode t ip inum).
Proof.
  unfold start_of. destruct (nth 0 path 0 =? slash).
  - intros [= <-] _. apply returns_bind. eapply returns_mono; [apply (iget_cached s I None ROOTINO Hs); [apply Htree|]|].
    { destruct Hfree as (j & _ & _ & Hj & _ & R & _). exists j. by right. }
    intros ip t (T1 & T2 & T3 & T4 & T5 & _). apply own_proc in T3. apply returns_ret. exists ip. split; [done|]. split_and!; try done. apply T5.
  - intros Hstart Hcwd. destruct (id_cwd s) as [c|] eqn:Ec; [|done]. cbn in Hstart. injection Hstart as <-.
    apply returns_bind. eapply returns_intro; [done|]. change (os_cwd s) with (Ret (id_cwd s) s). rewrite Ec.
    eapply returns_mono; [apply (idup_cached s I c Hs); by apply Hcwd|]. intros r t (-> & T1 & T2 & T3 & T4 & T5). apply own_proc in T3.
    exists c. split; [done|]. by split_and!.
Qed.
End Walk.

(** ** Properties *)

(** C18: namex(), that is namei() and nameiparent(), walks the directories as they are on the
    disk: from the root or the current directory, each name but the last to the first entry
    in use with that name, up to 14 bytes; for nameiparent() it stops at the directory of the
    last name, which it returns too.  It fails when a name is missing or something else than a
    directory has to be searched.  It comes back with one more reference, to the entry of the
    table for the inode found, or with the same references if it fails: no lock stays taken, and
    the disk is not touched.  At most two entries of the table are needed on the way. *)
Theorem namex_resolves (de_addr : Z) (Hde : 0 <= de_addr /\ de_addr + 16 <= 2 ^ 64) (addr : nat -> Z) (fuel : nat) (Hfuel : (0 < fuel)%nat)
  (s : ideal) (I : list Z) (Htree : tree_ok s I) (Hs : icache_ok s I None) (Hfree : two_free s)
  (path name : list Z) (parent : bool) (inum : Z) (Hpath : cstr path) (Hname : length name = DIRSIZ)
  (Hstart : start_of s path = Some inum) (Hcwd : forall i, id_cwd s = Some i -> 0 < i_ref (node s i)) :
  returns (namex itl addr de_addr fuel path parent name) s (fun r t =>
    icache_ok t I None /\ same_disk s t /\ same_proc s t /\
    match resolve s parent inum (elements path) with
    | Some found => exists ip, r.1 = Some ip /\ cached (id_it t) ROOTDEV found ip /\ one_more s t ip /\
        (parent = true -> exists e, last (elements path) = Some e /\ cut DIRSIZ r.2 = cut DIRSIZ e)
    | None => r.1 = None /\ same_refs s t
    end).
Proof.
  unfold namex. apply returns_bind. eapply returns_mono; [by apply (namex_start s I Htree Hs Hfree path inum)|].
  intros r t (ip & -> & Ht). apply returns_bind. eapply returns_intro; [done|].
  eapply returns_mono; [apply (namex_loop_ok de_addr Hde addr fuel Hfuel s I Htree Hs Hfree parent (elements path)); try done; lia|].
  intros r u Hu. destruct (resolve s parent inum (elements path)) as [found|].
  - destruct Hu as (ip' & U1 & U2 & U3). pose proof (at_inode_cached fuel Hfuel s I Hs u ip' found U2) as Hc. destruct U2 as (V1 & V2 & V3 & V4 & _).
    split_and!; try done. by exists ip'.
  - destruct Hu as (U1 & V1 & V2 & V3 & V4). by split_and!.
Qed.

(** ** Witnesses *)

(** A file with one block at most *)
Lemma one_block s x a : data_block s a -> i_addrs x = a :: replicate 12 0 -> 0 <= i_inum x < sb_ninodes (sbl s) -> 0 <= i_size x <= 1024 ->
  Forall (fun v => - 2 ^ 15 <= v < 2 ^ 15) [i_type x; i_major x; i_minor x; i_nlink x] -> file_ok s x.
Proof.
  intros Hb Ha Hn Hs Hf. pose proof (db_range _ _ Hb) as Hr. assert (forall k, in_slots k -> slot (id_blk s) x k = if k =? 0 then a else 0) as Hsl.
  { intros k Hk. unfold slot, ind_of. rewrite Ha. sizes. destruct (Z.eqb_spec k 0) as [->|Hne]; [done|].
    destruct (Z.ltb_spec k 12); [|by case_match]. replace (Z.to_nat k) with (S (Z.to_nat (k - 1))) by lia. apply nth_zeros. }
  split; [split; try done|..].
  - by rewrite Ha.
  - sizes. lia.
  - intros k Hk Hlt. assert (k = 0) as -> by (sizes; lia). rewrite Hsl by (by sizes). rewrite Z.eqb_refl. lia.
  - intros k Hk. rewrite Hsl by done. case_match; [by right|by left].
  - intros k k' Hk Hk'. rewrite !Hsl by done. by zcase.
Defined.

(** Blocks 0 .. 46, 50 and 51 are in use. *)
Definition wit_marks : list Z := replicate 5 255 ++ [127; 12] ++ replicate 1017 0.

Lemma marks_disk s : sbl s = wit_sb -> id_blk s 45 = wit_marks -> length (id_blk s 32) = 1024%nat -> length (id_blk s 33) = 1024%nat -> disk_ok s.
Proof.
  intros Es Eb E32 E33. assert (forall y, 0 <= y < 100 -> used s y = map_bit wit_marks (y mod BPB)) as Hu by (intros y Hy; unfold used; by rewrite Es, wit_BBLOCK, Eb).
  split; rewrite ?Es; [split; rewrite ?Es; change (sb_size wit_sb) with 100|..|].
  - lia.
  - intros x Hx. rewrite wit_BBLOCK, Eb by done. vm_compute. reflexivity.
  - intros x y Hx Hy. rewrite wit_BBLOCK by done. intros <-. rewrite Hu by done. vm_compute. reflexivity.
  - rewrite Hu by done. vm_compute. reflexivity.
  - vm_compute. reflexivity.
  - intros inum Hn. change (sb_size wit_sb) with 100. assert (forall y, 0 <= y < 100 -> BBLOCK y wit_sb <> IBLOCK inum wit_sb) as Hno.
    { intros y Hy. rewrite wit_BBLOCK by done. destruct (wit_inode_block inum Hn) as [-> | ->]; lia. }
    destruct (wit_inode_block inum Hn) as [E | E]; rewrite E in *; (split; [lia|]); (split; [rewrite Hu by done; vm_compute; reflexivity|]); (split; [done|exact Hno]).
Defined.

Lemma marks_block s a : sbl s = wit_sb -> id_blk s 45 = wit_marks -> length (id_blk s a) = 1024%nat -> a = 50 \/ a = 51 -> data_block s a.
Proof.
  intros Es Eb El Ha. split; rewrite ?Es.
  - change (sb_size wit_sb) with 100. lia.
  - unfold used. rewrite Es, wit_BBLOCK, Eb by lia. destruct Ha as [-> | ->]; vm_compute; reflexivity.
  - intros y Hy. rewrite wit_BBLOCK by done. lia.
  - intros inum Hn. destruct (wit_inode_block inum Hn) as [-> | ->]; lia.
  - exact El.
Defined.

(** The root, inode 1 in block 50, has "." and "d"; "d", inode 2 in block 51, has "f", inode 3. *)
Definition wit_inodes : list Z :=
  put_dinode 64 (mkdinode T_DIR 0 0 1 32 (50 :: replicate 12 0))
    (put_dinode 128 (mkdinode T_DIR 0 0 1 16 (51 :: replicate 12 0))
      (put_dinode 192 (mkdinode T_FILE 0 0 1 0 (replicate 13 0)) (replicate 1024 0))).
Definition wit_tree : ideal :=
  mkideal (mkcpu 0 None 0 false 0)
    (fun x => if x =? 45 then wit_marks else if x =? 32 then wit_inodes
              else if x =? 50 then wit_entry 1 46 ++ wit_entry 2 100 ++ replicate 992 0
              else if x =? 51 then wit_entry 3 102 ++ replicate 1008 0 else replicate 1024 7)
    (mkitable (initlock "itable") (replicate NINODE zero_inode) wit_sb) ∅ None (mkftable (initlock "ftable") (replicate NFILE zero_file)).

Lemma wit_tree_disk : disk_ok wit_tree.
Proof. apply marks_disk; vm_compute; reflexivity. Defined.

Lemma wit_tree_block a : a = 50 \/ a = 51 -> data_block wit_tree a.
Proof. intros Ha. apply marks_block; [reflexivity|reflexivity|destruct Ha as [-> | ->]; vm_compute; reflexivity|exact Ha]. Defined.

Lemma wit_tree_ok : tree_ok wit_tree [1; 2; 3].
Proof.
  split; [exact wit_tree_disk| |by left|].
  - intros inum Hin. rewrite !elem_of_cons in Hin. destruct Hin as [-> |[-> |[-> |[]%elem_of_nil]]]; vm_compute; (split; [split; [discriminate|reflexivity]|split; discriminate]).
  - intros inum Hin Hd. rewrite !elem_of_cons in Hin. destruct Hin as [-> |[-> |[-> |[]%elem_of_nil]]]; [| |vm_compute in Hd; discriminate].
    + split; [|split; [vm_compute; reflexivity|]].
      * apply (one_block _ _ 50); [apply wit_tree_block; by left|vm_compute; reflexivity|vm_compute; split; [discriminate|reflexivity]|vm_compute; split; discriminate|].
        repeat constructor; vm_compute; discriminate.
      * assert (entries (file_bytes wit_tree 1) = [wit_entry 1 46; wit_entry 2 100]) as -> by (vm_compute; reflexivity).
        intros de Hde _. rewrite !elem_of_cons in Hde. destruct Hde as [-> |[-> |[]%elem_of_nil]].
        -- replace (de_inum (wit_entry 1 46)) with 1 by (vm_compute; reflexivity). by left.
        -- replace (de_inum (wit_entry 2 100)) with 2 by (vm_compute; reflexivity). right. by left.
    + split; [|split; [vm_compute; reflexivity|]].
      * apply (one_block _ _ 51); [apply wit_tree_block; by right|vm_compute; reflexivity|vm_compute; split; [discriminate|reflexivity]|vm_compute; split; discriminate|].
        repeat constructor; vm_compute; discriminate.
      * assert (entries (file_bytes wit_tree 2) = [wit_entry 3 102]) as -> by (vm_compute; reflexivity).
        intros de Hde _. rewrite !elem_of_cons in Hde. destruct Hde as [-> |[]%elem_of_nil].
        replace (de_inum (wit_entry 3 102)) with 3 by (vm_compute; reflexivity). do 2 right. by left.
Defined.

Lemma wit_tree_node i : node wit_tree i = zero_inode.
Proof. unfold geti. cbn [it_inode id_it wit_tree]. destruct (replicate NINODE zero_inode !! i) eqn:E; [|done]. by apply lookup_replicate in E as [-> _]. Defined.

Lemma wit_tree_cache : icache_ok wit_tree [1; 2; 3] None.
Proof.
  split.
  - vm_compute. reflexivity.
  - split; [split; [vm_compute; discriminate|intros H; exfalso; vm_compute in H; discriminate]|vm_compute; reflexivity].
  - intros d n i j (_ & Hi & _). rewrite wit_tree_node in Hi. vm_compute in Hi. discriminate.
  - intros i. rewrite wit_tree_node. vm_compute. discriminate.
  - intros i Hi. rewrite wit_tree_node in Hi. vm_compute in Hi. discriminate.
  - intros i Hi. rewrite wit_tree_node in Hi. vm_compute in Hi. discriminate.
  - intros i _. rewrite wit_tree_node. split; vm_compute; reflexivity.
  - discriminate.
Defined.

Lemma wit_tree_free : two_free wit_tree.
Proof. exists 0%nat, 1%nat. rewrite !wit_tree_node. split_and!; [done|unfold NINODE; lia|unfold NINODE; lia|vm_compute; reflexivity|vm_compute; reflexivity]. Defined.

(** "/d//f" *)
Lemma namex_resolves_witness :
  returns (namex itl (fun _ => 0) 4096 1 [47; 100; 47; 47; 102] false (replicate DIRSIZ 0)) wit_tree (fun r t =>
    exists ip, r.1 = Some ip /\ cached (id_it t) ROOTDEV 3 ip /\ one_more wit_tree t ip).
Proof.
  assert (cstr [47; 100; 47; 47; 102]) as Hp by (repeat constructor; discriminate).
  assert (start_of wit_tree [47; 100; 47; 47; 102] = Some ROOTINO) as Hst by reflexivity.
  assert (forall i, id_cwd wit_tree = Some i -> 0 < i_ref (node wit_tree i)) as Hcwd by discriminate.
  pose proof (namex_resolves 4096 ltac:(lia) (fun _ => 0) 1 ltac:(lia) wit_tree [1; 2; 3] wit_tree_ok wit_tree_cache wit_tree_free
    [47; 100; 47; 47; 102] (replicate DIRSIZ 0) false ROOTINO Hp eq_refl Hst Hcwd) as H.
  assert (resolve wit_tree false ROOTINO (elements [47; 100; 47; 47; 102]) = Some 3) as E by (vm_compute; reflexivity). rewrite E in H.
  eapply returns_mono; [exact H|]. intros r t (_ & _ & _ & ip & H1 & H2 & H3 & _). exists ip. split; [exact H1|]. split; [exact H2|exact H3].
Defined.
