(* ===== verification/FileSpec.v ===== *)
(** * FileSpec: reading and writing open files

    fileread() and filewrite() of [File] over the inodes of [Icache] and the bytes of
    [Content]: an open file is a position in a list of bytes. *)
From S2P Require Import Prelude Spinlock Mem Os Sleeplock Pipe Bio Log Fs File FsSpec Content Trunc Iput Icache Dirs Namei.

(** ** The table of open files *)

Definition with_ft (ft : ftable) (s : ideal) : ideal := s <| id_ft := ft |>.

Lemma files_ft ft s L : files_ok s L -> files_ok (with_ft ft s) L.
Proof.
  intros [[[M1 M2 M3] H0 H1 Hi] Ft Fi Fb Fa]. split; [split; [split|..]|..]; try done.
  - intros j Hj. destruct (Fi j Hj). by split.
  - intros j k Hj Hk. destruct (Fb j k Hj Hk) as [?|[]]; [by left|right]. by split.
Qed.

Lemma icache_ft ft s I h : icache_ok s I h -> icache_ok (with_ft ft s) I h.
Proof. intros [C1 C2 C3 C4 C5 C6 C7 C8]. by split. Qed.

Lemma icache_mem m s I h : icache_ok s I h -> icache_ok (with_kern m s) I h.
Proof. intros [C1 C2 C3 C4 C5 C6 C7 C8]. by split. Qed.

(** File [fi] of the table is at [off] of table entry [i]. *)
Definition open_at (s : ideal) (fi i : nat) (off : Z) : Prop :=
  (fi < length (ft_file (id_ft s)))%nat /\ f_type (getf (id_ft s) fi) = FD_INODE /\ f_ip (getf (id_ft s) fi) = Some i /\ f_off (getf (id_ft s) fi) = off.

Definition moved (fi : nat) (off : Z) (s : ideal) : ideal :=
  with_ft ((id_ft s) <| ft_file := <[fi := (getf (id_ft s) fi) <| f_off := off |>]> (ft_file (id_ft s)) |>) s.

Lemma fmod_eq fi g s : fmod ftl fi g s = Ret tt (with_ft ((id_ft s) <| ft_file := <[fi := g (getf (id_ft s) fi)]> (ft_file (id_ft s)) |>) s).
Proof. done. Qed.

Lemma getf_moved fi off s fj : (fi < length (ft_file (id_ft s)))%nat ->
  getf (id_ft (moved fi off s)) fj = if decide (fj = fi) then (getf (id_ft s) fi) <| f_off := off |> else getf (id_ft s) fj.
Proof.
  intros Hfi. unfold getf, moved, with_ft. cbn [id_ft ft_file set_field]. case_decide as E.
  - subst. by rewrite list_lookup_insert_eq.
  - by rewrite list_lookup_insert_ne.
Qed.

Lemma refs_relocked i l t j : has_node i t -> let u := relocked i l t in
  i_ref (node u j) = i_ref (node t j) /\ i_valid (node u j) = i_valid (node t j) /\ i_inum (node u j) = i_inum (node t j).
Proof.
  intros Hi u. assert (node u j = if decide (j = i) then (node t i) <| i_lock := l |> else node t j) as -> by exact (node_with i _ t j Hi). case_decide; by subst.
Qed.

Lemma moved_same fi i off s : open_at s fi i off -> id_ft (moved fi off s) = id_ft s.
Proof.
  intros (Hfi & _ & _ & <-). unfold moved, with_ft. cbn [id_ft set_field]. destruct (lookup_lt_is_Some_2 _ _ Hfi) as [f Ef]. unfold getf. rewrite Ef. cbn [default].
  destruct (id_ft s) as [lk l]. cbn in *. f_equal. rewrite list_insert_id; [done|]. rewrite Ef. by destruct f.
Qed.

(** ** fileread() *)

Section FileSpec.
Context `{!Devsw ideal} (pipel : Z -> lens ideal pipe) (addr : nat -> Z) (fuel : nat) (Hfuel : (0 < fuel)%nat).

Lemma own_ft s t : own t = own s -> id_ft t = id_ft s.
Proof. by intros [=]. Qed.
Lemma own_kern s t : own t = own s -> id_kern t = id_kern s.
Proof. by intros [=]. Qed.

Lemma fileread_ok s I L fi i off dst n : icache_ok s I None -> files_ok s L -> i ∈ L -> 0 < i_ref (node s i) -> i_valid (node s i) = true ->
  open_at s fi i off -> f_readable (getf (id_ft s) fi) = true -> 0 <= off -> 0 <= n < 2 ^ 31 -> off + n < 2 ^ 32 -> 0 <= dst < 2 ^ 64 -> dst + n <= 2 ^ 64 ->
  let data := take (Z.to_nat n) (drop (Z.to_nat off) (content s i)) in
  let len := Z.of_nat (length data) in
  returns (fileread ftl itl pipel addr fuel fi dst n) s (fun r t =>
    r = len /\ icache_ok t I None /\ same_refs s t /\ same_valid s t /\
    shadow i (with_kern (put_bytes dst data (id_kern s)) (if 0 <? len then moved fi (off + len) s else s)) t).
Proof.
  intros Hs Hf Hi Hr Hv (Hfi & Hty & Hip & Hoff) Hrd Ho Hn Hwrap Hd Hdw data len. destruct (has_ref s I None i Hs Hr) as [Hnode _].
  destruct (ilock_valid addr fuel s I i Hs Hr Hv Hfuel) as (l & E & Hl). set (s1 := relocked i l s) in *.
  assert (shadow i s s1) as Hsh by (by apply shadow_relocked). pose proof (shadow_files i s s1 Hsh L Hf) as Hf1.
  assert (content s1 i = content s i) as Ec by exact (shadow_content i s s1 Hsh i). pose proof (no_size _ _ (fo_inode _ _ Hf i Hi)) as Hsz.
  assert (i_size (node s1 i) = i_size (node s i)) as Es by (by destruct (core_fields _ _ (sh_core _ _ _ Hsh)) as (_ & _ & ? & _)).
  unfold fileread. apply returns_bind. eapply returns_intro; [done|]. change (lget (fil ftl fi) s) with (getf (id_ft s) fi). rewrite Hrd, Hty, Hip. cbn [negb].
  apply returns_bind. eapply returns_intro; [exact E|]. apply returns_bind. eapply returns_intro; [done|]. apply returns_bind. eapply returns_intro; [done|].
  change (lget (fil ftl fi) s1) with (getf (id_ft s) fi). rewrite Hoff, Hip. assert (u32 n = n) as -> by (apply Z.mod_small; lia).
  pose proof (length_content s i) as Hlc. assert (len = Z.max 0 (Z.min n (i_size (node s i) - off))) as Elen by (unfold len, data; rewrite length_take, length_drop, Hlc; lia).
  assert (readi itl i true dst off n s1 = Ret len (with_kern (put_bytes dst data (id_kern s)) s1)) as Er.
  { destruct (decide (off <= i_size (node s i))) as [Hle|Hgt].
    - rewrite (readi_ok s1 L i true dst off n Hf1 Hi) by (rewrite ?Es; lia). rewrite Ec, Es. f_equal. lia.
    - rewrite readi_beyond by (rewrite ?Es; lia). assert (data = []) as -> by (unfold data; by rewrite drop_ge, take_nil by (rewrite Hlc; lia)).
      cbn [put_bytes]. assert (len = 0) as -> by lia. change (id_kern s) with (id_kern s1). generalize s1. intros u. by destruct u. }
  apply returns_bind. eapply returns_intro; [exact Er|]. set (s2 := with_kern _ s1). cbn [when].
  set (s3 := if 0 <? len then moved fi (off + len) s2 else s2).
  apply returns_bind. apply (returns_intro _ _ tt s3).
  { unfold s3. destruct (Z.ltb_spec 0 len); [|done]. cbn [when]. rewrite fmod_eq. unfold moved. change (id_ft s2) with (id_ft s). rewrite Hoff.
    assert (u32 (off + len) = off + len) as -> by (apply Z.mod_small; lia). done. }
  assert (icache_ok s3 I (Some i)) as H3.
  { unfold s3, moved. destruct (0 <? len); [apply icache_ft|]; by apply icache_mem. }
  apply returns_bind. eapply returns_mono; [by apply (iunlock_cached addr s3 I i)|]. intros [] t (T1 & T2 & T3 & T4 & T5 & T6 & T7). apply returns_ret.
  assert (forall j, node s3 j = node s1 j) as Hn3 by (intros j; unfold s3; by destruct (0 <? len)).
  split; [done|]. split; [done|]. split; [intros j; rewrite T4, Hn3; by apply refs_relocked|]. split; [intros j; rewrite T7, Hn3; by apply refs_relocked|].
  transitivity s3; [|done]. destruct Hsh as [S1 S2 S3 S4 S5 S6]. unfold s3. destruct (0 <? len); by split.
Qed.

(** ** filewrite() *)

Lemma splice_splice o a b c : (o <= length c)%nat -> splice (o + length a) b (splice o a c) = splice o (a ++ b) c.
Proof.
  intros Ho. unfold splice. rewrite !length_app. assert (length (take o c ++ a) = o + length a)%nat as Hl by (rewrite length_app, length_take; lia).
  set (D := drop (o + length a) c). rewrite (app_assoc (take o c) a D). rewrite take_app_length', drop_app_add' by done.
  unfold D. rewrite drop_drop, <- !app_assoc. do 4 f_equal. lia.
Qed.

Lemma bytes_at_add a m n k : bytes_at a (m + n) k = bytes_at a m k ++ bytes_at (a + Z.of_nat m) n k.
Proof.
  revert a. induction m as [|m IH]; intros a; cbn [Nat.add]; [by rewrite Z.add_0_r|]. rewrite !bytes_at_S, IH. cbn [app]. do 3 f_equal. lia.
Qed.

Lemma icache_beside t u I h i : icache_ok t I h -> has_node i t -> beside t u i -> (forall j, 0 < i_ref (node t j) -> i_valid (node t j) = true -> on_disk u j) -> icache_ok u I h.
Proof.
  intros [C1 C2 C3 C4 C5 C6 C7 C8] Hi Hb Hd. pose proof Hb as [B1 B2 B3 B4 B5].
  assert (forall j, frame (node u j) = frame (node t j)) as Hfr by (intros j; destruct (decide (j = i)) as [->|]; [done|by rewrite B1]).
  assert (forall j, i_dev (node u j) = i_dev (node t j) /\ i_inum (node u j) = i_inum (node t j) /\ i_ref (node u j) = i_ref (node t j) /\
    i_lock (node u j) = i_lock (node t j) /\ i_valid (node u j) = i_valid (node t j)) as He.
  { intros j. by destruct (frame_fields _ _ (Hfr j)) as (? & ? & ? & ? & ? & _). }
  split.
  - by rewrite B4.
  - destruct C2. split; [by rewrite (outside_cpu _ _ B5)|by rewrite (outside_lock _ _ B5)].
  - eapply unique_mono; [|exact C3]. intros d n j (Hj & H1 & H2 & H3). destruct (He j) as (E1 & E2 & E3 & _). unfold cached. by rewrite <- E1, <- E2, <- E3.
  - intros j. destruct (He j) as (_ & _ & -> & _). apply C4.
  - intros j. destruct (He j) as (-> & -> & -> & _). apply C5.
  - intros j. destruct (He j) as (_ & _ & -> & _ & ->). apply Hd.
  - intros j. destruct (He j) as (_ & _ & _ & -> & _). apply C7.
  - intros j. destruct (He j) as (_ & _ & -> & -> & ->). apply C8.
Qed.

Section Write.
Context (s : ideal) (I : list Z) (L : list nat) (fi i : nat) (off src n : Z).
Context (Hi : i ∈ L) (Hall : forall j, 0 < i_ref (node s j) -> i_valid (node s j) = true -> j ∈ L).
Context (Huse : forall j, j ∈ L -> 0 < i_ref (node s j) /\ i_valid (node s j) = true).
Context (Hopen : open_at s fi i off) (Ho : 0 <= off <= i_size (node s i)) (Hn : 0 <= n) (Hmax : off + n <= MAXFILE * BSIZE).
Context (Hsrc : 0 <= src < 2 ^ 64) (Hwrap : src + n <= 2 ^ 64).

(** After [w] bytes of the file were written *)
Record progress (t : ideal) (w : Z) : Prop := {
  pr_cache : icache_ok t I None;
  pr_files : files_ok t L;
  pr_content : content t i = splice (Z.to_nat off) (bytes_at src (Z.to_nat w) (id_kern s)) (content s i);
  pr_others : forall j, j ∈ L -> j <> i -> content t j = content s j;
  pr_ft : id_ft t = id_ft (moved fi (off + w) s);
  pr_kern : id_kern t = id_kern s;
  pr_refs : same_refs s t;
  pr_valid : forall j, i_valid (node t j) = i_valid (node s j);
  pr_inums : same_inums s t;
  pr_room : (missing t i (off + w) (off + n) <= room t)%nat;
}.

Lemma max_write_pos : max_write = 3072.
Proof. done. Qed.

Lemma progress_size t w : 0 <= w -> progress t w -> i_size (node t i) = Z.max (i_size (node s i)) (off + w).
Proof.
  clear Hfuel. intros Hw Hp. pose proof (no_size _ _ (fo_inode _ _ (pr_files _ _ Hp) i Hi)) as Hs. pose proof (length_content t i) as Hl.
  rewrite (pr_content _ _ Hp) in Hl. unfold splice in Hl. rewrite !length_app, length_take, length_drop, length_bytes_at, length_content in Hl. lia.
Qed.

(** One round of the loop, in its own transaction, and what follows it *)
Lemma filewrite_round t w m (rest : Z -> M ideal Z) (Q : Z -> ideal -> Prop) : 0 <= w -> progress t w -> 0 < m -> w + m <= n ->
  (forall u, progress u (w + m) -> returns (rest m) u Q) ->
  returns (tx_begin ;;
           f <- lread (fil ftl fi) ;;
           ilock itl addr fuel (f_ip f) ;;
           ip <- deref (f_ip f) ;;
           f <- lread (fil ftl fi) ;;
           r <- writei itl ip true (u64 (src + w)) (f_off f) m ;;
           when (0 <? r) (fmod ftl fi (fun f => f <| f_off := u32 (f_off f + r) |>)) ;;
           iunlock itl addr (f_ip f) ;;
           tx_end ;;
           rest r) t Q.
Proof.
  intros Hw Hp Hm Hwm Hrest. pose proof (progress_size t w Hw Hp) as Hsz. destruct Hp as [P1 P2 P3 P4 P5 P6 P7 P8 P9 P10]. destruct Hopen as (Hfi & Hty & Hip & Hoff).
  destruct (Huse i Hi) as [Hr0 Hv0]. assert (0 < i_ref (node t i)) as Hr by (by rewrite P7). assert (i_valid (node t i) = true) as Hv by (by rewrite P8).
  destruct (has_ref t I None i P1 Hr) as [Hnode _]. destruct (ilock_valid addr fuel t I i P1 Hr Hv Hfuel) as (l & E & Hl). set (t1 := relocked i l t) in *.
  assert (shadow i t t1) as Hsh by (by apply shadow_relocked). pose proof (shadow_files i t t1 Hsh L P2) as Hf1.
  assert (getf (id_ft t) fi = (getf (id_ft s) fi) <| f_off := off + w |>) as Ef by (rewrite P5, getf_moved, decide_True by done; done).
  apply returns_bind. eapply returns_intro; [done|]. apply returns_bind. eapply returns_intro; [done|]. change (lget (fil ftl fi) t) with (getf (id_ft t) fi). rewrite Ef. cbn [f_ip set_field]. rewrite Hip.
  apply returns_bind. eapply returns_intro; [exact E|]. apply returns_bind. eapply returns_intro; [done|]. apply returns_bind. eapply returns_intro; [done|].
  change (lget (fil ftl fi) t1) with (getf (id_ft t) fi). rewrite Ef. cbn [f_ip f_off set_field]. rewrite Hip.
  assert (u64 (src + w) = src + w) as -> by (apply Z.mod_small; lia).
  assert (i_size (node t1 i) = i_size (node t i)) as Es by (by destruct (core_fields _ _ (sh_core _ _ _ Hsh)) as (_ & _ & ? & _)).
  set (p := off + w). assert (forall q, missing t1 i p q = missing t i p q) as Emiss.
  { intros q. unfold missing, empty_slots. f_equal. apply filter_same. intros k _. by rewrite (shadow_slot i t t1 Hsh). }
  assert (room t1 = room t) as Eroom by done. pose proof (missing_mono t i p (p + m) (off + n) ltac:(unfold p; lia) ltac:(unfold p; lia) Hmax) as Hmono.
  apply returns_bind. eapply returns_mono.
  { apply (writei_ok t1 L i true (src + w) p m Hf1 Hi) with (spare := (missing t i p (off + n) - missing t i p (p + m))%nat); [unfold p; sizes; lia|unfold p in *; sizes; lia|lia|unfold p; lia|unfold p; lia|].
    rewrite Emiss, Eroom. fold p in P10. lia. }
  intros r u (-> & U1 & U2 & U3 & U4 & U5 & U6 & U7 & U8 & U9). change (id_kern t1) with (id_kern t) in U2. rewrite P6 in U2.
  rewrite (shadow_content i t t1 Hsh i), P3 in U2.
  assert (icache_ok u I (Some i)) as Hu.
  { eapply (icache_beside t1); [done|by apply (fo_table _ _ Hf1)|done|]. intros j Hjr Hjv.
    assert (forall j, i_ref (node t1 j) = i_ref (node t j) /\ i_valid (node t1 j) = i_valid (node t j)) as Hlk.
    { intros x. destruct (decide (x = i)) as [->|Hx]; [|by rewrite (sh_others _ _ _ Hsh)]. change (node t1 i) with (node (with_node i ((node t i) <| i_lock := l |>) t) i). by rewrite node_with_eq. }
    destruct (Hlk j) as [E1 E2]. rewrite E1, P7 in Hjr. rewrite E2, P8 in Hjv. destruct (decide (j = i)) as [->|Hji]; [done|]. apply U5; [by apply Hall| |].
    - intros En. apply Hji. apply (ic_unique _ _ _ Hl ROOTDEV (i_inum (node t1 i))).
      + assert (0 < i_ref (node t1 j)) as Hj1 by (by rewrite E1, P7). destruct (has_ref t1 I _ j Hl Hj1) as [_ ?]. split; [done|]. split; [done|]. split; [by apply (ic_inum _ _ _ Hl)|done].
      + destruct (ic_held _ _ _ Hl i eq_refl) as (Hi1 & _). destruct (has_ref t1 I _ i Hl Hi1) as [_ ?]. split; [done|]. split; [done|]. split; [by apply (ic_inum _ _ _ Hl)|done].
    - apply (ic_valid _ _ _ Hl); [by rewrite E1, P7|by rewrite E2, P8]. }
  set (v := with_ft (id_ft (moved fi (off + (w + m)) s)) u). apply returns_bind. apply (returns_intro _ _ tt v).
  { replace (0 <? m) with true by zcase. cbn [when]. rewrite fmod_eq. unfold v. do 2 f_equal.
    assert (id_ft u = id_ft t) as -> by (by injection (be_outside _ _ _ U6)). rewrite Ef. cbn [f_off set_field]. rewrite P5. unfold moved, with_ft. cbn. rewrite list_insert_insert_eq.
    assert (u32 (off + w + m) = off + (w + m)) as -> by (unfold u32; rewrite Z.mod_small; [lia|sizes; lia]). done. }
  apply returns_bind. eapply returns_mono; [by apply (iunlock_cached addr v I i), icache_ft|]. intros [] x (X1 & X2 & X3 & X4 & X5 & X6 & X7).
  apply returns_bind. eapply returns_intro; [done|]. apply Hrest. assert (forall j, frame (node u j) = frame (node t1 j)) as Hfr.
  { intros j. destruct (decide (j = i)) as [->|]; [apply U6|by rewrite (be_others _ _ _ U6)]. }
  assert (forall j, content x j = content u j) as Hcx by (intros j; exact (shadow_content i v x X6 j)). split.
  - done.
  - apply (shadow_files i v x X6 L). by apply files_ft.
  - rewrite Hcx, U2. assert (Z.to_nat p = Z.to_nat off + length (bytes_at src (Z.to_nat w) (id_kern s)))%nat as -> by (rewrite length_bytes_at; unfold p; lia).
    rewrite splice_splice by (rewrite length_content; lia). f_equal. rewrite (Z2Nat.inj_add w m), bytes_at_add by lia. by rewrite Z2Nat.id by lia.
  - intros j Hj Hji. rewrite Hcx, U3 by done. rewrite (shadow_content i t t1 Hsh j). by apply P4.
  - rewrite (own_ft _ _ X3). done.
  - rewrite (own_kern _ _ X3). change (id_kern u = id_kern s). rewrite (outside_kern _ _ (be_outside _ _ _ U6)). done.
  - intros j. rewrite X4. change (node v j) with (node u j). destruct (frame_fields _ _ (Hfr j)) as (_ & _ & -> & _). rewrite <- P7. by apply refs_relocked.
  - intros j. rewrite X7. change (node v j) with (node u j). destruct (frame_fields _ _ (Hfr j)) as (_ & _ & _ & _ & -> & _). rewrite <- P8. by apply refs_relocked.
  - intros j. rewrite X5. change (node v j) with (node u j). destruct (frame_fields _ _ (Hfr j)) as (_ & -> & _). rewrite <- P9. by apply refs_relocked.
  - assert (room x = room u) as ->.
    { unfold room, free_blocks. rewrite (proj2 X2). change (sbl v) with (sbl u). f_equal. apply filter_same. intros y _. by rewrite (same_used v x (Z.of_nat y) X2). }
    assert (missing x i (off + (w + m)) (off + n) = missing u i (p + m) (off + n)) as ->.
    { unfold missing, empty_slots. replace (p + m) with (off + (w + m)) by (unfold p; lia). f_equal. apply filter_same. intros k _. by rewrite (shadow_slot i v x X6). }
    pose proof (missing_split t1 u i p (p + m) (off + n) ltac:(unfold p; lia) ltac:(unfold p; lia) Hmax U9 U8) as Hsplit. rewrite !Emiss in Hsplit. lia.
Qed.

(** Rounds of [max_write] bytes, to the end *)
Lemma filewrite_loop_ok k : forall t w, 0 <= w <= n -> progress t w -> n - w <= max_write * (Z.of_nat k - 1) -> (0 < k)%nat ->
  returns (filewrite_loop ftl itl addr fuel k fi src n w) t (fun r u => r = n /\ progress u n).
Proof.
  induction k as [|k IH]; intros t w Hw Hp Hk Hk0; [lia|]. cbn [filewrite_loop]. rewrite max_write_pos in *. destruct (Z.ltb_spec w n) as [Hlt|Hge]; cbn [negb].
  - set (m := Z.min (n - w) 3072). apply (filewrite_round t w m (fun r => if negb (r =? m) then ret w else filewrite_loop ftl itl addr fuel k fi src n (w + r))); [lia|done|unfold m; lia|unfold m; lia|].
    intros u Hu. rewrite Z.eqb_refl. cbn [negb]. apply IH; [unfold m; lia|done|unfold m; lia|lia].
  - assert (w = n) as -> by lia. by apply returns_ret.
Qed.

Lemma filewrite_ok : icache_ok s I None -> files_ok s L -> f_writable (getf (id_ft s) fi) = true -> (missing s i off (off + n) <= room s)%nat ->
  returns (filewrite ftl itl pipel addr fuel fi src n) s (fun r t => r = n /\ progress t n).
Proof.
  intros Hs Hf Hwr Hroom. destruct Hopen as (Hfi & Hty & Hip & Hoff). unfold filewrite. apply returns_bind. eapply returns_intro; [done|].
  change (lget (fil ftl fi) s) with (getf (id_ft s) fi). rewrite Hwr, Hty. cbn [negb]. apply returns_bind.
  assert (0 <= n / max_write) as Hq by (rewrite max_write_pos; zmod).
  eapply returns_mono; [apply (filewrite_loop_ok (Z.to_nat (n / max_write) + 2) s 0); [lia| |rewrite max_write_pos in *; zmod|lia]|].
  - split; try done.
    + cbn [Z.to_nat bytes_at]. change (Z.to_nat 0) with 0%nat. unfold bytes_at. change (seq 0 0) with (@nil nat). cbn [fmap list_fmap]. unfold splice. cbn [length app].
      by rewrite Nat.add_0_r, take_drop.
    + rewrite Z.add_0_r. symmetry. by apply (moved_same fi i off s).
    + by rewrite Z.add_0_r.
  - intros r t [-> Hp]. rewrite Z.eqb_refl. by apply returns_ret.
Qed.
End Write.
End FileSpec.

(** ** Properties *)

(** The table of inodes shows the disk, [L] are its entries with files in them, and open file [fi]
    is at [off] of one of them, entry [i]. *)
Record open_inode (s : ideal) (I : list Z) (L : list nat) (fi i : nat) (off : Z) : Prop := {
  of_cache : icache_ok s I None;
  of_files : files_ok s L;
  of_entries : forall j, j ∈ L <-> 0 < i_ref (node s j) /\ i_valid (node s j) = true;
  of_entry : i ∈ L;
  of_open : open_at s fi i off;
}.

(** C16: read() on an open file gives the bytes of the file from its position on, as many as there
    are, up to [n], and moves the position past them: the next read() goes on there.  At or
    beyond the end it gives 0.  A file that is not open for reading gives -1.  No file changes,
    no lock stays taken, and no other open file moves. *)
Theorem fileread_reads `{!Devsw ideal} (pipel : Z -> lens ideal pipe) (addr : nat -> Z) (fuel : nat) (Hfuel : (0 < fuel)%nat)
  (s : ideal) (I : list Z) (L : list nat) (fi i : nat) (off dst n : Z) (Hs : open_inode s I L fi i off)
  (Hoff : 0 <= off) (Hn : 0 <= n < 2 ^ 31) (Hend : off + n < 2 ^ 32) (Hdst : 0 <= dst < 2 ^ 64) (Hwrap : dst + n <= 2 ^ 64) :
  (f_readable (getf (id_ft s) fi) = false -> fileread ftl itl pipel addr fuel fi dst n s = Ret (-1) s) /\
  (f_readable (getf (id_ft s) fi) = true ->
   returns (fileread ftl itl pipel addr fuel fi dst n) s (fun r t =>
     let data := take (Z.to_nat n) (drop (Z.to_nat off) (content s i)) in
     r = Z.of_nat (length data) /\ id_kern t = put_bytes dst data (id_kern s) /\
     open_inode t I L fi i (off + r) /\
     (forall fj, fj <> fi -> getf (id_ft t) fj = getf (id_ft s) fj) /\
     id_blk t = id_blk s /\ forall j, content t j = content s j)).
Proof.
  split; [intros H; unfold fileread; erewrite bind_ret by done; change (lget (fil ftl fi) s) with (getf (id_ft s) fi); by rewrite H|].
  intros Hr. destruct Hs as [O1 O2 O3 O4 O5]. destruct (proj1 (O3 i) O4) as [Hr0 Hv0]. pose proof O5 as (Hfi & Hty & Hip & Hof).
  eapply returns_mono; [by apply (fileread_ok pipel addr fuel Hfuel s I L fi i off dst n)|].
  intros r t (-> & T1 & T2 & T3 & T4). set (data := take _ _) in *. set (len := Z.of_nat (length data)) in *. cbv zeta.
  set (u := with_kern _ _) in T4. assert (id_ft u = id_ft (moved fi (off + len) s) /\ id_kern u = put_bytes dst data (id_kern s) /\ id_blk u = id_blk s /\ (forall j, content u j = content s j)) as (B1 & B2 & B3 & B4).
  { unfold u. destruct (Z.ltb_spec 0 len) as [|Hle]; [done|]. split; [|done]. assert (off + len = off) as -> by lia. symmetry. by apply (moved_same fi i off s). }
  assert (files_ok u L) as Hfu by (unfold u; destruct (0 <? len); [apply files_kern, files_ft, O2|apply files_kern, O2]).
  assert (id_ft t = id_ft (moved fi (off + len) s)) as Eft by (rewrite <- B1; apply own_ft, T4).
  split; [done|]. split; [rewrite <- B2; apply own_kern, T4|]. split_and!.
  - split; [done|by apply (shadow_files i u t T4)| |done|].
    + intros j. rewrite T2, T3. apply O3.
    + unfold open_at. rewrite Eft, !getf_moved, !decide_True by done. split; [|done]. unfold moved, with_ft. cbn. by rewrite length_insert.
  - intros fj Hfj. by rewrite Eft, getf_moved, decide_False.
  - rewrite (sh_blk _ _ _ T4). done.
  - intros j. rewrite (shadow_content i u t T4). apply B4.
Qed.

(** C17: write() on an open file puts [n] bytes of the caller's memory at its position and moves
    the position past them, however many transactions it takes; it grows the file at its end,
    and needs free blocks only for the parts that had none.  Everything that was there is kept,
    and every other file.  A file that is not open for writing gives -1.  The inode on the disk
    is up to date, no lock stays taken, and no other open file moves. *)
Theorem filewrite_writes `{!Devsw ideal} (pipel : Z -> lens ideal pipe) (addr : nat -> Z) (fuel : nat) (Hfuel : (0 < fuel)%nat)
  (s : ideal) (I : list Z) (L : list nat) (fi i : nat) (off src n : Z) (Hs : open_inode s I L fi i off)
  (Hoff : 0 <= off <= i_size (node s i)) (Hn : 0 <= n) (Hmax : off + n <= MAXFILE * BSIZE) (Hsrc : 0 <= src < 2 ^ 64) (Hwrap : src + n <= 2 ^ 64)
  (Hroom : (missing s i off (off + n) <= room s)%nat) : 
  (f_writable (getf (id_ft s) fi) = false -> filewrite ftl itl pipel addr fuel fi src n s = Ret (-1) s) /\
     (f_writable (getf (id_ft s) fi) = true ->
   returns (filewrite ftl itl pipel addr fuel fi src n) s (fun r t =>
     r = n /\ open_inode t I L fi i (off + n) /\
     content t i = splice (Z.to_nat off) (bytes_at src (Z.to_nat n) (id_kern s)) (content s i) /\
     (forall j, j ∈ L -> j <> i -> content t j = content s j) /\ on_disk t i /\
     (forall fj, fj <> fi -> getf (id_ft t) fj = getf (id_ft s) fj) /\ id_kern t = id_kern s)).
Proof.
  split; [intros H; unfold filewrite; erewrite bind_ret by done; change (lget (fil ftl fi) s) with (getf (id_ft s) fi); by rewrite H|].
  intros Hw. destruct Hs as [O1 O2 O3 O4 O5]. pose proof O5 as (Hfi & Hty & Hip & Hof).
  eapply returns_mono; [apply (filewrite_ok pipel addr fuel Hfuel s I L fi i off src n); try done; [intros j H1 H2; by apply O3|intros j; apply O3]|].
  intros r t (-> & [P1 P2 P3 P4 P5 P6 P7 P8 P9 P10]). split; [done|]. split_and!; try done.
  - split; [done|done| |done|].
    + intros j. rewrite P7, P8. apply O3.
    + unfold open_at. rewrite P5, !getf_moved, !decide_True by done. split; [|done]. unfold moved, with_ft. cbn. by rewrite length_insert.
  - destruct (proj1 (O3 i) O4) as [H1 H2]. apply (ic_valid _ _ _ P1); [by rewrite P7|by rewrite P8].
  - intros fj Hfj. by rewrite P5, getf_moved, decide_False.
Qed.

(** ** Witnesses *)

(** A file of three bytes, inode 1 with block 50, in table entry 3; open file 0 is at its second
    byte.  At 100 in memory are two bytes to write. *)
Definition wit_fnode : inode := mkinode ROOTDEV 1 1 (initsleeplock "inode") true T_FILE 0 0 1 3 (50 :: replicate 12 0).
Definition wit_io : ideal :=
  mkideal (mkcpu 0 None 0 false 0)
    (fun x => if x =? 45 then wit_marks else if x =? 32 then put_dinode 64 (as_dinode wit_fnode) (replicate 1024 0)
              else if x =? 50 then [10; 20; 30] ++ replicate 1021 0 else replicate 1024 7)
    (mkitable (initlock "itable") (<[3%nat := wit_fnode]> (replicate NINODE zero_inode)) wit_sb) (put_bytes 100 [1; 2; 3] ∅) None
    (mkftable (initlock "ftable") (<[0%nat := mkfile FD_INODE 1 true true 0 (Some 3%nat) 1 0]> (replicate NFILE zero_file))).

Lemma wit_io_node j : node wit_io j = if decide (j = 3%nat) then wit_fnode else zero_inode.
Proof.
  unfold geti. cbn [it_inode id_it wit_io]. case_decide as E; [subst; vm_compute; reflexivity|]. rewrite list_lookup_insert_ne by done.
  destruct (replicate NINODE zero_inode !! j) eqn:Ej; [|done]. by apply lookup_replicate in Ej as [-> _].
Defined.

Lemma wit_io_open : open_inode wit_io [1] [3%nat] 0 3 1.
Proof.
  assert (disk_ok wit_io) as Hd by (apply marks_disk; vm_compute; reflexivity).
  assert (on_disk wit_io 3) as Hod by (vm_compute; reflexivity). split.
  - split.
    + vm_compute. reflexivity.
    + split; [split; [vm_compute; discriminate|intros H; exfalso; vm_compute in H; discriminate]|vm_compute; reflexivity].
    + intros d n i j (_ & Hi & _) (_ & Hj & _). rewrite !wit_io_node in *. destruct (decide (i = 3%nat)), (decide (j = 3%nat)); subst; [done|vm_compute in Hj; discriminate|vm_compute in Hi; discriminate..].
    + intros i. rewrite wit_io_node. case_decide; vm_compute; discriminate.
    + intros i Hi. rewrite wit_io_node in *. case_decide; [split; [vm_compute; reflexivity|by left]|vm_compute in Hi; discriminate].
    + intros i Hi _. rewrite wit_io_node in Hi. case_decide; [subst; exact Hod|vm_compute in Hi; discriminate].
    + intros i _. rewrite wit_io_node. case_decide; split; vm_compute; reflexivity.
    + discriminate.
  - apply file_files; [exact Hd|vm_compute; repeat constructor|]. assert (data_block wit_io 50) as Hb.
    { apply marks_block; [reflexivity|reflexivity|vm_compute; reflexivity|by left]. }
    apply (one_block _ _ 50 Hb); [vm_compute; reflexivity|vm_compute; split; [discriminate|reflexivity]|vm_compute; split; discriminate|].
    repeat constructor; vm_compute; discriminate.
  - intros j. rewrite list_elem_of_singleton, wit_io_node. split.
    + intros ->. split; vm_compute; reflexivity.
    + intros [Hj _]. case_decide; [done|]. vm_compute in Hj. discriminate.
  - by left.
  - split; [vm_compute; repeat constructor|]. split; [vm_compute; reflexivity|]. split; vm_compute; reflexivity.
Defined.

Definition no_pipe (_ : Z) : lens ideal pipe := Lens (fun _ => new_pipe []) (fun _ s => s).
#[local] Instance no_devices : Devsw ideal := {| devsw_read := fun _ => None; devsw_write := fun _ => None |}.

(** Two bytes at a time: the second read() finds the end. *)
Lemma fileread_reads_witness :
  returns (fileread ftl itl no_pipe (fun _ => 0) 1 0 200 5) wit_io (fun r t => r = 2 /\ open_inode t [1] [3%nat] 0 3 3 /\ mget (id_kern t) 200 = 20).
Proof.
  pose proof (fileread_reads no_pipe (fun _ => 0) 1 ltac:(lia) wit_io [1] [3%nat] 0 3 1 200 5 wit_io_open ltac:(lia) ltac:(lia) ltac:(lia) ltac:(lia) ltac:(lia)) as [_ H].
  assert (f_readable (getf (id_ft wit_io) 0) = true) as Hr by (vm_compute; reflexivity).
  eapply returns_mono; [exact (H Hr)|]. intros r t (H1 & H2 & H3 & _).
  assert (take (Z.to_nat 5) (drop (Z.to_nat 1) (content wit_io 3)) = [20; 30]) as E by (vm_compute; reflexivity). rewrite E in H1, H2. change (Z.of_nat (length [20; 30])) with 2 in H1. subst r.
  split; [reflexivity|]. split; [exact H3|]. rewrite H2. vm_compute. reflexivity.
Defined.

Lemma filewrite_writes_witness :
  returns (filewrite ftl itl no_pipe (fun _ => 0) 1 0 100 3) wit_io (fun r t => r = 3 /\ open_inode t [1] [3%nat] 0 3 4 /\ content t 3 = [10; 1; 2; 3]).
Proof.
  assert (0 <= 1 <= i_size (node wit_io 3)) as Ho by (vm_compute; split; discriminate).
  assert (1 + 3 <= MAXFILE * BSIZE) as Hm by (vm_compute; discriminate).
  assert (missing wit_io 3 1 (1 + 3) <= room wit_io)%nat as Hroom by (apply Nat.leb_le; vm_compute; reflexivity).
  pose proof (filewrite_writes no_pipe (fun _ => 0) 1 ltac:(lia) wit_io [1] [3%nat] 0 3 1 100 3 wit_io_open Ho ltac:(lia) Hm ltac:(lia) ltac:(lia) Hroom) as [_ H].
  assert (f_writable (getf (id_ft wit_io) 0) = true) as Hw by (vm_compute; reflexivity).
  eapply returns_mono; [exact (H Hw)|]. intros r t (H1 & H2 & H3 & _). split; [exact H1|]. split; [exact H2|]. rewrite H3. vm_compute. reflexivity.
Defined.
