(* ===== verification/Sysfile.v ===== *)
(** * Sysfile: the file system calls

    Models kernel/sysfile.c and kernel/fcntl.h (sys_exec is in [Exec], with
    exec()).  Arguments come through the interface [Sysargs], which kernel/
    syscall.c and the process table discharge. *)
From S2P Require Import Prelude Spinlock Mem Os Sleeplock Pipe Bio Log Fs File.

Definition O_RDONLY : Z := 0x000.
Definition O_WRONLY : Z := 0x001.
Definition O_RDWR : Z := 0x002.
Definition O_CREATE : Z := 0x200.
Definition O_TRUNC : Z := 0x400.

Class Sysargs (S : Type) := {
  arg_int : Z -> M S Z;                        (* argint(n, &x) *)
  arg_addr : Z -> M S Z;                       (* argaddr(n, &x) *)
  arg_str : Z -> M S (option (list Z));        (* argstr(n, buf, MAXPATH): None for -1 *)
  get_ofile : Z -> M S (option nat);           (* myproc()->ofile[fd] *)
  set_ofile : Z -> option nat -> M S unit;
  set_cwd : option nat -> M S unit;            (* myproc()->cwd = ip *)
}.

Section Sysfile.
Context {S : Type} `{!OS S} `{!Bufs S} `{!Txn S} `{!Devsw S} `{!Sysargs S}.
Context (ftl : lens S ftable) (fl : lens S itable) (pipel : Z -> lens S pipe).
Context (inode_addr : nat -> Z) (de_addr : Z) (fuel : nat).

Notation iget := (iget fl).
Notation ialloc := (ialloc fl).
Notation iupdate := (iupdate fl).
Notation ilock := (ilock fl inode_addr fuel).
Notation iunlock := (iunlock fl inode_addr).
Notation iput := (iput fl inode_addr fuel).
Notation iunlockput := (iunlockput fl inode_addr fuel).
Notation dirlookup := (dirlookup fl de_addr).
Notation dirlink := (dirlink fl inode_addr de_addr fuel).
Notation namei := (namei fl inode_addr de_addr fuel).
Notation nameiparent := (nameiparent fl inode_addr de_addr fuel).
Notation iread i := (lread (il fl i)).
Notation imod := (imod fl).
Notation filedup := (filedup ftl).
Notation fileclose := (fileclose ftl fl pipel inode_addr fuel).
Notation fmod := (fmod ftl).

(** [Some (fd, f)], or [None] for -1 *)
Definition argfd (n : Z) : M S (option (Z * nat)) :=
  fd <- arg_int n ;;
  if (fd <? 0) || (Z.of_nat NOFILE <=? fd) then ret None else
  f <- get_ofile fd ;;
  ret (match f with Some f => Some (fd, f) | None => None end).

Definition fdalloc (f : nat) : M S Z :=
  r <- for_first (seq 0 NOFILE) (fun fd =>
    let fd := Z.of_nat fd in
    o <- get_ofile fd ;;
    match o with
    | None => set_ofile fd (Some f) ;; ret (Some fd)
    | Some _ => ret None
    end) ;;
  ret (default (-1) r).

Definition sys_dup : M S Z :=
  a <- argfd 0 ;;
  match a with
  | None => ret (-1)
  | Some (_, f) =>
      fd <- fdalloc f ;;
      if fd <? 0 then ret (-1) else
      filedup f ;;
      ret fd
  end.

Definition sys_read : M S Z :=
  a <- argfd 0 ;;
  match a with
  | None => ret (-1)
  | Some (_, f) =>
      n <- arg_int 2 ;;
      p <- arg_addr 1 ;;
      fileread ftl fl pipel inode_addr fuel f p n
  end.

Definition sys_write : M S Z :=
  a <- argfd 0 ;;
  match a with
  | None => ret (-1)
  | Some (_, f) =>
      n <- arg_int 2 ;;
      p <- arg_addr 1 ;;
      filewrite ftl fl pipel inode_addr fuel f p n
  end.

Definition sys_close : M S Z :=
  a <- argfd 0 ;;
  match a with
  | None => ret (-1)
  | Some (fd, f) =>
      set_ofile fd None ;;
      fileclose f ;;
      ret 0
  end.

Definition sys_fstat : M S Z :=
  a <- argfd 0 ;;
  match a with
  | None => ret (-1)
  | Some (_, f) => st <- arg_addr 1 ;; filestat ftl fl inode_addr fuel f st
  end.

(** The code at [bad] of [sys_link]. *)
Definition link_bad (ip : nat) : M S Z :=
  ilock (Some ip) ;;
  imod ip (fun x => x <| i_nlink := i16 (i_nlink x - 1) |>) ;;
  iupdate ip ;;
  iunlockput (Some ip) ;;
  tx_end ;;
  ret (-1).

Definition sys_link : M S Z :=
  old <- arg_str 0 ;;
  match old with None => ret (-1) | Some old =>
  new <- arg_str 1 ;;
  match new with None => ret (-1) | Some new =>
  tx_begin ;;
  ip <- namei old ;;
  match ip with None => tx_end ;; ret (-1) | Some ip =>
  ilock (Some ip) ;;
  x <- iread ip ;;
  if i_type x =? T_DIR then iunlockput (Some ip) ;; tx_end ;; ret (-1) else
  imod ip (fun x => x <| i_nlink := i16 (i_nlink x + 1) |>) ;;
  iupdate ip ;;
  iunlock (Some ip) ;;
  r <- nameiparent new ;;
  match r with
  | (None, _) => link_bad ip
  | (Some dp, name) =>
      ilock (Some dp) ;;
      d <- iread dp ;;
      x <- iread ip ;;
      l <- (if negb (i_dev d =? i_dev x) then ret (-1) else dirlink dp name (i_inum x)) ;;
      if l <? 0 then iunlockput (Some dp) ;; link_bad ip else
      iunlockput (Some dp) ;;
      iput (Some ip) ;;
      tx_end ;;
      ret 0
  end end end end.

(** The loop starts behind the entries of "." and "..". *)
Definition isdirempty (dp : nat) : M S bool :=
  x <- iread dp ;;
  r <- for_first (seq 2 (Z.to_nat ((i_size x + de_size - 1) / de_size) - 2)) (fun k =>
    de <- read_dirent fl de_addr dp (de_size * Z.of_nat k) "isdirempty: readi" ;;
    ret (if negb (de_inum de =? 0) then Some tt else None)) ;;
  ret (match r with Some _ => false | None => true end).

Definition dot : list Z := [46; 0].
Definition dotdot : list Z := [46; 46; 0].

(** The code at [bad] of [sys_unlink]. *)
Definition unlink_bad (dp : nat) : M S Z := iunlockput (Some dp) ;; tx_end ;; ret (-1).

Definition sys_unlink : M S Z :=
  path <- arg_str 0 ;;
  match path with None => ret (-1) | Some path =>
  tx_begin ;;
  r <- nameiparent path ;;
  match r with
  | (None, _) => tx_end ;; ret (-1)
  | (Some dp, name) =>
      ilock (Some dp) ;;
      if (namecmp name dot =? 0) || (namecmp name dotdot =? 0) then unlink_bad dp else
      e <- dirlookup dp name ;;
      match e with
      | None => unlink_bad dp
      | Some (ip, off) =>
          ilock (Some ip) ;;
          x <- iread ip ;;
          if i_nlink x <? 1 then panic "unlink: nlink < 1" else
          empty <- (if i_type x =? T_DIR then isdirempty ip else ret true) ;;
          if negb empty then iunlockput (Some ip) ;; unlink_bad dp else
          os_kwrite de_addr (replicate (Z.to_nat de_size) 0) ;;
          w <- writei fl dp false de_addr off de_size ;;
          if negb (w =? de_size) then panic "unlink: writei" else
          x <- iread ip ;;
          when (i_type x =? T_DIR)
            (imod dp (fun x => x <| i_nlink := i16 (i_nlink x - 1) |>) ;;
             iupdate dp) ;;
          iunlockput (Some dp) ;;
          imod ip (fun x => x <| i_nlink := i16 (i_nlink x - 1) |>) ;;
          iupdate ip ;;
          iunlockput (Some ip) ;;
          tx_end ;;
          ret 0
      end
  end end.

(** The inode comes back locked. *)
Definition create (path : list Z) (type major minor : Z) : M S (option nat) :=
  r <- nameiparent path ;;
  match r with
  | (None, _) => ret None
  | (Some dp, name) =>
      ilock (Some dp) ;;
      e <- dirlookup dp name ;;
      match e with
      | Some (ip, _) =>
          iunlockput (Some dp) ;;
          ilock (Some ip) ;;
          x <- iread ip ;;
          if (type =? T_FILE) && ((i_type x =? T_FILE) || (i_type x =? T_DEVICE)) then ret (Some ip) else
          iunlockput (Some ip) ;;
          ret None
      | None =>
          d <- iread dp ;;
          ip <- ialloc (i_dev d) type ;;
          ilock (Some ip) ;;
          imod ip (fun x => x <| i_major := i16 major |>) ;;
          imod ip (fun x => x <| i_minor := i16 minor |>) ;;
          imod ip (fun x => x <| i_nlink := 1 |>) ;;
          iupdate ip ;;
          x <- iread ip ;;
          when (type =? T_DIR)
            (imod dp (fun x => x <| i_nlink := i16 (i_nlink x + 1) |>) ;;
             iupdate dp ;;
             l <- dirlink ip dot (i_inum x) ;;
             if l <? 0 then panic "create dots" else
             l <- dirlink ip dotdot (i_inum d) ;;
             if l <? 0 then panic "create dots" else ret tt) ;;
          l <- dirlink dp name (i_inum x) ;;
          if l <? 0 then panic "create: dirlink" else
          iunlockput (Some dp) ;;
          ret (Some ip)
      end
  end.

Definition open_mode (omode bit : Z) : bool := negb (Z.land omode bit =? 0).

(** The last part of [sys_open], with [ip] locked. *)
Definition open_file (ip : nat) (omode : Z) : M S Z :=
  x <- iread ip ;;
  if (i_type x =? T_DEVICE) && ((i_major x <? 0) || (Z.of_nat NDEV <=? i_major x))
  then iunlockput (Some ip) ;; tx_end ;; ret (-1) else
  f <- filealloc ftl ;;
  fd <- (match f with None => ret (-1) | Some f => fdalloc f end) ;;
  match f with
  | None => iunlockput (Some ip) ;; tx_end ;; ret (-1)
  | Some f =>
      if fd <? 0 then fileclose f ;; iunlockput (Some ip) ;; tx_end ;; ret (-1) else
      (if i_type x =? T_DEVICE
       then fmod f (fun g => g <| f_type := FD_DEVICE |> <| f_major := i_major x |>)
       else fmod f (fun g => g <| f_type := FD_INODE |> <| f_off := 0 |>)) ;;
      fmod f (fun g => g <| f_ip := Some ip |>) ;;
      fmod f (fun g => g <| f_readable := negb (open_mode omode O_WRONLY) |>) ;;
      fmod f (fun g => g <| f_writable := open_mode omode O_WRONLY || open_mode omode O_RDWR |>) ;;
      when (open_mode omode O_TRUNC && (i_type x =? T_FILE)) (itrunc fl ip) ;;
      iunlock (Some ip) ;;
      tx_end ;;
      ret fd
  end.

Definition sys_open : M S Z :=
  path <- arg_str 0 ;;
  match path with None => ret (-1) | Some path =>
  omode <- arg_int 1 ;;
  tx_begin ;;
  if open_mode omode O_CREATE then
    ip <- create path T_FILE 0 0 ;;
    match ip with None => tx_end ;; ret (-1) | Some ip => open_file ip omode end
  else
    ip <- namei path ;;
    match ip with None => tx_end ;; ret (-1) | Some ip =>
      ilock (Some ip) ;;
      x <- iread ip ;;
      if (i_type x =? T_DIR) && negb (omode =? O_RDONLY)
      then iunlockput (Some ip) ;; tx_end ;; ret (-1)
      else open_file ip omode
    end
  end.

Definition sys_mkdir : M S Z :=
  tx_begin ;;
  path <- arg_str 0 ;;
  ip <- (match path with None => ret None | Some path => create path T_DIR 0 0 end) ;;
  match ip with
  | None => tx_end ;; ret (-1)
  | Some ip => iunlockput (Some ip) ;; tx_end ;; ret 0
  end.

Definition sys_mknod : M S Z :=
  tx_begin ;;
  path <- arg_str 0 ;;
  ip <- (match path with
         | None => ret None
         | Some path =>
             major <- arg_int 1 ;;
             minor <- arg_int 2 ;;
             create path T_DEVICE major minor
         end) ;;
  match ip with
  | None => tx_end ;; ret (-1)
  | Some ip => iunlockput (Some ip) ;; tx_end ;; ret 0
  end.

Definition sys_chdir : M S Z :=
  tx_begin ;;
  path <- arg_str 0 ;;
  ip <- (match path with None => ret None | Some path => namei path end) ;;
  match ip with
  | None => tx_end ;; ret (-1)
  | Some ip =>
      ilock (Some ip) ;;
      x <- iread ip ;;
      if negb (i_type x =? T_DIR) then iunlockput (Some ip) ;; tx_end ;; ret (-1) else
      iunlock (Some ip) ;;
      cwd <- os_cwd ;;
      iput cwd ;;
      tx_end ;;
      set_cwd (Some ip) ;;
      ret 0
  end.

Definition sys_pipe : M S Z :=
  fdarray <- arg_addr 0 ;;
  r <- pipealloc ftl fl pipel inode_addr fuel ;;
  match r with
  | None => ret (-1)
  | Some (rf, wf) =>
      fd0 <- fdalloc rf ;;
      fd1 <- (if fd0 <? 0 then ret (-1) else fdalloc wf) ;;
      if fd1 <? 0 then
        when (0 <=? fd0) (set_ofile fd0 None) ;;
        fileclose rf ;;
        fileclose wf ;;
        ret (-1)
      else
        c <- os_copyout true fdarray (put_le 4 0 fd0 (replicate 4 0)) ;;
        c <- (if c <? 0 then ret c else os_copyout true (u64 (fdarray + 4)) (put_le 4 0 fd1 (replicate 4 0))) ;;
        if c <? 0 then
          set_ofile fd0 None ;;
          set_ofile fd1 None ;;
          fileclose rf ;;
          fileclose wf ;;
          ret (-1)
        else ret 0
  end.
End Sysfile.
