(* ===== verification/Exec.v ===== *)
(** * Exec: loading a program

    Models kernel/exec.c, kernel/elf.h and sys_exec() of kernel/sysfile.c. *)
From S2P Require Import Prelude Spinlock ProcQueue Mem Kalloc Vm KState Proc Syscall Os Sleeplock Bio Log Fs.

Definition ELF_MAGIC : Z := 0x464C457F.
Definition ELF_PROG_LOAD : Z := 1.
Definition elfhdr_size : Z := 64.
Definition proghdr_size : Z := 56.

(** The fields exec() uses, by their offsets. *)
Definition elf_magic (h : list Z) : Z := get_le 4 0 h.
Definition elf_entry (h : list Z) : Z := get_le 8 24 h.
Definition elf_phoff (h : list Z) : Z := get_le 8 32 h.
Definition elf_phnum (h : list Z) : Z := get_le 2 56 h.
Definition ph_type (h : list Z) : Z := get_le 4 0 h.
Definition ph_off (h : list Z) : Z := get_le 8 8 h.
Definition ph_vaddr (h : list Z) : Z := get_le 8 16 h.
Definition ph_filesz (h : list Z) : Z := get_le 8 32 h.
Definition ph_memsz (h : list Z) : Z := get_le 8 40 h.

(** for(last = s = path; *s; s++) if( *s == '/') last = s+1; *)
Fixpoint last_elem (path last : list Z) : list Z :=
  match path with
  | [] => last
  | c :: p => last_elem p (if c =? slash then p else last)
  end.

Fixpoint string_of_bytes (l : list Z) : string :=
  match l with
  | [] => EmptyString
  | c :: l' => String (Ascii.ascii_of_N (Z.to_N c)) (string_of_bytes l')
  end.

Section Exec.
Context {F : Type} `{!Switch F} `{!OS (kst F)} `{!Bufs (kst F)} `{!Txn (kst F)}.
Context (fl : lens (kst F) itable) (inode_addr : nat -> Z) (de_addr : Z).

(** [kend] and [trampoline] are set by the linker; then the addresses of the
    locals elf, ph and ustack of exec(), and bounds for wakeups and strings. *)
Context (kend trampoline : Z) (elf_addr ph_addr ustack_addr : Z) (fuel : nat).

Notation iunlockput := (iunlockput fl inode_addr fuel).
Notation readi := (readi fl).

(** for(i = 0; i < sz; i += PGSIZE) of [loadseg] *)
Definition loadseg (pagetable va : Z) (ip : nat) (offset sz : Z) : M (kst F) Z :=
  r <- for_first (seq 0 (Z.to_nat ((sz + PGSIZE - 1) / PGSIZE))) (fun k =>
    let i := PGSIZE * Z.of_nat k in
    pa <- km (walkaddr pagetable (u64 (va + i))) ;;
    if pa =? 0 then panic "loadseg: address should exist" else
    let n := if sz - i <? PGSIZE then sz - i else PGSIZE in
    r <- readi ip false pa (u32 (offset + i)) n ;;
    ret (if negb (r =? n) then Some tt else None)) ;;
  ret (match r with Some _ => -1 | None => 0 end).

(** The loop over the program headers: whether it went to [bad], and [sz]. *)
Fixpoint load_segments (k : nat) (pagetable : Z) (ip : nat) (off sz : Z) : M (kst F) (bool * Z) :=
  match k with
  | O => ret (true, sz)
  | Datatypes.S k' =>
      r <- readi ip false ph_addr (u32 off) proghdr_size ;;
      if negb (r =? proghdr_size) then ret (false, sz) else
      ph <- os_kread ph_addr (Z.to_nat proghdr_size) ;;
      if negb (ph_type ph =? ELF_PROG_LOAD) then load_segments k' pagetable ip (i32 (off + proghdr_size)) sz else
      if ph_memsz ph <? ph_filesz ph then ret (false, sz) else
      if u64 (ph_vaddr ph + ph_memsz ph) <? ph_vaddr ph then ret (false, sz) else
      sz1 <- km (uvmalloc kend pagetable sz (u64 (ph_vaddr ph + ph_memsz ph))) ;;
      if sz1 =? 0 then ret (false, sz) else
      if negb (ph_vaddr ph mod PGSIZE =? 0) then ret (false, sz1) else
      r <- loadseg pagetable (ph_vaddr ph) ip (u32 (ph_off ph)) (u32 (ph_filesz ph)) ;;
      if r <? 0 then ret (false, sz1) else
      load_segments k' pagetable ip (i32 (off + proghdr_size)) sz1
  end.

(** strlen of a kernel string *)
Definition kstrlen (s : Z) : M (kst F) Z :=
  m <- gets (fun s => k_mem (ks_km s)) ;;
  match strlen fuel s m with Some n => ret n | None => fail EHang end.

(** for(argc = 0; argv[argc]; argc++): [None] at [bad], else argc, sp, ustack *)
Fixpoint push_args (k : nat) (pagetable stackbase : Z) (argv : list Z) (argc sp : Z) (ustack : list Z)
    : M (kst F) (option (Z * Z * list Z)) :=
  match k with
  | O => fail EHang
  | Datatypes.S k' =>
      a <- aget argv argc ;;
      if a =? 0 then ret (Some (argc, sp, ustack)) else
      if Z.of_nat MAXARG <=? argc then ret None else
      l <- kstrlen a ;;
      let sp := u64 (sp - (l + 1)) in
      let sp := u64 (sp - sp mod 16) in
      if sp <? stackbase then ret None else
      r <- km (copyout pagetable sp a (l + 1)) ;;
      if r <? 0 then ret None else
      ustack <- aset ustack argc sp ;;
      push_args k' pagetable stackbase argv (argc + 1) sp ustack
  end.

(** The code at [bad]: after the image was loaded there is no inode to put. *)
Definition exec_bad (pagetable sz : Z) (ip : option nat) : M (kst F) Z :=
  when (negb (pagetable =? 0)) (proc_freepagetable kend pagetable sz) ;;
  match ip with
  | Some _ => iunlockput ip ;; tx_end ;; ret (-1)
  | None => ret (-1)
  end.

Definition store_words (a : Z) (l : list Z) (m : mem) : mem :=
  foldl (fun m x => st64 (a + 8 * Z.of_nat x.1) x.2 m) m (imap pair l).

(** From the user stack on: the image is loaded, [sz] bytes of it. *)
Definition exec_stack (p : nat) (path : list Z) (argv : list Z) (elf : list Z) (pagetable sz : Z) : M (kst F) Z :=
  oldsz <- pget p p_sz ;;
  let sz := PGROUNDUP sz in
  sz1 <- km (uvmalloc kend pagetable sz (u64 (sz + 2 * PGSIZE))) ;;
  if sz1 =? 0 then exec_bad pagetable sz None else
  let sz := sz1 in
  km (uvmclear pagetable (u64 (sz - 2 * PGSIZE))) ;;
  let sp := sz in
  let stackbase := u64 (sp - PGSIZE) in
  r <- push_args (Datatypes.S (length argv)) pagetable stackbase argv 0 sp (replicate MAXARG 0) ;;
  match r with
  | None => exec_bad pagetable sz None
  | Some (argc, sp, ustack) =>
      ustack <- aset ustack argc 0 ;;
      let sp := u64 (sp - (argc + 1) * 8) in
      let sp := u64 (sp - sp mod 16) in
      if sp <? stackbase then exec_bad pagetable sz None else
      km (kmodify (store_words ustack_addr (take (Z.to_nat (argc + 1)) ustack))) ;;
      r <- km (copyout pagetable sp ustack_addr ((argc + 1) * 8)) ;;
      if r <? 0 then exec_bad pagetable sz None else
      tf <- pget p p_trapframe ;;
      km (kstore (tf + tf_a1) sp) ;;
      pmod p (fun q => q <| p_name := string_of_bytes (take 15 (last_elem path path)) |>) ;;
      oldpagetable <- pget p p_pagetable ;;
      pmod p (fun q => q <| p_pagetable := pagetable |>) ;;
      pmod p (fun q => q <| p_sz := sz |>) ;;
      km (kstore (tf + tf_epc) (elf_entry elf)) ;;
      km (kstore (tf + tf_sp) sp) ;;
      proc_freepagetable kend oldpagetable oldsz ;;
      ret (i32 argc)
  end.

Definition exec (path : list Z) (argv : list Z) : M (kst F) Z :=
  p <- curproc ;;
  tx_begin ;;
  ip <- namei fl inode_addr de_addr fuel path ;;
  match ip with
  | None => tx_end ;; ret (-1)
  | Some ip =>
      ilock fl inode_addr fuel (Some ip) ;;
      r <- readi ip false elf_addr 0 elfhdr_size ;;
      if negb (r =? elfhdr_size) then exec_bad 0 0 (Some ip) else
      elf <- os_kread elf_addr (Z.to_nat elfhdr_size) ;;
      if negb (elf_magic elf =? ELF_MAGIC) then exec_bad 0 0 (Some ip) else
      pagetable <- proc_pagetable kend trampoline p ;;
      if pagetable =? 0 then exec_bad 0 0 (Some ip) else
      r <- load_segments (Z.to_nat (elf_phnum elf)) pagetable ip (i32 (elf_phoff elf)) 0 ;;
      if negb r.1 then exec_bad pagetable r.2 (Some ip) else
      iunlockput (Some ip) ;;
      tx_end ;;
      p <- curproc ;;
      exec_stack p path argv elf pagetable r.2
  end.

(** ** sys_exec *)

(** for(i = 0; i < NELEM(argv) && argv[i] != 0; i++) kfree(argv[i]); *)
Fixpoint free_args (argv : list Z) : M (kst F) unit :=
  match argv with
  | [] => ret tt
  | a :: argv' => if a =? 0 then ret tt else os_kfree a ;; free_args argv'
  end.

(** for(i = 0;; i++): whether the arguments were all fetched, and argv.
    [arg_scratch] is the address of uarg. *)
Fixpoint fetch_args (k : nat) (arg_scratch uargv i : Z) (argv : list Z) : M (kst F) (bool * list Z) :=
  match k with
  | O => fail EHang
  | Datatypes.S k' =>
      if Z.of_nat MAXARG <=? i then ret (false, argv) else
      u <- fetchaddr arg_scratch 0 (u64 (uargv + 8 * i)) ;;
      if u.1 <? 0 then ret (false, argv) else
      if u.2 =? 0 then ret (true, <[Z.to_nat i := 0]> argv) else
      a <- os_kalloc ;;
      let argv := <[Z.to_nat i := a]> argv in
      if a =? 0 then ret (false, argv) else
      r <- fetchstr fuel u.2 a PGSIZE ;;
      if r <? 0 then ret (false, argv) else
      fetch_args k' arg_scratch uargv (i + 1) argv
  end.

(** [path_addr] is where the local path[MAXPATH] lies. *)
Definition sys_exec (path_addr arg_scratch : Z) : M (kst F) Z :=
  n <- argstr fuel 0 path_addr MAXPATH ;;
  if n <? 0 then ret (-1) else
  uargv <- argaddr 1 ;;
  path <- os_kread path_addr (Z.to_nat n) ;;
  r <- fetch_args (Datatypes.S MAXARG) arg_scratch uargv 0 (replicate MAXARG 0) ;;
  if r.1 : bool then
    v <- exec path r.2 ;;
    free_args r.2 ;;
    ret v
  else
    free_args r.2 ;;
    ret (-1).
End Exec.
