(* ===== verification/Kernel.v ===== *)
(** * Kernel: the components put together

    The file layer's state, and the instances by which each component gets the
    operations of the ones below it: the buffer cache over the process layer,
    the log over the buffer cache, inodes and files over both, the process layer
    and the system calls over the file layer, printf() and the console over the
    serial port, the buffer cache over the disk driver.  The registers of the disk
    and of the serial port, and the context switch, remain interfaces. *)
From S2P Require Import Prelude Spinlock ProcQueue Mem Kalloc Vm KState Proc Sched Syscall Trap Os Sleeplock Pipe.
From S2P Require Import Uart Console Digits Printf Bio Virtio Log Fs File Sysfile Exec.

Record files : Type := mkfiles {
  fi_bcache : bcache;
  fi_log : log;
  fi_itable : itable;
  fi_ftable : ftable;
  fi_pipes : gmap Z pipe;      (* the pages that hold pipes *)
  fi_uart : uart;
  fi_cons : cons;
  fi_pr : prst;
  fi_disk : disk;
}.
#[export] Instance eta_files : Settable files := fun f =>
  mkfiles (fi_bcache f) (fi_log f) (fi_itable f) (fi_ftable f) (fi_pipes f) (fi_uart f) (fi_cons f) (fi_pr f) (fi_disk f).

Definition zero_pipe : pipe := mkpipe (mkspinlock false "" None) (replicate (Z.to_nat PIPESIZE) 0) 0 0 false false.

(** What the linker and the compiler decide: addresses of code, globals and
    locals; [ly_fuel] bounds vain wakeups and string lengths. *)
Record layout : Type := mklayout {
  ly_end : Z;
  ly_trampoline : Z;
  ly_forkret : Z;
  ly_xstate : nat -> Z;
  ly_proc : option nat -> Z;
  ly_ticks : Z;
  ly_cons_r : Z;               (* &cons.r *)
  ly_tx_r : Z;                 (* &uart_tx_r *)
  ly_numbuf : list Z;          (* what printint()'s buf holds to begin with *)
  ly_buf : nat -> Z;
  ly_bufdata : nat -> Z;       (* bcache.buf[i].data *)
  ly_ops : Z -> Z;             (* disk.ops[i] *)
  ly_status : Z -> Z;          (* disk.info[i].status *)
  ly_free : Z;                 (* disk.free[0] *)
  ly_inode : nat -> Z;
  ly_log : Z;
  ly_data : Z;                 (* the bytes a caller copies *)
  ly_de : Z;
  ly_path : Z;
  ly_scratch : Z;
  ly_elf : Z;
  ly_ph : Z;
  ly_ustack : Z;
  ly_fuel : nat;
}.

Section Kernel.
Context `{!Switch files} `{!VirtioRegs (kst files)} `{!UartRegs (kst files)}.
Context (ly : layout).

Notation ks := (kst files).

Definition filesl : lens ks files := field ks_files.
Definition bcachel : lens ks bcache := lens_comp filesl (field fi_bcache).
Definition logl : lens ks log := lens_comp filesl (field fi_log).
Definition itablel : lens ks itable := lens_comp filesl (field fi_itable).
Definition ftablel : lens ks ftable := lens_comp filesl (field fi_ftable).
Definition pipel (a : Z) : lens ks pipe :=
  lens_comp filesl (Lens (fun f => default zero_pipe (fi_pipes f !! a)) (fun p f => f <| fi_pipes := <[a := p]> (fi_pipes f) |>)).

#[local] Instance os_kernel : OS ks := os_kst (ly_end ly) (ly_data ly).
(** printf(), and the console as the device CONSOLE. *)
Definition uartl : lens ks uart := lens_comp filesl (field fi_uart).
Definition consl : lens ks cons := lens_comp filesl (field fi_cons).
Definition prl : lens ks prst := lens_comp filesl (field fi_pr).

#[local] Instance printk_kernel : Printk files :=
  fun fmt ap => printf uartl prl (ly_fuel ly) (ly_numbuf ly) (Some (bytes_of_string fmt)) ap.

#[local] Instance devsw_kernel : Devsw ks := {|
  devsw_read := fun d => if d =? CONSOLE then Some (consoleread consl (ly_cons_r ly) (ly_fuel ly) true) else None;
  devsw_write := fun d => if d =? CONSOLE then Some (consolewrite uartl (ly_tx_r ly) (ly_fuel ly) true) else None;
|}.

(** The serial port's interrupt handler. *)
Definition kernel_uartintr (kind : sched_kind) : M ks unit :=
  Console.uartintr uartl consl (ly_cons_r ly) (ly_tx_r ly) (procdump kind) (ly_fuel ly).

(** The disk driver. *)
Definition vdiskl : lens ks disk := lens_comp filesl (field fi_disk).
Definition bufl (i : nat) : lens ks buf := lens_comp bcachel (Lens (fun c => getbuf c i) (setbuf i)).

#[local] Instance disk_kernel : Disk ks :=
  virtio_disk_rw_impl vdiskl bufl (ly_ops ly) (ly_status ly) (ly_bufdata ly) (ly_buf ly) (ly_free ly) (ly_fuel ly).
Definition kernel_virtio_disk_intr : M ks unit := Virtio.virtio_disk_intr vdiskl bufl (ly_buf ly).

#[local] Instance bufs_kernel : Bufs ks := bufs_impl bcachel (ly_buf ly) (ly_fuel ly).
#[local] Instance txn_kernel : Txn ks := txn_log logl (ly_log ly) (ly_fuel ly).

(** The process layer's view of the file layer. *)
Definition fileops_kernel : FileOps files := {|
  KState.filedup := File.filedup ftablel;
  KState.fileclose := File.fileclose ftablel itablel pipel (ly_inode ly) (ly_fuel ly);
  KState.idup := Fs.idup itablel;
  KState.iput := Fs.iput itablel (ly_inode ly) (ly_fuel ly);
  KState.begin_op := tx_begin;
  KState.end_op := tx_end;
  KState.namei := fun path => Fs.namei itablel (ly_inode ly) (ly_de ly) (ly_fuel ly) (bytes_of_string path);
|}.

(** System call arguments, and the process's files. *)
#[local] Instance sysargs_kernel : Sysargs ks := {|
  arg_int := argint;
  arg_addr := argaddr;
  arg_str := fun n =>
    r <- argstr (ly_fuel ly) n (ly_path ly) MAXPATH ;;
    if r <? 0 then ret None else
    s <- os_kread (ly_path ly) (Z.to_nat r) ;; ret (Some s);
  get_ofile := fun fd => p <- curproc ;; l <- pget p p_ofile ;; aget l fd;
  set_ofile := fun fd f =>
    p <- curproc ;; l <- pget p p_ofile ;; l' <- aset l fd f ;; pmod p (fun q => q <| p_ofile := l' |>);
  set_cwd := fun ip => p <- curproc ;; pmod p (fun q => q <| p_cwd := ip |>);
|}.

(** The rest of syscalls[]: the handlers of kernel/sysfile.c. *)
Definition filesys_kernel : FileSyscalls files := fun num =>
  if num =? SYS_pipe then Some (sys_pipe ftablel itablel pipel (ly_inode ly) (ly_fuel ly))
  else if num =? SYS_read then Some (sys_read ftablel itablel pipel (ly_inode ly) (ly_fuel ly))
  else if num =? SYS_exec then
    Some (sys_exec itablel (ly_inode ly) (ly_de ly) (ly_end ly) (ly_trampoline ly) (ly_elf ly) (ly_ph ly)
      (ly_ustack ly) (ly_fuel ly) (ly_path ly) (ly_scratch ly))
  else if num =? SYS_fstat then Some (sys_fstat ftablel itablel (ly_inode ly) (ly_fuel ly))
  else if num =? SYS_chdir then Some (sys_chdir itablel (ly_inode ly) (ly_de ly) (ly_fuel ly))
  else if num =? SYS_dup then Some (sys_dup ftablel)
  else if num =? SYS_open then Some (sys_open ftablel itablel pipel (ly_inode ly) (ly_de ly) (ly_fuel ly))
  else if num =? SYS_write then Some (sys_write ftablel itablel pipel (ly_inode ly) (ly_fuel ly))
  else if num =? SYS_mknod then Some (sys_mknod itablel (ly_inode ly) (ly_de ly) (ly_fuel ly))
  else if num =? SYS_unlink then Some (sys_unlink itablel (ly_inode ly) (ly_de ly) (ly_fuel ly))
  else if num =? SYS_link then Some (sys_link itablel (ly_inode ly) (ly_de ly) (ly_fuel ly))
  else if num =? SYS_mkdir then Some (sys_mkdir itablel (ly_inode ly) (ly_de ly) (ly_fuel ly))
  else if num =? SYS_close then Some (sys_close ftablel itablel pipel (ly_inode ly) (ly_fuel ly))
  else None.

(** One system call of the whole kernel. *)
Definition kernel_syscall (junk : Z) : M ks unit :=
  syscall (FileOps0 := fileops_kernel) (FileSyscalls0 := filesys_kernel)
    (ly_end ly) (ly_trampoline ly) (ly_forkret ly) (ly_xstate ly) (ly_proc ly) (ly_scratch ly) (ly_ticks ly) junk (ly_fuel ly).
End Kernel.
