(* ===== verification/Boot.v ===== *)
(** * Boot: kernel/start.c and kernel/main.c

    [Module Start]: what one hart does in machine mode before mret.  Then main(): the
    statements that hart 0 runs and those the others run, over the whole kernel of
    [Kernel], and any number of harts in main() at once, with the handshake through
    [started].  [Kvm] shows what the page table that hart 0 makes maps. *)
From S2P Require Import Prelude Spinlock ProcQueue Mem Kalloc Vm KState Proc Sched Syscall Trap Os Sleeplock Pipe.
From S2P Require Import Uart Console Digits Printf Bio Virtio Log Fs File Sysfile Exec Kernel.

Module Start.

(** ** riscv.h, memlayout.h *)

Definition MSTATUS_MPP_MASK : Z := Z.shiftl 3 11.
Definition MSTATUS_MPP_S : Z := Z.shiftl 1 11.
Definition MSTATUS_MIE : Z := Z.shiftl 1 3.
Definition MSTATUS_MPIE : Z := Z.shiftl 1 7.
Definition MIE_MTIE : Z := Z.shiftl 1 7.
Definition SIE_SEIE : Z := Z.shiftl 1 9.
Definition SIE_STIE : Z := Z.shiftl 1 5.
Definition SIE_SSIE : Z := Z.shiftl 1 1.
Definition CLINT : Z := 0x2000000.
Definition CLINT_MTIMECMP (hartid : Z) : Z := CLINT + 0x4000 + 8 * hartid.
Definition CLINT_MTIME : Z := CLINT + 0xBFF8.

(** The modes of a hart, as the MPP field has them *)
Definition MODE_M : Z := 3.
Definition MODE_S : Z := 1.

(** A hart's registers, the CLINT's and the scratch areas; [mc_pc] is where it runs on. *)
Record mach : Type := mkmach {
  mc_mhartid : Z;
  mc_mode : Z;
  mc_pc : Z;
  mc_mstatus : Z;
  mc_mepc : Z;
  mc_satp : Z;
  mc_medeleg : Z;
  mc_mideleg : Z;
  mc_sie : Z;
  mc_pmpaddr0 : Z;
  mc_pmpcfg0 : Z;
  mc_mscratch : Z;
  mc_mtvec : Z;
  mc_mie : Z;
  mc_tp : Z;
  mc_clint : gmap Z Z;         (* the 64-bit registers of the CLINT, by address *)
  timer_scratch : list (list Z);
}.
#[export] Instance eta_mach : Settable mach := fun m =>
  mkmach (mc_mhartid m) (mc_mode m) (mc_pc m) (mc_mstatus m) (mc_mepc m) (mc_satp m) (mc_medeleg m) (mc_mideleg m)
    (mc_sie m) (mc_pmpaddr0 m) (mc_pmpcfg0 m) (mc_mscratch m) (mc_mtvec m) (mc_mie m) (mc_tp m) (mc_clint m) (timer_scratch m).

(** *(uint64* )a, and the store *)
Definition clint_read (a : Z) : M mach Z := gets (fun m => default 0 (mc_clint m !! a)).
Definition clint_write (a v : Z) : M mach unit := modify (fun m => m <| mc_clint := <[a := u64 v]> (mc_clint m) |>).

(** The instruction: to the mode and the address that were set up, and with the
    interrupt bit that was saved. *)
Definition mret : M mach unit :=
  modify (fun m => m <| mc_mode := Z.land (Z.shiftr (mc_mstatus m) 11) 3 |> <| mc_pc := mc_mepc m |>
                     <| mc_mstatus := Z.lor (Z.ldiff (mc_mstatus m) (Z.lor MSTATUS_MPP_MASK MSTATUS_MIE))
                          (Z.lor MSTATUS_MPIE (if Z.testbit (mc_mstatus m) 7 then MSTATUS_MIE else 0)) |>).

Section Start.
(** Addresses of main, of timervec and of timer_scratch *)
Context (main_addr timervec scratch_addr : Z).

(** An array of 5 words for each CPU *)
Definition set_scratch (id k v : Z) : M mach unit :=
  t <- gets timer_scratch ;;
  row <- aget t id ;;
  row <- aset row k v ;;
  t <- aset t id row ;;
  modify (fun m => m <| timer_scratch := t |>).

Definition timerinit : M mach unit :=
  id <- gets (fun m => i32 (mc_mhartid m)) ;;
  let interval := 1000000 in
  time <- clint_read CLINT_MTIME ;;
  clint_write (CLINT_MTIMECMP id) (time + interval) ;;
  set_scratch id 3 (CLINT_MTIMECMP id) ;;
  set_scratch id 4 interval ;;
  modify (fun m => m <| mc_mscratch := scratch_addr + 40 * id |>) ;;
  modify (fun m => m <| mc_mtvec := timervec |>) ;;
  modify (fun m => m <| mc_mstatus := Z.lor (mc_mstatus m) MSTATUS_MIE |>) ;;
  modify (fun m => m <| mc_mie := Z.lor (mc_mie m) MIE_MTIE |>).

Definition start : M mach unit :=
  x <- gets mc_mstatus ;;
  let x := Z.ldiff x MSTATUS_MPP_MASK in
  let x := Z.lor x MSTATUS_MPP_S in
  modify (fun m => m <| mc_mstatus := x |>) ;;
  modify (fun m => m <| mc_mepc := main_addr |>) ;;
  modify (fun m => m <| mc_satp := 0 |>) ;;
  modify (fun m => m <| mc_medeleg := 0xffff |>) ;;
  modify (fun m => m <| mc_mideleg := 0xffff |>) ;;
  modify (fun m => m <| mc_sie := Z.lor (Z.lor (Z.lor (mc_sie m) SIE_SEIE) SIE_STIE) SIE_SSIE |>) ;;
  modify (fun m => m <| mc_pmpaddr0 := 0x3fffffffffffff |>) ;;
  modify (fun m => m <| mc_pmpcfg0 := 0xf |>) ;;
  timerinit ;;
  id <- gets (fun m => i32 (mc_mhartid m)) ;;
  modify (fun m => m <| mc_tp := u64 id |>) ;;
  mret.

(** ** Properties *)

(** What start() leaves: *)
Record started_from (m m' : mach) : Prop := {
  st_mode : mc_mode m' = MODE_S;
  st_pc : mc_pc m' = main_addr;
  st_satp : mc_satp m' = 0;
  st_tp : mc_tp m' = mc_mhartid m;
  st_deleg : mc_medeleg m' = 0xffff /\ mc_mideleg m' = 0xffff;
  st_sie : forall n, Z.testbit (mc_sie m') n = Z.testbit (mc_sie m) n || bool_decide (n = 1 \/ n = 5 \/ n = 9);
  st_mie : Z.testbit (mc_mie m') 7 = true;
  st_pmp : mc_pmpaddr0 m' = 2 ^ 54 - 1 /\ mc_pmpcfg0 m' = 15;
  st_trap : mc_mtvec m' = timervec;
  st_scratch : mc_mscratch m' = scratch_addr + 40 * mc_mhartid m /\
    exists row, timer_scratch m !! Z.to_nat (mc_mhartid m) = Some row /\
      timer_scratch m' !! Z.to_nat (mc_mhartid m) = Some (<[4%nat := 1000000]> (<[3%nat := CLINT_MTIMECMP (mc_mhartid m)]> row));
  st_timer : mc_clint m' !! CLINT_MTIMECMP (mc_mhartid m) = Some (u64 (default 0 (mc_clint m !! CLINT_MTIME) + 1000000));
  st_others : forall i, i <> mc_mhartid m -> 0 <= i < Z.of_nat NCPU ->
    timer_scratch m' !! Z.to_nat i = timer_scratch m !! Z.to_nat i /\ mc_clint m' !! CLINT_MTIMECMP i = mc_clint m !! CLINT_MTIMECMP i;
}.

Lemma set_scratch_ok id k v m row : 0 <= id -> timer_scratch m !! Z.to_nat id = Some row -> 0 <= k < Z.of_nat (length row) ->
  set_scratch id k v m = Ret tt (m <| timer_scratch := <[Z.to_nat id := <[Z.to_nat k := v]> row]> (timer_scratch m) |>).
Proof.
  intros Hid Hrow Hk. pose proof (lookup_lt_Some _ _ _ Hrow). unfold set_scratch. erewrite bind_ret by done.
  erewrite bind_ret by (apply aget_ok; unfold znth; zcase; done).
  erewrite bind_ret by (by apply aset_ok). erewrite bind_ret by (apply aset_ok; lia). done.
Qed.

(** MPP after start()'s updates is supervisor mode. *)
Lemma mpp_supervisor x :
  Z.land (Z.shiftr (Z.lor (Z.lor (Z.ldiff x MSTATUS_MPP_MASK) MSTATUS_MPP_S) MSTATUS_MIE) 11) 3 = MODE_S.
Proof.
  apply Z.bits_inj'. intros n Hn. rewrite Z.land_spec, Z.shiftr_spec, !Z.lor_spec, Z.ldiff_spec by done.
  destruct (decide (n = 0)) as [->|]; [by rewrite orb_true_r|]. destruct (decide (n = 1)) as [->|]; [by rewrite andb_false_r|].
  rewrite (Z.bits_above_log2 3), (Z.bits_above_log2 MODE_S) by (vm_compute Z.log2; lia || done). apply andb_false_r.
Qed.

Lemma sie_bits x n : Z.testbit (Z.lor (Z.lor (Z.lor x SIE_SEIE) SIE_STIE) SIE_SSIE) n =
  Z.testbit x n || bool_decide (n = 1 \/ n = 5 \/ n = 9).
Proof.
  unfold SIE_SEIE, SIE_STIE, SIE_SSIE. rewrite !Z.lor_spec, !Z.shiftl_1_l, !Z.pow2_bits_eqb by done. rewrite <- !orb_assoc. f_equal.
  case_bool_decide; zcase; try done; cbn [orb]; lia.
Qed.

Lemma timerinit_ok m row : 0 <= mc_mhartid m < Z.of_nat NCPU ->
  timer_scratch m !! Z.to_nat (mc_mhartid m) = Some row -> length row = 5%nat ->
  let id := mc_mhartid m in
  timerinit m = Ret tt (m <| mc_clint := <[CLINT_MTIMECMP id := u64 (default 0 (mc_clint m !! CLINT_MTIME) + 1000000)]> (mc_clint m) |>
    <| timer_scratch := <[Z.to_nat id := <[4%nat := 1000000]> (<[3%nat := CLINT_MTIMECMP id]> row)]> (timer_scratch m) |>
    <| mc_mscratch := scratch_addr + 40 * id |> <| mc_mtvec := timervec |>
    <| mc_mstatus := Z.lor (mc_mstatus m) MSTATUS_MIE |> <| mc_mie := Z.lor (mc_mie m) MIE_MTIE |>).
Proof.
  intros Hid Hrow Hlen id. assert (i32 (mc_mhartid m) = id) as Ei by (unfold NCPU in Hid; unfold i32; zmod).
  pose proof (lookup_lt_Some _ _ _ Hrow) as Hlt. unfold timerinit. erewrite bind_ret by done. cbv zeta. rewrite Ei.
  erewrite bind_ret by done. erewrite bind_ret by done.
  erewrite bind_ret by (apply (set_scratch_ok id 3 _ _ row); [subst id; lia|exact Hrow|lia]).
  erewrite bind_ret by (apply (set_scratch_ok id 4 _ _ (<[3%nat := CLINT_MTIMECMP id]> row));
    [subst id; lia|cbn; by rewrite list_lookup_insert_eq by done|rewrite length_insert; lia]).
  erewrite bind_ret by done. erewrite bind_ret by done. erewrite bind_ret by done. unfold modify. f_equal.
  cbn -[CLINT_MTIMECMP]. by rewrite list_insert_insert_eq.
Qed.

(** start() leaves the hart in supervisor mode at main(), without paging, its number
    in tp, every trap delegated, supervisor interrupts on beside the ones that were,
    and the next timer interrupt one interval ahead with its scratch area set up; it
    touches neither the scratch area nor the timer of any other hart. *)
Theorem start_enters_main (m : mach) (row : list Z) (Hid : 0 <= mc_mhartid m < Z.of_nat NCPU)
  (Hrow : timer_scratch m !! Z.to_nat (mc_mhartid m) = Some row) (Hlen : length row = 5%nat) :
  returns start m (fun _ m' => started_from m m').
Proof.
  assert (i32 (mc_mhartid m) = mc_mhartid m /\ u64 (mc_mhartid m) = mc_mhartid m) as [Ei Eu]
    by (unfold NCPU in Hid; unfold i32, u64; split; zmod).
  pose proof (lookup_lt_Some _ _ _ Hrow) as Hlt.
  unfold start. do 9 (apply returns_bind; eapply returns_intro; [done|]).
  apply returns_bind. eapply returns_intro; [by apply (timerinit_ok _ row)|].
  do 2 (apply returns_bind; eapply returns_intro; [done|]). eapply returns_intro; [done|].
  constructor; cbn -[CLINT_MTIMECMP]; rewrite ?Ei, ?Eu; try done.
  - apply mpp_supervisor.
  - intros n. apply sie_bits.
  - by rewrite Z.lor_spec, orb_true_r.
  - split; [done|]. exists row. by rewrite list_lookup_insert_eq.
  - by rewrite lookup_insert_eq.
  - intros i Hi Hr. rewrite list_lookup_insert_ne by lia. rewrite lookup_insert_ne by (unfold CLINT_MTIMECMP; lia). done.
Qed.
End Start.

(** ** Witness *)

Definition wit_mach : mach :=
  mkmach 1 3 0x80000000 0x80 0 7 0 0 0 0 0 0 0 0 0 {[CLINT_MTIME := 500]} (replicate NCPU (replicate 5 0)).

Lemma start_enters_main_witness : returns (start 0x80000100 0x80005000 0x80008000) wit_mach (fun _ m' =>
  started_from 0x80000100 0x80005000 0x80008000 wit_mach m').
Proof. apply (start_enters_main _ _ _ wit_mach (replicate 5 0)); [vm_compute; split; [discriminate|done]|done|done]. Defined.

End Start.

(** ** main() *)

(** satp and the TLB *)
Class Paging (S : Type) := { w_satp : Z -> M S unit; sfence_vma : M S unit }.

(** The kernel, and the globals of vm.c and main.c that only boot uses. *)
Record boot : Type := mkboot {
  bo_k : kst files;
  bo_pagetable : Z;            (* kernel_pagetable *)
  bo_started : bool;           (* started *)
}.
#[export] Instance eta_boot : Settable boot := fun b => mkboot (bo_k b) (bo_pagetable b) (bo_started b).

Section Main.
Context `{!Switch files} `{!VirtioRegs (kst files)} `{!UartRegs (kst files)} `{!Hart files} `{!Paging (kst files)}.
Context (ly : layout) (kind : sched_kind).

(** Addresses of etext, kernelvec, initcode[] and of the disk's pages; what a division
    by zero gives. *)
Context (etext kernelvec initcode pages_addr div_by_zero : Z).

#[local] Instance printk_boot : Printk files := printk_kernel ly.
#[local] Instance fileops_boot : FileOps files := fileops_kernel ly.

Definition kl : lens boot (kst files) := field bo_k.

Definition kvminit : M boot unit :=
  pt <- zoom kl (zoom kml (kvmmake etext (ly_trampoline ly))) ;;
  modify (fun b => b <| bo_pagetable := pt |>).

Definition kvminithart : M boot unit :=
  pt <- gets bo_pagetable ;;
  zoom kl (w_satp (MAKE_SATP pt)) ;;
  zoom kl sfence_vma.

(** What hart 0 does, statement by statement *)
Definition boot_steps : list (M boot unit) :=
  [zoom kl (consoleinit uartl consl);
   zoom kl (printfinit prl);
   zoom kl (printk nl []);
   zoom kl (printk ("xv6 kernel is booting" ++ nl) []);
   zoom kl (printk nl []);
   zoom kl (modify (fun s => s <| ks_mfq := pq_init (ks_mfq s) |>));
   zoom kl (zoom kml (kinit (ly_end ly)));
   kvminit;
   kvminithart;
   zoom kl procinit;
   zoom kl trapinit;
   zoom kl (trapinithart kernelvec);
   zoom kl plicinit;
   zoom kl plicinithart;
   zoom kl (binit bcachel);
   zoom kl (iinit itablel);
   zoom kl (fileinit ftablel);
   zoom kl (virtio_disk_init vdiskl pages_addr);
   zoom kl (userinit (ly_end ly) (ly_trampoline ly) (ly_forkret ly) initcode)].

(** What the others do, once [started] is set *)
Definition hart_steps : list (M boot unit) :=
  [zoom kl (id <- cpuid ;; printk ("hart %d starting" ++ nl) [AInt (Z.of_nat id)]);
   kvminithart;
   zoom kl (trapinithart kernelvec);
   zoom kl plicinithart].

(** One round of for(;;) in scheduler() *)
Definition sched_round (fuel : nat) : M (kst files) unit :=
  match kind with
  | DEFAULT_SCHEDULER => scheduler_default
  | FCFS => scheduler_fcfs
  | PBS => scheduler_pbs div_by_zero
  | MLFQ => scheduler_mlfq fuel
  end.

Fixpoint run_steps (l : list (M boot unit)) : M boot unit :=
  match l with [] => ret tt | m :: l' => m ;; run_steps l' end.

(** while(started == 0), as one hart alone sees it *)
Definition wait_started : M boot unit :=
  b <- gets bo_started ;; if b then ret tt else fail EHang.

(** main(), with a number of rounds of the scheduler *)
Definition main (rounds : nat) : M boot unit :=
  id <- zoom kl cpuid ;;
  (if Nat.eqb id 0 then run_steps boot_steps ;; modify (fun b => b <| bo_started := true |>)
   else wait_started ;; run_steps hart_steps) ;;
  run_steps (replicate rounds (zoom kl (sched_round (ly_fuel ly)))).

(** ** Several harts *)

(** Where a hart is: about to call cpuid(); after [k] of hart 0's statements; in the
    loop on [started]; after [k] of the other statements; in scheduler(); stuck. *)
Inductive place : Type := AtMain | AtBoot (k : nat) | AtWait | AtHart (k : nat) | AtSched | Stuck.
#[local] Instance place_eq_dec : EqDecision place.
Proof. solve_decision. Defined.

Record system : Type := mksystem { sy_boot : boot; sy_harts : list (place * cpu) }.

(** The shared state, as the hart with registers [c] sees it *)
Definition on (c : cpu) (b : boot) : boot := b <| bo_k := lset cpul c (bo_k b) |>.
Definition my (b : boot) : cpu := lget cpul (bo_k b).

(** A hart at a place, the place it reaches when its next statement returns, and the
    statement. *)
Inductive next : place -> M boot unit -> place -> Prop :=
  | next_boot k m : boot_steps !! k = Some m -> next (AtBoot k) m (AtBoot (S k))
  | next_set : next (AtBoot (length boot_steps)) (modify (fun b => b <| bo_started := true |>)) AtSched
  | next_hart k m : hart_steps !! k = Some m -> next (AtHart k) m (AtHart (S k))
  | next_sched : next (AtHart (length hart_steps)) (ret tt) AtSched
  | next_round fuel : next AtSched (zoom kl (sched_round fuel)) AtSched.

Inductive step : system -> system -> Prop :=
  | step_main i c b hs : hs !! i = Some (AtMain, c) ->
      step (mksystem b hs) (mksystem b (<[i := (if Nat.eqb (c_tp c) 0 then AtBoot 0 else AtWait, c)]> hs))
  | step_spin i c b hs : hs !! i = Some (AtWait, c) ->
      step (mksystem b hs) (mksystem b (<[i := (if bo_started b then AtHart 0 else AtWait, c)]> hs))
  | step_run i c b hs p m p' b' : hs !! i = Some (p, c) -> next p m p' -> m (on c b) = Ret tt b' ->
      step (mksystem b hs) (mksystem b' (<[i := (p', my b')]> hs))
  | step_stuck i c b hs p m p' e : hs !! i = Some (p, c) -> next p m p' -> m (on c b) = Fail e ->
      step (mksystem b hs) (mksystem b (<[i := (Stuck, c)]> hs)).

Definition power_on (b : boot) (cs : list cpu) : system := mksystem b ((fun c => (AtMain, c)) <$> cs).

(** Hart [i] runs with [i] in tp: what start() sees to. *)
Definition numbered (cs : list cpu) : Prop := forall i c, cs !! i = Some c -> c_tp c = i.

(** ** The handshake *)

Definition keeps_started (m : M boot unit) : Prop := forall b b', m b = Ret tt b' -> bo_started b' = bo_started b.

Lemma zoom_started {A} (m : M (kst files) A) b a b' : zoom kl m b = Ret a b' -> bo_started b' = bo_started b.
Proof. unfold zoom. destruct (m (lget kl b)); [|done]. by intros [= _ <-]. Qed.

Lemma zoom_keeps (m : M (kst files) unit) : keeps_started (zoom kl m).
Proof. intros b b'. apply zoom_started. Qed.

Lemma kvminit_keeps : keeps_started kvminit.
Proof.
  intros b b' H. unfold kvminit in H. apply bind_inv in H as (pt & b1 & H1 & H2). apply zoom_started in H1.
  injection H2 as <-. done.
Qed.

Lemma kvminithart_keeps : keeps_started kvminithart.
Proof.
  intros b b' H. unfold kvminithart in H. apply bind_inv in H as (pt & b1 & [= _ <-] & H).
  apply bind_inv in H as (u & b2 & H1 & H2). apply zoom_started in H1, H2. congruence.
Qed.

Lemma boot_steps_keep : Forall keeps_started boot_steps.
Proof. repeat constructor; auto using zoom_keeps, kvminit_keeps, kvminithart_keeps. Qed.

Lemma hart_steps_keep : Forall keeps_started hart_steps.
Proof. repeat constructor; auto using zoom_keeps, kvminithart_keeps. Qed.

Lemma next_keeps p m p' : next p m p' -> p <> AtBoot (length boot_steps) -> keeps_started m.
Proof.
  intros H Hp. destruct H as [k m H| |k m H| |f]; [| |..].
  - by eapply Forall_lookup_1; [apply boot_steps_keep|].
  - done.
  - by eapply Forall_lookup_1; [apply hart_steps_keep|].
  - by intros b b' [= <-].
  - apply zoom_keeps.
Qed.

Lemma on_my b : on (my b) b = b.
Proof. by destruct b as [[[] ? ? ? ? ? ? ? ? ?] ? ?]. Qed.

Lemma run_steps_snoc l m b b1 : run_steps l b = Ret tt b1 -> run_steps (l ++ [m]) b = m b1.
Proof.
  revert b. induction l as [|m' l IH]; intros b H; cbn [run_steps app] in *.
  - injection H as <-. unfold bind, ret. by destruct (m b) as [[] ?|].
  - apply bind_inv in H as ([] & b2 & H1 & H2). erewrite bind_ret by exact H1. by apply IH.
Qed.

(** Hart 0 has run [k] statements, alone, from [b0]. *)
Definition booting (b0 : boot) (s : system) : Prop :=
  exists k p c, sy_harts s !! 0%nat = Some (p, c) /\ (p = AtBoot k \/ p = Stuck \/ p = AtMain /\ k = 0%nat /\ c_tp c = 0%nat) /\
    (k <= length boot_steps)%nat /\ run_steps (take k boot_steps) b0 = Ret tt (on c (sy_boot s)).

(** The other harts have not come further than the loop. *)
Definition outside (s : system) : Prop :=
  forall i p c, i <> 0%nat -> sy_harts s !! i = Some (p, c) -> p = AtMain /\ c_tp c = i \/ p = AtWait.

Definition booted (b0 : boot) : Prop := exists b1, run_steps boot_steps b0 = Ret tt b1.

Definition handshake (b0 : boot) (s : system) : Prop :=
  if bo_started (sy_boot s) then booted b0 else booting b0 s /\ outside s.

Lemma handshake_intro b0 s : bo_started (sy_boot s) = false -> booting b0 s -> outside s -> handshake b0 s.
Proof. intros E H1 H2. unfold handshake. by rewrite E. Qed.

(** A hart in the loop, or before it, goes on there. *)
Lemma outside_insert b b' hs p c : outside (mksystem b hs) -> outside (mksystem b' (<[0%nat := (p, c)]> hs)).
Proof. intros H i q d Hi Hq. cbn in Hq. rewrite list_lookup_insert_ne in Hq by done. by eapply H. Qed.

Lemma waits b0 b hs i c : i <> 0%nat -> bo_started b = false -> handshake b0 (mksystem b hs) ->
  handshake b0 (mksystem b (<[i := (AtWait, c)]> hs)).
Proof.
  intros Hi E H. unfold handshake in H. cbn [sy_boot] in H. rewrite E in H. destruct H as [(k & p & d & H1 & H2) Ho]. apply handshake_intro; [done|..].
  - exists k, p, d. cbn. by rewrite list_lookup_insert_ne.
  - intros j q e Hj Hq. cbn in Hq. apply list_lookup_insert_Some in Hq as [(<- & [= <- <-] & _)|[_ Hq]]; [by right|by eapply Ho].
Qed.

Lemma handshake_after b0 s s' : bo_started (sy_boot s) = true -> handshake b0 s -> step s s' -> handshake b0 s'.
Proof.
  intros E H Hst. unfold handshake in *. rewrite E in H. assert (bo_started (sy_boot s') = true) as ->; [|done].
  destruct Hst as [| |i c b hs p m p' b' Hi Hn Hm|]; try done. cbn [sy_boot] in *.
  destruct (decide (p = AtBoot (length boot_steps))) as [->|Hp].
  - inversion Hn as [k m' Hk| | | |]; subst; [|by injection Hm as <-]. apply lookup_lt_Some in Hk. by apply Nat.lt_irrefl in Hk.
  - by rewrite (next_keeps _ _ _ Hn Hp _ _ Hm).
Qed.

Lemma handshake_step b0 s s' : handshake b0 s -> step s s' -> handshake b0 s'.
Proof.
  intros Hs Hst. destruct (bo_started (sy_boot s)) eqn:E; [by eapply handshake_after|].
  pose proof Hs as Hs'. unfold handshake in Hs'. rewrite E in Hs'. destruct Hs' as [(k & p0 & c0 & H0 & Hp0 & Hk & Hrun) Ho].
  destruct Hst as [i c b hs Hi|i c b hs Hi|i c b hs p m p' b' Hi Hn Hm|i c b hs p m p' e Hi Hn Hm]; cbn [sy_boot sy_harts] in *;
    pose proof (lookup_lt_Some _ _ _ Hi) as Hlt.
  - destruct (decide (i = 0%nat)) as [->|Hne].
    + rewrite H0 in Hi. injection Hi as -> ->. destruct Hp0 as [?|[?|(_ & -> & ->)]]; [done..|].
      apply handshake_intro; [done| |by eapply outside_insert].
      exists 0%nat, (AtBoot 0), c. cbn. rewrite list_lookup_insert_eq by done. auto.
    + destruct (Ho _ _ _ Hne Hi) as [[_ Ht]|?]; [|done]. rewrite (proj2 (Nat.eqb_neq (c_tp c) 0)) by lia. by apply waits.
  - destruct (decide (i = 0%nat)) as [->|Hne]; [|rewrite E; by apply waits].
    rewrite H0 in Hi. injection Hi as -> ->. by destruct Hp0 as [?|[?|(? & _)]].
  - destruct (decide (i = 0%nat)) as [->|Hne]; [|destruct (Ho _ _ _ Hne Hi) as [[-> _]| ->]; inversion Hn].
    rewrite H0 in Hi. injection Hi as -> ->. destruct Hp0 as [->|[->|(-> & _)]]; [|inversion Hn..].
    inversion Hn as [k' m' Hl Ek| | | |]; subst.
    + apply handshake_intro; [cbn [sy_boot]; by rewrite (Forall_lookup_1 _ _ _ _ boot_steps_keep Hl _ _ Hm)| |by eapply outside_insert].
      exists (S k), (AtBoot (S k)), (my b'). cbn [sy_harts sy_boot]. rewrite list_lookup_insert_eq by done. rewrite on_my.
      apply lookup_lt_Some in Hl as Hl'. split; [done|]. split; [by left|]. split; [exact Hl'|].
      by rewrite (take_S_r _ _ _ Hl), (run_steps_snoc _ _ _ _ Hrun).
    + injection Hm as <-. unfold handshake. cbn. rewrite (take_ge boot_steps) in Hrun by done. by eexists.
  - destruct (decide (i = 0%nat)) as [->|Hne]; [|destruct (Ho _ _ _ Hne Hi) as [[-> _]| ->]; inversion Hn].
    rewrite H0 in Hi. injection Hi as -> ->. apply handshake_intro; [done| |by eapply outside_insert].
    exists k, Stuck, c. cbn [sy_harts sy_boot]. rewrite list_lookup_insert_eq by done. auto.
Qed.

Lemma handshake_init b cs c0 : numbered cs -> cs !! 0%nat = Some c0 -> bo_started b = false -> handshake (on c0 b) (power_on b cs).
Proof.
  intros Hn H0 E. apply handshake_intro; [done|..].
  - exists 0%nat, AtMain, c0. cbn. rewrite list_lookup_fmap, H0. split_and!; [done| |lia|done]. right. right. by rewrite (Hn _ _ H0).
  - intros i p c Hi Hp. cbn in Hp. apply list_lookup_fmap_Some in Hp as (d & [= -> ->] & Hd). left. by rewrite (Hn _ _ Hd).
Qed.

(** Hart 0 runs the rest of its statements while the others wait. *)
Lemma boots_from n : forall k hs c b b1, (k + n = length boot_steps)%nat -> hs !! 0%nat = Some (AtBoot k, c) ->
  run_steps (drop k boot_steps) (on c b) = Ret tt b1 ->
  exists hs', rtc step (mksystem b hs) (mksystem (b1 <| bo_started := true |>) hs') /\ hs' !! 0%nat = Some (AtSched, my b1).
Proof.
  induction n as [|n IH]; intros k hs c b b1 Hk H0 Hrun; pose proof (lookup_lt_Some _ _ _ H0) as Hlt.
  - rewrite drop_ge in Hrun by lia. injection Hrun as <-. assert (k = length boot_steps) as -> by lia. eexists. split.
    + apply rtc_once. by apply (step_run 0 c b hs _ _ _ _ H0 next_set).
    + by rewrite list_lookup_insert_eq.
  - destruct (lookup_lt_is_Some_2 boot_steps k) as [m Hm]; [lia|]. rewrite (drop_S _ _ _ Hm) in Hrun. cbn [run_steps] in Hrun.
    apply bind_inv in Hrun as ([] & b2 & H1 & H2).
    destruct (IH (S k) (<[0%nat := (AtBoot (S k), my b2)]> hs) (my b2) b2 b1) as (hs' & Hsteps & Hend).
    + lia.
    + by rewrite list_lookup_insert_eq.
    + by rewrite on_my.
    + exists hs'. split; [|done]. eapply rtc_l; [|exact Hsteps]. by apply (step_run 0 c b hs _ _ _ _ H0 (next_boot k m Hm)).
Qed.

(** Whatever the order in which the harts run, until [started] is set the kernel's
    state is the one hart 0 alone has made of it, statement by statement, and no other hart
    has left its waiting loop; [started] is set only after hart 0 has run [boot_steps]
    to the end. *)
Lemma handshake_reachable (b : boot) (cs : list cpu) (c0 : cpu) s : numbered cs -> cs !! 0%nat = Some c0 ->
  bo_started b = false -> rtc step (power_on b cs) s -> handshake (on c0 b) s.
Proof.
  intros Hn H0 Hs Hr. pose proof (handshake_init b cs c0 Hn H0 Hs) as H.
  induction Hr as [|s1 s2 s3 Hst _ IH]; [done|]. apply IH. by eapply handshake_step.
Qed.
End Main.
