(* ===== verification/Ulib.v ===== *)
(** * Ulib: the user library

    Models user/ulib.c and the system calls a program makes (user/user.h), an
    interface here.  A string that is only read is the list of the bytes before
    its NUL; what writes memory works on [mem]. *)
From S2P Require Import Prelude Mem.

(** struct stat *)
Record ustat : Type := mkustat { us_dev : Z; us_ino : Z; us_type : Z; us_nlink : Z; us_size : Z }.

Class Usys (S : Type) := {
  u_exit : forall A, Z -> M S A;                  (* never returns *)
  u_fork : M S Z;                                 (* 0 in the child *)
  u_wait : M S Z;                                 (* wait(0) *)
  u_wait_status : M S (Z * option Z);             (* wait(&st): result, what is stored in st *)
  u_waitx : M S (Z * Z * Z);                      (* waitx(0, &a, &b): result, a, b *)
  u_pipe : M S (Z * Z * Z);                       (* pipe(p): result, p[0], p[1] *)
  u_write : Z -> list Z -> M S Z;                 (* write(fd, p, n) of the n bytes *)
  u_read : Z -> Z -> M S (Z * list Z);            (* read(fd, p, n): result, bytes stored *)
  u_close : Z -> M S Z;
  u_kill : Z -> M S Z;
  u_getpid : M S Z;
  u_exec : list Z -> list (list Z) -> M S Z;
  u_open : list Z -> Z -> M S Z;
  u_mknod : list Z -> Z -> Z -> M S Z;
  u_unlink : list Z -> M S Z;
  u_fstat : Z -> M S (Z * ustat);
  u_link : list Z -> list Z -> M S Z;
  u_mkdir : list Z -> M S Z;
  u_chdir : list Z -> M S Z;
  u_dup : Z -> M S Z;
  u_sbrk : Z -> M S Z;
  u_sleep : Z -> M S Z;
  u_trace : Z -> M S Z;
  u_set_priority : Z -> Z -> M S Z;
}.

(** A constant string. *)
Abbreviation str := bytes_of_string.

(** ** Strings *)

(** while(( *s++ = *t++ ) != 0), [t] the bytes before the NUL *)
Fixpoint strcpy (s : Z) (t : list Z) (m : mem) : mem :=
  match t with
  | [] => mset s 0 m
  | c :: t' => strcpy (s + 1) t' (mset s c m)
  end.

Fixpoint strcmp (p q : list Z) : Z :=
  match p, q with
  | [], [] => 0
  | [], c :: _ => - c
  | c :: _, [] => c
  | c :: p', d :: q' => if c =? d then strcmp p' q' else c - d
  end.

Definition strlen (s : list Z) : Z := Z.of_nat (length s).

(** The suffix that starts with the first [c]; [None] is 0. *)
Fixpoint strchr (s : list Z) (c : Z) : option (list Z) :=
  match s with
  | [] => None
  | d :: s' => if d =? c then Some s else strchr s' c
  end.

(** while('0' <= *s && *s <= '9') *)
Fixpoint atoi_loop (n : Z) (s : list Z) : Z :=
  match s with
  | [] => n
  | c :: s' => if (48 <=? c) && (c <=? 57) then atoi_loop (i32 (n * 10 + c - 48)) s' else n
  end.
Definition atoi (s : list Z) : Z := atoi_loop 0 s.

(** ** Memory *)

(** for(i = 0; i < n; i++) cdst[i] = c; [i] is an int and [n] a uint *)
Definition memset (dst c n : Z) (m : mem) : mem :=
  foldl (fun m i => mset (dst + Z.of_nat i) (u8 c) m) m (seq 0 (Z.to_nat n)).

Fixpoint move_fwd (n : nat) (d s : Z) (m : mem) : mem :=
  match n with
  | O => m
  | S n' => move_fwd n' (d + 1) (s + 1) (mset d (mget m s) m)
  end.
Fixpoint move_bwd (n : nat) (d s : Z) (m : mem) : mem :=
  match n with
  | O => m
  | S n' => move_bwd n' (d - 1) (s - 1) (mset (d - 1) (mget m (s - 1)) m)
  end.
Definition memmove (vdst vsrc n : Z) (m : mem) : mem :=
  if vdst <? vsrc then move_fwd (Z.to_nat n) vdst vsrc m
  else move_bwd (Z.to_nat n) (vdst + n) (vsrc + n) m.

Fixpoint memcmp_loop (n : nat) (p1 p2 : Z) (m : mem) : Z :=
  match n with
  | O => 0
  | S n' =>
      if negb (mget m p1 =? mget m p2) then mget m p1 - mget m p2
      else memcmp_loop n' (p1 + 1) (p2 + 1) m
  end.
Definition memcmp (s1 s2 n : Z) (m : mem) : Z := memcmp_loop (Z.to_nat n) s1 s2 m.

Definition memcpy (dst src n : Z) (m : mem) : mem := memmove dst src n m.

(** ** Input, and the status of a file *)

Section Usys.
Context {S : Type} `{!Usys S}.

(** for(i=0; i+1 < max; ), [k] = max - 1 - i; the line so far is [buf] *)
Fixpoint gets_loop (k : nat) (buf : list Z) : M S (list Z) :=
  match k with
  | O => ret buf
  | Datatypes.S k' =>
      r <- u_read 0 1 ;;
      if fst r <? 1 then ret buf else
      let c := nth 0 (snd r) 0 in
      if (c =? 10) || (c =? 13) then ret (buf ++ [c]) else gets_loop k' (buf ++ [c])
  end.
(** The bytes stored before the final NUL. *)
Definition gets (max : Z) : M S (list Z) := gets_loop (Z.to_nat (max - 1)) [].

Definition stat (n : list Z) : M S (Z * ustat) :=
  fd <- u_open n 0 ;;
  if fd <? 0 then ret (-1, mkustat 0 0 0 0 0) else
  r <- u_fstat fd ;;
  u_close fd ;;
  ret r.
End Usys.

(** ** An environment *)

(** Input comes in chunks, one per read at most; what goes to descriptor 1 and
    what goes elsewhere is kept in order. *)
Record uenv : Type := mkuenv { ue_in : list (list Z); ue_out : list Z; ue_err : list Z }.

Definition sent (fd : Z) (l : list Z) (e : uenv) : uenv :=
  if fd =? 1 then mkuenv (ue_in e) (ue_out e ++ l) (ue_err e) else mkuenv (ue_in e) (ue_out e) (ue_err e ++ l).

(** The next read of [n] bytes. *)
Definition next_chunk (n : Z) (e : uenv) : list Z * uenv :=
  match ue_in e with
  | [] => ([], e)
  | c :: cs =>
      (take (Z.to_nat n) c,
       mkuenv (match drop (Z.to_nat n) c with [] => cs | r => r :: cs end) (ue_out e) (ue_err e))
  end.

#[export] Instance usys_env : Usys uenv := {|
  u_exit := fun _ _ => fail EHang;
  u_fork := ret (-1);
  u_wait := ret (-1);
  u_wait_status := ret (-1, None);
  u_waitx := ret (-1, 0, 0);
  u_pipe := ret (-1, 0, 0);
  u_write := fun fd l e => Ret (Z.of_nat (length l)) (sent fd l e);
  u_read := fun _ n e => let r := next_chunk n e in Ret (Z.of_nat (length r.1), r.1) r.2;
  u_close := fun _ => ret 0;
  u_kill := fun _ => ret 0;
  u_getpid := ret 1;
  u_exec := fun _ _ => ret (-1);
  u_open := fun _ _ => ret (-1);
  u_mknod := fun _ _ _ => ret (-1);
  u_unlink := fun _ => ret (-1);
  u_fstat := fun _ => ret (-1, mkustat 0 0 0 0 0);
  u_link := fun _ _ => ret (-1);
  u_mkdir := fun _ => ret (-1);
  u_chdir := fun _ => ret (-1);
  u_dup := fun _ => ret (-1);
  u_sbrk := fun _ => ret (-1);
  u_sleep := fun _ => ret 0;
  u_trace := fun _ => ret 0;
  u_set_priority := fun _ _ => ret 0;
|}.

Lemma sent_nil fd e : sent fd [] e = e.
Proof. unfold sent. destruct e. cbn. rewrite !app_nil_r. by destruct (fd =? 1). Qed.

Lemma sent_sent fd l l' e : sent fd l' (sent fd l e) = sent fd (l ++ l') e.
Proof. unfold sent. destruct (fd =? 1); cbn; by rewrite app_assoc. Qed.

(** One read, from an input whose chunks are not empty. *)
Lemma next_chunk_spec n e : 0 < n -> Forall (fun c => c <> []) (ue_in e) ->
  match concat (ue_in e) with
  | [] => next_chunk n e = ([], e)
  | _ => exists c e', next_chunk n e = (c, e') /\ c <> [] /\ concat (ue_in e) = c ++ concat (ue_in e') /\
           Forall (fun c => c <> []) (ue_in e') /\ ue_out e' = ue_out e /\ ue_err e' = ue_err e
  end.
Proof.
  intros Hn He. unfold next_chunk. destruct (ue_in e) as [|c cs] eqn:Ei; [done|].
  inversion He as [|? ? Hc Hcs]; subst. destruct c as [|x c]; [done|]. cbn [concat app].
  destruct (Z.to_nat n) as [|k] eqn:Ek; [lia|]. cbn [take drop].
  eexists _, _. split; [done|]. cbn [ue_in ue_out ue_err]. split_and!; [done| | |done|done].
  - cbn [app]. f_equal. rewrite <- (take_drop k c) at 1. rewrite <- app_assoc. f_equal. by destruct (drop k c).
  - destruct (drop k c); [done|]. by constructor.
Qed.
