(* ===== verification/Uprintf.v ===== *)
(** * Uprintf: formatted output of user programs

    Models user/printf.c, over the loops of [Digits], and compares it with the
    kernel's printf(). *)
From S2P Require Import Prelude Mem Digits Printf Ulib.

(** digits[], its NUL included *)
Definition digits : list Z := str "0123456789ABCDEF" ++ [0].

Section Uprintf.
Context {S : Type} `{!Usys S}.

(** [junk] is what the uninitialised buf[16] holds. *)
Context (junk : list Z) (fd : Z).

Definition putc (c : Z) : M S unit := u_write fd [u8 c] ;; ret tt.

(** [xx] and [base] are ints. *)
Definition printint (xx base : Z) (sgn : bool) : M S unit :=
  let neg := sgn && (xx <? 0) in
  let x := if neg then u32 (i32 (- xx)) else u32 xx in
  print_digits digits putc junk neg x base.

Definition printptr (x : Z) : M S unit :=
  putc 48 ;; putc 120 ;; ptr_loop digits putc 16 x.

(** for(i = 0; fmt[i]; i++); [state] says that a percent sign came last *)
Fixpoint vprintf (fmt : list Z) (state : bool) (ap : list varg) : M S unit :=
  match fmt with
  | [] => ret tt
  | c :: rest =>
      if negb state then
        if c =? 37 then vprintf rest true ap else putc c ;; vprintf rest false ap
      else if c =? 100 then (* d *)
        match ap with AInt x :: ap => printint x 10 true ;; vprintf rest false ap | _ => fail EUndef end
      else if c =? 108 then (* l: the int parameter takes the low 32 bits *)
        match ap with ALong x :: ap => printint (i32 x) 10 false ;; vprintf rest false ap | _ => fail EUndef end
      else if c =? 120 then (* x *)
        match ap with AInt x :: ap => printint x 16 false ;; vprintf rest false ap | _ => fail EUndef end
      else if c =? 112 then (* p *)
        match ap with ALong x :: ap => printptr x ;; vprintf rest false ap | _ => fail EUndef end
      else if c =? 115 then (* s *)
        match ap with
        | AStr s :: ap => emit_all putc (default (str "(null)") s) ;; vprintf rest false ap
        | _ => fail EUndef
        end
      else if c =? 99 then (* c *)
        match ap with AInt x :: ap => putc x ;; vprintf rest false ap | _ => fail EUndef end
      else if c =? 37 then putc c ;; vprintf rest false ap
      else putc 37 ;; putc c ;; vprintf rest false ap
  end.

Definition fprintf (fmt : string) (ap : list varg) : M S unit := vprintf (str fmt) false ap.
End Uprintf.

Definition printf {S} `{!Usys S} (junk : list Z) (fmt : string) (ap : list varg) : M S unit := fprintf junk 1 fmt ap.

(** ** Comparison with the kernel's printf() *)

(** The conversions both programs treat alike: not %x (the kernel's is signed),
    %p (other letters), %l and %c (the program's own). *)
Fixpoint common (fmt : list Z) : bool :=
  match fmt with
  | [] => true
  | c :: rest =>
      if c =? 37 then
        match rest with
        | [] => true
        | d :: rest => negb ((d =? 120) || (d =? 112) || (d =? 108) || (d =? 99)) && common rest
        end
      else common rest
  end.

Lemma udigits_good : good_table digits.
Proof.
  intros d Hd. assert (d = 0 \/ d = 1 \/ d = 2 \/ d = 3 \/ d = 4 \/ d = 5 \/ d = 6 \/ d = 7 \/ d = 8 \/ d = 9 \/
    d = 10 \/ d = 11 \/ d = 12 \/ d = 13 \/ d = 14 \/ d = 15) as H by lia.
  repeat (destruct H as [->|H]; [eexists; split; [reflexivity|done]|]). subst. by eexists.
Qed.

(** In base ten both tables have the same digits. *)
Lemma same_digit d : 0 <= d < 10 -> znth digits d = znth Printf.digits d.
Proof.
  intros Hd. assert (d = 0 \/ d = 1 \/ d = 2 \/ d = 3 \/ d = 4 \/ d = 5 \/ d = 6 \/ d = 7 \/ d = 8 \/ d = 9) as H by lia.
  by repeat (destruct H as [->|H]; [done|]); subst.
Qed.

Lemma same_num_text k x : 0 <= x -> num_text digits k x 10 = num_text Printf.digits k x 10.
Proof.
  revert x. induction k as [|k IH]; intros x Hx; [done|]. cbn [num_text]. rewrite same_digit by (apply Z.mod_pos_bound; lia).
  destruct (x / 10 =? 0); [done|]. by rewrite IH by (apply Z.div_pos; lia).
Qed.

Lemma same_int_text x : - 2 ^ 31 <= x < 2 ^ 31 -> int_text digits x 10 true = int_text Printf.digits x 10 true.
Proof.
  intros Hx. unfold int_text. cbn [andb]. destruct (Z.ltb_spec x 0); rewrite same_num_text; try done; [lia|].
  apply Z.mod_pos_bound. lia.
Qed.

(** A program's printf() and the kernel's show the same text.  Over any output
    that takes every byte, for every format of plain text, %d, %s, %% and
    unknown conversions, and arguments of the right kinds, vprintf() emits exactly
    what the kernel's printf() shows of them. *)
Theorem vprintf_agrees {S} `{!Usys S} (fd : Z) (I : S -> Prop) (out : list Z -> S -> S) (Hsink : Sink (putc fd) I out)
  (junk fmt : list Z) (ap : list varg) (shown : list Z) (s : S)
  (Hjunk : length junk = 16%nat) (Hs : I s) (Hfmt : Forall (fun c => 0 < c < 256) fmt) (Hcommon : common fmt = true)
  (Hap : Forall arg_ok ap) (Hr : render fmt ap = Some shown) :
  vprintf junk fd fmt false ap s = Ret tt (out shown s).
Proof.
  remember (length fmt) as n eqn:En. assert (length fmt <= n)%nat as Hn by lia. clear En.
  revert fmt ap shown s Hs Hfmt Hcommon Hap Hr Hn. induction n as [|n IH]; intros fmt ap shown s Hs Hf Hco Ha Hr Hn;
    (destruct fmt as [|c fmt]; [injection Hr as <-; cbn; by rewrite sk_nil|]); cbn in Hn; [lia|].
  inversion Hf as [|? ? Hc Hf']; subst. cbn [vprintf render common negb] in *.
  destruct (Z.eqb_spec c 37) as [->|Hc37].
  2: { apply bind_Some in Hr as (t & Hr & E). injection E as <-. erewrite bind_ret by (apply sk_emit; [lia|done]).
       erewrite IH; [by rewrite sk_app|by apply sk_inv|done|done|exact Ha|exact Hr|lia]. }
  destruct fmt as [|d fmt]; [injection Hr as <-; cbn; by rewrite sk_nil|]. inversion Hf' as [|? ? Hd Hf'']; subst. cbn [length] in Hn.
  apply andb_true_iff in Hco as [Hnot Hco]. cbn [vprintf negb]. apply bind_Some in Hr as ([t ap'] & Ht & Hr).
  apply bind_Some in Hr as (t' & Hr & E). injection E as <-.
  assert (forall s1, s1 = out t s -> Forall arg_ok ap' -> vprintf junk fd fmt false ap' s1 = Ret tt (out (t ++ t') s)) as Hrest.
  { intros s1 -> Ha'. erewrite IH; [by rewrite sk_app|by apply sk_inv|done|done|done|exact Hr|lia]. }
  apply negb_true_iff in Hnot. apply orb_false_iff in Hnot as [Hnot Nc]. apply orb_false_iff in Hnot as [Hnot Nl].
  apply orb_false_iff in Hnot as [Nx Np]. rewrite Nx, Np in Ht. rewrite Nc, Nl, Nx, Np.
  destruct (d =? 100).
  { destruct ap as [|[x| |] ap]; try done. injection Ht as <- <-. inversion Ha as [|? ? Hx]; subst.
    erewrite bind_ret.
    2: { unfold printint. eapply (print_digits_eq digits udigits_good 10 ltac:(lia) (putc fd) I out); [done|done| |lia].
         destruct (true && (x <? 0)); apply Z.mod_pos_bound; lia. }
    apply Hrest; [|done]. by rewrite <- same_int_text, (int_text_eq digits) by done. }
  destruct (d =? 115).
  { destruct ap as [|[| |x] ap]; try done. injection Ht as <- <-. inversion Ha as [|? ? Hx]; subst.
    erewrite bind_ret. { by apply Hrest. }
    apply (emit_all_spec (putc fd) I out); [done|]. destruct x as [x|]; [done|]. by repeat constructor. }
  destruct (Z.eqb_spec d 37) as [->|_]; injection Ht as <- <-.
  - erewrite bind_ret by (by apply sk_emit). by apply Hrest.
  - erewrite bind_ret by (by apply sk_emit). erewrite bind_ret by (apply sk_emit; [lia|by apply sk_inv]). rewrite sk_app. by apply Hrest.
Qed.

(** ** Witnesses *)

Lemma env_sink fd : Sink (putc (S := uenv) fd) (fun _ => True) (sent fd).
Proof.
  constructor; [|done|apply sent_nil|intros; apply sent_sent].
  intros c e Hc _. unfold putc, u8. by rewrite Z.mod_small by lia.
Defined.

Lemma vprintf_agrees_witness :
  vprintf (replicate 16 7) 1 (str "%d%% %s %k") false [AInt (-40); AStr None] (mkuenv [] [] []) =
  Ret tt (sent 1 (str "-40% (null) %k") (mkuenv [] [] [])).
Proof.
  apply (vprintf_agrees 1 (fun _ => True) (sent 1) (env_sink 1)); [done|done|by repeat constructor|done| |by vm_compute].
  constructor; [cbn; lia|]. constructor; [constructor|constructor].
Defined.
