(* ===== verification/Grep.v ===== *)
(** * Grep: the matcher, and the lines that match

    Models user/grep.c.  A pattern and a text are the bytes before their NUL.  The
    matcher is specified by the language of the pattern; grep() by the lines of its
    input, however reads cut it up. *)
From S2P Require Import Prelude Mem Ulib Uprintf.

(** do{ ... }while( *text!='\0' && ( *text++==c || c=='.')); [here] is
    matchhere(re, .) *)
Fixpoint matchstar (here : list Z -> bool) (c : Z) (text : list Z) : bool :=
  if here text then true else
  match text with
  | [] => false
  | t :: text' => if (t =? c) || (c =? 46) then matchstar here c text' else false
  end.

Fixpoint matchhere (re text : list Z) : bool :=
  match re with
  | [] => true
  | c :: re' =>
      let rest :=
        if (c =? 36) && bool_decide (re' = []) then bool_decide (text = []) else
        match text with
        | [] => false
        | t :: text' => if (c =? 46) || (c =? t) then matchhere re' text' else false
        end in
      match re' with
      | d :: re'' => if d =? 42 then matchstar (matchhere re'') c text else rest
      | [] => rest
      end
  end.

(** do{ ... }while( *text++ != '\0'); of [match_] *)
Fixpoint match_from (re text : list Z) : bool :=
  if matchhere re text then true else
  match text with [] => false | _ :: text' => match_from re text' end.

(** match() *)
Definition match_ (re text : list Z) : bool :=
  match re with
  | c :: re' => if c =? 94 then matchhere re' text else match_from re text
  | [] => match_from re text
  end.

(** ** grep() *)

(** The bytes before the first newline of the string at [p], and those after it. *)
Fixpoint cut_line (p : list Z) : option (list Z * list Z) :=
  match p with
  | [] => None
  | c :: p' =>
      if c =? 0 then None
      else if c =? 10 then Some ([], p')
      else '(l, r) ← cut_line p'; Some (c :: l, r)
  end.

Section Grep.
Context {S : Type} `{!Usys S}.

(** while((q = strchr(p, '\n')) != 0): a line goes at each round.  [p] holds the
    bytes from p to buf+m; the result is what is left of them. *)
Fixpoint grep_lines (k : nat) (pattern p : list Z) : M S (list Z) :=
  match k with
  | O => fail EHang
  | Datatypes.S k' =>
      match cut_line p with
      | None => ret p
      | Some (line, rest) =>
          when (match_ pattern line) (u_write 1 (line ++ [10]) ;; ret tt) ;;
          grep_lines k' pattern rest
      end
  end.

(** while((n = read(fd, buf+m, sizeof(buf)-m-1)) > 0); [buf] holds the first m bytes *)
Fixpoint grep_loop (fuel : nat) (pattern : list Z) (fd : Z) (buf : list Z) : M S unit :=
  match fuel with
  | O => fail EHang
  | Datatypes.S f =>
      r <- u_read fd (1024 - Z.of_nat (length buf) - 1) ;;
      if fst r <=? 0 then ret tt else
      let buf := buf ++ snd r in
      p <- grep_lines (Datatypes.S (length buf)) pattern buf ;;
      grep_loop f pattern fd p
  end.

Definition grep (fuel : nat) (pattern : list Z) (fd : Z) : M S unit := grep_loop fuel pattern fd [].

(** [argv] is argv[0] .. argv[argc-1]; [junk] as in [Uprintf]. *)
Definition grep_main (fuel : nat) (junk : list Z) (argv : list (list Z)) : M S unit :=
  match argv with
  | [] | [_] => fprintf junk 2 ("usage: grep pattern [file ...]" ++ nl) [] ;; u_exit unit 1
  | [_; pattern] => grep fuel pattern 0 ;; u_exit unit 0
  | _ :: pattern :: files =>
      for_each (seq 0 (length files)) (fun i =>
        let name := nth i files [] in
        fd <- u_open name 0 ;;
        (if fd <? 0 then printf junk ("grep: cannot open %s" ++ nl) [AStr (Some name)] ;; u_exit unit 1 else ret tt) ;;
        grep fuel pattern fd ;;
        u_close fd ;; ret tt) ;;
      u_exit unit 0
  end.
End Grep.

(** ** Specification *)

(** A pattern is a sequence of characters, each starred or not, anchored at the
    end of the text by a final $. *)
Record item : Type := mkitem { it_char : Z; it_star : bool }.

Fixpoint items (re : list Z) : list item * bool :=
  match re with
  | [] => ([], false)
  | c :: re' =>
      match re' with
      | [] => if c =? 36 then ([], true) else ([mkitem c false], false)
      | d :: re'' =>
          if d =? 42 then let (l, e) := items re'' in (mkitem c true :: l, e)
          else let (l, e) := items re' in (mkitem c false :: l, e)
      end
  end.

(** A dot stands for every byte. *)
Definition hits (c t : Z) : Prop := c = 46 \/ c = t.

Inductive lang : list item -> list Z -> Prop :=
  | lang_nil : lang [] []
  | lang_one c t l w : hits c t -> lang l w -> lang (mkitem c false :: l) (t :: w)
  | lang_stop c l w : lang l w -> lang (mkitem c true :: l) w
  | lang_more c t l w : hits c t -> lang (mkitem c true :: l) w -> lang (mkitem c true :: l) (t :: w).

(** [text] starts with a word of the pattern, and ends with it if anchored. *)
Definition starts (re text : list Z) : Prop :=
  exists w post, text = w ++ post /\ lang (items re).1 w /\ ((items re).2 = true -> post = []).

(** The lines of an input that ended, and what follows the last newline. *)
Fixpoint lines (input : list Z) : list (list Z) * list Z :=
  match input with
  | [] => ([], [])
  | c :: rest =>
      let (ls, t) := lines rest in
      if c =? 10 then ([] :: ls, t)
      else match ls with [] => ([], c :: t) | l :: ls => ((c :: l) :: ls, t) end
  end.

(** The matching lines, each with its newline. *)
Definition selected (pattern : list Z) (ls : list (list Z)) : list Z :=
  concat ((fun l => l ++ [10]) <$> filter (fun l => match_ pattern l = true) ls).

(** ** The matcher *)

Lemma lang_nil_inv w : lang [] w -> w = [].
Proof. by inversion 1. Qed.

Lemma lang_one_inv c l w : lang (mkitem c false :: l) w -> exists t w', w = t :: w' /\ hits c t /\ lang l w'.
Proof. inversion 1; subst. eauto. Qed.

Lemma lang_star_inv c l w : lang (mkitem c true :: l) w ->
  lang l w \/ exists t w', w = t :: w' /\ hits c t /\ lang (mkitem c true :: l) w'.
Proof. inversion 1; subst; eauto 6. Qed.

(** The test in the code is [hits]. *)
Lemma hits_iff c t : (c =? 46) || (c =? t) = true <-> hits c t.
Proof. unfold hits. by rewrite orb_true_iff, !Z.eqb_eq. Qed.

Lemma hits_star_iff c t : (t =? c) || (c =? 46) = true <-> hits c t.
Proof. unfold hits. rewrite orb_true_iff, !Z.eqb_eq. naive_solver. Qed.

Lemma matchstar_iff here c l e text :
  (forall text, here text = true <-> exists w post, text = w ++ post /\ lang l w /\ (e = true -> post = [])) ->
  matchstar here c text = true <-> exists w post, text = w ++ post /\ lang (mkitem c true :: l) w /\ (e = true -> post = []).
Proof.
  intros Hh.
  assert (forall text, here text = true -> exists w post, text = w ++ post /\ lang (mkitem c true :: l) w /\ (e = true -> post = [])) as Hyes.
  { intros t (w & post & Et & Hw & Hp)%Hh. exists w, post. split; [done|]. split; [by constructor|done]. }
  induction text as [|t text IH]; cbn [matchstar]; destruct (here _) eqn:E; try (by split; [intros _; apply Hyes|done]).
  - split; [done|]. intros (w & post & Et & Hw & Hp). symmetry in Et. apply app_eq_nil in Et as [-> ->].
    apply lang_star_inv in Hw as [Hw|(? & ? & ? & _)]; [|done].
    assert (here [] = true) as E'; [|congruence]. apply Hh. by exists [], [].
  - assert (forall w post, t :: text = w ++ post -> lang (mkitem c true :: l) w -> (e = true -> post = []) ->
      exists w', hits c t /\ text = w' ++ post /\ lang (mkitem c true :: l) w') as Hmore.
    { intros w post Et Hw Hp. apply lang_star_inv in Hw as [Hw|(t' & w' & -> & Hc & Hw)].
      - assert (here (t :: text) = true) as E'; [|congruence]. apply Hh. by exists w, post.
      - cbn in Et. injection Et as -> ->. by exists w'. }
    destruct ((t =? c) || (c =? 46)) eqn:Ec.
    + rewrite IH. apply hits_star_iff in Ec. split.
      * intros (w & post & -> & Hw & Hp). exists (t :: w), post. split; [done|]. split; [by constructor|done].
      * intros (w & post & Et & Hw & Hp). destruct (Hmore w post Et Hw Hp) as (w' & _ & -> & Hw'). by exists w', post.
    + split; [done|]. intros (w & post & Et & Hw & Hp). destruct (Hmore w post Et Hw Hp) as (w' & Hc & _).
      apply hits_star_iff in Hc. congruence.
Qed.

(** A plain character at the front. *)
Lemma one_iff c l e text (rest : list Z -> bool) :
  (forall text, rest text = true <-> exists w post, text = w ++ post /\ lang l w /\ (e = true -> post = [])) ->
  match text with [] => false | t :: text' => if (c =? 46) || (c =? t) then rest text' else false end = true <->
  exists w post, text = w ++ post /\ lang (mkitem c false :: l) w /\ (e = true -> post = []).
Proof.
  intros Hr. destruct text as [|t text].
  - split; [done|]. intros (w & post & Et & Hw & Hp). apply lang_one_inv in Hw as (? & ? & -> & _). done.
  - split.
    + destruct ((c =? 46) || (c =? t)) eqn:Ec; [|done]. apply hits_iff in Ec. rewrite Hr. intros (w & post & -> & Hw & Hp).
      exists (t :: w), post. split; [done|]. split; [by constructor|done].
    + intros (w & post & Et & Hw & Hp). apply lang_one_inv in Hw as (t' & w' & -> & Hc & Hw).
      cbn in Et. injection Et as -> ->. apply hits_iff in Hc. rewrite Hc. apply Hr. by exists w', post.
Qed.

(** One step of the two recursions. *)
Lemma matchhere_cons c d re text : matchhere (c :: d :: re) text =
  if d =? 42 then matchstar (matchhere re) c text else
  match text with [] => false | t :: text' => if (c =? 46) || (c =? t) then matchhere (d :: re) text' else false end.
Proof. cbn [matchhere]. by rewrite andb_comm, bool_decide_eq_false_2 by done. Qed.

Lemma items_cons c d re : items (c :: d :: re) =
  if d =? 42 then let (l, e) := items re in (mkitem c true :: l, e)
  else let (l, e) := items (d :: re) in (mkitem c false :: l, e).
Proof. done. Qed.

Lemma matchhere_iff re text : matchhere re text = true <-> starts re text.
Proof.
  unfold starts. remember (length re) as n eqn:En. assert (length re <= n)%nat as Hn by lia. clear En.
  revert re text Hn. induction n as [|n IH]; intros re text Hn; (destruct re as [|c re]; cbn in Hn; [|try lia]).
  1, 2: split; [|done]; intros _; exists [], text; split; [done|]; split; [constructor|done].
  destruct re as [|d re].
  - cbn [matchhere items]. destruct (Z.eqb_spec c 36) as [->|Hc].
    + rewrite bool_decide_eq_true_2 by done. cbn [andb]. rewrite bool_decide_eq_true. split.
      * intros ->. exists [], []. split; [done|]. split; [constructor|done].
      * intros (w & post & -> & Hw & Hp). apply lang_nil_inv in Hw as ->. by rewrite Hp.
    + cbn [andb]. apply one_iff. intros text'. split; [|done]. intros _. exists [], text'. split; [done|]. split; [constructor|done].
  - cbn [length] in Hn. rewrite matchhere_cons, items_cons. destruct (d =? 42).
    + assert (forall text', matchhere re text' = true <-> _) as Hrec by (intros text'; apply IH; lia).
      destruct (items re) as [l e]. exact (matchstar_iff _ c l e text Hrec).
    + assert (forall text', matchhere (d :: re) text' = true <-> _) as Hrec by (intros text'; apply IH; cbn; lia).
      destruct (items (d :: re)) as [l e]. exact (one_iff c l e text _ Hrec).
Qed.

Lemma match_from_iff re text : match_from re text = true <-> exists pre rest, text = pre ++ rest /\ starts re rest.
Proof.
  induction text as [|t text IH]; cbn [match_from]; destruct (matchhere re _) eqn:E.
  - split; [intros _|done]. exists [], []. split; [done|]. by apply matchhere_iff.
  - split; [done|]. intros (pre & rest & Et & Hs). symmetry in Et. apply app_eq_nil in Et as [-> ->].
    apply matchhere_iff in Hs. congruence.
  - split; [intros _|done]. exists [], (t :: text). split; [done|]. by apply matchhere_iff.
  - rewrite IH. split.
    + intros (pre & rest & -> & Hs). by exists (t :: pre), rest.
    + intros ([|t' pre] & rest & Et & Hs); [cbn in Et; subst; apply matchhere_iff in Hs; congruence|].
      cbn in Et. injection Et as -> ->. by exists pre, rest.
Qed.

(** C35: the matcher decides the language of the pattern.  match() finds a pattern
    in a text exactly when the text has a part that is a word of the pattern: at
    the start if the pattern begins with ^, at the end if it ends with $; a
    starred character stands for any number of occurrences, and backtracking
    misses none. *)
Theorem match_iff (re text : list Z) :
  match_ re text = true <->
  match re with
  | 94 :: re' => exists w post, text = w ++ post /\ lang (items re').1 w /\ ((items re').2 = true -> post = [])
  | _ => exists pre w post, text = pre ++ w ++ post /\ lang (items re).1 w /\ ((items re).2 = true -> post = [])
  end.
Proof.
  assert (forall re, match_from re text = true <->
    exists pre w post, text = pre ++ w ++ post /\ lang (items re).1 w /\ ((items re).2 = true -> post = [])) as H.
  { intros r. rewrite match_from_iff. unfold starts. naive_solver. }
  destruct re as [|c re]; [apply H|]. cbn [match_]. destruct (Z.eqb_spec c 94) as [->|Hc]; [apply matchhere_iff|].
  rewrite H. destruct c as [|p|p]; try done. repeat (destruct p as [p|p|]; try done).
Qed.

(** ** The lines *)

Definition no_nul (l : list Z) : Prop := Forall (fun c => c <> 0) l.

Lemma cut_line_none p : no_nul p -> cut_line p = None -> lines p = ([], p).
Proof.
  induction p as [|c p IH]; intros Hp; [done|]. inversion Hp as [|? ? Hc Hp']; subst. cbn [cut_line lines].
  destruct (Z.eqb_spec c 0); [done|]. destruct (c =? 10); [done|].
  destruct (cut_line p) as [[l r]|]; [done|]. intros _. by rewrite IH.
Qed.

Lemma cut_line_some p l r : no_nul p -> cut_line p = Some (l, r) ->
  lines p = (l :: (lines r).1, (lines r).2) /\ p = l ++ 10 :: r.
Proof.
  revert l r. induction p as [|c p IH]; intros l r Hp; [done|]. inversion Hp as [|? ? Hc Hp']; subst. cbn [cut_line lines].
  destruct (Z.eqb_spec c 0); [done|]. destruct (Z.eqb_spec c 10) as [->|Hc'].
  - intros [= <- <-]. by destruct (lines p).
  - intros ([l' r'] & E & E')%bind_Some. injection E' as <- <-. destruct (IH _ _ Hp' E) as [-> ->]. done.
Qed.

(** The tail of one chunk goes before the next. *)
Lemma lines_app a b : lines (a ++ b) = ((lines a).1 ++ (lines ((lines a).2 ++ b)).1, (lines ((lines a).2 ++ b)).2).
Proof.
  induction a as [|c a IH]; [cbn; by destruct (lines b)|]. cbn [app lines]. rewrite IH.
  destruct (lines a) as [ls t] eqn:Ea. cbn [fst snd].
  destruct (Z.eqb_spec c 10) as [->|Hc]; [done|]. destruct ls as [|l ls]; cbn [app fst snd]; [|done].
  destruct (lines (t ++ b)) as [ls' t'] eqn:Et. cbn [fst snd app lines]. rewrite Et.
  destruct (Z.eqb_spec c 10); [done|]. by destruct ls'.
Qed.

Lemma lines_tail_idem a : lines (lines a).2 = ([], (lines a).2).
Proof.
  induction a as [|c a IH]; [done|]. cbn [lines]. destruct (lines a) as [ls t]. cbn [snd] in IH.
  destruct (Z.eqb_spec c 10); [done|]. destruct ls as [|l ls]; [|done]. cbn [snd lines]. rewrite IH.
  by destruct (Z.eqb_spec c 10).
Qed.

Lemma lines_tail_nul a : no_nul a -> no_nul (lines a).2.
Proof.
  induction a as [|c a IH]; intros Ha; [done|]. inversion Ha; subst. cbn [lines]. destruct (lines a) as [ls t]. cbn in IH.
  destruct (c =? 10); [by apply IH|]. destruct ls; [|by apply IH]. constructor; [done|by apply IH].
Qed.

(** A line of the input that a read cut is not longer than the whole line. *)
Lemma lines_tail_short n a b : Forall (fun l => (length l <= n)%nat) (lines (a ++ b)).1 -> (length (lines (a ++ b)).2 <= n)%nat ->
  (length (lines a).2 <= n)%nat.
Proof.
  rewrite lines_app. cbn [fst snd]. intros Hl Ht. apply Forall_app in Hl as [_ Hl]. pose proof (lines_tail_idem a) as Hi.
  set (t := (lines a).2) in *. clearbody t. clear a.
  assert (forall x y, lines x = ([], x) -> exists z,
    (exists ls, (lines (x ++ y)).1 = (x ++ z) :: ls) \/ (lines (x ++ y)).1 = [] /\ (lines (x ++ y)).2 = x ++ z) as H.
  { clear. induction x as [|c x IH]; intros y.
    - intros _. destruct (lines y) as [[|l ls] t] eqn:Ey; cbn; rewrite Ey; [by exists t; right|by exists l; left; exists ls].
    - cbn [lines app]. destruct (lines x) as [ls t] eqn:Ex. destruct (Z.eqb_spec c 10); [done|].
      destruct ls; [|done]. intros [= ->]. destruct (IH y eq_refl) as (z & [(ls & E)|[E1 E2]]); exists z.
      + left. destruct (lines (x ++ y)) as [L T]. cbn in *. subst. by eexists.
      + right. destruct (lines (x ++ y)) as [L T]. cbn in *. by subst. }
  destruct (H t b Hi) as (z & [(ls & E)|[E1 E2]]).
  - rewrite E in Hl. apply Forall_cons in Hl as [Hl _]. rewrite length_app in Hl. lia.
  - rewrite E2, length_app in Ht. lia.
Qed.

Lemma selected_cons pattern l ls :
  selected pattern (l :: ls) = (if match_ pattern l then l ++ [10] else []) ++ selected pattern ls.
Proof.
  unfold selected. destruct (match_ pattern l) eqn:Em; [by rewrite filter_cons_True by done|].
  by rewrite filter_cons_False by congruence.
Qed.

Lemma grep_lines_spec k pattern p e : no_nul p -> (length p < k)%nat ->
  grep_lines (S := uenv) k pattern p e = Ret (lines p).2 (sent 1 (selected pattern (lines p).1) e).
Proof.
  revert p e. induction k as [|k IH]; intros p e Hp Hk; [lia|]. cbn [grep_lines].
  destruct (cut_line p) as [[l r]|] eqn:Ec.
  - destruct (cut_line_some _ _ _ Hp Ec) as [-> ->]. cbn [fst snd]. apply Forall_app in Hp as [_ Hp]. apply Forall_cons in Hp as [_ Hp].
    rewrite length_app in Hk. cbn [length] in Hk.
    assert (when (match_ pattern l) (u_write 1 (l ++ [10]) ;; ret tt) e =
      Ret tt (sent 1 (if match_ pattern l then l ++ [10] else []) e)) as E.
    { destruct (match_ pattern l); cbn [when]; [done|by rewrite sent_nil]. }
    erewrite bind_ret by exact E. rewrite IH by (done || lia). by rewrite sent_sent, selected_cons.
  - rewrite (cut_line_none _ Hp Ec). unfold selected. cbn. by rewrite sent_nil.
Qed.

Lemma grep_loop_spec fuel pattern fd buf e : no_nul (buf ++ concat (ue_in e)) -> Forall (fun c => c <> []) (ue_in e) ->
  lines buf = ([], buf) ->
  Forall (fun l => (length l <= 1022)%nat) (lines (buf ++ concat (ue_in e))).1 -> (length (lines (buf ++ concat (ue_in e))).2 <= 1022)%nat ->
  (length (concat (ue_in e)) < fuel)%nat ->
  returns (grep_loop (S := uenv) fuel pattern fd buf) e (fun _ e' =>
    ue_in e' = [] /\ ue_err e' = ue_err e /\
    ue_out e' = ue_out e ++ selected pattern (lines (buf ++ concat (ue_in e))).1).
Proof.
  revert buf e. induction fuel as [|fuel IH]; intros buf e Hnul Hch Hbuf Hl Ht Hf; [lia|]. cbn [grep_loop].
  assert (length buf <= 1022)%nat as Hb.
  { pose proof (lines_tail_short 1022 buf (concat (ue_in e)) Hl Ht) as H. by rewrite Hbuf in H. }
  pose proof (next_chunk_spec (1024 - Z.of_nat (length buf) - 1) e ltac:(lia) Hch) as Hn.
  apply returns_bind. eapply returns_intro; [done|]. cbn [fst snd].
  destruct (concat (ue_in e)) as [|x rest] eqn:Ec.
  - rewrite Hn. cbn [fst snd length]. change (Z.of_nat 0 <=? 0) with true. cbv iota. apply returns_ret.
    rewrite app_nil_r, Hbuf. unfold selected. cbn. rewrite app_nil_r. split_and!; [|done|done].
    destruct (ue_in e) as [|c cs]; [done|]. inversion Hch; subst. destruct c; done.
  - destruct Hn as (c & e1 & -> & Hc & Hcat & Hch1 & Ho & Herr). cbn [fst snd].
    destruct (Z.leb_spec (Z.of_nat (length c)) 0); [by destruct c; cbn in *; [|lia]|].
    rewrite Hcat, app_assoc in *. apply Forall_app in Hnul as [Hn1 Hn2].
    apply returns_bind. eapply returns_intro; [apply grep_lines_spec; [done|lia]|].
    set (e2 := sent 1 _ e1).
    assert (ue_in e2 = ue_in e1 /\ ue_out e2 = ue_out e1 ++ selected pattern (lines (buf ++ c)).1 /\ ue_err e2 = ue_err e1)
      as (E2 & O2 & R2) by done.
    rewrite lines_app in Hl, Ht. cbn [fst snd] in Hl, Ht. apply Forall_app in Hl as [_ Hl].
    eapply returns_mono; [apply IH; rewrite ?E2|].
    + apply Forall_app. split; [by apply lines_tail_nul|done].
    + done.
    + apply lines_tail_idem.
    + done.
    + done.
    + rewrite ?length_app in Hf. destruct c; [done|]. cbn [length] in *. lia.
    + intros [] e3 (A & B & D). split_and!; [done|by rewrite B, R2|]. rewrite D, E2, O2, Ho, <- app_assoc. f_equal.
      rewrite (lines_app (buf ++ c)). cbn [fst]. unfold selected. by rewrite filter_app, fmap_app, concat_app.
Qed.

(** grep prints the matching lines.  However the input arrives in pieces, as
    long as it has no NUL and no line longer than the buffer allows (1022 bytes),
    grep() reads all of it and writes exactly the lines that match, in order, each
    with its newline; what follows the last newline is not searched. *)
Theorem grep_selects (fuel : nat) (pattern : list Z) (fd : Z) (e : uenv)
  (Hnul : no_nul (concat (ue_in e))) (Hch : Forall (fun c => c <> []) (ue_in e))
  (Hl : Forall (fun l => (length l <= 1022)%nat) (lines (concat (ue_in e))).1)
  (Ht : (length (lines (concat (ue_in e))).2 <= 1022)%nat) (Hf : (length (concat (ue_in e)) < fuel)%nat) :
  returns (grep fuel pattern fd) e (fun _ e' =>
    ue_in e' = [] /\ ue_err e' = ue_err e /\ ue_out e' = ue_out e ++ selected pattern (lines (concat (ue_in e))).1).
Proof. by apply (grep_loop_spec fuel pattern fd []). Qed.

(** ** Witnesses *)

(** "ab\nb" and "c\nd", searched for a line that ends in b or bc. *)
Definition wit_input : uenv := mkuenv [[97; 98; 10; 98]; [99; 10; 100]] [] [].

Lemma grep_selects_witness :
  returns (grep 10 (str "bc*$") 0) wit_input (fun _ e' =>
    ue_in e' = [] /\ ue_err e' = [] /\ ue_out e' = [97; 98; 10; 98; 99; 10]).
Proof.
  apply (grep_selects 10 (str "bc*$") 0 wit_input); [| | |change (lines _).2 with [100]; cbn; lia|cbn; lia].
  1: unfold no_nul; cbn; repeat (constructor; [lia|]); constructor.
  1: repeat (constructor; [done|]); constructor.
  change (lines _).1 with [[97; 98]; [98; 99]]. repeat (constructor; [cbn; lia|]). constructor.
Defined.
