(* ===== verification/Cmds.v ===== *)
(** * Cmds: the small user programs

    Models user/cat.c, wc.c, echo.c, ls.c, init.c, kill.c, ln.c, mkdir.c, rm.c,
    zombie.c, time.c, strace.c, setpriority.c and schedulertest.c.  [argv] is the
    list argv[0] .. argv[argc-1]; [junk] is what printf()'s buffer holds; [fuel]
    bounds the number of reads. *)
From S2P Require Import Prelude Mem Fs Sysfile Ulib Uprintf.

Section Cmds.
Context {S : Type} `{!Usys S} (junk : list Z).

#[local] Notation fprintf fd fmt ap := (Uprintf.fprintf junk fd fmt%string ap).
#[local] Notation printf fmt ap := (Uprintf.printf junk fmt%string ap).
#[local] Notation exit := (u_exit unit).

(** for(i = 1; i < argc; i++), with argc > 1 *)
Definition args (argv : list (list Z)) : list (list Z) := tail argv.

(** ** cat *)

Fixpoint cat (fuel : nat) (fd : Z) : M S unit :=
  match fuel with
  | O => fail EHang
  | Datatypes.S f =>
      r <- u_read fd 512 ;;
      let n := fst r in
      if n <? 0 then fprintf 2 ("cat: read error" ++ nl) [] ;; exit 1
      else if n =? 0 then ret tt
      else
        w <- u_write 1 (snd r) ;;
        if negb (w =? n) then fprintf 2 ("cat: write error" ++ nl) [] ;; exit 1
        else cat f fd
  end.

Definition cat_main (fuel : nat) (argv : list (list Z)) : M S unit :=
  match args argv with
  | [] => cat fuel 0 ;; exit 0
  | files =>
      for_each (seq 0 (length files)) (fun i =>
        let name := nth i files [] in
        fd <- u_open name 0 ;;
        when (fd <? 0) (fprintf 2 ("cat: cannot open %s" ++ nl) [AStr (Some name)] ;; exit 1) ;;
        cat fuel fd ;;
        u_close fd ;; ret tt) ;;
      exit 0
  end.

(** ** wc *)

(** l, w, c and inword *)
Record counts : Type := mkcounts { wc_l : Z; wc_w : Z; wc_c : Z; wc_in : bool }.

(** the body of for(i=0; i<n; i++) *)
Definition wc_byte (s : counts) (b : Z) : counts :=
  let c := i32 (wc_c s + 1) in
  let l := if b =? 10 then i32 (wc_l s + 1) else wc_l s in
  if strchr [32; 13; 9; 10; 11] b then mkcounts l (wc_w s) c false
  else if negb (wc_in s) then mkcounts l (i32 (wc_w s + 1)) c true
  else mkcounts l (wc_w s) c (wc_in s).

(** while((n = read(fd, buf, sizeof(buf))) > 0); the result has the last n *)
Fixpoint wc_loop (fuel : nat) (fd : Z) (s : counts) : M S (Z * counts) :=
  match fuel with
  | O => fail EHang
  | Datatypes.S f =>
      r <- u_read fd 512 ;;
      if fst r <=? 0 then ret (fst r, s) else wc_loop f fd (foldl wc_byte s (snd r))
  end.

Definition wc (fuel : nat) (fd : Z) (name : list Z) : M S unit :=
  r <- wc_loop fuel fd (mkcounts 0 0 0 false) ;;
  when (fst r <? 0) (printf ("wc: read error" ++ nl) [] ;; exit 1) ;;
  let s := snd r in
  printf ("%d %d %d %s" ++ nl) [AInt (wc_l s); AInt (wc_w s); AInt (wc_c s); AStr (Some name)].

Definition wc_main (fuel : nat) (argv : list (list Z)) : M S unit :=
  match args argv with
  | [] => wc fuel 0 [] ;; exit 0
  | files =>
      for_each (seq 0 (length files)) (fun i =>
        let name := nth i files [] in
        fd <- u_open name 0 ;;
        when (fd <? 0) (printf ("wc: cannot open %s" ++ nl) [AStr (Some name)] ;; exit 1) ;;
        wc fuel fd name ;;
        u_close fd ;; ret tt) ;;
      exit 0
  end.

(** ** echo, kill, ln, mkdir, rm, zombie *)

Fixpoint echo_loop (l : list (list Z)) : M S unit :=
  match l with
  | [] => ret tt
  | a :: l' =>
      u_write 1 a ;;
      (match l' with [] => u_write 1 [10] | _ => u_write 1 [32] end) ;;
      echo_loop l'
  end.
Definition echo_main (argv : list (list Z)) : M S unit := echo_loop (args argv) ;; exit 0.

Definition kill_main (argv : list (list Z)) : M S unit :=
  when (Z.of_nat (length argv) <? 2) (fprintf 2 ("usage: kill pid..." ++ nl) [] ;; exit 1) ;;
  for_each (seq 1 (length argv - 1)) (fun i => u_kill (atoi (nth i argv [])) ;; ret tt) ;;
  exit 0.

Definition ln_main (argv : list (list Z)) : M S unit :=
  match argv with
  | [_; old; new] =>
      r <- u_link old new ;;
      when (r <? 0) (fprintf 2 ("link %s %s: failed" ++ nl) [AStr (Some old); AStr (Some new)]) ;;
      exit 0
  | _ => fprintf 2 ("Usage: ln old new" ++ nl) [] ;; exit 1
  end.

(** for(i = 1; i < argc; i++) until [call] fails *)
Fixpoint each_file (call : list Z -> M S Z) (failed : string) (l : list (list Z)) : M S unit :=
  match l with
  | [] => ret tt
  | a :: l' =>
      r <- call a ;;
      if r <? 0 then fprintf 2 failed [AStr (Some a)] else each_file call failed l'
  end.

Definition mkdir_main (argv : list (list Z)) : M S unit :=
  when (Z.of_nat (length argv) <? 2) (fprintf 2 ("Usage: mkdir files..." ++ nl) [] ;; exit 1) ;;
  each_file u_mkdir ("mkdir: %s failed to create" ++ nl) (args argv) ;;
  exit 0.

Definition rm_main (argv : list (list Z)) : M S unit :=
  when (Z.of_nat (length argv) <? 2) (fprintf 2 ("Usage: rm files..." ++ nl) [] ;; exit 1) ;;
  each_file u_unlink ("rm: %s failed to delete" ++ nl) (args argv) ;;
  exit 0.

Definition zombie_main : M S unit :=
  pid <- u_fork ;;
  when (0 <? pid) (u_sleep 5 ;; ret tt) ;;
  exit 0.

(** ** init *)

(** for(;;) wait() until the shell exits: one round per process that ends *)
Fixpoint init_wait (fuel : nat) (pid : Z) : M S unit :=
  match fuel with
  | O => fail EHang
  | Datatypes.S f =>
      wpid <- u_wait ;;
      if wpid =? pid then ret tt
      else if wpid <? 0 then printf ("init: wait returned an error" ++ nl) [] ;; exit 1
      else init_wait f pid
  end.

(** for(;;), one round per shell *)
Fixpoint init_loop (fuel : nat) : M S unit :=
  match fuel with
  | O => fail EHang
  | Datatypes.S f =>
      printf ("init: starting sh" ++ nl) [] ;;
      pid <- u_fork ;;
      when (pid <? 0) (printf ("init: fork failed" ++ nl) [] ;; exit 1) ;;
      when (pid =? 0) (u_exec (str "sh") [str "sh"] ;; printf ("init: exec sh failed" ++ nl) [] ;; exit 1) ;;
      init_wait fuel pid ;;
      init_loop f
  end.

Definition init_main (fuel : nat) : M S unit :=
  r <- u_open (str "console") O_RDWR ;;
  when (r <? 0) (u_mknod (str "console") 1 0 ;; u_open (str "console") O_RDWR ;; ret tt) ;;
  u_dup 0 ;;
  u_dup 0 ;;
  init_loop fuel.

(** ** ls *)

(** The part of [path] after its last slash. *)
Fixpoint after_slash (path : list Z) : list Z :=
  match path with
  | [] => []
  | c :: rest => if existsb (fun d => d =? 47) path then after_slash rest else path
  end.

(** The static buffer has DIRSIZ+1 bytes; its last is never written: NUL. *)
Definition fmtname (path : list Z) : list Z :=
  let p := after_slash path in
  if Z.of_nat DIRSIZ <=? strlen p then p else p ++ replicate (DIRSIZ - length p) 32.

(** The bytes before the first NUL. *)
Fixpoint c_string (l : list Z) : list Z :=
  match l with [] => [] | c :: l' => if c =? 0 then [] else c :: c_string l' end.

(** while(read(fd, &de, sizeof(de)) == sizeof(de)) *)
Fixpoint ls_dir (fuel : nat) (fd : Z) (path : list Z) : M S unit :=
  match fuel with
  | O => fail EHang
  | Datatypes.S f =>
      r <- u_read fd 16 ;;
      if negb (fst r =? 16) then ret tt else
      let inum := nth 0 (snd r) 0 + 256 * nth 1 (snd r) 0 in
      if inum =? 0 then ls_dir f fd path else
      let buf := path ++ [47] ++ c_string (take DIRSIZ (drop 2 (snd r))) in
      st <- stat buf ;;
      (if fst st <? 0 then printf ("ls: cannot stat %s" ++ nl) [AStr (Some buf)]
       else printf ("%s %d %d %d" ++ nl)
              [AStr (Some (fmtname buf)); AInt (us_type (snd st)); AInt (i32 (us_ino (snd st))); AInt (i32 (us_size (snd st)))]) ;;
      ls_dir f fd path
  end.

Definition ls (fuel : nat) (path : list Z) : M S unit :=
  fd <- u_open path 0 ;;
  if fd <? 0 then fprintf 2 ("ls: cannot open %s" ++ nl) [AStr (Some path)] else
  r <- u_fstat fd ;;
  if fst r <? 0 then fprintf 2 ("ls: cannot stat %s" ++ nl) [AStr (Some path)] ;; u_close fd ;; ret tt else
  let st := snd r in
  (if us_type st =? T_FILE then
     printf ("%s %d %d %l" ++ nl)
       [AStr (Some (fmtname path)); AInt (us_type st); AInt (i32 (us_ino st)); ALong (us_size st)]
   else if us_type st =? T_DIR then
     if 512 <? strlen path + 1 + Z.of_nat DIRSIZ + 1 then printf ("ls: path too long" ++ nl) []
     else ls_dir fuel fd path
   else ret tt) ;;
  u_close fd ;; ret tt.

Definition ls_main (fuel : nat) (argv : list (list Z)) : M S unit :=
  when (Z.of_nat (length argv) <? 2) (ls fuel (str ".") ;; exit 0) ;;
  for_each (seq 1 (length argv - 1)) (fun i => ls fuel (nth i argv [])) ;;
  exit 0.

(** ** time, strace, setpriority, schedulertest *)

Definition time_main (argv : list (list Z)) : M S unit :=
  pid <- u_fork ;;
  (if pid <? 0 then printf ("fork(): failed" ++ nl) [] ;; exit 1
   else if pid =? 0 then
     (if Z.of_nat (length argv) =? 1 then u_sleep 10 ;; exit 0
      else u_exec (nth 1 argv []) (args argv) ;; printf ("exec(): failed" ++ nl) [] ;; exit 1)
   else
     r <- u_waitx ;;
     let '(_, wtime, rtime) := r in
     printf (nl ++ "waiting:%d" ++ nl ++ "running:%d" ++ nl) [AInt wtime; AInt rtime]) ;;
  exit 0.

(** exec_args is not ended by a null pointer: what follows the arguments is what
    the uninitialised array holds, [garbage]. *)
Definition strace_main (garbage : list (list Z)) (argv : list (list Z)) : M S unit :=
  n <- aget argv 1 ;;
  u_trace (atoi n) ;;
  u_exec (nth 0 (drop 2 argv ++ garbage) []) (drop 2 argv ++ garbage) ;;
  exit 0.

Definition setpriority_main (argv : list (list Z)) : M S unit :=
  a2 <- aget argv 2 ;;
  a1 <- aget argv 1 ;;
  let pid := atoi a2 in
  let priority := atoi a1 in
  u_set_priority priority pid ;;
  exit 0.

Definition NFORK : Z := 10.
Definition IO : Z := 5.

(** for (n=0; n < NFORK; n++); the result is n.  The busy loop of a CPU bound
    process computes nothing. *)
Fixpoint sched_fork (pbs : bool) (k : nat) (n : Z) : M S Z :=
  match k with
  | O => ret n
  | Datatypes.S k' =>
      pid <- u_fork ;;
      if pid <? 0 then ret n else
      (if pid =? 0 then
         when (n <? IO) (u_sleep 200 ;; ret tt) ;;
         printf ("Process %d finished" ++ nl) [AInt n] ;;
         exit 0
       else when pbs (u_set_priority (60 - IO + n) pid ;; ret tt)) ;;
      sched_fork pbs k' (n + 1)
  end.

Fixpoint sched_wait (k : nat) (trtime twtime : Z) : M S (Z * Z) :=
  match k with
  | O => ret (trtime, twtime)
  | Datatypes.S k' =>
      r <- u_waitx ;;
      let '(res, rtime, wtime) := r in
      if 0 <=? res then sched_wait k' (i32 (trtime + rtime)) (i32 (twtime + wtime))
      else sched_wait k' trtime twtime
  end.

Definition schedulertest_main (pbs : bool) : M S Z :=
  n <- sched_fork pbs 10 0 ;;
  r <- sched_wait (Z.to_nat n) 0 0 ;;
  printf ("Average rtime %d,  wtime %d" ++ nl) [AInt (Z.quot (fst r) NFORK); AInt (Z.quot (snd r) NFORK)] ;;
  ret 0.
End Cmds.

(** ** Specification of wc and cat *)

Definition space (c : Z) : bool := existsb (fun d => d =? c) [32; 13; 9; 10; 11].

(** The maximal runs of bytes that are not spaces. *)
Fixpoint words (input : list Z) : list (list Z) :=
  match input with
  | [] => []
  | c :: rest =>
      if space c then words rest else
      match rest with
      | [] => [[c]]
      | d :: _ =>
          if space d then [c] :: words rest
          else match words rest with [] => [[c]] | w :: ws => (c :: w) :: ws end
      end
  end.

Definition newlines (input : list Z) : list Z := filter (fun c => c = 10) input.

Lemma strchr_space c : (if strchr [32; 13; 9; 10; 11] c then true else false) = space c.
Proof. unfold space. cbn. by repeat (destruct (_ =? c); [done|]). Qed.

(** A word goes on when the input does not start with a space. *)
Definition in_word (input : list Z) : bool := match input with [] => false | c :: _ => negb (space c) end.

Lemma words_cons c input :
  Z.of_nat (length (words (c :: input))) =
  Z.of_nat (length (words input)) + (if negb (space c) && negb (in_word input) then 1 else 0).
Proof.
  cbn [words]. destruct (space c); cbn [negb andb]; [lia|]. destruct input as [|d input]; [done|]. cbn [in_word].
  destruct (space d) eqn:Ed; cbn [negb]; [cbn [length]; lia|].
  assert (words (d :: input) <> []) as Hne.
  { cbn [words]. rewrite Ed. destruct input as [|e input]; [done|]. destruct (space e); [done|]. by destruct (words (e :: input)). }
  destruct (words (d :: input)); [done|]. cbn [length]. lia.
Qed.

Lemma wc_fold input s : 0 <= wc_l s <= wc_c s -> 0 <= wc_w s <= wc_c s -> wc_c s + Z.of_nat (length input) < 2 ^ 31 ->
  let s' := foldl wc_byte s input in
  wc_c s' = wc_c s + Z.of_nat (length input) /\
  wc_l s' = wc_l s + Z.of_nat (length (newlines input)) /\
  wc_w s' = wc_w s + Z.of_nat (length (words input)) - (if wc_in s && in_word input then 1 else 0) /\
  0 <= wc_l s' <= wc_c s' /\ 0 <= wc_w s' <= wc_c s'.
Proof.
  revert s. induction input as [|b input IH]; intros s Hl Hw Hc; cbn [foldl]; [cbn; destruct (wc_in s); cbn; lia|].
  cbn [length] in Hc. assert (forall x, 0 <= x <= wc_c s -> i32 (x + 1) = x + 1) as Hi by (intros x Hx; unfold i32; rewrite Z.mod_small; lia).
  set (s1 := wc_byte s b).
  assert (wc_c s1 = wc_c s + 1 /\ wc_l s1 = wc_l s + (if b =? 10 then 1 else 0) /\ wc_in s1 = negb (space b) /\
    wc_w s1 = wc_w s + (if negb (space b) && negb (wc_in s) then 1 else 0)) as (E1 & E2 & E3 & E4).
  { unfold s1, wc_byte. rewrite <- strchr_space. destruct (strchr _ b); cbn [negb andb].
    - cbn. rewrite !Hi by lia. destruct (b =? 10); rewrite ?Hi by lia; lia.
    - destruct (wc_in s) eqn:Ei; cbn [negb]; cbn; rewrite ?Ei, !Hi by lia; destruct (b =? 10); rewrite ?Hi by lia; lia. }
  destruct (IH s1) as (A & B & C & D & E); [destruct (b =? 10); lia|destruct (_ && _); lia|lia|].
  split; [rewrite A, E1; cbn [length]; lia|]. split; [|split; [|split; [exact D|exact E]]].
  - rewrite B, E2. unfold newlines. rewrite filter_cons. destruct (Z.eqb_spec b 10); case_decide; cbn [length]; try done; lia.
  - rewrite C, E4, words_cons, E3. cbn [in_word]. destruct (space b), (wc_in s), (in_word input); cbn; lia.
Qed.

Lemma wc_loop_spec fuel fd s e : Forall (fun c => c <> []) (ue_in e) -> (length (concat (ue_in e)) < fuel)%nat ->
  returns (wc_loop (S := uenv) fuel fd s) e (fun r e' =>
    r = (0, foldl wc_byte s (concat (ue_in e))) /\ ue_in e' = [] /\ ue_out e' = ue_out e /\ ue_err e' = ue_err e).
Proof.
  revert s e. induction fuel as [|fuel IH]; intros s e Hch Hf; [lia|]. cbn [wc_loop].
  pose proof (next_chunk_spec 512 e ltac:(lia) Hch) as Hn. apply returns_bind. eapply returns_intro; [done|].
  cbn [fst snd]. destruct (concat (ue_in e)) as [|x rest] eqn:Ec.
  - rewrite Hn. cbn [fst snd length]. change (Z.of_nat 0 <=? 0) with true. cbv iota. apply returns_ret.
    split_and!; [done| |done|done]. destruct (ue_in e) as [|c cs]; [done|]. inversion Hch; subst. by destruct c.
  - destruct Hn as (c & e1 & -> & Hc & Hcat & Hch1 & Ho & Hr). cbn [fst snd].
    destruct (Z.leb_spec (Z.of_nat (length c)) 0); [by destruct c; cbn in *; [|lia]|].
    rewrite Hcat in *. rewrite length_app in Hf. eapply returns_mono; [apply IH; [done|lia]|].
    intros r e2 (-> & A & B & C). rewrite foldl_app. split_and!; [done|done|by rewrite B|by rewrite C].
Qed.

(** ** Properties *)

(** Wc counts lines, words and bytes.  However reads cut the input up, below
    2^31 bytes, the three counters end as the number of newlines, of maximal runs
    of bytes other than blanks, and of bytes: one pass with a flag does what
    splitting the whole input into words does. *)
Theorem wc_counts (fuel : nat) (fd : Z) (e : uenv)
  (Hch : Forall (fun c => c <> []) (ue_in e)) (Hlen : Z.of_nat (length (concat (ue_in e))) < 2 ^ 31)
  (Hf : (length (concat (ue_in e)) < fuel)%nat) :
  returns (wc_loop fuel fd (mkcounts 0 0 0 false)) e (fun r e' =>
    r.1 = 0 /\ ue_in e' = [] /\
    wc_l r.2 = Z.of_nat (length (newlines (concat (ue_in e)))) /\
    wc_w r.2 = Z.of_nat (length (words (concat (ue_in e)))) /\
    wc_c r.2 = Z.of_nat (length (concat (ue_in e)))).
Proof.
  eapply returns_mono; [by apply wc_loop_spec|]. intros r e' (-> & Hi & _). cbn [fst snd].
  destruct (wc_fold (concat (ue_in e)) (mkcounts 0 0 0 false)) as (A & B & C & _); cbn [wc_l wc_w wc_c] in *; [lia|lia|lia|].
  rewrite A, B, C. cbn [wc_in andb]. split_and!; [done|done|lia|lia|lia].
Qed.

(** ** Witnesses *)

(** "one two\n t" and "hree": two lines' worth of words, one newline, one word
    across two reads. *)
Definition wit_wc : uenv := mkuenv [str "one two" ++ [10] ++ str " t"; str "hree"] [] [].

Lemma wc_counts_witness :
  returns (wc_loop 20 0 (mkcounts 0 0 0 false)) wit_wc (fun r e' =>
    r.1 = 0 /\ ue_in e' = [] /\ wc_l r.2 = 1 /\ wc_w r.2 = 3 /\ wc_c r.2 = 14).
Proof.
  apply (wc_counts 20 0 wit_wc); [repeat (constructor; [done|]); constructor|by vm_compute|cbn; lia].
Defined.
