(* ===== verification/Grind.v ===== *)
(** * Grind: random system calls

    Models user/grind.c: its random numbers, and the rounds of system calls they choose.
    The loops of go() and main() have no end; [go] and [grind_main] are their first [k]
    rounds.  A process that has called exit() does not come back. *)
From Stdlib Require Import Znumtheory Zpow_facts.
From S2P Require Import Prelude Mem Fs Sysfile Ulib Uprintf Cmds.

(** ** Random numbers *)

(** A long, 64 bits *)
Definition i64 (x : Z) : Z := (x + 2 ^ 63) mod 2 ^ 64 - 2 ^ 63.

(** The result, and the new context; [ctx] is an unsigned long. *)
Definition do_rand (ctx : Z) : Z * Z :=
  let x := i64 (ctx mod 0x7ffffffe + 1) in
  let hi := Z.quot x 127773 in
  let lo := Z.rem x 127773 in
  let x := i64 (i64 (16807 * lo) - i64 (2836 * hi)) in
  let x := if x <? 0 then i64 (x + 0x7fffffff) else x in
  let x := i64 (x - 1) in
  (i32 x, u64 x).

(** rand_next is passed along. *)
Definition rand (rand_next : Z) : Z * Z := do_rand rand_next.

(** A quotation mark *)
Definition quote : string := String (Ascii.ascii_of_nat 34) EmptyString.

Section Grind.
Context {S : Type} `{!Usys S} (junk : list Z).

#[local] Notation fprintf fd fmt ap := (Uprintf.fprintf junk fd fmt%string ap).
#[local] Notation printf fmt ap := (Uprintf.printf junk fmt%string ap).
#[local] Notation exit := (u_exit unit).

(** O_CREATE|O_RDWR *)
Definition create : Z := Z.lor O_CREATE O_RDWR.

(** close(open(path, O_CREATE|O_RDWR)) *)
Definition touch (path : string) : M S unit := fd <- u_open (str path) create ;; u_close fd ;; ret tt.

(** printf("grind: ..."); exit(1) *)
Definition die (msg : string) : M S unit := printf ("grind: " ++ msg ++ nl) [] ;; exit 1.

(** int pid = fork(); if(pid == 0){ [child]; exit(0); } else if(pid < 0){ ... } *)
Definition fork_child (child : M S unit) : M S Z :=
  pid <- u_fork ;;
  (if pid =? 0 then child ;; exit 0
   else if pid <? 0 then die "fork failed" else ret tt) ;;
  ret pid.

(** What a round starts from and leaves: the local fd and the bytes of buf[999]. *)
Definition locals : Type := Z * list Z.

(** if(chdir(path) != 0){ printf; exit(1); } *)
Definition must_chdir (path msg : string) : M S unit :=
  r <- u_chdir (str path) ;; when (negb (r =? 0)) (die msg).

(** what == 1 .. 12, 15, 16: calls on files, and on the size of the process *)
Definition calls_round (what break0 : Z) (l : locals) : M S locals :=
  let '(fd, buf) := l in
  let keep (m : M S unit) := m ;; ret (fd, buf) in
  if what =? 1 then keep (touch "grindir/../a")
  else if what =? 2 then keep (touch "grindir/../grindir/../b")
  else if what =? 3 then keep (u_unlink (str "grindir/../a") ;; ret tt)
  else if what =? 4 then
    keep (must_chdir "grindir" "chdir grindir failed" ;;
          u_unlink (str "../b") ;; u_chdir (str "/") ;; ret tt)
  else if what =? 5 then
    u_close fd ;; fd <- u_open (str "/grindir/../a") create ;; ret (fd, buf)
  else if what =? 6 then
    u_close fd ;; fd <- u_open (str "/./grindir/./../b") create ;; ret (fd, buf)
  else if what =? 7 then keep (u_write fd buf ;; ret tt)
  else if what =? 8 then
    r <- u_read fd (Z.of_nat (length buf)) ;; ret (fd, r.2 ++ drop (length r.2) buf)
  else if what =? 9 then
    keep (u_mkdir (str "grindir/../a") ;; touch "a/../a/./a" ;; u_unlink (str "a/a") ;; ret tt)
  else if what =? 10 then
    keep (u_mkdir (str "/../b") ;; touch "grindir/../b/b" ;; u_unlink (str "b/b") ;; ret tt)
  else if what =? 11 then
    keep (u_unlink (str "b") ;; u_link (str "../grindir/./../a") (str "../b") ;; ret tt)
  else if what =? 12 then
    keep (u_unlink (str "../grindir/../a") ;; u_link (str ".././b") (str "/grindir/../a") ;; ret tt)
  else if what =? 15 then keep (u_sbrk 6011 ;; ret tt)
  else if what =? 16 then
    b <- u_sbrk 0 ;;
    keep (when (u64 break0 <? u64 b)
      (b <- u_sbrk 0 ;; u_sbrk (i32 (- i64 (b - break0))) ;; ret tt))
  else ret (fd, buf).

(** what == 13, 14, 17, 18, 20: a child that does a little, and is waited for *)
Definition fork_round (what : Z) : M S unit :=
  if what =? 13 then fork_child (ret tt) ;; u_wait ;; ret tt
  else if what =? 14 then fork_child (u_fork ;; u_fork ;; ret tt) ;; u_wait ;; ret tt
  else if what =? 17 then
    pid <- fork_child (touch "a") ;;
    must_chdir "../grindir/.." "chdir failed" ;;
    u_kill pid ;; u_wait ;; ret tt
  else if what =? 18 then
    fork_child (pid <- u_getpid ;; u_kill pid ;; ret tt) ;; u_wait ;; ret tt
  else if what =? 20 then
    fork_child (u_unlink (str "a") ;; u_mkdir (str "a") ;; u_chdir (str "a") ;; u_unlink (str "../a") ;;
                u_open (str "x") create ;; u_unlink (str "x") ;; ret tt) ;;
    u_wait ;; ret tt
  else ret tt.

(** what == 19: three more processes read and write one pipe *)
Definition pipe_round : M S unit :=
  p <- u_pipe ;;
  let '(r, fds0, fds1) := p in
  when (r <? 0) (die "pipe failed") ;;
  fork_child (
    u_fork ;; u_fork ;;
    n <- u_write fds1 (str "x") ;;
    when (negb (n =? 1)) (printf ("grind: pipe write failed" ++ nl) []) ;;
    n <- u_read fds0 1 ;;
    when (negb (n.1 =? 1)) (printf ("grind: pipe read failed" ++ nl) [])) ;;
  u_close fds0 ;; u_close fds1 ;; u_wait ;; ret tt.

(** what == 21: a new file, whose status is looked at *)
Definition status_round : M S unit :=
  u_unlink (str "c") ;;
  fd1 <- u_open (str "c") create ;;
  when (fd1 <? 0) (die "create c failed") ;;
  n <- u_write fd1 (str "x") ;;
  when (negb (n =? 1)) (die "write c failed") ;;
  r <- u_fstat fd1 ;;
  when (negb (r.1 =? 0)) (die "fstat failed") ;;
  let st := r.2 in
  when (negb (us_size st =? 1))
    (printf ("grind: fstat reports wrong size %d" ++ nl) [AInt (i32 (us_size st))] ;; exit 1) ;;
  when (200 <? us_ino st)
    (printf ("grind: fstat reports crazy i-number %d" ++ nl) [AInt (i32 (us_ino st))] ;; exit 1) ;;
  u_close fd1 ;; u_unlink (str "c") ;; ret tt.

(** fprintf(2, "grind: ..."); exit(code) *)
Definition die2 (msg : string) (code : Z) : M S unit := fprintf 2 ("grind: " ++ msg ++ nl) [] ;; exit code.

(** close(to); if(dup(from) != to){ ... } close(from) *)
Definition move_to (from to code : Z) : M S unit :=
  u_close to ;;
  d <- u_dup from ;;
  when (negb (d =? to)) (die2 "dup failed" code) ;;
  u_close from ;; ret tt.

(** the child that becomes echo, and the one that becomes cat *)
Definition echo_child (aa0 aa1 bb0 bb1 : Z) : M S unit :=
  u_close bb0 ;; u_close bb1 ;; u_close aa0 ;;
  move_to aa1 1 1 ;;
  u_exec (str "grindir/../echo") [str "echo"; str "hi"] ;;
  die2 "echo: not found" 2.
Definition cat_child (aa0 aa1 bb0 bb1 : Z) : M S unit :=
  u_close aa1 ;; u_close bb0 ;;
  move_to aa0 0 4 ;;
  move_to bb1 1 5 ;;
  u_exec (str "/cat") [str "cat"] ;;
  die2 "cat: not found" 6.

(** read(fd, &buf[i], 1) *)
Definition read_at (fd : Z) (buf : list Z) (i : nat) : M S (list Z) :=
  r <- u_read fd 1 ;;
  ret (match r.2 with c :: _ => <[i := c]> buf | [] => buf end).

(** A variable that nothing was stored in may not be read. *)
Definition defined {A} (x : option A) : M S A := match x with Some a => ret a | None => fail EUndef end.

(** the end of the round: three bytes come back, and both children are waited for *)
Definition pipeline_result (bb0 : Z) : M S unit :=
  buf <- read_at bb0 [0; 0; 0; 0] 0 ;;
  buf <- read_at bb0 buf 1 ;;
  buf <- read_at bb0 buf 2 ;;
  u_close bb0 ;;
  w1 <- u_wait_status ;;
  w2 <- u_wait_status ;;
  st1 <- defined w1.2 ;;
  st2 <- defined w2.2 ;;
  when (negb (st1 =? 0) || negb (st2 =? 0) || negb (strcmp (c_string buf) (str "hi" ++ [10]) =? 0))
    (printf ("grind: exec pipeline failed %d %d " ++ quote ++ "%s" ++ quote ++ nl)
       [AInt st1; AInt st2; AStr (Some (c_string buf))] ;;
     exit 1).

(** what == 22: echo hi | cat *)
Definition pipeline_round : M S unit :=
  p <- u_pipe ;;
  let '(r, aa0, aa1) := p in
  when (r <? 0) (die2 "pipe failed" 1) ;;
  p <- u_pipe ;;
  let '(r, bb0, bb1) := p in
  when (r <? 0) (die2 "pipe failed" 1) ;;
  pid1 <- u_fork ;;
  (if pid1 =? 0 then echo_child aa0 aa1 bb0 bb1
   else when (pid1 <? 0) (die2 "fork failed" 3)) ;;
  pid2 <- u_fork ;;
  (if pid2 =? 0 then cat_child aa0 aa1 bb0 bb1
   else when (pid2 <? 0) (die2 "fork failed" 7)) ;;
  u_close aa0 ;; u_close aa1 ;; u_close bb1 ;;
  pipeline_result bb0.

(** ** The loop *)

Definition round (what break0 : Z) (l : locals) : M S locals :=
  if existsb (Z.eqb what) [13; 14; 17; 18; 20] then fork_round what ;; ret l
  else if what =? 19 then pipe_round ;; ret l
  else if what =? 21 then status_round ;; ret l
  else if what =? 22 then pipeline_round ;; ret l
  else calls_round what break0 l.

(** The first [k] rounds of while(1) *)
Fixpoint go_loop (k : nat) (which_child : bool) (break0 iters rand_next : Z) (l : locals) : M S locals :=
  match k with
  | O => ret l
  | Datatypes.S k' =>
      let iters := u64 (iters + 1) in
      when (iters mod 500 =? 0) (u_write 1 (str (if which_child then "B" else "A")) ;; ret tt) ;;
      let '(r, rand_next) := rand rand_next in
      l <- round (Z.rem r 23) break0 l ;;
      go_loop k' which_child break0 iters rand_next l
  end.

Definition go (k : nat) (which_child : bool) (rand_next : Z) : M S locals :=
  break0 <- u_sbrk 0 ;;
  u_mkdir (str "grindir") ;;
  must_chdir "grindir" "chdir grindir failed" ;;
  u_chdir (str "/") ;;
  go_loop k which_child break0 0 rand_next (-1, replicate 999 0).

(** A child of iter() that would leave the loop exits. *)
Definition go_child (k : nat) (which_child : bool) (seed : Z) : M S unit :=
  go k which_child seed ;; exit 0.

Definition iter (k : nat) : M S unit :=
  u_unlink (str "a") ;;
  u_unlink (str "b") ;;
  pid1 <- u_fork ;;
  when (pid1 <? 0) (die "fork failed") ;;
  when (pid1 =? 0) (go_child k false 31) ;;
  pid2 <- u_fork ;;
  when (pid2 <? 0) (die "fork failed") ;;
  when (pid2 =? 0) (go_child k true 7177) ;;
  w <- u_wait_status ;;
  when (negb (default (-1) w.2 =? 0)) (u_kill pid1 ;; u_kill pid2 ;; ret tt) ;;
  u_wait_status ;;
  exit 0.

(** The first [n] rounds of main(); its descendants do [k] rounds. *)
Fixpoint grind_main (n k : nat) : M S unit :=
  match n with
  | O => ret tt
  | Datatypes.S n' =>
      pid <- u_fork ;;
      when (pid =? 0) (iter k ;; exit 0) ;;
      when (0 <? pid) (u_wait ;; ret tt) ;;
      u_sleep 20 ;;
      grind_main n' k
  end.
End Grind.

(** ** The order of a number *)

Lemma rel_prime_prod m l : (forall q, q ∈ l -> prime q /\ ~ (q | m)) -> rel_prime m (foldr Z.mul 1 l).
Proof.
  induction l as [|q l IH]; intros H; cbn [foldr]; [apply rel_prime_sym, rel_prime_1|]. destruct (H q) as [H1 H2]; [by left|].
  apply rel_prime_mult; [by apply rel_prime_sym, prime_rel_prime|]. apply IH. intros q' Hq'. apply H. by right.
Qed.

Section Order.
Context (p g : Z) (Hp : 1 < p).

Let pw (k : Z) : Z := g ^ k mod p.

Lemma pw_add i j : 0 <= i -> 0 <= j -> pw (i + j) = (pw i * pw j) mod p.
Proof. intros. unfold pw. rewrite Z.pow_add_r by lia. apply Z.mul_mod. lia. Qed.

Lemma pw_0 : pw 0 = 1.
Proof. unfold pw. rewrite Z.pow_0_r. by apply Z.mod_small. Qed.

Lemma pw_mul i j : 0 <= i -> 0 <= j -> pw i = 1 -> pw (i * j) = 1.
Proof.
  intros Hi Hj H. revert Hj. apply (natlike_ind (fun j => pw (i * j) = 1)).
  - rewrite Z.mul_0_r. apply pw_0.
  - intros j' Hj' IH. rewrite Z.mul_succ_r, pw_add, IH, H by nia. by apply Z.mod_small.
Qed.

(** The exponents that give 1 are closed under remainders, and so under gcd. *)
Lemma pw_rem a b : 0 <= a -> 0 < b -> pw a = 1 -> pw b = 1 -> pw (a mod b) = 1.
Proof.
  intros Ha Hb H1 H2. pose proof (Z.mod_pos_bound a b Hb). pose proof (Z.div_pos a b Ha Hb).
  rewrite (Z.div_mod a b) in H1 by lia. rewrite pw_add, pw_mul, Z.mul_1_l in H1 by (try done; nia).
  unfold pw in H1 |- *. by rewrite Z.mod_mod in H1 by lia.
Qed.

Lemma pw_gcd b : 0 <= b -> forall a, 0 <= a -> pw a = 1 -> pw b = 1 -> pw (Z.gcd a b) = 1.
Proof.
  intros Hb. pattern b. apply Zlt_0_ind; [|done]. clear b Hb. intros b IH Hb a Ha H1 H2.
  destruct (decide (b = 0)) as [->|Hne]; [by rewrite Z.gcd_0_r, Z.abs_eq|].
  rewrite Z.gcd_comm, <- Z.gcd_mod by lia.
  pose proof (Z.mod_pos_bound a b ltac:(lia)). rewrite Z.gcd_comm. apply IH; [lia..|done|]. apply pw_rem; lia || done.
Qed.

(** Lucas: [g] has order [p - 1] if its powers by (p-1)/q are not 1. *)
Context (qs : list Z) (Hqs : Forall prime qs) (Hprod : foldr Z.mul 1 qs = p - 1)
  (Hg : pw (p - 1) = 1) (Hmax : Forall (fun q => pw ((p - 1) / q) <> 1) qs).

Lemma order_max k : 0 < k < p - 1 -> pw k <> 1.
Proof.
  intros Hk H. set (d := Z.gcd k (p - 1)). assert (pw d = 1) as Hd by (apply pw_gcd; lia || done).
  destruct (Z.gcd_divide_l k (p - 1)) as [k' Hk']. destruct (Z.gcd_divide_r k (p - 1)) as [m Hm]. fold d in Hk', Hm.
  pose proof (Z.gcd_nonneg k (p - 1)) as Hd0. fold d in Hd0. assert (d <> 0) as Hd' by (intros E; rewrite E in Hk'; lia). pose proof (Z.divide_pos_le d k ltac:(lia) ltac:(by exists k')).
  assert (0 < d < p - 1) as Hd1 by lia. assert (1 < m) as Hm1 by nia.
  assert (rel_prime m (p - 1)) as Hr.
  { rewrite <- Hprod. apply rel_prime_prod. rewrite Forall_forall in Hqs, Hmax. intros q Hq. pose proof (prime_ge_2 q (Hqs q Hq)).
    split; [by apply Hqs|]. intros [c Hc]. apply (Hmax q Hq).
    replace ((p - 1) / q) with (d * c); [apply pw_mul; nia || done|]. rewrite Hm, Hc. replace (c * q * d) with (d * c * q) by lia. by rewrite Z.div_mul by lia. }
  apply (Zis_gcd_unique m (p - 1) 1 m) in Hr as [|]; [lia..|]. constructor; [apply Z.divide_refl|exists d; lia|done].
Qed.


Lemma pw_mod i : 0 <= i -> pw i = pw (i mod (p - 1)).
Proof.
  intros Hi. pose proof (Z.div_pos i (p - 1) ltac:(lia) ltac:(lia)). pose proof (Z.mod_pos_bound i (p - 1) ltac:(lia)).
  rewrite (Z.div_mod i (p - 1)) at 1 by lia. rewrite pw_add, pw_mul, Z.mul_1_l by (done || nia). unfold pw. apply Z.mod_mod. lia.
Qed.

Lemma pw_inj i j : 0 <= i -> 0 <= j -> pw i = pw j <-> i mod (p - 1) = j mod (p - 1).
Proof.
  intros Hi Hj. rewrite (pw_mod i), (pw_mod j) by done. split; [|by intros ->].
  pose proof (Z.mod_pos_bound i (p - 1) ltac:(lia)). pose proof (Z.mod_pos_bound j (p - 1) ltac:(lia)).
  generalize dependent (j mod (p - 1)). generalize dependent (i mod (p - 1)). clear i j Hi Hj.
  assert (forall i j, 0 <= i < j -> j < p - 1 -> pw i <> pw j) as Hlt.
  { intros i j Hi Hj E. apply (order_max (p - 1 - j + i)); [lia|]. rewrite pw_add, E, <- pw_add by lia. by replace (p - 1 - j + j) with (p - 1) by lia. }
  intros i Hi j Hj E. destruct (Z.lt_trichotomy i j) as [|[|]]; [|done|]; exfalso.
  - by apply (Hlt i j); [lia..|].
  - by apply (Hlt j i); [lia..|].
Qed.

Lemma pw_range i : 0 <= i -> 0 < pw i < p.
Proof.
  intros Hi. assert (pw i <> 0) as Hne; [|pose proof (Z.mod_pos_bound (g ^ i) p ltac:(lia)) as Hb; fold (pw i) in Hb; lia].
  intros E. assert (pw (i + (p - 1 - i mod (p - 1))) = 0) as E'.
  { pose proof (Z.mod_pos_bound i (p - 1) ltac:(lia)). rewrite pw_add, E by lia. by rewrite Z.mul_0_l, Z.mod_0_l by lia. }
  pose proof (Z.div_pos i (p - 1) ltac:(lia) ltac:(lia)). rewrite (Z.div_mod i (p - 1)) in E' at 1 by lia.
  replace ((p - 1) * (i / (p - 1)) + i mod (p - 1) + (p - 1 - i mod (p - 1))) with ((p - 1) * (i / (p - 1) + 1)) in E' by lia.
  rewrite pw_mul in E' by (done || lia). done.
Qed.

(** Every number from 1 to [p - 1] is a power of [g]: there are as many powers as numbers. *)
Lemma pw_onto x : 0 < x < p -> exists i, 0 <= i /\ pw i = x.
Proof.
  intros Hx. set (n := Z.to_nat (p - 1)).
  assert (incl ((fun i => 1 + Z.of_nat i) <$> seq 0 n) ((fun i => pw (Z.of_nat i)) <$> seq 0 n)) as Hincl.
  { apply NoDup_length_incl.
    - apply NoDup_ListNoDup, NoDup_fmap_2_strong; [|apply NoDup_seq]. intros i j Hi%elem_of_seq Hj%elem_of_seq E.
      apply pw_inj in E; [|lia..]. rewrite !Z.mod_small in E by lia. lia.
    - by rewrite !length_fmap.
    - intros y (i & -> & _)%list_elem_of_In%list_elem_of_fmap. pose proof (pw_range (Z.of_nat i) ltac:(lia)).
      apply list_elem_of_In, list_elem_of_fmap. exists (Z.to_nat (pw (Z.of_nat i) - 1)). split; [lia|]. apply elem_of_seq. lia. }
  assert (x ∈ (fun i => pw (Z.of_nat i)) <$> seq 0 n) as (i & -> & _)%list_elem_of_fmap; [|exists (Z.of_nat i); lia].
  apply list_elem_of_In, Hincl, list_elem_of_In, list_elem_of_fmap. exists (Z.to_nat (x - 1)). split; [lia|]. apply elem_of_seq. lia.
Qed.
End Order.

Lemma small_prime q : 1 < q -> forallb (fun i => Z.gcd (Z.of_nat i) q =? 1) (seq 1 (Z.to_nat q - 1)) = true -> prime q.
Proof.
  intros Hq Hall. rewrite forallb_forall in Hall. constructor; [done|]. intros n Hn. apply Zgcd_1_rel_prime.
  specialize (Hall (Z.to_nat n)). rewrite Z2Nat.id in Hall by lia. apply Z.eqb_eq, Hall, in_seq. lia.
Qed.

(** ** The generator *)

(** 2^31 - 1, a prime, and 7^5, of which every number below it is a power *)
Definition M31 : Z := 0x7fffffff.
Definition G : Z := 16807.
Definition factors : list Z := [2; 3; 3; 7; 11; 31; 151; 331].

Lemma factors_prime : Forall prime factors.
Proof. repeat (apply Forall_cons_2; [apply small_prime; [done|by vm_compute]|]). apply Forall_nil_2. Qed.

Lemma pow_mod_eq k : 0 <= k -> G ^ k mod M31 = Zpow_mod G k M31.
Proof. intros. symmetry. by apply Zpow_mod_correct. Qed.

Lemma factors_order : Forall (fun q => G ^ ((M31 - 1) / q) mod M31 <> 1) factors.
Proof.
  assert (Forall (fun q => 0 <= (M31 - 1) / q) factors) as Hpos by (repeat constructor; by vm_compute).
  eapply Forall_impl; [eapply Forall_and; split; [exact Hpos|]|intros q [Hq H]; rewrite pow_mod_eq by done; exact H].
  repeat constructor; by vm_compute.
Qed.

Lemma G_order : G ^ (M31 - 1) mod M31 = 1.
Proof. rewrite pow_mod_eq by done. by vm_compute. Qed.

Lemma G_inj i j : 0 <= i -> 0 <= j -> G ^ i mod M31 = G ^ j mod M31 <-> i mod (M31 - 1) = j mod (M31 - 1).
Proof. apply (pw_inj M31 G eq_refl factors factors_prime eq_refl G_order factors_order). Qed.
Lemma G_onto x : 0 < x < M31 -> exists i, 0 <= i /\ G ^ i mod M31 = x.
Proof. apply (pw_onto M31 G eq_refl factors factors_prime eq_refl G_order factors_order). Qed.

Lemma i64_id x : - 2 ^ 63 <= x < 2 ^ 63 -> i64 x = x.
Proof. intros H. unfold i64. rewrite Z.mod_small; lia. Qed.

(** Schrage's method computes G * x mod M31. *)
Lemma schrage x : 0 < x < M31 ->
  let y := 16807 * Z.rem x 127773 - 2836 * Z.quot x 127773 in
  - M31 < y < M31 /\ (if y <? 0 then y + M31 else y) = G * x mod M31.
Proof.
  intros Hx. rewrite Z.rem_mod_nonneg, Z.quot_div_nonneg by lia. unfold M31, G in *.
  pose proof (Z.div_mod x 127773 ltac:(lia)) as E. pose proof (Z.mod_pos_bound x 127773 ltac:(lia)). pose proof (Z.div_pos x 127773 ltac:(lia) ltac:(lia)).
  set (hi := x / 127773) in *. set (lo := x mod 127773) in *. cbv zeta. split; [lia|].
  destruct (Z.ltb_spec (16807 * lo - 2836 * hi) 0).
  - apply (Z.mod_unique_pos _ _ (hi - 1)); lia.
  - apply (Z.mod_unique_pos _ _ hi); lia.
Qed.

Lemma G_nonzero x : 0 < x < M31 -> 0 < G * x mod M31 < M31.
Proof.
  intros Hx. pose proof (Z.mod_pos_bound (G * x) M31 eq_refl). assert (G * x mod M31 <> 0); [|lia].
  intros E%Z.mod_divide; [|done]. destruct E as [c E]. unfold G, M31 in *. 
  assert (x = (1407677000 * c - 11017 * x) * 0x7fffffff) by lia. nia.
Qed.

Lemma G_power_range i : 0 <= i -> 0 <= G ^ i mod M31 - 1 < M31 - 1.
Proof. intros. pose proof (pw_range M31 G eq_refl G_order i ltac:(done)). lia. Qed.

Lemma add_mod_inj m a i j : 0 <= i < m -> 0 <= j < m -> (a + i) mod m = (a + j) mod m -> i = j.
Proof.
  intros Hi Hj E. pose proof (Z.div_mod (a + i) m ltac:(lia)). pose proof (Z.div_mod (a + j) m ltac:(lia)).
  assert ((a + i) / m = (a + j) / m) by nia. lia.
Qed.

(** do_rand() is Park and Miller's minimal standard generator, between 0 and 2^31 - 3; none of
    its products needs more than 31 bits. *)
Lemma do_rand_eq ctx : 0 <= ctx < 2 ^ 64 ->
  let r := G * (ctx mod (M31 - 1) + 1) mod M31 - 1 in do_rand ctx = (r, r) /\ 0 <= r < M31 - 1.
Proof.
  intros Hc. cbv zeta. pose proof (Z.mod_pos_bound ctx (M31 - 1) eq_refl) as Hm. unfold do_rand. cbv zeta. change 0x7ffffffe with (M31 - 1).
  set (x := ctx mod (M31 - 1) + 1) in *. pose proof (schrage x ltac:(lia)) as [Hy Es]. pose proof (G_nonzero x ltac:(lia)) as Hnz.
  rewrite (i64_id x) by (unfold M31 in *; lia). rewrite Z.rem_mod_nonneg, Z.quot_div_nonneg in * by lia.
  pose proof (Z.mod_pos_bound x 127773 ltac:(lia)). pose proof (Z.div_pos x 127773 ltac:(lia) ltac:(lia)).
  assert (x / 127773 < 16808) by (apply Z.div_lt_upper_bound; unfold M31 in *; lia).
  rewrite (i64_id (16807 * _)), (i64_id (2836 * _)) by lia. set (y := 16807 * (x mod 127773) - _) in *.
  rewrite (i64_id y) by (unfold M31 in *; lia). change 0x7fffffff with M31. cbv zeta.
  assert ((if y <? 0 then i64 (y + M31) else y) = G * x mod M31) as ->.
  { rewrite <- Es. destruct (y <? 0); [|done]. apply i64_id. unfold M31 in *. lia. }
  clear Es. generalize dependent (G * x mod M31). intros v Hv. unfold M31 in *. rewrite i64_id by lia. unfold i32, u64. rewrite !Z.mod_small by lia.
  split; [f_equal; lia|lia].
Qed.

(** The results of [k] calls of rand() in a row *)
Fixpoint draws (k : nat) (rand_next : Z) : list Z :=
  match k with O => [] | S k' => let '(r, rand_next) := rand rand_next in r :: draws k' rand_next end.

(** They are powers of G, from the one that the context stands for. *)
Lemma draws_powers k : forall c a, 0 <= c < 2 ^ 64 -> 0 <= a -> G ^ a mod M31 = c mod (M31 - 1) + 1 ->
  draws k c = (fun i => G ^ (a + 1 + Z.of_nat i) mod M31 - 1) <$> seq 0 k.
Proof.
  induction k as [|k IH]; intros c a Hc Ha E; [done|]. cbn [draws]. unfold rand. destruct (do_rand_eq c Hc) as [-> Hr].
  assert (G * (c mod (M31 - 1) + 1) mod M31 = G ^ (a + 1) mod M31) as E1.
  { rewrite <- E, Z.mul_mod_idemp_r by done. by rewrite (Z.add_comm a 1), Z.pow_add_r, Z.pow_1_r by lia. }
  rewrite E1 in *. rewrite (IH _ (a + 1)); [|unfold M31 in *; lia|lia|].
  - change (seq 0 (Datatypes.S k)) with (0%nat :: seq 1 k). rewrite fmap_cons, Z.add_0_r. f_equal. rewrite <- fmap_S_seq, <- list_fmap_compose. apply list_fmap_ext. intros _ i _.
    cbn. do 3 f_equal. lia.
  - rewrite (Z.mod_small (_ - 1)) by done. lia.
Qed.

(** grind's random numbers have the full period: from any seed, the next 2^31 - 2 calls of
    rand() give every number from 0 to 2^31 - 3 exactly once, and then the same numbers come
    again in the same order. *)
Theorem rand_full_period (seed : Z) (n k : nat) (Hseed : 0 <= seed < 2 ^ 64) (Hn : Z.of_nat n = 0x7ffffffe) :
  draws n seed ≡ₚ seqZ 0 0x7ffffffe /\ draws (n + k) seed = draws n seed ++ draws k seed.
Proof.
  pose proof (Z.mod_pos_bound seed (M31 - 1) eq_refl) as Hm. destruct (G_onto (seed mod (M31 - 1) + 1)) as (a & Ha & E); [lia|].
  rewrite !(draws_powers _ seed a) by done. change 0x7ffffffe with (M31 - 1) in *. split.
  - apply NoDup_Permutation; [|apply NoDup_seqZ|].
    + apply NoDup_fmap_2_strong; [|apply NoDup_seq]. intros i j Hi%elem_of_seq Hj%elem_of_seq Eij.
      assert (G ^ (a + 1 + Z.of_nat i) mod M31 = G ^ (a + 1 + Z.of_nat j) mod M31) as H%G_inj by lia; [|lia..].
      apply add_mod_inj in H; lia.
    + intros v. rewrite list_elem_of_fmap, elem_of_seqZ. split.
      * intros (i & -> & Hi%elem_of_seq). rewrite Z.add_0_l. apply G_power_range. lia.
      * intros Hv. destruct (G_onto (v + 1)) as (b & Hb & Eb); [lia|]. pose proof (Z.mod_pos_bound (b - (a + 1)) (M31 - 1) eq_refl).
        exists (Z.to_nat ((b - (a + 1)) mod (M31 - 1))). rewrite Z2Nat.id, elem_of_seq by lia. split; [|lia].
        assert (G ^ (a + 1 + (b - (a + 1)) mod (M31 - 1)) mod M31 = G ^ b mod M31) as ->; [|lia].
        apply G_inj; [lia..|]. rewrite Z.add_mod_idemp_r by done. f_equal. lia.
  - rewrite seq_app, fmap_app. f_equal. replace (seq (0 + n) k) with (Nat.add n <$> seq 0 k) by (rewrite fmap_add_seq; f_equal; lia).
    rewrite <- list_fmap_compose.
    apply list_fmap_ext. intros _ i _. cbn. f_equal. apply G_inj; [lia..|]. rewrite Nat2Z.inj_add, Hn.
    replace (a + 1 + (M31 - 1 + Z.of_nat i)) with (a + 1 + Z.of_nat i + 1 * (M31 - 1)) by lia. by rewrite Z.mod_add.
Qed.

Lemma rand_full_period_witness :
  0 <= 31 < 2 ^ 64 /\ draws (Z.to_nat 0x7ffffffe) 31 ≡ₚ seqZ 0 0x7ffffffe.
Proof. split; [lia|]. apply (rand_full_period 31 (Z.to_nat 0x7ffffffe) 0); [lia|by apply Z2Nat.id]. Defined.

(** The twentieth number after the seed that stands for 1 *)
Example draw_20 : last (draws 20 0) = Some 143542611.
Proof. by vm_compute. Qed.
