(* ===== verification/Utests.v ===== *)
(** * Utests: the tests of the system calls

    Models user/forktest.c and user/stressfs.c, and of user/usertests.c the tests of files and of
    processes, each a function of the name it is run under; the others are in [Memtests].  A test
    that fails prints what went wrong and exits with 1.  Each test runs in a process of its
    own, so that the global buf[] is zero to begin with.

    Endless loops of children that wait to be killed do not come back; [fuel] bounds the
    loops that read to the end of a file. *)
From S2P Require Import Prelude Mem Bio Fs Sysfile Ulib Uprintf Cmds Grind.

(** #define BUFSZ  ((MAXOPBLOCKS+2)*BSIZE) *)
Definition BUFSZ : Z := (MAXOPBLOCKS + 2) * BSIZE.

Section Utests.
Context {S : Type} `{!Usys S} (junk : list Z).

#[local] Notation printf fmt ap := (Uprintf.printf junk fmt%string ap).
#[local] Notation exit := (u_exit unit).
#[local] Notation name := (list Z) (only parsing).

(** printf("%s: ...\n", s); exit(1); *)
Definition failed (s : name) (msg : string) : M S unit := printf ("%s: " ++ msg ++ nl) [AStr (Some s)] ;; exit 1.
(** printf("..."); exit(1); *)
Definition oops (msg : string) : M S unit := printf (msg ++ nl) [] ;; exit 1.

(** if(f(...) < 0){ ... } and if(f(...) != 0){ ... } *)
Definition not_neg (s : name) (m : M S Z) (msg : string) : M S unit := r <- m ;; when (r <? 0) (failed s msg).
Definition is_zero (s : name) (m : M S Z) (msg : string) : M S unit := r <- m ;; when (negb (r =? 0)) (failed s msg).
(** if(f(...) == 0){ ... } and if(f(...) >= 0){ ... } *)
Definition non_zero (s : name) (m : M S Z) (msg : string) : M S unit := r <- m ;; when (r =? 0) (failed s msg).
Definition is_neg (s : name) (m : M S Z) (msg : string) : M S unit := r <- m ;; when (0 <=? r) (failed s msg).
(** fd = open(path, mode); if(fd < 0){ ... } *)
Definition must_open (s : name) (path : name) (mode : Z) (msg : string) : M S Z :=
  fd <- u_open path mode ;; when (fd <? 0) (failed s msg) ;; ret fd.

Definition unlink (path : string) : M S unit := u_unlink (str path) ;; ret tt.
Definition close (fd : Z) : M S unit := u_close fd ;; ret tt.
(** write(fd, buf, n), whose result is not looked at *)
Definition write (fd : Z) (l : list Z) : M S unit := u_write fd l ;; ret tt.
(** wait(&xstatus); the variable has no value before. *)
Definition wait_status : M S Z := w <- u_wait_status ;; defined w.2.

Definition O_CRW : Z := Z.lor O_CREATE O_RDWR.
Definition O_CW : Z := Z.lor O_CREATE O_WRONLY.

(** pid = fork(); if(pid < 0){ ... } if(pid == 0){ child } *)
Definition fork_or (bad child : M S unit) : M S Z :=
  pid <- u_fork ;;
  when (pid <? 0) bad ;;
  when (pid =? 0) child ;;
  ret pid.

(** ** O_TRUNC *)

(** n = read(fd, buf, 32); if(n != want){ pre; ... } *)
Definition read_want (s : name) (fd want : Z) (pre : M S unit) : M S unit :=
  r <- u_read fd 32 ;;
  when (negb (r.1 =? want))
    (pre ;; printf ("%s: read %d bytes, wanted %d" ++ nl) [AStr (Some s); AInt r.1; AInt want] ;; exit 1).

Definition truncate1 (s : name) : M S unit :=
  unlink "truncfile" ;;
  fd1 <- u_open (str "truncfile") (Z.lor O_CW O_TRUNC) ;;
  write fd1 (str "abcd") ;;
  close fd1 ;;
  fd2 <- u_open (str "truncfile") O_RDONLY ;;
  read_want s fd2 4 (ret tt) ;;
  fd1 <- u_open (str "truncfile") (Z.lor O_WRONLY O_TRUNC) ;;
  fd3 <- u_open (str "truncfile") O_RDONLY ;;
  read_want s fd3 0 (printf ("aaa fd3=%d" ++ nl) [AInt fd3]) ;;
  read_want s fd2 0 (printf ("bbb fd2=%d" ++ nl) [AInt fd2]) ;;
  write fd1 (str "abcdef") ;;
  read_want s fd3 6 (ret tt) ;;
  read_want s fd2 2 (ret tt) ;;
  unlink "truncfile" ;;
  close fd1 ;; close fd2 ;; close fd3.

Definition truncate2 (s : name) : M S unit :=
  unlink "truncfile" ;;
  fd1 <- u_open (str "truncfile") (Z.lor (Z.lor O_CREATE O_TRUNC) O_WRONLY) ;;
  write fd1 (str "abcd") ;;
  fd2 <- u_open (str "truncfile") (Z.lor O_TRUNC O_WRONLY) ;;
  n <- u_write fd1 (str "x") ;;
  when (negb (n =? -1)) (printf ("%s: write returned %d, expected -1" ++ nl) [AStr (Some s); AInt n] ;; exit 1) ;;
  unlink "truncfile" ;;
  close fd1 ;; close fd2.

(** int n = write(fd, l, sizeof l); if(n != sizeof l){ ... } *)
Definition write_want (s : name) (fd : Z) (l : list Z) : M S unit :=
  n <- u_write fd l ;;
  when (negb (n =? Z.of_nat (length l)))
    (printf ("%s: write got %d, expected %d" ++ nl) [AStr (Some s); AInt n; AInt (Z.of_nat (length l))] ;; exit 1).

Definition truncate3 (s : name) : M S unit :=
  (fd <- u_open (str "truncfile") (Z.lor (Z.lor O_CREATE O_TRUNC) O_WRONLY) ;; close fd) ;;
  fork_or (failed s "fork failed") (
    for_each (seq 0 100) (fun _ =>
      fd <- must_open s (str "truncfile") O_WRONLY "open failed" ;;
      write_want s fd (str "1234567890") ;;
      close fd ;;
      fd <- u_open (str "truncfile") O_RDONLY ;;
      u_read fd 32 ;;
      close fd) ;;
    exit 0) ;;
  for_each (seq 0 150) (fun _ =>
    fd <- must_open s (str "truncfile") (Z.lor O_CW O_TRUNC) "open failed" ;;
    write_want s fd (str "xxx") ;;
    close fd) ;;
  xstatus <- wait_status ;;
  unlink "truncfile" ;;
  exit xstatus.

(** ** iput() in a transaction *)

Definition iputtest (s : name) : M S unit :=
  not_neg s (u_mkdir (str "iputdir")) "mkdir failed" ;;
  not_neg s (u_chdir (str "iputdir")) "chdir iputdir failed" ;;
  not_neg s (u_unlink (str "../iputdir")) "unlink ../iputdir failed" ;;
  not_neg s (u_chdir (str "/")) "chdir / failed".

Definition exitiputtest (s : name) : M S unit :=
  fork_or (failed s "fork failed") (
    not_neg s (u_mkdir (str "iputdir")) "mkdir failed" ;;
    not_neg s (u_chdir (str "iputdir")) "child chdir failed" ;;
    not_neg s (u_unlink (str "../iputdir")) "unlink ../iputdir failed" ;;
    exit 0) ;;
  xstatus <- wait_status ;;
  exit xstatus.

Definition openiputtest (s : name) : M S unit :=
  not_neg s (u_mkdir (str "oidir")) "mkdir oidir failed" ;;
  fork_or (failed s "fork failed") (
    is_neg s (u_open (str "oidir") O_RDWR) "open directory for write succeeded" ;;
    exit 0) ;;
  u_sleep 1 ;;
  is_zero s (u_unlink (str "oidir")) "unlink failed" ;;
  xstatus <- wait_status ;;
  exit xstatus.

(** ** Simple file system tests *)

Definition opentest (s : name) : M S unit :=
  fd <- must_open s (str "echo") 0 "open echo failed!" ;;
  close fd ;;
  is_neg s (u_open (str "doesnotexist") 0) "open doesnotexist succeeded!".

Definition writetest (s : name) : M S unit :=
  fd <- must_open s (str "small") O_CRW "error: creat small failed!" ;;
  for_each (seq 0 100) (fun i =>
    n <- u_write fd (str "aaaaaaaaaa") ;;
    when (negb (n =? 10))
      (printf ("%s: error: write aa %d new file failed" ++ nl) [AStr (Some s); AInt (Z.of_nat i)] ;; exit 1) ;;
    n <- u_write fd (str "bbbbbbbbbb") ;;
    when (negb (n =? 10))
      (printf ("%s: error: write bb %d new file failed" ++ nl) [AStr (Some s); AInt (Z.of_nat i)] ;; exit 1)) ;;
  close fd ;;
  fd <- must_open s (str "small") O_RDONLY "error: open small failed!" ;;
  r <- u_read fd 2000 ;;
  when (negb (r.1 =? 2000)) (failed s "read failed") ;;
  close fd ;;
  not_neg s (u_unlink (str "small")) "unlink small failed".

(** ((int* )buf)[0] *)
Definition int_bytes (i : Z) : list Z := [u8 i; u8 (i / 2 ^ 8); u8 (i / 2 ^ 16); u8 (i / 2 ^ 24)].
Definition read_le (l : list Z) : Z := foldr (fun b v => b + 2 ^ 8 * v) 0 l.

(** for(;;) of writebig: block after block of the file *)
Fixpoint writebig_loop (fuel : nat) (s : name) (fd n : Z) : M S unit :=
  match fuel with
  | O => fail EHang
  | Datatypes.S f =>
      r <- u_read fd BSIZE ;;
      let i := r.1 in
      if i =? 0 then
        when (n =? MAXFILE - 1) (printf "%s: read only %d blocks from big" [AStr (Some s); AInt n] ;; exit 1)
      else
        when (negb (i =? BSIZE)) (printf ("%s: read failed %d" ++ nl) [AStr (Some s); AInt i] ;; exit 1) ;;
        let found := i32 (read_le (take 4 r.2)) in
        when (negb (found =? n))
          (printf ("%s: read content of block %d is %d" ++ nl) [AStr (Some s); AInt n; AInt found] ;; exit 1) ;;
        writebig_loop f s fd (n + 1)
  end.

Definition writebig (fuel : nat) (s : name) : M S unit :=
  fd <- must_open s (str "big") O_CRW "error: creat big failed!" ;;
  for_each (seq 0 (Z.to_nat MAXFILE)) (fun i =>
    n <- u_write fd (int_bytes (Z.of_nat i) ++ replicate (Z.to_nat BSIZE - 4) 0) ;;
    when (negb (n =? BSIZE)) (failed s "error: write big file failed")) ;;
  close fd ;;
  fd <- must_open s (str "big") O_RDONLY "error: open big failed!" ;;
  writebig_loop fuel s fd 0 ;;
  close fd ;;
  not_neg s (u_unlink (str "big")) "unlink big failed".

(** name[0], name[1] *)
Definition name2 (c d : Z) : name := [u8 c; u8 d].

Definition createtest (s : name) : M S unit :=
  for_each (seq 0 52) (fun i => fd <- u_open (name2 97 (48 + Z.of_nat i)) O_CRW ;; close fd) ;;
  for_each (seq 0 52) (fun i => u_unlink (name2 97 (48 + Z.of_nat i)) ;; ret tt).

Definition dirtest (s : name) : M S unit :=
  not_neg s (u_mkdir (str "dir0")) "mkdir failed" ;;
  not_neg s (u_chdir (str "dir0")) "chdir dir0 failed" ;;
  not_neg s (u_chdir (str "..")) "chdir .. failed" ;;
  not_neg s (u_unlink (str "dir0")) "unlink dir0 failed".

Definition exectest (s : name) : M S unit :=
  unlink "echo-ok" ;;
  pid <- fork_or (failed s "fork failed") (
    close 1 ;;
    fd <- must_open s (str "echo-ok") O_CW "create failed" ;;
    when (negb (fd =? 1)) (failed s "wrong fd") ;;
    not_neg s (u_exec (str "echo") [str "echo"; str "OK"]) "exec echo failed") ;;
  w <- u_wait_status ;;
  when (negb (w.1 =? pid)) (printf ("%s: wait failed!" ++ nl) [AStr (Some s)]) ;;
  xstatus <- defined w.2 ;;
  when (negb (xstatus =? 0)) (exit xstatus) ;;
  fd <- must_open s (str "echo-ok") O_RDONLY "open failed" ;;
  r <- u_read fd 2 ;;
  when (negb (r.1 =? 2)) (failed s "read failed") ;;
  unlink "echo-ok" ;;
  if (nth 0 r.2 0 =? 79) && (nth 1 r.2 0 =? 75) then exit 0 else failed s "wrong output".

(** ** Processes *)

(** for(i = 0; i < n; i++) if((buf[i] & 0xff) != (seq++ & 0xff)) *)
Fixpoint in_sequence (l : list Z) (sq : Z) : bool :=
  match l with [] => true | b :: l' => (b =? u8 sq) && in_sequence l' (sq + 1) end.

(** while((n = read(fds[0], buf, cc)) > 0); [None] when pipe1() returns *)
Fixpoint pipe1_loop (fuel : nat) (s : name) (fd cc sq total : Z) : M S (option Z) :=
  match fuel with
  | O => fail EHang
  | Datatypes.S f =>
      r <- u_read fd cc ;;
      let n := r.1 in
      if n <=? 0 then ret (Some total) else
      if negb (in_sequence r.2 sq) then printf ("%s: pipe1 oops 2" ++ nl) [AStr (Some s)] ;; ret None else
      let cc := i32 (cc * 2) in
      pipe1_loop f s fd (if BUFSZ <? cc then BUFSZ else cc) (sq + n) (total + n)
  end.

Definition pipe1 (fuel : nat) (s : name) : M S unit :=
  p <- u_pipe ;;
  let '(r, fds0, fds1) := p in
  when (negb (r =? 0)) (failed s "pipe() failed") ;;
  pid <- u_fork ;;
  if pid =? 0 then
    close fds0 ;;
    for_each (seq 0 5) (fun n =>
      w <- u_write fds1 ((fun i => u8 (Z.of_nat (n * 1033 + i))) <$> seq 0 1033) ;;
      when (negb (w =? 1033)) (failed s "pipe1 oops 1")) ;;
    exit 0
  else if 0 <? pid then
    close fds1 ;;
    t <- pipe1_loop fuel s fds0 1 0 0 ;;
    match t with
    | None => ret tt
    | Some total =>
        (* the string is missing among the arguments *)
        when (negb (total =? 5 * 1033)) (printf ("%s: pipe1 oops 3 total %d" ++ nl) [AInt total] ;; exit 1) ;;
        close fds0 ;;
        xstatus <- wait_status ;;
        exit xstatus
    end
  else failed s "fork() failed".

(** for(;;) ; *)
Definition forever : M S unit := fail EHang.

Definition preempt (s : name) : M S unit :=
  pid1 <- fork_or (printf "%s: fork failed" [AStr (Some s)] ;; exit 1) forever ;;
  pid2 <- fork_or (failed s "fork failed") forever ;;
  p <- u_pipe ;;
  let '(_, pfds0, pfds1) := p in
  pid3 <- fork_or (failed s "fork failed") (
    close pfds0 ;;
    n <- u_write pfds1 (str "x") ;;
    when (negb (n =? 1)) (printf "%s: preempt write error" [AStr (Some s)]) ;;
    close pfds1 ;;
    forever) ;;
  close pfds1 ;;
  r <- u_read pfds0 BUFSZ ;;
  if negb (r.1 =? 1) then printf "%s: preempt read error" [AStr (Some s)] else
  close pfds0 ;;
  printf "kill... " [] ;;
  u_kill pid1 ;; u_kill pid2 ;; u_kill pid3 ;;
  printf "wait... " [] ;;
  u_wait ;; u_wait ;; u_wait ;; ret tt.

Definition exitwait (s : name) : M S unit :=
  for_each (seq 0 100) (fun i =>
    pid <- u_fork ;;
    when (pid <? 0) (failed s "fork failed") ;;
    if negb (pid =? 0) then
      w <- u_wait_status ;;
      when (negb (w.1 =? pid)) (failed s "wait wrong pid") ;;
      xstate <- defined w.2 ;;
      when (negb (Z.of_nat i =? xstate)) (failed s "wait wrong exit status")
    else exit (Z.of_nat i)).

Definition reparent (s : name) : M S unit :=
  master_pid <- u_getpid ;;
  for_each (seq 0 200) (fun _ =>
    pid <- u_fork ;;
    when (pid <? 0) (failed s "fork failed") ;;
    if negb (pid =? 0) then
      w <- u_wait ;;
      when (negb (w =? pid)) (failed s "wait wrong pid")
    else
      pid2 <- u_fork ;;
      when (pid2 <? 0) (u_kill master_pid ;; exit 1) ;;
      exit 0) ;;
  exit 0.

Definition twochildren (s : name) : M S unit :=
  for_each (seq 0 1000) (fun _ =>
    fork_or (failed s "fork failed") (exit 0) ;;
    fork_or (failed s "fork failed") (exit 0) ;;
    u_wait ;; u_wait ;; ret tt).

Definition forkfork (s : name) : M S unit :=
  for_each (seq 0 2) (fun _ =>
    fork_or (printf "%s: fork failed" [AStr (Some s)] ;; exit 1) (
      for_each (seq 0 200) (fun _ => fork_or (exit 1) (exit 0) ;; u_wait ;; ret tt) ;;
      exit 0) ;;
    ret tt) ;;
  for_each (seq 0 2) (fun _ =>
    xstatus <- wait_status ;;
    when (negb (xstatus =? 0)) (printf "%s: fork in child failed" [AStr (Some s)] ;; exit 1)).

(** while(1) of the child of forkforkfork *)
Fixpoint stopforking_loop (fuel : nat) : M S unit :=
  match fuel with
  | O => fail EHang
  | Datatypes.S f =>
      fd <- u_open (str "stopforking") 0 ;;
      when (0 <=? fd) (exit 0) ;;
      pid <- u_fork ;;
      when (pid <? 0) (fd <- u_open (str "stopforking") O_CRW ;; close fd) ;;
      stopforking_loop f
  end.

Definition forkforkfork (fuel : nat) (s : name) : M S unit :=
  unlink "stopforking" ;;
  fork_or (printf "%s: fork failed" [AStr (Some s)] ;; exit 1) (stopforking_loop fuel ;; exit 0) ;;
  u_sleep 20 ;;
  (fd <- u_open (str "stopforking") O_CRW ;; close fd) ;;
  u_wait ;;
  u_sleep 10 ;; ret tt.

Definition reparent2 (s : name) : M S unit :=
  for_each (seq 0 800) (fun _ =>
    fork_or (oops "fork failed") (u_fork ;; u_fork ;; exit 0) ;;
    u_wait ;; ret tt) ;;
  exit 0.

(** ** More file system tests *)

(** while((n = read(fd, buf, sizeof(buf))) > 0), counting over all ten bytes of buf *)
Fixpoint sharedfd_loop (fuel : nat) (fd : Z) (buf : list Z) (nc np : Z) : M S (Z * Z) :=
  match fuel with
  | O => fail EHang
  | Datatypes.S f =>
      r <- u_read fd 10 ;;
      if r.1 <=? 0 then ret (nc, np) else
      let buf := r.2 ++ drop (length r.2) buf in
      let count c := Z.of_nat (length (filter (fun b => b = c) buf)) in
      sharedfd_loop f fd buf (nc + count 99) (np + count 112)
  end.

Definition sharedfd (fuel : nat) (s : name) : M S unit :=
  unlink "sharedfd" ;;
  fd <- u_open (str "sharedfd") O_CRW ;;
  when (fd <? 0) (printf "%s: cannot open sharedfd for writing" [AStr (Some s)] ;; exit 1) ;;
  pid <- u_fork ;;
  let buf := replicate 10 (if pid =? 0 then 99 else 112) in
  for_each (seq 0 1000) (fun _ =>
    n <- u_write fd buf ;; when (negb (n =? 10)) (failed s "write sharedfd failed")) ;;
  (if pid =? 0 then exit 0 else
   xstatus <- wait_status ;;
   when (negb (xstatus =? 0)) (exit xstatus)) ;;
  close fd ;;
  fd <- must_open s (str "sharedfd") 0 "cannot open sharedfd for reading" ;;
  r <- sharedfd_loop fuel fd buf 0 0 ;;
  close fd ;;
  unlink "sharedfd" ;;
  if (r.1 =? 1000 * 10) && (r.2 =? 1000 * 10) then exit 0 else failed s "nc/np test fails".

(** while((n = read(fd, buf, sizeof(buf))) > 0) of fourfiles *)
Fixpoint fourfiles_loop (fuel : nat) (fd c total : Z) : M S Z :=
  match fuel with
  | O => fail EHang
  | Datatypes.S f =>
      r <- u_read fd BUFSZ ;;
      if r.1 <=? 0 then ret total else
      when (negb (forallb (fun b => b =? c) r.2)) (oops "wrong char") ;;
      fourfiles_loop f fd c (total + r.1)
  end.

Definition fourfiles (fuel : nat) (s : name) : M S unit :=
  let names i := name2 102 (48 + Z.of_nat i) in
  for_each (seq 0 4) (fun pi =>
    u_unlink (names pi) ;;
    fork_or (oops "fork failed") (
      fd <- u_open (names pi) O_CRW ;;
      when (fd <? 0) (oops "create failed") ;;
      for_each (seq 0 12) (fun _ =>
        n <- u_write fd (replicate 500 (48 + Z.of_nat pi)) ;;
        when (negb (n =? 500)) (printf ("write failed %d" ++ nl) [AInt n] ;; exit 1)) ;;
      exit 0) ;;
    ret tt) ;;
  for_each (seq 0 4) (fun _ => xstatus <- wait_status ;; when (negb (xstatus =? 0)) (exit xstatus)) ;;
  for_each (seq 0 4) (fun i =>
    fd <- u_open (names i) 0 ;;
    total <- fourfiles_loop fuel fd (48 + Z.of_nat i) 0 ;;
    close fd ;;
    when (negb (total =? 12 * 500)) (printf ("wrong length %d" ++ nl) [AInt total] ;; exit 1) ;;
    u_unlink (names i) ;; ret tt).

(** One child of createdelete *)
Definition createdelete_child (s : name) (pi : nat) : M S unit :=
  let p := 112 + Z.of_nat pi in
  for_each (seq 0 20) (fun i =>
    fd <- must_open s (name2 p (48 + Z.of_nat i)) O_CRW "create failed" ;;
    close fd ;;
    when ((0 <? i)%nat && Nat.even i)
      (not_neg s (u_unlink (name2 p (48 + Z.of_nat i / 2))) "unlink failed")) ;;
  exit 0.

Definition createdelete (s : name) : M S unit :=
  for_each (seq 0 4) (fun pi => fork_or (oops "fork failed") (createdelete_child s pi) ;; ret tt) ;;
  for_each (seq 0 4) (fun _ => xstatus <- wait_status ;; when (negb (xstatus =? 0)) (exit 1)) ;;
  for_each (seq 0 20) (fun i => for_each (seq 0 4) (fun pi =>
    let file := name2 (112 + Z.of_nat pi) (48 + Z.of_nat i) in
    fd <- u_open file 0 ;;
    (if ((i =? 0)%nat || (10 <=? i)%nat) && (fd <? 0) then
       printf ("%s: oops createdelete %s didn't exist" ++ nl) [AStr (Some s); AStr (Some file)] ;; exit 1
     else when ((1 <=? i)%nat && (i <? 10)%nat && (0 <=? fd))
       (printf ("%s: oops createdelete %s did exist" ++ nl) [AStr (Some s); AStr (Some file)] ;; exit 1)) ;;
    when (0 <=? fd) (close fd))) ;;
  for_each (seq 0 20) (fun i => for_each (seq 0 4) (fun _ =>
    u_unlink (name2 (112 + Z.of_nat i) (48 + Z.of_nat i)) ;; ret tt)).

Definition unlinkread (s : name) : M S unit :=
  fd <- must_open s (str "unlinkread") O_CRW "create unlinkread failed" ;;
  write fd (str "hello") ;;
  close fd ;;
  fd <- must_open s (str "unlinkread") O_RDWR "open unlinkread failed" ;;
  is_zero s (u_unlink (str "unlinkread")) "unlink unlinkread failed" ;;
  fd1 <- u_open (str "unlinkread") O_CRW ;;
  write fd1 (str "yyy") ;;
  close fd1 ;;
  r <- u_read fd BUFSZ ;;
  when (negb (r.1 =? 5)) (printf "%s: unlinkread read failed" [AStr (Some s)] ;; exit 1) ;;
  when (negb (nth 0 r.2 0 =? 104)) (failed s "unlinkread wrong data") ;;
  n <- u_write fd (r.2 ++ replicate (10 - length r.2) 0) ;;
  when (negb (n =? 10)) (failed s "unlinkread write failed") ;;
  close fd ;;
  unlink "unlinkread".

Definition linktest (s : name) : M S unit :=
  unlink "lf1" ;;
  unlink "lf2" ;;
  fd <- must_open s (str "lf1") O_CRW "create lf1 failed" ;;
  n <- u_write fd (str "hello") ;;
  when (negb (n =? 5)) (failed s "write lf1 failed") ;;
  close fd ;;
  not_neg s (u_link (str "lf1") (str "lf2")) "link lf1 lf2 failed" ;;
  unlink "lf1" ;;
  is_neg s (u_open (str "lf1") 0) "unlinked lf1 but it is still there!" ;;
  fd <- must_open s (str "lf2") 0 "open lf2 failed" ;;
  r <- u_read fd BUFSZ ;;
  when (negb (r.1 =? 5)) (failed s "read lf2 failed") ;;
  close fd ;;
  is_neg s (u_link (str "lf2") (str "lf2")) "link lf2 lf2 succeeded! oops" ;;
  unlink "lf2" ;;
  is_neg s (u_link (str "lf2") (str "lf1")) "link non-existent succeeded! oops" ;;
  is_neg s (u_link (str ".") (str "lf1")) "link . lf1 succeeded! oops".

(** while(read(fd, &de, sizeof(de)) > 0) of concreate: which of the files are there, and how many *)
Fixpoint concreate_loop (fuel : nat) (s : name) (fd : Z) (fa : list bool) (n : Z) : M S Z :=
  match fuel with
  | O => fail EHang
  | Datatypes.S f =>
      r <- u_read fd 16 ;;
      if r.1 <=? 0 then ret n else
      let file := drop 2 r.2 in
      if read_le (take 2 r.2) =? 0 then concreate_loop f s fd fa n else
      if (nth 0 file 0 =? 67) && (nth 2 file 0 =? 0) then
        let i := nth 1 file 0 - 48 in
        when ((i <? 0) || (40 <=? i))
          (printf ("%s: concreate weird file %s" ++ nl) [AStr (Some s); AStr (Some (c_string file))] ;; exit 1) ;;
        seen <- aget fa i ;;
        when seen (printf ("%s: concreate duplicate file %s" ++ nl) [AStr (Some s); AStr (Some (c_string file))] ;; exit 1) ;;
        fa <- aset fa i true ;;
        concreate_loop f s fd fa (n + 1)
      else concreate_loop f s fd fa n
  end.

Definition concreate (fuel : nat) (s : name) : M S unit :=
  let file i := name2 67 (48 + Z.of_nat i) in
  for_each (seq 0 40) (fun i =>
    u_unlink (file i) ;;
    pid <- u_fork ;;
    (if negb (pid =? 0) && (i mod 3 =? 1)%nat then u_link (str "C0") (file i) ;; ret tt
     else if (pid =? 0) && (i mod 5 =? 1)%nat then u_link (str "C0") (file i) ;; ret tt
     else
       fd <- u_open (file i) O_CRW ;;
       when (fd <? 0) (printf ("concreate create %s failed" ++ nl) [AStr (Some (file i))] ;; exit 1) ;;
       close fd) ;;
    if pid =? 0 then exit 0 else
    xstatus <- wait_status ;;
    when (negb (xstatus =? 0)) (exit 1)) ;;
  fd <- u_open (str ".") 0 ;;
  n <- concreate_loop fuel s fd (replicate 40 false) 0 ;;
  close fd ;;
  when (negb (n =? 40)) (failed s "concreate not enough files in directory listing") ;;
  for_each (seq 0 40) (fun i =>
    pid <- u_fork ;;
    when (pid <? 0) (failed s "fork failed") ;;
    for_each (seq 0 6) (fun _ =>
      if ((i mod 3 =? 0)%nat && (pid =? 0)) || ((i mod 3 =? 1)%nat && negb (pid =? 0))
      then fd <- u_open (file i) 0 ;; close fd
      else u_unlink (file i) ;; ret tt) ;;
    if pid =? 0 then exit 0 else u_wait ;; ret tt).

(** The loop of linkunlink; [x] is an unsigned int. *)
Fixpoint linkunlink_loop (k : nat) (x : Z) : M S unit :=
  match k with
  | O => ret tt
  | Datatypes.S k' =>
      let x := u32 (x * 1103515245 + 12345) in
      (if x mod 3 =? 0 then fd <- u_open (str "x") O_CRW ;; close fd
       else if x mod 3 =? 1 then u_link (str "cat") (str "x") ;; ret tt
       else unlink "x") ;;
      linkunlink_loop k' x
  end.

Definition linkunlink (s : name) : M S unit :=
  unlink "x" ;;
  pid <- u_fork ;;
  when (pid <? 0) (failed s "fork failed") ;;
  linkunlink_loop 100 (if negb (pid =? 0) then 1 else 97) ;;
  if negb (pid =? 0) then u_wait ;; ret tt else exit 0.

Definition bigdir (s : name) : M S unit :=
  let file i := [120; 48 + Z.of_nat i / 64; 48 + Z.of_nat i mod 64] in
  unlink "bd" ;;
  fd <- must_open s (str "bd") O_CREATE "bigdir create failed" ;;
  close fd ;;
  for_each (seq 0 500) (fun i =>
    r <- u_link (str "bd") (file i) ;;
    when (negb (r =? 0)) (printf ("%s: bigdir link(bd, %s) failed" ++ nl) [AStr (Some s); AStr (Some (file i))] ;; exit 1)) ;;
  unlink "bd" ;;
  for_each (seq 0 500) (fun i =>
    r <- u_unlink (file i) ;;
    when (negb (r =? 0)) (printf "%s: bigdir unlink failed" [AStr (Some s)] ;; exit 1)).

(** open(path, mode) for a file that must not be there, or must not be opened like that *)
Definition no_open (s : name) (path : string) (mode : Z) (msg : string) : M S unit := is_neg s (u_open (str path) mode) msg.

(** The three parts of subdir: building the tree, what must fail, and taking it down *)
Definition subdir_build (s : name) : M S unit :=
  unlink "ff" ;;
  is_zero s (u_mkdir (str "dd")) "mkdir dd failed" ;;
  fd <- must_open s (str "dd/ff") O_CRW "create dd/ff failed" ;;
  write fd (str "ff") ;;
  close fd ;;
  is_neg s (u_unlink (str "dd")) "unlink dd (non-empty dir) succeeded!" ;;
  (r <- u_mkdir (str "/dd/dd") ;; when (negb (r =? 0)) (oops "subdir mkdir dd/dd failed")) ;;
  fd <- must_open s (str "dd/dd/ff") O_CRW "create dd/dd/ff failed" ;;
  write fd (str "FF") ;;
  close fd ;;
  fd <- must_open s (str "dd/dd/../ff") 0 "open dd/dd/../ff failed" ;;
  r <- u_read fd BUFSZ ;;
  when (negb (r.1 =? 2) || negb (nth 0 r.2 0 =? 102)) (failed s "dd/dd/../ff wrong content") ;;
  close fd ;;
  (r <- u_link (str "dd/dd/ff") (str "dd/dd/ffff") ;; when (negb (r =? 0)) (oops "link dd/dd/ff dd/dd/ffff failed")) ;;
  is_zero s (u_unlink (str "dd/dd/ff")) "unlink dd/dd/ff failed" ;;
  no_open s "dd/dd/ff" O_RDONLY "open (unlinked) dd/dd/ff succeeded" ;;
  is_zero s (u_chdir (str "dd")) "chdir dd failed" ;;
  is_zero s (u_chdir (str "dd/../../dd")) "chdir dd/../../dd failed" ;;
  (r <- u_chdir (str "dd/../../../dd") ;; when (negb (r =? 0)) (oops "chdir dd/../../dd failed")) ;;
  is_zero s (u_chdir (str "./..")) "chdir ./.. failed" ;;
  fd <- must_open s (str "dd/dd/ffff") 0 "open dd/dd/ffff failed" ;;
  r <- u_read fd BUFSZ ;;
  when (negb (r.1 =? 2)) (failed s "read dd/dd/ffff wrong len") ;;
  close fd.

Definition subdir_refused (s : name) : M S unit :=
  no_open s "dd/dd/ff" O_RDONLY "open (unlinked) dd/dd/ff succeeded!" ;;
  no_open s "dd/ff/ff" O_CRW "create dd/ff/ff succeeded!" ;;
  no_open s "dd/xx/ff" O_CRW "create dd/xx/ff succeeded!" ;;
  no_open s "dd" O_CREATE "create dd succeeded!" ;;
  no_open s "dd" O_RDWR "open dd rdwr succeeded!" ;;
  no_open s "dd" O_WRONLY "open dd wronly succeeded!" ;;
  non_zero s (u_link (str "dd/ff/ff") (str "dd/dd/xx")) "link dd/ff/ff dd/dd/xx succeeded!" ;;
  non_zero s (u_link (str "dd/xx/ff") (str "dd/dd/xx")) "link dd/xx/ff dd/dd/xx succeeded!" ;;
  non_zero s (u_link (str "dd/ff") (str "dd/dd/ffff")) "link dd/ff dd/dd/ffff succeeded!" ;;
  non_zero s (u_mkdir (str "dd/ff/ff")) "mkdir dd/ff/ff succeeded!" ;;
  non_zero s (u_mkdir (str "dd/xx/ff")) "mkdir dd/xx/ff succeeded!" ;;
  non_zero s (u_mkdir (str "dd/dd/ffff")) "mkdir dd/dd/ffff succeeded!" ;;
  non_zero s (u_unlink (str "dd/xx/ff")) "unlink dd/xx/ff succeeded!" ;;
  non_zero s (u_unlink (str "dd/ff/ff")) "unlink dd/ff/ff succeeded!" ;;
  non_zero s (u_chdir (str "dd/ff")) "chdir dd/ff succeeded!" ;;
  non_zero s (u_chdir (str "dd/xx")) "chdir dd/xx succeeded!".

Definition subdir_remove (s : name) : M S unit :=
  is_zero s (u_unlink (str "dd/dd/ffff")) "unlink dd/dd/ff failed" ;;
  is_zero s (u_unlink (str "dd/ff")) "unlink dd/ff failed" ;;
  non_zero s (u_unlink (str "dd")) "unlink non-empty dd succeeded!" ;;
  not_neg s (u_unlink (str "dd/dd")) "unlink dd/dd failed" ;;
  not_neg s (u_unlink (str "dd")) "unlink dd failed".

Definition subdir (s : name) : M S unit := subdir_build s ;; subdir_refused s ;; subdir_remove s.

(** int cc = write(fd, buf, sz); if(cc != sz){ ... } *)
Definition write_all (s : name) (fd sz : Z) : M S unit :=
  cc <- u_write fd (replicate (Z.to_nat sz) 0) ;;
  when (negb (cc =? sz)) (printf ("%s: write(%d) ret %d" ++ nl) [AStr (Some s); AInt sz; AInt cc] ;; exit 1).

(** for(sz = 499; sz < (MAXOPBLOCKS+2)*BSIZE; sz += 471), 26 rounds *)
Definition bigwrite (s : name) : M S unit :=
  unlink "bigwrite" ;;
  for_each (seq 0 26) (fun k =>
    let sz := 499 + 471 * Z.of_nat k in
    fd <- must_open s (str "bigwrite") O_CRW "cannot create bigwrite" ;;
    write_all s fd sz ;; write_all s fd sz ;;
    close fd ;;
    unlink "bigwrite").

Definition manywrites (s : name) : M S unit :=
  for_each (seq 0 4) (fun ci =>
    fork_or (oops "fork failed") (
      let file := name2 98 (97 + Z.of_nat ci) in
      u_unlink file ;;
      for_each (seq 0 30) (fun _ =>
        for_each (seq 0 (ci + 1)) (fun _ =>
          fd <- u_open file O_CRW ;;
          when (fd <? 0) (printf ("%s: cannot create %s" ++ nl) [AStr (Some s); AStr (Some file)] ;; exit 1) ;;
          write_all s fd BUFSZ ;;
          close fd) ;;
        u_unlink file ;; ret tt) ;;
      u_unlink file ;;
      exit 0) ;;
    ret tt) ;;
  for_each (seq 0 4) (fun _ =>
    w <- u_wait_status ;;
    let st := default 0 w.2 in
    when (negb (st =? 0)) (exit st)) ;;
  exit 0.

(** for(i = 0; ; i++) of bigfile *)
Fixpoint bigfile_loop (fuel : nat) (s : name) (fd i total : Z) : M S Z :=
  match fuel with
  | O => fail EHang
  | Datatypes.S f =>
      r <- u_read fd 300 ;;
      let cc := r.1 in
      when (cc <? 0) (failed s "read bigfile failed") ;;
      if cc =? 0 then ret total else
      when (negb (cc =? 300)) (failed s "short read bigfile") ;;
      when (negb (nth 0 r.2 0 =? i / 2) || negb (nth 299 r.2 0 =? i / 2)) (failed s "read bigfile wrong data") ;;
      bigfile_loop f s fd (i + 1) (total + cc)
  end.

Definition bigfile (fuel : nat) (s : name) : M S unit :=
  unlink "bigfile.dat" ;;
  fd <- u_open (str "bigfile.dat") O_CRW ;;
  when (fd <? 0) (printf "%s: cannot create bigfile" [AStr (Some s)] ;; exit 1) ;;
  for_each (seq 0 20) (fun i =>
    n <- u_write fd (replicate 600 (Z.of_nat i)) ;;
    when (negb (n =? 600)) (failed s "write bigfile failed")) ;;
  close fd ;;
  fd <- must_open s (str "bigfile.dat") 0 "cannot open bigfile" ;;
  total <- bigfile_loop fuel s fd 0 0 ;;
  close fd ;;
  when (negb (total =? 20 * 600)) (failed s "read bigfile wrong total") ;;
  unlink "bigfile.dat".

Definition fourteen (s : name) : M S unit :=
  is_zero s (u_mkdir (str "12345678901234")) "mkdir 12345678901234 failed" ;;
  is_zero s (u_mkdir (str "12345678901234/123456789012345")) "mkdir 12345678901234/123456789012345 failed" ;;
  fd <- must_open s (str "123456789012345/123456789012345/123456789012345") O_CREATE
    "create 123456789012345/123456789012345/123456789012345 failed" ;;
  close fd ;;
  fd <- must_open s (str "12345678901234/12345678901234/12345678901234") 0
    "open 12345678901234/12345678901234/12345678901234 failed" ;;
  close fd ;;
  non_zero s (u_mkdir (str "12345678901234/12345678901234")) "mkdir 12345678901234/12345678901234 succeeded!" ;;
  non_zero s (u_mkdir (str "123456789012345/12345678901234")) "mkdir 12345678901234/123456789012345 succeeded!" ;;
  unlink "123456789012345/12345678901234" ;;
  unlink "12345678901234/12345678901234" ;;
  unlink "12345678901234/12345678901234/12345678901234" ;;
  unlink "123456789012345/123456789012345/123456789012345" ;;
  unlink "12345678901234/123456789012345" ;;
  unlink "12345678901234".

Definition rmdot (s : name) : M S unit :=
  is_zero s (u_mkdir (str "dots")) "mkdir dots failed" ;;
  is_zero s (u_chdir (str "dots")) "chdir dots failed" ;;
  non_zero s (u_unlink (str ".")) "rm . worked!" ;;
  non_zero s (u_unlink (str "..")) "rm .. worked!" ;;
  is_zero s (u_chdir (str "/")) "chdir / failed" ;;
  non_zero s (u_unlink (str "dots/.")) "unlink dots/. worked!" ;;
  non_zero s (u_unlink (str "dots/..")) "unlink dots/.. worked!" ;;
  is_zero s (u_unlink (str "dots")) "unlink dots failed!".

Definition dirfile (s : name) : M S unit :=
  fd <- must_open s (str "dirfile") O_CREATE "create dirfile failed" ;;
  close fd ;;
  non_zero s (u_chdir (str "dirfile")) "chdir dirfile succeeded!" ;;
  no_open s "dirfile/xx" 0 "create dirfile/xx succeeded!" ;;
  no_open s "dirfile/xx" O_CREATE "create dirfile/xx succeeded!" ;;
  non_zero s (u_mkdir (str "dirfile/xx")) "mkdir dirfile/xx succeeded!" ;;
  non_zero s (u_unlink (str "dirfile/xx")) "unlink dirfile/xx succeeded!" ;;
  non_zero s (u_link (str "README") (str "dirfile/xx")) "link to dirfile/xx succeeded!" ;;
  is_zero s (u_unlink (str "dirfile")) "unlink dirfile failed!" ;;
  no_open s "." O_RDWR "open . for writing succeeded!" ;;
  fd <- u_open (str ".") 0 ;;
  n <- u_write fd (str "x") ;;
  when (0 <? n) (failed s "write . succeeded!") ;;
  close fd.

(** fd = open(path, O_CREATE); if(fd >= 0) close(fd); *)
Definition create_close (path : string) : M S unit := fd <- u_open (str path) O_CREATE ;; when (0 <=? fd) (close fd).

Definition iref (s : name) : M S unit :=
  for_each (seq 0 (NINODE + 1)) (fun _ =>
    is_zero s (u_mkdir (str "irefd")) "mkdir irefd failed" ;;
    is_zero s (u_chdir (str "irefd")) "chdir irefd failed" ;;
    u_mkdir (str "") ;;
    u_link (str "README") (str "") ;;
    create_close "" ;;
    create_close "xx" ;;
    unlink "xx") ;;
  for_each (seq 0 (NINODE + 1)) (fun _ => u_chdir (str "..") ;; unlink "irefd") ;;
  u_chdir (str "/") ;; ret tt.

(** ** Limits *)

(** for(n=0; n<N; n++) of the fork tests: how many children there are *)
Fixpoint fork_many (k : nat) (n : Z) : M S Z :=
  match k with
  | O => ret n
  | Datatypes.S k' =>
      pid <- u_fork ;;
      if pid <? 0 then ret n else
      when (pid =? 0) (exit 0) ;;
      fork_many k' (n + 1)
  end.

Definition forktest (s : name) : M S unit :=
  n <- fork_many 1000 0 ;;
  when (n =? 0) (failed s "no fork at all!") ;;
  when (n =? 1000) (failed s "fork claimed to work 1000 times!") ;;
  for_each (seq 0 (Z.to_nat n)) (fun _ => not_neg s u_wait "wait stopped early") ;;
  w <- u_wait ;;
  when (negb (w =? -1)) (failed s "wait got too many").

Definition bigargtest (s : name) : M S unit :=
  unlink "bigarg-ok" ;;
  pid <- u_fork ;;
  (if pid =? 0 then
     let arg := str ("bigargs test: failed" ++ nl) ++ replicate 199 32 in
     u_exec (str "echo") (replicate (MAXARG - 1) arg) ;;
     fd <- u_open (str "bigarg-ok") O_CREATE ;;
     close fd ;;
     exit 0
   else when (pid <? 0) (failed s "bigargtest: fork failed")) ;;
  xstatus <- wait_status ;;
  when (negb (xstatus =? 0)) (exit xstatus) ;;
  fd <- must_open s (str "bigarg-ok") 0 "bigarg test failed!" ;;
  close fd.

(** "f0000" and so on *)
Definition fsfull_name (nfiles : Z) : name :=
  [102; u8 (48 + nfiles / 1000); 48 + nfiles mod 1000 / 100; 48 + nfiles mod 100 / 10; 48 + nfiles mod 10].

(** while(1){ cc = write(fd, buf, BSIZE); ... } *)
Fixpoint fill_file (fuel : nat) (fd total : Z) : M S Z :=
  match fuel with
  | O => fail EHang
  | Datatypes.S f =>
      cc <- u_write fd (replicate (Z.to_nat BSIZE) 0) ;;
      if cc <? BSIZE then ret total else fill_file f fd (total + cc)
  end.

(** for(nfiles = 0; ; nfiles++) *)
Fixpoint fsfull_loop (fuel : nat) (nfiles : Z) : M S Z :=
  match fuel with
  | O => fail EHang
  | Datatypes.S f =>
      let file := fsfull_name nfiles in
      printf ("writing %s" ++ nl) [AStr (Some file)] ;;
      fd <- u_open file O_CRW ;;
      if fd <? 0 then printf ("open %s failed" ++ nl) [AStr (Some file)] ;; ret nfiles else
      total <- fill_file fuel fd 0 ;;
      printf ("wrote %d bytes" ++ nl) [AInt total] ;;
      close fd ;;
      if total =? 0 then ret nfiles else fsfull_loop f (nfiles + 1)
  end.

Definition fsfull (fuel : nat) : M S unit :=
  printf ("fsfull test" ++ nl) [] ;;
  nfiles <- fsfull_loop fuel 0 ;;
  for_each (rev (seq 0 (Z.to_nat nfiles + 1))) (fun i => u_unlink (fsfull_name (Z.of_nat i)) ;; ret tt) ;;
  printf ("fsfull test finished" ++ nl) [].

(** ** user/forktest.c *)

Definition print (s : string) : M S unit := u_write 1 (str s) ;; ret tt.

Definition forktest_program : M S unit :=
  print ("fork test" ++ nl) ;;
  n <- fork_many 1000 0 ;;
  when (n =? 1000) (print ("fork claimed to work N times!" ++ nl) ;; exit 1) ;;
  for_each (seq 0 (Z.to_nat n)) (fun _ =>
    w <- u_wait ;; when (w <? 0) (print ("wait stopped early" ++ nl) ;; exit 1)) ;;
  w <- u_wait ;;
  when (negb (w =? -1)) (print ("wait got too many" ++ nl) ;; exit 1) ;;
  print ("fork test OK" ++ nl).

Definition forktest_main : M S unit := forktest_program ;; exit 0.

(** ** user/stressfs.c *)

(** for(i = 0; i < 4; i++) if(fork() > 0) break; *)
Fixpoint stress_fork (k : nat) (i : Z) : M S Z :=
  match k with
  | O => ret i
  | Datatypes.S k' => pid <- u_fork ;; if 0 <? pid then ret i else stress_fork k' (i + 1)
  end.

Definition stressfs_main : M S unit :=
  printf ("stressfs starting" ++ nl) [] ;;
  let data := replicate 512 97 in
  i <- stress_fork 4 0 ;;
  printf ("write %d" ++ nl) [AInt i] ;;
  let path := str "stressfs" ++ [48 + i] in
  fd <- u_open path O_CRW ;;
  for_each (seq 0 20) (fun _ => write fd data) ;;
  close fd ;;
  printf ("read" ++ nl) [] ;;
  fd <- u_open path O_RDONLY ;;
  for_each (seq 0 20) (fun _ => u_read fd 512 ;; ret tt) ;;
  close fd ;;
  u_wait ;;
  exit 0.
End Utests.
