(* ===== verification/Memtests.v ===== *)
(** * Memtests: the tests of a program's memory

    The tests of user/usertests.c that hand bad pointers to the kernel, that look at their own
    memory, or that use it up.  What they need beyond [Usys], the memory itself and calls with an
    address for an argument, is the class [Umem].  An access that faults kills the process.
    Addresses are 64 bits.  run() and main() are
    here too, with the table of the tests. *)
From S2P Require Import Prelude Mem Kalloc Vm Bio Fs Sysfile Ulib Uprintf Cmds Grind Utests.

(** A string for a system call: a constant of the program, or an address *)
Inductive cstring : Type := Lit (s : list Z) | At (a : Z).

Class Umem (S : Type) := {
  m_load : Z -> M S Z;                       (* *(char * )a *)
  m_store : Z -> Z -> M S unit;
  m_loadp : Z -> M S Z;                      (* *(char ** )a *)
  m_storep : Z -> Z -> M S unit;
  m_sp : M S Z;                              (* r_sp() *)
  m_malloc : Z -> M S Z;
  m_free : Z -> M S unit;
  m_write : Z -> Z -> Z -> M S Z;            (* write(fd, a, n) *)
  m_read : Z -> Z -> Z -> M S Z;
  m_pipe : Z -> M S Z;
  m_open : cstring -> Z -> M S Z;
  m_unlink : cstring -> M S Z;
  m_link : cstring -> cstring -> M S Z;
  m_exec : cstring -> list cstring -> M S Z;
}.

Section Memtests.
Context {S : Type} `{!Usys S} `{!Umem S} (junk : list Z).

#[local] Notation printf fmt ap := (Uprintf.printf junk fmt%string ap).
#[local] Notation exit := (u_exit unit).
#[local] Notation name := (list Z) (only parsing).
#[local] Notation failed := (failed junk).
#[local] Notation oops := (oops junk).
#[local] Notation must_open := (must_open junk).
#[local] Notation fork_or := Utests.fork_or.

(** (char* )0xffffffffffffffffL, and sbrk() as a pointer *)
Definition NOMEM : Z := 0xffffffffffffffff.
Definition sbrk (n : Z) : M S Z := a <- u_sbrk (i32 n) ;; ret (u64 a).

(** uint64 addrs[] *)
Definition bad_addrs : list Z := [0x80000000; 0xffffffffffffffff].
Definition each_bad (body : Z -> M S unit) : M S unit := for_each (seq 0 2) (fun ai => body (nth ai bad_addrs 0)).

(** int fds[2]; if(pipe(fds) < 0){ ... } *)
Definition must_pipe : M S (Z * Z) :=
  p <- u_pipe ;;
  let '(r, fds0, fds1) := p in
  when (r <? 0) (oops "pipe() failed") ;;
  ret (fds0, fds1).

(** ** copyin(), copyout(), copyinstr() *)

Definition copyin (s : name) : M S unit :=
  each_bad (fun addr =>
    fd <- u_open (str "copyin1") O_CW ;;
    when (fd <? 0) (oops "open(copyin1) failed") ;;
    n <- m_write fd addr 8192 ;;
    when (0 <=? n) (printf ("write(fd, %p, 8192) returned %d, not -1" ++ nl) [ALong addr; AInt n] ;; exit 1) ;;
    close fd ;;
    unlink "copyin1" ;;
    n <- m_write 1 addr 8192 ;;
    when (0 <? n) (printf ("write(1, %p, 8192) returned %d, not -1 or 0" ++ nl) [ALong addr; AInt n] ;; exit 1) ;;
    fds <- must_pipe ;;
    n <- m_write fds.2 addr 8192 ;;
    when (0 <? n) (printf ("write(pipe, %p, 8192) returned %d, not -1 or 0" ++ nl) [ALong addr; AInt n] ;; exit 1) ;;
    close fds.1 ;;
    close fds.2).

Definition copyout (s : name) : M S unit :=
  each_bad (fun addr =>
    fd <- u_open (str "README") 0 ;;
    when (fd <? 0) (oops "open(README) failed") ;;
    n <- m_read fd addr 8192 ;;
    when (0 <? n) (printf ("read(fd, %p, 8192) returned %d, not -1 or 0" ++ nl) [ALong addr; AInt n] ;; exit 1) ;;
    close fd ;;
    fds <- must_pipe ;;
    n <- u_write fds.2 (str "x") ;;
    when (negb (n =? 1)) (oops "pipe write failed") ;;
    n <- m_read fds.1 addr 8192 ;;
    when (0 <? n) (printf ("read(pipe, %p, 8192) returned %d, not -1 or 0" ++ nl) [ALong addr; AInt n] ;; exit 1) ;;
    close fds.1 ;;
    close fds.2).

Definition copyinstr1 (s : name) : M S unit :=
  each_bad (fun addr =>
    fd <- m_open (At addr) O_CW ;;
    when (0 <=? fd) (printf ("open(%p) returned %d, not -1" ++ nl) [ALong addr; AInt fd] ;; exit 1)).

(** The four calls of copyinstr2 and copyinstr3 with a string [b], shown as [text] *)
Definition bad_string (b : cstring) (text : list Z) : M S unit :=
  ret' <- m_unlink b ;;
  when (negb (ret' =? -1)) (printf ("unlink(%s) returned %d, not -1" ++ nl) [AStr (Some text); AInt ret'] ;; exit 1) ;;
  fd <- m_open b O_CW ;;
  when (negb (fd =? -1)) (printf ("open(%s) returned %d, not -1" ++ nl) [AStr (Some text); AInt fd] ;; exit 1) ;;
  ret' <- m_link b b ;;
  when (negb (ret' =? -1))
    (printf ("link(%s, %s) returned %d, not -1" ++ nl) [AStr (Some text); AStr (Some text); AInt ret'] ;; exit 1) ;;
  ret' <- m_exec b [Lit (str "xx")] ;;
  when (negb (ret' =? -1)) (printf ("exec(%s) returned %d, not -1" ++ nl) [AStr (Some text); AInt fd] ;; exit 1).

Definition copyinstr2 (s : name) : M S unit :=
  let b := replicate (Z.to_nat MAXPATH) 120 in
  bad_string (Lit b) b ;;
  fork_or (oops "fork failed") (
    let big := replicate (Z.to_nat PGSIZE) 120 in
    r <- u_exec (str "echo") [big; big; big] ;;
    (* fd is -1 here *)
    when (negb (r =? -1)) (printf ("exec(echo, BIG) returned %d, not -1" ++ nl) [AInt (-1)] ;; exit 1) ;;
    exit 747) ;;
  w <- u_wait_status ;;
  when (negb (default 0 w.2 =? 747)) (oops "exec(echo, BIG) succeeded, should have failed").

(** The string at the end of memory has no end: printing it would fault. *)
Definition copyinstr3 (s : name) : M S unit :=
  sbrk 8192 ;;
  top <- sbrk 0 ;;
  when (negb (top mod PGSIZE =? 0)) (sbrk (PGSIZE - top mod PGSIZE) ;; ret tt) ;;
  top <- sbrk 0 ;;
  when (negb (top mod PGSIZE =? 0)) (oops "oops") ;;
  let b := u64 (top - 1) in
  m_store b 120 ;;
  bad_string (At b) [120].

Definition rwsbrk (s : name) : M S unit :=
  a <- sbrk 8192 ;;
  when (a =? NOMEM) (oops "sbrk(rwsbrk) failed") ;;
  r <- sbrk (-8192) ;;
  when (r =? NOMEM) (oops "sbrk(rwsbrk) shrink failed") ;;
  fd <- u_open (str "rwsbrk") O_CW ;;
  when (fd <? 0) (oops "open(rwsbrk) failed") ;;
  n <- m_write fd (u64 (a + 4096)) 1024 ;;
  when (0 <=? n) (printf ("write(fd, %p, 1024) returned %d, not -1" ++ nl) [ALong (u64 (a + 4096)); AInt n] ;; exit 1) ;;
  close fd ;;
  unlink "rwsbrk" ;;
  fd <- u_open (str "README") O_RDONLY ;;
  when (fd <? 0) (oops "open(rwsbrk) failed") ;;
  n <- m_read fd (u64 (a + 4096)) 10 ;;
  when (0 <=? n) (printf ("read(fd, %p, 10) returned %d, not -1" ++ nl) [ALong (u64 (a + 4096)); AInt n] ;; exit 1) ;;
  close fd ;;
  exit 0.

Definition validatetest (s : name) : M S unit :=
  for_each (seq 0 276) (fun i =>
    r <- m_link (Lit (str "nosuchfile")) (At (Z.of_nat i * PGSIZE)) ;;
    when (negb (r =? -1)) (failed s "link should not succeed")).

Definition badwrite (s : name) : M S unit :=
  unlink "junk" ;;
  for_each (seq 0 600) (fun _ =>
    fd <- u_open (str "junk") O_CW ;;
    when (fd <? 0) (oops "open junk failed") ;;
    m_write fd 0xffffffffff 1 ;;
    close fd ;;
    unlink "junk") ;;
  fd <- u_open (str "junk") O_CW ;;
  when (fd <? 0) (oops "open junk failed") ;;
  n <- u_write fd (str "x") ;;
  when (negb (n =? 1)) (oops "write failed") ;;
  close fd ;;
  unlink "junk" ;;
  exit 0.

Definition badarg (s : name) : M S unit :=
  for_each (seq 0 (Z.to_nat 50000)) (fun _ => m_exec (Lit (str "echo")) [At 0xffffffff] ;; ret tt) ;;
  exit 0.

Definition pgbug (s : name) : M S unit :=
  m_exec (At 0xeaeb0b5b00002f5e) [] ;;
  m_pipe 0xeaeb0b5b00002f5e ;;
  exit 0.

(** read(fd, sbrk(0) - 1, -1) *)
Definition argptest (s : name) : M S unit :=
  fd <- must_open s (str "init") O_RDONLY "open failed" ;;
  a <- sbrk 0 ;;
  m_read fd (u64 (a - 1)) (-1) ;;
  close fd.

(** ** sbrk() *)

(** for(pp = a; pp < a + 4096 * k; pp += 4096) *pp = c *)
Definition touch_pages (k a c : Z) : M S unit :=
  for_each (seq 0 (Z.to_nat k)) (fun i => m_store (u64 (a + 4096 * Z.of_nat i)) c).

(** for(i = 0; i < 5000; i++) of sbrkbasic, from [i] on; the address after the last byte *)
Fixpoint sbrk_bytes (k : nat) (s : name) (i a : Z) : M S Z :=
  match k with
  | O => ret a
  | Datatypes.S k' =>
      b <- sbrk 1 ;;
      when (negb (b =? a))
        (printf ("%s: sbrk test failed %d %x %x" ++ nl) [AStr (Some s); AInt i; ALong a; ALong b] ;; exit 1) ;;
      m_store b 1 ;;
      sbrk_bytes k' s (i + 1) (u64 (b + 1))
  end.

Definition TOOMUCH : Z := 1024 * 1024 * 1024.
Definition sbrkbasic (s : name) : M S unit :=
  fork_or (oops "fork failed in sbrkbasic") (
    a <- sbrk TOOMUCH ;;
    when (a =? NOMEM) (exit 0) ;;
    touch_pages (TOOMUCH / 4096) a 99 ;;
    exit 1) ;;
  xstatus <- wait_status ;;
  when (xstatus =? 1) (failed s "too much memory allocated!") ;;
  a <- sbrk 0 ;;
  a <- sbrk_bytes (Z.to_nat 5000) s 0 a ;;
  pid <- u_fork ;;
  when (pid <? 0) (failed s "sbrk test fork failed") ;;
  sbrk 1 ;;
  c <- sbrk 1 ;;
  when (negb (c =? u64 (a + 1))) (failed s "sbrk test failed post-fork") ;;
  when (pid =? 0) (exit 0) ;;
  xstatus <- wait_status ;;
  exit xstatus.

Definition BIG : Z := 100 * 1024 * 1024.
Definition sbrkmuch (s : name) : M S unit :=
  oldbrk <- sbrk 0 ;;
  a <- sbrk 0 ;;
  let amt := u64 (BIG - a) in
  p <- sbrk amt ;;
  when (negb (p =? a)) (failed s "sbrk test failed to grow big address space; enough phys mem?") ;;
  eee <- sbrk 0 ;;
  touch_pages ((eee - a + 4095) / 4096) a 1 ;;
  let lastaddr := BIG - 1 in
  m_store lastaddr 99 ;;
  a <- sbrk 0 ;;
  c <- sbrk (- PGSIZE) ;;
  when (c =? NOMEM) (failed s "sbrk could not deallocate") ;;
  c <- sbrk 0 ;;
  when (negb (c =? u64 (a - PGSIZE)))
    (printf ("%s: sbrk deallocation produced wrong address, a %x c %x" ++ nl) [AStr (Some s); ALong a; ALong c] ;; exit 1) ;;
  a <- sbrk 0 ;;
  c <- sbrk PGSIZE ;;
  bad <- (if negb (c =? a) then ret true else b <- sbrk 0 ;; ret (negb (b =? u64 (a + PGSIZE)))) ;;
  when bad (printf ("%s: sbrk re-allocation failed, a %x c %x" ++ nl) [AStr (Some s); ALong a; ALong c] ;; exit 1) ;;
  v <- m_load lastaddr ;;
  when (v =? 99) (failed s "sbrk de-allocation didn't really deallocate") ;;
  a <- sbrk 0 ;;
  b <- sbrk 0 ;;
  c <- sbrk (- (b - oldbrk)) ;;
  when (negb (c =? a)) (printf ("%s: sbrk downsize failed, a %x c %x" ++ nl) [AStr (Some s); ALong a; ALong c] ;; exit 1).

(** wait(&xstatus); if(xstatus != -1) exit(1): did the kernel kill the child? *)
Definition must_be_killed : M S unit := xstatus <- wait_status ;; when (negb (xstatus =? -1)) (exit 1).

(** for(a = KERNBASE; a < KERNBASE+2000000; a += 50000), 40 rounds *)
Definition kernmem (s : name) : M S unit :=
  for_each (seq 0 40) (fun i =>
    let a := KERNBASE + 50000 * Z.of_nat i in
    fork_or (failed s "fork failed") (
      v <- m_load a ;;
      printf ("%s: oops could read %x = %x" ++ nl) [AStr (Some s); ALong a; AInt v] ;;
      exit 1) ;;
    must_be_killed).

(** for( ; a != 0; a <<= 1): from bit 38 to bit 63 *)
Definition MAXVAplus (s : name) : M S unit :=
  for_each (seq 0 26) (fun i =>
    let a := MAXVA * 2 ^ Z.of_nat i in
    fork_or (failed s "fork failed") (
      m_store a 99 ;;
      printf ("%s: oops wrote %x" ++ nl) [AStr (Some s); ALong a] ;;
      exit 1) ;;
    must_be_killed).

(** The children of sbrkfail, each of which says that it has its memory *)
Fixpoint hogs (k : nat) (fds : Z * Z) (pids : list Z) : M S (list Z) :=
  match k with
  | O => ret pids
  | Datatypes.S k' =>
      pid <- u_fork ;;
      when (pid =? 0) (a <- sbrk 0 ;; sbrk (BIG - a) ;; write fds.2 (str "x") ;; forever) ;;
      when (negb (pid =? -1)) (u_read fds.1 1 ;; ret tt) ;;
      hogs k' fds (pids ++ [pid])
  end.

(** n += *(a+i) for each page *)
Fixpoint sum_pages (k : nat) (a n : Z) : M S Z :=
  match k with O => ret n | Datatypes.S k' => v <- m_load a ;; sum_pages k' (u64 (a + PGSIZE)) (i32 (n + v)) end.

Definition sbrkfail (s : name) : M S unit :=
  p <- u_pipe ;;
  let '(r, fds0, fds1) := p in
  when (negb (r =? 0)) (failed s "pipe() failed") ;;
  pids <- hogs 10 (fds0, fds1) [] ;;
  c <- sbrk PGSIZE ;;
  for_each (seq 0 10) (fun i =>
    let pid := nth i pids 0 in when (negb (pid =? -1)) (u_kill pid ;; u_wait ;; ret tt)) ;;
  when (c =? NOMEM) (failed s "failed sbrk leaked memory") ;;
  fork_or (failed s "fork failed") (
    a <- sbrk 0 ;;
    sbrk (10 * BIG) ;;
    n <- sum_pages (Z.to_nat (10 * BIG / PGSIZE)) a 0 ;;
    printf ("%s: allocate a lot of memory succeeded %d" ++ nl) [AStr (Some s); AInt n] ;;
    exit 1) ;;
  xstatus <- wait_status ;;
  when (negb (xstatus =? -1) && negb (xstatus =? 2)) (exit 1).

Definition sbrkarg (s : name) : M S unit :=
  a <- sbrk PGSIZE ;;
  fd <- u_open (str "sbrk") O_CW ;;
  unlink "sbrk" ;;
  when (fd <? 0) (failed s "open sbrk failed") ;;
  n <- m_write fd a PGSIZE ;;
  when (n <? 0) (failed s "write sbrk failed") ;;
  close fd ;;
  a <- sbrk PGSIZE ;;
  r <- m_pipe a ;;
  when (negb (r =? 0)) (failed s "pipe() failed").

Definition sbrkbugs (s : name) : M S unit :=
  fork_or (oops "fork failed") (sz <- u_sbrk 0 ;; sbrk (- i32 sz) ;; exit 0) ;;
  u_wait ;;
  fork_or (oops "fork failed") (sz <- u_sbrk 0 ;; sbrk (- (i32 sz - 3500)) ;; exit 0) ;;
  u_wait ;;
  fork_or (oops "fork failed") (a <- sbrk 0 ;; sbrk (10 * 4096 + 2048 - a) ;; sbrk (-10) ;; exit 0) ;;
  u_wait ;;
  exit 0.

Definition sbrklast (s : name) : M S unit :=
  top <- sbrk 0 ;;
  when (negb (top mod 4096 =? 0)) (sbrk (4096 - top mod 4096) ;; ret tt) ;;
  sbrk 4096 ;;
  sbrk 10 ;;
  sbrk (-20) ;;
  top <- sbrk 0 ;;
  let p := u64 (top - 64) in
  m_store p 120 ;;
  m_store (u64 (p + 1)) 0 ;;
  fd <- m_open (At p) O_CRW ;;
  m_write fd p 1 ;;
  close fd ;;
  fd <- m_open (At p) O_RDWR ;;
  m_store p 0 ;;
  m_read fd p 1 ;;
  v <- m_load p ;;
  when (negb (v =? 120)) (exit 1).

Definition sbrk8000 (s : name) : M S unit :=
  sbrk 0x80000004 ;;
  top <- sbrk 0 ;;
  v <- m_load (u64 (top - 1)) ;;
  m_store (u64 (top - 1)) (u8 (v + 1)).

(** ** Memory that is not there, and memory that is used up *)

(** char uninit[10000], at [a] *)
Definition bsstest (uninit : Z) (s : name) : M S unit :=
  for_each (seq 0 (Z.to_nat 10000)) (fun i =>
    v <- m_load (u64 (uninit + Z.of_nat i)) ;;
    when (negb (v =? 0)) (failed s "bss test failed")).

Definition stacktest (s : name) : M S unit :=
  pid <- u_fork ;;
  (if pid =? 0 then
     sp <- m_sp ;;
     v <- m_load (u64 (sp - PGSIZE)) ;;
     printf ("%s: stacktest: read below stack %p" ++ nl) [AStr (Some s); AInt v] ;;
     exit 1
   else when (pid <? 0) (failed s "fork failed")) ;;
  xstatus <- wait_status ;;
  if xstatus =? -1 then exit 0 else exit xstatus.

(** while((m2 = malloc(10001)) != 0): a list of all that there is *)
Fixpoint take_all (fuel : nat) (m1 : Z) : M S Z :=
  match fuel with
  | O => fail EHang
  | Datatypes.S f => m2 <- m_malloc 10001 ;; if m2 =? 0 then ret m1 else m_storep m2 m1 ;; take_all f m2
  end.
Fixpoint give_all (fuel : nat) (m1 : Z) : M S unit :=
  match fuel with
  | O => fail EHang
  | Datatypes.S f => if m1 =? 0 then ret tt else m2 <- m_loadp m1 ;; m_free m1 ;; give_all f m2
  end.

Definition mem_test (fuel : nat) (s : name) : M S unit :=
  pid <- u_fork ;;
  if pid =? 0 then
    m1 <- take_all fuel 0 ;;
    give_all fuel m1 ;;
    m1 <- m_malloc (1024 * 20) ;;
    when (m1 =? 0) (oops "couldn't allocate mem?!!") ;;
    m_free m1 ;;
    exit 0
  else
    xstatus <- wait_status ;;
    if xstatus =? -1 then exit 0 else exit xstatus.

(** while(1) of execout *)
Fixpoint use_up (fuel : nat) : M S unit :=
  match fuel with
  | O => fail EHang
  | Datatypes.S f => a <- sbrk 4096 ;; if a =? NOMEM then ret tt else m_store (u64 (a + 4096 - 1)) 1 ;; use_up f
  end.

Definition execout (fuel : nat) (s : name) : M S unit :=
  for_each (seq 0 15) (fun avail =>
    fork_or (oops "fork failed") (
      use_up fuel ;;
      for_each (seq 0 avail) (fun _ => sbrk (-4096) ;; ret tt) ;;
      close 1 ;;
      u_exec (str "echo") [str "echo"; str "x"] ;;
      exit 0) ;;
    u_wait ;; ret tt) ;;
  exit 0.

(** ** How much memory is free *)

Fixpoint countfree_child (fuel : nat) (fds1 : Z) : M S unit :=
  match fuel with
  | O => fail EHang
  | Datatypes.S f =>
      a <- sbrk 4096 ;;
      if a =? NOMEM then ret tt else
      m_store (u64 (a + 4096 - 1)) 1 ;;
      n <- u_write fds1 (str "x") ;;
      when (negb (n =? 1)) (oops "write() failed in countfree()") ;;
      countfree_child f fds1
  end.

Fixpoint countfree_loop (fuel : nat) (fds0 n : Z) : M S Z :=
  match fuel with
  | O => fail EHang
  | Datatypes.S f =>
      r <- u_read fds0 1 ;;
      when (r.1 <? 0) (oops "read() failed in countfree()") ;;
      if r.1 =? 0 then ret n else countfree_loop f fds0 (n + 1)
  end.

Definition countfree (fuel : nat) : M S Z :=
  p <- u_pipe ;;
  let '(r, fds0, fds1) := p in
  when (r <? 0) (oops "pipe() failed in countfree()") ;;
  fork_or (oops "fork failed in countfree()") (close fds0 ;; countfree_child fuel fds1 ;; exit 0) ;;
  close fds1 ;;
  n <- countfree_loop fuel fds0 0 ;;
  close fds0 ;;
  u_wait ;;
  ret n.

(** ** run() and main() *)

(** 1 if the child's exit() indicates success *)
Definition run_test (f : name -> M S unit) (s : name) : M S bool :=
  printf "test %s: " [AStr (Some s)] ;;
  pid <- u_fork ;;
  when (pid <? 0) (oops "runtest: fork error") ;;
  if pid =? 0 then f s ;; exit 0 ;; ret false else
  xstatus <- wait_status ;;
  (if negb (xstatus =? 0) then printf ("FAILED" ++ nl) [] else printf ("OK" ++ nl) []) ;;
  ret (xstatus =? 0).

(** for (struct test *t = tests; ...) of the continuous mode, up to the first failure *)
Fixpoint run_until (tests : list ((name -> M S unit) * name)) : M S bool :=
  match tests with
  | [] => ret false
  | (f, s) :: rest => ok <- run_test f s ;; if negb ok then ret true else run_until rest
  end.

(** The first [k] rounds of while(1) *)
Fixpoint continuous_loop (k : nat) (fuel : nat) (twice : bool) (tests : list ((name -> M S unit) * name)) : M S unit :=
  match k with
  | O => ret tt
  | Datatypes.S k' =>
      free0 <- countfree fuel ;;
      bad <- run_until tests ;;
      when bad (printf ("SOME TESTS FAILED" ++ nl) [] ;; when (negb twice) (exit 1)) ;;
      free1 <- countfree fuel ;;
      when (free1 <? free0)
        (printf ("FAILED -- lost %d free pages" ++ nl) [AInt (free0 - free1)] ;; when (negb twice) (exit 1)) ;;
      continuous_loop k' fuel twice tests
  end.

(** The tests that are asked for; whether one failed *)
Fixpoint run_chosen (justone : option name) (tests : list ((name -> M S unit) * name)) (bad : bool) : M S bool :=
  match tests with
  | [] => ret bad
  | (f, s) :: rest =>
      if match justone with None => true | Some j => strcmp s j =? 0 end then
        ok <- run_test f s ;; run_chosen justone rest (if ok then bad else true)
      else run_chosen justone rest bad
  end.

Definition run_all (fuel : nat) (justone : option name) (tests : list ((name -> M S unit) * name)) : M S unit :=
  printf ("usertests starting" ++ nl) [] ;;
  free0 <- countfree fuel ;;
  bad <- run_chosen justone tests false ;;
  if bad : bool then printf ("SOME TESTS FAILED" ++ nl) [] ;; exit 1 else
  free1 <- countfree fuel ;;
  if free1 <? free0 then
    printf ("FAILED -- lost some free pages %d (out of %d)" ++ nl) [AInt free1; AInt free0] ;; exit 1
  else printf ("ALL TESTS PASSED" ++ nl) [] ;; exit 0.

Definition usertests_main (k fuel : nat) (tests : list ((name -> M S unit) * name)) (argv : list name) : M S unit :=
  let argc := Z.of_nat (length argv) in
  let arg := nth 1 argv [] in
  if (argc =? 2) && ((strcmp arg (str "-c") =? 0) || (strcmp arg (str "-C") =? 0)) then
    printf ("continuous usertests starting" ++ nl) [] ;;
    continuous_loop k fuel (negb (strcmp arg (str "-c") =? 0)) tests
  else if (argc =? 2) && negb (nth 0 arg 0 =? 45) then run_all fuel (Some arg) tests
  else if 1 <? argc then oops "Usage: usertests [-c] [testname]"
  else run_all fuel None tests.

(** ** The table of main() *)

Definition tests (fuel : nat) (uninit : Z) : list ((name -> M S unit) * name) :=
  [(MAXVAplus, str "MAXVAplus"); (manywrites junk, str "manywrites"); (execout fuel, str "execout");
   (copyin, str "copyin"); (copyout, str "copyout"); (copyinstr1, str "copyinstr1"); (copyinstr2, str "copyinstr2");
   (copyinstr3, str "copyinstr3"); (rwsbrk, str "rwsbrk"); (truncate1 junk, str "truncate1"); (truncate2 junk, str "truncate2");
   (truncate3 junk, str "truncate3"); (reparent2 junk, str "reparent2"); (pgbug, str "pgbug"); (sbrkbugs, str "sbrkbugs");
   (badarg, str "badarg"); (reparent junk, str "reparent"); (twochildren junk, str "twochildren"); (forkfork junk, str "forkfork");
   (forkforkfork junk fuel, str "forkforkfork"); (argptest, str "argptest"); (createdelete junk, str "createdelete");
   (linkunlink junk, str "linkunlink"); (linktest junk, str "linktest"); (unlinkread junk, str "unlinkread");
   (concreate junk fuel, str "concreate"); (subdir junk, str "subdir"); (fourfiles junk fuel, str "fourfiles");
   (sharedfd junk fuel, str "sharedfd"); (dirtest junk, str "dirtest"); (exectest junk, str "exectest");
   (bigargtest junk, str "bigargtest"); (bigwrite junk, str "bigwrite"); (bsstest uninit, str "bsstest");
   (sbrkbasic, str "sbrkbasic"); (sbrkmuch, str "sbrkmuch"); (kernmem, str "kernmem"); (sbrkfail, str "sbrkfail");
   (sbrkarg, str "sbrkarg"); (sbrklast, str "sbrklast"); (sbrk8000, str "sbrk8000"); (validatetest, str "validatetest");
   (stacktest, str "stacktest"); (opentest junk, str "opentest"); (writetest junk, str "writetest"); (writebig junk fuel, str "writebig");
   (createtest, str "createtest"); (openiputtest junk, str "openiput"); (exitiputtest junk, str "exitiput"); (iputtest junk, str "iput");
   (mem_test fuel, str "mem"); (pipe1 junk fuel, str "pipe1"); (preempt junk, str "preempt"); (exitwait junk, str "exitwait");
   (rmdot junk, str "rmdot"); (fourteen junk, str "fourteen"); (bigfile junk fuel, str "bigfile"); (dirfile junk, str "dirfile");
   (iref junk, str "iref"); (forktest junk, str "forktest"); (bigdir junk, str "bigdir")].

Definition main (k fuel : nat) (uninit : Z) (argv : list name) : M S unit :=
  usertests_main k fuel (tests fuel uninit) argv.
End Memtests.
