(* ===== verification/Sh.v ===== *)
(** * Sh: the shell

    Models user/sh.c.  A pointer into the command line is the part of the line from
    there to its end, so that [s < es] says that this is not empty and *s is its
    first byte.  Commands are trees; the strings in them are pointers, ended by the
    NULs nulterminate() writes. *)
From S2P Require Import Prelude Mem Sysfile Ulib Uprintf Cmds.

Abbreviation ptr := (list Z).

Definition MAXARGS : Z := 10.

(** A string is where it starts and where it ends: argv[i] and eargv[i], file and
    efile. *)
Inductive cmd : Type :=
  | EXEC (argv : list (ptr * ptr))
  | REDIR (c : cmd) (file : ptr * ptr) (mode fd : Z)
  | PIPE (left right : cmd)
  | LIST (left right : cmd)
  | BACK (c : cmd).

(** ** Tokens *)

Definition whitespace : list Z := [32; 9; 13; 10; 11].
Definition symbols : list Z := [60; 124; 62; 38; 59; 40; 41].     (* <|>&;() *)

Definition is_in (l : list Z) (c : Z) : bool := if strchr l c then true else false.

(** while(s < es && strchr(whitespace, *s)) s++; *)
Fixpoint skip_ws (s : ptr) : ptr :=
  match s with [] => [] | c :: s' => if is_in whitespace c then skip_ws s' else s end.

(** while(s < es && !strchr(whitespace, *s) && !strchr(symbols, *s)) s++; *)
Fixpoint skip_word (s : ptr) : ptr :=
  match s with
  | [] => []
  | c :: s' => if negb (is_in whitespace c) && negb (is_in symbols c) then skip_word s' else s
  end.

(** The result, *q, *eq and *ps *)
Definition gettoken (ps : ptr) : Z * ptr * ptr * ptr :=
  let s := skip_ws ps in
  let '(r, e) :=
    match s with
    | [] => (0, [])
    | c :: s' =>
        if c =? 0 then (0, s)
        else if is_in [124; 40; 41; 59; 38; 60] c then (c, s')
        else if c =? 62 then
          match s' with
          | d :: s'' => if d =? 62 then (43, s'') else (62, s')
          | [] => (62, s')
          end
        else (97, skip_word s)
    end in
  (r, s, e, skip_ws e).

(** The result and *ps *)
Definition peek (ps : ptr) (toks : list Z) : bool * ptr :=
  let s := skip_ws ps in
  (match s with [] => false | c :: _ => negb (c =? 0) && is_in toks c end, s).

(** ** Parsing *)

Record redir : Type := mkredir { rd_file : ptr * ptr; rd_mode : Z; rd_fd : Z }.

(** redircmd() around a command, once per redirection: the last one is outermost. *)
Definition redirected (c : cmd) (rs : list redir) : cmd :=
  foldl (fun c r => REDIR c (rd_file r) (rd_mode r) (rd_fd r)) c rs.

Section Parse.
Context {S : Type} `{!Usys S} (junk : list Z).

Definition sh_panic {A} (s : string) : M S A :=
  fprintf junk 2 ("%s" ++ nl) [AStr (Some (str s))] ;; u_exit A 1.

(** while(peek(ps, es, "<>")); [k] bounds the redirections.  The nodes made so far
    are the list [rs]. *)
Fixpoint parseredirs (k : nat) (rs : list redir) (ps : ptr) : M S (list redir * ptr) :=
  match k with
  | O => fail EHang
  | Datatypes.S k' =>
      let '(b, ps) := peek ps [60; 62] in
      if negb b then ret (rs, ps) else
      let '(tok, _, _, ps) := gettoken ps in
      let '(t, q, eq, ps) := gettoken ps in
      if negb (t =? 97) then sh_panic "missing file for redirection" else
      let r :=
        if tok =? 60 then [mkredir (q, eq) O_RDONLY 0]
        else if tok =? 62 then [mkredir (q, eq) (Z.lor (Z.lor O_WRONLY O_CREATE) O_TRUNC) 1]
        else if tok =? 43 then [mkredir (q, eq) (Z.lor O_WRONLY O_CREATE) 1]
        else [] in
      parseredirs k' (rs ++ r) ps
  end.

(** while(!peek(ps, es, "|)&;")) of [parseexec].  The exec node is filled through
    its own pointer while [ret] grows around it: arguments and redirections are
    collected apart. *)
Fixpoint exec_loop (k : nat) (argv : list (ptr * ptr)) (rs : list redir) (ps : ptr) : M S (cmd * ptr) :=
  match k with
  | O => fail EHang
  | Datatypes.S k' =>
      let '(b, ps) := peek ps [124; 41; 38; 59] in
      if b then ret (redirected (EXEC argv) rs, ps) else
      let '(tok, q, eq, ps) := gettoken ps in
      if tok =? 0 then ret (redirected (EXEC argv) rs, ps) else
      if negb (tok =? 97) then sh_panic "syntax" else
      let argv := argv ++ [(q, eq)] in
      if MAXARGS <=? Z.of_nat (length argv) then sh_panic "too many args" else
      r <- parseredirs k rs ps ;;
      exec_loop k' argv r.1 r.2
  end.

(** while(peek(ps, es, "&")) of [parseline] *)
Fixpoint back_loop (k : nat) (c : cmd) (ps : ptr) : M S (cmd * ptr) :=
  match k with
  | O => fail EHang
  | Datatypes.S k' =>
      let '(b, ps) := peek ps [38] in
      if negb b then ret (c, ps) else
      let '(_, _, _, ps) := gettoken ps in
      back_loop k' (BACK c) ps
  end.

(** [fuel] bounds the nesting of the calls and the rounds of each loop. *)
Fixpoint parseline (fuel : nat) (ps : ptr) : M S (cmd * ptr) :=
  match fuel with
  | O => fail EHang
  | Datatypes.S f =>
      r <- parsepipe f ps ;;
      r <- back_loop fuel r.1 r.2 ;;
      let '(c, ps) := r in
      let '(b, ps) := peek ps [59] in
      if b then
        let '(_, _, _, ps) := gettoken ps in
        r <- parseline f ps ;;
        ret (LIST c r.1, r.2)
      else ret (c, ps)
  end
with parsepipe (fuel : nat) (ps : ptr) : M S (cmd * ptr) :=
  match fuel with
  | O => fail EHang
  | Datatypes.S f =>
      r <- parseexec f ps ;;
      let '(c, ps) := r in
      let '(b, ps) := peek ps [124] in
      if b then
        let '(_, _, _, ps) := gettoken ps in
        r <- parsepipe f ps ;;
        ret (PIPE c r.1, r.2)
      else ret (c, ps)
  end
with parseexec (fuel : nat) (ps : ptr) : M S (cmd * ptr) :=
  match fuel with
  | O => fail EHang
  | Datatypes.S f =>
      let '(b, ps) := peek ps [40] in
      if b then parseblock f ps else
      r <- parseredirs fuel [] ps ;;
      exec_loop fuel [] r.1 r.2
  end
with parseblock (fuel : nat) (ps : ptr) : M S (cmd * ptr) :=
  match fuel with
  | O => fail EHang
  | Datatypes.S f =>
      let '(b, ps) := peek ps [40] in
      if negb b then sh_panic "parseblock" else
      let '(_, _, _, ps) := gettoken ps in
      r <- parseline f ps ;;
      let '(c, ps) := r in
      let '(b, ps) := peek ps [41] in
      if negb b then sh_panic "syntax - missing )" else
      let '(_, _, _, ps) := gettoken ps in
      r <- parseredirs fuel [] ps ;;
      ret (redirected c r.1, r.2)
  end.

(** *e = 0, in the line [buf] *)
Definition end_string (e : ptr) (buf : list Z) : list Z := <[(length buf - length e)%nat := 0]> buf.

Fixpoint nulterminate (c : cmd) (buf : list Z) : list Z :=
  match c with
  | EXEC argv => foldl (fun b a => end_string a.2 b) buf argv
  | REDIR c file _ _ => end_string file.2 (nulterminate c buf)
  | PIPE l r | LIST l r => nulterminate r (nulterminate l buf)
  | BACK c => nulterminate c buf
  end.

(** The command, and the line with its strings ended.  A write to the line's own
    final NUL changes nothing. *)
Definition parsecmd (fuel : nat) (s : list Z) : M S (cmd * list Z) :=
  r <- parseline fuel s ;;
  let '(c, ps) := r in
  let '(_, ps) := peek ps [] in
  if negb (bool_decide (ps = [])) then
    fprintf junk 2 ("leftovers: %s" ++ nl) [AStr (Some ps)] ;; sh_panic "syntax"
  else ret (c, nulterminate c s).

(** ** Running *)

(** The string at [q], in the line [buf] with its strings ended. *)
Definition string_at (buf : list Z) (q : ptr) : list Z := c_string (drop (length buf - length q) buf).

Definition fork1 : M S Z :=
  pid <- u_fork ;;
  if pid =? -1 then sh_panic "fork" else ret pid.

Fixpoint runcmd (buf : list Z) (c : cmd) : M S unit :=
  match c with
  | EXEC argv =>
      let args := (fun a => string_at buf a.1) <$> argv in
      match args with
      | [] => u_exit unit 1
      | name :: _ =>
          u_exec name args ;;
          fprintf junk 2 ("exec %s failed" ++ nl) [AStr (Some name)]
      end
  | REDIR c file mode fd =>
      u_close fd ;;
      r <- u_open (string_at buf file.1) mode ;;
      if r <? 0 then fprintf junk 2 ("open %s failed" ++ nl) [AStr (Some (string_at buf file.1))] ;; u_exit unit 1
      else runcmd buf c
  | LIST lc rc =>
      pid <- fork1 ;;
      when (pid =? 0) (runcmd buf lc) ;;
      u_wait ;;
      runcmd buf rc
  | PIPE lc rc =>
      p <- u_pipe ;;
      let '(r, p0, p1) := p in
      if r <? 0 then sh_panic "pipe" else
      pid <- fork1 ;;
      when (pid =? 0) (u_close 1 ;; u_dup p1 ;; u_close p0 ;; u_close p1 ;; runcmd buf lc) ;;
      pid <- fork1 ;;
      when (pid =? 0) (u_close 0 ;; u_dup p0 ;; u_close p0 ;; u_close p1 ;; runcmd buf rc) ;;
      u_close p0 ;;
      u_close p1 ;;
      u_wait ;;
      u_wait ;;
      ret tt
  | BACK c =>
      pid <- fork1 ;;
      when (pid =? 0) (runcmd buf c)
  end ;;
  u_exit unit 0.

(** The line read, or [None] at the end of input. *)
Definition getcmd (nbuf : Z) : M S (option (list Z)) :=
  fprintf junk 2 "$ " [] ;;
  buf <- gets nbuf ;;
  let buf := c_string buf in
  ret (if bool_decide (buf = []) then None else Some buf).

(** while((fd = open("console", O_RDWR)) >= 0) *)
Fixpoint open_console (k : nat) : M S unit :=
  match k with
  | O => fail EHang
  | Datatypes.S k' =>
      fd <- u_open (str "console") O_RDWR ;;
      if fd <? 0 then ret tt
      else if 3 <=? fd then u_close fd ;; ret tt
      else open_console k'
  end.

(** while(getcmd(buf, sizeof(buf)) >= 0), one round per command *)
Fixpoint sh_loop (k : nat) : M S unit :=
  match k with
  | O => fail EHang
  | Datatypes.S k' =>
      line <- getcmd 100 ;;
      match line with
      | None => ret tt
      | Some buf =>
          (if bool_decide (take 3 buf = str "cd ") then
             let dir := drop 3 (removelast buf) in
             r <- u_chdir dir ;;
             when (r <? 0) (fprintf junk 2 ("cannot cd %s" ++ nl) [AStr (Some dir)])
           else
             pid <- fork1 ;;
             when (pid =? 0) (r <- parsecmd (8 * (length buf + 2)) buf ;; runcmd r.2 r.1) ;;
             u_wait ;; ret tt) ;;
          sh_loop k'
      end
  end.

Definition sh_main (k : nat) : M S unit := open_console k ;; sh_loop k ;; u_exit unit 0.
End Parse.

(** ** Specification: the grammar of command lines *)

Inductive token : Type :=
  | TWord (w : list Z)
  | TSym (c : Z)          (* | & ; ( ) < > *)
  | TApp.                 (* >> *)

Definition word_char (c : Z) : bool := negb (c =? 0) && negb (is_in whitespace c) && negb (is_in symbols c).

(** What may follow a word: the end, a blank or a symbol. *)
Definition delimits (e : ptr) : Prop := match e with [] => True | c :: _ => is_in whitespace c || is_in symbols c = true end.

(** The line [s] spells the tokens, with any blanks between them. *)
Inductive spells : list Z -> list token -> Prop :=
  | spells_end s : skip_ws s = [] -> spells s []
  | spells_word s w e ts : skip_ws s = w ++ e -> w <> [] -> Forall (fun c => word_char c = true) w -> delimits e ->
      spells e ts -> spells s (TWord w :: ts)
  | spells_sym s c e ts : skip_ws s = c :: e -> is_in [124; 40; 41; 59; 38; 60] c = true -> spells e ts -> spells s (TSym c :: ts)
  | spells_gt s e ts : skip_ws s = 62 :: e -> head e <> Some 62 -> spells e ts -> spells s (TSym 62 :: ts)
  | spells_app s e ts : skip_ws s = 62 :: 62 :: e -> spells e ts -> spells s (TApp :: ts).

Inductive direction : Type := In | Out | Append.

(** A redirection and its file. *)
Definition sredir : Type := direction * list Z.

(** line: pipe { & } [ ; line ];  pipe: exec [ | pipe ];
    exec: { redirection } { word { redirection } }, or a block. *)
Inductive line : Type :=
  | LEnd (p : pipeline) (n : nat)
  | LSeq (p : pipeline) (n : nat) (l : line)
with pipeline : Type :=
  | PEnd (e : command)
  | PSeq (e : command) (p : pipeline)
with command : Type :=
  | Simple (rs : list sredir) (ws : list (list Z * list sredir))
  | Block (l : line) (rs : list sredir).

Definition redir_toks (rs : list sredir) : list token :=
  concat ((fun r => [match r.1 with In => TSym 60 | Out => TSym 62 | Append => TApp end; TWord r.2]) <$> rs).
Definition words_toks (ws : list (list Z * list sredir)) : list token :=
  concat ((fun w => TWord w.1 :: redir_toks w.2) <$> ws).

Fixpoint line_toks (l : line) : list token :=
  match l with
  | LEnd p n => pipe_toks p ++ replicate n (TSym 38)
  | LSeq p n l => pipe_toks p ++ replicate n (TSym 38) ++ TSym 59 :: line_toks l
  end
with pipe_toks (p : pipeline) : list token :=
  match p with
  | PEnd e => command_toks e
  | PSeq e p => command_toks e ++ TSym 124 :: pipe_toks p
  end
with command_toks (e : command) : list token :=
  match e with
  | Simple rs ws => redir_toks rs ++ words_toks ws
  | Block l rs => TSym 40 :: line_toks l ++ TSym 41 :: redir_toks rs
  end.

(** No command has more words than the argument array holds with its end. *)
Fixpoint line_ok (l : line) : Prop :=
  match l with LEnd p _ => pipe_ok p | LSeq p _ l => pipe_ok p /\ line_ok l end
with pipe_ok (p : pipeline) : Prop :=
  match p with PEnd e => command_ok e | PSeq e p => command_ok e /\ pipe_ok p end
with command_ok (e : command) : Prop :=
  match e with Simple _ ws => (length ws < 10)%nat | Block l _ => line_ok l end.

(** Commands with their strings. *)
Inductive tree : Type :=
  | TExec (argv : list (list Z))
  | TRedir (c : tree) (file : list Z) (mode fd : Z)
  | TPipe (l r : tree)
  | TList (l r : tree)
  | TBack (c : tree).

Fixpoint tree_of (f : ptr * ptr -> list Z) (c : cmd) : tree :=
  match c with
  | EXEC argv => TExec (f <$> argv)
  | REDIR c file mode fd => TRedir (tree_of f c) (f file) mode fd
  | PIPE l r => TPipe (tree_of f l) (tree_of f r)
  | LIST l r => TList (tree_of f l) (tree_of f r)
  | BACK c => TBack (tree_of f c)
  end.

Definition redir_mode (d : direction) : Z * Z :=
  match d with In => (0, 0) | Out => (0x601, 1) | Append => (0x201, 1) end.

Definition with_redirs (t : tree) (rs : list sredir) : tree :=
  foldl (fun t r => TRedir t r.2 (redir_mode r.1).1 (redir_mode r.1).2) t rs.

(** What a line means. *)
Fixpoint line_tree (l : line) : tree :=
  match l with
  | LEnd p n => Nat.iter n TBack (pipe_tree p)
  | LSeq p n l => TList (Nat.iter n TBack (pipe_tree p)) (line_tree l)
  end
with pipe_tree (p : pipeline) : tree :=
  match p with
  | PEnd e => command_tree e
  | PSeq e p => TPipe (command_tree e) (pipe_tree p)
  end
with command_tree (e : command) : tree :=
  match e with
  | Simple rs ws => with_redirs (TExec (fst <$> ws)) (rs ++ concat (snd <$> ws))
  | Block l rs => with_redirs (line_tree l) rs
  end.

(** ** Tokens *)

Lemma skip_ws_idem s : skip_ws (skip_ws s) = skip_ws s.
Proof. induction s as [|c s IH]; [done|]. cbn. destruct (is_in whitespace c) eqn:E; [done|]. cbn. by rewrite E. Qed.

Lemma skip_ws_suffix s : skip_ws s `suffix_of` s.
Proof. induction s as [|c s IH]; [done|]. cbn. destruct (is_in whitespace c); [by apply suffix_cons_r|done]. Qed.

Lemma spells_skip s ts : spells s ts -> spells (skip_ws s) ts.
Proof.
  inversion 1; subst; [eapply spells_end|eapply spells_word|eapply spells_sym|eapply spells_gt|eapply spells_app];
    rewrite ?skip_ws_idem; eauto.
Qed.

Lemma skip_word_spec w e : Forall (fun c => word_char c = true) w -> delimits e -> skip_word (w ++ e) = e.
Proof.
  induction w as [|c w IH]; intros Hw He.
  - destruct e as [|c e]; [done|]. cbn [app skip_word delimits] in *. by destruct (is_in whitespace c), (is_in symbols c).
  - inversion Hw as [|? ? Hc Hw']; subst. apply andb_true_iff in Hc as [Hc H2]. apply andb_true_iff in Hc as [_ H1].
    cbn [app skip_word]. rewrite H1, H2. by apply IH.
Qed.

Lemma is_in_elem l c : is_in l c = true <-> c ∈ l.
Proof.
  unfold is_in. induction l as [|d l IH]; cbn; [by split; [done|intros ?%not_elem_of_nil]|].
  destruct (Z.eqb_spec d c) as [->|Hd]; [by split; [intros _; left|]|]. rewrite IH, elem_of_cons. naive_solver.
Qed.

(** The kind of a token, for peek(). *)
Definition head_in (l : list Z) (ts : list token) : bool :=
  match ts with TSym c :: _ => is_in l c | TApp :: _ => is_in l 62 | _ => false end.

Lemma word_char_not l c : (forall x, is_in l x = true -> is_in symbols x = true) -> word_char c = true -> is_in l c = false.
Proof.
  intros Hl Hc. destruct (is_in l c) eqn:E; [|done]. apply Hl in E. unfold word_char in Hc. by rewrite E, andb_false_r in Hc.
Qed.

Lemma peek_spells s ts l : (forall x, is_in l x = true -> is_in symbols x = true) -> spells s ts ->
  peek s l = (head_in l ts, skip_ws s).
Proof.
  intros Hl Hs. unfold peek. f_equal. inversion Hs as [? E|? w e ? E Hw Hc _ _|? c e ? E Hc _|? e ? E _ _|? e ? E _]; subst; rewrite E; [done| | |done|done].
  - destruct w as [|c w]; [done|]. cbn [app]. inversion Hc as [|? ? Hc0 _]; subst. rewrite (word_char_not l c Hl Hc0). by rewrite andb_false_r.
  - cbn. destruct (Z.eqb_spec c 0) as [->|]; [by vm_compute in Hc|done].
Qed.

(** [a] is a word of the line [s]. *)
Definition in_line (s : ptr) (a : ptr * ptr) (w : list Z) : Prop :=
  a.1 = w ++ a.2 /\ w <> [] /\ Forall (fun c => word_char c = true) w /\ delimits a.2 /\ a.1 `suffix_of` s.

Lemma gettoken_word s w ts : spells s (TWord w :: ts) ->
  exists q e, gettoken s = (97, q, e, skip_ws e) /\ spells e ts /\ in_line s (q, e) w /\ e `suffix_of` s.
Proof.
  inversion 1 as [|? ? e ? E Hw Hc He Hs| | |]; subst. pose proof (skip_ws_suffix s) as Hsuf. rewrite E in Hsuf.
  exists (w ++ e), e. unfold gettoken. rewrite E. destruct w as [|c w]; [done|]. cbn [app].
  inversion Hc as [|? ? Hc0 _]; subst.
  assert (c <> 0 /\ c <> 62 /\ is_in [124; 40; 41; 59; 38; 60] c = false) as (N0 & N62 & Hn).
  { split; [by intros ->|]. split; [by intros ->|]. apply word_char_not; [|done].
    intros x. rewrite !is_in_elem. unfold symbols. set_solver. }
  destruct (Z.eqb_spec c 0); [done|]. rewrite Hn. destruct (Z.eqb_spec c 62); [done|].
  change (c :: w ++ e) with ((c :: w) ++ e). rewrite skip_word_spec by done.
  split; [done|]. split; [done|]. split; [done|]. etrans; [|exact Hsuf]. by apply suffix_app_r.
Qed.

Lemma gettoken_sym s c ts : spells s (TSym c :: ts) ->
  exists q e, gettoken s = (c, q, e, skip_ws e) /\ spells e ts /\ e `suffix_of` s.
Proof.
  pose proof (skip_ws_suffix s) as Hsuf.
  inversion 1 as [| |? ? e ? E Hc Hs|? e ? E Hh Hs|]; subst; rewrite E in Hsuf; exists (skip_ws s), e; unfold gettoken; rewrite E.
  - destruct (Z.eqb_spec c 0) as [->|]; [by vm_compute in Hc|]. rewrite Hc. split; [done|]. split; [done|].
    etrans; [|exact Hsuf]. by apply suffix_cons_r.
  - change (62 =? 0) with false. change (is_in _ 62) with false. change (62 =? 62) with true. cbv iota.
    split; [|split; [done|etrans; [|exact Hsuf]; by apply suffix_cons_r]].
    destruct e as [|d e]; [done|]. destruct (Z.eqb_spec d 62) as [->|]; [done|done].
Qed.

Lemma gettoken_app s ts : spells s (TApp :: ts) ->
  exists q e, gettoken s = (43, q, e, skip_ws e) /\ spells e ts /\ e `suffix_of` s.
Proof.
  pose proof (skip_ws_suffix s) as Hsuf. inversion 1 as [| | | |? e ? E Hs]; subst. rewrite E in Hsuf. exists (skip_ws s), e. unfold gettoken. rewrite E.
  split; [done|]. split; [done|]. etrans; [|exact Hsuf]. by do 2 apply suffix_cons_r.
Qed.

(** ** The parser on spelled lines *)

(** The command [c] is [t], its strings words of the line. *)
Fixpoint means (full : ptr) (c : cmd) (t : tree) : Prop :=
  match c, t with
  | EXEC argv, TExec ws => Forall2 (in_line full) argv ws
  | REDIR c file mode fd, TRedir t w mode' fd' => means full c t /\ in_line full file w /\ mode = mode' /\ fd = fd'
  | PIPE l r, TPipe l' r' => means full l l' /\ means full r r'
  | LIST l r, TList l' r' => means full l l' /\ means full r r'
  | BACK c, TBack t => means full c t
  | _, _ => False
  end.

Definition redir_means (full : ptr) (x : redir) (r : sredir) : Prop :=
  in_line full (rd_file x) r.2 /\ rd_mode x = (redir_mode r.1).1 /\ rd_fd x = (redir_mode r.1).2.

Lemma in_line_suffix s full a w : s `suffix_of` full -> in_line s a w -> in_line full a w.
Proof. intros Hs (? & ? & ? & ? & ?). repeat split; try done. by etrans. Qed.

Lemma means_redirected full c t xs rs : means full c t -> Forall2 (redir_means full) xs rs ->
  means full (redirected c xs) (with_redirs t rs).
Proof. intros Hc H. revert c t Hc. induction H as [|x r xs rs (A & B & D) H IH]; intros c t Hc; [done|]. cbn. by apply IH. Qed.

(** Where the parser goes on after a piece: a skipped suffix that spells the rest. *)
Record rest_at (full : ptr) (ts : list token) (s : ptr) : Prop := {
  ra_spells : spells s ts;
  ra_skip : skip_ws s = s;
  ra_suffix : s `suffix_of` full;
}.

Lemma rest_skip full s e ts : e `suffix_of` s -> s `suffix_of` full -> spells e ts -> rest_at full ts (skip_ws e).
Proof.
  intros He Hs Ht. constructor; [by apply spells_skip|apply skip_ws_idem|].
  etrans; [apply skip_ws_suffix|]. by etrans.
Qed.

Definition syms (l : list Z) : Prop := forall x, is_in l x = true -> is_in symbols x = true.

Lemma syms_sub l : l ⊆ symbols -> syms l.
Proof. intros H x. rewrite !is_in_elem. apply H. Qed.

Ltac syms := apply syms_sub; unfold symbols; set_solver.

Section Parser.
Context {S : Type} `{!Usys S} (junk : list Z) (full : ptr).
Implicit Types st : S.

Lemma parseredirs_spec rs k xs s ts : spells s (redir_toks rs ++ ts) -> head_in [60; 62] ts = false ->
  s `suffix_of` full -> (length rs < k)%nat ->
  exists ys s', (forall st, parseredirs junk k xs s st = Ret (xs ++ ys, s') st) /\
    Forall2 (redir_means full) ys rs /\ rest_at full ts s'.
Proof.
  revert k xs s. induction rs as [|[d w] rs IH]; intros k xs s Hs Hh Hf Hk; (destruct k as [|k]; [lia|]); cbn [parseredirs].
  - change (redir_toks [] ++ ts) with ts in Hs. rewrite (peek_spells _ _ [60; 62] ltac:(syms) Hs), Hh. exists [], (skip_ws s). rewrite app_nil_r. split; [done|]. split; [constructor|]. by apply (rest_skip full s).
  - rewrite (peek_spells _ _ [60; 62] ltac:(syms) Hs). unfold redir_toks in Hs. cbn [fmap list_fmap concat app fst snd] in Hs.
    fold (redir_toks rs) in Hs. set (t := match d with In => TSym 60 | Out => TSym 62 | Append => TApp end) in *.
    assert (exists tok q e, gettoken (skip_ws s) = (tok, q, e, skip_ws e) /\ spells e (TWord w :: redir_toks rs ++ ts) /\
      e `suffix_of` skip_ws s /\ tok = match d with In => 60 | Out => 62 | Append => 43 end) as (tok & q & e & G & Se & Sf & Et).
    { apply spells_skip in Hs. destruct d; [apply gettoken_sym in Hs|apply gettoken_sym in Hs|apply gettoken_app in Hs];
        destruct Hs as (q & e & ? & ? & ?); by eexists _, q, e. }
    assert (head_in [60; 62] (t :: TWord w :: redir_toks rs ++ ts) = true) as Hd by (by destruct d).
    change (head_in _ _) with (head_in [60; 62] (t :: TWord w :: redir_toks rs ++ ts)). rewrite Hd, G. cbn [negb].
    destruct (gettoken_word _ _ _ (spells_skip _ _ Se)) as (q2 & e2 & -> & Se2 & Hin & Sf2).
    change (negb (97 =? 97)) with false. cbv iota. cbv zeta.
    set (x := mkredir (q2, e2) (redir_mode d).1 (redir_mode d).2).
    match goal with |- context [parseredirs junk k (xs ++ ?r)] => assert (r = [x]) as -> by (subst tok; by destruct d) end.
    assert (skip_ws e `suffix_of` full) as Hse.
    { etrans; [apply skip_ws_suffix|]. etrans; [exact Sf|]. etrans; [apply skip_ws_suffix|done]. }
    destruct (IH k (xs ++ [x]) (skip_ws e2)) as (ys & s' & E & F & R).
    + by apply spells_skip.
    + done.
    + etrans; [apply skip_ws_suffix|]. by etrans.
    + cbn in Hk. lia.
    + exists (x :: ys), s'. rewrite <- app_assoc in E. split; [exact E|]. split; [|done]. constructor; [|done].
      repeat split; try apply Hin. etrans; [apply Hin|done].
Qed.

(** What may follow a command: the end, or one of |)&;. *)
Definition ends_command (ts : list token) : Prop := ts = [] \/ head_in [124; 41; 38; 59] ts = true.

Lemma ends_no_redir ts : ends_command ts -> head_in [60; 62] ts = false.
Proof.
  intros [->|H]; [done|]. destruct ts as [|[w|c|] ts]; [done|done| |by vm_compute in H].
  cbn [head_in] in *. apply is_in_elem in H. destruct (is_in [60; 62] c) eqn:E; [|done]. apply is_in_elem in E. set_solver.
Qed.

Lemma words_head ws ts : head_in [124; 41; 38; 59] (words_toks ws ++ ts) = match ws with [] => head_in [124; 41; 38; 59] ts | _ => false end.
Proof. by destruct ws as [|[w rs] ws]. Qed.

Lemma words_no_redir ws ts : ends_command ts -> head_in [60; 62] (words_toks ws ++ ts) = false.
Proof. intros H. destruct ws as [|[w rs] ws]; [by apply ends_no_redir|done]. Qed.

Lemma exec_loop_spec ws k argv args xs s ts : spells s (words_toks ws ++ ts) -> ends_command ts ->
  s `suffix_of` full -> (length (words_toks ws) < k)%nat -> (length argv + length ws < 10)%nat ->
  Forall2 (in_line full) argv args ->
  exists argv' ys s', (forall st, exec_loop junk k argv xs s st = Ret (redirected (EXEC argv') (xs ++ ys), s') st) /\
    Forall2 (in_line full) argv' (args ++ (fst <$> ws)) /\ Forall2 (redir_means full) ys (concat (snd <$> ws)) /\ rest_at full ts s'.
Proof.
  revert k argv args xs s. induction ws as [|[w rs] ws IH]; intros k argv args xs s Hs He Hf Hk Hl Ha; (destruct k as [|k]; [lia|]);
    cbn [exec_loop]; rewrite (peek_spells _ _ [124; 41; 38; 59] ltac:(syms) Hs), words_head.
  - cbn [words_toks fmap list_fmap concat app] in Hs. destruct He as [-> | ->].
    + cbn [head_in]. assert (skip_ws s = []) as -> by (by inversion Hs). cbn [gettoken skip_ws]. change (0 =? 0) with true. cbv iota.
      exists argv, [], []. rewrite !app_nil_r. split_and!; [done|done|constructor|]. by constructor; [constructor|done|apply suffix_nil].
    + exists argv, [], (skip_ws s). rewrite !app_nil_r. split_and!; [done|done|constructor|]. by apply (rest_skip full s).
  - unfold words_toks in Hs, Hk. cbn [fmap list_fmap concat app fst snd] in Hs, Hk. fold (words_toks ws) in Hs, Hk.
    rewrite <- app_assoc in Hs. cbn [length] in Hk, Hl. rewrite length_app in Hk.
    destruct (gettoken_word _ _ _ (spells_skip _ _ Hs)) as (q & e & -> & Se & Hin & Sf).
    change (97 =? 0) with false. change (negb (97 =? 97)) with false. cbv iota. cbv zeta.
    rewrite length_app. cbn [length]. destruct (Z.leb_spec MAXARGS (Z.of_nat (length argv + 1))); [unfold MAXARGS in *; lia|].
    assert (skip_ws s `suffix_of` full) as Hss by (etrans; [apply skip_ws_suffix|done]).
    assert (skip_ws e `suffix_of` full) as Hse by (etrans; [apply skip_ws_suffix|]; by etrans).
    assert (length rs <= length (redir_toks rs))%nat as Hlen.
    { clear. unfold redir_toks. induction rs as [|r rs IH]; [done|]. cbn. lia. }
    destruct (parseredirs_spec rs (Datatypes.S k) xs (skip_ws e) (words_toks ws ++ ts)) as (ys & s1 & E1 & F1 & [R1 R2 R3]);
      [by apply spells_skip|by apply words_no_redir|done|lia|].
    destruct (IH k (argv ++ [(q, e)]) (args ++ [w]) (xs ++ ys) s1) as (argv' & zs & s2 & E2 & F2 & F3 & R); try done.
    + lia.
    + rewrite length_app. cbn. lia.
    + apply Forall2_app; [done|]. constructor; [|constructor]. by apply (in_line_suffix (skip_ws s)).
    + exists argv', (ys ++ zs), s2. split; [|split; [|split; [|done]]].
      * intros st. erewrite bind_ret by apply E1. cbn [fst snd]. rewrite E2. by rewrite app_assoc.
      * by rewrite <- app_assoc in F2.
      * cbn. by apply Forall2_app.
Qed.

Lemma back_loop_spec n k c s ts : spells s (replicate n (TSym 38) ++ ts) -> head_in [38] ts = false -> s `suffix_of` full ->
  (n < k)%nat ->
  exists s', (forall st, back_loop k c s st = Ret (Nat.iter n BACK c, s') st) /\ rest_at full ts s'.
Proof.
  revert k c s. induction n as [|n IH]; intros k c s Hs Hh Hf Hk; (destruct k as [|k]; [lia|]); cbn [back_loop];
    rewrite (peek_spells _ _ [38] ltac:(syms) Hs); cbn [replicate app] in *.
  - rewrite Hh. exists (skip_ws s). split; [done|]. by apply (rest_skip full s).
  - change (head_in [38] (TSym 38 :: replicate n (TSym 38) ++ ts)) with true. cbn [negb].
    destruct (gettoken_sym _ _ _ (spells_skip _ _ Hs)) as (q & e & -> & Se & Sf).
    destruct (IH k (BACK c) (skip_ws e)) as (s' & E & R); [by apply spells_skip|done| |lia|].
    + etrans; [apply skip_ws_suffix|]. etrans; [exact Sf|]. by etrans; [apply skip_ws_suffix|].
    + exists s'. split; [|done]. intros st. rewrite E. by rewrite Nat.iter_succ_r.
Qed.

Lemma means_back n c t : means full c t -> means full (Nat.iter n BACK c) (Nat.iter n TBack t).
Proof. intros H. by induction n. Qed.

(** A symbol taken after a piece. *)
Lemma next_sym s c ts : rest_at full (TSym c :: ts) s -> exists q e, gettoken s = (c, q, e, skip_ws e) /\ rest_at full ts (skip_ws e).
Proof.
  intros [Hs Hk Hf]. destruct (gettoken_sym _ _ _ Hs) as (q & e & E & Se & Sf). exists q, e. split; [done|]. by apply (rest_skip full s).
Qed.

Lemma peek_rest s ts l : syms l -> rest_at full ts s -> peek s l = (head_in l ts, s).
Proof. intros Hl [Hs Hk _]. rewrite (peek_spells _ _ _ Hl Hs). by rewrite Hk. Qed.

Lemma head_in_sub l l' ts : l ⊆ l' -> head_in l ts = true -> head_in l' ts = true.
Proof. intros Hl. destruct ts as [|[w|c|] ts]; cbn; [done|done| |]; rewrite !is_in_elem; apply Hl. Qed.

Lemma head_in_disjoint l l' ts : l ## l' -> head_in l ts = true -> head_in l' ts = false.
Proof.
  intros Hl H. destruct (head_in l' ts) eqn:E; [|done].
  destruct ts as [|[w|c|] ts]; cbn in *; try done; apply is_in_elem in H, E; by destruct (Hl _ H E).
Qed.

Definition parses_line (l : line) : Prop := forall fuel s ts, line_ok l -> spells s (line_toks l ++ ts) ->
  ts = [] \/ head_in [41] ts = true -> s `suffix_of` full -> (4 * length (line_toks l) + 3 <= fuel)%nat ->
  exists c s', (forall st, parseline junk fuel s st = Ret (c, s') st) /\ means full c (line_tree l) /\ rest_at full ts s'.
Definition parses_pipe (p : pipeline) : Prop := forall fuel s ts, pipe_ok p -> spells s (pipe_toks p ++ ts) ->
  ts = [] \/ head_in [41; 38; 59] ts = true -> s `suffix_of` full -> (4 * length (pipe_toks p) + 2 <= fuel)%nat ->
  exists c s', (forall st, parsepipe junk fuel s st = Ret (c, s') st) /\ means full c (pipe_tree p) /\ rest_at full ts s'.
Definition parses_command (e : command) : Prop := forall fuel s ts, command_ok e -> spells s (command_toks e ++ ts) ->
  ends_command ts -> s `suffix_of` full -> (4 * length (command_toks e) + 1 <= fuel)%nat ->
  exists c s', (forall st, parseexec junk fuel s st = Ret (c, s') st) /\ means full c (command_tree e) /\ rest_at full ts s'.

Lemma length_redir_toks rs : (length rs <= length (redir_toks rs))%nat.
Proof. unfold redir_toks. induction rs as [|r rs IH]; [done|]. cbn. lia. Qed.

Lemma parses_simple rs ws : parses_command (Simple rs ws).
Proof.
  intros fuel s ts Hok Hs He Hf Hk. cbn [command_toks command_ok] in *. rewrite <- app_assoc in Hs. rewrite length_app in Hk.
  destruct fuel as [|fuel]; [lia|]. cbn [parseexec]. rewrite (peek_spells _ _ [40] ltac:(syms) Hs).
  assert (head_in [40] (redir_toks rs ++ words_toks ws ++ ts) = false) as ->.
  { destruct rs as [|[[] w] rs]; [|done..]. cbn [redir_toks fmap list_fmap concat app]. destruct ws as [|[w ws'] ws]; [|done].
    destruct He as [->|He]; [done|]. by apply (head_in_disjoint [124; 41; 38; 59]); [set_solver|]. }
  pose proof (length_redir_toks rs).
  destruct (parseredirs_spec rs (Datatypes.S fuel) [] (skip_ws s) (words_toks ws ++ ts)) as (ys & s1 & E1 & F1 & [R1 R2 R3]);
    [by apply spells_skip|by apply words_no_redir|by etrans; [apply skip_ws_suffix|]|lia|].
  destruct (exec_loop_spec ws (Datatypes.S fuel) [] [] ys s1 ts) as (argv & zs & s2 & E2 & F2 & F3 & R); try done; [lia|].
  exists (redirected (EXEC argv) (ys ++ zs)), s2. split; [|split; [|done]].
  - intros st. erewrite bind_ret by apply E1. cbn [fst snd app]. by rewrite E2.
  - cbn [command_tree]. apply means_redirected; [done|]. by apply Forall2_app.
Qed.

Lemma parses_block l rs : parses_line l -> parses_command (Block l rs).
Proof.
  intros IH fuel s ts Hok Hs He Hf Hk. cbn [command_toks command_ok] in *. cbn [app] in Hs. rewrite <- app_assoc in Hs. cbn [app] in Hs.
  cbn [length] in Hk. rewrite length_app in Hk. cbn [length] in Hk. pose proof (length_redir_toks rs).
  destruct fuel as [|[|fuel]]; [lia|lia|]. cbn [parseexec]. rewrite (peek_spells _ _ [40] ltac:(syms) Hs).
  change (head_in [40] (TSym 40 :: _)) with true. cbv iota. cbn [parseblock].
  assert (rest_at full (TSym 40 :: line_toks l ++ TSym 41 :: redir_toks rs ++ ts) (skip_ws s)) as R0 by (by apply (rest_skip full s)).
  rewrite (peek_rest _ _ [40] ltac:(syms) R0). change (head_in [40] (TSym 40 :: _)) with true. cbn [negb].
  destruct (next_sym _ _ _ R0) as (q & e & -> & R1).
  destruct (IH fuel (skip_ws e) (TSym 41 :: redir_toks rs ++ ts)) as (c & s2 & E2 & M2 & R2);
    [done|apply R1|by right|apply R1|lia|].
  destruct (next_sym _ _ _ R2) as (q3 & e3 & G3 & R3).
  destruct (parseredirs_spec rs (Datatypes.S fuel) [] (skip_ws e3) ts) as (ys & s4 & E4 & F4 & R4);
    [apply R3|by apply ends_no_redir|apply R3|lia|].
  exists (redirected c ys), s4. split; [|split; [|done]].
  - intros st. erewrite bind_ret by apply E2. cbv beta iota. rewrite (peek_rest _ _ [41] ltac:(syms) R2).
    change (head_in [41] (TSym 41 :: _)) with true. cbn [negb]. rewrite G3. by erewrite bind_ret by apply E4.
  - by apply means_redirected.
Qed.

Lemma parses_pend e : parses_command e -> parses_pipe (PEnd e).
Proof.
  intros IH fuel s ts Hok Hs He Hf Hk. cbn [pipe_toks pipe_ok] in *. destruct fuel as [|fuel]; [lia|]. cbn [parsepipe].
  assert (ends_command ts) as He' by (destruct He as [->|He]; [by left|right; eapply head_in_sub; [|exact He]; set_solver]).
  destruct (IH fuel s ts Hok Hs He' Hf ltac:(lia)) as (c & s1 & E1 & M1 & R1). exists c, s1. split; [|done].
  intros st. erewrite bind_ret by apply E1. cbv beta iota. rewrite (peek_rest _ _ [124] ltac:(syms) R1).
  destruct He as [->|He]; [done|]. by rewrite (head_in_disjoint [41; 38; 59]) by (done || set_solver).
Qed.

Lemma parses_pseq e p : parses_command e -> parses_pipe p -> parses_pipe (PSeq e p).
Proof.
  intros IHe IHp fuel s ts [Hok1 Hok2] Hs He Hf Hk. cbn [pipe_toks] in *. rewrite <- app_assoc in Hs. cbn [app] in Hs.
  rewrite length_app in Hk. cbn [length] in Hk. destruct fuel as [|fuel]; [lia|]. cbn [parsepipe].
  destruct (IHe fuel s (TSym 124 :: pipe_toks p ++ ts)) as (c & s1 & E1 & M1 & R1); [done|done|by right|done|lia|].
  destruct (next_sym _ _ _ R1) as (q & e2 & G & R2).
  destruct (IHp fuel (skip_ws e2) ts) as (c3 & s3 & E3 & M3 & R3); [done|apply R2|done|apply R2|lia|].
  exists (PIPE c c3), s3. split; [|split; [by split|done]].
  intros st. erewrite bind_ret by apply E1. cbv beta iota. rewrite (peek_rest _ _ [124] ltac:(syms) R1).
  change (head_in [124] (TSym 124 :: _)) with true. cbv iota. rewrite G. by erewrite bind_ret by apply E3.
Qed.

(** The pipeline of a line and its ampersands. *)
Lemma parses_front p n fuel s ts : parses_pipe p -> pipe_ok p -> spells s (pipe_toks p ++ replicate n (TSym 38) ++ ts) ->
  ts = [] \/ head_in [41; 59] ts = true -> s `suffix_of` full -> (4 * (length (pipe_toks p) + n) + 2 <= fuel)%nat ->
  exists c s', (forall st, (r <- parsepipe junk fuel s ;; back_loop (Datatypes.S fuel) r.1 r.2) st = Ret (c, s') st) /\
    means full c (Nat.iter n TBack (pipe_tree p)) /\ rest_at full ts s'.
Proof.
  intros IH Hok Hs He Hf Hk.
  destruct (IH fuel s (replicate n (TSym 38) ++ ts)) as (c & s1 & E1 & M1 & [R1 R2 R3]); [done|done| |done|lia|].
  { destruct n as [|n]; [|by right]. cbn [replicate app]. destruct He as [->|He]; [by left|right]. eapply head_in_sub; [|exact He]. set_solver. }
  destruct (back_loop_spec n (Datatypes.S fuel) c s1 ts) as (s2 & E2 & R); [done| |done|lia|].
  { destruct He as [->|He]; [done|]. by rewrite (head_in_disjoint [41; 59]) by (done || set_solver). }
  exists (Nat.iter n BACK c), s2. split; [|split; [by apply means_back|done]].
  intros st. erewrite bind_ret by apply E1. cbn [fst snd]. apply E2.
Qed.

Lemma parses_lend p n : parses_pipe p -> parses_line (LEnd p n).
Proof.
  intros IH fuel s ts Hok Hs He Hf Hk. cbn [line_toks line_ok line_tree] in *. rewrite <- app_assoc in Hs.
  rewrite length_app, length_replicate in Hk. destruct fuel as [|fuel]; [lia|]. cbn [parseline].
  destruct (parses_front p n fuel s ts IH Hok Hs) as (c & s1 & E1 & M1 & R1); [|done|lia|].
  { destruct He as [->|He]; [by left|right]. eapply head_in_sub; [|exact He]. set_solver. }
  exists c, s1. split; [|done]. intros st. rewrite <- bind_assoc. erewrite bind_ret by apply E1. cbv beta iota.
  rewrite (peek_rest _ _ [59] ltac:(syms) R1). destruct He as [->|He]; [done|].
  by rewrite (head_in_disjoint [41]) by (done || set_solver).
Qed.

Lemma parses_lseq p n l : parses_pipe p -> parses_line l -> parses_line (LSeq p n l).
Proof.
  intros IHp IHl fuel s ts [Hok1 Hok2] Hs He Hf Hk. cbn [line_toks line_tree] in *. rewrite <- !app_assoc in Hs. cbn [app] in Hs.
  rewrite !length_app, length_replicate in Hk. cbn [length] in Hk. destruct fuel as [|fuel]; [lia|]. cbn [parseline].
  destruct (parses_front p n fuel s (TSym 59 :: line_toks l ++ ts) IHp Hok1 Hs) as (c & s1 & E1 & M1 & R1); [by right|done|lia|].
  destruct (next_sym _ _ _ R1) as (q & e2 & G & R2).
  destruct (IHl fuel (skip_ws e2) ts) as (c3 & s3 & E3 & M3 & R3); [done|apply R2|done|apply R2|lia|].
  exists (LIST c c3), s3. split; [|split; [by split|done]].
  intros st. rewrite <- bind_assoc. erewrite bind_ret by apply E1. cbv beta iota. rewrite (peek_rest _ _ [59] ltac:(syms) R1).
  change (head_in [59] (TSym 59 :: _)) with true. cbv iota. rewrite G. by erewrite bind_ret by apply E3.
Qed.
End Parser.

Scheme line_mut := Induction for line Sort Prop
  with pipeline_mut := Induction for pipeline Sort Prop
  with command_mut := Induction for command Sort Prop.

Lemma parses_all {S} `{!Usys S} junk full l : parses_line junk full l.
Proof.
  apply (line_mut (parses_line junk full) (parses_pipe junk full) (parses_command junk full)).
  - intros p H n. by apply parses_lend.
  - intros p H n l' Hl. by apply parses_lseq.
  - apply parses_pend.
  - intros e He p Hp. by apply parses_pseq.
  - apply parses_simple.
  - intros l' Hl rs. by apply parses_block.
Qed.

(** ** Ending the strings *)

Fixpoint ends (c : cmd) : list ptr :=
  match c with
  | EXEC argv => snd <$> argv
  | REDIR c file _ _ => ends c ++ [file.2]
  | PIPE l r | LIST l r => ends l ++ ends r
  | BACK c => ends c
  end.

Lemma nulterminate_ends c buf : nulterminate c buf = foldl (fun b e => end_string e b) buf (ends c).
Proof.
  revert buf. induction c as [argv|c IH file mode fd|l IHl r IHr|l IHl r IHr|c IH]; intros buf; cbn [nulterminate ends].
  - revert buf. induction argv as [|a argv IH]; intros buf; [done|]. cbn. apply IH.
  - by rewrite IH, foldl_app.
  - by rewrite IHl, IHr, foldl_app.
  - by rewrite IHl, IHr, foldl_app.
  - apply IH.
Qed.

Definition good_end (full : ptr) (e : ptr) : Prop := delimits e /\ e `suffix_of` full.

Lemma means_ends full c t : means full c t -> Forall (good_end full) (ends c).
Proof.
  assert (forall a w, in_line full a w -> good_end full a.2) as Ha.
  { intros a w (Eq & _ & _ & Hd & Hs). split; [done|]. rewrite Eq in Hs. etrans; [|exact Hs]. by apply suffix_app_r. }
  revert t. induction c as [argv|c IH file mode fd|l IHl r IHr|l IHl r IHr|c IH]; intros [ws|t w m f|l' r'|l' r'|t]; cbn; try done.
  - intros H. induction H as [|a w argv ws H1 H2 IH]; [constructor|]. cbn. constructor; [by eapply Ha|done].
  - intros (H1 & H2 & _). apply Forall_app. split; [by eapply IH|]. constructor; [by eapply Ha|constructor].
  - intros [H1 H2]. apply Forall_app. split; [by eapply IHl|by eapply IHr].
  - intros [H1 H2]. apply Forall_app. split; [by eapply IHl|by eapply IHr].
  - apply IH.
Qed.

(** A word of the line, in [b] with some strings ended. *)
Definition holds (pre w b : list Z) : Prop := forall i c, w !! i = Some c -> b !! (length pre + i)%nat = Some c.

Lemma holds_end pre w e e' full b : full = pre ++ w ++ e -> Forall (fun c => word_char c = true) w -> length b = length full ->
  good_end full e' -> holds pre w b -> holds pre w (end_string e' b).
Proof.
  intros Ef Hw Hl [Hd [p Ep]] Hb i c Hi. unfold end_string. rewrite list_lookup_insert_ne; [by apply Hb|].
  intros E. assert (length full = length p + length e')%nat as Hlf by (rewrite Ep; apply length_app).
  assert (length b - length e' = length p)%nat as Ep' by lia. rewrite Ep' in E.
  pose proof (lookup_lt_Some _ _ _ Hi) as Hlt.
  assert (full !! length p = Some c) as H1.
  { rewrite E, Ef, lookup_app_r by lia. rewrite lookup_app_l by lia. replace (length pre + i - length pre)%nat with i by lia. done. }
  rewrite Ep, lookup_app_r, Nat.sub_diag in H1 by lia. destruct e' as [|c' e']; [done|]. injection H1 as ->.
  assert (word_char c = true) as Hc by (by eapply Forall_lookup_1 in Hw).
  unfold word_char in Hc. cbn in Hd. destruct (is_in whitespace c), (is_in symbols c); try done; by rewrite !andb_false_r in Hc.
Qed.

Lemma length_ends es b : length (foldl (fun b e => end_string e b) b es) = length b.
Proof. revert b. induction es as [|e es IH]; intros b; [done|]. cbn. rewrite IH. unfold end_string. by rewrite length_insert. Qed.

(** A NUL once written stays. *)
Lemma ends_nul es b j : b !! j = Some 0 -> foldl (fun b e => end_string e b) b es !! j = Some 0.
Proof.
  revert b. induction es as [|e es IH]; intros b Hb; [done|]. cbn. apply IH. unfold end_string.
  destruct (decide (length b - length e = j)%nat) as [->|Hn]; [|by rewrite list_lookup_insert_ne].
  apply list_lookup_insert_eq. by apply lookup_lt_Some in Hb.
Qed.

Lemma ends_hold es pre w e full b : full = pre ++ w ++ e -> Forall (fun c => word_char c = true) w -> length b = length full ->
  Forall (good_end full) es -> holds pre w b ->
  holds pre w (foldl (fun b e => end_string e b) b es) /\
  (e ∈ es -> e <> [] -> foldl (fun b e => end_string e b) b es !! (length pre + length w)%nat = Some 0).
Proof.
  intros Ef Hw. revert b. induction es as [|e' es IH]; intros b Hl Hes Hb; [split; [done|intros ?%not_elem_of_nil; done]|].
  cbn [foldl].
  assert (length (end_string e' b) = length full) as Hl' by (unfold end_string; by rewrite length_insert).
  apply Forall_cons in Hes as [He Hes]. destruct (IH (end_string e' b) Hl' Hes) as [A B]; [by eapply holds_end|].
  split; [done|]. intros [<-|Hin]%elem_of_cons Hne; [|by apply B]. apply ends_nul. unfold end_string.
  assert (length full = length pre + (length w + length e))%nat as Hlf by (rewrite Ef, !length_app; done).
  replace (length b - length e)%nat with (length pre + length w)%nat by lia. apply list_lookup_insert_eq.
  destruct e; [done|]. cbn in Hlf. lia.
Qed.

Lemma c_string_word w rest : Forall (fun c => word_char c = true) w -> rest = [] \/ head rest = Some 0 -> c_string (w ++ rest) = w.
Proof.
  intros Hw Hr. induction w as [|c w IH].
  - destruct Hr as [->|Hr]; [done|]. destruct rest as [|x rest]; [done|]. injection Hr as ->. done.
  - inversion Hw as [|? ? Hc Hw']; subst. cbn. destruct (Z.eqb_spec c 0) as [->|]; [by vm_compute in Hc|]. by rewrite IH.
Qed.

(** Every string of a command reads as its word. *)
Lemma string_at_word full es a w : in_line full a w -> Forall (good_end full) es -> a.2 ∈ es ->
  string_at (foldl (fun b e => end_string e b) full es) a.1 = w.
Proof.
  intros (Eq & Hne & Hw & Hd & [pre Hpre]) Hes Hin. unfold string_at. rewrite length_ends.
  assert (full = pre ++ w ++ a.2) as Ef by (by rewrite Hpre, Eq).
  assert (length full - length a.1 = length pre)%nat as -> by (rewrite Hpre, length_app; lia).
  assert (holds pre w full) as H0.
  { intros i c Hi. pose proof (lookup_lt_Some _ _ _ Hi). rewrite Ef, lookup_app_r by lia. rewrite lookup_app_l by lia.
    by replace (length pre + i - length pre)%nat with i by lia. }
  destruct (ends_hold es pre w a.2 full full Ef Hw eq_refl Hes H0) as [H1 H2].
  set (b := foldl _ full es) in *. assert (length b = length full) as Hb by apply length_ends.
  assert (take (length w) (drop (length pre) b) = w) as Ht.
  { apply list_eq. intros i. destruct (w !! i) as [c|] eqn:Hi.
    - pose proof (lookup_lt_Some _ _ _ Hi). rewrite lookup_take_lt by done. rewrite lookup_drop. by apply H1.
    - apply lookup_ge_None in Hi. apply lookup_ge_None. rewrite length_take. lia. }
  rewrite <- (take_drop (length w) (drop (length pre) b)), Ht. apply c_string_word; [done|].
  rewrite drop_drop. destruct a.2 as [|x e] eqn:Ee.
  - left. apply nil_length_inv. rewrite length_drop, Hb, Ef, !length_app. cbn. lia.
  - right. rewrite head_lookup, lookup_drop, Nat.add_0_r. by apply H2.
Qed.

Lemma tree_of_means full c t es : means full c t -> Forall (good_end full) es -> (forall e, e ∈ ends c -> e ∈ es) ->
  tree_of (fun a => string_at (foldl (fun b e => end_string e b) full es) a.1) c = t.
Proof.
  intros Hm Hes. revert t Hm.
  induction c as [argv|c IH file mode fd|l IHl r IHr|l IHl r IHr|c IH]; intros [ws|t w m f|l' r'|l' r'|t]; cbn; try done.
  - intros H He. f_equal. induction H as [|a w argv ws H1 H2 IH]; [done|]. cbn in *. f_equal.
    + apply string_at_word; [done|done|]. apply He. by left.
    + apply IH. intros e ?. apply He. by right.
  - intros (H1 & H2 & -> & ->) He. f_equal.
    + apply IH; [done|]. intros e ?. apply He. apply elem_of_app. by left.
    + apply string_at_word; [done|done|]. apply He. apply elem_of_app. right. by left.
  - intros [H1 H2] He. f_equal; [apply IHl|apply IHr]; try done; intros e ?; apply He, elem_of_app; [by left|by right].
  - intros [H1 H2] He. f_equal; [apply IHl|apply IHr]; try done; intros e ?; apply He, elem_of_app; [by left|by right].
  - intros H1 He. f_equal. by apply IH.
Qed.

Lemma spells_length s ts : spells s ts -> (length ts <= length s)%nat.
Proof.
  assert (forall s, length (skip_ws s) <= length s)%nat as Hk by (intros; apply suffix_length, skip_ws_suffix).
  induction 1 as [s E|s w e ts E Hw _ _ _ IH|s c e ts E _ _ IH|s e ts E _ _ IH|s e ts E _ IH]; [cbn; lia|..];
    specialize (Hk s); rewrite E in Hk; cbn [length] in *; rewrite ?length_app in Hk; try lia.
  destruct w; [done|]. cbn in Hk. lia.
Qed.

(** ** Properties *)

(** C33: the shell understands its grammar.  Every line that spells, with any
    blanks, a line of the grammar (lists, background jobs, pipelines, blocks,
    redirections before and after words, at most nine words to a command) is parsed
    within the fuel the shell gives, whatever the state; the command has the
    structure and, once nulterminate() ended its strings in the line, the very words
    of the grammar. *)
Theorem parsecmd_parses {S} `{!Usys S} (junk : list Z) (s : list Z) (l : line) (st : S)
  (Hs : spells s (line_toks l)) (Hl : line_ok l) :
  returns (parsecmd junk (8 * (length s + 2)) s) st (fun r st' =>
    st' = st /\ tree_of (fun a => string_at r.2 a.1) r.1 = line_tree l).
Proof.
  pose proof (spells_length _ _ Hs) as Hlen.
  destruct (parses_all junk s l (8 * (length s + 2))%nat s []) as (c & s' & E & Hm & R);
    [done|by rewrite app_nil_r|by left|done|lia|].
  unfold parsecmd. apply returns_bind. eapply returns_intro; [apply E|]. cbv beta iota. unfold peek.
  destruct R as [Rs Rk Rf]. assert (s' = []) as -> by (inversion Rs; congruence). cbn [skip_ws].
  rewrite bool_decide_eq_true_2 by done. cbn [negb]. apply returns_ret. cbn [fst snd]. split; [done|].
  rewrite nulterminate_ends. apply (tree_of_means s); [done|by eapply means_ends|done].
Qed.

(** ** Witnesses *)

#[local] Ltac spell := first
  [ apply spells_end; reflexivity
  | eapply spells_app; [reflexivity|]
  | eapply spells_gt; [reflexivity|done|]
  | eapply spells_sym; [reflexivity|reflexivity|]
  | eapply (spells_word _ [_]); [reflexivity|done|by repeat constructor|done|] ].

Lemma parsecmd_parses_witness :
  returns (parsecmd (S := uenv) (replicate 16 0) 280 (str "(a>f;b)|c d >>g & ; e < h  i")) (mkuenv [] [] []) (fun r st' =>
    st' = mkuenv [] [] [] /\
    tree_of (fun a => string_at r.2 a.1) r.1 =
      TList (TBack (TPipe (TList (TRedir (TExec [str "a"]) (str "f") 0x601 1) (TExec [str "b"]))
                     (TRedir (TExec [str "c"; str "d"]) (str "g") 0x201 1)))
        (TRedir (TExec [str "e"; str "i"]) (str "h") 0 0)).
Proof.
  apply (parsecmd_parses (replicate 16 0) (str "(a>f;b)|c d >>g & ; e < h  i")
    (LSeq (PSeq (Block (LSeq (PEnd (Simple [] [(str "a", [(Out, str "f")])])) 0 (LEnd (PEnd (Simple [] [(str "b", [])])) 0)) [])
             (PEnd (Simple [] [(str "c", []); (str "d", [(Append, str "g")])]))) 1
       (LEnd (PEnd (Simple [] [(str "e", [(In, str "h")]); (str "i", [])])) 0))).
  2: { cbn. lia. }
  repeat spell.
Defined.
