(* ===== verification/Umalloc.v ===== *)
(** * Umalloc: the user memory allocator

    Models user/umalloc.c.  A block is a header of 16 bytes, the link to the next
    free block and the size in units of 16 bytes, header included, followed by the
    memory handed out.  Pointers are addresses; [ubase] is the address of the static
    header [base].  sbrk() is a parameter. *)
From S2P Require Import Prelude Mem.

(** A process as malloc() and sbrk() see it. *)
Record uproc : Type := mkuproc {
  up_mem : mem;          (* its memory *)
  up_freep : Z;          (* freep, 0 until the first malloc() *)
  up_brk : Z;            (* its size, moved by sbrk() *)
}.
#[export] Instance eta_uproc : Settable uproc := fun s => mkuproc (up_mem s) (up_freep s) (up_brk s).

(** union header *)
Definition HEADER : Z := 16.         (* sizeof(Header) *)
Definition hptr (p : Z) (m : mem) : Z := ld64 p m.
Definition hsize (p : Z) (m : mem) : Z := load_le 4 (p + 8) m.
Definition set_hptr (p v : Z) (m : mem) : mem := st64 p v m.
Definition set_hsize (p v : Z) (m : mem) : mem := store_le 4 (p + 8) (u32 v) m.

Definition umod (f : mem -> mem) : M uproc unit := modify (fun s => s <| up_mem := f (up_mem s) |>).

(** p + n on a pointer to a header *)
Definition hadd (p n : Z) : Z := u64 (p + n * HEADER).

(** The for loop of [ufree]: where bp belongs. *)
Fixpoint find_place (k : nat) (bp p : Z) : M uproc Z :=
  match k with
  | O => fail EHang
  | S k' =>
      next <- gets (fun s => hptr p (up_mem s)) ;;
      if (p <? bp) && (bp <? next) then ret p
      else if (next <=? p) && ((p <? bp) || (bp <? next)) then ret p
      else find_place k' bp next
  end.

(** free() *)
Definition ufree (k : nat) (ap : Z) : M uproc unit :=
  let bp := hadd ap (-1) in
  freep <- gets up_freep ;;
  p <- find_place k bp freep ;;
  m <- gets up_mem ;;
  (if hadd bp (hsize bp m) =? hptr p m then
     umod (fun m => set_hsize bp (hsize bp m + hsize (hptr p m) m) m) ;;
     umod (fun m => set_hptr bp (hptr (hptr p m) m) m)
   else umod (fun m => set_hptr bp (hptr p m) m)) ;;
  m <- gets up_mem ;;
  (if hadd p (hsize p m) =? bp then
     umod (fun m => set_hsize p (hsize p m + hsize bp m) m) ;;
     umod (fun m => set_hptr p (hptr bp m) m)
   else umod (set_hptr p bp)) ;;
  modify (fun s => s <| up_freep := p |>).

(** The block [p], after [prevp] on the list, is large enough. *)
Definition take_block (nunits prevp p : Z) : M uproc Z :=
  m <- gets up_mem ;;
  p <- (if hsize p m =? nunits then
          umod (set_hptr prevp (hptr p m)) ;;
          ret p
        else
          umod (set_hsize p (hsize p m - nunits)) ;;
          p <- gets (fun s => hadd p (hsize p (up_mem s))) ;;
          umod (set_hsize p nunits) ;;
          ret p) ;;
  modify (fun s => s <| up_freep := prevp |>) ;;
  ret (hadd p 1).

Section Umalloc.
Context (ubase : Z) (sbrk : Z -> M uproc Z).

Definition morecore (k : nat) (nu : Z) : M uproc Z :=
  let nu := if nu <? 4096 then 4096 else nu in
  p <- sbrk (i32 (u64 (nu * HEADER))) ;;
  if p =? u64 (-1) then ret 0 else
  umod (set_hsize p nu) ;;
  ufree k (hadd p 1) ;;
  gets up_freep.

Fixpoint malloc_loop (fuel k : nat) (nunits prevp p : Z) : M uproc Z :=
  match k with
  | O => fail EHang
  | S k' =>
      sz <- gets (fun s => hsize p (up_mem s)) ;;
      if nunits <=? sz then take_block nunits prevp p else
      freep <- gets up_freep ;;
      if p =? freep then
        p <- morecore fuel nunits ;;
        if p =? 0 then ret 0 else
        next <- gets (fun s => hptr p (up_mem s)) ;;
        malloc_loop fuel k' nunits p next
      else
        next <- gets (fun s => hptr p (up_mem s)) ;;
        malloc_loop fuel k' nunits p next
  end.

Definition malloc (fuel : nat) (nbytes : Z) : M uproc Z :=
  let nunits := u32 ((nbytes + HEADER - 1) / HEADER + 1) in
  freep <- gets up_freep ;;
  when (freep =? 0)
    (umod (set_hptr ubase ubase) ;;
     modify (fun s => s <| up_freep := ubase |>) ;;
     umod (set_hsize ubase 0)) ;;
  prevp <- gets up_freep ;;
  next <- gets (fun s => hptr prevp (up_mem s)) ;;
  malloc_loop fuel fuel nunits prevp next.

(** What a client does: allocate, free, write a byte and read one. *)
Inductive uop : Type := UMalloc (n : Z) | UFree (p : Z) | UWrite (a v : Z) | URead (a : Z).

Definition uop_run (fuel : nat) (o : uop) : M uproc Z :=
  match o with
  | UMalloc n => malloc fuel n
  | UFree p => ufree fuel p ;; ret 0
  | UWrite a v => umod (mset a v) ;; ret 0
  | URead a => gets (fun s => mget (up_mem s) a)
  end.

(** A client chooses each operation knowing the results so far. *)
Inductive client : Type := Done | Do (o : uop) (next : Z -> client).

(** The operations a client made, with their results. *)
Fixpoint client_run (fuel : nat) (c : client) : M uproc (list (uop * Z)) :=
  match c with
  | Done => ret []
  | Do o next => r <- uop_run fuel o ;; tr <- client_run fuel (next r) ;; ret ((o, r) :: tr)
  end.
End Umalloc.

(** ** Specification: memory that belongs to one client at a time *)

(** What clients hold, the address and size of each piece; the bytes they wrote
    there; the size of the process. *)
Record astate : Type := mkastate { as_held : list (Z * Z); as_bytes : gmap Z Z; as_brk : Z }.

Definition owns (held : list (Z * Z)) (a : Z) : Prop := Exists (fun x => x.1 <= a < x.1 + x.2) held.
#[export] Instance owns_dec held a : Decision (owns held a) := _.

(** The memory asked of the kernel when no free block is large enough. *)
Definition request (n : Z) : Z := HEADER * Z.max 4096 ((n + HEADER - 1) / HEADER + 1).

(** One operation: its result and the state after it.  malloc() returns aligned
    memory that nobody holds, within the process; it asks the kernel for at most
    [request n] bytes, and fails only when these would take the process beyond
    [limit]. *)
Inductive astep (limit : Z) (st : astate) : uop -> Z -> astate -> Prop :=
  | astep_malloc n p brk : 0 <= n -> n + 31 < 2 ^ 31 ->
      p <> 0 -> p mod 16 = 0 -> p + n <= brk ->
      brk = as_brk st \/ brk = as_brk st + request n ->
      (forall x, x ∈ as_held st -> x.1 <> p /\ (p + n <= x.1 \/ x.1 + x.2 <= p)) ->
      astep limit st (UMalloc n) p (mkastate ((p, n) :: as_held st) (as_bytes st) brk)
  | astep_nomem n : 0 <= n -> n + 31 < 2 ^ 31 ->
      limit < as_brk st + request n ->
      astep limit st (UMalloc n) 0 st
  | astep_free p n held : as_held st ≡ₚ (p, n) :: held ->
      astep limit st (UFree p) 0
        (mkastate held (filter (fun av => owns held av.1) (as_bytes st)) (as_brk st))
  | astep_write a v : owns (as_held st) a ->
      astep limit st (UWrite a v) 0 (mkastate (as_held st) (<[a := v]> (as_bytes st)) (as_brk st))
  | astep_read a r : owns (as_held st) a -> (forall v, as_bytes st !! a = Some v -> r = v) ->
      astep limit st (URead a) r st.

Inductive atrace (limit : Z) : astate -> list (uop * Z) -> astate -> Prop :=
  | atrace_nil st : atrace limit st [] st
  | atrace_cons st o r st' tr st'' : astep limit st o r st' -> atrace limit st' tr st'' ->
      atrace limit st ((o, r) :: tr) st''.

(** The client frees only what it holds, reads and writes only there. *)
Definition legal (st : astate) (o : uop) : Prop :=
  match o with
  | UMalloc n => 0 <= n /\ n + 31 < 2 ^ 31
  | UFree p => exists n, (p, n) ∈ as_held st
  | UWrite a _ | URead a => owns (as_held st) a
  end.

(** A client of at most [n] operations that keeps to this, whatever the allocator
    answers. *)
Fixpoint plays (limit : Z) (n : nat) (st : astate) (c : client) : Prop :=
  match c, n with
  | Done, _ => True
  | Do _ _, O => False
  | Do o next, S n' => legal st o /\ forall r st', astep limit st o r st' -> plays limit n' st' (next r)
  end.

(** What the kernel promises of sbrk(n): while the process would not exceed [limit]
    it grows by n, its old size is returned and what it holds stays; otherwise -1. *)
Definition sbrk_grows (limit : Z) (sbrk : Z -> M uproc Z) : Prop :=
  forall n s, 0 <= n < 2 ^ 31 -> up_brk s <= limit ->
  returns (sbrk n) s (fun r s' =>
    if limit <? up_brk s + n then r = u64 (-1) /\ s' = s
    else r = up_brk s /\ up_brk s' = up_brk s + n /\ up_freep s' = up_freep s /\
         forall a, a < up_brk s -> mget (up_mem s') a = mget (up_mem s) a).

(** ** Headers *)

#[global] Arguments hptr : simpl never.
#[global] Arguments hsize : simpl never.
#[global] Arguments set_hptr : simpl never.
#[global] Arguments set_hsize : simpl never.

Definition aligned (a : Z) : Prop := a mod 16 = 0.

Lemma aligned_apart a b : aligned a -> aligned b -> a <> b -> a + 16 <= b \/ b + 16 <= a.
Proof. unfold aligned. zmod. Qed.

Lemma hptr_set a b v m : aligned a -> aligned b -> 0 <= v < 2 ^ 64 ->
  hptr b (set_hptr a v m) = if b =? a then v else hptr b m.
Proof.
  intros Ha Hb Hv. unfold hptr, set_hptr. destruct (Z.eqb_spec b a) as [->|Hne].
  - rewrite ld64_st64. unfold u64. by rewrite Z.mod_small.
  - pose proof (aligned_apart _ _ Ha Hb). apply ld64_st64_ne. lia.
Qed.

Lemma hsize_set_ptr a b v m : aligned a -> aligned b -> hsize b (set_hptr a v m) = hsize b m.
Proof.
  intros Ha Hb. unfold hsize, set_hptr. apply load_le_ext. intros k Hk. apply mget_st64.
  destruct (decide (a = b)) as [->|Hne]; [lia|]. pose proof (aligned_apart _ _ Ha Hb). lia.
Qed.

Lemma hsize_set a b v m : aligned a -> aligned b -> 0 <= v < 2 ^ 32 ->
  hsize b (set_hsize a v m) = if b =? a then v else hsize b m.
Proof.
  intros Ha Hb Hv. unfold hsize, set_hsize. unfold u32. rewrite Z.mod_small by done. destruct (Z.eqb_spec b a) as [->|Hne].
  - by apply load_store_same.
  - pose proof (aligned_apart _ _ Ha Hb). apply load_store_other. lia.
Qed.

Lemma hptr_set_size a b v m : aligned a -> aligned b -> hptr b (set_hsize a v m) = hptr b m.
Proof.
  intros Ha Hb. unfold hptr, set_hsize. apply ld64_ext. intros k Hk. apply mget_store_le.
  destruct (decide (a = b)) as [->|Hne]; [lia|]. pose proof (aligned_apart _ _ Ha Hb). lia.
Qed.

Lemma mget_set_hptr a v m k : ~ (a <= k < a + 16) -> mget (set_hptr a v m) k = mget m k.
Proof. intros. apply mget_st64. lia. Qed.

Lemma mget_set_hsize a v m k : ~ (a <= k < a + 16) -> mget (set_hsize a v m) k = mget m k.
Proof. intros. apply mget_store_le. lia. Qed.

(** ** Lists of blocks *)

Definition fin (x : Z * Z) : Z := x.1 + 16 * x.2.
Definition before (x y : Z * Z) : Prop := fin x < y.1.
Definition disj (x y : Z * Z) : Prop := fin x <= y.1 \/ fin y <= x.1.

Fixpoint pairwise {A} (R : A -> A -> Prop) (l : list A) : Prop :=
  match l with [] => True | x :: l' => Forall (R x) l' /\ pairwise R l' end.

Lemma pairwise_app {A} (R : A -> A -> Prop) l1 l2 :
  pairwise R (l1 ++ l2) <-> pairwise R l1 /\ pairwise R l2 /\ forall x y, x ∈ l1 -> y ∈ l2 -> R x y.
Proof.
  induction l1 as [|z l1 IH]; cbn.
  - split; [intros ?; split_and!; [done|done|intros ?? ?%not_elem_of_nil; done]|naive_solver].
  - rewrite IH, Forall_app, !Forall_forall. split; [intros ([? ?] & ? & ? & ?)|intros ([? ?] & ? & ?)].
    + split_and!; try done. intros x y [->|?]%elem_of_cons ?; auto.
    + split_and!; try done; intros; auto using list_elem_of_here, list_elem_of_further.
Qed.

Lemma pairwise_perm {A} (R : A -> A -> Prop) l1 l2 : (forall x y, R x y -> R y x) ->
  l1 ≡ₚ l2 -> pairwise R l1 -> pairwise R l2.
Proof.
  intros Hs. induction 1 as [|x l1 l2 H IH|x y l|l1 l2 l3 ? IH1 ? IH2]; cbn; [done| | |tauto].
  - intros [? ?]. split; [by rewrite <- H|auto].
  - rewrite !Forall_cons. intros [[? ?] [? ?]]. auto.
Qed.

Lemma pairwise_in {A} (R : A -> A -> Prop) l x y : (forall x y, R x y -> R y x) -> pairwise R l -> x ∈ l -> y ∈ l -> x = y \/ R x y.
Proof.
  intros Hs. induction l as [|z l IH]; cbn; [by intros _ ?%not_elem_of_nil|]. rewrite Forall_forall.
  intros [Hz Hp] [-> | Hx]%elem_of_cons [-> | Hy]%elem_of_cons; auto.
Qed.

(** The blocks linked in memory: each gives the next one, the last gives [e]. *)
Definition first (l : list (Z * Z)) (e : Z) : Z := match l with [] => e | x :: _ => x.1 end.
Fixpoint linked (m : mem) (l : list (Z * Z)) (e : Z) : Prop :=
  match l with
  | [] => True
  | x :: l' => hptr x.1 m = first l' e /\ hsize x.1 m = x.2 /\ linked m l' e
  end.

Lemma first_app l1 l2 e : first (l1 ++ l2) e = first l1 (first l2 e).
Proof. by destruct l1. Qed.

Lemma linked_app m l1 l2 e : linked m (l1 ++ l2) e <-> linked m l1 (first l2 e) /\ linked m l2 e.
Proof. induction l1 as [|x l1 IH]; cbn; [tauto|]. rewrite IH, first_app. tauto. Qed.

Lemma linked_ext m m' l e :
  (forall x, x ∈ l -> hptr x.1 m' = hptr x.1 m /\ hsize x.1 m' = hsize x.1 m) -> linked m l e -> linked m' l e.
Proof.
  induction l as [|x l IH]; cbn; [done|]. intros H (H1 & H2 & H3). destruct (H x) as [-> ->]; [by left|].
  split_and!; [done|done|]. apply IH; [|done]. intros y ?. apply H. by right.
Qed.

Lemma linked_in m l e x : linked m l e -> x ∈ l -> hsize x.1 m = x.2.
Proof. induction l as [|y l IH]; cbn; [by intros _ ?%not_elem_of_nil|]. intros (? & ? & ?) [->|?]%elem_of_cons; auto. Qed.

(** The list read from another of its blocks. *)
Lemma linked_rotate m l1 x l2 : linked m (l1 ++ x :: l2) (first (l1 ++ x :: l2) 0) -> linked m (x :: l2 ++ l1) x.1.
Proof.
  rewrite (linked_app m l1). intros [H1 H2]. change (x :: l2 ++ l1) with ((x :: l2) ++ l1). rewrite linked_app.
  destruct l1; [by rewrite app_nil_l in *|done].
Qed.

(** ** The free list *)

Section Heap.
(** The static header lies below the memory sbrk() gives, which ends at [limit]. *)
Context (ubase hs limit : Z).
Context (Hbase : aligned ubase /\ 0 < ubase /\ ubase + 16 <= hs) (Hlimit : hs <= limit <= 2 ^ 31).

Definition blk_ok (brk : Z) (x : Z * Z) : Prop := aligned x.1 /\ hs <= x.1 /\ 0 < x.2 /\ fin x <= brk.

(** The free blocks [l] after the static header, in the order of their addresses and
    with a gap between any two; the blocks in use. *)
Record heap (m : mem) (brk : Z) (l held : list (Z * Z)) : Prop := {
  heap_linked : linked m ((ubase, 0) :: l) ubase;
  heap_asc : pairwise before ((ubase, 0) :: l);
  heap_free : Forall (fun x => blk_ok brk x /\ Forall (disj x) held) l;
  heap_held : Forall (fun x => blk_ok brk x /\ hsize x.1 m = x.2) held;
  heap_disj : pairwise disj held;
  heap_brk : aligned brk /\ hs <= brk <= limit;
}.

Record heap_ok (s : uproc) (l held : list (Z * Z)) : Prop := {
  ok_heap : heap (up_mem s) (up_brk s) l held;
  ok_freep : exists x, x ∈ (ubase, 0) :: l /\ x.1 = up_freep s;
}.

Lemma hadd_eq p n : 0 <= p + 16 * n < 2 ^ 64 -> hadd p n = p + 16 * n.
Proof. intros. unfold hadd, HEADER, u64. rewrite Z.mod_small; lia. Qed.

Lemma blk_small brk x : brk <= limit -> blk_ok brk x -> 0 < x.1 /\ fin x < 2 ^ 32 /\ 0 <= x.1 < 2 ^ 64 /\ 0 <= x.2 < 2 ^ 32.
Proof. unfold blk_ok, fin. lia. Qed.

Lemma disj_sym x y : disj x y -> disj y x.
Proof. unfold disj. tauto. Qed.

Lemma before_trans x y z : 0 <= y.2 -> before x y -> before y z -> before x z.
Proof. unfold before, fin. lia. Qed.

(** Joining a block to the one right after it. *)
Lemma blk_join brk a n n' : blk_ok brk (a, n) -> blk_ok brk (a + 16 * n, n') -> blk_ok brk (a, n + n').
Proof. unfold blk_ok, fin. cbn. intros (? & ? & ? & ?) (? & ? & ? & ?). split_and!; [done|lia..]. Qed.

Lemma disj_join brk a n n' held : 0 < n -> 0 < n' -> Forall (blk_ok brk) held ->
  Forall (disj (a, n)) held -> Forall (disj (a + 16 * n, n')) held -> Forall (disj (a, n + n')) held.
Proof.
  rewrite !Forall_forall. intros ?? H H1 H2 y Hy. specialize (H y Hy) as (_ & _ & ? & _).
  specialize (H1 y Hy). specialize (H2 y Hy). unfold disj, fin in *. cbn in *. lia.
Qed.

Definition place_ok (bp p next : Z) : bool :=
  ((p <? bp) && (bp <? next)) || ((next <=? p) && ((p <? bp) || (bp <? next))).

Lemma find_place_spec k bp C e s : linked (up_mem s) C e ->
  (exists x, x ∈ C /\ place_ok bp x.1 (hptr x.1 (up_mem s)) = true) -> (length C <= k)%nat ->
  exists x, x ∈ C /\ place_ok bp x.1 (hptr x.1 (up_mem s)) = true /\ find_place k bp (first C e) s = Ret x.1 s.
Proof.
  revert C. induction k as [|k IH]; intros [|c C] Hl (x & Hx & Hp) Hk;
    [by apply not_elem_of_nil in Hx|cbn in Hk; lia|by apply not_elem_of_nil in Hx|].
  cbn [find_place first]. unfold gets at 1, bind at 1. destruct Hl as (Hc & _ & Hl).
  destruct (place_ok bp c.1 (hptr c.1 (up_mem s))) eqn:E.
  - exists c. split_and!; [by left|done|]. unfold place_ok in E.
    destruct ((c.1 <? bp) && (bp <? _)); [done|]. cbn in E. by rewrite E.
  - assert (x ∈ C) as Hx' by (apply elem_of_cons in Hx as [->|]; [congruence|done]).
    destruct (IH C Hl) as (y & Hy & Hpy & Hr); [by exists x|cbn in Hk; lia|].
    exists y. split_and!; [by right|done|]. unfold place_ok in E. apply orb_false_elim in E as [-> ->]. by rewrite Hc.
Qed.

(** From any block of the list, the search goes round all of it. *)
Lemma rotation m l x : linked m ((ubase, 0) :: l) ubase -> x ∈ (ubase, 0) :: l ->
  exists C, linked m (x :: C) x.1 /\ x :: C ≡ₚ (ubase, 0) :: l.
Proof.
  intros Hl Hx. apply list_elem_of_split in Hx as (l1 & l2 & E). exists (l2 ++ l1). rewrite E in *. split.
  - apply linked_rotate. destruct l1; injection E as <- ?; subst; done.
  - rewrite (Permutation_app_comm l2 l1). by rewrite Permutation_middle.
Qed.

(** Where a block belongs in an ascending list. *)
Lemma place_in bp x l : x.1 < bp -> pairwise before (x :: l) -> Forall (fun y => y.1 <> bp /\ 0 <= y.2) (x :: l) ->
  exists pre y post, x :: l = pre ++ y :: post /\ y.1 < bp /\ Forall (fun z => bp < z.1) post.
Proof.
  revert x. induction l as [|z l IH]; intros x Hx Hp Hn; [by exists [], x, []|].
  destruct (decide (z.1 < bp)) as [Hz|Hz].
  - destruct (IH z Hz) as (pre & y & post & E & ? & ?); [apply Hp|by apply Forall_cons in Hn as [_ Hn]|].
    exists (x :: pre), y, post. cbn. by rewrite E.
  - exists [], x, (z :: l). split_and!; [done|done|]. apply Forall_cons in Hn as [_ Hn]. apply Forall_cons in Hn as [[Hz1 Hz2] Hn].
    destruct Hp as [_ [Hp _]]. apply Forall_cons. split; [lia|]. rewrite Forall_forall in *. intros w Hw.
    specialize (Hp w Hw). unfold before, fin in Hp. lia.
Qed.

(** What a free block satisfies, with the pieces in use [held]. *)
Definition free_ok (brk : Z) (held : list (Z * Z)) (x : Z * Z) : Prop := blk_ok brk x /\ Forall (disj x) held.

Lemma free_join brk held a n n' : brk <= limit -> Forall (blk_ok brk) held ->
  free_ok brk held (a, n) -> free_ok brk held (a + 16 * n, n') -> free_ok brk held (a, n + n').
Proof.
  intros Hb Hh [H1 H2] [H3 H4]. split; [by apply blk_join|]. eapply disj_join; try done; [apply H1|apply H3].
Qed.

Lemma pairwise_cons_before x l : 0 <= x.2 -> (forall y, y ∈ l -> before x y) -> pairwise before l -> pairwise before (x :: l).
Proof. intros. split; [by apply Forall_forall|done]. Qed.

Lemma hsize_set_same a v m : 0 <= v < 2 ^ 32 -> hsize a (set_hsize a v m) = v.
Proof. intros. unfold hsize, set_hsize, u32. rewrite Z.mod_small by done. by apply load_store_same. Qed.

Lemma hptr_set_same a v m : 0 <= v < 2 ^ 64 -> hptr a (set_hptr a v m) = v.
Proof. intros. unfold hptr, set_hptr. rewrite ld64_st64. unfold u64. by rewrite Z.mod_small. Qed.

(** The first half of free(): the block [bp] joins the free block after it, if they
    touch, and gets its link. *)
Definition join_right (bp p : Z) (m : mem) : mem :=
  if hadd bp (hsize bp m) =? hptr p m then
    let m1 := set_hsize bp (hsize bp m + hsize (hptr p m) m) m in
    set_hptr bp (hptr (hptr p m1) m1) m1
  else set_hptr bp (hptr p m) m.

(** The second half: [p] joins [bp], or links to it. *)
Definition join_left (bp p : Z) (m : mem) : mem :=
  if hadd p (hsize p m) =? bp then
    let m1 := set_hsize p (hsize p m + hsize bp m) m in
    set_hptr p (hptr bp m1) m1
  else set_hptr p bp m.

Lemma ufree_eq k ap s p : find_place k (hadd ap (-1)) (up_freep s) s = Ret p s ->
  ufree k ap s = Ret tt (mkuproc (join_left (hadd ap (-1)) p (join_right (hadd ap (-1)) p (up_mem s))) p (up_brk s)).
Proof.
  intros E. unfold ufree. unfold gets at 1, bind at 1. erewrite bind_ret by exact E.
  unfold join_right. unfold gets at 1, bind at 1.
  destruct (hadd (hadd ap (-1)) _ =? _); unfold umod, modify, gets, bind; cbn; unfold join_left;
    destruct (hadd p _ =? _); done.
Qed.

(** Only the headers of the free blocks change. *)
Lemma mget_join_right bp p m k : ~ (bp <= k < bp + 16) -> mget (join_right bp p m) k = mget m k.
Proof. intros H. unfold join_right. destruct (_ =? _); rewrite mget_set_hptr by done; [by rewrite mget_set_hsize|done]. Qed.
Lemma mget_join_left bp p m k : ~ (p <= k < p + 16) -> mget (join_left bp p m) k = mget m k.
Proof. intros H. unfold join_left. destruct (_ =? _); rewrite mget_set_hptr by done; [by rewrite mget_set_hsize|done]. Qed.

(** Blocks whose headers are elsewhere stay linked. *)
Lemma hdr_ext a m m' : (forall k, a <= k < a + 16 -> mget m' k = mget m k) -> hptr a m' = hptr a m /\ hsize a m' = hsize a m.
Proof. intros H. split; [apply ld64_ext|apply load_le_ext]; intros; apply H; lia. Qed.

Lemma linked_join_right bp p m l e : (forall x, x ∈ l -> aligned x.1 /\ x.1 <> bp) -> aligned bp ->
  linked m l e -> linked (join_right bp p m) l e.
Proof.
  intros Hl Hbp. apply linked_ext. intros x Hx. destruct (Hl x Hx) as [? ?]. apply hdr_ext. intros k Hk.
  apply mget_join_right. pose proof (aligned_apart x.1 bp). naive_solver lia.
Qed.
Lemma linked_join_left bp p m l e : (forall x, x ∈ l -> aligned x.1 /\ x.1 <> p) -> aligned p ->
  linked m l e -> linked (join_left bp p m) l e.
Proof.
  intros Hl Hbp. apply linked_ext. intros x Hx. destruct (Hl x Hx) as [? ?]. apply hdr_ext. intros k Hk.
  apply mget_join_left. pose proof (aligned_apart x.1 p). naive_solver lia.
Qed.

Definition base_or_free (brk : Z) (held : list (Z * Z)) (x : Z * Z) : Prop := x = (ubase, 0) \/ free_ok brk held x.

Lemma base_or_free_spec brk held x : brk <= limit -> base_or_free brk held x ->
  aligned x.1 /\ 0 < x.1 /\ 0 <= x.2 /\ fin x < 2 ^ 32 /\ x.1 < 2 ^ 32.
Proof.
  intros Hb [->|[(? & ? & ? & ?) _]]; cbn; [destruct Hbase as (? & ? & ?)|]; split_and!; try done; unfold fin in *; cbn in *; lia.
Qed.

(** After the first half: [bp] and the blocks after it. *)
Lemma join_right_spec m brk held bp u x post e :
  brk <= limit -> Forall (blk_ok brk) held -> free_ok brk held (bp, u) -> hsize bp m = u ->
  base_or_free brk held x -> x.1 <> bp -> Forall (free_ok brk held) post -> Forall (fun y => bp < y.1) post ->
  Forall (fun y => disj (bp, u) y) post -> e = ubase ->
  linked m (x :: post) e -> pairwise before post ->
  exists v post', linked (join_right bp x.1 m) ((bp, v) :: post') e /\ u <= v /\ free_ok brk held (bp, v) /\
    Forall (free_ok brk held) post' /\ pairwise before ((bp, v) :: post') /\ (length post' <= length post)%nat /\
    (forall y, y ∈ post' -> y ∈ post) /\ hsize x.1 (join_right bp x.1 m) = x.2.
Proof.
  intros Hb Hh Hbp Hsz Hx Hne Hpost Hgt Hd -> (Hpx & Hsx & Hl) Hpw.
  pose proof (base_or_free_spec _ _ _ Hb Hx) as (Hxa & _).
  pose proof Hbp as [[Hba (? & ? & ?)] _]. pose proof (blk_small brk (bp, u) Hb ltac:(apply Hbp)) as (? & ? & ? & ?). cbn in *.
  assert (hsize x.1 (join_right bp x.1 m) = x.2) as Hsx'.
  { rewrite <- Hsx. apply hdr_ext. intros k ?. apply mget_join_right. pose proof (aligned_apart _ _ Hxa Hba Hne). lia. }
  assert (hadd bp u = bp + 16 * u) as Hfin by (apply hadd_eq; unfold fin in *; cbn in *; lia).
  destruct (decide (bp + 16 * u = first post ubase)) as [E|E].
  - destruct post as [|[a n] post]; [cbn in E; lia|]. cbn in E. subst a.
    apply Forall_cons in Hpost as [Hy Hpost]. destruct Hl as (Hpy & Hsy & Hl). destruct Hpw as [Hy1 Hpw]. cbn in Hpx, Hpy, Hsy.
    pose proof Hy as [(Hya & ? & ? & ?) _]. pose proof (free_join _ _ _ _ _ Hb Hh Hbp Hy) as Hj.
    pose proof (blk_small brk _ Hb ltac:(apply Hj)) as (? & ? & ? & ?). cbn in *.
    exists (u + n), post. split; [|split; [lia|split; [done|split; [done|split; [split|split; [cbn; lia|split; [by right|done]]]]]]].
    + cbn. split_and!.
      * unfold join_right. rewrite Hsz, Hpx, Hfin, Z.eqb_refl, Hsy. rewrite (hptr_set_size bp x.1) by done. rewrite Hpx, hptr_set_size by done.
        rewrite Hpy. apply hptr_set_same. destruct post as [|z post]; cbn; [lia|].
        apply Forall_cons in Hpost as [Hz _]. pose proof (blk_small brk z Hb ltac:(apply Hz)). lia.
      * unfold join_right. rewrite Hsz, Hpx, Hfin, Z.eqb_refl, Hsy. rewrite hsize_set_ptr by done. by apply hsize_set_same.
      * apply linked_join_right; [|done|done]. intros z Hz. rewrite Forall_forall in Hpost, Hy1.
        pose proof (Hpost z Hz) as [[? _] _]. specialize (Hy1 z Hz). unfold before, fin in Hy1. cbn in Hy1. split; [done|lia].
    + eapply Forall_impl; [exact Hy1|]. intros z. unfold before, fin. cbn. lia.
    + done.
  - exists u, post. split; [|split; [lia|split; [done|split; [done|split; [split|split; [lia|split; [done|done]]]]]]].
    + cbn. split_and!.
      * unfold join_right. rewrite Hsz, Hpx, Hfin. destruct (Z.eqb_spec (bp + 16 * u) (first post ubase)) as [|_]; [done|].
        apply hptr_set_same. destruct post as [|z post]; cbn; [lia|].
        apply Forall_cons in Hpost as [Hz _]. pose proof (blk_small brk z Hb ltac:(apply Hz)). lia.
      * unfold join_right. rewrite Hsz, Hpx, Hfin. destruct (Z.eqb_spec (bp + 16 * u) (first post ubase)) as [|_]; [done|].
        by rewrite hsize_set_ptr.
      * apply linked_join_right; [|done|done]. intros z Hz. rewrite !Forall_forall in *.
        pose proof (Hpost z Hz) as [[? _] _]. specialize (Hgt z Hz). split; [done|lia].
    + destruct post as [|z post]; [done|]. cbn in E. destruct Hpw as [Hp _].
      apply Forall_cons in Hd as [Hd _]. apply Forall_cons in Hgt as [Hg _]. apply Forall_cons in Hpost as [Hz _].
      assert (before (bp, u) z) as Hb0 by (unfold before, disj, fin in *; cbn in *; destruct Hz as [(? & ? & ? & ?) _]; lia).
      apply Forall_cons. split; [done|]. eapply Forall_impl; [exact Hp|]. intros w. apply before_trans; [|done].
      destruct Hz as [(? & ? & ? & ?) _]. lia.
    + done.
Qed.

Lemma pairwise_before_tail pre x y post brk held : brk <= limit -> Forall (base_or_free brk held) pre -> base_or_free brk held x ->
  pairwise before (pre ++ [x]) -> x.1 = y.1 -> x.2 <= y.2 -> pairwise before (y :: post) -> pairwise before (pre ++ y :: post).
Proof.
  intros Hb Hpre Hx (H1 & _ & H3)%pairwise_app E E2 H. apply pairwise_app. split_and!; [done|done|].
  intros a b Ha Hin. assert (before a x) as Hax by (apply H3; [done|by left]).
  pose proof (base_or_free_spec _ _ _ Hb Hx) as (_ & ? & ? & _).
  apply elem_of_cons in Hin as [->|Hin]; [unfold before in *; lia|].
  destruct H as [H _]. rewrite Forall_forall in H. specialize (H b Hin). unfold before, fin in *. lia.
Qed.

Lemma join_left_spec m brk held bp v pre x post :
  brk <= limit -> Forall (blk_ok brk) held -> free_ok brk held (bp, v) ->
  base_or_free brk held x -> fin x <= bp -> Forall (base_or_free brk held) pre -> Forall (free_ok brk held) post ->
  linked m pre x.1 -> hsize x.1 m = x.2 -> linked m ((bp, v) :: post) ubase ->
  pairwise before (pre ++ [x]) -> pairwise before ((bp, v) :: post) ->
  exists y tl, linked (join_left bp x.1 m) (pre ++ y :: tl) ubase /\ y.1 = x.1 /\
    (y = x \/ free_ok brk held x /\ free_ok brk held y) /\ Forall (free_ok brk held) tl /\
    pairwise before (pre ++ y :: tl) /\ (length tl <= S (length post))%nat /\
    (exists z, z ∈ y :: tl /\ v <= z.2 /\ free_ok brk held z).
Proof.
  intros Hb Hh Hbp Hx Hle Hpre Hpost Hlp Hsx Hl Hpp Hpw.
  pose proof (base_or_free_spec _ _ _ Hb Hx) as (Hxa & ? & ? & ? & ?).
  pose proof Hbp as [[Hba (? & ? & ?)] _]. pose proof (blk_small brk (bp, v) Hb ltac:(apply Hbp)) as (? & ? & ? & ?). cbn in *.
  assert (hadd x.1 x.2 = fin x) as Hfin by (apply hadd_eq; unfold fin in *; lia).
  assert (forall z, z ∈ pre -> aligned z.1 /\ z.1 <> x.1) as Hpre'.
  { intros z Hz. rewrite Forall_forall in Hpre. pose proof (base_or_free_spec _ _ _ Hb (Hpre z Hz)) as (? & ? & ? & _).
    apply pairwise_app in Hpp as (_ & _ & Hpp). specialize (Hpp z x Hz ltac:(by left)). unfold before, fin in Hpp.
    split; [done|lia]. }
  destruct Hl as (Hpb & Hsb & Hl). cbn in Hpb, Hsb. destruct (decide (fin x = bp)) as [E|E].
  - assert (free_ok brk held x) as Hxf.
    { destruct Hx as [->|Hx]; [|done]. unfold fin in E. cbn in E. lia. }
    assert (free_ok brk held (x.1, x.2 + v)) as Hj.
    { apply free_join; [done|done|by destruct x|]. unfold fin in E. by rewrite E. }
    pose proof (blk_small brk _ Hb ltac:(apply Hj)) as (? & ? & ? & ?). cbn in *.
    exists (x.1, x.2 + v), post. split; [|split; [done|split; [by right|split; [done|split; [|split; [lia|]]]]]].
    + apply linked_app. cbn. split_and!.
      * by apply linked_join_left.
      * unfold join_left. rewrite Hsx, Hfin, E, Z.eqb_refl, Hsb, (hptr_set_size x.1 bp), Hpb by done.
        apply hptr_set_same. destruct post as [|z post]; cbn; [lia|].
        apply Forall_cons in Hpost as [Hz _]. pose proof (blk_small brk z Hb ltac:(apply Hz)). lia.
      * unfold join_left. rewrite Hsx, Hfin, E, Z.eqb_refl, Hsb, hsize_set_ptr by done. by apply hsize_set_same.
      * apply linked_join_left; [|done|done]. intros z Hz. rewrite Forall_forall in Hpost. destruct (Hpost z Hz) as [[? _] _].
        destruct Hpw as [Hpw _]. rewrite Forall_forall in Hpw. specialize (Hpw z Hz). unfold before, fin in *. cbn in Hpw.
        split; [done|lia].
    + eapply (pairwise_before_tail pre x _ post); try done; [cbn; lia|]. destruct Hpw as [Hpw ?]. split; [|done].
      eapply Forall_impl; [exact Hpw|]. intros z. unfold before, fin in *. cbn. lia.
    + exists (x.1, x.2 + v). split_and!; [by left|cbn; lia|done].
  - exists x, ((bp, v) :: post). assert (fin x < bp) as Hlt by lia.
    split; [|split; [done|split; [by left|split; [by apply Forall_cons|split; [|split; [cbn; lia|]]]]]].
    + assert (bp <> x.1) by (unfold fin in Hlt; lia).
      assert (linked (join_left bp x.1 m) ((bp, v) :: post) ubase) as Hl'.
      { apply linked_join_left; [|done|by cbn]. intros z [->|Hz]%elem_of_cons; [done|]. rewrite Forall_forall in Hpost.
        destruct (Hpost z Hz) as [[? _] _]. destruct Hpw as [Hpw _]. rewrite Forall_forall in Hpw. specialize (Hpw z Hz).
        unfold before, fin in *. cbn in Hpw. split; [done|lia]. }
      apply linked_app. split; [by apply linked_join_left|]. split; [|split; [|exact Hl']];
        unfold join_left; rewrite Hsx, Hfin; (destruct (Z.eqb_spec (fin x) bp) as [|_]; [done|]).
      * by apply hptr_set_same.
      * by rewrite hsize_set_ptr.
    + eapply (pairwise_before_tail pre x x); try done. split; [|done]. apply Forall_cons. split; [done|].
      destruct Hpw as [Hpw _]. eapply Forall_impl; [exact Hpw|]. intros z. apply before_trans; [cbn; lia|done].
    + exists (bp, v). split_and!; [right; by left|cbn; lia|done].
Qed.

(** The memory of the blocks in use. *)
Definition in_use (held : list (Z * Z)) (a : Z) : Prop := exists y, y ∈ held /\ y.1 <= a < fin y.

(** The headers of free blocks are no part of it. *)
Lemma in_use_apart brk held x a : Forall (blk_ok brk) held -> base_or_free brk held x -> in_use held a -> ~ (x.1 <= a < x.1 + 16).
Proof.
  intros Hh Hx (y & Hy & Ha). rewrite Forall_forall in Hh. destruct (Hh y Hy) as (_ & ? & ? & _).
  destruct Hx as [->|[(_ & _ & ? & _) Hx]]; [cbn; lia|]. rewrite Forall_forall in Hx. specialize (Hx y Hy).
  unfold disj, fin in *. lia.
Qed.

Lemma heap_frame m m' brk l l' held : heap m brk l held ->
  (forall a, in_use held a -> mget m' a = mget m a) -> linked m' ((ubase, 0) :: l') ubase ->
  pairwise before ((ubase, 0) :: l') -> Forall (free_ok brk held) l' -> heap m' brk l' held.
Proof.
  intros [H1 H2 H3 H4 H5 H6] Hf Hl Hp Hfr. constructor; try done.
  rewrite Forall_forall in *. intros y Hy. destruct (H4 y Hy) as [Hy1 Hy2]. split; [done|]. rewrite <- Hy2.
  apply hdr_ext. intros k Hk. apply Hf. exists y. split; [done|]. unfold fin. destruct Hy1 as (_ & _ & ? & _). lia.
Qed.

Lemma heap_drop m brk l x held : heap m brk l (x :: held) -> heap m brk l held /\ free_ok brk held x /\
  Forall (fun y => disj x y) l /\ hsize x.1 m = x.2.
Proof.
  intros [H1 H2 H3 H4 H5 H6]. apply Forall_cons in H4 as [[Hx Hs] H4]. destruct H5 as [Hd H5]. split_and!; try done.
  - constructor; try done. eapply Forall_impl; [exact H3|]. intros y [? Hy]. split; [done|by apply Forall_cons in Hy as [_ Hy]].
  - eapply Forall_impl; [exact H3|]. intros y [? Hy]. apply Forall_cons in Hy as [Hy _]. by apply disj_sym.
Qed.

Lemma heap_blocks m brk l held : heap m brk l held ->
  Forall (base_or_free brk held) ((ubase, 0) :: l) /\ Forall (free_ok brk held) l /\ Forall (blk_ok brk) held.
Proof.
  intros [H1 H2 H3 H4 H5 H6]. split_and!.
  - apply Forall_cons. split; [by left|]. eapply Forall_impl; [exact H3|]. by right.
  - done.
  - eapply Forall_impl; [exact H4|]. by intros ? [? _].
Qed.

(** The search of free() ends at the block before [bp]. *)
Lemma find_place_ok k s l held bp u : heap_ok s l ((bp, u) :: held) -> (length l < k)%nat ->
  exists pre x post, (ubase, 0) :: l = pre ++ x :: post /\ find_place k bp (up_freep s) s = Ret x.1 s /\
    x.1 < bp /\ Forall (fun y => bp < y.1) post.
Proof.
  intros [Hh (f & Hf & Ef)] Hk. destruct (rotation _ _ _ (heap_linked _ _ _ _ Hh) Hf) as (C & HC & Hperm).
  pose proof (heap_drop _ _ _ _ _ Hh) as (Hh' & Hbp & Hd & _). destruct (heap_blocks _ _ _ _ Hh') as (Hbl & Hfr & Hhe).
  pose proof (heap_asc _ _ _ _ Hh) as Hasc. pose proof (proj1 (heap_linked _ _ _ _ Hh)) as Hb0.
  assert (up_brk s <= limit) as Hb by apply Hh. destruct Hbp as [(_ & Hhs & Hu & _) _]. cbn in Hhs, Hu.
  assert (Forall (fun y => y.1 <> bp /\ 0 <= y.2) ((ubase, 0) :: l)) as Hn.
  { apply Forall_cons. split; [cbn; lia|]. rewrite !Forall_forall in *. intros y Hy. specialize (Hd y Hy).
    destruct (Hfr y Hy) as [(_ & _ & ? & _) _]. unfold disj, fin in Hd. cbn in Hd. lia. }
  destruct (place_in bp (ubase, 0) l) as (pre & x & post & E & Hx & Hpost); [cbn; lia|done|done|].
  pose proof (heap_linked _ _ _ _ Hh) as Hl. rewrite E in Hl. apply linked_app in Hl as (_ & Hpx & _).
  destruct (find_place_spec k bp (f :: C) f.1 s HC) as (y & Hy & Hpy & Hr).
  { exists x. split; [rewrite Hperm, E; apply elem_of_app; right; by left|]. rewrite Hpx. unfold place_ok.
    destruct post as [|z post]; cbn.
    - assert (ubase <= x.1).
      { assert (x ∈ (ubase, 0) :: l) as Hin by (rewrite E; apply elem_of_app; right; by left).
        apply elem_of_cons in Hin as [->|Hin]; [done|]. destruct Hasc as [Ha _]. rewrite Forall_forall in Ha. specialize (Ha x Hin).
        unfold before, fin in Ha. cbn in Ha. lia. }
      by zcase.
    - apply Forall_cons in Hpost as [? _]. by zcase. }
  { rewrite (Permutation_length Hperm). cbn. lia. }
  cbn [first] in Hr. rewrite Ef in Hr. rewrite Hperm in Hy. apply list_elem_of_split in Hy as (pre' & post' & E').
  exists pre', y, post'. pose proof (heap_linked _ _ _ _ Hh) as Hl. rewrite E' in Hl, Hasc. apply linked_app in Hl as (_ & Hpy' & _). rewrite Hpy' in Hpy.
  apply pairwise_app in Hasc as (_ & [Hgt Hpw] & _).
  assert (y.1 < bp /\ Forall (fun z => bp < z.1) post') as [? ?]; [|by split_and!]. unfold place_ok in Hpy.
  destruct post' as [|z post']; cbn in Hpy; [split; [zcase; done|done]|].
  apply Forall_cons in Hgt as [Hz _]. destruct Hpw as [Hgt _]. assert (0 <= y.2 /\ 0 <= z.2) as [? ?].
  { rewrite Forall_forall in Hn. split; apply Hn; rewrite E'; apply elem_of_app; right; [by left|right; by left]. }
  unfold before, fin in Hz. assert (y.1 < bp /\ bp < z.1) as [? ?] by (zcase; done). split; [done|].
  apply Forall_cons. split; [done|]. eapply Forall_impl; [exact Hgt|]. intros w. unfold before, fin. lia.
Qed.

(** free() puts the block on the list, joined with its neighbours. *)
Lemma ufree_ok k s l bp u held : heap_ok s l ((bp, u) :: held) -> (length l < k)%nat ->
  returns (ufree k (hadd bp 1)) s (fun _ s' => exists l', heap_ok s' l' held /\ (length l' <= S (length l))%nat /\
    up_brk s' = up_brk s /\ (exists z, z ∈ l' /\ u <= z.2) /\ forall a, in_use held a -> mget (up_mem s') a = mget (up_mem s) a).
Proof.
  intros Hok Hk. pose proof Hok as [Hh _].
  destruct (find_place_ok _ _ _ _ _ _ Hok Hk) as (pre & x & post & E & Hr & Hx & Hgt).
  destruct (heap_drop _ _ _ _ _ Hh) as (Hh' & Hbp & Hd & Hsz). destruct (heap_blocks _ _ _ _ Hh') as (Hbl & _ & Hhe).
  assert (up_brk s <= limit) as Hb by apply Hh. pose proof (heap_asc _ _ _ _ Hh') as Hasc. pose proof (heap_linked _ _ _ _ Hh') as Hl.
  pose proof (blk_small _ (bp, u) Hb ltac:(apply Hbp)) as (? & ? & ? & ?). cbn [fst snd] in *.
  assert (0 < bp < 2 ^ 32) as ? by (unfold fin in *; cbn in *; lia).
  assert (hadd (hadd bp 1) (-1) = bp) as Ebp by (rewrite (hadd_eq bp 1) by lia; rewrite hadd_eq by lia; lia).
  eapply returns_intro; [apply ufree_eq; rewrite Ebp; exact Hr|]. rewrite Ebp.
  assert (pre ++ x :: post = (pre ++ [x]) ++ post) as Eapp by (by rewrite <- app_assoc).
  assert (Forall (free_ok (up_brk s) held) post /\ Forall (fun y => disj (bp, u) y) post) as [Hpost Hdp].
  { destruct (heap_blocks _ _ _ _ Hh') as (_ & Hfr & _).
    assert (post ⊆ l) as Hin.
    { destruct pre as [|? pre]; injection E as ? ->; [done|]. intros y ?. apply elem_of_app. right. by right. }
    rewrite !Forall_forall in *. split; intros y Hy; [apply Hfr, Hin, Hy|apply Hd, Hin, Hy]. }
  rewrite E in Hbl, Hl, Hasc. rewrite Eapp in Hasc. apply pairwise_app in Hasc as (Hpp & Hpw & _).
  apply Forall_app in Hbl as [Hpre Hbl]. apply Forall_cons in Hbl as [Hxb _].
  apply linked_app in Hl as [Hlp Hlx]. cbn [first] in Hlp.
  assert (fin x <= bp) as Hle.
  { destruct Hxb as [->|Hxf]; [destruct Hbp as [(_ & ? & _) _]; unfold fin; cbn in *; lia|].
    assert (x ∈ l) as Hxl.
    { destruct pre as [|? pre]; injection E as <- ->; [by destruct Hxf as [(_ & _ & ? & _) _]|]. apply elem_of_app. right. by left. }
    rewrite Forall_forall in Hd. specialize (Hd x Hxl). destruct Hxf as [(_ & _ & ? & _) _]. destruct Hbp as [(_ & _ & ? & _) _].
    unfold disj, fin in *. cbn in *. lia. }
  destruct (join_right_spec (up_mem s) (up_brk s) held bp u x post ubase) as (v & post' & Hl1 & Hv & Hfv & Hfp & Hpv & Hlen & Hsub & Hsx);
    try done; [lia|].
  destruct (join_left_spec (join_right bp x.1 (up_mem s)) (up_brk s) held bp v pre x post') as (y & tl & Hl2 & Ey & Hy & Hft & Hpt & Hlt & Hz);
    try done.
  { apply linked_join_right; [|apply Hbp|done]. intros z Hz. rewrite Forall_forall in Hpre.
    pose proof (base_or_free_spec _ _ _ Hb (Hpre z Hz)) as (? & _ & ? & _). apply pairwise_app in Hpp as (_ & _ & Hpp).
    specialize (Hpp z x Hz ltac:(by left)). unfold before, fin in Hpp. split; [done|lia]. }
  assert (exists l', pre ++ y :: tl = (ubase, 0) :: l' /\ Forall (free_ok (up_brk s) held) l' /\ (length l' <= S (length l))%nat) as (l' & El & Hfl & Hll).
  { destruct pre as [|p0 pre]; injection E as E1 E2; cbn.
    - subst x l. destruct Hy as [->|[[(_ & _ & ? & _) _] _]]; [|done]. exists tl. split_and!; [done|done|lia].
    - subst p0 l. exists (pre ++ y :: tl). split_and!; [done| |rewrite !length_app in *; cbn in *; lia].
      apply Forall_app. split; [|apply Forall_cons; split; [|done]].
      + pose proof (heap_free _ _ _ _ Hh') as Hfr. by apply Forall_app in Hfr as [? _].
      + destruct Hy as [->|[_ ?]]; [|done]. pose proof (heap_free _ _ _ _ Hh') as Hfr.
        apply Forall_app in Hfr as [_ Hfr]. by apply Forall_cons in Hfr as [? _]. }
  assert (forall a, in_use held a -> mget (join_left bp x.1 (join_right bp x.1 (up_mem s))) a = mget (up_mem s) a) as Hframe.
  { intros a Ha. rewrite mget_join_left, mget_join_right; [done| |].
    - apply (in_use_apart (up_brk s) held (bp, u)); [done|by right|done].
    - by apply (in_use_apart (up_brk s) held x). }
  exists l'. rewrite El in Hl2, Hpt. split_and!; [split; [by eapply heap_frame|]|done|done| |done].
  - exists y. cbn. split; [rewrite <- El; apply elem_of_app; right; by left|done].
  - destruct Hz as (z & Hz & Hvz & Hzf). exists z. split; [|lia]. assert (z ∈ (ubase, 0) :: l') as Hin by (rewrite <- El; apply elem_of_app; by right).
    apply elem_of_cons in Hin as [->|]; [|done]. by destruct Hzf as [(_ & _ & ? & _) _].
Qed.

(** A block of the list with the one before it. *)
Lemma next_block m brk l held q nq a n : heap m brk l held -> (q, nq) ∈ (ubase, 0) :: l -> hptr q m = a ->
  (a, n) ∈ (ubase, 0) :: l -> 0 < n -> exists pre post, (ubase, 0) :: l = pre ++ (q, nq) :: (a, n) :: post.
Proof.
  intros Hh Hq Ha Hin Hn. pose proof (heap_linked _ _ _ _ Hh) as Hl. pose proof (linked_in _ _ _ _ Hl Hin) as Hs.
  destruct (heap_blocks _ _ _ _ Hh) as (_ & Hfr & _).
  assert (a <> ubase) as Hne.
  { apply elem_of_cons in Hin as [[=]|Hin]; [lia|]. rewrite Forall_forall in Hfr. destruct (Hfr _ Hin) as [(_ & ? & _) _]. cbn in *. lia. }
  apply list_elem_of_split in Hq as (pre & post & E). rewrite E in Hl. apply linked_app in Hl as (_ & Hp & _ & Hl). cbn in Hp.
  destruct post as [|[a' n'] post]; cbn in Hp; [congruence|]. destruct Hl as (_ & Hs' & _). exists pre, post. rewrite E. cbn in *. congruence.
Qed.

(** A free block cut in two. *)
Lemma free_split brk held a n n' : 0 < n -> 0 < n' -> brk <= limit -> free_ok brk held (a, n + n') -> Forall (blk_ok brk) held ->
  free_ok brk held (a, n) /\ free_ok brk held (a + 16 * n, n').
Proof.
  intros Hn Hn' Hb [(Ha & H1 & _ & H2) Hd] Hh. unfold fin in H2. cbn in *. split; split.
  - split_and!; unfold fin; cbn; [done|lia..].
  - eapply Forall_impl; [exact Hd|]. intros y. unfold disj, fin. cbn. lia.
  - split_and!; unfold fin; cbn; [|lia..]. unfold aligned in *. zmod.
  - eapply Forall_impl; [exact Hd|]. intros y. unfold disj, fin. cbn. lia.
Qed.

Definition taken (nunits q a : Z) (m : mem) : Z * mem :=
  if hsize a m =? nunits then (a, set_hptr q (hptr a m) m)
  else let m1 := set_hsize a (hsize a m - nunits) m in
       let p := hadd a (hsize a m1) in (p, set_hsize p nunits m1).

Lemma take_block_eq nunits q a s : take_block nunits q a s =
  Ret (hadd (taken nunits q a (up_mem s)).1 1) (mkuproc (taken nunits q a (up_mem s)).2 q (up_brk s)).
Proof.
  unfold take_block, taken. unfold gets at 1, bind at 1.
  destruct (hsize a (up_mem s) =? nunits); unfold umod, modify, gets, bind, ret; cbn; done.
Qed.

(** What taking [nunits] units from the block [a] after [q] leaves. *)
Definition took (m : mem) (brk : Z) (l held : list (Z * Z)) (nunits q : Z) (r : Z * mem) : Prop :=
  exists l', linked r.2 ((ubase, 0) :: l') ubase /\ pairwise before ((ubase, 0) :: l') /\
    Forall (free_ok brk ((r.1, nunits) :: held)) l' /\ free_ok brk held (r.1, nunits) /\
    (length l' <= length l)%nat /\ (exists x, x ∈ (ubase, 0) :: l' /\ x.1 = q) /\ hsize r.1 r.2 = nunits /\
    forall k, in_use held k -> mget r.2 k = mget m k.

Lemma pairwise_mid L1 z L2 x : pairwise before (L1 ++ z :: L2) -> x ∈ L1 ++ L2 -> disj x z.
Proof.
  intros (_ & [H2 _] & H3)%pairwise_app Hx. rewrite Forall_forall in H2. apply elem_of_app in Hx as [Hx|Hx].
  - left. specialize (H3 x z Hx ltac:(by left)). unfold before in H3. lia.
  - right. specialize (H2 x Hx). unfold before in H2. lia.
Qed.

Lemma took_all m brk l held q nq a n pre post : heap m brk l held -> (ubase, 0) :: l = pre ++ (q, nq) :: (a, n) :: post ->
  took m brk l held n q (a, set_hptr q (hptr a m) m).
Proof.
  intros Hh E. destruct (heap_blocks _ _ _ _ Hh) as (Hbl & Hfr & Hhe). pose proof (heap_linked _ _ _ _ Hh) as Hl.
  pose proof (heap_asc _ _ _ _ Hh) as Hp. assert (brk <= limit) as Hb by apply Hh.
  assert (exists l', pre ++ (q, nq) :: post = (ubase, 0) :: l' /\ l' ⊆ l /\ (length l' <= length l)%nat /\ (a, n) ∈ l) as (l' & E' & Hsub & Hlen & Hin).
  { destruct pre as [|p pre]; injection E; cbn.
    - intros El Eq1 Eq2. subst q nq l. exists post. split_and!; [done|by right|cbn; lia|by left].
    - intros El <-. subst l. exists (pre ++ (q, nq) :: post). split_and!; [done|set_solver|rewrite !length_app; cbn; lia|set_solver]. }
  rewrite E in Hl, Hp, Hbl. assert (forall x, x ∈ (pre ++ [(q, nq)]) ++ post -> disj x (a, n)) as Hmid.
  { intros x. apply pairwise_mid. by rewrite <- app_assoc. }
  apply linked_app in Hl as (Hl1 & Hq1 & Hq2 & Ha1 & Ha2 & Hl2). cbn in Hl1, Hq1, Hq2, Ha1, Ha2.
  apply pairwise_app in Hp as (Hp1 & [Hpq [Hpa Hp2]] & Hpx). rewrite !Forall_forall in *.
  assert (base_or_free brk held (q, nq)) as Hqb by (apply Hbl; set_solver).
  pose proof (base_or_free_spec _ _ _ Hb Hqb) as (Hqa & ? & ? & _). cbn in Hqa.
  assert (forall z, z ∈ pre \/ z ∈ post -> aligned z.1 /\ z.1 <> q) as Hz.
  { intros z Hz. assert (base_or_free brk held z) as Hzb by (apply Hbl; set_solver).
    pose proof (base_or_free_spec _ _ _ Hb Hzb) as (? & ? & ? & _). split; [done|]. destruct Hz as [Hz|Hz].
    - specialize (Hpx z (q, nq) Hz ltac:(by left)). unfold before, fin in Hpx. cbn in *. lia.
    - specialize (Hpq z ltac:(by right)). unfold before, fin in Hpq. cbn in *. lia. }
  assert (forall z, z ∈ pre \/ z ∈ post -> hptr z.1 (set_hptr q (hptr a m) m) = hptr z.1 m /\ hsize z.1 (set_hptr q (hptr a m) m) = hsize z.1 m) as Hext.
  { intros z Hz'. destruct (Hz z Hz') as [? ?]. apply hdr_ext. intros k Hk. apply mget_set_hptr. pose proof (aligned_apart z.1 q). naive_solver lia. }
  assert (free_ok brk held (a, n)) as Hfa by (by apply Hfr).
  pose proof (blk_small _ _ Hb ltac:(apply Hfa)) as (? & ? & ? & ?). cbn [fst snd] in *.
  exists l'. rewrite <- E'. cbn [fst snd]. split_and!; [| | |done|done|exists (q, nq); split; [set_solver|done]| |].
  - apply linked_app. split; [|cbn; split_and!].
    + eapply linked_ext; [|exact Hl1]. auto.
    + rewrite Ha1. apply hptr_set_same. destruct post as [|z post]; cbn; [lia|].
      assert (free_ok brk held z) as Hfz.
      { destruct (Hbl z) as [->|]; [set_solver| |done]. specialize (Hpa _ ltac:(by left)). unfold before, fin in *. cbn in *. destruct Hfa as [(_&?&?&_) _]. cbn in *. lia. }
      pose proof (blk_small _ _ Hb ltac:(apply Hfz)). lia.
    + by rewrite hsize_set_ptr.
    + eapply linked_ext; [|exact Hl2]. auto.
  - apply pairwise_app. split; [done|split; [split; [|done]|]].
    + apply Forall_forall. intros. apply Hpq. by right.
    + intros x y Hx Hy. apply Hpx; [done|]. set_solver.
  - apply Forall_forall. intros x Hx. destruct (Hfr x (Hsub x Hx)) as [Hx1 Hx2]. split; [done|]. apply Forall_cons. split; [|done].
    apply Hmid. assert (x ∈ (ubase, 0) :: l') as Hin' by (by right). rewrite <- E' in Hin'. set_solver.
  - rewrite hsize_set_ptr; [done|done|]. apply Hfa.
  - intros k Hk. apply mget_set_hptr. by apply (in_use_apart brk held (q, nq)); [apply Forall_forall|..].
Qed.

Lemma took_part m brk l held q nq a n n' pre post : heap m brk l held -> (ubase, 0) :: l = pre ++ (q, nq) :: (a, n + n') :: post ->
  0 < n -> 0 < n' -> took m brk l held n' q (a + 16 * n, set_hsize (a + 16 * n) n' (set_hsize a n m)).
Proof.
  intros Hh E Hn Hn'. destruct (heap_blocks _ _ _ _ Hh) as (Hbl & Hfr & Hhe). pose proof (heap_linked _ _ _ _ Hh) as Hl.
  pose proof (heap_asc _ _ _ _ Hh) as Hp. assert (brk <= limit) as Hb by apply Hh.
  assert (exists l', pre ++ (q, nq) :: (a, n) :: post = (ubase, 0) :: l' /\ (forall x, x ∈ l' -> x = (a, n) \/ x ∈ l) /\
    length l' = length l /\ (a, n + n') ∈ l) as (l' & E' & Hsub & Hlen & Hin).
  { destruct pre as [|p pre]; injection E; cbn.
    - intros El Eq1 Eq2. subst q nq l. exists ((a, n) :: post). split_and!; [done|set_solver|done|by left].
    - intros El <-. subst l. exists (pre ++ (q, nq) :: (a, n) :: post). split_and!; [done|set_solver|rewrite !length_app; done|set_solver]. }
  assert (forall l0, pre ++ (q, nq) :: l0 = (pre ++ [(q, nq)]) ++ l0) as Hsh by (intros; by rewrite <- app_assoc).
  rewrite E in Hl, Hp, Hbl. rewrite Hsh in Hl, Hp. assert (forall x, x ∈ (pre ++ [(q, nq)]) ++ post -> disj x (a, n + n') /\ disj x (a, n)) as Hmid.
  { intros x Hx. assert (disj x (a, n + n')) as Hd by (by eapply pairwise_mid).
    split; [done|]. unfold disj, fin in *. cbn in *. lia. }
  rewrite Forall_forall in Hfr. pose proof (Hfr _ Hin) as Hfa.
  pose proof (blk_small _ _ Hb ltac:(apply Hfa)) as (Hs1 & Hs2 & Hs3 & Hs4). unfold fin in Hs2. cbn [fst snd] in *.
  destruct (free_split brk held a n n' Hn Hn' Hb Hfa Hhe) as [Hf1 Hf2].
  pose proof (proj1 (proj1 Hf1)) as Ha. pose proof (proj1 (proj1 Hf2)) as Ha'. cbn in Ha, Ha'.
  assert (forall z, z ∈ (pre ++ [(q, nq)]) ++ post -> aligned z.1 /\ z.1 <> a /\ (z.1 + 16 <= a \/ a + 16 * (n + n') <= z.1)) as Hz.
  { intros z Hz. assert (base_or_free brk held z) as Hzb by (rewrite Forall_forall in Hbl; apply Hbl; set_solver).
    destruct (Hmid z Hz) as [Hd _]. destruct Hzb as [->|[(? & ? & ? & ?) _]].
    - destruct Hbase as (? & ? & ?). destruct Hf1 as [(_ & Hf1 & _) _]. cbn in *. split_and!; [done|lia|lia].
    - unfold disj, fin in Hd. cbn in *. split_and!; [done|lia|lia]. }
  set (m' := set_hsize (a + 16 * n) n' (set_hsize a n m)).
  assert (forall k, ~ (a <= k < a + 16 * (n + n')) -> mget m' k = mget m k) as Hfar.
  { intros k Hk. unfold m'. rewrite !mget_set_hsize; [done|lia|lia]. }
  assert (forall l0 e, (forall z, z ∈ l0 -> z ∈ (pre ++ [(q, nq)]) ++ post) -> linked m l0 e -> linked m' l0 e) as Hext.
  { intros l0 e Hl0. apply linked_ext. intros z Hz'. destruct (Hz z (Hl0 z Hz')) as (? & ? & ?). apply hdr_ext. intros k Hk. apply Hfar. lia. }
  exists l'. rewrite <- E'. cbn [fst snd]. split_and!; [| | |done|lia|exists (q, nq); split; [set_solver|done]| |].
  - rewrite Hsh.
    apply linked_app in Hl as (Hl1 & Hl2 & _ & Hl3). apply linked_app. cbn in *. split_and!.
    + apply Hext; [set_solver|done].
    + unfold m'. rewrite !hptr_set_size; done.
    + unfold m'. rewrite hsize_set by (done || lia). destruct (Z.eqb_spec a (a + 16 * n)); [lia|]. apply hsize_set_same. lia.
    + apply Hext; [set_solver|done].
  - rewrite Hsh.
    apply pairwise_app in Hp as (H1 & [H2 H3] & H4). apply pairwise_app. split; [done|split; [split; [|done]|]].
    + eapply Forall_impl; [exact H2|]. intros x. unfold before, fin. cbn. lia.
    + intros x y Hx [->|Hy]%elem_of_cons; [specialize (H4 x _ Hx ltac:(by left)); done|]. apply H4; [done|by right].
  - apply Forall_forall. intros x Hx. assert (x ∈ pre ++ (q, nq) :: (a, n) :: post) as Hx' by (rewrite E'; by right).
    assert (x = (a, n) \/ x ∈ (pre ++ [(q, nq)]) ++ post) as [->|Hx2] by set_solver.
    + destruct Hf1 as [? ?]. split; [done|]. apply Forall_cons. split; [|done]. left. unfold fin. cbn. lia.
    + assert (free_ok brk held x) as [Hx3 Hx4] by (destruct (Hsub x Hx) as [->|]; [by destruct Hf1|auto]).
      split; [done|]. apply Forall_cons. split; [|done]. destruct (Hmid x Hx2) as [Hd _]. unfold disj, fin in *. cbn in *. lia.
  - unfold m'. apply hsize_set_same. lia.
  - intros k Hk. unfold m'. rewrite !mget_set_hsize; [done| |].
    + apply (in_use_apart brk held (a, n)); [done|by right|done].
    + apply (in_use_apart brk held (a + 16 * n, n')); [done|by right|done].
Qed.

(** Taking a block that is large enough. *)
Lemma take_block_ok s l held q nq a n nunits : heap (up_mem s) (up_brk s) l held -> (q, nq) ∈ (ubase, 0) :: l ->
  hptr q (up_mem s) = a -> (a, n) ∈ (ubase, 0) :: l -> 0 < nunits <= n ->
  returns (take_block nunits q a) s (fun r s' => exists p l', r = p + 16 /\ heap_ok s' l' ((p, nunits) :: held) /\
    (length l' <= length l)%nat /\ up_brk s' = up_brk s /\ forall k, in_use held k -> mget (up_mem s') k = mget (up_mem s) k).
Proof.
  intros Hh Hq Ha Hin Hn. destruct (next_block _ _ _ _ _ _ _ _ Hh Hq Ha Hin) as (pre & post & E); [lia|].
  pose proof (linked_in _ _ _ _ (heap_linked _ _ _ _ Hh) Hin) as Hsz. cbn in Hsz.
  assert (took (up_mem s) (up_brk s) l held nunits q (taken nunits q a (up_mem s))) as (l' & H1 & H2 & H3 & H4 & H5 & H6 & H7 & H8).
  { unfold taken. rewrite Hsz. destruct (Z.eqb_spec n nunits) as [->|]; [by eapply took_all|].
    assert (free_ok (up_brk s) held (a, n)) as Hfa.
    { pose proof (heap_free _ _ _ _ Hh) as Hfr. rewrite Forall_forall in Hfr. apply Hfr.
      apply elem_of_cons in Hin as [[=]|]; [lia|done]. }
    pose proof (blk_small _ _ (proj2 (proj2 (heap_brk _ _ _ _ Hh))) ltac:(apply Hfa)) as (? & Hf & ? & ?). unfold fin in Hf. cbn in *.
    rewrite hsize_set_same by lia. rewrite hadd_eq by lia. eapply took_part; [done| |lia|lia].
    rewrite E. by replace (n - nunits + nunits) with n by lia. }
  set (r := taken nunits q a (up_mem s)) in *. eapply returns_intro; [apply take_block_eq|]. fold r.
  assert (up_brk s <= limit) as Hb by apply Hh. pose proof (blk_small _ _ Hb ltac:(apply H4)) as (? & Hf & ? & ?). unfold fin in Hf. cbn in *.
  exists r.1, l'. split_and!; [rewrite hadd_eq by lia; lia| |done|done|done].
  split; [|done]. destruct Hh as [_ _ _ Hhe Hhd Hbk]. constructor; try done; cbn.
  - apply Forall_cons. split; [split; [apply H4|done]|]. rewrite Forall_forall in *. intros y Hy. destruct (Hhe y Hy) as [Hy1 Hy2].
    split; [done|]. rewrite <- Hy2. apply hdr_ext. intros k Hk. apply H8. exists y. split; [done|]. unfold fin. destruct Hy1 as (_ & _ & ? & _). lia.
  - split; [apply H4|done].
Qed.

(** ** malloc() *)

Context (sbrk : Z -> M uproc Z) (Hsbrk : sbrk_grows limit sbrk).

(** What happens when the search is back where it began. *)
Definition more (fuel k : nat) (nunits : Z) : M uproc Z :=
  p <- morecore sbrk fuel nunits ;;
  if p =? 0 then ret 0 else
  next <- gets (fun s => hptr p (up_mem s)) ;;
  malloc_loop sbrk fuel k nunits p next.

Lemma malloc_loop_eq fuel k nunits q p s : malloc_loop sbrk fuel (S k) nunits q p s =
  if nunits <=? hsize p (up_mem s) then take_block nunits q p s
  else if p =? up_freep s then more fuel k nunits s
  else malloc_loop sbrk fuel k nunits p (hptr p (up_mem s)) s.
Proof.
  cbn [malloc_loop]. unfold gets at 1, bind at 1. destruct (_ <=? _); [done|].
  unfold gets at 1, bind at 1. by destruct (p =? _).
Qed.

Lemma malloc_scan fuel k nunits C x f s : linked (up_mem s) (x :: C) f -> up_freep s = f -> Forall (fun y => y.1 <> f) C ->
  let L := C ++ [(f, hsize f (up_mem s))] in
  (exists y z, y ∈ x :: C /\ hptr y.1 (up_mem s) = z.1 /\ z ∈ L /\ nunits <= z.2 /\
    malloc_loop sbrk fuel (length C + S k) nunits x.1 (hptr x.1 (up_mem s)) s = take_block nunits y.1 z.1 s) \/
  (Forall (fun z => z.2 < nunits) L /\
    malloc_loop sbrk fuel (length C + S k) nunits x.1 (hptr x.1 (up_mem s)) s = more fuel k nunits s).
Proof.
  intros Hl Hf. revert x Hl. induction C as [|c C IH]; intros x (Hx & Hsx & Hl) Hne; cbn [length Nat.add app];
    rewrite malloc_loop_eq, Hx; cbn [first].
  - rewrite Hf, Z.eqb_refl. destruct (Z.leb_spec nunits (hsize f (up_mem s))).
    + left. exists x, (f, hsize f (up_mem s)). split_and!; [by left|done|by left|done|done].
    + right. split; [by repeat constructor|done].
  - pose proof Hl as (Hc & Hsc & _). apply Forall_cons in Hne as [Hcf Hne]. rewrite Hsc. destruct (Z.leb_spec nunits c.2).
    + left. exists x, c. split_and!; [by left|done|by left|done|done].
    + destruct (Z.eqb_spec c.1 (up_freep s)) as [|_]; [congruence|].
      destruct (IH c Hl Hne) as [(y & z & ? & ? & ? & ? & E)|[? E]].
      * left. exists y, z. split_and!; [by right|done|by right|done|done].
      * right. split; [by apply Forall_cons|done].
Qed.

(** The process grows. *)
Lemma heap_grow m m' brk n l held : heap m brk l held -> 0 < n -> brk + 16 * n <= limit ->
  (forall a, a < brk -> mget m' a = mget m a) ->
  heap (set_hsize brk n m') (brk + 16 * n) l ((brk, n) :: held).
Proof.
  intros [H1 H2 H3 H4 H5 (Hba & Hbh & Hbl)] Hn Hlim Hm.
  assert (forall x, blk_ok brk x -> hptr x.1 (set_hsize brk n m') = hptr x.1 m /\ hsize x.1 (set_hsize brk n m') = hsize x.1 m) as Hx.
  { intros x (_ & _ & ? & ?). apply hdr_ext. unfold fin in *. intros k Hk. rewrite mget_set_hsize by lia. apply Hm. lia. }
  assert (forall x, blk_ok brk x -> blk_ok (brk + 16 * n) x /\ disj x (brk, n)) as Hok.
  { intros x (? & ? & ? & ?). split; [split_and!; [done|done|done|lia]|left; done]. }
  constructor.
  - eapply linked_ext; [|exact H1]. rewrite Forall_forall in H3. intros x [->|Hin]%elem_of_cons; [|apply Hx; by apply H3].
    apply hdr_ext. cbn. intros k Hk. rewrite mget_set_hsize by lia. apply Hm. lia.
  - done.
  - eapply Forall_impl; [exact H3|]. intros x [? ?]. split; [by apply Hok|]. apply Forall_cons. split; [by apply Hok|done].
  - apply Forall_cons. split.
    + split; [split_and!; unfold fin; cbn; [done|lia..]|]. apply hsize_set_same. cbn. lia.
    + eapply Forall_impl; [exact H4|]. intros x [? <-]. split; [by apply Hok|by apply Hx].
  - split; [|done]. eapply Forall_impl; [exact H4|]. intros x [? _]. apply disj_sym. by apply Hok.
  - unfold aligned in *. split_and!; [zmod|lia|lia].
Qed.

Lemma morecore_ok k nunits s l held : heap_ok s l held -> 0 < nunits < 2 ^ 27 -> (length l < k)%nat ->
  let grown := up_brk s + 16 * Z.max 4096 nunits in
  returns (morecore sbrk k nunits) s (fun r s' =>
    if limit <? grown then r = 0 /\ s' = s
    else r = up_freep s' /\ r <> 0 /\ up_brk s' = grown /\ exists l', heap_ok s' l' held /\ (length l' <= S (length l))%nat /\
      (exists z, z ∈ l' /\ nunits <= z.2) /\ forall a, in_use held a -> mget (up_mem s') a = mget (up_mem s) a).
Proof.
  intros Hok Hn Hk grown. pose proof Hok as [Hh Hfp]. pose proof (heap_brk _ _ _ _ Hh) as (Hba & Hbh & Hbl).
  unfold morecore. set (nu := if nunits <? 4096 then 4096 else nunits).
  assert (nu = Z.max 4096 nunits) as Enu by (unfold nu; zcase). fold grown in Enu.
  assert (i32 (u64 (nu * HEADER)) = 16 * nu) as ->.
  { unfold u64, i32, HEADER. rewrite (Z.mod_small _ (2 ^ 64)) by lia. rewrite Z.mod_small; lia. }
  apply returns_bind. eapply returns_mono; [apply Hsbrk; [lia|done]|]. intros p s1. cbv beta.
  replace (up_brk s + 16 * nu) with grown by (unfold grown; lia). destruct (Z.ltb_spec limit grown) as [Hlt|Hge].
  - intros [-> ->]. rewrite Z.eqb_refl. by apply returns_ret.
  - intros (-> & Eb & Ef & Hm). destruct (Z.eqb_spec (up_brk s) (u64 (-1))) as [E|_]; [unfold u64 in E; change ((-1) mod 2 ^ 64) with (2 ^ 64 - 1) in E; lia|].
    apply returns_bind. eapply returns_intro; [done|]. apply returns_bind.
    assert (heap_ok (mkuproc (set_hsize (up_brk s) nu (up_mem s1)) (up_freep s1) (up_brk s1)) l ((up_brk s, nu) :: held)) as Hok1.
    { split; cbn; [|by rewrite Ef]. rewrite Eb. replace grown with (up_brk s + 16 * nu) by (unfold grown; lia). eapply heap_grow; [done|lia|unfold grown in Hge; lia|done]. }
    eapply returns_mono; [apply (ufree_ok k _ l _ nu held Hok1 Hk)|]. intros [] s2 (l' & Hok2 & Hlen & Hb2 & (z & Hz & Hnz) & Hm2).
    eapply returns_intro; [done|]. cbn [up_brk up_mem] in Hb2, Hm2. split_and!; [done| |congruence|].
    + destruct Hok2 as [Hh2 (x & Hx & <-)]. destruct (heap_blocks _ _ _ _ Hh2) as (Hbl2 & _). rewrite Forall_forall in Hbl2.
      pose proof (base_or_free_spec _ _ _ (proj2 (proj2 (heap_brk _ _ _ _ Hh2))) (Hbl2 x Hx)). lia.
    + exists l'. split_and!; [done|done|exists z; split; [done|lia]|]. intros a Ha. rewrite Hm2 by done.
      destruct Ha as (y & Hy & Ha). pose proof (heap_held _ _ _ _ Hh) as Hhe. rewrite Forall_forall in Hhe. destruct (Hhe y Hy) as [(_ & _ & _ & ?) _].
      rewrite mget_set_hsize by lia. apply Hm. lia.
Qed.

Definition served (s : uproc) (held : list (Z * Z)) (nunits brk : Z) (len : nat) (r : Z) (s' : uproc) : Prop :=
  exists p l', r = p + 16 /\ heap_ok s' l' ((p, nunits) :: held) /\ (length l' <= len)%nat /\ up_brk s' = brk /\
    forall a, in_use held a -> mget (up_mem s') a = mget (up_mem s) a.

(** A round of the list finds a block that is large enough, or there is none. *)
Lemma malloc_round fuel k nunits s l held : heap_ok s l held -> 0 < nunits ->
  let run := malloc_loop sbrk fuel (length l + S k) nunits (up_freep s) (hptr (up_freep s) (up_mem s)) in
  returns run s (served s held nunits (up_brk s) (length l)) \/ (Forall (fun z => z.2 < nunits) l /\ run s = more fuel k nunits s).
Proof.
  intros [Hh (f & Hf & Ef)] Hn run. destruct (rotation _ _ _ (heap_linked _ _ _ _ Hh) Hf) as (C & HC & Hperm).
  assert (length C = length l) as Hlen by (apply Permutation_length in Hperm; cbn in Hperm; lia).
  pose proof (linked_in _ _ _ f HC ltac:(by left)) as Hsf.
  assert (Forall (fun y => y.1 <> f.1) C) as Hne.
  { assert (NoDup ((f :: C).*1)) as Hnd.
    { rewrite Hperm. destruct (heap_blocks _ _ _ _ Hh) as (Hbl & _). pose proof (heap_asc _ _ _ _ Hh) as Hasc.
      assert (up_brk s <= limit) as Hb by apply Hh. clear -Hbl Hasc Hb Hbase Hlimit. induction ((ubase, 0) :: l) as [|x L IH]; [constructor|].
      apply Forall_cons in Hbl as [Hx Hbl]. destruct Hasc as [H1 H2]. constructor; [|auto].
      intros (y & E & Hy)%list_elem_of_fmap. rewrite Forall_forall in H1. specialize (H1 y Hy).
      pose proof (base_or_free_spec _ _ _ Hb Hx). unfold before, fin in H1. lia. }
    apply NoDup_cons in Hnd as [Hnd _]. rewrite Forall_forall. intros y Hy E. apply Hnd. rewrite <- E. by apply list_elem_of_fmap_2. }
  pose proof (malloc_scan fuel k nunits C f f.1 s HC (eq_sym Ef) Hne) as Hs. cbn zeta in Hs. rewrite Hsf, Hlen, Ef in Hs.
  assert (C ++ [(up_freep s, f.2)] ≡ₚ (ubase, 0) :: l) as Hp2.
  { rewrite <- Hperm, <- Ef. rewrite Permutation_app_comm. by destruct f. }
  destruct Hs as [(y & z & Hy & Hyz & Hz & Hnz & E)|[Hall E]].
  - left. eapply returns_eq; [exact E|]. rewrite Hperm in Hy. rewrite Hp2 in Hz. destruct y as [y1 y2], z as [z1 z2]. cbn in *.
    eapply returns_mono; [eapply (take_block_ok s l held y1 y2 z1 z2); done|].
    intros r s' (p & l' & ? & ? & ? & ? & ?). by exists p, l'.
  - right. split; [|done]. rewrite Hp2 in Hall. by apply Forall_cons in Hall as [_ ?].
Qed.

(** The state between operations: [n] bounds the number of free blocks. *)
Definition umalloc_ok (n : nat) (s : uproc) (held : list (Z * Z)) : Prop :=
  (up_freep s = 0 /\ held = [] /\ aligned (up_brk s) /\ hs <= up_brk s <= limit) \/
  exists l, heap_ok s l held /\ (length l <= n)%nat.

Lemma first_malloc s : aligned (up_brk s) -> hs <= up_brk s <= limit ->
  heap_ok (mkuproc (set_hsize ubase 0 (set_hptr ubase ubase (up_mem s))) ubase (up_brk s)) [] [].
Proof.
  intros Ha Hb. split; [constructor|]; cbn; try done.
  - split_and!; [|by apply hsize_set_same|done]. rewrite hptr_set_size by apply Hbase. apply hptr_set_same. lia.
  - exists (ubase, 0). split; [by left|done].
Qed.

Lemma malloc_search fuel n nbytes s l held : heap_ok s l held -> (length l <= n)%nat -> (2 * n + 4 <= fuel)%nat ->
  0 <= nbytes -> nbytes + 31 < 2 ^ 31 -> let nunits := (nbytes + 15) / 16 + 1 in
  returns (malloc_loop sbrk fuel fuel nunits (up_freep s) (hptr (up_freep s) (up_mem s))) s (fun r s' =>
    served s held nunits (up_brk s) (S n) r s' \/ served s held nunits (up_brk s + request nbytes) (S n) r s' \/
    limit < up_brk s + request nbytes /\ r = 0 /\ s' = s).
Proof.
  intros Hok Hl Hf Hn1 Hn2 nunits. assert (0 < nunits < 2 ^ 27) as Hnu by (unfold nunits; zmod).
  assert (request nbytes = 16 * Z.max 4096 nunits) as Hreq by (unfold request, HEADER, nunits; replace (nbytes + 16 - 1) with (nbytes + 15) by lia; done).
  assert (forall s0 brk len r s', (len <= S n)%nat -> served s0 held nunits brk len r s' -> served s0 held nunits brk (S n) r s') as Hmono.
  { intros s0 brk len r s' Hlen (p & l' & ? & ? & ? & ? & ?). exists p, l'. split_and!; try done. lia. }
  pose proof (malloc_round fuel (fuel - length l - 1) nunits s l held Hok ltac:(lia)) as Hr. cbn zeta in Hr.
  replace (length l + S (fuel - length l - 1))%nat with fuel in Hr by lia. destruct Hr as [Hr|[_ Hr]].
  - eapply returns_mono; [exact Hr|]. intros r s' H. left. eapply Hmono; [|exact H]. lia.
  - eapply returns_eq; [exact Hr|]. unfold more. apply returns_bind.
    eapply returns_mono; [apply (morecore_ok fuel nunits s l held); [done|lia|lia]|]. rewrite <- Hreq. intros r s1. cbv beta zeta.
    destruct (Z.ltb_spec limit (up_brk s + request nbytes)) as [Hlim|_].
    + intros [-> ->]. rewrite Z.eqb_refl. apply returns_ret. by right; right.
    + intros (-> & Hr0 & Hb1 & l1 & Hok1 & Hl1 & (z & Hz & Hnz) & Hm1). destruct (Z.eqb_spec (up_freep s1) 0); [done|].
      apply returns_bind. eapply returns_intro; [done|].
      pose proof (malloc_round fuel (fuel - length l - 1 - length l1 - 1) nunits s1 l1 held Hok1 ltac:(lia)) as Hr1. cbn zeta in Hr1.
      replace (length l1 + S (fuel - length l - 1 - length l1 - 1))%nat with (fuel - length l - 1)%nat in Hr1 by lia.
      destruct Hr1 as [Hr1|[Hall _]]; [|rewrite Forall_forall in Hall; specialize (Hall z Hz); lia].
      eapply returns_mono; [exact Hr1|]. intros r s' H. right. left.
      destruct H as (p & l' & -> & Hok' & Hl' & Hb' & Hm'). exists p, l'. split_and!; [done|done|lia|congruence|].
      intros a Ha. rewrite Hm', Hm1; done.
Qed.

Lemma malloc_ok fuel n nbytes s held : umalloc_ok n s held -> (2 * n + 4 <= fuel)%nat ->
  0 <= nbytes -> nbytes + 31 < 2 ^ 31 -> let nunits := (nbytes + 15) / 16 + 1 in
  returns (malloc ubase sbrk fuel nbytes) s (fun r s' =>
    (limit < up_brk s + request nbytes /\ r = 0 /\ up_brk s' = up_brk s /\ umalloc_ok (S n) s' held \/
     (up_brk s' = up_brk s \/ up_brk s' = up_brk s + request nbytes) /\ r <> 0 /\ umalloc_ok (S n) s' ((r - 16, nunits) :: held)) /\
    forall a, in_use held a -> mget (up_mem s') a = mget (up_mem s) a).
Proof.
  intros Hok Hf Hn1 Hn2 nunits. unfold malloc.
  assert (u32 ((nbytes + HEADER - 1) / HEADER + 1) = nunits) as ->.
  { unfold HEADER, nunits, u32. replace (nbytes + 16 - 1) with (nbytes + 15) by lia. rewrite Z.mod_small; [done|]. zmod. }
  assert (forall s1 l, heap_ok s1 l held -> (length l <= n)%nat -> up_brk s1 = up_brk s -> (forall a, in_use held a -> mget (up_mem s1) a = mget (up_mem s) a) ->
    returns (malloc_loop sbrk fuel fuel nunits (up_freep s1) (hptr (up_freep s1) (up_mem s1))) s1 (fun r s' =>
    (limit < up_brk s + request nbytes /\ r = 0 /\ up_brk s' = up_brk s /\ umalloc_ok (S n) s' held \/
     (up_brk s' = up_brk s \/ up_brk s' = up_brk s + request nbytes) /\ r <> 0 /\ umalloc_ok (S n) s' ((r - 16, nunits) :: held)) /\
    forall a, in_use held a -> mget (up_mem s') a = mget (up_mem s) a)) as Hmain.
  { intros s1 l Hok1 Hl Hb Hm. eapply returns_mono; [by apply (malloc_search fuel n nbytes s1 l held)|]. rewrite Hb. intros r s'.
    assert (forall brk, served s1 held nunits brk (S n) r s' -> up_brk s' = brk /\ r <> 0 /\ umalloc_ok (S n) s' ((r - 16, nunits) :: held) /\
      forall a, in_use held a -> mget (up_mem s') a = mget (up_mem s) a) as Hsv.
    { intros brk (p & l' & -> & Hok' & Hl' & Hb' & Hm'). split_and!; [done| | |].
      - destruct (heap_drop _ _ _ _ _ (ok_heap _ _ _ Hok')) as (_ & [(_ & ? & _) _] & _). cbn in *. lia.
      - right. exists l'. replace (p + 16 - 16) with p by lia. by split.
      - intros a Ha. rewrite Hm', Hm; done. }
    intros [H|[H|(? & -> & ->)]].
    - destruct (Hsv _ H) as (? & ? & ? & ?). split; [right; split_and!; auto|done].
    - destruct (Hsv _ H) as (? & ? & ? & ?). split; [right; split_and!; auto|done].
    - split; [left; split_and!; [done|done|done|right; exists l; split; [done|lia]]|done]. }
  apply returns_bind. eapply returns_intro; [done|]. destruct Hok as [(Hf0 & -> & Ha & Hb)|(l & Hok & Hl)].
  - rewrite Hf0, Z.eqb_refl. cbn [when]. apply returns_bind. eapply returns_intro; [done|].
    apply returns_bind. eapply returns_intro; [done|]. apply returns_bind. eapply returns_intro; [done|].
    apply (Hmain _ [] (first_malloc s Ha Hb)); [cbn; lia|done|]. by intros a (y & ?%not_elem_of_nil & _).
  - destruct (Z.eqb_spec (up_freep s) 0) as [E|_].
    + destruct Hok as [Hh (x & Hx & E2)]. destruct (heap_blocks _ _ _ _ Hh) as (Hbl & _). rewrite Forall_forall in Hbl.
      pose proof (base_or_free_spec _ _ _ (proj2 (proj2 (heap_brk _ _ _ _ Hh))) (Hbl x Hx)). lia.
    + cbn [when]. apply returns_bind. eapply returns_intro; [done|]. apply returns_bind. eapply returns_intro; [done|].
      apply returns_bind. eapply returns_intro; [done|]. by apply (Hmain s l).
Qed.

(** ** Refinement *)

(** A piece as its client sees it and as the block it is: its address and size, the
    block's units. *)
Definition piece : Type := Z * Z * Z.
Definition block_of (b : piece) : Z * Z := (b.1.1 - 16, b.2).
Definition piece_ok (b : piece) : Prop := 0 <= b.1.2 <= 16 * (b.2 - 1).

Definition refines (n : nat) (s : uproc) (st : astate) : Prop :=
  exists ps, as_held st ≡ₚ fst <$> ps /\ Forall piece_ok ps /\ umalloc_ok n s (block_of <$> ps) /\ as_brk st = up_brk s /\
    forall a v, as_bytes st !! a = Some v -> owns (as_held st) a /\ mget (up_mem s) a = v.

Lemma owns_perm h1 h2 a : h1 ≡ₚ h2 -> owns h1 a <-> owns h2 a.
Proof. intros H. unfold owns. by rewrite H. Qed.

Lemma owns_in_use ps a : Forall piece_ok ps -> owns (fst <$> ps) a -> in_use (block_of <$> ps) a.
Proof.
  unfold owns. rewrite Exists_exists, Forall_forall. intros Hp (x & (b & -> & Hb)%list_elem_of_fmap & Ha).
  specialize (Hp b Hb). exists (block_of b). split; [by apply list_elem_of_fmap_2|]. unfold block_of, piece_ok, fin in *. cbn. lia.
Qed.

Lemma umalloc_disj n s held x : umalloc_ok n s (x :: held) -> free_ok (up_brk s) held x /\ Forall (blk_ok (up_brk s)) held /\ up_brk s <= limit.
Proof.
  intros [(_ & ? & _)|(l & [Hh _] & _)]; [done|]. destruct (heap_drop _ _ _ _ _ Hh) as (Hh' & ? & _).
  split_and!; [done|apply (heap_blocks _ _ _ _ Hh')|apply Hh].
Qed.

Lemma umalloc_perm n s held held' : held ≡ₚ held' -> umalloc_ok n s held -> umalloc_ok n s held'.
Proof.
  intros Hp [(? & -> & ?)|(l & [[H1 H2 H3 H4 H5 H6] Hf] & Hl)]; [left; by apply Permutation_nil_l in Hp as ->|].
  right. exists l. split; [split; [constructor|]|]; try done.
  - eapply Forall_impl; [exact H3|]. intros x. cbv beta. by rewrite Hp.
  - by rewrite <- Hp.
  - eapply pairwise_perm; [|exact Hp|done]. apply disj_sym.
Qed.

Lemma malloc_refines fuel n nbytes s st : refines n s st -> legal st (UMalloc nbytes) -> (2 * n + 4 <= fuel)%nat ->
  returns (uop_run ubase sbrk fuel (UMalloc nbytes)) s (fun r s' => exists st', astep limit st (UMalloc nbytes) r st' /\ refines (S n) s' st').
Proof.
  intros (ps & Hh & Hps & Hok & Hb & Hby) [Hn1 Hn2] Hf. cbn [uop_run].
  eapply returns_mono; [by apply (malloc_ok fuel n nbytes s (block_of <$> ps))|]. intros r s' [Hr Hm]. set (nunits := (nbytes + 15) / 16 + 1) in *.
  assert (forall a v, as_bytes st !! a = Some v -> owns (as_held st) a /\ mget (up_mem s') a = v) as Hby'.
  { intros a v Ha. destruct (Hby a v Ha) as [Ho Hv]. split; [done|]. rewrite Hm; [done|]. apply owns_in_use; [done|]. by apply (owns_perm _ _ _ Hh). }
  destruct Hr as [(Hlim & -> & Hb' & Hok')|(Hb' & Hr0 & Hok')].
  - exists st. split; [apply astep_nomem; [done|done|by rewrite Hb]|]. exists ps. by split_and!; [..|congruence|].
  - exists (mkastate ((r, nbytes) :: as_held st) (as_bytes st) (up_brk s')).
    destruct (umalloc_disj _ _ _ _ Hok') as ([(Ha & H1 & H2 & H3) Hd] & _). unfold fin in H3. cbn in *.
    assert (nbytes <= 16 * (nunits - 1)) as Hu by (unfold nunits; zmod). split.
    + apply astep_malloc; [done|done|done| |lia|by rewrite Hb|].
      * unfold aligned in Ha. zmod.
      * intros x. rewrite Hh. intros (b & -> & Hbp)%list_elem_of_fmap. rewrite Forall_forall in Hps. rewrite Forall_forall in Hd.
        specialize (Hps b Hbp). specialize (Hd _ (list_elem_of_fmap_2 block_of _ _ Hbp)). unfold disj, fin, block_of, piece_ok in *. cbn in *. lia.
    + exists ((r, nbytes, nunits) :: ps). split_and!; [cbn; by rewrite Hh|apply Forall_cons; split; [split; done|done]|done|done|].
      cbn. intros a v Ha'. destruct (Hby' a v Ha'). split; [by right|done].
Qed.

Lemma free_refines fuel n p s st : refines n s st -> legal st (UFree p) -> (2 * n + 4 <= fuel)%nat ->
  returns (uop_run ubase sbrk fuel (UFree p)) s (fun r s' => exists st', astep limit st (UFree p) r st' /\ refines (S n) s' st').
Proof.
  intros (ps & Hh & Hps & Hok & Hb & Hby) [m Hin] Hf. cbn [uop_run]. rewrite Hh in Hin.
  apply list_elem_of_fmap in Hin as (b & Eb & Hbp). apply list_elem_of_split in Hbp as (p1 & p2 & ->).
  rewrite <- Permutation_middle in Hh. assert (Forall piece_ok (b :: p1 ++ p2)) as Hps' by (by rewrite Permutation_middle).
  apply (umalloc_perm _ _ _ (block_of <$> b :: p1 ++ p2)) in Hok; [|by rewrite Permutation_middle]. rewrite fmap_cons in Hok, Hh.
  set (qs := p1 ++ p2) in *. apply Forall_cons in Hps' as [Hpb Hqs]. destruct b as [[bp bn] bu]. cbn in Eb. injection Eb as <- <-. unfold piece_ok in Hpb. cbn in Hpb.
  destruct (umalloc_disj _ _ _ _ Hok) as (Hfree & Hblk & Hbl).
  destruct Hok as [(_ & ? & _)|(l & Hok & Hl)]; [done|]. unfold block_of in Hok at 1. cbn in Hok. cbn [fst snd] in Hh.
  apply returns_bind. pose proof (blk_small _ _ Hbl ltac:(apply Hfree)) as (H1 & H2 & H3 & H4). unfold fin, block_of in H1, H2, H3, H4. cbn in H1, H2, H3, H4.
  replace p with (hadd (p - 16) 1) at 1 by (rewrite hadd_eq by lia; lia).
  eapply returns_mono; [apply (ufree_ok fuel s l (p - 16) bu (block_of <$> qs) Hok); lia|].
  intros [] s' (l' & Hok' & Hl' & Hb' & _ & Hm). apply returns_ret. eexists. split; [apply (astep_free _ _ p m (fst <$> qs)); exact Hh|].
  exists qs. cbn [as_held as_bytes as_brk]. split_and!; [done|done|right; exists l'; split; [done|lia]|congruence|].
  intros a v Ha. apply map_lookup_filter_Some in Ha as [Ha Ho]. cbn in Ho. split; [done|]. destruct (Hby a v Ha) as [_ <-].
  apply Hm. by apply owns_in_use.
Qed.

Lemma write_refines n a v s st : refines n s st -> owns (as_held st) a ->
  refines n (mkuproc (mset a v (up_mem s)) (up_freep s) (up_brk s)) (mkastate (as_held st) (<[a := v]> (as_bytes st)) (as_brk st)).
Proof.
  intros (ps & Hh & Hps & Hok & Hb & Hby) Ho. exists ps. cbn. split_and!; [done|done| |done|].
  - destruct Hok as [?|(l & [Hheap Hf] & Hl)]; [by left|]. right. exists l. split; [split; [|done]|done]. cbn.
    rewrite (owns_perm _ _ a Hh) in Ho. unfold owns in Ho. rewrite Exists_exists in Ho. destruct Ho as (x & (b & -> & Hbp)%list_elem_of_fmap & Ha).
    rewrite Forall_forall in Hps. specialize (Hps b Hbp). unfold piece_ok in Hps.
    destruct (heap_blocks _ _ _ _ Hheap) as (Hbl & Hfr & Hhe). pose proof (list_elem_of_fmap_2 block_of _ _ Hbp) as Hbb.
    set (hb := block_of <$> ps) in *. clearbody hb.
    pose proof Hhe as Hhe'. rewrite Forall_forall in Hhe'. destruct (Hhe' _ Hbb) as (Hba & ? & ? & ?). unfold fin, block_of in *. cbn in *.
    assert (forall x : Z * Z, x.1 <> b.1.1 - 16 -> aligned x.1 -> (x.1 + 16 <= b.1.1 - 16 \/ b.1.1 - 16 + 16 * b.2 <= x.1) ->
      hptr x.1 (mset a v (up_mem s)) = hptr x.1 (up_mem s) /\ hsize x.1 (mset a v (up_mem s)) = hsize x.1 (up_mem s)) as Hother.
    { intros x _ _ ?. apply hdr_ext. intros k Hk. rewrite mget_mset. by zcase. }
    pose proof Hheap as [G1 G2 G3 G4 G5 G6]. constructor; try done.
    + eapply linked_ext; [|exact G1]. intros x Hx. rewrite Forall_forall in Hbl. specialize (Hbl x Hx).
      destruct Hbl as [->|[(? & ? & ? & ?) Hd]].
      * apply Hother; destruct Hbase as (? & ? & ?); cbn; [lia|done|lia].
      * rewrite Forall_forall in Hd. specialize (Hd _ Hbb). unfold disj, fin in Hd. cbn in Hd. apply Hother; [lia|done|lia].
    + rewrite Forall_forall in *. intros y Hy. destruct (G4 y Hy) as [(Hya & ? & ? & ?) Hsz]. split; [by split_and!|]. rewrite <- Hsz.
      apply hdr_ext. intros k Hk. rewrite mget_mset. destruct (Z.eqb_spec k a) as [->|]; [|done]. exfalso.
      destruct (pairwise_in disj _ y _ disj_sym G5 Hy Hbb) as [->|Hd]; [cbn in *; lia|]. unfold disj, fin in Hd. cbn in Hd. lia.
  - cbn. intros a' v'. destruct (decide (a' = a)) as [->|Hne].
    + rewrite lookup_insert_eq. intros [= <-]. split; [done|]. by rewrite mget_mset, Z.eqb_refl.
    + rewrite lookup_insert_ne by done. intros Ha. destruct (Hby a' v' Ha) as [? ?]. split; [done|].
      rewrite mget_mset. by destruct (Z.eqb_spec a' a).
Qed.

Lemma refines_weaken n n' s st : (n <= n')%nat -> refines n s st -> refines n' s st.
Proof.
  intros Hn (ps & ? & ? & Hok & ? & ?). exists ps. split_and!; try done.
  destruct Hok as [?|(l & ? & ?)]; [by left|right; exists l; split; [done|lia]].
Qed.

Lemma uop_refines fuel n o s st : refines n s st -> legal st o -> (2 * n + 4 <= fuel)%nat ->
  returns (uop_run ubase sbrk fuel o) s (fun r s' => exists st', astep limit st o r st' /\ refines (S n) s' st').
Proof.
  intros HR Hl Hf. destruct o as [nbytes|p|a v|a].
  - by eapply malloc_refines.
  - by eapply free_refines.
  - cbn [uop_run]. apply returns_bind. eapply returns_intro; [done|]. apply returns_ret. eexists. split; [by apply astep_write|].
    eapply refines_weaken; [|by apply write_refines]. lia.
  - cbn [uop_run]. eapply returns_intro; [done|]. exists st. split; [|eapply refines_weaken; [|done]; lia].
    apply astep_read; [done|]. destruct HR as (ps & _ & _ & _ & _ & Hby). intros v Hv. by destruct (Hby a v Hv).
Qed.

Lemma client_refines fuel n m c s st : refines m s st -> plays limit n st c -> (2 * (m + n) + 4 <= fuel)%nat ->
  returns (client_run ubase sbrk fuel c) s (fun tr s' => exists st', atrace limit st tr st').
Proof.
  revert n m s st. induction c as [|o next IH]; intros n m s st HR Hp Hf.
  - apply returns_ret. exists st. constructor.
  - destruct n as [|n]; [done|]. destruct Hp as [Hl Hp]. cbn [client_run].
    apply returns_bind. eapply returns_mono; [apply (uop_refines fuel m o s st HR Hl); lia|]. intros r s' (st' & Hst & HR').
    apply returns_bind. eapply returns_mono; [apply (IH r n (S m) s' st' HR' (Hp r st' Hst)); lia|]. intros tr s'' (st'' & Htr).
    apply returns_ret. exists st''. by econstructor.
Qed.
End Heap.

(** ** Properties *)

(** C31: malloc() and free() refine memory that belongs to one client at a time.  A
    client that frees only what it holds and touches only that, whatever malloc()
    answers, runs to its end, and what it sees is a run of the specification: pieces
    are aligned, large enough, inside the process and apart from all others held;
    bytes keep the last value written; malloc() fails only when the kernel has too
    little memory for the request.  Each search ends within two rounds of the free
    list, which gains at most one block per operation. *)
Theorem umalloc_refines (ubase hs limit : Z) (sbrk : Z -> M uproc Z) (fuel n : nat) (c : client) (s : uproc)
  (Hbase : aligned ubase /\ 0 < ubase /\ ubase + 16 <= hs) (Hlimit : hs <= limit <= 2 ^ 31)
  (Hsbrk : sbrk_grows limit sbrk)
  (Hs : up_freep s = 0 /\ aligned (up_brk s) /\ hs <= up_brk s <= limit)
  (Hc : plays limit n (mkastate [] ∅ (up_brk s)) c) (Hfuel : (2 * n + 4 <= fuel)%nat) :
  returns (client_run ubase sbrk fuel c) s (fun tr s' => exists st', atrace limit (mkastate [] ∅ (up_brk s)) tr st').
Proof.
  eapply (client_refines ubase hs limit Hbase Hlimit sbrk Hsbrk fuel n 0); [|done|lia].
  exists []. split_and!; [done|done|left; destruct Hs as (? & ? & ? & ?); by split_and!|done|done].
Qed.

(** A request of 2 GB or more wraps on its way to sbrk(), whose parameter is an
    int: for 2^31 - 16 bytes it asks the kernel to shrink the process. *)
Lemma morecore_wraps sbrk k s : morecore sbrk k ((2 ^ 31 - 16 + 15) / 16 + 1) s =
  (p <- sbrk (- 2 ^ 31) ;; if p =? u64 (-1) then ret 0 else
   umod (set_hsize p (2 ^ 27)) ;; ufree k (hadd p 1) ;; gets up_freep) s.
Proof. reflexivity. Qed.

(** ** Witnesses *)

(** A kernel that grows the process up to [limit]. *)
Definition grow_sbrk (limit n : Z) : M uproc Z :=
  s <- get ;;
  if limit <? up_brk s + n then ret (u64 (-1))
  else modify (fun s => s <| up_brk := up_brk s + n |>) ;; ret (up_brk s).

Lemma grow_sbrk_grows limit : sbrk_grows limit (grow_sbrk limit).
Proof.
  intros n s _ _. unfold grow_sbrk, get, bind, returns at 1. cbn. destruct (limit <? up_brk s + n); cbn; [done|].
  by split_and!.
Qed.

(** Two pieces, of 100 and 24 bytes: the first is written, read, given back. *)
Definition wit_client : client :=
  Do (UMalloc 100) (fun p => if p =? 0 then Done else
  Do (UMalloc 24) (fun q =>
  Do (UWrite p 7) (fun _ =>
  Do (URead p) (fun _ =>
  Do (UFree p) (fun _ => Done))))).

Lemma umalloc_refines_witness :
  returns (client_run 1024 (grow_sbrk (2 ^ 27)) 14 wit_client) (mkuproc ∅ 0 16384) (fun tr s' => exists st', atrace (2 ^ 27) (mkastate [] ∅ 16384) tr st').
Proof.
  apply (umalloc_refines 1024 8192 (2 ^ 27) (grow_sbrk (2 ^ 27)) 14 5 wit_client (mkuproc ∅ 0 16384));
    [by split_and!|by split_and!|apply grow_sbrk_grows|by split_and!| |lia].
  split; [done|]. intros p st Hp. destruct (Z.eqb_spec p 0) as [|Hp0]; [done|]. inversion Hp as [? ? brk| | | |]; subst; [|done].
  split; [done|]. intros q st Hq. assert ((p, 100) ∈ as_held st) as Hin by (inversion Hq; subst; [right; by left|by left]). clear Hp Hq.
  assert (owns (as_held st) p) as Ho by (apply Exists_exists; exists (p, 100); split; [done|cbn; lia]).
  split; [done|]. intros r st1 Hw. inversion Hw; subst. split; [done|].
  intros r2 st2 Hr. inversion Hr; subst. split; [by exists 100|]. done.
Defined.
