(* ===== verification/Mkfs.v ===== *)
(** * Mkfs: the program that builds the file system image

    Models mkfs/mkfs.c, which runs on the host.  The host's files are the interface
    [Host]; strings are the bytes before their NUL.  The host stores integers in
    little-endian order, as the disk does. *)
From S2P Require Import Prelude Spinlock Mem Os Sleeplock Bio Log Fs FsSpec Ulib.

(** ** The host *)

Class Host (S : Type) := {
  h_open : list Z -> Z -> M S Z;           (* open(path, flags, 0666) *)
  h_close : Z -> M S Z;
  h_read : Z -> Z -> M S (Z * list Z);     (* read(fd, buf, n): result, bytes stored *)
  h_write : Z -> list Z -> M S Z;
  h_lseek : Z -> Z -> M S Z;               (* lseek(fd, off, SEEK_SET) *)
  h_fprintf : Z -> string -> list varg -> M S unit;   (* 1 stdout, 2 stderr *)
  h_exit : forall A, Z -> M S A;           (* exit(1); never returns *)
  h_perror : list Z -> M S unit;
}.

(** O_RDWR|O_CREAT|O_TRUNC of the host *)
Definition O_IMAGE : Z := 0x242.

(** assert() *)
Definition assert {S} (b : bool) : M S unit := if b then ret tt else panic "assert".

(** ** Globals *)

Definition NINODES : Z := 200.
Definition nbitmap : Z := FSSIZE / (BSIZE * 8) + 1.
Definition ninodeblocks : Z := NINODES / IPB + 1.
Definition nlog : Z := LOGSIZE.

Record mkfs : Type := mkmkfs {
  mk_fsfd : Z;
  mk_sb : superblock;
  mk_freeinode : Z;
  mk_freeblock : Z;
}.
#[export] Instance eta_mkfs : Settable mkfs := fun s => mkmkfs (mk_fsfd s) (mk_sb s) (mk_freeinode s) (mk_freeblock s).

(** Their initial values *)
Definition globals : mkfs := mkmkfs 0 (mksuperblock 0 0 0 0 0 0 0 0) 1 0.

(** convert to intel byte order: the bytes written one by one, read as the host
    does *)
Definition xshort (x : Z) : Z := get_le 2 0 [u8 x; u8 (Z.shiftr x 8)].
Definition xint (x : Z) : Z := get_le 4 0 [u8 x; u8 (Z.shiftr x 8); u8 (Z.shiftr x 16); u8 (Z.shiftr x 24)].

Definition zeroes : list Z := replicate (Z.to_nat BSIZE) 0.

(** memmove(buf, &sb, sizeof(sb)) *)
Definition put_sb (s : superblock) (b : list Z) : list Z :=
  put_words 0 [sb_magic s; sb_size s; sb_nblocks s; sb_ninodes s; sb_nlog s; sb_logstart s; sb_inodestart s; sb_bmapstart s] b.

(** struct dirent *)
Definition dirent (inum : Z) (name : list Z) : list Z := put_le 2 0 inum (0 :: 0 :: name).

Section Mkfs.
Context {S : Type} `{!Host S} (ml : lens S mkfs).

Definition die {A} (s : list Z) : M S A := h_perror s ;; h_exit A 1.

Definition wsect (sec : Z) (buf : list Z) : M S unit :=
  g <- lread ml ;;
  r <- h_lseek (mk_fsfd g) (u32 (sec * BSIZE)) ;;
  if negb (r =? u32 (sec * BSIZE)) then die (str "lseek") else
  r <- h_write (mk_fsfd g) buf ;;
  if negb (r =? BSIZE) then die (str "write") else ret tt.

Definition rsect (sec : Z) : M S (list Z) :=
  g <- lread ml ;;
  r <- h_lseek (mk_fsfd g) (u32 (sec * BSIZE)) ;;
  if negb (r =? u32 (sec * BSIZE)) then die (str "lseek") else
  r <- h_read (mk_fsfd g) BSIZE ;;
  if negb (r.1 =? BSIZE) then die (str "read") else ret r.2.

Definition winode (inum : Z) (ip : dinode) : M S unit :=
  g <- lread ml ;;
  let bn := IBLOCK inum (mk_sb g) in
  buf <- rsect bn ;;
  wsect bn (put_dinode (dinode_off inum) ip buf).

Definition rinode (inum : Z) : M S dinode :=
  g <- lread ml ;;
  let bn := IBLOCK inum (mk_sb g) in
  buf <- rsect bn ;;
  ret (get_dinode (dinode_off inum) buf).

Definition ialloc (type : Z) : M S Z :=
  g <- lread ml ;;
  let inum := mk_freeinode g in
  lmod ml (fun g => g <| mk_freeinode := u32 (inum + 1) |>) ;;
  winode inum (mkdinode (i16 (xshort type)) 0 0 (i16 (xshort 1)) (xint 0) (replicate 13 0)) ;;
  ret inum.

(** for(i = 0; i < used; i++) buf[i/8] |= 0x1 << (i%8); *)
Definition mark_used (used : Z) (buf : list Z) : list Z :=
  foldl (fun b i => map_set b (Z.of_nat i)) buf (seq 0 (Z.to_nat used)).

Definition balloc (used : Z) : M S unit :=
  h_fprintf 1 ("balloc: first %d blocks have been allocated" ++ nl) [AInt used] ;;
  assert (used <? BSIZE * 8) ;;
  g <- lread ml ;;
  h_fprintf 1 ("balloc: write bitmap block at sector %d" ++ nl) [AInt (sb_bmapstart (mk_sb g))] ;;
  wsect (sb_bmapstart (mk_sb g)) (mark_used used zeroes).

(** freeblock++ *)
Definition next_block : M S Z :=
  g <- lread ml ;;
  lmod ml (fun g => g <| mk_freeblock := u32 (mk_freeblock g + 1) |>) ;;
  ret (mk_freeblock g).

Definition addr (d : dinode) (i : Z) : Z := nth (Z.to_nat i) (d_addrs d) 0.
Definition set_addr (d : dinode) (i v : Z) : dinode :=
  mkdinode (d_type d) (d_major d) (d_minor d) (d_nlink d) (d_size d) (<[Z.to_nat i := v]> (d_addrs d)).

(** The block of [fbn], allocated when there is none yet: the inode and x. *)
Definition block_for (d : dinode) (fbn : Z) : M S (dinode * Z) :=
  if fbn <? NDIRECT then
    d <- (if xint (addr d fbn) =? 0 then b <- next_block ;; ret (set_addr d fbn (xint b)) else ret d) ;;
    ret (d, xint (addr d fbn))
  else
    d <- (if xint (addr d NDIRECT) =? 0 then b <- next_block ;; ret (set_addr d NDIRECT (xint b)) else ret d) ;;
    indirect <- rsect (xint (addr d NDIRECT)) ;;
    let off := Z.to_nat (4 * (fbn - NDIRECT)) in
    indirect <- (if get_le 4 off indirect =? 0 then
                   b <- next_block ;;
                   let indirect := put_le 4 off (xint b) indirect in
                   wsect (xint (addr d NDIRECT)) indirect ;;
                   ret indirect
                 else ret indirect) ;;
    ret (d, xint (get_le 4 off indirect)).

(** while(n > 0), [p] the bytes left; the inode and off *)
Fixpoint iappend_loop (k : nat) (d : dinode) (off : Z) (p : list Z) : M S (dinode * Z) :=
  if bool_decide (p = []) then ret (d, off) else
  match k with
  | O => fail EHang
  | Datatypes.S k' =>
      let fbn := off / BSIZE in
      assert (fbn <? MAXFILE) ;;
      r <- block_for d fbn ;;
      let '(d, x) := r in
      let n1 := Z.min (Z.of_nat (length p)) ((fbn + 1) * BSIZE - off) in
      buf <- rsect x ;;
      wsect x (splice (Z.to_nat (off - fbn * BSIZE)) (take (Z.to_nat n1) p) buf) ;;
      iappend_loop k' d (u32 (off + n1)) (drop (Z.to_nat n1) p)
  end.

Definition with_size (d : dinode) (size : Z) : dinode :=
  mkdinode (d_type d) (d_major d) (d_minor d) (d_nlink d) size (d_addrs d).

Definition iappend (inum : Z) (p : list Z) : M S unit :=
  d <- rinode inum ;;
  r <- iappend_loop (length p) d (xint (d_size d)) p ;;
  let '(d, off) := r in
  winode inum (with_size d (xint off)).

(** while((cc = read(fd, buf, sizeof(buf))) > 0) iappend(inum, buf, cc); *)
Fixpoint copy_in (k : nat) (fd inum : Z) : M S unit :=
  match k with
  | O => fail EHang
  | Datatypes.S k' =>
      r <- h_read fd BSIZE ;;
      if 0 <? r.1 then iappend inum r.2 ;; copy_in k' fd inum else ret tt
  end.

(** argv[i] without "user/", and without a leading _ *)
Definition shortname (arg : list Z) : list Z :=
  if bstrncmp 5 arg (str "user/") =? 0 then drop 5 arg else arg.
Definition stripped (name : list Z) : list Z := if nth 0 name 0 =? 95 then drop 1 name else name.

(** One round of the loop over the arguments *)
Definition add_file (fuel : nat) (rootino : Z) (arg : list Z) : M S unit :=
  let name := shortname arg in
  assert (negb (bool_decide (slash ∈ name))) ;;
  fd <- h_open arg 0 ;;
  if fd <? 0 then die arg else
  inum <- ialloc T_FILE ;;
  iappend rootino (dirent (xshort inum) (bstrncpy DIRSIZ (stripped name))) ;;
  copy_in fuel fd inum ;;
  h_close fd ;; ret tt.

Fixpoint add_files (fuel : nat) (rootino : Z) (args : list (list Z)) : M S unit :=
  match args with
  | [] => ret tt
  | arg :: args' => add_file fuel rootino arg ;; add_files fuel rootino args'
  end.

Definition nmeta : Z := 2 + nlog + ninodeblocks + nbitmap.
Definition nblocks : Z := FSSIZE - nmeta.

Definition new_sb : superblock :=
  mksuperblock FSMAGIC (xint FSSIZE) (xint nblocks) (xint NINODES) (xint nlog) (xint 2) (xint (2 + nlog))
    (xint (2 + nlog + ninodeblocks)).

(** fix size of root inode dir *)
Definition fix_root (rootino : Z) : M S unit :=
  d <- rinode rootino ;;
  let off := u32 ((xint (d_size d) / BSIZE + 1) * BSIZE) in
  winode rootino (with_size d (xint off)).

(** main(), up to exit(0); [argv] without the program's name *)
Definition mkfs_main (fuel : nat) (argv : list (list Z)) : M S unit :=
  match argv with
  | [] => h_fprintf 2 ("Usage: mkfs fs.img files..." ++ nl) [] ;; h_exit unit 1
  | image :: files =>
      assert (BSIZE mod 64 =? 0) ;;
      assert (BSIZE mod de_size =? 0) ;;
      fd <- h_open image O_IMAGE ;;
      lmod ml (fun g => g <| mk_fsfd := fd |>) ;;
      if fd <? 0 then die image else
      lmod ml (fun g => g <| mk_sb := new_sb |>) ;;
      h_fprintf 1 ("nmeta %d (boot, super, log blocks %u inode blocks %u, bitmap blocks %u) blocks %d total %d" ++ nl)
        [AInt nmeta; AInt nlog; AInt ninodeblocks; AInt nbitmap; AInt nblocks; AInt FSSIZE] ;;
      lmod ml (fun g => g <| mk_freeblock := nmeta |>) ;;
      for_each (seq 0 (Z.to_nat FSSIZE)) (fun i => wsect (Z.of_nat i) zeroes) ;;
      wsect 1 (put_sb new_sb zeroes) ;;
      rootino <- ialloc T_DIR ;;
      assert (rootino =? ROOTINO) ;;
      iappend rootino (dirent (xshort rootino) (bstrncpy DIRSIZ (str "."))) ;;
      iappend rootino (dirent (xshort rootino) (bstrncpy DIRSIZ (str ".."))) ;;
      add_files fuel rootino files ;;
      fix_root rootino ;;
      g <- lread ml ;;
      balloc (mk_freeblock g)
  end.
End Mkfs.

(** ** The image a program reads *)

Definition the_sb : superblock := mksuperblock FSMAGIC 1000 954 200 30 2 32 45.

Definition sector (img : list (list Z)) (b : Z) : option (list Z) := img !! Z.to_nat b.

(** The inode [ino] on disk. *)
Definition inode_at (img : list (list Z)) (ino : Z) (d : dinode) : Prop :=
  exists b, sector img (IBLOCK ino the_sb) = Some b /\ get_dinode (dinode_off ino) b = d.

(** The block of [fbn], as the kernel's bmap() finds it. *)
Definition block_at (img : list (list Z)) (d : dinode) (fbn : Z) : option Z :=
  if fbn <? NDIRECT then d_addrs d !! Z.to_nat fbn
  else a ← d_addrs d !! Z.to_nat NDIRECT; ind ← sector img a; Some (get_le 4 (Z.to_nat (4 * (fbn - NDIRECT))) ind).

(** An inode with the contents [data]: every byte is where bmap() leads. *)
Definition holds_file (img : list (list Z)) (ino type size : Z) (data : list Z) : Prop :=
  exists d, inode_at img ino d /\ d_type d = type /\ d_nlink d = 1 /\ d_size d = size /\
    forall i c, data !! i = Some c -> exists b l, block_at img d (Z.of_nat i / BSIZE) = Some b /\
      sector img b = Some l /\ l !! (i mod Z.to_nat BSIZE)%nat = Some c.

(** The blocks of an inode: its direct blocks, the indirect block, what that lists. *)
Definition blocks_of (img : list (list Z)) (d : dinode) : list Z :=
  filter (fun b => b <> 0) (d_addrs d ++ match sector img (nth 12 (d_addrs d) 0) with
                                          | Some ind => if decide (nth 12 (d_addrs d) 0 = 0) then [] else get_words 256 0 ind
                                          | None => []
                                          end).

(** How many blocks [n] bytes take. *)
Definition nblk (n : Z) : Z := (n + BSIZE - 1) / BSIZE.
Definition cost (n : Z) : Z := nblk n + (if NDIRECT <? nblk n then 1 else 0).

(** ** An ideal host *)

(** Its files, the image in sectors, the others in the pieces that read() gives;
    what is left of the one that is open. *)
Record core : Type := mkcore {
  co_mk : mkfs;
  co_img : list (list Z);
  co_src : gmap (list Z) (list (list Z));
  co_cur : list (list Z);
}.
#[export] Instance eta_core : Settable core := fun c => mkcore (co_mk c) (co_img c) (co_src c) (co_cur c).
Record host : Type := mkhost { ho_pos : Z; ho_core : core }.
Definition mkl : lens host mkfs := Lens (fun h => co_mk (ho_core h)) (fun g h => mkhost (ho_pos h) ((ho_core h) <| co_mk := g |>)).

Definition put_sector (i : nat) (b : list Z) (img : list (list Z)) : list (list Z) :=
  if (i <? length img)%nat then <[i := b]> img else img ++ replicate (i - length img) zeroes ++ [b].

#[export] Instance host_ideal : Host host := {|
  h_open := fun path flags h =>
    let c := ho_core h in
    if flags =? O_IMAGE then Ret 3 (mkhost 0 (c <| co_img := [] |>))
    else match co_src c !! path with
         | Some l => Ret 4 (mkhost (ho_pos h) (c <| co_cur := l |>))
         | None => Ret (-1) h
         end;
  h_close := fun _ => ret 0;
  h_read := fun fd n h =>
    let c := ho_core h in
    if fd =? 3 then
      match sector (co_img c) (ho_pos h / BSIZE) with
      | Some b => Ret (BSIZE, b) (mkhost (ho_pos h + BSIZE) c)
      | None => Ret (0, []) h
      end
    else let r := next_chunk n (mkuenv (co_cur c) [] []) in
         Ret (Z.of_nat (length r.1), r.1) (mkhost (ho_pos h) (c <| co_cur := ue_in r.2 |>));
  h_write := fun _ l h =>
    let c := ho_core h in
    Ret (Z.of_nat (length l)) (mkhost (ho_pos h + BSIZE)
      (c <| co_img := put_sector (Z.to_nat (ho_pos h / BSIZE)) l (co_img c) |>));
  h_lseek := fun _ off h => Ret off (mkhost off (ho_core h));
  h_fprintf := fun _ _ _ => ret tt;
  h_exit := fun _ _ => fail EHang;
  h_perror := fun _ => ret tt;
|}.

(** ** Runs, whatever the position in the image file *)

Definition runs {A} (m : M host A) (c : core) (a : A) (c' : core) : Prop :=
  forall pos, exists pos', m (mkhost pos c) = Ret a (mkhost pos' c').

Lemma runs_ret {A} (a : A) c : runs (ret a) c a c.
Proof. intros pos. by exists pos. Qed.

Lemma runs_bind {A B} (m : M host A) (k : A -> M host B) c a c1 b c2 :
  runs m c a c1 -> runs (k a) c1 b c2 -> runs (bind m k) c b c2.
Proof.
  intros H1 H2 pos. destruct (H1 pos) as (p1 & E1). destruct (H2 p1) as (p2 & E2). exists p2.
  unfold bind. by rewrite E1.
Qed.

Lemma runs_lread c : runs (lread mkl) c (co_mk c) c.
Proof. intros pos. by exists pos. Qed.

Lemma runs_lmod f c : runs (lmod mkl f) c tt (c <| co_mk := f (co_mk c) |>).
Proof. intros pos. by exists pos. Qed.

Lemma runs_assert b c : b = true -> runs (assert b) c tt c.
Proof. intros ->. apply runs_ret. Qed.

Lemma runs_printf f l c : runs (h_fprintf 1 f l) c tt c.
Proof. apply runs_ret. Qed.

Lemma sector_pos sec : 0 <= sec < 2 ^ 22 -> u32 (sec * BSIZE) = sec * BSIZE /\ sec * BSIZE / BSIZE = sec.
Proof. intros H. unfold u32, BSIZE. split; [by rewrite Z.mod_small by lia|]. zmod. Qed.

Lemma runs_wsect sec b c : 0 <= sec < 2 ^ 22 -> length b = Z.to_nat BSIZE ->
  runs (wsect mkl sec b) c tt (c <| co_img := put_sector (Z.to_nat sec) b (co_img c) |>).
Proof.
  intros Hs Hl pos. destruct (sector_pos sec Hs) as [E1 E2]. unfold wsect. erewrite bind_ret by done.
  rewrite E1. erewrite bind_ret by done. rewrite Z.eqb_refl. cbn [negb]. erewrite bind_ret by done.
  rewrite Hl. cbn [ho_pos ho_core]. rewrite E2. eexists. done.
Qed.

Lemma runs_rsect sec b c : 0 <= sec < 2 ^ 22 -> mk_fsfd (co_mk c) = 3 -> sector (co_img c) sec = Some b -> runs (rsect mkl sec) c b c.
Proof.
  intros Hs Hf Hb pos. destruct (sector_pos sec Hs) as [E1 E2]. unfold rsect. erewrite bind_ret by done.
  rewrite E1. erewrite bind_ret by done. rewrite Z.eqb_refl. cbn [negb]. unfold lread, gets. cbn [lget mkl ho_core]. rewrite Hf.
  cbn [h_read host_ideal]. unfold bind at 1. cbn [ho_pos ho_core]. rewrite E2, Hb. cbn. eexists. done.
Qed.

Lemma xint_id x : 0 <= x < 2 ^ 32 -> xint x = x.
Proof.
  intros H. unfold xint, u8. cbn. rewrite !Z.shiftr_div_pow2 by lia.
  change (2 ^ 8) with 256. change (2 ^ 16) with 65536. change (2 ^ 24) with 16777216. zmod.
Qed.

Lemma xshort_id x : 0 <= x < 2 ^ 16 -> xshort x = x.
Proof. intros H. unfold xshort, u8. cbn. rewrite !Z.shiftr_div_pow2 by lia. change (2 ^ 8) with 256. zmod. Qed.

(** ** Sectors *)

Definition pad (l : list Z) : list Z := l ++ replicate (Z.to_nat BSIZE - length l) 0.

(** Piece [i] of a file, as its block holds it. *)
Definition piece (data : list Z) (i : nat) : list Z := pad (take (Z.to_nat BSIZE) (drop (i * Z.to_nat BSIZE) data)).

Lemma bsize_nat : Z.to_nat BSIZE = 1024%nat.
Proof. done. Qed.

Lemma length_pad l : (length l <= Z.to_nat BSIZE)%nat -> length (pad l) = Z.to_nat BSIZE.
Proof. intros H. unfold pad. rewrite length_app, length_replicate. lia. Qed.

Lemma length_piece data i : length (piece data i) = Z.to_nat BSIZE.
Proof. apply length_pad. rewrite length_take. lia. Qed.

Lemma piece_past data i : (length data <= i * Z.to_nat BSIZE)%nat -> piece data i = zeroes.
Proof. intros H. unfold piece. rewrite drop_ge by done. done. Qed.

Lemma piece_app data p i : (S i * Z.to_nat BSIZE <= length data)%nat -> piece (data ++ p) i = piece data i.
Proof.
  intros H. unfold piece. rewrite bsize_nat in *. rewrite drop_app_le by lia. rewrite take_app_le; [done|].
  rewrite length_drop. lia.
Qed.

Lemma splice_piece data p i : (i * Z.to_nat BSIZE <= length data)%nat ->
  (length data + length p <= S i * Z.to_nat BSIZE)%nat ->
  splice (length data - i * Z.to_nat BSIZE) p (piece data i) = piece (data ++ p) i.
Proof.
  intros H1 H2. unfold splice, piece. rewrite bsize_nat in *. rewrite drop_app_le by lia.
  set (l := drop (i * 1024) data). assert (length l = (length data - i * 1024)%nat) as Hl by apply length_drop.
  rewrite <- Hl. rewrite (take_ge l), (take_ge (l ++ p)) by (rewrite ?length_app; lia). unfold pad. rewrite bsize_nat, take_app_length.
  rewrite <- app_assoc. f_equal. f_equal. rewrite drop_app_ge by lia. rewrite drop_replicate. f_equal. rewrite length_app. lia.
Qed.

Lemma piece_lookup data i c : data !! i = Some c -> piece data (i / Z.to_nat BSIZE)%nat !! (i mod Z.to_nat BSIZE)%nat = Some c.
Proof.
  intros Hc. unfold piece, pad. rewrite bsize_nat. pose proof (lookup_lt_Some _ _ _ Hc) as Hlt.
  pose proof (Nat.div_mod_eq i 1024) as E. pose proof (Nat.mod_upper_bound i 1024 ltac:(lia)) as Hm.
  rewrite lookup_app_l.
  - rewrite lookup_take_lt by done. rewrite lookup_drop. rewrite <- Hc. f_equal. lia.
  - rewrite length_take, length_drop. lia.
Qed.

(** ** Layout *)

Definition owned (bl : list Z) (ib : option Z) : list Z := bl ++ match ib with Some b => [b] | None => [] end.

(** The addresses [addrs] lead to the blocks [bl], the later ones through [ib]. *)
Record addrs_ok (img : list (list Z)) (addrs bl : list Z) (ib : option Z) : Prop := {
  ao_length : length addrs = 13%nat;
  ao_max : (length bl <= 268)%nat;
  ao_direct : forall i, (i < 12)%nat -> nth i addrs 0 = default 0 (bl !! i);
  ao_ib : nth 12 addrs 0 = default 0 ib;
  ao_none : ib = None -> (length bl <= 12)%nat;
  ao_some : forall b, ib = Some b -> (12 < length bl)%nat /\ exists ind, sector img b = Some ind /\
    length ind = Z.to_nat BSIZE /\ forall j, (j < 256)%nat -> get_le 4 (4 * j) ind = default 0 (bl !! (12 + j)%nat);
}.

(** The blocks hold the contents. *)
Definition data_ok (img : list (list Z)) (bl data : list Z) : Prop :=
  (length data <= length bl * Z.to_nat BSIZE)%nat /\
  forall i b, bl !! i = Some b -> sector img b = Some (piece data i).

(** A block of the data area, in use. *)
Definition in_area (fb b : Z) : Prop := 46 <= b < fb.

(** An image: all its sectors are there, the blocks from [fb] on are free. *)
Record img_ok (img : list (list Z)) (fb : Z) : Prop := {
  io_length : length img = Z.to_nat FSSIZE;
  io_sectors : Forall (fun b => length b = Z.to_nat BSIZE) img;
  io_fb : 46 <= fb <= FSSIZE;
  io_free : forall b, fb <= b < FSSIZE -> sector img b = Some zeroes;
}.

Lemma put_sector_eq img fb b l : img_ok img fb -> 0 <= b < FSSIZE -> put_sector (Z.to_nat b) l img = <[Z.to_nat b := l]> img.
Proof. intros [H _ _ _] Hb. unfold put_sector. rewrite H. destruct (Nat.ltb_spec (Z.to_nat b) (Z.to_nat FSSIZE)); [done|lia]. Qed.

Lemma sector_put img fb b l b' : img_ok img fb -> 0 <= b < FSSIZE -> 0 <= b' ->
  sector (put_sector (Z.to_nat b) l img) b' = if b' =? b then Some l else sector img b'.
Proof.
  intros H Hb Hb'. rewrite (put_sector_eq _ fb) by done. unfold sector. destruct (Z.eqb_spec b' b) as [->|].
  - apply list_lookup_insert_eq. destruct H as [-> _ _ _]. lia.
  - apply list_lookup_insert_ne. lia.
Qed.

Lemma sector_length img fb b l : img_ok img fb -> sector img b = Some l -> length l = Z.to_nat BSIZE.
Proof. intros [_ H _ _] E. rewrite Forall_forall in H. apply H. by eapply list_elem_of_lookup_2. Qed.

Lemma sector_some img fb b : img_ok img fb -> 0 <= b < FSSIZE -> exists l, sector img b = Some l /\ length l = Z.to_nat BSIZE.
Proof.
  intros H Hb. destruct (lookup_lt_is_Some_2 img (Z.to_nat b)) as [l E]; [destruct H as [-> _ _ _]; lia|].
  exists l. split; [done|by eapply sector_length].
Qed.

(** A write below [fb'], from an image free from [fb] on. *)
Lemma img_ok_put img fb fb' b l : img_ok img fb -> 0 <= b < fb' -> fb <= fb' <= FSSIZE -> length l = Z.to_nat BSIZE ->
  img_ok (put_sector (Z.to_nat b) l img) fb'.
Proof.
  intros H Hb Hfb Hl. constructor.
  - rewrite (put_sector_eq _ fb) by (done || lia). rewrite length_insert. apply H.
  - rewrite (put_sector_eq _ fb) by (done || lia). apply Forall_insert; [apply H|done].
  - pose proof (io_fb _ _ H). lia.
  - intros b' Hb'. rewrite (sector_put _ fb) by (done || lia). destruct (Z.eqb_spec b' b); [lia|]. apply H. lia.
Qed.

Lemma img_ok_grow img fb fb' : img_ok img fb -> fb <= fb' <= FSSIZE -> img_ok img fb'.
Proof. intros [H1 H2 H3 H4] H. constructor; [done|done|lia|]. intros. apply H4. lia. Qed.

(** What a file keeps when other blocks are written. *)
Lemma addrs_ok_ext img img' addrs bl ib : (forall b, ib = Some b -> sector img' b = sector img b) ->
  addrs_ok img addrs bl ib -> addrs_ok img' addrs bl ib.
Proof. intros H [H1 H2 H3 H4 H5 H6]. constructor; try done. intros b E. rewrite (H b E). by apply H6. Qed.

Lemma data_ok_ext img img' bl data : (forall b, b ∈ bl -> sector img' b = sector img b) -> data_ok img bl data -> data_ok img' bl data.
Proof.
  intros H [H1 H2]. split; [done|]. intros i b E. rewrite H; [by apply H2|]. by eapply list_elem_of_lookup_2.
Qed.

(** The next block of a file is empty until it is written. *)
Lemma data_ok_snoc img bl data b : data_ok img bl data -> sector img b = Some zeroes -> data_ok img (bl ++ [b]) data.
Proof.
  intros [H1 H2] Hb. split; [rewrite length_app; lia|]. intros i b' E. destruct (decide (i < length bl)%nat) as [Hi|Hi].
  - rewrite lookup_app_l in E by done. by apply H2.
  - rewrite lookup_app_r in E by lia. apply list_lookup_singleton_Some in E as [Hi' <-].
    rewrite Hb. f_equal. symmetry. apply piece_past. assert (length bl <= i)%nat as Hle by lia. rewrite bsize_nat in *. lia.
Qed.

(** Writing more data into the last block. *)
Lemma data_ok_append img fb bl data p b : img_ok img fb -> data_ok img (bl ++ [b]) data -> NoDup (bl ++ [b]) -> 0 <= b < fb ->
  Forall (fun x => 0 <= x) bl ->
  (length bl * Z.to_nat BSIZE <= length data)%nat -> (length data + length p <= S (length bl) * Z.to_nat BSIZE)%nat ->
  data_ok (put_sector (Z.to_nat b) (piece (data ++ p) (length bl)) img) (bl ++ [b]) (data ++ p).
Proof.
  intros Hi [H1 H2] Hnd Hb Hnn Hl1 Hl2. pose proof (io_fb _ _ Hi). split; [rewrite !length_app; cbn [length]; lia|].
  intros i x E. destruct (decide (i < length bl)%nat) as [Hlt|Hge].
  - pose proof E as E'. rewrite lookup_app_l in E by done. assert (x ∈ bl) as Hx by (by eapply list_elem_of_lookup_2).
    apply NoDup_app in Hnd as (_ & Hd & _). specialize (Hd x Hx). rewrite Forall_forall in Hnn. specialize (Hnn x Hx).
    rewrite (sector_put _ fb) by (done || lia). destruct (Z.eqb_spec x b) as [->|]; [exfalso; apply Hd; by left|].
    rewrite piece_app by (rewrite bsize_nat in *; lia). by apply H2.
  - rewrite lookup_app_r in E by lia. apply list_lookup_singleton_Some in E as [Hi' <-].
    rewrite (sector_put _ fb) by (done || lia). rewrite Z.eqb_refl. do 2 f_equal. lia.
Qed.

(** ** Allocating and writing blocks *)

Definition set_fs (c : core) (fb : Z) (img : list (list Z)) : core :=
  mkcore (mkmkfs (mk_fsfd (co_mk c)) (mk_sb (co_mk c)) (mk_freeinode (co_mk c)) fb) img (co_src c) (co_cur c).

Lemma set_fs_id c : set_fs c (mk_freeblock (co_mk c)) (co_img c) = c.
Proof. by destruct c as [[]]. Qed.

Lemma runs_next_block c fb : mk_freeblock (co_mk c) = fb -> 0 <= fb < 2 ^ 31 ->
  runs (next_block mkl) c fb (set_fs c (fb + 1) (co_img c)).
Proof.
  intros <- Hfb pos. unfold next_block. erewrite bind_ret by done. erewrite bind_ret by done. eexists.
  unfold ret. do 2 f_equal. unfold set_fs. cbn. unfold u32. rewrite Z.mod_small by lia. by destruct c as [[]].
Qed.

Lemma runs_put sec b c img : co_img c = img -> 0 <= sec < 2 ^ 22 -> length b = Z.to_nat BSIZE ->
  runs (wsect mkl sec b) c tt (set_fs c (mk_freeblock (co_mk c)) (put_sector (Z.to_nat sec) b img)).
Proof. intros <- Hs Hl pos. destruct (runs_wsect sec b c Hs Hl pos) as [p E]. exists p. rewrite E. by destruct c as [[]]. Qed.

Lemma get_zeroes n off : get_le n off zeroes = 0.
Proof.
  revert off. induction n as [|n IH]; intros off; cbn [get_le]; [done|]. rewrite IH. unfold zeroes.
  rewrite nth_lookup. destruct (replicate _ 0 !! off) eqn:E; [|done]. apply lookup_replicate in E as [-> _]. done.
Qed.

Definition areas (fb : Z) (bl : list Z) (ib : option Z) : Prop := Forall (in_area fb) (owned bl ib).

Lemma areas_in fb bl ib b : areas fb bl ib -> b ∈ bl \/ ib = Some b -> in_area fb b.
Proof.
  unfold areas, owned. rewrite Forall_forall. intros H Hb. apply H, elem_of_app. destruct Hb as [?| ->]; [by left|right; by left].
Qed.

(** The block of a byte in the last, unfinished block. *)
Lemma block_for_old c d bl x ib fb : mk_fsfd (co_mk c) = 3 -> addrs_ok (co_img c) (d_addrs d) (bl ++ [x]) ib ->
  areas fb (bl ++ [x]) ib -> fb <= FSSIZE -> runs (block_for mkl d (Z.of_nat (length bl))) c (d, x) c.
Proof.
  intros Hfd [H1 H2 H3 H4 H5 H6] Ha Hfb. pose proof (areas_in _ _ _ x Ha ltac:(left; set_solver)) as Hx. unfold in_area, FSSIZE in *.
  assert ((bl ++ [x]) !! length bl = Some x) as Hl by (by apply list_lookup_middle).
  rewrite length_app in *. cbn [length] in *.
  unfold block_for. change NDIRECT with 12. destruct (Z.ltb_spec (Z.of_nat (length bl)) 12) as [Hlt|Hge].
  - assert (addr d (Z.of_nat (length bl)) = x) as E by (unfold addr; rewrite Nat2Z.id, H3 by lia; by rewrite Hl).
    rewrite E. rewrite xint_id by lia. destruct (Z.eqb_spec x 0); [lia|]. eapply runs_bind; [apply runs_ret|].
    rewrite E, xint_id by lia. apply runs_ret.
  - destruct ib as [ib|]; [|specialize (H5 eq_refl); lia]. destruct (H6 ib eq_refl) as (_ & ind & Hind & Hlen & Hw).
    pose proof (areas_in _ _ _ ib Ha ltac:(by right)) as Hib. unfold in_area in Hib. unfold addr. cbn [default from_option id] in H4. change (Z.to_nat 12) with 12%nat. rewrite H4.
    rewrite xint_id by lia. destruct (Z.eqb_spec ib 0); [lia|]. eapply runs_bind; [apply runs_ret|].
    change (Z.to_nat 12) with 12%nat. rewrite H4, xint_id by lia. eapply runs_bind; [by apply runs_rsect; [lia|done|exact Hind]|].
    replace (Z.to_nat (4 * (Z.of_nat (length bl) - 12))) with (4 * (length bl - 12))%nat by lia.
    assert (get_le 4 (4 * (length bl - 12)) ind = x) as E.
    { rewrite Hw by lia. replace (12 + (length bl - 12))%nat with (length bl) by lia. by rewrite Hl. }
    rewrite E. destruct (Z.eqb_spec x 0); [lia|]. eapply runs_bind; [apply runs_ret|]. rewrite E, xint_id by lia. apply runs_ret.
Qed.

(** The write of a new word of the indirect block. *)
Lemma indirect_new c d bl b ind fb : mk_fsfd (co_mk c) = 3 -> mk_freeblock (co_mk c) = fb -> img_ok (co_img c) fb -> fb < FSSIZE ->
  nth 12 (d_addrs d) 0 = b -> 46 <= b < fb -> sector (co_img c) b = Some ind -> length ind = Z.to_nat BSIZE ->
  (12 <= length bl < 268)%nat -> (forall j, (j < 256)%nat -> get_le 4 (4 * j) ind = default 0 (bl !! (12 + j)%nat)) ->
  exists ind', length ind' = Z.to_nat BSIZE /\
    (forall j, (j < 256)%nat -> get_le 4 (4 * j) ind' = default 0 ((bl ++ [fb]) !! (12 + j)%nat)) /\
    runs (indirect <- rsect mkl (xint (addr d NDIRECT)) ;;
          let off := Z.to_nat (4 * (Z.of_nat (length bl) - NDIRECT)) in
          indirect <- (if get_le 4 off indirect =? 0 then
                         b <- next_block mkl ;;
                         let indirect := put_le 4 off (xint b) indirect in
                         wsect mkl (xint (addr d NDIRECT)) indirect ;;
                         ret indirect
                       else ret indirect) ;;
          ret (d, xint (get_le 4 off indirect))) c (d, fb) (set_fs c (fb + 1) (put_sector (Z.to_nat b) ind' (co_img c))).
Proof.
  intros Hfd Hfb Hi Hlt Hb Hb2 Hind Hlen Hbl Hw. set (off := (4 * (length bl - 12))%nat).
  exists (put_le 4 off fb ind). unfold FSSIZE in *. split; [by rewrite length_put_le|]. split.
  - intros j Hj. destruct (decide (j = length bl - 12)%nat) as [->|Hne].
    + fold off. rewrite get_put_le by (rewrite ?Hlen, ?bsize_nat; unfold off; first [lia|change (256 ^ Z.of_nat 4) with (2 ^ 32); lia]).
      replace (12 + (length bl - 12))%nat with (length bl) by lia. by rewrite list_lookup_middle.
    + rewrite get_put_le_ne by (unfold off; lia). rewrite Hw by done. destruct (decide (12 + j < length bl)%nat).
      * by rewrite lookup_app_l.
      * rewrite lookup_ge_None_2 by lia. rewrite lookup_ge_None_2; [done|]. rewrite length_app. cbn. lia.
  - assert (xint (addr d NDIRECT) = b) as Ea by (unfold addr, NDIRECT; change (Z.to_nat 12) with 12%nat; rewrite Hb; apply xint_id; lia).
    rewrite Ea. eapply runs_bind; [by apply runs_rsect; [lia|done|exact Hind]|]. cbv zeta.
    replace (Z.to_nat (4 * (Z.of_nat (length bl) - NDIRECT))) with off by (unfold off, NDIRECT; lia).
    assert (get_le 4 off ind = 0) as E0.
    { unfold off. rewrite Hw by lia. by rewrite lookup_ge_None_2 by lia. }
    rewrite E0, Z.eqb_refl. eapply runs_bind.
    { eapply runs_bind; [apply (runs_next_block c fb Hfb); lia|]. rewrite xint_id by lia. eapply runs_bind; [by apply runs_put; [|lia|rewrite length_put_le]|].
      apply runs_ret. }
    rewrite get_put_le by (rewrite ?Hlen, ?bsize_nat; unfold off; first [lia|change (256 ^ Z.of_nat 4) with (2 ^ 32); lia]).
    rewrite xint_id by lia. apply runs_ret.
Qed.

Definition with_addrs (d : dinode) (l : list Z) : dinode :=
  mkdinode (d_type d) (d_major d) (d_minor d) (d_nlink d) (d_size d) l.

(** A file with one more block, empty. *)
Record grown (img : list (list Z)) (bl : list Z) (ib : option Z) (fb : Z) (img' : list (list Z)) (addrs' : list Z)
    (ib' : option Z) (x fb' : Z) : Prop := {
  gr_addrs : addrs_ok img' addrs' (bl ++ [x]) ib';
  gr_img : img_ok img' fb';
  gr_fb : fb' = fb + 1 + (if decide (length bl = 12%nat) then 1 else 0);
  gr_x : fb <= x < fb';
  gr_ib : ib' = ib \/ exists b, ib' = Some b /\ fb <= b < fb' /\ b <> x;
  gr_zero : sector img' x = Some zeroes;
  gr_frame : forall b, 0 <= b -> ib' <> Some b -> sector img' b = sector img b;
}.

Lemma addrs_snoc img addrs bl ib x : addrs_ok img addrs bl ib -> (length bl < 12)%nat ->
  addrs_ok img (<[length bl := x]> addrs) (bl ++ [x]) ib.
Proof.
  intros [H1 H2 H3 H4 H5 H6] Hl. constructor; rewrite ?length_app; cbn [length].
  - by rewrite length_insert.
  - lia.
  - intros i Hi. rewrite nth_lookup. destruct (decide (i = length bl)) as [->|Hne].
    + rewrite list_lookup_insert_eq by lia. by rewrite list_lookup_middle.
    + rewrite list_lookup_insert_ne by done. rewrite <- nth_lookup, H3 by done. destruct (decide (i < length bl)%nat).
      * by rewrite lookup_app_l.
      * rewrite !lookup_ge_None_2; [done|rewrite length_app; cbn; lia|lia].
  - rewrite nth_lookup, list_lookup_insert_ne by lia. by rewrite <- nth_lookup.
  - lia.
  - intros b E. destruct (H6 b E) as [? _]. lia.
Qed.

(** From here on the indirect block [b] is there, with a word for each block. *)
Lemma addrs_snoc_indirect img fb fb' addrs bl b x ind : img_ok img fb -> length addrs = 13%nat -> (12 <= length bl < 268)%nat ->
  (forall i, (i < 12)%nat -> nth i addrs 0 = default 0 (bl !! i)) -> nth 12 addrs 0 = b -> 46 <= b < fb' -> fb' <= FSSIZE ->
  length ind = Z.to_nat BSIZE -> (forall j, (j < 256)%nat -> get_le 4 (4 * j) ind = default 0 ((bl ++ [x]) !! (12 + j)%nat)) ->
  addrs_ok (put_sector (Z.to_nat b) ind img) addrs (bl ++ [x]) (Some b).
Proof.
  intros Hi H1 H2 H3 H4 Hb Hfb Hl Hw. constructor; rewrite ?length_app; cbn [length]; [done|lia| |done|done|].
  - intros i Hi'. rewrite H3 by done. by rewrite lookup_app_l by lia.
  - intros b' [= <-]. split; [lia|]. exists ind. split; [|done]. rewrite (sector_put _ fb) by (done || lia). by rewrite Z.eqb_refl.
Qed.

Lemma set_fs_set_fs c fb img fb' img' : set_fs (set_fs c fb img) fb' img' = set_fs c fb' img'.
Proof. done. Qed.

Lemma block_for_new c d bl ib fb : mk_fsfd (co_mk c) = 3 -> mk_freeblock (co_mk c) = fb -> img_ok (co_img c) fb ->
  addrs_ok (co_img c) (d_addrs d) bl ib -> areas fb bl ib -> (length bl < 268)%nat ->
  fb + 1 + (if decide (length bl = 12%nat) then 1 else 0) <= FSSIZE ->
  exists img' addrs' ib' x fb', runs (block_for mkl d (Z.of_nat (length bl))) c (with_addrs d addrs', x) (set_fs c fb' img') /\
    grown (co_img c) bl ib fb img' addrs' ib' x fb'.
Proof.
  intros Hfd Hfb Hi Hao Ha Hmax Hroom. pose proof (io_fb _ _ Hi) as Hfb2. pose proof Hao as [H1 H2 H3 H4 H5 H6].
  assert (sector (co_img c) fb = Some zeroes) as Hz by (apply Hi; case_decide; lia).
  assert (forall s i b, get_le 4 i s = b -> True) as _ by done.
  unfold block_for. change NDIRECT with 12 at 1. destruct (Z.ltb_spec (Z.of_nat (length bl)) 12) as [Hlt|Hge].
  - assert (addr d (Z.of_nat (length bl)) = 0) as E by (unfold addr; rewrite Nat2Z.id, H3 by lia; by rewrite lookup_ge_None_2 by lia).
    rewrite E. change (xint 0 =? 0) with true. cbv iota. case_decide as Hd; [lia|]. unfold FSSIZE in *.
    exists (co_img c), (<[length bl := fb]> (d_addrs d)), ib, fb, (fb + 1). split.
    + eapply runs_bind; [eapply runs_bind; [apply (runs_next_block c fb Hfb); lia|apply runs_ret]|]. rewrite xint_id by lia.
      unfold set_addr, addr. cbn [d_addrs]. rewrite Nat2Z.id, nth_lookup, list_lookup_insert_eq by lia. cbn [default from_option id].
      rewrite xint_id by lia. apply runs_ret.
    + constructor; [apply addrs_snoc; [done|lia]|eapply img_ok_grow; [done|unfold FSSIZE; lia]|case_decide; lia|lia|by left|done|done].
  - destruct ib as [ib|].
    + destruct (H6 ib eq_refl) as (Hl12 & ind & Hind & Hlen & Hw). case_decide as Hd; [lia|].
      pose proof (areas_in _ _ _ ib Ha ltac:(by right)) as Hib. unfold in_area in Hib. cbn [default from_option id] in H4.
      destruct (indirect_new c d bl ib ind fb Hfd Hfb Hi ltac:(lia) H4 Hib Hind Hlen ltac:(lia) Hw) as (ind' & Hlen' & Hw' & Hr).
      exists (put_sector (Z.to_nat ib) ind' (co_img c)), (d_addrs d), (Some ib), fb, (fb + 1). unfold FSSIZE in *. split.
      * unfold addr at 1. change (Z.to_nat NDIRECT) with 12%nat. rewrite H4, xint_id by lia. destruct (Z.eqb_spec ib 0); [lia|].
        eapply runs_bind; [apply runs_ret|]. replace (with_addrs d (d_addrs d)) with d by (by destruct d). exact Hr.
      * constructor; [apply (addrs_snoc_indirect _ fb fb); first [done|unfold FSSIZE; lia|lia]|eapply img_ok_put; [done|lia|unfold FSSIZE; lia|done]|case_decide; lia|lia|by left| |].
        -- rewrite (sector_put _ fb) by (done || (unfold FSSIZE; lia)). by destruct (Z.eqb_spec fb ib) as [->|]; [lia|].
        -- intros b Hb Hne. rewrite (sector_put _ fb) by (done || (unfold FSSIZE; lia)). by destruct (Z.eqb_spec b ib) as [->|].
    + specialize (H5 eq_refl). case_decide as Hd; [|lia]. cbn [default from_option id] in H4. unfold FSSIZE in *.
      set (c1 := set_fs c (fb + 1) (co_img c)). set (d1 := set_addr d NDIRECT fb).
      assert (nth 12 (d_addrs d1) 0 = fb) as E12.
      { unfold d1, set_addr. cbn [d_addrs]. change (Z.to_nat NDIRECT) with 12%nat. by rewrite nth_lookup, list_lookup_insert_eq by lia. }
      assert (img_ok (co_img c1) (fb + 1)) as Hi1 by (eapply img_ok_grow; [done|unfold FSSIZE; lia]).
      destruct (indirect_new c1 d1 bl fb zeroes (fb + 1) Hfd eq_refl Hi1 ltac:(unfold FSSIZE; lia) E12 ltac:(lia) Hz eq_refl ltac:(lia)) as (ind' & Hlen' & Hw' & Hr).
      { intros j Hj. rewrite get_zeroes. by rewrite lookup_ge_None_2 by lia. }
      exists (put_sector (Z.to_nat fb) ind' (co_img c)), (d_addrs d1), (Some fb), (fb + 1), (fb + 2). split.
      * unfold addr at 1. change (Z.to_nat NDIRECT) with 12%nat. rewrite H4. change (xint 0 =? 0) with true. cbv iota.
        eapply runs_bind; [eapply runs_bind; [apply (runs_next_block c fb Hfb); lia|apply runs_ret]|]. rewrite (xint_id fb) by lia.
        fold d1 c1. change (with_addrs d (d_addrs d1)) with d1. replace (fb + 2) with (fb + 1 + 1) by lia. exact Hr.
      * constructor; [|eapply img_ok_put; [done|lia|unfold FSSIZE; lia|done]|case_decide; lia|lia|right; exists fb; split; [done|lia]| |].
        -- eapply (addrs_snoc_indirect _ fb (fb + 1)); try done; [unfold d1, set_addr; cbn [d_addrs]; by rewrite length_insert|lia| |lia|unfold FSSIZE; lia].
           intros i Hi'. unfold d1, set_addr. cbn [d_addrs]. change (Z.to_nat NDIRECT) with 12%nat.
           rewrite nth_lookup, list_lookup_insert_ne by lia. rewrite <- nth_lookup. by apply H3.
        -- rewrite (sector_put _ fb) by (done || (unfold FSSIZE; lia)). destruct (Z.eqb_spec (fb + 1) fb); [lia|]. apply Hi. unfold FSSIZE. lia.
        -- intros b Hb Hne. rewrite (sector_put _ fb) by (done || (unfold FSSIZE; lia)). by destruct (Z.eqb_spec b fb) as [->|].
Qed.

(** ** Appending to a file *)

Abbreviation len l := (Z.of_nat (length l)).

Record file_at (img : list (list Z)) (fb : Z) (addrs bl : list Z) (ib : option Z) (data : list Z) : Prop := {
  fa_addrs : addrs_ok img addrs bl ib;
  fa_data : data_ok img bl data;
  fa_area : areas fb bl ib;
  fa_nodup : NoDup (owned bl ib);
}.

(** What else changed: the file's own blocks, and blocks that were free. *)
Record frame (img img' : list (list Z)) (fb fb' : Z) (own own' : list Z) : Prop := {
  fr_sector : forall b, 0 <= b < fb -> b ∉ own -> sector img' b = sector img b;
  fr_own : forall b, b ∈ own' -> b ∈ own \/ fb <= b < fb';
  fr_fb : fb <= fb';
}.

Lemma frame_refl img fb own : frame img img fb fb own own.
Proof. constructor; [done|by left|lia]. Qed.

Lemma frame_trans img img1 img2 fb fb1 fb2 own own1 own2 :
  frame img img1 fb fb1 own own1 -> frame img1 img2 fb1 fb2 own1 own2 -> frame img img2 fb fb2 own own2.
Proof.
  intros [H1 H2 H3] [G1 G2 G3]. constructor; [|intros b Hb; destruct (G2 b Hb) as [Hb'|]; [destruct (H2 b Hb'); auto; lia|right; lia]|lia].
  intros b Hb Hn. rewrite G1; [by apply H1|lia|]. intros Hb'. destruct (H2 b Hb'); [done|lia].
Qed.

Lemma elem_owned b bl ib : b ∈ owned bl ib <-> b ∈ bl \/ ib = Some b.
Proof.
  unfold owned. rewrite elem_of_app. destruct ib as [x|]; [|set_solver]. rewrite list_elem_of_singleton. naive_solver.
Qed.

Lemma areas_mono fb fb' bl ib : fb <= fb' -> areas fb bl ib -> areas fb' bl ib.
Proof. intros H Ha. eapply Forall_impl; [exact Ha|]. unfold in_area. intros. lia. Qed.

Lemma nodup_snoc bl ib fb ib' x fb' : NoDup (owned bl ib) -> areas fb bl ib -> fb <= x < fb' ->
  ib' = ib \/ (ib = None /\ exists b, ib' = Some b /\ fb <= b < fb' /\ b <> x) -> NoDup (owned (bl ++ [x]) ib').
Proof.
  intros Hn Ha Hx Hi. unfold areas in Ha. rewrite Forall_forall in Ha. unfold in_area in Ha.
  assert (owned (bl ++ [x]) ib' ≡ₚ x :: bl ++ match ib' with Some b => [b] | None => [] end) as ->.
  { unfold owned. rewrite <- app_assoc. cbn. by rewrite <- Permutation_middle. }
  destruct Hi as [->|(-> & b & -> & Hb & Hne)].
  - constructor; [|done]. intros Hx'. specialize (Ha x Hx'). lia.
  - unfold owned in *. rewrite app_nil_r in *. constructor.
    + rewrite elem_of_app, list_elem_of_singleton. intros [Hx'|]; [|done]. specialize (Ha x Hx'). lia.
    + apply NoDup_app. split_and!; [done| |apply NoDup_singleton]. intros y Hy ->%list_elem_of_singleton. specialize (Ha b Hy). lia.
Qed.

(** The block of the next byte. *)
Lemma prepare c d fb bl ib data : mk_fsfd (co_mk c) = 3 -> mk_freeblock (co_mk c) = fb -> img_ok (co_img c) fb ->
  file_at (co_img c) fb (d_addrs d) bl ib data -> len bl = nblk (len data) -> nblk (len data + 1) <= 268 ->
  fb + cost (len data + 1) - cost (len data) <= FSSIZE ->
  exists img1 addrs1 ib1 bl0 x fb1,
    runs (block_for mkl d (len data / BSIZE)) c (with_addrs d addrs1, x) (set_fs c fb1 img1) /\
    img_ok img1 fb1 /\ file_at img1 fb1 addrs1 (bl0 ++ [x]) ib1 data /\ len bl0 = len data / BSIZE /\
    fb1 = fb + cost (len data + 1) - cost (len data) /\ frame (co_img c) img1 fb fb1 (owned bl ib) (owned (bl0 ++ [x]) ib1).
Proof.
  intros Hfd Hfb Hi [Hao Hda Har Hnd] Hbl Hmax Hroom. pose proof (io_fb _ _ Hi) as Hf46. unfold nblk, BSIZE in *.
  destruct (decide (len data mod 1024 = 0)) as [Hm|Hm].
  - assert (len bl = len data / 1024) as Hbl' by (rewrite Hbl; zmod).
    assert (cost (len data + 1) - cost (len data) = 1 + (if decide (length bl = 12%nat) then 1 else 0)) as Hc.
    { unfold cost, nblk, BSIZE, NDIRECT. replace ((len data + 1 + 1024 - 1) / 1024) with (len bl + 1) by (rewrite Hbl'; zmod).
      rewrite <- Hbl. case_decide; zcase. }
    assert (length bl < 268)%nat as Hmax' by (revert Hmax; rewrite <- Z.lt_succ_r; intros; zmod).
    destruct (block_for_new c d bl ib fb Hfd Hfb Hi Hao Har Hmax') as (img1 & addrs1 & ib1 & x & fb1 & Hr & [G1 G2 G3 G4 G5 G6 G7]); [lia|].
    exists img1, addrs1, ib1, bl, x, fb1. rewrite <- Hbl'.
    assert (ib1 = ib \/ (ib = None /\ exists b, ib1 = Some b /\ fb <= b < fb1 /\ b <> x)) as Hib.
    { destruct G5 as [->|Hb]; [by left|]. destruct ib as [ib|]; [|by right]. exfalso. destruct Hb as (b & -> & Hb & Hbx).
      destruct (ao_some _ _ _ _ Hao ib eq_refl) as [Hl _]. case_decide; lia. }
    split_and!; [exact Hr|done| |done|lia|].
    + assert (data_ok img1 bl data) as Hd1.
      { eapply data_ok_ext; [|done]. intros b Hb. pose proof (areas_in _ _ _ b Har ltac:(by left)) as Hba. unfold in_area in Hba. apply G7; [lia|].
        intros ->. destruct Hib as [<-|(_ & b' & [= <-] & ? & _)]; [|lia].
        unfold owned in Hnd. apply NoDup_app in Hnd as (_ & Hd & _). apply (Hd b Hb). by left. }
      constructor; [done|by apply data_ok_snoc| |by eapply nodup_snoc].
      apply Forall_forall. intros b [Hb|Hb]%elem_owned; unfold in_area.
      * apply elem_of_app in Hb as [Hb|Hb]; [pose proof (areas_in _ _ _ b Har ltac:(by left)) as Hba; unfold in_area in Hba; lia|].
        apply list_elem_of_singleton in Hb as ->. lia.
      * destruct Hib as [->|(_ & b' & -> & ? & _)]; [pose proof (areas_in _ _ _ b Har ltac:(by right)) as Hba; unfold in_area in Hba; lia|].
        injection Hb as <-. lia.
    + constructor; [| |lia].
      * intros b Hb Hn. apply G7; [lia|]. intros ->. destruct Hib as [<-|(_ & b' & [= <-] & ? & _)]; [|lia].
        apply Hn, elem_owned. by right.
      * intros b [Hb|Hb]%elem_owned; [apply elem_of_app in Hb as [Hb|Hb]; [left; apply elem_owned; by left|]|].
        -- apply list_elem_of_singleton in Hb as ->. right. lia.
        -- destruct Hib as [->|(_ & b' & -> & ? & _)]; [left; apply elem_owned; by right|]. injection Hb as <-. right. lia.
  - assert (cost (len data + 1) = cost (len data)) as Hc.
    { unfold cost, nblk, BSIZE. by replace ((len data + 1 + 1024 - 1) / 1024) with ((len data + 1024 - 1) / 1024) by zmod. }
    destruct bl as [|x bl0 _] using rev_ind; [cbn in Hbl; zmod|].
    assert (len bl0 = len data / 1024) as Hbl' by (rewrite length_app in Hbl; cbn [length] in Hbl; zmod).
    exists (co_img c), (d_addrs d), ib, bl0, x, fb. rewrite <- Hbl'. split_and!; [|done|done|done|lia|apply frame_refl].
    replace (with_addrs d (d_addrs d)) with d by (by destruct d). rewrite <- Hfb, set_fs_id. eapply block_for_old; try done.
    unfold FSSIZE in *. lia.
Qed.

Lemma nblk_le a b : a <= b -> nblk a <= nblk b.
Proof. intros. unfold nblk, BSIZE. apply Z.div_le_mono; lia. Qed.

Lemma cost_le a b : a <= b -> cost a <= cost b.
Proof. intros H. unfold cost. pose proof (nblk_le a b H). zcase. Qed.

(** Bytes that go to the same block take the same blocks. *)
Lemma nblk_same n k : 0 <= n -> 0 < k -> k <= (n / BSIZE + 1) * BSIZE - n -> nblk (n + k) = n / BSIZE + 1.
Proof. unfold nblk, BSIZE. intros. zmod. Qed.

Lemma append_nothing c d fb bl ib data : mk_freeblock (co_mk c) = fb -> img_ok (co_img c) fb ->
  file_at (co_img c) fb (d_addrs d) bl ib data -> len bl = nblk (len data) ->
  exists img' addrs' bl' ib' fb',
    runs (ret (d, len data)) c (with_addrs d addrs', len (data ++ [])) (set_fs c fb' img') /\
    img_ok img' fb' /\ file_at img' fb' addrs' bl' ib' (data ++ []) /\ len bl' = nblk (len (data ++ [])) /\
    fb' = fb + cost (len data + 0) - cost (len data) /\ frame (co_img c) img' fb fb' (owned bl ib) (owned bl' ib').
Proof.
  intros Hfb Hi Hf Hbl. rewrite app_nil_r, Z.add_0_r. exists (co_img c), (d_addrs d), bl, ib, fb.
  replace (with_addrs d (d_addrs d)) with d by (by destruct d). replace (set_fs c fb (co_img c)) with c by (by rewrite <- Hfb, set_fs_id).
  split_and!; [apply runs_ret|done|done|done|lia|apply frame_refl].
Qed.

Lemma iappend_loop_ok k : forall c d fb bl ib data p, mk_fsfd (co_mk c) = 3 -> mk_freeblock (co_mk c) = fb -> img_ok (co_img c) fb ->
  file_at (co_img c) fb (d_addrs d) bl ib data -> len bl = nblk (len data) -> nblk (len data + len p) <= 268 ->
  fb + cost (len data + len p) - cost (len data) <= FSSIZE -> (length p <= k)%nat ->
  exists img' addrs' bl' ib' fb',
    runs (iappend_loop mkl k d (len data) p) c (with_addrs d addrs', len (data ++ p)) (set_fs c fb' img') /\
    img_ok img' fb' /\ file_at img' fb' addrs' bl' ib' (data ++ p) /\ len bl' = nblk (len (data ++ p)) /\
    fb' = fb + cost (len data + len p) - cost (len data) /\ frame (co_img c) img' fb fb' (owned bl ib) (owned bl' ib').
Proof.
  induction k as [|k IH]; intros c d fb bl ib data p Hfd Hfb Hi Hf Hbl Hmax Hroom Hk; cbn [iappend_loop].
  - destruct p as [|z p]; [|cbn in Hk; lia]. rewrite bool_decide_eq_true_2 by done. by apply append_nothing.
  - destruct (decide (p = [])) as [->|Hp].
    { rewrite bool_decide_eq_true_2 by done. by apply append_nothing. }
    rewrite bool_decide_eq_false_2 by done. assert (0 < len p) as Hlp by (destruct p; [done|cbn [length]; lia]).
    pose proof (nblk_le (len data + 1) (len data + len p) ltac:(lia)) as Hm1. pose proof (cost_le (len data + 1) (len data + len p) ltac:(lia)) as Hc1.
    pose proof (nblk_same (len data) 1 ltac:(lia) ltac:(lia)) as Hn1.
    assert (len data / BSIZE + 1 <= 268) as Hfbn by (rewrite <- Hn1; [lia|unfold BSIZE; zmod]).
    destruct (prepare c d fb bl ib data Hfd Hfb Hi Hf Hbl ltac:(lia) ltac:(lia)) as (img1 & addrs1 & ib1 & bl0 & x & fb1 & Hr1 & Hi1 & Hf1 & Hl0 & Hfb1 & Hfr1).
    set (n1 := Z.min (len p) ((len data / BSIZE + 1) * BSIZE - len data)).
    assert (0 < n1 <= len p /\ n1 <= (len data / BSIZE + 1) * BSIZE - len data) as (Hn1a & Hn1b) by (unfold n1, BSIZE; split; zmod).
    set (q := take (Z.to_nat n1) p). assert (length q = Z.to_nat n1) as Hq by (unfold q; rewrite length_take; lia).
    pose proof Hf1 as [Ha1 Hd1 Har1 Hnd1].
    pose proof (areas_in _ _ _ x Har1 ltac:(left; set_solver)) as Hx. unfold in_area in Hx. pose proof (io_fb _ _ Hi1) as Hb1.
    assert (sector img1 x = Some (piece data (length bl0))) as Hsx.
    { destruct Hd1 as [_ Hd1]. apply Hd1. by apply list_lookup_middle. }
    set (img2 := put_sector (Z.to_nat x) (piece (data ++ q) (length bl0)) img1).
    assert (length bl0 * Z.to_nat BSIZE <= length data /\ length data + length q <= S (length bl0) * Z.to_nat BSIZE)%nat as [Hq1 Hq2].
    { rewrite Hq, bsize_nat. unfold BSIZE in *. split; zmod. }
    assert (img_ok img2 fb1) as Hi2 by (eapply img_ok_put; [done|lia|lia|apply length_piece]).
    assert (x ∉ bl0 /\ ib1 <> Some x) as [Hxb Hxi].
    { unfold owned in Hnd1. apply NoDup_app in Hnd1 as (Hn & Hd & _). split.
      - apply NoDup_app in Hn as (_ & Hn & _). intros Hin. apply (Hn x Hin). by left.
      - intros ->. apply (Hd x); [set_solver|by left]. }
    assert (file_at img2 fb1 addrs1 (bl0 ++ [x]) ib1 (data ++ q)) as Hf2.
    { constructor; [|eapply (data_ok_append _ fb1)|done|done]; try done; try lia.
      - eapply addrs_ok_ext; [|done]. intros b ->. pose proof (areas_in _ _ _ b Har1 ltac:(by right)) as Hb. unfold in_area in Hb.
        unfold img2. rewrite (sector_put _ fb1) by (done || lia). destruct (Z.eqb_spec b x) as [->|]; done.
      - unfold owned in Hnd1. apply NoDup_app in Hnd1 as (? & _). done.
      - apply Forall_forall. intros b Hb. pose proof (areas_in _ _ _ b Har1 ltac:(left; set_solver)) as Hb'. unfold in_area in Hb'. lia. }
    assert (len (data ++ q) = len data + n1) as Hlq by (rewrite length_app; lia).
    assert (len (data ++ q) + len (drop (Z.to_nat n1) p) = len data + len p) as Hlr by (rewrite Hlq, length_drop; lia).
    assert (nblk (len (data ++ q)) = nblk (len data + 1)) as Hnb by (rewrite Hlq, nblk_same by lia; rewrite Hn1; [done|lia]).
    assert (cost (len (data ++ q)) = cost (len data + 1)) as Hcq by (unfold cost; by rewrite Hnb).
    destruct (IH (set_fs c fb1 img2) (with_addrs d addrs1) fb1 (bl0 ++ [x]) ib1 (data ++ q) (drop (Z.to_nat n1) p))
      as (img3 & addrs3 & bl3 & ib3 & fb3 & Hr3 & Hi3 & Hf3 & Hbl3 & Hfb3 & Hfr3); try done.
    { rewrite Hnb, Hn1 by (unfold BSIZE; zmod). rewrite length_app. cbn [length]. lia. }
    { by rewrite Hlr. }
    { rewrite Hlr. lia. }
    { rewrite length_drop. lia. }
    assert ((data ++ q) ++ drop (Z.to_nat n1) p = data ++ p) as Eapp by (rewrite <- app_assoc; f_equal; apply take_drop).
    rewrite Eapp in *. exists img3, addrs3, bl3, ib3, fb3. split_and!; [|done|done|done|rewrite Hfb3, Hlr; lia|].
    + eapply runs_bind; [apply runs_assert, Z.ltb_lt; change MAXFILE with 268; lia|].
      eapply runs_bind; [exact Hr1|]. cbv beta iota. unfold FSSIZE in *.
      eapply runs_bind; [apply runs_rsect; [lia|done|exact Hsx]|]. fold n1. fold q.
      replace (Z.to_nat (len data - len data / BSIZE * BSIZE)) with (length data - length bl0 * Z.to_nat BSIZE)%nat by (rewrite bsize_nat; unfold BSIZE in *; zmod).
      rewrite splice_piece by done.
      eapply runs_bind; [apply (runs_put x _ (set_fs c fb1 img1) img1 eq_refl); [lia|apply length_piece]|]. fold img2.
      assert (u32 (len data + n1) = len (data ++ q)) as -> by (rewrite Hlq; unfold u32; rewrite Z.mod_small; [done|];
        unfold nblk, BSIZE in Hmax; split; [lia|]; pose proof (Z.div_mod (len data + len p + 1024 - 1) 1024); pose proof (Z.mod_pos_bound (len data + len p + 1024 - 1) 1024); lia).
      exact Hr3.
    + eapply frame_trans; [exact Hfr1|]. eapply (frame_trans _ img2 _ _ fb1 _ _ (owned (bl0 ++ [x]) ib1)); [|exact Hfr3].
      constructor; [|by left|lia]. intros b Hb Hn. unfold img2. rewrite (sector_put _ fb1) by (done || lia).
      destruct (Z.eqb_spec b x) as [->|]; [|done]. exfalso. apply Hn, elem_owned. left. set_solver.
Qed.

(** ** Inodes *)

Definition mkd (type size : Z) (addrs : list Z) : dinode := mkdinode type 0 0 1 size addrs.

Lemma iblock ino : 0 <= ino < 208 -> IBLOCK ino the_sb = ino / 16 + 32 /\ 32 <= ino / 16 + 32 < 45.
Proof. intros H. unfold IBLOCK, the_sb, u32. cbn [sb_inodestart]. change IPB with 16. split; [rewrite Z.mod_small; [done|]|]; zmod. Qed.

Lemma dinode_off_le ino : (dinode_off ino + 64 <= Z.to_nat BSIZE)%nat.
Proof. unfold dinode_off. change IPB with 16. rewrite bsize_nat. pose proof (Z.mod_pos_bound ino 16 ltac:(lia)). lia. Qed.

Lemma dinode_off_apart i j : i / 16 = j / 16 -> i <> j -> (dinode_off i + 64 <= dinode_off j \/ dinode_off j + 64 <= dinode_off i)%nat.
Proof. unfold dinode_off. change IPB with 16. intros. zmod. Qed.

Lemma addrs_wf img fb addrs bl ib : addrs_ok img addrs bl ib -> areas fb bl ib -> fb <= FSSIZE -> Forall (fun a => 0 <= a < 2 ^ 32) addrs.
Proof.
  intros [H1 H2 H3 H4 H5 H6] Ha Hfb. unfold FSSIZE in *. apply Forall_forall. intros a Hin. apply list_elem_of_lookup_1 in Hin as [i Hi].
  pose proof (lookup_lt_Some _ _ _ Hi). assert (nth i addrs 0 = a) as E by (rewrite nth_lookup; by rewrite Hi). unfold areas in Ha.
  destruct (decide (i < 12)%nat) as [Hlt|].
  - rewrite H3 in E by done. destruct (bl !! i) as [b|] eqn:Eb; cbn in E; [|lia]. subst b. apply list_elem_of_lookup_2 in Eb.
    pose proof (areas_in _ _ _ a Ha ltac:(by left)) as Hb. unfold in_area in Hb. lia.
  - assert (i = 12)%nat as -> by lia. rewrite H4 in E. destruct ib as [b|]; cbn in E; [|lia]. subst b.
    pose proof (areas_in _ _ _ a Ha ltac:(by right)) as Hb. unfold in_area in Hb. lia.
Qed.

Lemma winode_ok c fb ino d : mk_fsfd (co_mk c) = 3 -> mk_sb (co_mk c) = the_sb -> mk_freeblock (co_mk c) = fb -> img_ok (co_img c) fb ->
  0 <= ino < 208 -> dinode_wf d ->
  exists img', runs (winode mkl ino d) c tt (set_fs c fb img') /\ img_ok img' fb /\ inode_at img' ino d /\
    (forall ino' d', 0 <= ino' < 208 -> ino' <> ino -> inode_at (co_img c) ino' d' -> inode_at img' ino' d') /\
    (forall b, 0 <= b -> ~ (32 <= b < 45) -> sector img' b = sector (co_img c) b).
Proof.
  intros Hfd Hsb Hfb Hi Hino Hwf. destruct (iblock ino Hino) as [Eb Hb]. pose proof (io_fb _ _ Hi) as Hf. unfold FSSIZE in *.
  destruct (sector_some _ _ (ino / 16 + 32) Hi) as (l & Hl & Hlen); [unfold FSSIZE; lia|].
  exists (put_sector (Z.to_nat (ino / 16 + 32)) (put_dinode (dinode_off ino) d l) (co_img c)).
  assert (forall b', 0 <= b' -> sector (put_sector (Z.to_nat (ino / 16 + 32)) (put_dinode (dinode_off ino) d l) (co_img c)) b' =
    if b' =? ino / 16 + 32 then Some (put_dinode (dinode_off ino) d l) else sector (co_img c) b') as Hs.
  { intros b' Hb'. by rewrite (sector_put _ fb) by (done || (unfold FSSIZE; lia)). }
  split_and!.
  - unfold winode. eapply runs_bind; [apply runs_lread|]. rewrite Hsb, Eb. eapply runs_bind; [apply runs_rsect; [lia|done|exact Hl]|].
    rewrite <- Hfb. apply runs_put; [done|lia|by rewrite length_put_dinode].
  - eapply img_ok_put; [done|lia|unfold FSSIZE; lia|by rewrite length_put_dinode].
  - eexists. rewrite Eb, Hs by lia. rewrite Z.eqb_refl. split; [done|]. apply get_put_dinode_same; [done|].
    pose proof (dinode_off_le ino). rewrite Hlen. lia.
  - intros ino' d' Hino' Hne (b & Hb' & Hd'). destruct (iblock ino' Hino') as [Eb' Hbb']. rewrite Eb' in Hb'. unfold inode_at. rewrite Eb', Hs by lia.
    destruct (Z.eqb_spec (ino' / 16 + 32) (ino / 16 + 32)) as [E|]; [|by exists b].
    rewrite E, Hl in Hb'. injection Hb' as <-. eexists. split; [done|]. rewrite get_put_dinode_other; [done|done|].
    apply dinode_off_apart; [lia|done].
  - intros b Hb0 Hnb. rewrite Hs by done. destruct (Z.eqb_spec b (ino / 16 + 32)); [lia|done].
Qed.

Lemma rinode_ok c ino d : mk_fsfd (co_mk c) = 3 -> mk_sb (co_mk c) = the_sb -> 0 <= ino < 208 -> inode_at (co_img c) ino d ->
  runs (rinode mkl ino) c d c.
Proof.
  intros Hfd Hsb Hino (b & Hb & <-). unfold rinode. destruct (iblock ino Hino) as [Eb Hbb].
  eapply runs_bind; [apply runs_lread|]. rewrite Hsb. eapply runs_bind; [apply runs_rsect; [rewrite Eb; lia|done|exact Hb]|]. apply runs_ret.
Qed.

(** ** The files of an image *)

Record file : Type := mkfile { f_type : Z; f_size : Z; f_bl : list Z; f_ib : option Z; f_data : list Z }.
Definition f_own (f : file) : list Z := owned (f_bl f) (f_ib f).

Definition file_ok (img : list (list Z)) (fb ino : Z) (f : file) : Prop :=
  exists addrs, inode_at img ino (mkd (f_type f) (f_size f) addrs) /\ file_at img fb addrs (f_bl f) (f_ib f) (f_data f) /\
    len (f_bl f) = nblk (len (f_data f)).

(** File [k] is inode [1 + k]. *)
Record built (c : core) (fs : list file) : Prop := {
  bt_fd : mk_fsfd (co_mk c) = 3;
  bt_sb : mk_sb (co_mk c) = the_sb;
  bt_inode : mk_freeinode (co_mk c) = 1 + len fs;
  bt_max : (length fs <= 200)%nat;
  bt_img : img_ok (co_img c) (mk_freeblock (co_mk c));
  bt_files : forall k f, fs !! k = Some f -> file_ok (co_img c) (mk_freeblock (co_mk c)) (1 + Z.of_nat k) f;
  bt_apart : forall k1 k2 f1 f2 b, fs !! k1 = Some f1 -> fs !! k2 = Some f2 -> b ∈ f_own f1 -> b ∈ f_own f2 -> k1 = k2;
  bt_super : sector (co_img c) 1 = Some (put_sb the_sb zeroes);
}.

Lemma own_range img fb ino f b : file_ok img fb ino f -> b ∈ f_own f -> 46 <= b < fb.
Proof.
  intros (addrs & _ & [_ _ Ha _] & _) Hb. unfold areas, f_own in *. rewrite Forall_forall in Ha. by apply Ha.
Qed.

Lemma file_ok_ext img img' fb fb' ino f : file_ok img fb ino f -> fb <= fb' ->
  (forall d, inode_at img ino d -> inode_at img' ino d) -> (forall b, b ∈ f_own f -> sector img' b = sector img b) -> file_ok img' fb' ino f.
Proof.
  intros (addrs & Hd & [H1 H2 H3 H4] & Hl) Hfb Hi Hs. exists addrs. split; [by apply Hi|]. split; [|done]. constructor; [| | |done].
  - eapply addrs_ok_ext; [|done]. intros b E. apply Hs, elem_owned. by right.
  - eapply data_ok_ext; [|done]. intros b Hb. apply Hs, elem_owned. by left.
  - by eapply areas_mono.
Qed.

(** Writing one file's inode and blocks leaves the others as they are. *)
Lemma built_update c c' fs k f f' : built c fs -> fs !! k = Some f ->
  mk_fsfd (co_mk c') = mk_fsfd (co_mk c) -> mk_sb (co_mk c') = mk_sb (co_mk c) -> mk_freeinode (co_mk c') = mk_freeinode (co_mk c) ->
  img_ok (co_img c') (mk_freeblock (co_mk c')) -> file_ok (co_img c') (mk_freeblock (co_mk c')) (1 + Z.of_nat k) f' ->
  (forall b, b ∈ f_own f' -> b ∈ f_own f \/ mk_freeblock (co_mk c) <= b) -> mk_freeblock (co_mk c) <= mk_freeblock (co_mk c') ->
  (forall ino d, 0 <= ino < 208 -> ino <> 1 + Z.of_nat k -> inode_at (co_img c) ino d -> inode_at (co_img c') ino d) ->
  (forall b, 0 <= b < mk_freeblock (co_mk c) -> ~ (32 <= b < 45) -> b ∉ f_own f -> sector (co_img c') b = sector (co_img c) b) ->
  built c' (<[k := f']> fs).
Proof.
  intros [H1 H2 H3 H4 H5 H6 H7 H8] Hk G1 G2 G3 G5 G6 Gown Gfb Gi Gs. pose proof (lookup_lt_Some _ _ _ Hk) as Hlt.
  assert (forall j g b, fs !! j = Some g -> b ∈ f_own g -> 46 <= b < mk_freeblock (co_mk c)) as Hr.
  { intros j g b Hj Hb. by eapply own_range; [eapply H6|]. }
  constructor; rewrite ?length_insert; try congruence.
  - intros j g Hj. destruct (decide (j = k)) as [->|Hne]; [rewrite list_lookup_insert_eq in Hj by done; by injection Hj as <-|].
    rewrite list_lookup_insert_ne in Hj by done. pose proof (lookup_lt_Some _ _ _ Hj).
    eapply file_ok_ext; [by eapply H6|done| |].
    + intros d. apply Gi; lia.
    + intros b Hb. pose proof (Hr _ _ _ Hj Hb). apply Gs; [lia|lia|]. intros Hb'. apply Hne. by eapply H7.
  - assert (forall j g b, j <> k -> fs !! j = Some g -> b ∈ f_own g -> b ∉ f_own f') as Hd.
    { intros j g b Hne Hj Hb Hb'. destruct (Gown b Hb') as [Hb2|Hb2]; [apply Hne; by eapply H7|]. pose proof (Hr _ _ _ Hj Hb). lia. }
    intros k1 k2 f1 f2 b Hk1 Hk2 Hb1 Hb2. destruct (decide (k1 = k)) as [->|N1], (decide (k2 = k)) as [->|N2]; [done| | |].
    + rewrite list_lookup_insert_eq in Hk1 by done. injection Hk1 as <-. rewrite list_lookup_insert_ne in Hk2 by done. exfalso. by eapply Hd.
    + rewrite list_lookup_insert_eq in Hk2 by done. injection Hk2 as <-. rewrite list_lookup_insert_ne in Hk1 by done. exfalso. by eapply Hd.
    + rewrite list_lookup_insert_ne in Hk1, Hk2 by done. by eapply H7.
  - rewrite <- H8. pose proof (io_fb _ _ H5). apply Gs; [lia|lia|]. intros Hb. pose proof (Hr _ _ _ Hk Hb). lia.
Qed.

Lemma inode_type img ino d : inode_at img ino d -> - 2 ^ 15 <= d_type d < 2 ^ 15.
Proof. intros (b & _ & <-). cbn. unfold i16. zmod. Qed.

Lemma mkd_wf img fb addrs bl ib type size : - 2 ^ 15 <= type < 2 ^ 15 -> 0 <= size < 2 ^ 32 ->
  addrs_ok img addrs bl ib -> areas fb bl ib -> fb <= FSSIZE -> dinode_wf (mkd type size addrs).
Proof.
  intros Ht Hs Ha Har Hfb. constructor; cbn; [done|lia|lia|lia|done|]. split; [apply Ha|]. by eapply addrs_wf.
Qed.

(** Files outlast a write to the inode blocks. *)
Lemma file_at_inode img img' fb addrs bl ib data : file_at img fb addrs bl ib data ->
  (forall b, 0 <= b -> ~ (32 <= b < 45) -> sector img' b = sector img b) -> file_at img' fb addrs bl ib data.
Proof.
  intros [H1 H2 H3 H4] Hs. constructor; [| |done|done].
  - eapply addrs_ok_ext; [|done]. intros b E. pose proof (areas_in _ _ _ b H3 ltac:(by right)) as Hb. unfold in_area in Hb. apply Hs; lia.
  - eapply data_ok_ext; [|done]. intros b Hb'. pose proof (areas_in _ _ _ b H3 ltac:(by left)) as Hb. unfold in_area in Hb. apply Hs; lia.
Qed.

Definition same_host (c c' : core) : Prop := co_src c' = co_src c /\ co_cur c' = co_cur c.

Lemma iappend_ok c fs k f p : built c fs -> fs !! k = Some f -> f_size f = len (f_data f) ->
  nblk (len (f_data f) + len p) <= 268 ->
  mk_freeblock (co_mk c) + cost (len (f_data f) + len p) - cost (len (f_data f)) <= FSSIZE ->
  exists c' bl ib, let f' := mkfile (f_type f) (len (f_data f ++ p)) bl ib (f_data f ++ p) in
    runs (iappend mkl (1 + Z.of_nat k) p) c tt c' /\ built c' (<[k := f']> fs) /\ same_host c c' /\
    mk_freeblock (co_mk c') = mk_freeblock (co_mk c) + cost (len (f_data f) + len p) - cost (len (f_data f)).
Proof.
  intros Hb Hk Hsz Hmax Hroom. pose proof Hb as [H1 H2 H3 H4 H5 H6 H7 H8]. pose proof (lookup_lt_Some _ _ _ Hk) as Hlt.
  destruct (H6 k f Hk) as (addrs & Hd & Hf & Hbl). set (fb := mk_freeblock (co_mk c)) in *. set (data := f_data f) in *.
  assert (0 <= 1 + Z.of_nat k < 208) as Hino by lia. pose proof (inode_type _ _ _ Hd) as Ht. cbn in Ht.
  assert (len data + len p < 2 ^ 31) as Hbig by (unfold nblk, BSIZE in Hmax; zmod).
  assert (xint (len data) = len data) as Ex by (apply xint_id; lia).
  destruct (iappend_loop_ok (length p) c (mkd (f_type f) (f_size f) addrs) fb (f_bl f) (f_ib f) data p H1 eq_refl H5 Hf Hbl Hmax Hroom (le_n _))
    as (img1 & addrs1 & bl1 & ib1 & fb1 & Hr & Hi1 & Hf1 & Hbl1 & Hfb1 & [Hfr Hown Hfbm]).
  set (d1 := mkd (f_type f) (len (data ++ p)) addrs1). pose proof (io_fb _ _ Hi1) as Hb1.
  assert (dinode_wf d1) as Hwf.
  { destruct Hf1 as [Ha1 _ Har1 _]. eapply mkd_wf; [done|rewrite length_app; lia|done|done|lia]. }
  destruct (winode_ok (set_fs c fb1 img1) fb1 (1 + Z.of_nat k) d1 H1 H2 eq_refl Hi1 Hino Hwf) as (img2 & Hr2 & Hi2 & Hd2 & Hoth & Hsec).
  exists (set_fs c fb1 img2), bl1, ib1. cbv zeta. split_and!; [| |done|done].
  - unfold iappend. eapply runs_bind; [by apply rinode_ok|]. cbn [d_size mkd]. rewrite Hsz. fold data. rewrite Ex.
    rewrite Hsz in Hr. fold data in Hr. eapply runs_bind; [exact Hr|]. cbv beta iota. unfold with_addrs, with_size. cbn [d_type d_major d_minor d_nlink d_addrs mkd].
    rewrite xint_id by (rewrite length_app; lia). exact Hr2.
  - eapply (built_update c _ _ _ f); try done.
    + exists addrs1. cbn. split_and!; [done| |done]. by eapply file_at_inode.
    + intros b Hb'. cbn in Hb'. destruct (Hown b Hb') as [|?]; [by left|right; lia].
    + intros ino d Hino' Hne Hat. apply Hoth; [done|done|]. destruct Hat as (l & Hl & El). exists l. split; [|done].
      destruct (iblock ino Hino') as [Eb Hbb]. cbn [co_img set_fs]. rewrite Hfr; [done| |].
      * rewrite Eb. pose proof (io_fb _ _ H5). lia.
      * intros Hin. pose proof (own_range _ _ _ f _ (H6 k f Hk) Hin). lia.
    + intros b Hbr Hni Hno. cbn [co_img set_fs]. rewrite Hsec by lia. cbn [co_img set_fs]. apply Hfr; [done|done].
Qed.

(** A new, empty file. *)
Lemma ialloc_ok c fs type : built c fs -> (length fs < 200)%nat -> 0 <= type < 2 ^ 15 ->
  exists c', runs (ialloc mkl type) c (1 + len fs) c' /\ built c' (fs ++ [mkfile type 0 [] None []]) /\ same_host c c' /\
    mk_freeblock (co_mk c') = mk_freeblock (co_mk c).
Proof.
  intros [H1 H2 H3 H4 H5 H6 H7 H8] Hl Ht. set (fb := mk_freeblock (co_mk c)) in *.
  set (c1 := c <| co_mk := (co_mk c) <| mk_freeinode := 1 + len fs + 1 |> |>).
  assert (dinode_wf (mkd type 0 (replicate 13 0))) as Hwf by (constructor; cbn; [lia|lia|lia|lia|lia|split; [done|by repeat constructor]]).
  destruct (winode_ok c1 fb (1 + len fs) (mkd type 0 (replicate 13 0)) H1 H2 eq_refl H5 ltac:(lia) Hwf) as (img & Hr & Hi & Hd & Hoth & Hsec).
  exists (set_fs c1 fb img). split_and!; [| |done|done].
  - unfold ialloc. eapply runs_bind; [apply runs_lread|]. rewrite H3. eapply runs_bind; [apply runs_lmod|].
    assert (u32 (1 + len fs + 1) = 1 + len fs + 1) as -> by (unfold u32; rewrite Z.mod_small; lia). fold c1.
    eapply runs_bind; [|apply runs_ret]. rewrite (xshort_id type), (xshort_id 1), (xint_id 0) by lia.
    replace (i16 type) with type by (unfold i16; zmod). exact Hr.
  - constructor; cbn [co_mk co_img set_fs mk_fsfd mk_sb mk_freeinode mk_freeblock]; rewrite ?length_app; cbn [length]; [done|done|cbn; lia|lia|done| | |].
    + intros k f Hk. destruct (decide (k < length fs)%nat) as [Hlt|Hge].
      * rewrite lookup_app_l in Hk by done. eapply file_ok_ext; [by apply H6|lia| |].
        -- intros d. apply Hoth; lia.
        -- intros b Hb. pose proof (own_range _ _ _ f _ (H6 k f Hk) Hb). apply Hsec; lia.
      * rewrite lookup_app_r in Hk by lia. apply list_lookup_singleton_Some in Hk as [Hk <-]. exists (replicate 13 0). cbn.
        replace (1 + Z.of_nat k) with (1 + len fs) by lia. split_and!; [done| |done]. constructor; [constructor|split| |]; cbn; try done; try lia.
        -- intros i Hi'. do 12 (destruct i as [|i]; [done|]). lia.
        -- constructor.
        -- constructor.
    + intros k1 k2 f1 f2 b Hk1 Hk2 Hb1 Hb2. destruct (decide (k1 < length fs)%nat) as [L1|L1]; [|].
      * destruct (decide (k2 < length fs)%nat) as [L2|L2].
        -- rewrite lookup_app_l in Hk1, Hk2 by done. by eapply H7.
        -- rewrite (lookup_app_r _ _ k2) in Hk2 by lia. apply list_lookup_singleton_Some in Hk2 as [_ <-]. by apply not_elem_of_nil in Hb2.
      * rewrite (lookup_app_r _ _ k1) in Hk1 by lia. apply list_lookup_singleton_Some in Hk1 as [_ <-]. by apply not_elem_of_nil in Hb1.
    + rewrite Hsec by lia. done.
Qed.

(** ** The contents of the source files *)

Definition with_cur (c : core) (l : list (list Z)) : core := c <| co_cur := l |>.

Lemma built_cur c l fs : built c fs -> built (with_cur c l) fs.
Proof. by intros [H1 H2 H3 H4 H5 H6 H7 H8]; constructor. Qed.

Lemma built_data c fs k f : built c fs -> fs !! k = Some f -> mk_freeblock (co_mk c) <= FSSIZE.
Proof. intros [_ _ _ _ H _ _ _] _. pose proof (io_fb _ _ H). lia. Qed.

(** What the copy of [l] to a file leaves. *)
Lemma copy_in_ok fuel : forall c fs k f, built c fs -> fs !! k = Some f -> f_size f = len (f_data f) ->
  Forall (fun x => x <> []) (co_cur c) -> let l := concat (co_cur c) in (length l < fuel)%nat ->
  nblk (len (f_data f) + len l) <= 268 ->
  mk_freeblock (co_mk c) + cost (len (f_data f) + len l) - cost (len (f_data f)) <= FSSIZE ->
  exists c' bl ib, let f' := mkfile (f_type f) (len (f_data f ++ l)) bl ib (f_data f ++ l) in
    runs (copy_in mkl fuel 4 (1 + Z.of_nat k)) c tt c' /\ built c' (<[k := f']> fs) /\ co_src c' = co_src c /\
    mk_freeblock (co_mk c') = mk_freeblock (co_mk c) + cost (len (f_data f) + len l) - cost (len (f_data f)).
Proof.
  induction fuel as [|fuel IH]; intros c fs k f Hb Hk Hsz Hne l Hl Hmax Hroom; [lia|]. cbn [copy_in].
  pose proof (next_chunk_spec BSIZE (mkuenv (co_cur c) [] []) ltac:(done) Hne) as Hn. cbn [ue_in] in Hn. fold l in Hn.
  destruct l as [|z l'] eqn:El.
  - exists (with_cur c (co_cur c)), (f_bl f), (f_ib f). cbv zeta. rewrite app_nil_r. cbn [length]. split_and!; [| |done|cbn; rewrite Z.add_0_r; lia].
    + eapply (runs_bind _ _ _ (0, [])); [|apply runs_ret]. intros pos. exists pos. cbn. by rewrite Hn.
    + apply built_cur. rewrite list_insert_id; [done|]. rewrite Hk. f_equal. rewrite <- Hsz. by destruct f.
  - destruct Hn as (q & e' & Hn & Hq & Eq & Hne' & _). set (l1 := concat (ue_in e')) in *. rewrite Eq in *.
    assert (0 < len q) as Hq0 by (destruct q; [done|cbn [length]; lia]).
    assert (len (q ++ l1) = len q + len l1) as Ell by (rewrite length_app; lia).
    pose proof (nblk_le (len (f_data f) + len q) (len (f_data f) + len (q ++ l1)) ltac:(lia)).
    pose proof (cost_le (len (f_data f) + len q) (len (f_data f) + len (q ++ l1)) ltac:(lia)).
    set (c0 := with_cur c (ue_in e')).
    destruct (iappend_ok c0 fs k f q (built_cur _ _ _ Hb) Hk Hsz ltac:(lia)) as (c1 & bl1 & ib1 & Hr1 & Hb1 & [Hs1 Hc1] & Hf1); [cbn; lia|].
    set (f1 := mkfile (f_type f) (len (f_data f ++ q)) bl1 ib1 (f_data f ++ q)) in *.
    assert (len (f_data f ++ q) = len (f_data f) + len q) as Elq by (rewrite length_app; lia).
    destruct (IH c1 (<[k := f1]> fs) k f1 Hb1) as (c2 & bl2 & ib2 & Hr2 & Hb2 & Hs2 & Hf2).
    { apply list_lookup_insert_eq. by apply lookup_lt_Some in Hk. }
    { done. }
    { by rewrite Hc1. }
    { rewrite Hc1. cbn [co_cur c0 with_cur set_field]. fold l1. rewrite length_app in Hl. lia. }
    { rewrite Hc1. cbn [co_cur c0 with_cur set_field f1 f_data]. fold l1. rewrite Elq. by replace (len (f_data f) + len q + len l1) with (len (f_data f) + len (q ++ l1)) by lia. }
    { rewrite Hc1. cbn [co_cur c0 with_cur set_field f1 f_data]. fold l1. rewrite Elq, Hf1. cbn [c0 with_cur set_field co_mk].
      replace (len (f_data f) + len q + len l1) with (len (f_data f) + len (q ++ l1)) by lia. lia. }
    assert (concat (co_cur c1) = l1) as Ec1 by (by rewrite Hc1). rewrite Ec1 in *. cbn [f1 f_data f_type] in *. rewrite <- app_assoc in *. rewrite list_insert_insert_eq in Hb2.
    exists c2, bl2, ib2. cbv zeta. split_and!; [|done| |].
    + eapply (runs_bind _ _ _ (len q, q) c0); [|cbn [fst snd]; destruct (Z.ltb_spec 0 (len q)); [|lia]; eapply runs_bind; [exact Hr1|exact Hr2]].
      intros pos. exists pos. cbn. by rewrite Hn.
    + rewrite Hs2, Hs1. done.
    + rewrite Hf2, Hf1, Elq. cbn [c0 with_cur set_field co_mk]. replace (len (f_data f) + len q + len l1) with (len (f_data f) + len (q ++ l1)) by lia. lia.
Qed.

(** A source file: its path and contents. *)
Definition source_ok (src : gmap (list Z) (list (list Z))) (fuel : nat) (x : list Z * list Z) : Prop :=
  slash ∉ shortname x.1 /\ nblk (len x.2) <= 268 /\ (length x.2 < fuel)%nat /\
  exists l, src !! x.1 = Some l /\ Forall (fun y => y <> []) l /\ concat l = x.2.

Definition entry (inum : Z) (arg : list Z) : list Z := dirent inum (bstrncpy DIRSIZ (stripped (shortname arg))).

Lemma length_bstrncpy n t : length (bstrncpy n t) = n.
Proof. revert t. induction n as [|n IH]; intros t; cbn [bstrncpy]; [done|]. destruct (_ =? 0); [by rewrite length_replicate|cbn; by rewrite IH]. Qed.

Lemma length_dirent inum name : length name = DIRSIZ -> length (dirent inum name) = 16%nat.
Proof. intros H. unfold dirent. rewrite length_put_le. cbn. by rewrite H. Qed.

Lemma length_entry inum arg : length (entry inum arg) = 16%nat.
Proof. apply length_dirent, length_bstrncpy. Qed.

Lemma nblk_dir n : 0 <= n <= 4096 -> nblk n <= 4 /\ cost n = nblk n.
Proof. intros H. assert (nblk n <= 4) by (unfold nblk, BSIZE; zmod). split; [done|]. unfold cost, NDIRECT. zcase. Qed.

Definition same_file (f f' : file) : Prop := f_type f' = f_type f /\ f_size f' = f_size f /\ f_data f' = f_data f.

(** One more file: its entry in the root directory and its contents. *)
Lemma add_file_ok fuel c root fs x : built c (root :: fs) -> f_size root = len (f_data root) ->
  (len fs + 2) * 16 = len (f_data root) -> (length fs < 198)%nat -> source_ok (co_src c) fuel x ->
  mk_freeblock (co_mk c) + (cost (len (f_data root) + 16) - cost (len (f_data root))) + cost (len x.2) <= FSSIZE ->
  exists c' root' f, runs (add_file mkl fuel ROOTINO x.1) c tt c' /\ built c' (root' :: fs ++ [f]) /\ co_src c' = co_src c /\
    f_type root' = f_type root /\ f_size root' = len (f_data root') /\ f_data root' = f_data root ++ entry (2 + len fs) x.1 /\
    f_type f = T_FILE /\ f_size f = len x.2 /\ f_data f = x.2 /\
    mk_freeblock (co_mk c') = mk_freeblock (co_mk c) + (cost (len (f_data root) + 16) - cost (len (f_data root))) + cost (len x.2).
Proof.
  intros Hb Hsz Hlen Hfs (Hname & Hblk & Hfuel & l & Hl & Hne & Hcat) Hroom.
  assert (0 <= cost (len x.2)) as Hcx by (unfold cost, nblk, BSIZE; zcase; zmod).
  set (c0 := with_cur c l). pose proof (built_cur c l _ Hb) as Hb0. fold c0 in Hb0.
  destruct (ialloc_ok c0 (root :: fs) T_FILE Hb0) as (c1 & Hr1 & Hb1 & [Hs1 Hc1] & Hf1); [cbn; lia|unfold T_FILE; lia|].
  set (e := entry (2 + len fs) x.1). assert (length e = 16%nat) as Hle by apply length_entry.
  destruct (nblk_dir (len (f_data root) + 16) ltac:(lia)) as [Hn16 _].
  destruct (iappend_ok c1 ((root :: fs) ++ [mkfile T_FILE 0 [] None []]) 0 root e Hb1 eq_refl Hsz) as (c2 & bl2 & ib2 & Hr2 & Hb2 & [Hs2 Hc2] & Hf2).
  { rewrite Hle. change (Z.of_nat 16) with 16. lia. }
  { rewrite Hle, Hf1. cbn [c0 with_cur set_field co_mk]. change (Z.of_nat 16) with 16. lia. }
  set (root' := mkfile (f_type root) (len (f_data root ++ e)) bl2 ib2 (f_data root ++ e)) in *. cbn [insert list_insert app] in Hb2.
  rewrite Hle in Hf2. change (Z.of_nat 16) with 16 in Hf2.
  assert ((root' :: fs ++ [mkfile T_FILE 0 [] None []]) !! S (length fs) = Some (mkfile T_FILE 0 [] None [])) as Hk by (by apply list_lookup_middle).
  assert (concat (co_cur c2) = x.2) as Ecat by (by rewrite Hc2, Hc1).
  destruct (copy_in_ok fuel c2 _ (S (length fs)) _ Hb2 Hk eq_refl) as (c3 & bl3 & ib3 & Hr3 & Hb3 & Hs3 & Hf3).
  { by rewrite Hc2, Hc1. }
  { by rewrite Ecat. }
  { rewrite Ecat. cbn [f_data length]. by rewrite Z.add_0_l. }
  { rewrite Ecat, Hf2, Hf1. cbn [f_data length c0 with_cur set_field co_mk]. rewrite Z.add_0_l. change (cost (Z.of_nat 0)) with 0. lia. }
  rewrite Ecat in *. cbn [f_type f_data app length] in Hb3, Hf3. rewrite Z.add_0_l in Hf3. change (cost (Z.of_nat 0)) with 0 in Hf3.
  assert (<[S (length fs) := mkfile T_FILE (len x.2) bl3 ib3 x.2]> (root' :: fs ++ [mkfile T_FILE 0 [] None []]) =
    root' :: fs ++ [mkfile T_FILE (len x.2) bl3 ib3 x.2]) as Eins.
  { change (root' :: fs ++ ?l0) with ((root' :: fs) ++ l0). replace (S (length fs)) with (length (root' :: fs) + 0)%nat by (cbn; lia). by rewrite insert_app_r. }
  cbn [app] in Hb3. rewrite Eins in Hb3.
  exists c3, root', (mkfile T_FILE (len x.2) bl3 ib3 x.2). split_and!; try done.
  - unfold add_file. eapply runs_bind; [apply runs_assert; by rewrite bool_decide_eq_false_2|].
    eapply (runs_bind _ _ _ 4 c0); [intros pos; exists pos; cbn; by rewrite Hl|]. cbn [Z.ltb Z.compare].
    eapply runs_bind; [exact Hr1|]. cbn [length]. replace (1 + Z.of_nat (S (length fs))) with (2 + len fs) in Hr3 |- * by lia.
    rewrite xshort_id by lia. eapply runs_bind; [exact Hr2|]. eapply runs_bind; [exact Hr3|].
    eapply runs_bind; [apply runs_ret|apply runs_ret].
  - by rewrite Hs3, Hs2, Hs1.
  - rewrite Hf3, Hf2, Hf1. cbn [c0 with_cur set_field co_mk]. lia.
Qed.

(** The entries of the files [xs] in the root directory, inode numbers from [n]. *)
Fixpoint entries (n : Z) (xs : list (list Z * list Z)) : list Z :=
  match xs with [] => [] | x :: xs' => entry n x.1 ++ entries (n + 1) xs' end.
Definition total (xs : list (list Z * list Z)) : Z := foldr (fun x n => cost (len x.2) + n) 0 xs.

Definition is_source (x : list Z * list Z) (f : file) : Prop := f_type f = T_FILE /\ f_size f = len x.2 /\ f_data f = x.2.

Lemma cost_nonneg n : 0 <= n -> 0 <= cost n.
Proof. intros H. unfold cost, nblk, BSIZE. zcase; zmod. Qed.

Lemma total_nonneg xs : 0 <= total xs.
Proof. unfold total. induction xs as [|x xs IH]; cbn [foldr]; [done|]. pose proof (cost_nonneg (len x.2) ltac:(lia)). lia. Qed.

Lemma length_entries n xs : len (entries n xs) = 16 * len xs.
Proof. revert n. induction xs as [|x xs IH]; intros n; cbn [entries]; [done|]. rewrite length_app, length_entry, Nat2Z.inj_add, IH. cbn [length]. lia. Qed.

Lemma add_files_ok fuel xs : forall c root fs, built c (root :: fs) -> f_size root = len (f_data root) ->
  (len fs + 2) * 16 = len (f_data root) -> (length fs + length xs <= 198)%nat -> Forall (source_ok (co_src c) fuel) xs ->
  mk_freeblock (co_mk c) + (cost (len (f_data root) + 16 * len xs) - cost (len (f_data root))) + total xs <= FSSIZE ->
  exists c' root' gs, runs (add_files mkl fuel ROOTINO (fst <$> xs)) c tt c' /\ built c' (root' :: fs ++ gs) /\
    f_type root' = f_type root /\ f_size root' = len (f_data root') /\ f_data root' = f_data root ++ entries (2 + len fs) xs /\ Forall2 is_source xs gs.
Proof.
  induction xs as [|x xs IH]; intros c root fs Hb Hsz Hlen Hmax Hsrc Hroom; cbn [fmap list_fmap add_files entries].
  - exists c, root, []. rewrite !app_nil_r. split_and!; try done. apply runs_ret.
  - cbn [length] in *. cbn [total foldr] in Hroom. fold (total xs) in Hroom. apply Forall_cons in Hsrc as [Hx Hsrc].
    pose proof (total_nonneg xs). pose proof (cost_le (len (f_data root) + 16) (len (f_data root) + 16 * Z.of_nat (S (length xs))) ltac:(lia)).
    destruct (add_file_ok fuel c root fs x Hb Hsz Hlen ltac:(lia) Hx ltac:(lia)) as (c1 & root1 & f & Hr1 & Hb1 & Hs1 & Ht1 & Hz1 & Hd1 & Hft & Hfz & Hfd & Hfb1).
    assert (len (f_data root1) = len (f_data root) + 16) as Hl1 by (rewrite Hd1, length_app, length_entry; lia).
    destruct (IH c1 root1 (fs ++ [f]) Hb1 Hz1) as (c2 & root2 & gs & Hr2 & Hb2 & Ht2 & Hz2 & Hd2 & Hgs).
    { rewrite length_app. cbn [length]. lia. }
    { rewrite length_app. cbn [length]. lia. }
    { by rewrite Hs1. }
    { rewrite Hl1, Hfb1. replace (len (f_data root) + 16 + 16 * len xs) with (len (f_data root) + 16 * Z.of_nat (S (length xs))) by lia. lia. }
    exists c2, root2, (f :: gs). split_and!; [by eapply runs_bind| |congruence|done| |by constructor].
    + by rewrite <- app_assoc in Hb2.
    + rewrite Hd2, Hd1, <- app_assoc. do 3 f_equal. rewrite length_app. cbn [length]. lia.
Qed.

(** ** The first and the last writes *)

Lemma clear_ok n c img : co_img c = img -> (length img + n <= 2000)%nat ->
  runs (for_each (seq (length img) n) (fun i => wsect mkl (Z.of_nat i) zeroes)) c tt (c <| co_img := img ++ replicate n zeroes |>).
Proof.
  revert c img. induction n as [|n IH]; intros c img Hi Hn; cbn [for_each seq replicate].
  - rewrite app_nil_r, <- Hi. destruct c. apply runs_ret.
  - unfold seq. cbn [List.seq for_each]. eapply runs_bind; [apply runs_wsect; [lia|done]|].
    assert (put_sector (Z.to_nat (len img)) zeroes (co_img c) = img ++ [zeroes]) as ->.
    { rewrite Hi, Nat2Z.id. unfold put_sector. rewrite (proj2 (Nat.ltb_ge _ _)) by lia. by rewrite Nat.sub_diag. }
    specialize (IH (c <| co_img := img ++ [zeroes] |>) (img ++ [zeroes]) eq_refl). rewrite length_app in IH. cbn [length] in IH.
    replace (S (length img)) with (length img + 1)%nat by lia. rewrite <- app_assoc in IH. apply IH. lia.
Qed.

Lemma new_sb_eq : new_sb = the_sb.
Proof. vm_compute. reflexivity. Qed.

Lemma zero_length : length zeroes = Z.to_nat BSIZE.
Proof. apply length_replicate. Qed.

Lemma length_put_sb s b : length (put_sb s b) = length b.
Proof. apply length_put_words. Qed.

Lemma fresh_img : img_ok (replicate (Z.to_nat FSSIZE) zeroes) 46.
Proof.
  constructor; [by rewrite length_replicate|by apply Forall_replicate|unfold FSSIZE; lia|].
  intros b Hb. unfold sector, FSSIZE in *. apply lookup_replicate_2. lia.
Qed.

(** After mkfs has laid out the empty image. *)
Lemma blank_built src cur :
  built (mkcore (mkmkfs 3 the_sb 1 46) (put_sector 1 (put_sb the_sb zeroes) (replicate (Z.to_nat FSSIZE) zeroes)) src cur) [].
Proof.
  assert (length (put_sb the_sb zeroes) = Z.to_nat BSIZE) as Hl by apply length_put_sb.
  pose proof (img_ok_put _ 46 46 1 _ fresh_img ltac:(lia) ltac:(unfold FSSIZE; lia) Hl) as Hi. change (Z.to_nat 1) with 1%nat in Hi.
  constructor; cbn [co_mk co_img mk_fsfd mk_sb mk_freeinode mk_freeblock]; [done|done|done|cbn; lia|exact Hi|done|done|].
  pose proof (sector_put _ 46 1 (put_sb the_sb zeroes) 1 fresh_img ltac:(unfold FSSIZE; lia) ltac:(lia)) as Hs. exact Hs.
Qed.

Lemma mark_used_bits n : Z.of_nat n <= 8192 -> length (mark_used (Z.of_nat n) zeroes) = Z.to_nat BSIZE /\
  forall b, 0 <= b < 8192 -> map_bit (mark_used (Z.of_nat n) zeroes) b = (b <? Z.of_nat n).
Proof.
  unfold mark_used. rewrite Nat2Z.id. induction n as [|n IH]; intros Hn.
  - split; [apply zero_length|]. intros b Hb. change (map_bit zeroes b = (b <? 0)). unfold map_bit.
    pose proof (get_zeroes 1 (Z.to_nat (b / 8))) as E. cbn [get_le] in E. replace (nth _ zeroes 0) with 0 by lia.
    rewrite Z.testbit_0_l. symmetry. apply Z.ltb_ge. lia.
  - destruct (IH ltac:(lia)) as [Hl Hb]. rewrite seq_S, foldl_app. cbn [foldl Nat.add]. split.
    + by rewrite length_map_set.
    + intros b Hb'. rewrite map_bit_set; [rewrite Hb by done; zcase; done|lia|lia|]. rewrite Hl, bsize_nat. zmod.
Qed.

Lemma balloc_ok c fs : built c fs -> exists c', runs (balloc mkl (mk_freeblock (co_mk c))) c tt c' /\ built c' fs /\
  mk_freeblock (co_mk c') = mk_freeblock (co_mk c) /\
  exists bm, sector (co_img c') 45 = Some bm /\ forall b, 0 <= b < FSSIZE -> map_bit bm b = (b <? mk_freeblock (co_mk c)).
Proof.
  intros Hb. pose proof Hb as [H1 H2 H3 H4 H5 H6 H7 H8]. set (fb := mk_freeblock (co_mk c)) in *. pose proof (io_fb _ _ H5) as Hfb.
  unfold FSSIZE in *. destruct (mark_used_bits (Z.to_nat fb) ltac:(lia)) as [Hl Hbits]. rewrite Z2Nat.id in Hl, Hbits by lia.
  set (img := put_sector (Z.to_nat 45) (mark_used fb zeroes) (co_img c)).
  assert (forall b, 0 <= b -> b <> 45 -> sector img b = sector (co_img c) b) as Hs.
  { intros b Hb0 Hne. unfold img. rewrite (sector_put _ fb) by (done || (unfold FSSIZE; lia)). by destruct (Z.eqb_spec b 45). }
  exists (set_fs c fb img). split_and!; [| |done|].
  - unfold balloc. eapply runs_bind; [apply runs_printf|]. eapply runs_bind; [apply runs_assert, Z.ltb_lt; change (BSIZE * 8) with 8192; lia|].
    eapply runs_bind; [apply runs_lread|]. eapply runs_bind; [apply runs_printf|]. rewrite H2. cbn [sb_bmapstart the_sb].
    by apply runs_put; [|lia|].
  - constructor; cbn [co_mk co_img set_fs mk_fsfd mk_sb mk_freeinode mk_freeblock]; try done.
    + eapply img_ok_put; [done|lia|unfold FSSIZE; lia|done].
    + intros k f Hk. pose proof (lookup_lt_Some _ _ _ Hk). eapply file_ok_ext; [by apply H6|lia| |].
      * intros d (l & Hl' & El). exists l. split; [|done]. destruct (iblock (1 + Z.of_nat k) ltac:(lia)) as [Eb Hbb]. rewrite Hs; [done|lia|lia].
      * intros b Hin. pose proof (own_range _ _ _ f _ (H6 k f Hk) Hin). apply Hs; lia.
    + rewrite Hs by lia. done.
  - exists (mark_used fb zeroes). cbn [co_img set_fs]. split.
    + unfold img. rewrite (sector_put _ fb) by (done || (unfold FSSIZE; lia)). done.
    + intros b Hb'. apply Hbits. lia.
Qed.

Lemma fix_root_ok c root fs : built c (root :: fs) -> f_size root = len (f_data root) ->
  let f' := mkfile (f_type root) ((len (f_data root) / BSIZE + 1) * BSIZE) (f_bl root) (f_ib root) (f_data root) in
  exists c', runs (fix_root mkl ROOTINO) c tt c' /\ built c' (f' :: fs) /\ mk_freeblock (co_mk c') = mk_freeblock (co_mk c).
Proof.
  intros Hb Hsz f'. pose proof Hb as [H1 H2 H3 H4 H5 H6 H7 H8]. destruct (H6 0%nat root eq_refl) as (addrs & Hd & Hf & Hbl).
  pose proof (inode_type _ _ _ Hd) as Ht. cbn in Ht. change (1 + Z.of_nat 0) with 1 in Hd. pose proof (io_fb _ _ H5) as Hfb.
  assert (len (f_data root) < 2 ^ 30) as Hbig.
  { destruct Hf as [[_ Hm _ _ _ _] _ _ _]. unfold nblk, BSIZE in Hbl. zmod. }
  set (sz := (len (f_data root) / BSIZE + 1) * BSIZE) in *. assert (0 <= sz < 2 ^ 31) as Hszb by (unfold sz, BSIZE; zmod).
  assert (dinode_wf (mkd (f_type root) sz addrs)) as Hwf.
  { destruct Hf as [Ha1 _ Har1 _]. eapply mkd_wf; [done|lia|done|done|lia]. }
  destruct (winode_ok c _ 1 (mkd (f_type root) sz addrs) H1 H2 eq_refl H5 ltac:(lia) Hwf) as (img2 & Hr2 & Hi2 & Hd2 & Hoth & Hsec).
  exists (set_fs c (mk_freeblock (co_mk c)) img2). split_and!; [| |done].
  - unfold fix_root. change ROOTINO with 1. eapply runs_bind; [by apply rinode_ok; [..|exact Hd]|]. cbn [d_size mkd]. rewrite Hsz, (xint_id (len (f_data root))) by lia.
    fold sz. assert (u32 sz = sz) as -> by (unfold u32; rewrite Z.mod_small; lia). rewrite xint_id by lia. exact Hr2.
  - change (f' :: fs) with (<[0%nat := f']> (root :: fs)). eapply (built_update c _ _ _ root); try done.
    + exists addrs. cbn. split_and!; [done| |done]. by eapply file_at_inode.
    + intros b Hb'. by left.
    + intros b Hbr Hni Hno. apply Hsec; lia.
Qed.

(** ** What the kernel finds *)

Lemma block_at_ok img fb addrs bl ib data type size i b : file_at img fb addrs bl ib data -> bl !! i = Some b ->
  block_at img (mkd type size addrs) (Z.of_nat i) = Some b.
Proof.
  intros [[H1 H2 H3 H4 H5 H6] _ _ _] Hi. pose proof (lookup_lt_Some _ _ _ Hi). unfold block_at. cbn [d_addrs mkd]. change NDIRECT with 12.
  destruct (Z.ltb_spec (Z.of_nat i) 12) as [Hlt|Hge].
  - rewrite Nat2Z.id. destruct (lookup_lt_is_Some_2 addrs i ltac:(lia)) as [a Ha]. rewrite Ha. f_equal.
    specialize (H3 i ltac:(lia)). rewrite nth_lookup, Ha, Hi in H3. done.
  - destruct ib as [x|]; [|specialize (H5 eq_refl); lia]. destruct (H6 x eq_refl) as (_ & ind & Hind & _ & Hw).
    change (Z.to_nat 12) with 12%nat. destruct (lookup_lt_is_Some_2 addrs 12 ltac:(lia)) as [a Ha]. rewrite Ha.
    rewrite nth_lookup, Ha in H4. cbn in H4. subst a. cbn [mbind option_bind]. rewrite Hind. cbn [mbind option_bind]. f_equal.
    replace (Z.to_nat (4 * (Z.of_nat i - 12))) with (4 * (i - 12))%nat by lia. rewrite Hw by lia.
    replace (12 + (i - 12))%nat with i by lia. by rewrite Hi.
Qed.

Lemma file_held img fb ino f : file_ok img fb ino f -> holds_file img ino (f_type f) (f_size f) (f_data f).
Proof.
  intros (addrs & Hd & Hf & Hbl). exists (mkd (f_type f) (f_size f) addrs). split_and!; [done|done|done|done|]. intros i c Hc.
  pose proof (lookup_lt_Some _ _ _ Hc) as Hlt. pose proof (piece_lookup _ _ _ Hc) as Hp. set (j := (i / Z.to_nat BSIZE)%nat) in *.
  assert (Z.of_nat i / BSIZE = Z.of_nat j) as Ej by (unfold j; by rewrite Nat2Z.inj_div).
  destruct (lookup_lt_is_Some_2 (f_bl f) j) as [b Hb].
  { unfold nblk in Hbl. unfold BSIZE in *. zmod. }
  exists b, (piece (f_data f) j). split_and!; [rewrite Ej; by eapply block_at_ok| |done].
  destruct Hf as [_ [_ Hs] _ _]. by apply Hs.
Qed.

Lemma elem_get_words n off b x : x ∈ get_words n off b -> exists j, (j < n)%nat /\ get_le 4 (off + 4 * j) b = x.
Proof.
  revert off. induction n as [|n IH]; intros off; [by intros ?%not_elem_of_nil|]. cbn [get_words]. intros [->|H]%elem_of_cons.
  - exists 0%nat. split; [lia|]. f_equal. lia.
  - destruct (IH _ H) as (j & Hj & <-). exists (S j). split; [lia|]. f_equal. lia.
Qed.

(** The blocks of an inode are those its file owns. *)
Lemma blocks_owned img fb ino f d b : file_ok img fb ino f -> inode_at img ino d -> b ∈ blocks_of img d -> b ∈ f_own f.
Proof.
  intros (addrs & (l & Hl & Hd) & [Ha _ _ _] & _) (l' & Hl' & Hd') Hb.
  assert (d_addrs d = addrs) as Ed by (rewrite Hl in Hl'; injection Hl' as <-; rewrite <- Hd', Hd; done). unfold blocks_of in Hb. rewrite Ed in Hb.
  apply list_elem_of_filter in Hb as [Hb0 Hb]. destruct Ha as [H1 H2 H3 H4 H5 H6]. apply elem_owned.
  apply elem_of_app in Hb as [Hb|Hb].
  - apply list_elem_of_lookup_1 in Hb as [i Hi]. pose proof (lookup_lt_Some _ _ _ Hi). destruct (decide (i < 12)%nat) as [Hlt|].
    + left. specialize (H3 i Hlt). rewrite nth_lookup, Hi in H3. cbn in H3. destruct (f_bl f !! i) as [y|] eqn:Ey; cbn in H3; [|done].
      subst y. by eapply list_elem_of_lookup_2.
    + right. assert (i = 12)%nat as -> by lia. rewrite nth_lookup, Hi in H4. cbn in H4. destruct (f_ib f) as [y|]; cbn in H4; congruence.
  - rewrite H4 in Hb. destruct (f_ib f) as [x|]; cbn [default from_option id] in Hb.
    + left. destruct (H6 x eq_refl) as (_ & ind & Hind & _ & Hw). rewrite Hind in Hb. destruct (decide (x = 0)); [by apply not_elem_of_nil in Hb|].
      destruct (elem_get_words _ _ _ _ Hb) as (j & Hj & E). cbn [Nat.add] in E. rewrite Hw in E by done.
      destruct (f_bl f !! (12 + j)%nat) as [y|] eqn:Ey; cbn in E; [|done]. subst y. by eapply list_elem_of_lookup_2.
    + destruct (sector img 0); [rewrite decide_True in Hb by done|]; by apply not_elem_of_nil in Hb.
Qed.

(** ** Property *)

(** The first two entries of the root directory. *)
Definition dots : list Z := dirent ROOTINO (bstrncpy DIRSIZ (str ".")) ++ dirent ROOTINO (bstrncpy DIRSIZ (str "..")).

(** What an image of the files [xs] is: the kernel reads the superblock, the root
    directory and each file; no block belongs to two files; the free map has the
    blocks in use and no other. *)
Record image_of (img : list (list Z)) (xs : list (list Z * list Z)) : Prop := {
  im_length : length img = Z.to_nat FSSIZE;
  im_super : sector img 1 = Some (put_sb the_sb zeroes);
  im_root : let dir := dots ++ entries 2 xs in holds_file img ROOTINO T_DIR ((len dir / BSIZE + 1) * BSIZE) dir;
  im_files : forall k x, xs !! k = Some x -> holds_file img (2 + Z.of_nat k) T_FILE (len x.2) x.2;
  im_apart : forall i j d d' b, 1 <= i <= 1 + len xs -> 1 <= j <= 1 + len xs -> inode_at img i d -> inode_at img j d' ->
    b ∈ blocks_of img d -> b ∈ blocks_of img d' -> i = j;
  im_bitmap : exists fb bm, 46 <= fb <= FSSIZE /\ sector img 45 = Some bm /\
    (forall b, 0 <= b < FSSIZE -> map_bit bm b = (b <? fb)) /\
    forall i d b, 1 <= i <= 1 + len xs -> inode_at img i d -> b ∈ blocks_of img d -> 46 <= b < fb;
}.

Lemma built_image c root gs xs bm : built c (root :: gs) -> f_type root = T_DIR ->
  f_data root = dots ++ entries 2 xs -> f_size root = (len (f_data root) / BSIZE + 1) * BSIZE -> Forall2 is_source xs gs ->
  sector (co_img c) 45 = Some bm -> (forall b, 0 <= b < FSSIZE -> map_bit bm b = (b <? mk_freeblock (co_mk c))) -> image_of (co_img c) xs.
Proof.
  intros [H1 H2 H3 H4 H5 H6 H7 H8] Ht Hd Hs Hgs Hbm Hbits. pose proof (Forall2_length _ _ _ Hgs) as Hlen.
  assert (forall i, 1 <= i <= 1 + len xs -> exists f, (root :: gs) !! Z.to_nat (i - 1) = Some f /\ file_ok (co_img c) (mk_freeblock (co_mk c)) i f) as Hf.
  { intros i Hi. destruct (lookup_lt_is_Some_2 (root :: gs) (Z.to_nat (i - 1))) as [f Hf]; [cbn; lia|]. exists f. split; [done|].
    specialize (H6 _ _ Hf). by replace (1 + Z.of_nat (Z.to_nat (i - 1))) with i in H6 by lia. }
  constructor.
  - apply H5.
  - done.
  - cbv zeta. rewrite <- Hd, <- Ht, <- Hs. apply (file_held _ (mk_freeblock (co_mk c))). apply (H6 0%nat root eq_refl).
  - intros k x Hx. destruct (Forall2_lookup_l _ _ _ _ _ Hgs Hx) as (f & Hk & Hft & Hfz & Hfd). rewrite <- Hft, <- Hfz, <- Hfd.
    apply (file_held _ (mk_freeblock (co_mk c))). specialize (H6 (S k) f Hk). by replace (1 + Z.of_nat (S k)) with (2 + Z.of_nat k) in H6 by lia.
  - intros i j d d' b Hi Hj Hdi Hdj Hb Hb'. destruct (Hf i Hi) as (f & Ef & Hfi). destruct (Hf j Hj) as (g & Eg & Hfj).
    pose proof (H7 _ _ _ _ b Ef Eg (blocks_owned _ _ _ _ _ _ Hfi Hdi Hb) (blocks_owned _ _ _ _ _ _ Hfj Hdj Hb')). lia.
  - exists (mk_freeblock (co_mk c)), bm. split_and!; [apply H5|apply H5|done|done|]. intros i d b Hi Hdi Hb.
    destruct (Hf i Hi) as (f & _ & Hfi). eapply own_range; [exact Hfi|]. by eapply blocks_owned.
Qed.

(** The image is blank but for the superblock. *)
Lemma layout_ok {A} src cur image (k : M host A) a c' :
  runs k (mkcore (mkmkfs 3 the_sb 1 46) (put_sector 1 (put_sb the_sb zeroes) (replicate (Z.to_nat FSSIZE) zeroes)) src cur) a c' ->
  runs (fd <- h_open image O_IMAGE ;;
        lmod mkl (fun g => g <| mk_fsfd := fd |>) ;;
        if fd <? 0 then die image else
        lmod mkl (fun g => g <| mk_sb := new_sb |>) ;;
        h_fprintf 1 ("nmeta %d (boot, super, log blocks %u inode blocks %u, bitmap blocks %u) blocks %d total %d" ++ nl)
          [AInt nmeta; AInt nlog; AInt ninodeblocks; AInt nbitmap; AInt nblocks; AInt FSSIZE] ;;
        lmod mkl (fun g => g <| mk_freeblock := nmeta |>) ;;
        for_each (seq 0 (Z.to_nat FSSIZE)) (fun i => wsect mkl (Z.of_nat i) zeroes) ;;
        wsect mkl 1 (put_sb new_sb zeroes) ;;
        k) (mkcore globals [] src cur) a c'.
Proof.
  intros Hk. apply (runs_bind _ _ _ 3 (mkcore globals [] src cur)); [intros pos; exists 0; reflexivity|]. eapply runs_bind; [apply runs_lmod|]. cbn [Z.ltb Z.compare].
  eapply runs_bind; [apply runs_lmod|]. eapply runs_bind; [apply runs_printf|]. eapply runs_bind; [apply runs_lmod|].
  change nmeta with 46. rewrite new_sb_eq.
  eapply runs_bind; [apply (clear_ok (Z.to_nat FSSIZE) _ []); [reflexivity|]; change (Z.to_nat FSSIZE) with 1000%nat; cbn [length]; lia|].
  eapply runs_bind; [apply (runs_wsect 1); [lia|apply length_put_sb]|]. exact Hk.
Qed.

(** C32: mkfs builds the file system the kernel expects.  Given host files that
    exist, have names without slashes after "user/", fit in a file and together fit on
    the disk, main() runs to its end whatever the sizes of the pieces read() gives,
    and the image holds the superblock, a root directory with ".", ".." and every
    file under the next inode number, the contents of each file where bmap() looks
    for them, no block shared, and a free map of exactly the blocks below the first
    free one.  The bytes of the root directory behind its last entry are not described. *)
Theorem mkfs_builds (fuel : nat) (image : list Z) (xs : list (list Z * list Z))
  (src : gmap (list Z) (list (list Z))) (cur : list (list Z)) (pos : Z)
  (Hsrc : Forall (source_ok src fuel) xs) (Hn : (length xs <= 198)%nat)
  (Hroom : 46 + cost (32 + 16 * len xs) + total xs <= FSSIZE) :
  returns (mkfs_main mkl fuel (image :: (fst <$> xs))) (mkhost pos (mkcore globals [] src cur))
    (fun _ h => image_of (co_img (ho_core h)) xs).
Proof.
  pose proof (total_nonneg xs) as Ht. pose proof (blank_built src cur) as Hb0.
  set (c0 := mkcore (mkmkfs 3 the_sb 1 46) _ src cur) in Hb0.
  destruct (ialloc_ok c0 [] T_DIR Hb0) as (c1 & Hr1 & Hb1 & [Hs1 _] & Hf1); [cbn; lia|unfold T_DIR; lia|]. cbn [app] in Hb1.
  set (dot := dirent ROOTINO (bstrncpy DIRSIZ (str "."))). set (dotdot := dirent ROOTINO (bstrncpy DIRSIZ (str ".."))).
  assert (length dot = 16%nat /\ length dotdot = 16%nat) as [L1 L2] by (split; apply length_dirent, length_bstrncpy).
  pose proof (cost_le 32 (32 + 16 * len xs) ltac:(lia)) as Hc. change (cost 32) with 1 in Hc. unfold FSSIZE in *.
  destruct (iappend_ok c1 _ 0 _ dot Hb1 eq_refl eq_refl) as (c2 & bl2 & ib2 & Hr2 & Hb2 & [Hs2 _] & Hf2).
  { cbn [f_data length]. rewrite L1. done. }
  { cbn [f_data length]. rewrite L1, Hf1. change (mk_freeblock (co_mk c0)) with 46. change (cost (Z.of_nat 0 + Z.of_nat 16)) with 1. change (cost (Z.of_nat 0)) with 0. unfold FSSIZE. lia. }
  cbn [f_data f_type app] in Hb2. cbn [f_data length] in Hf2. rewrite L1, Hf1 in Hf2. change (_ + _ - _) with 47 in Hf2. change (<[0%nat := ?f]> [_]) with [f] in Hb2.
  destruct (iappend_ok c2 _ 0 _ dotdot Hb2 eq_refl eq_refl) as (c3 & bl3 & ib3 & Hr3 & Hb3 & [Hs3 _] & Hf3).
  { cbn [f_data]. rewrite L1, L2. done. }
  { cbn [f_data]. rewrite L1, L2, Hf2. change (cost (Z.of_nat 16 + Z.of_nat 16)) with 1. change (cost (Z.of_nat 16)) with 1. unfold FSSIZE. lia. }
  cbn [f_data f_type] in Hb3. cbn [f_data] in Hf3. rewrite L1, L2, Hf2 in Hf3. change (_ + _ - _) with 47 in Hf3. change (<[0%nat := ?f]> [_]) with [f] in Hb3.
  change (dot ++ dotdot) with dots in Hb3. assert (length dots = 32%nat) as Ld by (unfold dots; rewrite length_app; fold dot dotdot; lia).
  destruct (add_files_ok fuel xs c3 _ [] Hb3 eq_refl) as (c4 & root & gs & Hr4 & Hb4 & Hty & Hsz & Hda & Hgs).
  { cbn [f_data length]. rewrite Ld. done. }
  { cbn [length]. lia. }
  { by rewrite Hs3, Hs2, Hs1. }
  { cbn [f_data]. rewrite Ld, Hf3. change (Z.of_nat 32) with 32. change (cost 32) with 1. unfold FSSIZE. lia. }
  cbn [f_type f_data length app] in Hty, Hda, Hb4. change (2 + Z.of_nat 0) with 2 in Hda.
  destruct (fix_root_ok c4 root gs Hb4 Hsz) as (c5 & Hr5 & Hb5 & Hf5).
  destruct (balloc_ok c5 _ Hb5) as (c6 & Hr6 & Hb6 & Hf6 & bm & Hbm & Hbits). rewrite <- Hf6 in Hbits.
  pose proof (built_image c6 _ gs xs bm Hb6 Hty Hda eq_refl Hgs Hbm Hbits) as Him.
  assert (runs (mkfs_main mkl fuel (image :: (fst <$> xs))) (mkcore globals [] src cur) tt c6) as Hrun.
  { unfold mkfs_main. eapply runs_bind; [by apply runs_assert|]. eapply runs_bind; [by apply runs_assert|].
    apply layout_ok. eapply runs_bind; [exact Hr1|]. eapply runs_bind; [by apply runs_assert|].
    eapply runs_bind; [exact Hr2|]. eapply runs_bind; [exact Hr3|]. eapply runs_bind; [exact Hr4|].
    eapply runs_bind; [exact Hr5|]. eapply runs_bind; [apply runs_lread|]. exact Hr6. }
  destruct (Hrun pos) as [pos' E]. unfold returns. rewrite E. exact Him.
Qed.

(** ** Witness *)

Definition wit_xs : list (list Z * list Z) := [(str "user/_cat", str "binary"); (str "README", [])].
Definition wit_src : gmap (list Z) (list (list Z)) := <[str "user/_cat" := [str "bin"; str "ary"]]> {[str "README" := []]}.

Lemma mkfs_builds_witness :
  returns (mkfs_main mkl 10 [str "fs.img"; str "user/_cat"; str "README"]) (mkhost 0 (mkcore globals [] wit_src []))
    (fun _ h => image_of (co_img (ho_core h)) wit_xs).
Proof.
  apply (mkfs_builds 10 (str "fs.img") wit_xs wit_src [] 0); [|cbn; lia|vm_compute; congruence].
  repeat apply Forall_cons_2; [| |apply Forall_nil_2].
  - split; [apply (bool_decide_unpack _); by vm_compute|]. split; [vm_compute; congruence|]. split; [cbn; lia|].
    exists [str "bin"; str "ary"]. split_and!; [by vm_compute|by repeat constructor|done].
  - split; [apply (bool_decide_unpack _); by vm_compute|]. split; [vm_compute; congruence|]. split; [cbn; lia|].
    exists []. split_and!; [by vm_compute|constructor|done].
Defined.
