(* ===== verification/Machine.v ===== *)
(** * Machine: a user program over the kernel's file layer

    Everything between the system calls of kernel/sysfile.c and the disk, for one process: the
    calls ([Sysfile]) over open files ([File]), inodes ([Fs]), the log ([Log]) and the buffer
    cache ([Bio]), on a disk that holds the image [Mkfs] builds.  [machine_usys] makes of it
    the system calls that the programs of user/ make ([Usys]); fork() fails. *)
From S2P Require Import Ulib Utests Mkfs Prelude Spinlock Mem Os Sleeplock Pipe Bio Log Fs File Sysfile.

(** A system call's argument: a number, or a string in user memory *)
Inductive uarg : Type := UInt (x : Z) | UStr (s : list Z).

Record machine : Type := mkmachine {
  ma_cpu : cpu;
  ma_mem : mem;
  ma_disk : gmap Z (list Z);
  ma_bcache : bcache;
  ma_log : log;
  ma_itable : itable;
  ma_ftable : ftable;
  ma_pipes : gmap Z pipe;
  ma_page : Z;                 (* the next page kalloc() gives *)
  ma_cwd : option nat;
  ma_ofile : list (option nat);
  ma_args : list uarg;
  ma_out : list Z;             (* what the console shows *)
}.
#[export] Instance eta_machine : Settable machine := fun s =>
  mkmachine (ma_cpu s) (ma_mem s) (ma_disk s) (ma_bcache s) (ma_log s) (ma_itable s) (ma_ftable s) (ma_pipes s) (ma_page s)
    (ma_cwd s) (ma_ofile s) (ma_args s) (ma_out s).

(** ** The interfaces of the file layer *)

#[export] Instance machine_os : OS machine := {|
  os_cpu := field ma_cpu;
  os_sleep := fun _ _ => fail EHang;
  os_wakeup := fun _ => ret tt;
  os_pid := ret 1;
  os_killed := ret false;
  os_cwd := gets ma_cwd;
  os_copyout := fun _ dst l => modify (fun s => s <| ma_mem := put_bytes dst l (ma_mem s) |>) ;; ret 0;
  os_copyin := fun _ src old => s <- get ;; ret (0, bytes_at src (length old) (ma_mem s));
  os_kread := fun a n => gets (fun s => bytes_at a n (ma_mem s));
  os_kwrite := fun a l => modify (fun s => s <| ma_mem := put_bytes a l (ma_mem s) |>);
  os_kalloc := (a <- gets ma_page ;; modify (fun s => s <| ma_page := a + 4096 |>) ;; ret a);
  os_kfree := fun _ => ret tt;
|}.

Definition bcl : lens machine bcache := field ma_bcache.

(** The disk: a block that was never written is zero. *)
#[export] Instance machine_disk : Disk machine := fun b write =>
  x <- lread (Bio.bufl bcl b) ;;
  if write then modify (fun s => s <| ma_disk := <[b_blockno x := b_data x]> (ma_disk s) |>)
  else
    d <- gets (fun s => default (replicate (Z.to_nat BSIZE) 0) (ma_disk s !! b_blockno x)) ;;
    lmod (Bio.bufl bcl b) (fun x => x <| b_data := d |>).

#[export] Instance machine_bufs : Bufs machine := bufs_impl bcl (fun _ => 0) 1.
#[export] Instance machine_txn : Txn machine := txn_log (field ma_log) 0 1.

Definition console_major : Z := 1.
#[export] Instance machine_devsw : Devsw machine := {|
  devsw_read := fun _ => None;
  devsw_write := fun d => if d =? console_major then
    Some (fun a n => modify (fun s => s <| ma_out := ma_out s ++ bytes_at a (Z.to_nat n) (ma_mem s) |>) ;; ret n) else None;
|}.

#[export] Instance machine_args : Sysargs machine := {|
  arg_int := fun n => l <- gets ma_args ;; a <- aget l n ;; match a with UInt x => ret x | UStr _ => fail EUndef end;
  arg_addr := fun n => l <- gets ma_args ;; a <- aget l n ;; match a with UInt x => ret x | UStr _ => fail EUndef end;
  arg_str := fun n => l <- gets ma_args ;; a <- aget l n ;;
    match a with UStr s => ret (if Z.of_nat (length s) <? MAXPATH then Some s else None) | UInt _ => fail EUndef end;
  get_ofile := fun fd => l <- gets ma_ofile ;; aget l fd;
  set_ofile := fun fd f => l <- gets ma_ofile ;; l <- aset l fd f ;; modify (fun s => s <| ma_ofile := l |>);
  set_cwd := fun ip => modify (fun s => s <| ma_cwd := ip |>);
|}.

Definition itl : lens machine itable := field ma_itable.
Definition ftl : lens machine ftable := field ma_ftable.
Definition zero_pipe : pipe := mkpipe (mkspinlock false "" None) (replicate (Z.to_nat PIPESIZE) 0) 0 0 false false.
Definition pipel (a : Z) : lens machine pipe :=
  Lens (fun s => default zero_pipe (ma_pipes s !! a)) (fun p s => s <| ma_pipes := <[a := p]> (ma_pipes s) |>).

(** ** System calls *)

(** Where the kernel's own objects are, and the caller's buffer *)
Definition de_addr : Z := 0x1000.
Definition user_buf : Z := 0x10000.
Definition inode_addr (i : nat) : Z := 0x2000 + Z.of_nat i.

Definition sysc {A} (args : list uarg) (m : M machine A) : M machine A := modify (fun s => s <| ma_args := args |>) ;; m.

Notation kopen := (sys_open ftl itl pipel inode_addr de_addr 1).

(** A process that has exited *)
Definition exited {A} (status : Z) : M machine A := fail (EPanic (if status =? 0 then "exit(0)" else "exit(1)")).

Definition stat_of (l : list Z) : ustat :=
  mkustat (get_le 4 0 l) (get_le 4 4 l) (get_le 2 8 l) (get_le 2 10 l) (get_le 8 16 l).

#[export] Instance machine_usys : Usys machine := {|
  u_exit := fun A n => exited n;
  u_fork := ret (-1);
  u_wait := ret (-1);
  u_wait_status := ret (-1, None);
  u_waitx := ret (-1, 0, 0);
  u_getpid := ret 1;
  u_kill := fun _ => ret (-1);
  u_exec := fun _ _ => ret (-1);
  u_sbrk := fun _ => ret (-1);
  u_sleep := fun _ => ret 0;
  u_trace := fun _ => ret 0;
  u_set_priority := fun _ _ => ret (-1);
  u_pipe :=
    r <- sysc [UInt user_buf] (sys_pipe ftl itl pipel inode_addr 1) ;;
    l <- gets (fun s => bytes_at user_buf 8 (ma_mem s)) ;;
    ret (r, get_le 4 0 l, get_le 4 4 l);
  u_write := fun fd l =>
    modify (fun s => s <| ma_mem := put_bytes user_buf l (ma_mem s) |>) ;;
    sysc [UInt fd; UInt user_buf; UInt (Z.of_nat (length l))] (sys_write ftl itl pipel inode_addr 1);
  u_read := fun fd n =>
    r <- sysc [UInt fd; UInt user_buf; UInt n] (sys_read ftl itl pipel inode_addr 1) ;;
    l <- gets (fun s => bytes_at user_buf (Z.to_nat r) (ma_mem s)) ;;
    ret (r, l);
  u_close := fun fd => sysc [UInt fd] (sys_close ftl itl pipel inode_addr 1);
  u_open := fun path mode => sysc [UStr path; UInt mode] kopen;
  u_mknod := fun path major minor => sysc [UStr path; UInt major; UInt minor] (sys_mknod itl inode_addr de_addr 1);
  u_unlink := fun path => sysc [UStr path] (sys_unlink itl inode_addr de_addr 1);
  u_fstat := fun fd =>
    r <- sysc [UInt fd; UInt user_buf] (sys_fstat ftl itl inode_addr 1) ;;
    l <- gets (fun s => bytes_at user_buf 24 (ma_mem s)) ;;
    ret (r, stat_of l);
  u_link := fun old new => sysc [UStr old; UStr new] (sys_link itl inode_addr de_addr 1);
  u_mkdir := fun path => sysc [UStr path] (sys_mkdir itl inode_addr de_addr 1);
  u_chdir := fun path => sysc [UStr path] (sys_chdir itl inode_addr de_addr 1);
  u_dup := fun fd => sysc [UInt fd] (sys_dup ftl);
|}.

(** ** From the image to the first process *)

Definition junk : list Z := replicate 16 0.

(** The image of four files *)
Definition image_files : gmap (list Z) (list (list Z)) :=
  list_to_map [(str "README", [str "xv6 is a re-implementation"]); (str "user/_init", [str "init"]); (str "user/_echo", [str "echo"]); (str "user/_cat", [str "cat"])].
Definition image : list (list Z) :=
  match mkfs_main mkl 3 [str "fs.img"; str "README"; str "user/_init"; str "user/_echo"; str "user/_cat"]
    (mkhost 0 (mkcore globals [] image_files [])) with
  | Ret _ h => co_img (ho_core h)
  | Fail _ => []
  end.

Definition off : machine :=
  mkmachine (mkcpu 0 None 0 false 0) ∅ (list_to_map (imap (fun i b => (Z.of_nat i, b)) image))
    (mkbcache (initlock "") (replicate (S NBUF) zero_buf)) (mklog (initlock "") 0 0 0 false 0 0 (replicate 30 0))
    (mkitable (initlock "") (replicate NINODE zero_inode) (mksuperblock 0 0 0 0 0 0 0 0))
    (mkftable (initlock "") (replicate NFILE zero_file)) ∅ 0x100000 None (replicate NOFILE None) [] [].

(** What main(), userinit() and forkret() do for the file layer, and what init does for its
    descriptors *)
Definition boot_files : M machine unit :=
  binit bcl ;;
  iinit itl ;;
  fileinit ftl ;;
  root <- Fs.namei itl inode_addr de_addr 1 (str "/") ;;
  modify (fun s => s <| ma_cwd := root |>) ;;
  fsinit itl ROOTDEV ;;
  u_mknod (str "console") console_major 0 ;;
  u_open (str "console") O_RDWR ;;
  u_dup 0 ;; u_dup 0 ;; ret tt.

(** ** The tests of usertests that need one process only *)

Definition file_tests : list (string * (list Z -> M machine unit)) :=
  [("opentest", opentest junk); ("dirtest", dirtest junk); ("iput", iputtest junk); ("rmdot", rmdot junk);
   ("dirfile", dirfile junk); ("truncate2", truncate2 junk); ("truncate1", truncate1 junk);
   ("linktest", linktest junk); ("unlinkread", unlinkread junk); ("fourteen", fourteen junk); ("subdir", subdir junk)]%string.

(** The bitmap, how often each entry of the table of inodes is referenced, and which descriptors
    are open *)
Definition in_use (s : machine) : option (list Z) * list Z * list (option nat) :=
  (ma_disk s !! 45, i_ref <$> it_inode (ma_itable s), ma_ofile s).

(** From a machine that has booted, the test returns, prints nothing, and leaves in use what was
    in use before. *)
Definition passes (s : machine) (test : M machine unit) : bool :=
  match test s with
  | Ret _ t => bool_decide (ma_out t = ma_out s /\ in_use t = in_use s)
  | Fail _ => false
  end.

(** The tests of usertests that need one process only pass on the whole file layer, run from
    the image that mkfs builds: opening, creating, linking, unlinking, truncating, reading and
    writing through descriptors, the log and the buffer cache.  Each test returns, prints nothing,
    and leaves no block, no entry of the table of inodes and no descriptor in use. *)
Theorem file_tests_pass : returns boot_files off (fun _ s => Forall (fun t => passes s (t.2 (str t.1)) = true) file_tests).
Proof.
  assert (match boot_files off with Ret _ s => forallb (fun t => passes s (t.2 (str t.1))) file_tests | Fail _ => false end = true) as H by (by vm_compute).
  unfold returns. destruct (boot_files off) as [u s|e]; [|done].
  rewrite forallb_forall in H. apply Forall_forall. intros t Ht. apply H. by apply list_elem_of_In.
Qed.
