(* ===== verification/Reverse.v ===== *)
(** * Reverse: the programs of Assignment-1

    Models Assignment-1/1.c (a file reversed), 2.c (a part of a file reversed), 3.c
    (the permissions of the results) and gen.c (a large input), over an interface
    [Unix] of the host's system calls.  Paths are relative to the repository's root. *)
From S2P Require Import Prelude.

(** ** The host *)

Definition SEEK_SET : Z := 0.
Definition SEEK_CUR : Z := 1.
Definition SEEK_END : Z := 2.

Class Unix (S : Type) := {
  x_open : list Z -> Z -> M S Z;                (* path, flags *)
  x_mkdir : list Z -> M S Z;
  x_lseek : Z -> Z -> Z -> M S Z;               (* fd, offset, whence *)
  x_read : Z -> Z -> M S (Z * list Z);          (* fd, n: result, bytes stored *)
  x_write : Z -> list Z -> M S Z;
  x_close : Z -> M S Z;
  x_stat : list Z -> M S (Z * Z);               (* result, st_mode *)
  x_perror : M S unit;                          (* perror("Error") *)
  x_progress : Z -> Z -> M S unit;              (* the progress line: char_read, length *)
  x_newline : M S unit;                         (* printf("\n") *)
}.

(** A size_t taken for an off_t *)
Definition i64 (x : Z) : Z := (x + 2 ^ 63) mod 2 ^ 64 - 2 ^ 63.

Abbreviation cstr := bytes_of_string.

(** O_WRONLY | O_CREAT of the host *)
Definition OUT_FLAGS : Z := 0x41.

(** The index after the last '/' of argv[1] *)
Fixpoint base_index (i last : nat) (s : list Z) : nat :=
  match s with [] => last | c :: s' => base_index (S i) (if c =? 47 then S i else last) s' end.

(** sprintf(output_name, "Assignment/1_%s", argv[1]+last_index+1), into 100 bytes *)
Definition output_name {S} (prefix : string) (arg : list Z) : M S (list Z) :=
  let name := cstr prefix ++ drop (base_index 0 0 arg) arg in
  if 100 <=? Z.of_nat (length name) then fail EUndef else ret name.

(** char msg[] of gen.c *)
Definition msg : list Z := concat (replicate 33 (cstr "word_splits_apart_with_thunder1")).

Section Reverse.
Context {S : Type} `{!Unix S}.

(** while(char_read<length): the same loop in 1.c and 2.c; size is 1024.  The
    comparison with 0 is between values of type size_t. *)
Fixpoint reverse_loop (k : nat) (src dst length to_read char_read : Z) : M S unit :=
  if length <=? char_read then ret tt else
  match k with
  | O => fail EHang
  | Datatypes.S k' =>
      x_progress char_read length ;;
      r <- x_read src to_read ;;
      let bytes_read := i32 r.1 in
      if bytes_read <? 0 then fail EUndef else
      x_write dst (rev r.2) ;;
      cur <- x_lseek src 0 SEEK_CUR ;;
      to_read <- (if u64 (cur - bytes_read - 1024) <? 0 then
                    cur <- x_lseek src 0 SEEK_CUR ;;
                    x_lseek src 0 SEEK_CUR ;;
                    ret (i32 (cur - bytes_read))
                  else
                    x_lseek src (i64 (- bytes_read - 1024)) SEEK_CUR ;;
                    ret 1024) ;;
      reverse_loop k' src dst length to_read (i32 (char_read + bytes_read))
  end.

(** main() of 1.c: the exit status *)
Definition reverse_main (fuel : nat) (args : list (list Z)) : M S Z :=
  match args with
  | [] => fail EUndef
  | arg :: _ =>
      src <- x_open arg 0 ;;
      if src =? -1 then x_perror ;; ret (-1) else
      name <- output_name "Assignment/1_" arg ;;
      x_mkdir (cstr "Assignment") ;;
      dst <- x_open name OUT_FLAGS ;;
      if dst =? -1 then x_perror ;; ret (-1) else
      e <- x_lseek src 0 SEEK_END ;;
      let length := i32 e in
      to_read <- (if u64 length <? 1024 then x_lseek src (- length) SEEK_END ;; ret length
                  else x_lseek src (i64 (-1024)) SEEK_END ;; ret 1024) ;;
      x_lseek dst 0 SEEK_SET ;;
      reverse_loop fuel src dst length to_read 0 ;;
      x_newline ;;
      x_close src ;;
      x_close dst ;;
      ret 0
  end.

(** main() of 2.c *)
Definition part_main (fuel : nat) (args : list (list Z)) : M S Z :=
  match args with
  | arg :: arg2 :: arg3 :: _ =>
      src <- x_open arg 0 ;;
      if src =? -1 then x_perror ;; ret (-1) else
      name <- output_name "Assignment/2_" arg ;;
      x_mkdir (cstr "Assignment") ;;
      dst <- x_open name OUT_FLAGS ;;
      if dst =? -1 then x_perror ;; ret (-1) else
      e <- x_lseek src 0 SEEK_END ;;
      let a := nth 0 arg2 0 - 48 in
      let b := nth 0 arg3 0 - 48 in
      if a =? 0 then fail EUndef else
      let length := Z.quot (i32 e) a in
      if negb (i32 (b * length) =? b * length) then fail EUndef else
      x_lseek src (b * length) SEEK_SET ;;
      to_read <- (if u64 length <? 1024 then x_lseek src (- length) SEEK_CUR ;; ret length
                  else x_lseek src (i64 (-1024)) SEEK_CUR ;; ret 1024) ;;
      x_lseek dst 0 SEEK_SET ;;
      reverse_loop fuel src dst length to_read 0 ;;
      x_newline ;;
      x_close src ;;
      x_close dst ;;
      ret 0
  | _ => fail EUndef
  end.

(** main() of gen.c *)
Definition gen_main : M S unit :=
  dst <- x_open (cstr "input.txt") OUT_FLAGS ;;
  for_each (seq 0 (1024 * 1024)) (fun _ => x_write dst (take 1023 msg) ;; ret tt).

(** ** 3.c *)

(** write(1, s, n) of a string constant: at most its bytes and its NUL *)
Definition say (s : string) (n : nat) : M S unit :=
  let l := cstr s ++ [0] in
  if (length l <? n)%nat then fail EUndef else x_write 1 (take n l) ;; ret tt.

Definition yes_no (b : bool) : M S unit := if b then say ("Yes" ++ nl) 5 else say ("No" ++ nl) 4.

(** st_mode & bit, for the nine bits S_IRUSR .. S_IXOTH, with the length each label is
    written with *)
Definition labels (what : string) : list (string * Z) :=
  [("User has read permission on " ++ what ++ ": ", 8); ("User has write permission on " ++ what ++ ": ", 7);
   ("User has execute permission on " ++ what ++ ": ", 6); ("Group has read permission on " ++ what ++ ": ", 5);
   ("Group has write permission on " ++ what ++ ": ", 4); ("Group has execute permission on " ++ what ++ ": ", 3);
   ("Others has read permission on " ++ what ++ ": ", 2); ("Others has write permission on " ++ what ++ ": ", 1);
   ("Others has execute permission on " ++ what ++ ": ", 0)]%string.

Fixpoint permissions (ls : list (string * Z)) (ns : list nat) (mode : Z) : M S unit :=
  match ls, ns with
  | (s, bit) :: ls', n :: ns' => say s n ;; yes_no (Z.testbit mode bit) ;; permissions ls' ns' mode
  | _, _ => ret tt
  end.

Definition file_lengths : list nat := [44; 45; 47; 45; 46; 48; 46; 47; 49]%nat.
Definition dir_lengths : list nat := [40; 41; 43; 41; 42; 44; 42; 43; 45]%nat.

(** One of the three reports; [Some status] when main() returns from it. *)
Definition report (path : list Z) (what : string) (ns : list nat) : M S (option Z) :=
  r <- x_stat path ;;
  if r.1 =? -1 then x_perror ;; ret (Some (-1))
  else permissions (labels what) ns r.2 ;; ret None.

(** main(): [err = -1] assigns, and is true *)
Definition perms_main (args : list (list Z)) : M S Z :=
  match args with
  | [] => fail EUndef
  | arg :: _ =>
      x_stat (cstr "Assignment") ;;
      say ("Directory is created: Yes" ++ nl) 26 ;;
      name1 <- output_name "Assignment/1_" arg ;;
      r <- report name1 "output_file_1" file_lengths ;;
      match r with Some e => ret e | None =>
      name2 <- output_name "Assignment/2_" arg ;;
      r <- report name2 "output_file_2" file_lengths ;;
      match r with Some e => ret e | None =>
      r <- report (cstr "Assignment") "directory" dir_lengths ;;
      match r with Some e => ret e | None => ret 0 end end end
  end.
End Reverse.

(** ** Files *)

(** A source and a destination, with their positions; standard output. *)
Record files : Type := mkfiles { fl_src : list Z; fl_pos : Z; fl_dst : list Z; fl_dpos : Z; fl_out : list Z }.

Definition len (l : list Z) : Z := Z.of_nat (length l).

(** A file after [l] was written at [pos]. *)
Definition overwritten (pos : Z) (l d : list Z) : list Z :=
  take (Z.to_nat pos) d ++ l ++ drop (Z.to_nat pos + length l) d.

Definition seek (pos size off whence : Z) : Z :=
  let p := if whence =? SEEK_SET then off else if whence =? SEEK_CUR then pos + off else size + off in
  if p <? 0 then -1 else p.

#[export] Instance unix_files : Unix files := {|
  x_open := fun _ flags h =>
    if flags =? OUT_FLAGS then Ret 4 (mkfiles (fl_src h) (fl_pos h) (fl_dst h) 0 (fl_out h))
    else Ret 3 (mkfiles (fl_src h) 0 (fl_dst h) (fl_dpos h) (fl_out h));
  x_mkdir := fun _ => ret 0;
  x_lseek := fun fd off whence h =>
    if fd =? 3 then let p := seek (fl_pos h) (len (fl_src h)) off whence in
      Ret p (mkfiles (fl_src h) (if p <? 0 then fl_pos h else p) (fl_dst h) (fl_dpos h) (fl_out h))
    else let p := seek (fl_dpos h) (len (fl_dst h)) off whence in
      Ret p (mkfiles (fl_src h) (fl_pos h) (fl_dst h) (if p <? 0 then fl_dpos h else p) (fl_out h));
  x_read := fun _ n h =>
    let l := take (Z.to_nat n) (drop (Z.to_nat (fl_pos h)) (fl_src h)) in
    Ret (len l, l) (mkfiles (fl_src h) (fl_pos h + len l) (fl_dst h) (fl_dpos h) (fl_out h));
  x_write := fun fd l h =>
    if fd =? 1 then Ret (len l) (mkfiles (fl_src h) (fl_pos h) (fl_dst h) (fl_dpos h) (fl_out h ++ l))
    else Ret (len l) (mkfiles (fl_src h) (fl_pos h) (overwritten (fl_dpos h) l (fl_dst h)) (fl_dpos h + len l) (fl_out h));
  x_close := fun _ => ret 0;
  x_stat := fun _ => ret (-1, 0);
  x_perror := ret tt;
  x_progress := fun _ _ => ret tt;
  x_newline := ret tt;
|}.

(** The destination held [d], [w] was written so far. *)
Definition progress (s : list Z) (pos : Z) (d w o : list Z) : files := mkfiles s pos (w ++ drop (length w) d) (len w) o.

Lemma overwritten_app w l d : overwritten (len w) l (w ++ drop (length w) d) = (w ++ l) ++ drop (length (w ++ l)) d.
Proof.
  unfold overwritten, len. rewrite Nat2Z.id, take_app_length, <- app_assoc. do 2 f_equal.
  rewrite drop_app_ge by lia. rewrite drop_drop, length_app. f_equal. lia.
Qed.

(** The bytes [p, p + n). *)
Definition slice (p n : Z) (s : list Z) : list Z := take (Z.to_nat n) (drop (Z.to_nat p) s).

Lemma length_slice p n s : 0 <= p -> 0 <= n -> p + n <= len s -> len (slice p n s) = n.
Proof. unfold slice, len. intros. rewrite length_take, length_drop. lia. Qed.

Lemma slice_app p n m s : 0 <= p -> 0 <= n -> 0 <= m -> slice p n s ++ slice (p + n) m s = slice p (n + m) s.
Proof.
  intros Hp Hn Hm. unfold slice. rewrite Z2Nat.inj_add by done. rewrite <- drop_drop.
  rewrite (Z2Nat.inj_add n m) by done. apply take_take_drop.
Qed.

Lemma i64_neg x : 0 <= x < 2 ^ 32 -> i64 (- x) = - x.
Proof. intros. unfold i64. zmod. Qed.

Lemma seek_cur pos size off : seek pos size off SEEK_CUR = if pos + off <? 0 then -1 else pos + off.
Proof. done. Qed.

Lemma seek_here pos size : 0 <= pos -> seek pos size 0 SEEK_CUR = pos.
Proof. intros. rewrite seek_cur. zcase. Qed.

(** One round of the loop, at [pos]: what it reads is [l]. *)
Lemma reverse_round k s pos d w o n c L : c < L -> 0 <= pos -> 0 <= n <= 1024 ->
  let l := slice pos n s in
  reverse_loop (S k) 3 4 L n c (progress s pos d w o) =
  reverse_loop k 3 4 L 1024 (i32 (c + len l)) (progress s (if pos <? 1024 then pos + len l else pos - 1024) d (w ++ rev l) o).
Proof.
  intros Hc Hp Hn l. cbn [reverse_loop]. destruct (Z.leb_spec L c); [lia|].
  assert (0 <= len l <= n) as Hl by (unfold l, slice, len; rewrite length_take; lia).
  erewrite bind_ret by done. erewrite bind_ret by done. cbn [fst snd fl_src fl_pos progress]. fold (slice pos n s). fold l.
  assert (i32 (len l) = len l) as -> by (unfold i32; zmod). destruct (Z.ltb_spec (len l) 0); [lia|].
  erewrite bind_ret by done. erewrite bind_ret by done. cbn [fl_src fl_pos fl_dst fl_dpos fl_out].
  destruct (Z.ltb_spec (u64 (seek (pos + len l) (len s) 0 SEEK_CUR - len l - 1024)) 0) as [Hneg|_]; [unfold u64 in Hneg; zmod|].
  erewrite bind_ret.
  2: { erewrite bind_ret by done. reflexivity. }
  cbn [fl_src fl_pos fl_dst fl_dpos fl_out]. replace (- len l - 1024) with (- (len l + 1024)) by lia. rewrite i64_neg by lia.
  unfold progress. cbn [fl_src fl_pos fl_dst fl_dpos fl_out]. rewrite overwritten_app. f_equal. f_equal.
  - rewrite seek_here by lia. destruct (Z.ltb_spec (pos + len l) 0); [lia|]. rewrite seek_cur. zcase.
  - unfold len. rewrite length_app, length_rev. lia.
Qed.

(** [S j] rounds backwards from [e]. *)
Lemma reverse_rounds j k s d o L : forall e c w, L + 1024 < 2 ^ 31 -> 0 <= c -> c + 1024 * Z.of_nat j < L ->
  1024 * Z.of_nat (S j) <= e <= len s ->
  let p := e - 1024 * Z.of_nat (S j) in
  reverse_loop (S j + k) 3 4 L 1024 c (progress s (e - 1024) d w o) =
  reverse_loop k 3 4 L 1024 (c + 1024 * Z.of_nat (S j))
    (progress s (if p <? 1024 then p + 1024 else p - 1024) d (w ++ rev (slice p (1024 * Z.of_nat (S j)) s)) o).
Proof.
  induction j as [|j IH]; intros e c w HL Hc Hcl He p; cbn [Nat.add]; rewrite reverse_round by lia; rewrite length_slice by lia;
    (assert (i32 (c + 1024) = c + 1024) as -> by (unfold i32; zmod)).
  - unfold p. replace (1024 * Z.of_nat 1) with 1024 by lia. done.
  - destruct (Z.ltb_spec (e - 1024) 1024); [lia|].
    change (S (j + k)) with (S j + k)%nat. rewrite (IH (e - 1024) (c + 1024)) by lia. cbv zeta.
    replace (e - 1024 - 1024 * Z.of_nat (S j)) with p by lia. rewrite <- app_assoc, <- rev_app_distr.
    assert (slice p (1024 * Z.of_nat (S j)) s ++ slice (e - 1024) 1024 s = slice p (1024 * Z.of_nat (S (S j))) s) as ->.
    { replace (e - 1024) with (p + 1024 * Z.of_nat (S j)) by lia. rewrite slice_app by lia. f_equal. lia. }
    f_equal. lia.
Qed.

(** The loop is over. *)
Lemma reverse_done k src dst L n c h : L <= c -> reverse_loop k src dst L n c h = Ret tt h.
Proof. intros H. destruct k; cbn [reverse_loop]; destruct (Z.leb_spec L c); (done || lia). Qed.


(** ** What the loop writes *)

Lemma slice_drop p s : 0 <= p <= len s -> slice p (len s - p) s = drop (Z.to_nat p) s.
Proof. unfold slice, len. intros. apply take_ge. rewrite length_drop. lia. Qed.

Lemma slice_all s : slice 0 (len s) s = s.
Proof. unfold slice, len. rewrite Nat2Z.id. apply take_ge. done. Qed.

(** The whole file, when its length is at most 1024 or a multiple of 1024.  Otherwise
    the bytes before the last whole piece are missing and a piece comes twice. *)
Definition reversed (s : list Z) : list Z :=
  let r := len s mod 1024 in
  if (len s <=? 1024) || (r =? 0) then rev s
  else rev (drop (Z.to_nat r) s) ++ rev (slice (if len s <? 2048 then r else r + 1024) 1024 s).

Definition to_read_of (L : Z) : Z := if L <? 1024 then L else 1024.

Lemma reverse_loop_all fuel s d o : len s + 1024 < 2 ^ 31 -> (Z.to_nat (len s / 1024) + 3 <= fuel)%nat ->
  exists pos, reverse_loop fuel 3 4 (len s) (to_read_of (len s)) 0 (progress s (len s - to_read_of (len s)) d [] o) =
    Ret tt (progress s pos d (reversed s) o).
Proof.
  intros Hs Hf. unfold to_read_of, reversed. assert (0 <= len s) as H0 by (unfold len; lia). destruct (Z.ltb_spec (len s) 1024) as [Hlt|Hge].
  - destruct (Z.leb_spec (len s) 1024); [|lia]. cbn [orb]. rewrite Z.sub_diag. destruct (decide (len s = 0)) as [E|E].
    + rewrite reverse_done by lia. destruct s; [|unfold len in E; cbn in E; lia]. by eexists.
    + destruct fuel as [|fuel]; [lia|]. rewrite reverse_round by lia. rewrite slice_all.
      rewrite reverse_done by (unfold i32; zmod). by eexists.
  - set (j := (Z.to_nat (len s / 1024) - 1)%nat). set (r := len s mod 1024).
    assert (len s = 1024 * Z.of_nat (S j) + r /\ 0 <= r < 1024) as [El Hr] by (unfold j, r; zmod).
    replace fuel with (S j + (2 + (fuel - S j - 2)))%nat by (unfold j; lia).
    rewrite (reverse_rounds j _ s d o (len s) (len s) 0 []) by lia. cbv zeta. cbn [app].
    replace (len s - 1024 * Z.of_nat (S j)) with r by lia. destruct (Z.ltb_spec r 1024); [|lia].
    replace (1024 * Z.of_nat (S j)) with (len s - r) by lia. rewrite slice_drop by lia. rewrite Z.add_0_l.
    destruct (Z.eqb_spec r 0) as [E0|E0].
    + rewrite orb_true_r. rewrite E0. rewrite reverse_done by lia. by eexists.
    + rewrite orb_false_r. destruct (Z.leb_spec (len s) 1024); [lia|]. cbn [Nat.add]. rewrite reverse_round by lia.
      destruct (Z.ltb_spec (r + 1024) 1024); [lia|]. destruct (Z.ltb_spec (len s) 2048) as [Hl2|Hl2].
      * assert (r + 1024 = len s) as E1 by lia. rewrite E1. assert (slice (len s) 1024 s = []) as ->.
        { unfold slice. rewrite drop_ge by (unfold len; lia). apply take_nil. }
        cbn [rev length app]. rewrite app_nil_r. change (len []) with 0. rewrite Z.add_0_r.
        assert (i32 (len s - r) = len s - r) as -> by (unfold i32; zmod). replace (len s - 1024) with r by lia.
        rewrite reverse_round by lia. rewrite length_slice by lia. rewrite reverse_done by (unfold i32; zmod). by eexists.
      * rewrite length_slice by lia. rewrite reverse_done by (unfold i32; zmod). by eexists.
Qed.

Lemma output_name_ok {S} prefix arg (h : S) : Z.of_nat (length (cstr prefix ++ drop (base_index 0 0 arg) arg)) < 100 ->
  output_name prefix arg h = Ret (cstr prefix ++ drop (base_index 0 0 arg) arg) h.
Proof. intros H. unfold output_name. destruct (Z.leb_spec 100 (Z.of_nat (length (cstr prefix ++ drop (base_index 0 0 arg) arg)))); [lia|done]. Qed.

Lemma seek_end pos size off : 0 <= size + off -> seek pos size off SEEK_END = size + off.
Proof. intros. unfold seek. change (SEEK_END =? SEEK_SET) with false. change (SEEK_END =? SEEK_CUR) with false. cbv iota. zcase. Qed.

(** ** Properties *)

(** C34: main() of 1.c reverses a file whose length is at most 1024 or a multiple of 1024; of any
    other file it writes the part after the first [len mod 1024] bytes reversed and then
    1024 bytes of it again.  What an old result had beyond that stays.  The test that was to handle the last,
    shorter piece compares an unsigned value with 0. *)
Theorem reverse_main_exact (fuel : nat) (arg s d o : list Z) (p q : Z)
  (Hs : len s + 1024 < 2 ^ 31) (Hf : (Z.to_nat (len s / 1024) + 3 <= fuel)%nat)
  (Harg : Z.of_nat (length (cstr "Assignment/1_" ++ drop (base_index 0 0 arg) arg)) < 100) :
  returns (reverse_main fuel [arg]) (mkfiles s p d q o) (fun r h =>
    r = 0 /\ fl_dst h = reversed s ++ drop (length (reversed s)) d).
Proof.
  unfold reverse_main. apply returns_bind. eapply returns_intro; [done|]. cbn [Z.eqb Pos.eqb].
  apply returns_bind. eapply returns_intro; [by apply output_name_ok|].
  apply returns_bind. eapply returns_intro; [done|]. apply returns_bind. eapply returns_intro; [done|].
  apply returns_bind. eapply returns_intro; [done|]. cbn [fl_src fl_pos fl_dst fl_dpos fl_out].
  assert (0 <= len s) as H0 by (unfold len; lia).
  rewrite (seek_end _ (len s)) by lia. rewrite Z.add_0_r. destruct (Z.ltb_spec (len s) 0); [lia|].
  assert (i32 (len s) = len s) as -> by (unfold i32; zmod). assert (u64 (len s) = len s) as -> by (unfold u64; zmod).
  destruct (reverse_loop_all fuel s d o Hs Hf) as [pos E]. apply returns_bind.
  eapply (returns_intro _ _ (to_read_of (len s)) (mkfiles s (len s - to_read_of (len s)) d 0 o)).
  { unfold to_read_of. destruct (Z.ltb_spec (len s) 1024) as [Hlt|Hge].
    - erewrite bind_ret by done. unfold ret. cbn [fl_src fl_pos fl_dst fl_dpos fl_out]. rewrite seek_end by lia.
      rewrite Z.add_opp_diag_r, Z.sub_diag. done.
    - erewrite bind_ret by done. unfold ret. cbn [fl_src fl_pos fl_dst fl_dpos fl_out]. change (i64 (-1024)) with (-1024). rewrite seek_end by lia.
      destruct (Z.ltb_spec (len s + -1024) 0); [lia|]. do 2 f_equal. }
  apply returns_bind. eapply returns_intro; [done|]. cbn [fl_src fl_pos fl_dst fl_dpos fl_out]. change (seek 0 (len d) 0 SEEK_SET) with 0. cbn [Z.ltb Z.compare].
  apply returns_bind. eapply returns_intro; [exact E|]. apply returns_bind. eapply returns_intro; [done|].
  apply returns_bind. eapply returns_intro; [done|]. apply returns_bind. eapply returns_intro; [done|]. by apply returns_ret.
Qed.

(** Of a file whose length is good the result is its reverse. *)
Lemma reversed_good s : len s <= 1024 \/ len s mod 1024 = 0 -> reversed s = rev s.
Proof.
  intros H. unfold reversed. destruct (Z.leb_spec (len s) 1024) as [|Hl]; [done|]. destruct (Z.eqb_spec (len s mod 1024) 0); [done|lia].
Qed.

(** Of any other it has another length. *)
Lemma reversed_bad s : 1024 < len s -> len s mod 1024 <> 0 -> len (reversed s) = (len s / 1024 + 1) * 1024 /\ reversed s <> rev s.
Proof.
  intros H1 H2. assert (len (reversed s) = (len s / 1024 + 1) * 1024) as E.
  { unfold reversed. destruct (Z.leb_spec (len s) 1024); [lia|]. destruct (Z.eqb_spec (len s mod 1024) 0); [done|]. cbn [orb].
    set (p := if len s <? 2048 then _ else _). assert (0 <= p /\ p + 1024 <= len s) as [Hp1 Hp2].
    { unfold p. destruct (Z.ltb_spec (len s) 2048); zmod. }
    pose proof (length_slice p 1024 s Hp1 ltac:(lia) Hp2) as Hl. unfold len in *. rewrite length_app, !length_rev, length_drop. zmod. }
  split; [done|]. intros E2. rewrite E2 in E. unfold len in *. rewrite length_rev in E. zmod.
Qed.

(** 2.c reverses the b-th of a equal parts, when these are whole pieces. *)
Lemma part_main_good (fuel : nat) (arg arg2 arg3 s d o : list Z) (p q a b L : Z) :
  len s + 1024 < 2 ^ 31 -> a = nth 0 arg2 0 - 48 -> b = nth 0 arg3 0 - 48 -> 1 <= b <= a -> L = len s / a ->
  1024 <= L -> L mod 1024 = 0 -> (Z.to_nat (L / 1024) <= fuel)%nat ->
  Z.of_nat (length (cstr "Assignment/2_" ++ drop (base_index 0 0 arg) arg)) < 100 ->
  returns (part_main fuel [arg; arg2; arg3]) (mkfiles s p d q o) (fun r h =>
    r = 0 /\ fl_dst h = rev (slice ((b - 1) * L) L s) ++ drop (Z.to_nat L) d).
Proof.
  intros Hs Ha Hb Hab HL HL1 HLm Hf Harg. unfold part_main. apply returns_bind. eapply returns_intro; [done|]. cbn [Z.eqb Pos.eqb].
  apply returns_bind. eapply returns_intro; [by apply output_name_ok|].
  apply returns_bind. eapply returns_intro; [done|]. apply returns_bind. eapply returns_intro; [done|].
  apply returns_bind. eapply returns_intro; [done|]. cbn [fl_src fl_pos fl_dst fl_dpos fl_out].
  assert (0 <= len s) as H0 by (unfold len; lia). rewrite <- Ha, <- Hb. destruct (Z.eqb_spec a 0); [lia|].
  rewrite (seek_end _ (len s)) by lia. rewrite Z.add_0_r. destruct (Z.ltb_spec (len s) 0); [lia|].
  assert (i32 (len s) = len s) as -> by (unfold i32; zmod). rewrite Z.quot_div_nonneg by lia. rewrite <- HL.
  assert (L * a <= len s) as HLa by (rewrite HL; pose proof (Z.mul_div_le (len s) a); lia). assert (0 <= (b - 1) * L /\ b * L <= len s) as [Hb1 Hb2] by nia.
  assert (u64 L = L) as -> by (unfold u64; rewrite Z.mod_small; lia). assert (i32 (b * L) = b * L) as -> by (unfold i32; rewrite Z.mod_small; lia). rewrite Z.eqb_refl. cbn [negb].
  apply returns_bind. eapply returns_intro; [done|]. cbn [fl_src fl_pos fl_dst fl_dpos fl_out].
  assert (forall pos size, seek pos size (b * L) SEEK_SET = b * L) as Hset by (intros; unfold seek; change (SEEK_SET =? SEEK_SET) with true; cbv iota; zcase).
  rewrite Hset. destruct (Z.ltb_spec (b * L) 0); [lia|]. destruct (Z.ltb_spec L 1024); [lia|].
  apply returns_bind. eapply returns_intro.
  { erewrite bind_ret by done. unfold ret. cbn [fl_src fl_pos fl_dst fl_dpos fl_out]. change (i64 (-1024)) with (-1024). rewrite seek_cur.
    destruct (Z.ltb_spec (b * L + -1024) 0); [nia|]. reflexivity. }
  apply returns_bind. eapply returns_intro; [done|]. cbn [fl_src fl_pos fl_dst fl_dpos fl_out]. change (seek 0 (len d) 0 SEEK_SET) with 0. cbn [Z.ltb Z.compare].
  destruct (Z.ltb_spec (b * L + -1024) 0); [nia|]. set (j := (Z.to_nat (L / 1024) - 1)%nat).
  assert (L = 1024 * Z.of_nat (S j)) as Ej by (unfold j; zmod). assert (1024 <= b * L) by nia.
  pose proof (reverse_rounds j (fuel - S j) s d o L (b * L) 0 [] ltac:(lia) ltac:(lia) ltac:(lia) ltac:(lia)) as E. cbv zeta in E.
  replace (S j + (fuel - S j))%nat with fuel in E by (unfold j in *; zmod). rewrite <- Ej in E. replace (b * L - L) with ((b - 1) * L) in E by lia.
  rewrite (reverse_done (fuel - S j)) in E by lia. cbn [app] in E. replace (b * L - 1024) with (b * L + -1024) in E by lia.
  apply returns_bind. eapply returns_intro; [exact E|]. apply returns_bind. eapply returns_intro; [done|].
  apply returns_bind. eapply returns_intro; [done|]. apply returns_bind. eapply returns_intro; [done|]. apply returns_ret.
  split; [done|]. unfold progress. cbn [fl_dst]. do 2 f_equal. rewrite length_rev.
  pose proof (length_slice ((b - 1) * L) L s Hb1 ltac:(lia) ltac:(lia)) as Hl. unfold len in Hl. lia.
Qed.

(** The report of 3.c: each label and answer, with the NUL byte that is written too. *)
Definition shown (mode : Z) (l : string * Z) : list Z :=
  cstr l.1 ++ [0] ++ cstr ((if Z.testbit mode l.2 then "Yes" else "No") ++ nl) ++ [0].

Lemma say_ok s n (h : files) : n = S (length (cstr s)) ->
  say s n h = Ret tt (mkfiles (fl_src h) (fl_pos h) (fl_dst h) (fl_dpos h) (fl_out h ++ cstr s ++ [0])).
Proof.
  intros ->. unfold say. rewrite length_app. cbn [length]. destruct (Nat.ltb_spec (length (cstr s) + 1) (S (length (cstr s)))); [lia|].
  erewrite bind_ret by done. cbn. by rewrite take_ge by (rewrite length_app; cbn; lia).
Qed.

Lemma permissions_ok mode ls ns (h : files) : Forall2 (fun l n => n = S (length (cstr l.1))) ls ns ->
  permissions ls ns mode h =
    Ret tt (mkfiles (fl_src h) (fl_pos h) (fl_dst h) (fl_dpos h) (fl_out h ++ concat (shown mode <$> ls))).
Proof.
  intros H. revert h. induction H as [|[s bit] n ls ns Hn H IH]; intros h; cbn [permissions fmap list_fmap concat].
  - destruct h. cbn. by rewrite app_nil_r.
  - erewrite bind_ret by (by apply say_ok). unfold yes_no, shown at 1. cbn [fst snd]. destruct (Z.testbit mode bit);
      (erewrite bind_ret by (by apply say_ok)); rewrite IH; cbn [fl_src fl_pos fl_dst fl_dpos fl_out]; by rewrite <- !app_assoc.
Qed.

(** The lengths written in 3.c are those of its labels. *)
Lemma lengths_match : Forall2 (fun l n => n = S (length (cstr l.1))) (labels "output_file_1") file_lengths /\
  Forall2 (fun l n => n = S (length (cstr l.1))) (labels "output_file_2") file_lengths /\
  Forall2 (fun l n => n = S (length (cstr l.1))) (labels "directory") dir_lengths.
Proof. split_and!; repeat constructor. Qed.

(** ** Witness *)

Lemma reverse_main_exact_witness :
  returns (reverse_main 4 [cstr "dir/input.txt"]) (mkfiles (cstr "stressed") 0 [] 0 []) (fun r h =>
    r = 0 /\ fl_dst h = cstr "desserts" ++ drop 8 []).
Proof. apply (reverse_main_exact 4 (cstr "dir/input.txt") (cstr "stressed") [] [] 0 0); [done|vm_compute; lia|done]. Defined.
