(* ===== verification/Threads.v ===== *)
(** * Threads: programs of POSIX threads

    The threads of Assignment 5 as trees of atomic actions: mutexes, condition
    variables, creating and joining threads, and [Act] for everything else, an action
    of the monad of [Prelude] on the shared data.  Loops and gotos are jumps to labels.
    [astep] is one action of one thread; time is not modelled, so that sleep() does
    nothing and a timed wait may end at any moment.

    [Module Discipline]: a thread that takes its mutexes in increasing order, and keeps
    a global invariant with each action, given what the mutexes it holds exclude.
    Systems of such threads keep the invariant ([threads_inv_step]) and never deadlock on
    mutexes ([no_deadlock]). *)
From S2P Require Import Prelude.

Section Threads.
Context {S L K : Type} {K_eq : EqDecision K} {K_countable : Countable K}.

(** [K] names the mutexes and the condition variables.  [Wait] is pthread_cond_wait(), or
    with [timed] pthread_cond_timedwait(), whose continuation is told whether the time
    ran out; a thread in [Sleep] is in the middle of it. *)
Inductive prog : Type :=
  | Done
  | Jump (l : L)
  | Act {A : Type} (m : M S A) (k : A -> prog)
  | Choose (k : Z -> prog)
  | Lock (m : K) (k : prog)
  | TryLock (m : K) (k : bool -> prog)
  | Unlock (m : K) (k : prog)
  | Wait (v m : K) (timed : bool) (k : bool -> prog)
  | Sleep (v m : K) (timed : bool) (k : bool -> prog)
  | Signal (v : K) (k : prog)
  | Broadcast (v : K) (k : prog)
  | Spawn (l : L) (k : nat -> prog)
  | Join (t : nat) (k : prog).

Record system : Type := mksystem {
  sy_data : S;
  sy_owner : gmap K nat;      (* the locked mutexes, and which thread has locked them *)
  sy_threads : list prog;
  sy_crash : option error;     (* the process has ended: an exception, or undefined behaviour *)
}.

Context (code : L -> prog).

Definition goto (i : nat) (p : prog) (y : system) : system :=
  mksystem (sy_data y) (sy_owner y) (<[i := p]> (sy_threads y)) (sy_crash y).
Definition with_data (s : S) (y : system) : system := mksystem s (sy_owner y) (sy_threads y) (sy_crash y).
Definition grab (m : K) (i : nat) (y : system) : system :=
  mksystem (sy_data y) (<[m := i]> (sy_owner y)) (sy_threads y) (sy_crash y).
Definition give (m : K) (y : system) : system :=
  mksystem (sy_data y) (delete m (sy_owner y)) (sy_threads y) (sy_crash y).
Definition crash (e : error) (y : system) : system := mksystem (sy_data y) (sy_owner y) (sy_threads y) (Some e).

(** A thread that is woken up still has to get the mutex back. *)
Definition sleeps_on (v : K) (p : prog) : bool :=
  match p with Sleep v' _ _ _ => bool_decide (v = v') | _ => false end.
Definition woken (v : K) (p : prog) : prog :=
  match p with Sleep v' m _ k => if decide (v = v') then Lock m (k false) else p | _ => p end.
Definition wake (v : K) (j : nat) (y : system) : system :=
  mksystem (sy_data y) (sy_owner y) (alter (woken v) j (sy_threads y)) (sy_crash y).
Definition wake_all (v : K) (y : system) : system :=
  mksystem (sy_data y) (sy_owner y) (woken v <$> sy_threads y) (sy_crash y).
Definition asleep (v : K) (y : system) : bool := existsb (sleeps_on v) (sy_threads y).

(** One action of thread [i]; [None] when it is blocked.  [c] is a choice: the value of
    [Choose], the thread a signal wakes, and for a sleeping thread 0 to wake up for no reason,
    which POSIX allows, or anything else for its time to run out. *)
Definition astep (i : nat) (c : Z) (y : system) : option system :=
  match sy_crash y, sy_threads y !! i with
  | None, Some p =>
      match p with
      | Done => None
      | Jump l => Some (goto i (code l) y)
      | Act m k =>
          match m (sy_data y) with
          | Ret a s => Some (goto i (k a) (with_data s y))
          | Fail EHang => None
          | Fail e => Some (crash e y)
          end
      | Choose k => Some (goto i (k c) y)
      | Lock m k =>
          match sy_owner y !! m with None => Some (goto i k (grab m i y)) | Some _ => None end
      | TryLock m k =>
          match sy_owner y !! m with
          | None => Some (goto i (k true) (grab m i y))
          | Some _ => Some (goto i (k false) y)
          end
      | Unlock m k =>
          if decide (sy_owner y !! m = Some i) then Some (goto i k (give m y)) else Some (crash EUndef y)
      | Wait v m t k =>
          if decide (sy_owner y !! m = Some i) then Some (goto i (Sleep v m t k) (give m y)) else Some (crash EUndef y)
      | Sleep v m t k =>
          if c =? 0 then Some (goto i (Lock m (k false)) y)
          else if t then Some (goto i (Lock m (k true)) y) else None
      | Signal v k =>
          if asleep v y then
            if c <? 0 then None else
            match sy_threads y !! Z.to_nat c with
            | Some q => if sleeps_on v q then Some (goto i k (wake v (Z.to_nat c) y)) else None
            | None => None
            end
          else Some (goto i k y)
      | Broadcast v k => Some (goto i k (wake_all v y))
      | Spawn l k =>
          let t := length (sy_threads y) in
          Some (goto i (k t) (mksystem (sy_data y) (sy_owner y) (sy_threads y ++ [Jump l]) (sy_crash y)))
      | Join t k =>
          match sy_threads y !! t with
          | Some Done => Some (goto i k y)
          | Some _ => None
          | None => Some (crash EUndef y)
          end
      end
  | _, _ => None
  end.

Definition step (y y' : system) : Prop := exists i c, astep i c y = Some y'.

(** The actions of a schedule *)
Fixpoint run (l : list (nat * Z)) (y : system) : option system :=
  match l with
  | [] => Some y
  | (i, c) :: l' => match astep i c y with Some y' => run l' y' | None => None end
  end.

Lemma run_steps l : forall y y', run l y = Some y' -> rtc step y y'.
Proof.
  induction l as [|[i c] l IH]; intros y y' H; cbn [run] in H.
  - injection H as <-. apply rtc_refl.
  - destruct (astep i c y) as [y1|] eqn:E; [|done]. eapply rtc_l; [by exists i, c|by apply IH].
Qed.

(** A schedule that leads to a state with a property that can be tested *)
Lemma run_reaches (P : system -> bool) l y0 : (match run l y0 with Some y => P y | None => false end) = true ->
  exists y, rtc step y0 y /\ P y = true.
Proof. destruct (run l y0) as [y|] eqn:E; [|done]. intros HP. exists y. split; [by eapply run_steps|done]. Qed.

Lemma run_default l y0 : (if run l y0 then true else false) = true -> rtc step y0 (default y0 (run l y0)).
Proof. destruct (run l y0) as [y|] eqn:E; [|done]. intros _. by eapply run_steps. Qed.

(** ** One thread, while the others stand still *)

Definition istep (i : nat) (y y' : system) : Prop := exists c, astep i c y = Some y'.

(** Thread [i] is at [p], in a system whose other threads are those of [ts]. *)
Definition here (i : nat) (ts : list prog) (p : prog) (s : S) (o : gmap K nat) : system := mksystem s o (<[i := p]> ts) None.

(** It goes on until it jumps to a label of [stop]. *)
Section Until.
Context (stop : L -> Prop).

Definition hstep (i : nat) (y y' : system) : Prop := (forall l, sy_threads y !! i = Some (Jump l) -> ~ stop l) /\ istep i y y'.

Definition reaches (i : nat) (ts : list prog) (p : prog) (s : S) (o : gmap K nat) (p' : prog) (s' : S) (o' : gmap K nat) : Prop :=
  rtc (hstep i) (here i ts p s o) (here i ts p' s' o').

Lemma hstep_istep i y y' : hstep i y y' -> istep i y y'.
Proof. by intros [_ H]. Qed.

Lemma istep_step i y y' : istep i y y' -> step y y'.
Proof. intros [c H]. by exists i, c. Qed.

Section Alone.
Context (i : nat) (ts : list prog) (Hi : (i < length ts)%nat).
Implicit Types (s : S) (o : gmap K nat).

Lemma here_goto p p' s' o' : goto i p' (mksystem s' o' (<[i := p]> ts) None) = here i ts p' s' o'.
Proof. unfold goto, here. cbn. by rewrite list_insert_insert_eq. Qed.

Lemma here_at p s o : sy_threads (here i ts p s o) !! i = Some p.
Proof. unfold here. cbn. by rewrite list_lookup_insert_eq. Qed.

Lemma reaches_refl p s o : reaches i ts p s o p s o.
Proof. apply rtc_refl. Qed.

Lemma reaches_trans p s o p1 s1 o1 p2 s2 o2 : reaches i ts p s o p1 s1 o1 -> reaches i ts p1 s1 o1 p2 s2 o2 -> reaches i ts p s o p2 s2 o2.
Proof. intros H1 H2. unfold reaches. by transitivity (here i ts p1 s1 o1). Qed.

Lemma reaches_jump l s o p' s' o' : ~ stop l -> reaches i ts (code l) s o p' s' o' -> reaches i ts (Jump l) s o p' s' o'.
Proof.
  intros Hl H. eapply rtc_l; [|exact H]. split; [intros l'; rewrite here_at; by intros [= <-]|]. exists 0. unfold astep. rewrite here_at. cbn [sy_crash here]. f_equal. apply here_goto.
Qed.

Lemma reaches_act {A} (m : M S A) k s o a s1 p' s' o' : m s = Ret a s1 -> reaches i ts (k a) s1 o p' s' o' -> reaches i ts (Act m k) s o p' s' o'.
Proof.
  intros E H. eapply rtc_l; [|exact H]. split; [by intros l; rewrite here_at|]. exists 0. unfold astep. rewrite here_at. cbn [sy_crash here sy_data]. rewrite E. f_equal. apply here_goto.
Qed.

Lemma reaches_lock m k s o p' s' o' : o !! m = None -> reaches i ts k s (<[m := i]> o) p' s' o' -> reaches i ts (Lock m k) s o p' s' o'.
Proof.
  intros E H. eapply rtc_l; [|exact H]. split; [by intros l; rewrite here_at|]. exists 0. unfold astep. rewrite here_at. cbn [sy_crash here sy_owner]. rewrite E. f_equal. apply here_goto.
Qed.

Lemma reaches_unlock m k s o p' s' o' : o !! m = None -> reaches i ts k s o p' s' o' -> reaches i ts (Unlock m k) s (<[m := i]> o) p' s' o'.
Proof.
  intros E H. eapply rtc_l; [|exact H]. split; [by intros l; rewrite here_at|]. exists 0. unfold astep. rewrite here_at. cbn [sy_crash here sy_owner].
  rewrite decide_True by apply lookup_insert_eq. f_equal. unfold give. cbn [sy_owner here]. rewrite delete_insert_id by done. apply here_goto.
Qed.

(** The process ends. *)
Lemma reaches_crash {A} (m : M S A) k s o e : m s = Fail e -> e <> EHang ->
  exists y, rtc (hstep i) (here i ts (Act m k) s o) y /\ sy_crash y = Some e.
Proof.
  intros E He. exists (crash e (here i ts (Act m k) s o)). split; [|done]. apply rtc_once. split; [by intros l; rewrite here_at|]. exists 0. unfold astep. rewrite here_at. cbn [sy_crash here sy_data].
  rewrite E. by destruct e.
Qed.
End Alone.

(** ** One thread, while the others move, too

    The others keep [rely].  [agree] relates the data to those of a run of the thread alone. *)
Section Interference.
Context (okl : L -> Prop) (agree rely : S -> S -> Prop).
Context (Hrely : forall s z s', agree s z -> rely s s' -> agree s' z).

(** The action gives the same on data that agree. *)
Definition same {A} (m : M S A) : Prop := forall s z, agree s z ->
  match m s, m z with
  | Ret a s', Ret b z' => a = b /\ agree s' z'
  | Fail e, Fail e' => e = e'
  | _, _ => False
  end.

(** The program runs on such data up to a label of [stop], without choices, sleep and other threads. *)
Fixpoint local (p : prog) : Prop :=
  match p with
  | Jump l => stop l \/ okl l
  | Act m k => same m /\ forall a, local (k a)
  | Lock _ k | Unlock _ k => local k
  | _ => False
  end.

Context (Hcode : forall l, okl l -> local (code l)).

(** A step of thread [i], or one of another thread that keeps [rely] *)
Inductive shared (i : nat) (y y' : system) : Prop :=
  | shared_own : hstep i y y' -> shared i y y'
  | shared_other j c : j <> i -> astep j c y = Some y' -> rely (sy_data y) (sy_data y') -> shared i y y'.

(** [x] is the run of thread [i] alone, among threads [ts] that stand still. *)
Record follows (i : nat) (ts : list prog) (y x : system) (p : prog) (z : S) (o : gmap K nat) : Prop := {
  fo_thread : sy_threads y !! i = Some p;
  fo_alone : x = here i ts p z o;
  fo_local : local p;
  fo_data : agree (sy_data y) z;
  fo_held : forall m, o !! m = Some i <-> sy_owner y !! m = Some i;
  fo_only : forall m u, o !! m = Some u -> u = i;
}.

Lemma local_woken v p : local p -> woken v p = p.
Proof. by destruct p. Qed.

(** Another thread leaves the program and the mutexes of thread [i] as they are. *)
Lemma other_keeps i j c y y' p : j <> i -> astep j c y = Some y' -> sy_threads y !! i = Some p -> local p ->
  sy_threads y' !! i = Some p /\ forall m, sy_owner y' !! m = Some i <-> sy_owner y !! m = Some i.
Proof.
  intros Hj E Hi Hp. unfold astep in E. destruct (sy_crash y); [done|]. destruct (sy_threads y !! j) as [q|]; [|done].
  assert (forall y1 q', sy_threads y1 !! i = Some p -> sy_threads (goto j q' y1) !! i = Some p) as Hgoto
    by (intros; cbn; by rewrite list_lookup_insert_ne).
  assert (forall m, sy_owner y !! m = None -> forall m', <[m := j]> (sy_owner y) !! m' = Some i <-> sy_owner y !! m' = Some i) as Hgrab.
  { intros m Hm m'. destruct (decide (m = m')) as [->|]; [rewrite lookup_insert_eq|by rewrite lookup_insert_ne]. rewrite Hm. split; congruence. }
  assert (forall m, sy_owner y !! m = Some j -> forall m', delete m (sy_owner y) !! m' = Some i <-> sy_owner y !! m' = Some i) as Hgive.
  { intros m Hm m'. destruct (decide (m = m')) as [->|]; [rewrite lookup_delete_eq|by rewrite lookup_delete_ne]. rewrite Hm. split; congruence. }
  destruct q; repeat (case_match; try discriminate E); simplify_eq E; try (intros <-; split; [by auto|first [done | by apply Hgrab | by apply Hgive]]).
  - intros <-. split; [|done]. apply Hgoto. cbn. destruct (decide (Z.to_nat c = i)) as [->|];
      [rewrite list_lookup_alter_eq, Hi; cbn; by rewrite local_woken|by rewrite list_lookup_alter_ne].
  - intros <-. split; [|done]. apply Hgoto. cbn. rewrite list_lookup_fmap, Hi. cbn. by rewrite local_woken.
  - intros <-. split; [|done]. apply Hgoto. by apply lookup_app_l_Some.
Qed.

Lemma follows_other i ts y x p z o y' j c : follows i ts y x p z o -> j <> i -> astep j c y = Some y' -> rely (sy_data y) (sy_data y') ->
  follows i ts y' x p z o.
Proof.
  intros [A B C D E G] Hj Hs Hr. destruct (other_keeps i j c y y' p Hj Hs A C) as [A' E'].
  constructor; [done..|by eapply Hrely| |done]. intros m. rewrite E'. apply E.
Qed.

(** A step of the thread is one of its own run, too; the process can end instead. *)
Lemma follows_own i ts y x p z o y' : (i < length ts)%nat -> follows i ts y x p z o -> hstep i y y' ->
  exists x' p' z' o', rtc (hstep i) x x' /\ follows i ts y' x' p' z' o'.
Proof.
  intros Hi [A -> C D E G] [Hstop [c Hs]]. unfold astep in Hs. destruct (sy_crash y); [done|]. rewrite A in Hs.
  assert (forall q, sy_threads (goto i q y) !! i = Some q) as Hat by (intros; cbn; apply list_lookup_insert_eq; by eapply lookup_lt_Some).
  destruct p; try done.
  - injection Hs as <-. destruct C as [C|C]; [by destruct (Hstop l A)|]. eexists _, _, z, o. split; [|split; [apply Hat|done|by apply Hcode|done..]].
    apply (reaches_jump i ts Hi l z o); [by apply Hstop|apply reaches_refl].
  - pose proof C as [Cm Ck]. specialize (Cm _ _ D). destruct (m (sy_data y)) as [a s1|e] eqn:Em.
    + destruct (m z) as [b z1|] eqn:Ez; [|done]. destruct Cm as [<- Ca]. injection Hs as <-. eexists _, _, z1, o.
      split; [by apply (reaches_act i ts Hi m k z o a z1); [|apply reaches_refl]|]. split; [apply Hat|done|by apply Ck|done..].
    + eexists _, _, z, o. split; [apply rtc_refl|]. destruct e; simplify_eq Hs; intros <-; by split.
  - destruct (sy_owner y !! m) as [u|] eqn:Em; [done|]. injection Hs as <-. assert (o !! m = None) as Hm.
    { destruct (o !! m) as [u|] eqn:Eo; [|done]. rewrite (G _ _ Eo) in Eo. apply E in Eo. congruence. }
    eexists _, _, z, _. split; [by apply (reaches_lock i ts Hi m p z o); [|apply reaches_refl]|]. split; [apply Hat|done|done|done| |].
    + intros m'. cbn. destruct (decide (m = m')) as [->|]; [by rewrite !lookup_insert_eq|by rewrite !lookup_insert_ne].
    + intros m' u [[<- <-]|[_ Hu]]%lookup_insert_Some; [done|by eapply G].
  - case_decide as Em.
    + injection Hs as <-. assert (o = <[m := i]> (delete m o)) as Eo by (symmetry; apply insert_delete_id; by apply E).
      eexists _, _, z, (delete m o). split; [rewrite Eo at 1; apply (reaches_unlock i ts Hi m p z (delete m o)); [by rewrite lookup_delete_eq|apply reaches_refl]|].
      split; [apply Hat|done|done|done| |].
      * intros m'. cbn. destruct (decide (m = m')) as [->|]; [by rewrite !lookup_delete_eq|by rewrite !lookup_delete_ne].
      * intros m' u [_ Hu]%lookup_delete_Some. by eapply G.
    + injection Hs as <-. eexists _, _, z, o. split; [apply rtc_refl|by split].
Qed.

Lemma follows_run i ts y y' x p z o : (i < length ts)%nat -> follows i ts y x p z o -> rtc (shared i) y y' ->
  exists x' p' z' o', rtc (hstep i) x x' /\ follows i ts y' x' p' z' o'.
Proof.
  intros Hi H Hr. revert x p z o H. induction Hr as [y|y y1 y' [Hown|j c Hj Hs Hrl] Hr IH]; intros x p z o H.
  - exists x, p, z, o. split; [apply rtc_refl|done].
  - destruct (follows_own i ts y x p z o y1 Hi H Hown) as (x1 & p1 & z1 & o1 & Hx & H1). destruct (IH _ _ _ _ H1) as (x2 & p2 & z2 & o2 & Hx2 & H2).
    exists x2, p2, z2, o2. split; [by etrans|done].
  - by apply (IH x p z o), (follows_other i ts y x p z o y1 j c).
Qed.

(** The run of a local program alone is determined ... *)
Definition running (i : nat) (x : system) : Prop := exists p, sy_threads x !! i = Some p /\ local p.

Lemma running_hstep i x x1 : running i x -> hstep i x x1 -> running i x1 /\ forall x2, hstep i x x2 -> x1 = x2.
Proof.
  intros (p & Hp & Hl) [Hst [c Hs]].
  assert (forall y q, (i < length (sy_threads y))%nat -> local q -> running i (goto i q y)) as Hgoto.
  { intros y q Hlt Hq. exists q. split; [by apply list_lookup_insert_eq|done]. }
  pose proof (lookup_lt_Some _ _ _ Hp) as Hlt.
  assert (forall x2, hstep i x x2 -> exists c', astep i c' x = Some x2) as Hany by (by intros x2 [_ H]).
  unfold astep in *. destruct (sy_crash x) as [e|] eqn:Ec; [done|]. rewrite Hp in Hs.
  assert (forall y2, hstep i x y2 -> Some x1 = Some y2) as Hfun.
  { intros y2 H2. destruct (Hany y2 H2) as [c' Hs']. rewrite Hp in Hs'. rewrite <- Hs, <- Hs'. by destruct p. }
  split; [|intros x2 H2; by injection (Hfun x2 H2)]. clear Hany Hfun. destruct p; try done.
  - injection Hs as <-. apply Hgoto; [done|]. destruct Hl as [Hl|Hl]; [by destruct (Hst l Hp)|by apply Hcode].
  - destruct (m (sy_data x)) as [a s1|e]; [injection Hs as <-; apply Hgoto; [done|by apply Hl]|].
    destruct e; simplify_eq Hs; intros <-; by exists (Act m k).
  - destruct (sy_owner x !! m); [done|]. injection Hs as <-. by apply Hgoto.
  - case_decide; injection Hs as <-; [by apply Hgoto|by exists (Unlock m p)].
Qed.

Lemma running_meet i x a b : running i x -> rtc (hstep i) x a -> rtc (hstep i) x b -> rtc (hstep i) a b \/ rtc (hstep i) b a.
Proof.
  intros Hx Ha. revert Hx b. induction Ha as [x|x x1 a H1 Ha IH]; intros Hx b Hb; [by left|].
  destruct Hb as [x|x x2 b H2 Hb]; [right; by eapply rtc_l|]. destruct (running_hstep i x x1 Hx H1) as [Hr Hf]. rewrite <- (Hf _ H2) in Hb. by apply IH.
Qed.

(** ... so that both runs end in the same way. *)
Theorem shared_end i ts y y' x p z o l b : (i < length ts)%nat -> follows i ts y x p z o -> rtc (shared i) y y' ->
  sy_threads y' !! i = Some (Jump l) -> stop l -> rtc (hstep i) x b -> (forall b', ~ hstep i b b') ->
  exists z' o', b = here i ts (Jump l) z' o' /\ agree (sy_data y') z'.
Proof.
  intros Hi H Hr Hl Hst Hb Hend. destruct (follows_run i ts y y' x p z o Hi H Hr) as (x' & p' & z' & o' & Hx & H').
  pose proof (fo_thread _ _ _ _ _ _ _ H') as E. rewrite Hl in E. injection E as <-.
  assert (running i x) as Hx0.
  { exists p. split; [|by apply H]. rewrite (fo_alone _ _ _ _ _ _ _ H). by apply here_at. }
  assert (forall x'', ~ hstep i x' x'') as Hx'.
  { intros x'' [Hn _]. apply (Hn l); [|done]. rewrite (fo_alone _ _ _ _ _ _ _ H'). by apply here_at. }
  exists z', o'. split; [|by apply H']. rewrite <- (fo_alone _ _ _ _ _ _ _ H').
  destruct (running_meet i x x' b Hx0 Hx Hb) as [Hm|Hm].
  - destruct Hm as [|x' x1 ? Hm _]; [done|by apply Hx' in Hm].
  - destruct Hm as [|b b1 ? Hm _]; [done|by apply Hend in Hm].
Qed.
End Interference.
End Until.

(** main() starts alone. *)
Definition started (s : S) (l : L) : system := mksystem s ∅ [Jump l] None.
End Threads.

Arguments prog : clear implicits.
Arguments system S L K {_ _}.

Arguments Done {S L K}.
Arguments Jump {S L K} l.
Arguments Act {S L K A} m k.
Arguments Choose {S L K} k.
Arguments Lock {S L K} m k.
Arguments TryLock {S L K} m k.
Arguments Unlock {S L K} m k.
Arguments Wait {S L K} v m timed k.
Arguments Sleep {S L K} v m timed k.
Arguments Signal {S L K} v k.
Arguments Broadcast {S L K} v k.
Arguments Spawn {S L K} l k.
Arguments Join {S L K} t k.
Arguments mksystem {S L K _ _}.

Module Discipline.
Section Discipline.
Context {S L K : Type} {K_eq : EqDecision K} {K_countable : Countable K} (rank : K -> nat) (code : L -> prog S L K).

(** [G] is what a thread stands for in the invariant [I]; [link] relates it to the mutexes
    the thread holds. *)
Context {G : Type} (I : S -> list G -> Prop) (link : list K -> G -> Prop).

(** What holds at a label, and what a new thread stands for. *)
Context (at_ : L -> list K -> G -> Prop) (new : L -> G).

(** No other thread holds a mutex of [h]. *)
Definition others (h : list K) (gs : list G) (i : nat) : Prop :=
  forall j g, j <> i -> gs !! j = Some g -> exists hj, link hj g /\ (forall m, m ∈ hj -> m ∈ h -> False).

Definition drop_lock (m : K) (h : list K) : list K := filter (fun x => x <> m) h.

(** The thread, which holds [h] and stands for [g], follows the discipline: it takes
    mutexes in increasing order, does not block otherwise while it holds one, ends
    without any, and each action keeps the invariant. *)
Fixpoint safe (h : list K) (g : G) (p : prog S L K) : Prop :=
  link h g /\
  match p with
  | Done => h = []
  | Jump l => at_ l h g
  | Act m k =>
      (h = [] \/ forall s, m s <> Fail EHang) /\
      forall i s gs a s', I s gs -> gs !! i = Some g -> others h gs i -> m s = Ret a s' ->
        exists g', I s' (<[i := g']> gs) /\ safe h g' (k a)
  | Choose k => forall z, safe h g (k z)
  | Lock m k => Forall (fun x => rank x < rank m)%nat h /\ safe (m :: h) g k
  | TryLock m k => safe (m :: h) g (k true) /\ safe h g (k false)
  | Unlock m k => m ∈ h /\ safe (drop_lock m h) g k
  | Wait v m t k => h = [m] /\ link [] g /\ forall b, safe [m] g (k b)
  | Sleep v m t k => h = [] /\ forall b, safe [m] g (k b)
  | Signal v k => safe h g k
  | Broadcast v k => safe h g k
  | Spawn l k => at_ l [] (new l) /\ link [] (new l) /\ (forall i s gs, I s gs -> gs !! i = Some g -> I s (gs ++ [new l])) /\ forall t, safe h g (k t)
  | Join t k => h = [] /\ safe h g k
  end.

Record inv (y : system S L K) (hg : list (list K * G)) : Prop := {
  inv_length : length hg = length (sy_threads y);
  inv_data : I (sy_data y) hg.*2;
  inv_safe : forall i p h g, sy_threads y !! i = Some p -> hg !! i = Some (h, g) -> safe h g p;
  inv_owner : forall m i, sy_owner y !! m = Some i <-> exists h g, hg !! i = Some (h, g) /\ m ∈ h;
}.

(** The hypothesis on a program: its code is safe. *)
Context (code_safe : forall l h g, at_ l h g -> link h g -> safe h g (code l)).

Lemma safe_link h g p : safe h g p -> link h g.
Proof. destruct p; cbn; tauto. Qed.

Lemma safe_choose k h g : link h g -> (forall z, safe h g (k z)) -> safe h g (Choose k).
Proof. done. Qed.

Lemma safe_lock m k h g : link h g -> Forall (fun x => rank x < rank m)%nat h -> safe (m :: h) g k -> safe h g (Lock m k).
Proof. done. Qed.

Lemma safe_unlock m k h g : link h g -> m ∈ h -> safe (drop_lock m h) g k -> safe h g (Unlock m k).
Proof. done. Qed.

(** pthread_cond_wait() after its mutex was taken, without any other *)
Lemma safe_wait v m t k g : link [] g -> link [m] g -> (forall b, safe [m] g (k b)) -> safe [m] g (Wait v m t k).
Proof. done. Qed.

Lemma inv_others y hg i h g : inv y hg -> hg !! i = Some (h, g) -> others h hg.*2 i.
Proof.
  intros H Hi j gj Hne Hj. apply list_lookup_fmap_Some in Hj as ([hj g'] & -> & Hj).
  destruct (lookup_lt_is_Some_2 (sy_threads y) j) as [p Hp]; [rewrite <- (inv_length _ _ H); by eapply lookup_lt_Some|].
  exists hj. split; [eapply safe_link, (inv_safe _ _ H j p); done|].
  intros m H1 H2. apply Hne. assert (sy_owner y !! m = Some i) as E1 by (apply (inv_owner _ _ H); eauto).
  assert (sy_owner y !! m = Some j) as E2 by (apply (inv_owner _ _ H); eauto). congruence.
Qed.

(** Thread [i] goes to [p] with [h'] and [g']; the owners and the data change with it. *)
Lemma threads_inv_update y hg i p h g h' g' s o c : inv y hg -> hg !! i = Some (h, g) -> safe h' g' p -> I s (<[i := g']> hg.*2) ->
  (forall m j, j <> i -> o !! m = Some j <-> sy_owner y !! m = Some j) ->
  (forall m, o !! m = Some i <-> m ∈ h') ->
  inv (mksystem s o (<[i := p]> (sy_threads y)) c) (<[i := (h', g')]> hg).
Proof.
  intros [Hl Hd Hs Ho] Hi Hp HI Hne Heq. pose proof (lookup_lt_Some _ _ _ Hi) as Hlt. constructor; cbn [sy_threads sy_data sy_owner].
  - by rewrite !length_insert.
  - by rewrite list_fmap_insert.
  - intros j q hj gj Hq Hj. destruct (decide (j = i)) as [->|].
    + rewrite list_lookup_insert_eq in Hq by lia. rewrite list_lookup_insert_eq in Hj by lia. by simplify_eq.
    + rewrite list_lookup_insert_ne in Hq by done. rewrite list_lookup_insert_ne in Hj by done. by eapply Hs.
  - intros m j. destruct (decide (j = i)) as [->|].
    + rewrite Heq, list_lookup_insert_eq by lia. split; [eauto|]. by intros (? & ? & [= <- <-] & ?).
    + rewrite Hne, Ho, list_lookup_insert_ne by done. done.
Qed.

(** The same without a change of the data, or of what the thread stands for. *)
Lemma inv_locks y hg i p h g h' o c : inv y hg -> hg !! i = Some (h, g) -> safe h' g p ->
  (forall m j, j <> i -> o !! m = Some j <-> sy_owner y !! m = Some j) ->
  (forall m, o !! m = Some i <-> m ∈ h') ->
  inv (mksystem (sy_data y) o (<[i := p]> (sy_threads y)) c) (<[i := (h', g)]> hg).
Proof.
  intros H Hi Hp Hne Heq. eapply threads_inv_update; try done. rewrite list_insert_id; [apply H|]. by rewrite list_lookup_fmap, Hi.
Qed.

Lemma inv_goto y hg i p h g : inv y hg -> hg !! i = Some (h, g) -> safe h g p -> inv (goto i p y) hg.
Proof.
  intros H Hi Hp. rewrite <- (list_insert_id hg i (h, g)) by done. eapply inv_locks; try done.
  intros m. rewrite (inv_owner _ _ H), Hi. split; [by intros (? & ? & [= <- <-] & ?)|eauto].
Qed.

(** Waking threads up changes what they do next, not what they hold. *)
Lemma inv_threads y hg f : inv y hg -> length f = length (sy_threads y) ->
  (forall i p h g, f !! i = Some p -> hg !! i = Some (h, g) -> safe h g p) ->
  inv (mksystem (sy_data y) (sy_owner y) f (sy_crash y)) hg.
Proof. intros [Hl Hd Hs Ho] Hf Hp. constructor; cbn [sy_threads sy_data sy_owner]; [lia|done..]. Qed.

Lemma woken_safe v h g p : safe h g p -> safe h g (woken v p).
Proof.
  destruct p; try done. cbn [woken]. intros H. case_decide; [|done]. destruct H as (Hl & -> & Hk). split_and!; [done|by constructor|apply Hk].
Qed.

Lemma wake_inv v j y hg : inv y hg -> inv (wake v j y) hg.
Proof.
  intros H. apply inv_threads; [done|by rewrite length_alter|]. intros i p h g Hp Hi. destruct (decide (i = j)) as [->|].
  - rewrite list_lookup_alter_eq in Hp. apply fmap_Some in Hp as (q & Hq & ->). eapply woken_safe, inv_safe; eauto.
  - rewrite list_lookup_alter_ne in Hp by done. eapply inv_safe; eauto.
Qed.

Lemma wake_all_inv v y hg : inv y hg -> inv (wake_all v y) hg.
Proof.
  intros H. apply inv_threads; [done|by rewrite length_fmap|]. intros i p h g Hp Hi.
  apply list_lookup_fmap_Some in Hp as (q & -> & Hq). eapply woken_safe, inv_safe; eauto.
Qed.

Lemma spawn_inv l y hg c : inv y hg -> at_ l [] (new l) -> link [] (new l) ->
  I (sy_data y) (hg.*2 ++ [new l]) -> inv (mksystem (sy_data y) (sy_owner y) (sy_threads y ++ [Jump l]) c) (hg ++ [([], new l)]).
Proof.
  intros [Hl Hd Hs Ho] H1 H2 I_new. constructor; cbn [sy_threads sy_data sy_owner].
  - rewrite !length_app. cbn. lia.
  - by rewrite fmap_app.
  - intros i p h g Hp Hi. apply lookup_app_Some in Hp as [Hp|[Hge Hp]].
    + rewrite lookup_app_l in Hi by (rewrite Hl; by eapply lookup_lt_Some). by eapply Hs.
    + rewrite lookup_app_r in Hi by lia. rewrite Hl in Hi. destruct (i - length (sy_threads y))%nat; [|done]. cbn in Hp, Hi. by simplify_eq.
  - intros m i. rewrite Ho. split.
    + intros (h & g & Hi & Hm). exists h, g. split; [|done]. rewrite lookup_app_l; [done|by eapply lookup_lt_Some].
    + intros (h & g & Hi & Hm). apply lookup_app_Some in Hi as [Hi|[_ Hi]]; [eauto|].
      apply list_lookup_singleton_Some in Hi as [_ [= <- <-]]. by apply not_elem_of_nil in Hm.
Qed.

(** A thread takes a free mutex, and gives one back. *)
Lemma grab_inv y hg i p h g m : inv y hg -> hg !! i = Some (h, g) -> sy_owner y !! m = None -> safe (m :: h) g p ->
  inv (goto i p (grab m i y)) (<[i := (m :: h, g)]> hg).
Proof.
  intros H Hi Hm Hp. apply (inv_locks y hg i p h g); try done; cbn.
  - intros m' j Hj. destruct (decide (m' = m)) as [->|]; [|by rewrite lookup_insert_ne].
    rewrite lookup_insert_eq, Hm. split; [by intros [= <-]|done].
  - intros m'. destruct (decide (m' = m)) as [->|]; [rewrite lookup_insert_eq; split; [left|done]|].
    rewrite lookup_insert_ne by done. rewrite (inv_owner _ _ H), elem_of_cons. split; [intros (h' & g' & E & ?); rewrite Hi in E; simplify_eq; by right|].
    intros [?|?]; [done|eauto].
Qed.

Lemma give_inv y hg i p h g m : inv y hg -> hg !! i = Some (h, g) -> m ∈ h -> safe (drop_lock m h) g p ->
  inv (goto i p (give m y)) (<[i := (drop_lock m h, g)]> hg).
Proof.
  intros H Hi Hm Hp. assert (sy_owner y !! m = Some i) as Em by (apply (inv_owner _ _ H); eauto).
  apply (inv_locks y hg i p h g); try done; cbn.
  - intros m' j Hj. destruct (decide (m' = m)) as [->|]; [|by rewrite lookup_delete_ne].
    rewrite lookup_delete_eq, Em. split; [done|congruence].
  - intros m'. unfold drop_lock. rewrite list_elem_of_filter. destruct (decide (m' = m)) as [->|].
    + rewrite lookup_delete_eq. split; [done|by intros [? _]].
    + rewrite lookup_delete_ne by done. rewrite (inv_owner _ _ H). split; [intros (h' & g' & E & ?); rewrite Hi in E; by simplify_eq|].
      intros [_ ?]. eauto.
Qed.

Lemma drop_one m : drop_lock m [m] = [].
Proof. unfold drop_lock. cbn. by rewrite decide_False by auto. Qed.

(** Every action keeps the invariant. *)
Lemma threads_inv_step y y' i c hg : inv y hg -> astep code i c y = Some y' -> exists hg', inv y' hg'.
Proof.
  intros H Hst. unfold astep in Hst. destruct (sy_crash y) eqn:Ec; [done|]. destruct (sy_threads y !! i) as [p|] eqn:Hp; [|done].
  destruct (lookup_lt_is_Some_2 hg i) as [[h g] Hi]; [rewrite (inv_length _ _ H); by eapply lookup_lt_Some|].
  pose proof (inv_safe _ _ H _ _ _ _ Hp Hi) as Hs. assert (forall e, inv (crash e y) hg) as Hcr by (intros e; destruct H; by constructor).
  destruct p as [|l|A m k|k|m k|m k|m k|v m t k|v m t k|v k|v k|l k|t k]; cbn [safe] in Hs; destruct Hs as [Hlk Hs].
  - done.
  - injection Hst as <-. exists hg. eapply inv_goto; eauto.
  - destruct Hs as [_ Hs]. destruct (m (sy_data y)) as [a s'|e] eqn:Em; [|destruct e; try done; injection Hst as <-; eauto].
    injection Hst as <-. destruct (Hs i (sy_data y) hg.*2 a s') as (g' & HI & Hk); [apply H| |by eapply inv_others|done|].
    { by rewrite list_lookup_fmap, Hi. }
    eexists. apply (threads_inv_update y hg i (k a) h g h g'); try done. intros m'. rewrite (inv_owner _ _ H), Hi.
    split; [by intros (? & ? & [= <- <-] & ?)|eauto].
  - injection Hst as <-. exists hg. eapply inv_goto; eauto.
  - destruct Hs as [_ Hs]. destruct (sy_owner y !! m) eqn:Em; [done|]. injection Hst as <-. eexists. by eapply grab_inv.
  - destruct Hs as [H1 H2]. destruct (sy_owner y !! m) eqn:Em; injection Hst as <-; [exists hg; by eapply inv_goto|].
    eexists. by eapply grab_inv.
  - destruct Hs as [Hm Hs]. case_decide; injection Hst as <-; [|eauto]. eexists. by eapply give_inv.
  - destruct Hs as (-> & Hl & Hs). case_decide; injection Hst as <-; [|eauto]. eexists. eapply give_inv; eauto; [by left|].
    rewrite drop_one. by split_and!.
  - destruct Hs as (-> & Hs). assert (forall b, safe [] g (Lock m (k b))) as Hb by (intros b; split_and!; [done|by constructor|apply Hs]).
    destruct (c =? 0); [|destruct t; [|done]]; injection Hst as <-; exists hg; by eapply inv_goto.
  - destruct (asleep v y); [|injection Hst as <-; exists hg; by eapply inv_goto].
    destruct (c <? 0); [done|]. destruct (sy_threads y !! Z.to_nat c); [|done]. destruct (sleeps_on v p); [|done].
    injection Hst as <-. exists hg. eapply inv_goto; eauto. by apply wake_inv.
  - injection Hst as <-. exists hg. eapply inv_goto; eauto. by apply wake_all_inv.
  - destruct Hs as (H1 & H2 & H3 & Hs). injection Hst as <-. exists (hg ++ [([], new l)]). eapply inv_goto; [apply spawn_inv; try done| |apply Hs].
    { eapply H3; [apply H|]. by rewrite list_lookup_fmap, Hi. }
    rewrite lookup_app_l; [done|by eapply lookup_lt_Some].
  - destruct Hs as [-> Hs]. destruct (sy_threads y !! t) as [[]|]; try done; injection Hst as <-; eauto. exists hg. by eapply inv_goto.
Qed.

Lemma inv_steps y y' : rtc (step code) y y' -> (exists hg, inv y hg) -> exists hg, inv y' hg.
Proof. intros H. induction H as [|y1 y2 y3 (i & c & Hst) _ IH]; [done|]. intros [hg Hi]. apply IH. by eapply threads_inv_step. Qed.

Lemma inv_started s l : I s [new l] -> at_ l [] (new l) -> link [] (new l) -> inv (started s l) [([], new l)].
Proof.
  intros HI Ha Hl. constructor; cbn; try done.
  - intros i p h g Hp Hi. apply list_lookup_singleton_Some in Hp as [-> <-]. injection Hi as <- <-. done.
  - intros m i. split; [done|]. intros (h & g & Hi & Hm). apply list_lookup_singleton_Some in Hi as [_ [= <- <-]]. by apply not_elem_of_nil in Hm.
Qed.

(** ** No deadlock *)

(** A thread that holds a mutex can move, or wants a higher one. *)
Lemma holder_moves y hg u h g m : inv y hg -> sy_crash y = None -> hg !! u = Some (h, g) -> m ∈ h ->
  (exists c y', astep code u c y = Some y') \/
  exists m' k, sy_threads y !! u = Some (Lock m' k) /\ (rank m < rank m')%nat /\ is_Some (sy_owner y !! m').
Proof.
  intros H Hc Hu Hm. destruct (lookup_lt_is_Some_2 (sy_threads y) u) as [p Hp]; [rewrite <- (inv_length _ _ H); by eapply lookup_lt_Some|].
  pose proof (inv_safe _ _ H _ _ _ _ Hp Hu) as Hs. unfold astep. rewrite Hc, Hp.
  assert (h <> []) as Hne by (intros ->; by apply not_elem_of_nil in Hm).
  destruct p as [|l|A ma k|k|m' k|m' k|m' k|v m' t k|v m' t k|v k|v k|l k|t k]; cbn [safe] in Hs; destruct Hs as [Hlk Hs]; try done.
  - left. by exists 0; eexists.
  - left. destruct Hs as [[?|Hb] _]; [done|]. specialize (Hb (sy_data y)). destruct (ma (sy_data y)) as [a s|e]; [by exists 0; eexists|].
    destruct e; [by exists 0; eexists..|done].
  - left. by exists 0; eexists.
  - destruct Hs as [Hs _]. destruct (sy_owner y !! m') as [j|] eqn:Em; [|left; by exists 0; eexists].
    right. exists m', k. split_and!; [done| |by eexists]. by eapply Forall_forall in Hs.
  - left. destruct (sy_owner y !! m'); by exists 0; eexists.
  - left. case_decide; by exists 0; eexists.
  - left. case_decide; by exists 0; eexists.
  - by destruct Hs.
  - left. destruct (asleep v y) eqn:E; [|by exists 0; eexists]. unfold asleep in E. apply existsb_exists in E as (q & Hq & Hqs).
    apply list_elem_of_In, list_elem_of_lookup in Hq as [j Hj]. exists (Z.of_nat j). destruct (Z.ltb_spec (Z.of_nat j) 0); [lia|].
    rewrite Nat2Z.id, Hj, Hqs. by eexists.
  - left. by exists 0; eexists.
  - left. by exists 0; eexists.
  - by destruct Hs.
Qed.

(** As long as a thread waits for a mutex, some thread can move that holds one. *)
Lemma no_deadlock y hg t m k u : inv y hg -> sy_crash y = None -> sy_threads y !! t = Some (Lock m k) -> sy_owner y !! m = Some u ->
  exists v c y', astep code v c y = Some y' /\ exists m', sy_owner y !! m' = Some v.
Proof.
  intros H Hc _. assert (exists N, forall m i, sy_owner y !! m = Some i -> rank m < N)%nat as [N HN].
  { clear. induction (sy_owner y) as [|m0 i0 o Ho [N IH]] using map_ind.
    - exists 0%nat. intros m i. by rewrite lookup_empty.
    - exists (Datatypes.S (Nat.max (rank m0) N)). intros m i Hm. apply lookup_insert_Some in Hm as [[-> _]|[_ Hm]]; [lia|]. apply IH in Hm. lia. }
  remember (N - rank m)%nat as d eqn:Ed. revert m u Ed. induction d as [d IH] using lt_wf_ind. intros m u -> Hu.
  apply (inv_owner _ _ H) in Hu as Hh. destruct Hh as (h & g & Hi & Hm).
  destruct (holder_moves y hg u h g m H Hc Hi Hm) as [(c & y' & Hst)|(m' & k' & Hp & Hlt & [u' Hu'])]; [by eauto 10|].
  apply HN in Hu as Hb. apply (IH (N - rank m')%nat) with (m := m') (u := u'); [lia|done|done].
Qed.
End Discipline.
End Discipline.
