(* ===== verification/Scanf.v ===== *)
(** * Scanf: the input of the programs of Assignment 5

    What scanf() finds, as a list of tokens in the state of the program that reads it.
    A conversion that fails leaves its variable as it was, which in these programs is
    not initialised: undefined. *)
From S2P Require Import Prelude.

Inductive tok (F : Type) : Type := TInt (x : Z) | TFloat (x : F) | TWord (s : list Z) | TChar (c : Z).
Arguments TInt {F}.
Arguments TFloat {F}.
Arguments TWord {F}.
Arguments TChar {F}.

Section Scanf.
Context {S F : Type} (inl : lens S (list (tok F))).

Definition next_tok : M S (tok F) :=
  l <- gets (lget inl) ;;
  match l with [] => fail EUndef | t :: l' => modify (lset inl l') ;; ret t end.

Definition scan_int : M S Z := t <- next_tok ;; match t with TInt x => ret x | _ => fail EUndef end.
Definition scan_float : M S F := t <- next_tok ;; match t with TFloat x => ret x | _ => fail EUndef end.
Definition scan_char : M S Z := t <- next_tok ;; match t with TChar c => ret c | _ => fail EUndef end.

(** %s into char[NAME_LENGTH], 128 *)
Definition scan_word : M S (list Z) :=
  t <- next_tok ;; match t with TWord w => if (128 <=? length w)%nat then fail EUndef else ret w | _ => fail EUndef end.

Fixpoint repeat_m {A} (n : nat) (m : M S A) : M S (list A) :=
  match n with O => ret [] | Datatypes.S n' => x <- m ;; l <- repeat_m n' m ;; ret (x :: l) end.

(** for (i = 0; i < n; i++) a[i] = m(i), from [k] *)
Fixpoint read_array {A} (k n : nat) (m : nat -> M S A) : M S (list A) :=
  match n with O => ret [] | Datatypes.S n' => x <- m k ;; l <- read_array (Datatypes.S k) n' m ;; ret (x :: l) end.

(** ** Frames: what an action keeps *)

(** [R] holds of every run of [m], and [m] does not block. *)
Definition frames {A} (R : S -> S -> Prop) (m : M S A) : Prop :=
  (forall s, m s <> Fail EHang) /\ forall s a s', m s = Ret a s' -> R s s'.

(** Each value [m] returns satisfies [P]. *)
Definition yields {A} (P : A -> Prop) (m : M S A) : Prop := forall s a s', m s = Ret a s' -> P a.

Lemma yields_bind {A B} (P : B -> Prop) (m : M S A) (k : A -> M S B) : (forall a, yields P (k a)) -> yields P (bind m k).
Proof. intros Hk s b s' H. apply bind_inv in H as (a & s1 & _ & H). by eapply Hk. Qed.

Lemma yields_read_array {A} (P : A -> Prop) (m : nat -> M S A) n : (forall i, yields P (m i)) -> forall k, yields (Forall P) (read_array k n m).
Proof.
  intros Hm. induction n as [|n IH]; intros k s l s' H; cbn [read_array] in H.
  - injection H as <- _. constructor.
  - apply bind_inv in H as (x & s1 & H1 & H). apply bind_inv in H as (xs & s2 & H2 & H). injection H as <- _.
    constructor; [by eapply Hm|by eapply IH].
Qed.

Lemma bind_blocks {A B} (m : M S A) (k : A -> M S B) : (forall s, m s <> Fail EHang) -> (forall a s, k a s <> Fail EHang) ->
  forall s, bind m k s <> Fail EHang.
Proof. intros Hm Hk s E. unfold bind in E. destruct (m s) as [a s1|e] eqn:E1; [by apply (Hk a s1)|]. by apply (Hm s); congruence. Qed.

Section Rules.
Context (R : S -> S -> Prop) `{!PreOrder R}.

Lemma frames_ret {A} (a : A) : frames R (ret a).
Proof. split; [done|]. unfold ret. intros s b s' [= <- <-]. done. Qed.

Lemma frames_fail {A} e : e <> EHang -> frames (A := A) R (fail e).
Proof. intros He. split; unfold fail; congruence. Qed.

Lemma frames_gets {A} (f : S -> A) : frames R (gets f).
Proof. split; [done|]. unfold gets. by intros s a s' [= <- <-]. Qed.

Lemma frames_modify f : (forall s, R s (f s)) -> frames R (modify f).
Proof. intros Hf. split; [done|]. unfold modify. by intros s a s' [= _ <-]. Qed.

Lemma frames_bind {A B} (m : M S A) (k : A -> M S B) : frames R m -> (forall a, frames R (k a)) -> frames R (bind m k).
Proof.
  intros [Hm1 Hm2] Hk. split; [apply bind_blocks; [done|intros a; apply Hk]|].
  intros s b s' E. apply bind_inv in E as (a & s1 & E1 & E2). transitivity s1; [by eapply Hm2|by eapply (Hk a)].
Qed.

Lemma frames_when b (m : M S unit) : frames R m -> frames R (when b m).
Proof. destruct b; [done|]. intros _. apply frames_ret. Qed.

Lemma frames_aget {A} (l : list A) i : frames R (aget l i).
Proof. unfold aget. destruct (znth l i); [apply frames_ret|by apply frames_fail]. Qed.

Lemma frames_aset {A} (l : list A) i x : frames R (aset l i x).
Proof. unfold aset. destruct (znth l i); [apply frames_ret|by apply frames_fail]. Qed.

Lemma frames_repeat {A} n (m : M S A) : frames R m -> frames R (repeat_m n m).
Proof. intros Hm. induction n as [|n IH]; [apply frames_ret|]. do 2 (apply frames_bind; [done|intros]). apply frames_ret. Qed.

Lemma frames_read_array {A} n (m : nat -> M S A) : (forall i, frames R (m i)) -> forall k, frames R (read_array k n m).
Proof. intros Hm. induction n as [|n IH]; intros k; [apply frames_ret|]. do 2 (apply frames_bind; [done|intros]). apply frames_ret. Qed.

Context (Hin : forall s l, R s (lset inl l s)).

Lemma frames_next_tok : frames R next_tok.
Proof.
  apply frames_bind; [apply frames_gets|intros [|t l]; [by apply frames_fail|]].
  apply frames_bind; [apply frames_modify; intros; apply Hin|intros; apply frames_ret].
Qed.

Lemma frames_scan_int : frames R scan_int.
Proof. apply frames_bind; [apply frames_next_tok|intros []; apply frames_ret || by apply frames_fail]. Qed.
Lemma frames_scan_float : frames R scan_float.
Proof. apply frames_bind; [apply frames_next_tok|intros []; apply frames_ret || by apply frames_fail]. Qed.
Lemma frames_scan_char : frames R scan_char.
Proof. apply frames_bind; [apply frames_next_tok|intros []; apply frames_ret || by apply frames_fail]. Qed.
Lemma frames_scan_word : frames R scan_word.
Proof. apply frames_bind; [apply frames_next_tok|intros []; try by apply frames_fail]. case_match; [by apply frames_fail|apply frames_ret]. Qed.
End Rules.
End Scanf.

Arguments frames {S A} R m.
Arguments yields {S A} P m.

(** Frames by the structure of the action; [t] is for what is special to a program. *)
Ltac frames_tac t :=
  repeat first
  [ t | apply frames_ret; apply _ | apply frames_gets; apply _ | apply frames_aget; apply _ | apply frames_aset; apply _
  | by apply frames_fail | apply frames_scan_int; [apply _|done] | apply frames_scan_float; [apply _|done]
  | apply frames_scan_char; [apply _|done] | apply frames_scan_word; [apply _|done]
  | apply frames_read_array; [apply _|intros] | apply frames_repeat; [apply _|] | apply frames_when; [apply _|]
  | apply frames_modify; done | apply frames_bind; [apply _| |intros] | case_match ].
