(* ===== verification/Courses.v ===== *)
(** * Courses: the course registration simulation, Assignment 5/Q1

    Models Assignment 5/Q1/main.c and defs.h with the threads of [Threads]: main(), a
    thread per course and a thread per student.  Floating-point numbers are a
    parameter: their type [F], and [percent], the product of an interest, a calibre and 100
    as an int. *)
From S2P Require Import Prelude Threads Scanf.

(** ** Data (defs.h) *)

(** A TA's own lock is [MTa]; ta_list[i].course_id is only ever -1. *)
Record ta : Type := mkta { ta_id : Z; ta_course : Z; ta_turns : Z }.
#[export] Instance eta_ta : Settable ta := fun t => mkta (ta_id t) (ta_course t) (ta_turns t).

Record lab : Type := mklab { lab_id : Z; lab_name : list Z; lab_num : Z; lab_max : Z; lab_tas : list ta }.
#[export] Instance eta_lab : Settable lab := fun l => mklab (lab_id l) (lab_name l) (lab_num l) (lab_max l) (lab_tas l).

Record course (F : Type) : Type := mkcourse {
  cs_name : list Z;
  cs_interest : F;
  cs_slots : Z;
  cs_num_labs : Z;
  cs_labs : list Z;            (* lab_list, which nothing reads *)
  cs_end : Z;
  cs_attending : Z;
}.
Arguments mkcourse {F}.
Arguments cs_name {F}.
Arguments cs_interest {F}.
Arguments cs_slots {F}.
Arguments cs_num_labs {F}.
Arguments cs_labs {F}.
Arguments cs_end {F}.
Arguments cs_attending {F}.
#[export] Instance eta_course F : Settable (course F) := fun c =>
  mkcourse (cs_name c) (cs_interest c) (cs_slots c) (cs_num_labs c) (cs_labs c) (cs_end c) (cs_attending c).

Record student (F : Type) : Type := mkstudent { sd_id : Z; sd_prefs : list Z; sd_calibre : F; sd_time : Z }.
Arguments mkstudent {F}.
Arguments sd_id {F}.
Arguments sd_prefs {F}.
Arguments sd_calibre {F}.

(** The lines that are printed *)
Inductive event : Type :=
  | ENone (course : list Z)                         (* doesn't have any TA's eligible *)
  | ETa (ta lab : nat) (course : list Z) (nth : Z)  (* allocated for nth TA ship *)
  | ESeats (course : list Z) (slots : Z)
  | EStart (course : list Z) (filled slots : Z)
  | ELeft (ta : nat) (lab course : list Z)
  | EFilled (student : Z)
  | EChange (student : Z) (from : list Z) (i : Z) (to : list Z) (j : Z)
  | ESeat (student : Z) (course : list Z)
  | EChosen (student : Z) (course : list Z)
  | EWithdrawn (student : Z) (course : list Z)
  | EFailed (student : Z)
  | EExit.

(** The globals, the input and the output *)
Record sim (F : Type) : Type := mksim {
  sm_courses : list (course F);
  sm_students : list (student F);
  sm_labs : list lab;
  sm_in : list (tok F);
  sm_out : list event;
}.
Arguments mksim {F}.
Arguments sm_courses {F}.
Arguments sm_students {F}.
Arguments sm_labs {F}.
Arguments sm_in {F}.
Arguments sm_out {F}.
#[export] Instance eta_sim F : Settable (sim F) := fun s => mksim (sm_courses s) (sm_students s) (sm_labs s) (sm_in s) (sm_out s).

(** lab_list[l].ta_list[t].lock; then of a course tut_cond_lock, student_counter_lock,
    in_tut_lock, and the condition variables tut_cond and in_tut. *)
Inductive sync : Type :=
  | MTa (l t : nat) | MCond (c : nat) | MCounter (c : nat) | MTut (c : nat) | VCond (c : nat) | VTut (c : nat).
#[export] Instance course_sync_eq_dec : EqDecision sync.
Proof. solve_decision. Defined.
#[export] Instance course_sync_countable : Countable sync.
Proof.
  apply (inj_countable'
    (fun x => match x with MTa l t => (0, l, t) | MCond c => (1, c, 0) | MCounter c => (2, c, 0)
              | MTut c => (3, c, 0) | VCond c => (4, c, 0) | VTut c => (5, c, 0) end%nat)
    (fun y => match y with (0, l, t) => MTa l t | (1, c, _) => MCond c | (2, c, _) => MCounter c
              | (3, c, _) => MTut c | (4, c, _) => VCond c | (_, c, _) => VTut c end%nat)).
  by intros [].
Defined.

(** Where a thread can jump to *)
Inductive label : Type :=
  | LMain
  | LMakeCourses (nc ns i : nat) (ts : list nat)
  | LMakeStudents (nc ns i : nat) (ts us : list nat)
  | LJoin (ts : list nat)
  | LCourse (c : nat)
  | LScan (c i i1 : nat)
  | LFound (c i i1 : nat)
  | LStudent (s : nat)
  | LPref (s i : nat).

Section Courses.
Context {F : Type} (percent : F -> F -> Z).

(** What malloc() leaves in students_attending, which main() does not set. *)
Context (junk : Z).

Notation S := (sim F).
Notation prog := (prog S label sync).

Definition say (e : event) : M S unit := modify (fun s => s <| sm_out := sm_out s ++ [e] |>).

(** course_list[c] and the others: an index out of range is undefined. *)
Definition get_course (c : Z) : M S (course F) := l <- gets sm_courses ;; aget l c.
Definition mod_course (c : Z) (f : course F -> course F) : M S unit :=
  l <- gets sm_courses ;; x <- aget l c ;; l <- aset l c (f x) ;; modify (fun s => s <| sm_courses := l |>).
Definition get_student (i : nat) : M S (student F) := l <- gets sm_students ;; aget l (Z.of_nat i).
Definition get_lab (i : nat) : M S lab := l <- gets sm_labs ;; aget l (Z.of_nat i).
Definition get_ta (i j : nat) : M S ta := l <- get_lab i ;; aget (lab_tas l) (Z.of_nat j).
Definition set_turns (i j : nat) (n : Z) : M S unit :=
  labs <- gets sm_labs ;;
  l <- aget labs (Z.of_nat i) ;;
  t <- aget (lab_tas l) (Z.of_nat j) ;;
  ts <- aset (lab_tas l) (Z.of_nat j) (t <| ta_turns := n |>) ;;
  labs <- aset labs (Z.of_nat i) (l <| lab_tas := ts |>) ;;
  modify (fun s => s <| sm_labs := labs |>).

(** ** course_thread() *)

Definition rand (r : Z) : Z := r mod 2 ^ 31.

Fixpoint signals (n : nat) (v : sync) (k : prog) : prog :=
  match n with O => k | Datatypes.S n' => Signal v (signals n' v k) end.

(** The two loops over the labs and their TAs *)
Definition scan (c i i1 : nat) : prog :=
  Act (get_course (Z.of_nat c)) (fun cs =>
  if cs_num_labs cs <=? Z.of_nat i then
    Act (say (ENone (cs_name cs))) (fun _ =>
    Act (mod_course (Z.of_nat c) (fun cs => cs <| cs_end := 1 |>)) (fun _ =>
    Broadcast (VCond c) Done))
  else
    Act (get_lab i) (fun l =>
    if lab_num l <=? Z.of_nat i1 then Jump (LScan c (Datatypes.S i) 0) else
    TryLock (MTa i i1) (fun got =>
    if got then
      Act (get_ta i i1) (fun t =>
      if 0 <? ta_turns t then
        Act (set_turns i i1 (ta_turns t - 1)) (fun _ => Jump (LFound c i i1))
      else Unlock (MTa i i1) (Jump (LScan c i (Datatypes.S i1))))
    else Jump (LScan c i (Datatypes.S i1))))).

(** From the label found; [i] and [i1] are lab_index and ta_index. *)
Definition found (c i i1 : nat) : prog :=
  Choose (fun r =>
  Act (cs <- get_course (Z.of_nat c) ;; if cs_slots cs =? 0 then fail EUndef else ret (Z.rem (rand r) (cs_slots cs) + 1)) (fun slots =>
  Act (cs <- get_course (Z.of_nat c) ;; l <- get_lab i ;; t <- get_ta i i1 ;;
       say (ETa i1 i (cs_name cs) (lab_max l - ta_turns t))) (fun _ =>
  Act (cs <- get_course (Z.of_nat c) ;; say (ESeats (cs_name cs) slots)) (fun _ =>
  Lock (MCond c) (
  signals (Z.to_nat slots) (VCond c) (
  Unlock (MCond c) (
  Act (cs <- get_course (Z.of_nat c) ;; say (EStart (cs_name cs) (cs_attending cs) slots)) (fun _ =>
  Lock (MTut c) (
  Broadcast (VTut c) (
  Unlock (MTut c) (
  Act (cs <- get_course (Z.of_nat c) ;; l <- get_lab i ;; say (ELeft i1 (lab_name l) (cs_name cs))) (fun _ =>
  Act (mod_course (Z.of_nat c) (fun cs => cs <| cs_attending := 0 |>)) (fun _ =>
  Unlock (MTa i i1) (Jump (LCourse c))))))))))))))).

(** ** student_thread() *)

Definition pref_of (s : student F) (i : nat) : M S Z := p <- aget (sd_prefs s) (Z.of_nat i) ;; ret (i32 p).

(** One round of f(3) *)
Definition pref (s i : nat) : prog :=
  if Nat.leb 3 i then
    Act (sd <- get_student s ;; say (EFailed (sd_id sd))) (fun _ => Done)
  else
  Act (when (negb (Nat.eqb i 0))
        (sd <- get_student s ;; p0 <- pref_of sd (i - 1) ;; p1 <- pref_of sd i ;;
         c0 <- get_course p0 ;; c1 <- get_course p1 ;;
         say (EChange (sd_id sd) (cs_name c0) (Z.of_nat i - 1) (cs_name c1) (Z.of_nat i)))) (fun _ =>
  Act (sd <- get_student s ;; p <- pref_of sd i ;; cs <- get_course p ;; ret (Z.to_nat p, cs_end cs)) (fun pe =>
  let c := pe.1 in
  if pe.2 =? 1 then Jump (LPref s (Datatypes.S i)) else
  Lock (MCond c) (
  Wait (VCond c) (MCond c) false (fun _ =>
  Unlock (MCond c) (
  Act (get_course (Z.of_nat c)) (fun cs =>
  if cs_end cs =? 1 then Jump (LPref s (Datatypes.S i)) else
  Lock (MCounter c) (
  Act (get_course (Z.of_nat c)) (fun cs =>
  Act (mod_course (Z.of_nat c) (fun cs' => cs' <| cs_attending := cs_attending cs + 1 |>)) (fun _ =>
  Act (sd <- get_student s ;; cs <- get_course (Z.of_nat c) ;; say (ESeat (sd_id sd) (cs_name cs))) (fun _ =>
  Unlock (MCounter c) (
  Lock (MTut c) (
  Wait (VTut c) (MTut c) false (fun _ =>
  Unlock (MTut c) (
  Choose (fun r =>
  Act (sd <- get_student s ;; cs <- get_course (Z.of_nat c) ;;
       if rand r mod 100 <? percent (cs_interest cs) (sd_calibre sd)
       then say (EChosen (sd_id sd) (cs_name cs)) ;; ret true
       else when (cs_end cs =? 0) (say (EWithdrawn (sd_id sd) (cs_name cs))) ;; ret false) (fun chosen =>
  if (chosen : bool) then Done else Jump (LPref s (Datatypes.S i)))))))))))))))))).

(** ** main() *)

Definition inl : lens S (list (tok F)) := field sm_in.
Notation scan_int := (scan_int inl).
Notation scan_float := (scan_float inl).
Notation scan_word := (scan_word inl).

Definition read_course : M S (course F) :=
  name <- scan_word ;;
  interest <- scan_float ;;
  slots <- scan_int ;;
  n <- scan_int ;;
  labs <- repeat_m (Z.to_nat n) scan_int ;;
  ret (mkcourse name interest slots n labs 0 junk).

Definition read_student (i : nat) : M S (student F) :=
  calibre <- scan_float ;;
  p1 <- scan_int ;;
  p2 <- scan_int ;;
  p3 <- scan_int ;;
  time <- scan_int ;;
  ret (mkstudent (Z.of_nat i) [p1; p2; p3] calibre time).

Definition read_lab (i : nat) : M S lab :=
  name <- scan_word ;;
  n <- scan_int ;;
  max <- scan_int ;;
  ret (mklab (Z.of_nat i) name n max ((fun j => mkta (Z.of_nat j) (-1) max) <$> seq 0 (Z.to_nat n))).

(** The numbers of courses and of students *)
Definition read_input : M S (nat * nat) :=
  ns <- scan_int ;;
  nl <- scan_int ;;
  nc <- scan_int ;;
  cs <- repeat_m (Z.to_nat (i32 nc)) read_course ;;
  ss <- read_array 0 (Z.to_nat (i32 ns)) read_student ;;
  ls <- read_array 0 (Z.to_nat (i32 nl)) read_lab ;;
  modify (fun s => s <| sm_courses := cs |> <| sm_students := ss |> <| sm_labs := ls |>) ;;
  ret (length cs, length ss).

Definition code (l : label) : prog :=
  match l with
  | LMain => Act read_input (fun n => Jump (LMakeCourses n.1 n.2 0 []))
  | LMakeCourses nc ns i ts =>
      if (nc <=? i)%nat then Jump (LMakeStudents nc ns 0 ts [])
      else Spawn (LCourse i) (fun t => Jump (LMakeCourses nc ns (Datatypes.S i) (ts ++ [t])))
  | LMakeStudents nc ns i ts us =>
      if (ns <=? i)%nat then Jump (LJoin (us ++ ts))
      else Spawn (LStudent i) (fun u => Jump (LMakeStudents nc ns (Datatypes.S i) ts (us ++ [u])))
  | LJoin [] => Act (say EExit) (fun _ => Done)
  | LJoin (t :: ts) => Join t (Jump (LJoin ts))
  | LCourse c => Jump (LScan c 0 0)
  | LScan c i i1 => scan c i i1
  | LFound c i i1 => found c i i1
  | LStudent s => Act (sd <- get_student s ;; say (EFilled (sd_id sd))) (fun _ => Jump (LPref s 0))
  | LPref s i => pref s i
  end.

(** ** Specification

    What a thread stands for: main() before it has read the input; nothing; a course
    that holds a TA's lock and has read that [z] > 0 turns are left; that has taken a turn, and
    will announce it; that has announced it. *)
Inductive ghost : Type := Booting | Idle | Checking (i j : nat) (z : Z) | Given (i j : nat) | Tutor (i j : nat).

(** The numbers of the TA ships of a TA, as they were printed *)
Definition is_ta (i j : nat) (e : event) : option Z :=
  match e with ETa t l _ n => if decide (l = i /\ t = j) then Some n else None | _ => None end.
Definition announced (i j : nat) (out : list event) : list Z := omap (is_ta i j) out.

Definition owed (i j : nat) (g : ghost) : Z :=
  match g with Given i' j' => if decide (i' = i /\ j' = j) then 1 else 0 | _ => 0 end.
Fixpoint owing (i j : nat) (gs : list ghost) : Z :=
  match gs with [] => 0 | g :: gs' => owed i j g + owing i j gs' end.

(** A TA of the table *)
Definition ta_at (s : S) (i j : nat) (l : lab) (t : ta) : Prop := sm_labs s !! i = Some l /\ lab_tas l !! j = Some t.

Record turns_ok (s : S) (gs : list ghost) (i j : nat) (l : lab) (t : ta) : Prop := {
  tk_order : announced i j (sm_out s) = seqZ 1 (Z.of_nat (length (announced i j (sm_out s))));
  tk_count : ta_turns t + Z.of_nat (length (announced i j (sm_out s))) + owing i j gs = lab_max l;
  tk_bound : Z.min 0 (lab_max l) <= ta_turns t;
}.

Record accounts (s : S) (gs : list ghost) : Prop := {
  ac_boot : Booting ∈ gs -> gs = [Booting] /\ sm_labs s = [] /\ sm_out s = [];
  ac_turns : forall i j l t, ta_at s i j l t -> turns_ok s gs i j l t;
  ac_check : forall n i j z, gs !! n = Some (Checking i j z) -> 0 < z /\ exists l t, ta_at s i j l t /\ ta_turns t = z;
}.

Definition link (h : list sync) (g : ghost) : Prop :=
  match g with Checking i j _ | Given i j | Tutor i j => MTa i j ∈ h | _ => True end.

Definition at_ (l : label) (h : list sync) (g : ghost) : Prop :=
  match l with
  | LMain => h = [] /\ g = Booting
  | LFound _ i j => h = [MTa i j] /\ g = Given i j
  | _ => h = [] /\ g = Idle
  end.
Definition new (l : label) : ghost := match l with LMain => Booting | _ => Idle end.

(** A TA's lock is taken before any other. *)
Definition rank (m : sync) : nat := match m with MTa _ _ => 0 | _ => 1 end.

Notation safe := (Discipline.safe rank accounts link at_ new).

(** ** Actions that say nothing about TAs *)

Definition quiet (s s' : S) : Prop :=
  sm_labs s' = sm_labs s /\ forall i j, announced i j (sm_out s') = announced i j (sm_out s).

#[local] Instance course_quiet_preorder : PreOrder quiet.
Proof. split; [done|]. intros s1 s2 s3 [H1 H2] [H3 H4]. split; [congruence|]. intros i j. by rewrite H4. Qed.

Notation calm := (frames quiet).

Lemma announced_app i j out es : announced i j (out ++ es) = announced i j out ++ announced i j es.
Proof. apply omap_app. Qed.

Lemma course_calm_say e : (forall i j, is_ta i j e = None) -> calm (say e).
Proof.
  intros He. apply frames_modify. intros s. split; [done|]. intros i j. cbn [sm_out set_field]. rewrite announced_app. cbn. by rewrite He, app_nil_r.
Qed.

Ltac calm_tac := frames_tac ltac:(by apply course_calm_say).

Lemma calm_get_ta i j : calm (get_ta i j).
Proof. unfold get_ta, get_lab. calm_tac. Qed.

(** ** The rules *)

Lemma accounts_calm {A} (m : M S A) s gs a s' n g : calm m -> accounts s gs -> gs !! n = Some g -> g <> Booting -> m s = Ret a s' ->
  accounts s' gs.
Proof.
  intros Hm [Hb Ht Hc] Hn Hg E. apply (proj2 Hm) in E as [El Eo]. split.
  - intros Hin. destruct (Hb Hin) as [-> _]. by apply list_lookup_singleton_Some in Hn as [_ <-].
  - intros i' j' l t [H1 H2]. rewrite El in H1. destruct (Ht i' j' l t) as [T1 T2 T3]; [done|].
    split; by rewrite ?Eo.
  - intros n' i' j' z Hn'. destruct (Hc _ _ _ _ Hn') as (Hz & l & t & [H1 H2] & Hv). split; [done|]. exists l, t. split; [|done].
    split; [by rewrite El|done].
Qed.

Lemma course_safe_calm {A} (m : M S A) k h g : calm m -> link h g -> g <> Booting -> (forall a, safe h g (k a)) -> safe h g (Act m k).
Proof.
  intros Hm Hl Hg Hk. split; [done|]. split; [right; apply (proj1 Hm)|]. intros i s gs a s' HI Hi _ E. exists g. split; [|apply Hk].
  rewrite list_insert_id by done. by eapply accounts_calm.
Qed.

Lemma safe_signals n v k h g : link h g -> safe h g k -> safe h g (signals n v k).
Proof. intros Hl Hk. induction n as [|n IH]; [done|]. by split. Qed.

(** [owing] follows the ghosts. *)
Lemma owing_insert i j n g g' gs : gs !! n = Some g -> owing i j (<[n := g']> gs) = owing i j gs - owed i j g + owed i j g'.
Proof.
  revert n. induction gs as [|x gs IH]; intros [|n] H; simplify_eq/=; [lia|]. rewrite IH by done. lia.
Qed.

Lemma owing_app i j gs gs' : owing i j (gs ++ gs') = owing i j gs + owing i j gs'.
Proof. induction gs as [|x gs IH]; cbn [app owing]; lia. Qed.

Lemma owing_only i j gs : forall n g, gs !! n = Some g -> (forall n' g', n' <> n -> gs !! n' = Some g' -> owed i j g' = 0) ->
  owing i j gs = owed i j g.
Proof.
  induction gs as [|x gs IH]; intros [|n] g Hn Ho; simplify_eq/=.
  - assert (owing i j gs = 0) as ->; [|lia]. clear IH. induction gs as [|y gs IH]; [done|]. cbn.
    rewrite (Ho 1%nat y) by done. rewrite IH; [done|]. intros [|n'] g' ? Hg; [done|]. apply (Ho (Datatypes.S (Datatypes.S n'))); done.
  - rewrite (Ho 0%nat x) by done. rewrite (IH n g Hn); [lia|]. intros n' g' Hne Hg. apply (Ho (Datatypes.S n')); [lia|done].
Qed.

(** Who holds a TA's lock is the only one that owes, or checks, for it. *)
Lemma alone i j h gs n n' g : Discipline.others link h gs n -> MTa i j ∈ h -> n' <> n -> gs !! n' = Some g ->
  match g with Checking i' j' _ | Given i' j' | Tutor i' j' => i' = i /\ j' = j -> False | _ => True end.
Proof.
  intros Ho Hin Hne Hg. destruct (Ho _ _ Hne Hg) as (hj & Hl & Hx). destruct g; try done; intros [-> ->]; by eapply Hx.
Qed.

Lemma owing_alone i j h gs n g : Discipline.others link h gs n -> MTa i j ∈ h -> gs !! n = Some g -> owing i j gs = owed i j g.
Proof.
  intros Ho Hin Hn. eapply owing_only; [done|]. intros n' g' Hne Hg. pose proof (alone i j h gs n n' g' Ho Hin Hne Hg) as Ha.
  destruct g'; try done. cbn in *. rewrite decide_False; tauto.
Qed.

(** A lookup in the table of labs *)
Lemma get_lab_ok i s l s' : get_lab i s = Ret l s' -> s' = s /\ sm_labs s !! i = Some l.
Proof.
  unfold get_lab, bind, gets, aget. rewrite znth_nat. destruct (sm_labs s !! i); intros H; [injection H as <- <-|]; done.
Qed.

Lemma get_ta_ok i j s t s' : get_ta i j s = Ret t s' -> s' = s /\ exists l, ta_at s i j l t.
Proof.
  unfold get_ta. intros H. apply bind_inv in H as (l & s1 & H1 & H2). apply get_lab_ok in H1 as [-> Hl].
  unfold aget in H2. rewrite znth_nat in H2. destruct (lab_tas l !! j) eqn:E; [|done]. injection H2 as <- <-. split; [done|]. by exists l.
Qed.

Lemma no_boot s gs n g g' : accounts s gs -> gs !! n = Some g -> g <> Booting -> g' <> Booting -> Booting ∉ <[n := g']> gs.
Proof.
  intros H Hn Hg Hg' Hin. apply list_elem_of_lookup in Hin as [k Hk]. apply list_lookup_insert_Some in Hk as [(_ & ? & _)|[_ Hk]]; [done|].
  destruct (ac_boot _ _ H) as [-> _]; [by apply list_elem_of_lookup; eauto|]. by apply list_lookup_singleton_Some in Hn as [_ <-].
Qed.

(** A thread's ghost changes without the tables, and owes the same. *)
Lemma accounts_swap s gs n g g' : accounts s gs -> gs !! n = Some g -> g <> Booting -> g' <> Booting ->
  (forall i j, owed i j g = owed i j g') ->
  (forall i j z, g' = Checking i j z -> 0 < z /\ exists l t, ta_at s i j l t /\ ta_turns t = z) -> accounts s (<[n := g']> gs).
Proof.
  intros H Hn Hg Hg' Ho Hz. split.
  - intros Hin. by eapply no_boot in Hin.
  - intros i j l t Ht. destruct (ac_turns _ _ H i j l t Ht) as [T1 T2 T3]. split; [done| |done].
    rewrite (owing_insert _ _ _ _ _ _ Hn), (Ho i j). lia.
  - intros n' i j z Hn'. apply list_lookup_insert_Some in Hn' as [(_ & ? & _)|[_ Hn']]; [eauto|by eapply (ac_check _ _ H)].
Qed.

Lemma safe_get_ta i j k h : MTa i j ∈ h -> (forall t, 0 < ta_turns t -> safe h (Checking i j (ta_turns t)) (k t)) ->
  (forall t, ta_turns t <= 0 -> safe h Idle (k t)) -> safe h Idle (Act (get_ta i j) k).
Proof.
  intros Hin H1 H2. split; [done|]. split; [right; apply (proj1 (calm_get_ta i j))|]. intros n s gs t s' HI Hn _ E.
  apply get_ta_ok in E as [-> (l & Ht)]. destruct (Z.lt_ge_cases 0 (ta_turns t)) as [Hp|Hp].
  - exists (Checking i j (ta_turns t)). split; [|by apply H1]. eapply accounts_swap; try done. intros i' j' z [= <- <- <-]. split; [done|]. by exists l, t.
  - exists Idle. split; [|by apply H2]. eapply accounts_swap; try done.
Qed.

(** The tutorial is over. *)
Lemma safe_leave {A} (m : M S A) k h i j : calm m -> MTa i j ∈ h -> (forall a, safe h Idle (k a)) -> safe h (Tutor i j) (Act m k).
Proof.
  intros Hm Hin Hk. split; [done|]. split; [right; apply (proj1 Hm)|]. intros n s gs a s' HI Hn Ho E. exists Idle. split; [|apply Hk].
  eapply accounts_swap; [by eapply accounts_calm|exact Hn|done..].
Qed.

(** The table after a TA's turns are set *)
Lemma set_turns_ok i j n s u s' : set_turns i j n s = Ret u s' -> exists l t, ta_at s i j l t /\
  s' = s <| sm_labs := <[i := l <| lab_tas := <[j := t <| ta_turns := n |>]> (lab_tas l) |>]> (sm_labs s) |>.
Proof.
  unfold set_turns. intros H. apply bind_inv in H as (labs & s1 & [= <- <-] & H).
  apply bind_inv in H as (l & s2 & H1 & H). unfold aget in H1. rewrite znth_nat in H1. destruct (sm_labs s !! i) as [l'|] eqn:El; [|done]. injection H1 as <- <-.
  apply bind_inv in H as (t & s3 & H1 & H). unfold aget in H1. rewrite znth_nat in H1. destruct (lab_tas l' !! j) as [t'|] eqn:Et; [|done]. injection H1 as <- <-.
  rewrite (bind_ret _ _ s (<[j := t' <| ta_turns := n |>]> (lab_tas l')) s) in H.
  2: { pose proof (lookup_lt_Some _ _ _ Et). rewrite aset_ok by lia. by rewrite Nat2Z.id. }
  erewrite bind_ret in H by (pose proof (lookup_lt_Some _ _ _ El); rewrite aset_ok by lia; rewrite Nat2Z.id; done).
  injection H as _ <-. by exists l', t'.
Qed.

Lemma set_turns_blocks i j n s : set_turns i j n s <> Fail EHang.
Proof.
  assert (frames (fun _ _ => True) (set_turns i j n)) as [H _]; [|by apply H]. assert (PreOrder (fun _ _ : S => True)) by done.
  unfold set_turns. frames_tac ltac:(fail).
Qed.

(** What the table holds then *)
Lemma ta_at_set s i j l t n i' j' l' t' : ta_at s i j l t ->
  ta_at (s <| sm_labs := <[i := l <| lab_tas := <[j := t <| ta_turns := n |>]> (lab_tas l) |>]> (sm_labs s) |>) i' j' l' t' ->
  (i' = i /\ j' = j /\ t' = t <| ta_turns := n |> /\ lab_max l' = lab_max l) \/
  (~ (i' = i /\ j' = j) /\ exists l0, ta_at s i' j' l0 t' /\ lab_max l' = lab_max l0).
Proof.
  intros [H1 H2] [H3 H4]. cbn in H3. apply list_lookup_insert_Some in H3 as [(<- & <- & _)|[Hne H3]].
  - cbn in H4. apply list_lookup_insert_Some in H4 as [(<- & <- & _)|[Hne H4]]; [by left|]. right. split; [intros [_ ->]; done|].
    exists l. by split.
  - right. split; [intros [-> _]; done|]. exists l'. by split.
Qed.

Lemma ta_at_fun s i j l t l' t' : ta_at s i j l t -> ta_at s i j l' t' -> l' = l /\ t' = t.
Proof. intros [H1 H2] [H3 H4]. by simplify_eq. Qed.

(** turns_left--, by the course that has checked it *)
Lemma safe_take_turn i j z k h : MTa i j ∈ h -> (forall u, safe h (Given i j) (k u)) ->
  safe h (Checking i j z) (Act (set_turns i j (z - 1)) k).
Proof.
  intros Hin Hk. split; [done|]. split; [right; apply set_turns_blocks|]. intros n s gs u s' HI Hn Ho E. exists (Given i j). split; [|apply Hk].
  apply set_turns_ok in E as (l & t & Hta & ->). destruct (ac_check _ _ HI _ _ _ _ Hn) as (Hz & l1 & t1 & Hta1 & Hv).
  destruct (ta_at_fun _ _ _ _ _ _ _ Hta Hta1) as [-> ->]. split.
  - intros Hb. by eapply no_boot in Hb.
  - intros i' j' l' t' Ht'. apply ta_at_set in Ht' as [(-> & -> & -> & Hm)|(Hne & l0 & Hl0 & Hm)]; [| |done].
    + destruct (ac_turns _ _ HI i j l t Hta) as [T1 T2 T3]. split; cbn [sm_out set_field ta_turns].
      * done.
      * rewrite (owing_insert _ _ _ _ _ _ Hn). cbn [owed]. rewrite decide_True by done. rewrite Hm. cbn. lia.
      * rewrite Hm. cbn. lia.
    + destruct (ac_turns _ _ HI i' j' l0 t' Hl0) as [T1 T2 T3]. split; cbn [sm_out set_field].
      * done.
      * rewrite (owing_insert _ _ _ _ _ _ Hn). cbn [owed]. rewrite decide_False by (intros [-> ->]; auto). rewrite Hm. cbn. lia.
      * by rewrite Hm.
  - intros n' i' j' z' Hn'. apply list_lookup_insert_Some in Hn' as [(_ & ? & _)|[Hne Hn']]; [done|].
    destruct (ac_check _ _ HI _ _ _ _ Hn') as (Hz' & l2 & t2 & Hta2 & Hv2). split; [done|].
    pose proof (alone i j h gs n n' _ Ho Hin (not_eq_sym Hne) Hn') as Ha. cbn in Ha.
    destruct Hta2 as [E1 E2]. destruct (decide (i' = i)) as [->|Hi].
    + exists (l <| lab_tas := <[j := t <| ta_turns := z - 1 |>]> (lab_tas l) |>), t2. destruct Hta as [E3 E4]. simplify_eq.
      split; [|done]. split; cbn; [rewrite list_lookup_insert_eq by (by eapply lookup_lt_Some); done|]. rewrite list_lookup_insert_ne; [done|]. intros ->. by apply Ha.
    + exists l2, t2. split; [|done]. split; cbn; [by rewrite list_lookup_insert_ne|done].
Qed.

(** The allocation is printed, and numbered. *)
Definition announce (c i j : nat) : M S unit :=
  cs <- get_course (Z.of_nat c) ;; l <- get_lab i ;; t <- get_ta i j ;; say (ETa j i (cs_name cs) (lab_max l - ta_turns t)).

Lemma announce_ok c i j s u s' : announce c i j s = Ret u s' -> exists name l t, ta_at s i j l t /\
  s' = s <| sm_out := sm_out s ++ [ETa j i name (lab_max l - ta_turns t)] |>.
Proof.
  unfold announce. intros H. apply bind_inv in H as (cs & s1 & H1 & H). assert (s1 = s) as ->.
  { unfold get_course, bind, gets, aget in H1. destruct (znth (sm_courses s) (Z.of_nat c)); [by injection H1|done]. }
  apply bind_inv in H as (l & s2 & H2 & H). apply get_lab_ok in H2 as [-> Hl].
  apply bind_inv in H as (t & s3 & H3 & H). apply get_ta_ok in H3 as [-> (l' & [Hl' Ht])]. rewrite Hl in Hl'. injection Hl' as <-.
  injection H as _ <-. by exists (cs_name cs), l, t.
Qed.

Lemma announce_blocks c i j s : announce c i j s <> Fail EHang.
Proof.
  assert (frames (fun _ _ => True) (announce c i j)) as [H _]; [|by apply H]. assert (PreOrder (fun _ _ : S => True)) by done.
  unfold announce, get_course, get_lab, get_ta. frames_tac ltac:(fail).
Qed.

Lemma safe_announce c i j k h : MTa i j ∈ h -> (forall u, safe h (Tutor i j) (k u)) -> safe h (Given i j) (Act (announce c i j) k).
Proof.
  intros Hin Hk. split; [done|]. split; [right; apply announce_blocks|]. intros n s gs u s' HI Hn Ho E. exists (Tutor i j). split; [|apply Hk].
  apply announce_ok in E as (name & l & t & Hta & ->). split.
  - intros Hb. by eapply no_boot in Hb.
  - intros i' j' l' t' Ht'. destruct (ac_turns _ _ HI i' j' l' t' Ht') as [T1 T2 T3].
    assert (owing i' j' (<[n := Tutor i j]> gs) = owing i' j' gs - owed i' j' (Given i j)) as Eo by (rewrite (owing_insert _ _ _ _ _ _ Hn); cbn [owed]; lia).
    destruct (decide (i = i' /\ j = j')) as [[<- <-]|Hne].
    + destruct (ta_at_fun _ _ _ _ _ _ _ Hta Ht') as [-> ->]. rewrite (owing_alone i j h gs n _ Ho Hin Hn) in T2, Eo. cbn [owed] in *. rewrite decide_True in T2, Eo by done.
      assert (announced i j (sm_out (s <| sm_out := sm_out s ++ [ETa j i name (lab_max l - ta_turns t)] |>)) =
        announced i j (sm_out s) ++ [lab_max l - ta_turns t]) as Ea by (cbn [sm_out set_field]; rewrite announced_app; cbn; by rewrite decide_True).
      split; rewrite ?Ea, ?Eo, ?length_app; cbn [length].
      * rewrite Nat.add_1_r, seqZ_S. rewrite <- T1. do 2 f_equal. lia.
      * lia.
      * done.
    + assert (announced i' j' (sm_out (s <| sm_out := sm_out s ++ [ETa j i name (lab_max l - ta_turns t)] |>)) = announced i' j' (sm_out s)) as Ea.
      { cbn [sm_out set_field]. rewrite announced_app. cbn. by rewrite decide_False, app_nil_r. }
      cbn [owed] in Eo. rewrite decide_False in Eo by done. split; rewrite ?Ea, ?Eo; [done|lia|done].
  - intros n' i' j' z Hn'. apply list_lookup_insert_Some in Hn' as [(_ & ? & _)|[_ Hn']]; [done|]. by apply (ac_check _ _ HI _ _ _ _ Hn').
Qed.

(** ** Reading the input *)

Definition fresh (l : lab) : Prop := forall j t, lab_tas l !! j = Some t -> ta_turns t = lab_max l.

Lemma read_lab_fresh i : yields fresh (read_lab i).
Proof.
  do 3 (apply yields_bind; intros ?). intros s l s' [= <- _] j t Ht. cbn in Ht |- *. by apply list_lookup_fmap_Some in Ht as (? & -> & _).
Qed.

(** The part of read_input() that only reads *)
Definition reads : M S (list (course F) * list (student F) * list lab) :=
  ns <- scan_int ;;
  nl <- scan_int ;;
  nc <- scan_int ;;
  cs <- repeat_m (Z.to_nat (i32 nc)) read_course ;;
  ss <- read_array 0 (Z.to_nat (i32 ns)) read_student ;;
  ls <- read_array 0 (Z.to_nat (i32 nl)) read_lab ;;
  ret (cs, ss, ls).

Lemma reads_calm : calm reads.
Proof. unfold reads, read_course, read_student, read_lab. calm_tac. Qed.

Lemma read_input_reads s : read_input s = (r <- reads ;;
  modify (fun s => s <| sm_courses := r.1.1 |> <| sm_students := r.1.2 |> <| sm_labs := r.2 |>) ;; ret (length r.1.1, length r.1.2)) s.
Proof. unfold reads, read_input. by repeat (rewrite bind_assoc; apply bind_ext; intros). Qed.

Lemma read_input_ok s n s' : read_input s = Ret n s' -> Forall fresh (sm_labs s') /\ (forall i j, announced i j (sm_out s') = announced i j (sm_out s)).
Proof.
  rewrite read_input_reads. intros H. apply bind_inv in H as (r & s1 & H1 & H2). injection H2 as _ <-. cbn [sm_labs sm_out set_field].
  split; [|by apply (proj2 reads_calm _ _ _ H1)]. assert (yields (fun r => Forall fresh r.2) reads) as Hy; [|by eapply Hy].
  do 5 (apply yields_bind; intros ?). intros s0 r0 s2 H. apply bind_inv in H as (ls & s3 & H & [= <- _]). eapply yields_read_array; [exact read_lab_fresh|exact H].
Qed.

Lemma safe_read k : (forall n, safe [] Idle (k n)) -> safe [] Booting (Act read_input k).
Proof.
  intros Hk. split; [done|]. split; [by left|]. intros n s gs a s' HI Hn _ E. exists Idle. split; [|apply Hk].
  apply read_input_ok in E as [Hf Ho]. destruct (ac_boot _ _ HI) as (-> & _ & Hout); [by apply list_elem_of_lookup; eauto|].
  apply list_lookup_singleton_Some in Hn as [-> _]. split.
  - cbn. intros Hb. by apply list_elem_of_singleton in Hb.
  - intros i j l t [H1 H2]. apply (Forall_lookup_1 _ _ _ _ Hf) in H1. apply H1 in H2. split; rewrite ?Ho, ?Hout; cbn; [done|lia|lia].
  - intros n' i j z Hn'. cbn in Hn'. by apply list_lookup_singleton_Some in Hn' as [_ ?].
Qed.

(** ** The code is safe *)

Lemma course_drop_top (m x : sync) : m <> x -> Discipline.drop_lock m [m; x] = [x].
Proof. intros H. unfold Discipline.drop_lock. cbn. rewrite (decide_False (P := m <> m)) by auto. by rewrite decide_True by auto. Qed.

Ltac link_tac := first [exact Logic.I | by left | by right; left].

(** The actions that need no thought *)
Ltac safe_step :=
  lazymatch goal with
  | |- Discipline.safe _ _ _ _ _ _ _ (Act ?m _) => apply course_safe_calm; [solve [calm_tac]|link_tac|done|intros]
  | |- Discipline.safe _ _ _ _ _ _ _ (Choose _) => apply Discipline.safe_choose; [link_tac|intros]
  | |- Discipline.safe _ _ _ _ _ _ _ (Lock _ _) => apply Discipline.safe_lock; [link_tac|repeat constructor|]
  | |- Discipline.safe _ _ _ _ _ _ _ (signals _ _ _) => apply safe_signals; [link_tac|]
  | |- Discipline.safe _ _ _ _ _ _ _ (Unlock ?m _) =>
      apply Discipline.safe_unlock; [link_tac|by left|rewrite ?Discipline.drop_one, ?course_drop_top by done]
  end.
Ltac safe_tac := repeat safe_step.

Lemma scan_safe c i i1 : safe [] Idle (scan c i i1).
Proof.
  unfold scan. safe_tac. case_match; safe_tac; [done|]. case_match; [done|]. split; [done|]. split; [|done].
  apply safe_get_ta; [by left|intros t Ht|intros t Ht].
  - destruct (Z.ltb_spec 0 (ta_turns t)); [|lia]. apply safe_take_turn; [by left|]. intros. by split; [left|].
  - destruct (Z.ltb_spec 0 (ta_turns t)); [lia|]. apply Discipline.safe_unlock; [done|by left|]. by rewrite Discipline.drop_one.
Qed.

Lemma found_safe c i i1 : safe [MTa i i1] (Given i i1) (found c i i1).
Proof.
  unfold found. safe_tac. apply (safe_announce c i i1); [by left|intros]. safe_tac. split; [link_tac|]. do 2 safe_step.
  eapply safe_leave; [calm_tac|by left|intros]. safe_tac. done.
Qed.

Lemma pref_safe s i : safe [] Idle (pref s i).
Proof.
  unfold pref. case_match; safe_tac; [done|]. case_match; [done|]. safe_tac. do 3 (split; [done|]). intros _.
  safe_tac. case_match; [done|]. safe_tac. do 3 (split; [done|]). intros _. safe_tac. case_match; done.
Qed.

(** A new thread owes nothing. *)
Lemma course_spawn_ok n s gs : accounts s gs -> gs !! n = Some Idle -> accounts s (gs ++ [Idle]).
Proof.
  intros [Hb Ht Hc] Hn. split.
  - intros Hin. apply elem_of_app in Hin as [Hin|Hin]; [|by apply list_elem_of_singleton in Hin].
    destruct (Hb Hin) as [-> _]. by apply list_lookup_singleton_Some in Hn as [_ ?].
  - intros i j l t Hta. destruct (Ht i j l t Hta) as [T1 T2 T3]. split; [done| |done]. rewrite owing_app. cbn. lia.
  - intros n' i j z Hn'. apply lookup_app_Some in Hn' as [Hn'|[_ Hn']]; [eauto|]. by apply list_lookup_singleton_Some in Hn' as [_ ?].
Qed.

Lemma course_code_safe l h g : at_ l h g -> link h g -> safe h g (code l).
Proof.
  intros Ha Hl. destruct l; cbn in Ha; destruct Ha as [-> ->]; cbn [code].
  - apply safe_read. done.
  - case_match; [done|]. split_and!; try done. intros n s gs. apply course_spawn_ok.
  - case_match; [done|]. split_and!; try done. intros n s gs. apply course_spawn_ok.
  - destruct ts; [safe_tac|]; done.
  - done.
  - apply scan_safe.
  - apply found_safe.
  - safe_tac. done.
  - apply pref_safe.
Qed.

(** The simulation, before main() *)
Definition before (input : list (tok F)) : S := mksim [] [] [] input [].
Definition simulation (input : list (tok F)) : system S label sync := started (before input) LMain.

Lemma course_reachable_inv input y : rtc (step code) (simulation input) y -> exists hg, Discipline.inv rank accounts link at_ new y hg.
Proof.
  intros Hr. eapply Discipline.inv_steps; [exact course_code_safe|exact Hr|]. exists [([], Booting)]. apply Discipline.inv_started; [|done..].
  split; [done| |].
  - intros i j l t [H _]. done.
  - intros n i j z Hn. by apply list_lookup_singleton_Some in Hn as [_ ?].
Qed.

Lemma owing_one i j gs : (forall n n', gs !! n = Some (Given i j) -> gs !! n' = Some (Given i j) -> n = n') -> 0 <= owing i j gs <= 1.
Proof.
  induction gs as [|g gs IH]; intros Hu; cbn [owing]; [lia|]. assert (0 <= owing i j gs <= 1) as Hi.
  { apply IH. intros n n' H1 H2. by assert (Datatypes.S n = Datatypes.S n') as [=] by (apply Hu; done). }
  destruct g as [| | |i' j'|]; cbn [owed]; try lia. case_decide as E; [|lia]. destruct E as [-> ->].
  assert (owing i j gs = 0) as ->; [|lia]. clear IH Hi. assert (forall n, gs !! n <> Some (Given i j)) as Hn.
  { intros n Hn. by pose proof (Hu 0%nat (Datatypes.S n) eq_refl Hn). }
  clear Hu. induction gs as [|g gs IH]; [done|]. cbn [owing]. rewrite IH by (intros n; apply (Hn (Datatypes.S n))).
  pose proof (Hn 0%nat) as H0. destruct g; try done. cbn. rewrite decide_False; [done|]. intros [-> ->]. done.
Qed.

Lemma holders_unique y hg i j : Discipline.inv rank accounts link at_ new y hg -> 0 <= owing i j hg.*2 <= 1.
Proof.
  intros H. assert (forall n, hg.*2 !! n = Some (Given i j) -> sy_owner y !! MTa i j = Some n) as Ho.
  { intros n Hn. apply list_lookup_fmap_Some in Hn as ([h g] & Eg & Hn). cbn in Eg. subst g. apply (Discipline.inv_owner _ _ _ _ _ _ _ H).
    exists h, (Given i j). split; [done|]. destruct (lookup_lt_is_Some_2 (sy_threads y) n) as [p Hp].
    { rewrite <- (Discipline.inv_length _ _ _ _ _ _ _ H). by eapply lookup_lt_Some. }
    by apply (Discipline.safe_link _ _ _ _ _ _ _ _ (Discipline.inv_safe _ _ _ _ _ _ _ H _ _ _ _ Hp Hn)). }
  apply owing_one. intros n n' H1%Ho H2%Ho. congruence.
Qed.

(** ** Properties *)

(** C36: in every state the simulation can reach, for every TA: the TA ships that were
    announced are numbered 1, 2, 3, ... in the order of the output, no number twice, and there
    are never more than max_turns of them; the turns left are the rest, less at most one
    that a course has taken and not announced yet.  Whenever a thread waits for a mutex,
    a thread that holds one can go on.  (in_tut_lock, which main() never initialises, counts as initialised.) *)
Theorem ta_ships (input : list (tok F)) (y : system S label sync) (Hr : rtc (step code) (simulation input) y) :
  (forall i j l t, ta_at (sy_data y) i j l t -> 0 <= lab_max l ->
    exists n, announced i j (sm_out (sy_data y)) = seqZ 1 n /\ 0 <= n <= lab_max l - ta_turns t /\ 0 <= ta_turns t /\
      lab_max l - ta_turns t - n <= 1) /\
  (forall t m k u, sy_crash y = None -> sy_threads y !! t = Some (Lock m k) -> sy_owner y !! m = Some u ->
    exists v c y', astep code v c y = Some y' /\ exists m', sy_owner y !! m' = Some v).
Proof.
  destruct (course_reachable_inv _ _ Hr) as [hg Hinv]. split.
  - intros i j l t Ht Hm. destruct (ac_turns _ _ (Discipline.inv_data _ _ _ _ _ _ _ Hinv) i j l t Ht) as [T1 T2 T3].
    pose proof (holders_unique y hg i j Hinv). eexists. split; [exact T1|]. lia.
  - intros t m k u. by apply (Discipline.no_deadlock rank code accounts link at_ new _ _ _ _ _ _ Hinv).
Qed.
End Courses.

(** ** A student who waits for ever *)

(** main() waits for thread 2, a student asleep on course 0, which has ended. *)
Definition stranded (y : system (sim Z) label sync) : bool :=
  match sy_crash y, sy_threads y, sm_courses (sy_data y) with
  | None, [Join 2 _; Done; Sleep (VCond 0) (MCond 0) false _], [c] => cs_end c =? 1
  | _, _, _ => false
  end.

Lemma stranded_shape y : stranded y = true -> sy_crash y = None /\ cs_end <$> sm_courses (sy_data y) = [1] /\
  exists k0 k2, sy_threads y = [Join 2 k0; Done; Sleep (VCond 0) (MCond 0) false k2].
Proof.
  destruct y as [d o ts cr]. unfold stranded. cbn [sy_crash sy_threads sy_data]. intros H. repeat (case_match; try discriminate H); subst.
  apply Z.eqb_eq in H. cbn. rewrite H. eauto.
Qed.

(** A student looks at course_end before it takes tut_cond_lock.  When the course ends in
    between, its broadcast comes too early: the student sleeps on a course that is
    gone, and unless it wakes up for no reason no thread can ever move again, main()
    waiting for the student. *)
Theorem course_end_strands : exists (input : list (tok Z)) (y : system (sim Z) label sync),
  rtc (step (code (fun a b => a * b * 100) 0)) (simulation input) y /\ sy_crash y = None /\
  cs_end <$> sm_courses (sy_data y) = [1] /\ sy_threads y !! 1%nat = Some Done /\
  (exists k, sy_threads y !! 2%nat = Some (Sleep (VCond 0) (MCond 0) false k)) /\
  (forall i c y', astep (code (fun a b => a * b * 100) 0) i c y = Some y' -> i = 2%nat /\ c = 0).
Proof.
  exists [TInt 1; TInt 0; TInt 1; TWord [65]; TFloat 1; TInt 1; TInt 0; TFloat 1; TInt 0; TInt 0; TInt 0; TInt 0].
  destruct (run_reaches (code (fun a b => a * b * 100) 0) stranded
    (replicate 9 (0%nat, 0) ++ replicate 5 (2%nat, 0) ++ replicate 6 (1%nat, 0) ++ replicate 2 (2%nat, 0))
    (simulation [TInt 1; TInt 0; TInt 1; TWord [65]; TFloat 1; TInt 1; TInt 0; TFloat 1; TInt 0; TInt 0; TInt 0; TInt 0]))
    as (y & Hr & Hy); [vm_compute; reflexivity|].
  apply stranded_shape in Hy as (Hc & He & k0 & k2 & Ht). exists y. rewrite Ht. split_and!; [done..|by eexists|].
  intros i c y' H. unfold astep in H. rewrite Hc, Ht in H. destruct i as [|[|[|i]]]; try done. split; [done|]. cbn in H.
  by destruct (Z.eqb_spec c 0).
Qed.

(** ** Witness *)

(** Course A has announced its first TA ship. *)
Definition wit_input : list (tok Z) :=
  [TInt 0; TInt 1; TInt 1; TWord [65]; TFloat 1; TInt 3; TInt 1; TInt 0; TWord [66]; TInt 1; TInt 2].
Definition wit_first (y : system (sim Z) label sync) : bool :=
  match sm_labs (sy_data y), announced 0 0 (sm_out (sy_data y)) with
  | [l], [1] => match lab_tas l with [t] => (lab_max l =? 2) && (ta_turns t =? 1) | _ => false end
  | _, _ => false
  end.

Lemma ta_ships_witness : exists (y : system (sim Z) label sync) l t,
  rtc (step (code (fun a b => a * b * 100) 0)) (simulation wit_input) y /\ ta_at (sy_data y) 0 0 l t /\ ta_turns t = 1 /\
  exists n, announced 0 0 (sm_out (sy_data y)) = seqZ 1 n /\ 0 <= n <= lab_max l - ta_turns t /\ 0 <= ta_turns t /\
    lab_max l - ta_turns t - n <= 1.
Proof.
  destruct (run_reaches (code (fun a b => a * b * 100) 0) wit_first (replicate 7 (0%nat, 0) ++ replicate 12 (1%nat, 0)) (simulation wit_input))
    as (y & Hr & Hy); [vm_compute; reflexivity|].
  unfold wit_first in Hy. destruct (sm_labs (sy_data y)) as [|l [|? ?]] eqn:El; try done.
  assert (exists t, lab_tas l = [t] /\ lab_max l = 2 /\ ta_turns t = 1) as (t & Et & Em & E1).
  { destruct (announced 0 0 (sm_out (sy_data y))) as [|[|[]|] [|? ?]]; try done. destruct (lab_tas l) as [|t [|? ?]]; try done.
    apply andb_true_iff in Hy as [H1%Z.eqb_eq H2%Z.eqb_eq]. by exists t. }
  exists y, l, t. assert (ta_at (sy_data y) 0 0 l t) as Ht by (split; [by rewrite El|by rewrite Et]). split_and!; [done..|].
  apply (proj1 (ta_ships _ _ _ y Hr) 0%nat 0%nat l t Ht). lia.
Defined.
