(* ===== verification/Stadium.v ===== *)
(** * Stadium: the stadium simulation, Assignment 5/Q2

    Models Assignment 5/Q2/main.c and defs.h with the threads of [Threads]: main(), a
    thread per spectator, per zone and per chance to score.  Time is not modelled: a timed
    wait may end at any moment.  The floating-point probability is a parameter, [percent] being
    100 times it as an int. *)
From S2P Require Import Prelude Threads Scanf.

(** ** Data (defs.h) *)

Record person : Type := mkperson {
  pn_name : list Z;
  pn_type : Z;                 (* a char *)
  pn_reach : Z;
  pn_patience : Z;
  pn_limit : Z;
}.

Record group : Type := mkgroup { gp_id : Z; gp_size : Z; gp_members : list person }.

Record chance (F : Type) : Type := mkchance { ch_team : Z; ch_time : Z; ch_prob : F }.
Arguments mkchance {F}.
Arguments ch_team {F}.
Arguments ch_time {F}.
Arguments ch_prob {F}.

(** A person is named by the indices of the group and of the member. *)
Abbreviation who := (nat * nat)%type.

(** The lines that are printed; [ESeat] has the letter of the zone.  The [zone] of the lines is
    not part of them: it is the zone_id of the thread that prints it. *)
Inductive event : Type :=
  | EReached (p : who)
  | ENoSeat (p : who)
  | ESeat (p : who) (letter : Z) (zone : nat)
  | EWatched (p : who) (time : Z) (zone : nat)
  | EBad (p : who) (zone : nat)
  | EGoal (team : Z) (nth : Z)
  | EMiss (team : Z) (nth : Z).

(** The globals, the input and the output *)
Record stadium (F : Type) : Type := mkstadium {
  st_capacity : list Z;        (* sync_stuff.capacity: the values of the semaphores *)
  st_goals : list Z;           (* sync_stuff.goals_count *)
  st_seating : list Z;         (* seating_capacity *)
  st_time : Z;                 (* spectating_time *)
  st_groups : list group;
  st_store : list (chance F);
  st_done : bool;
  st_in : list (tok F);
  st_out : list event;
}.
Arguments mkstadium {F}.
Arguments st_capacity {F}.
Arguments st_goals {F}.
Arguments st_seating {F}.
Arguments st_time {F}.
Arguments st_groups {F}.
Arguments st_store {F}.
Arguments st_done {F}.
Arguments st_in {F}.
Arguments st_out {F}.
#[export] Instance eta_stadium F : Settable (stadium F) := fun s =>
  mkstadium (st_capacity s) (st_goals s) (st_seating s) (st_time s) (st_groups s) (st_store s) (st_done s) (st_in s) (st_out s).

(** fans_type_mutex[i], goal_cond_mutex, goals_count_mutex, fans_type[i], goal_cond *)
Inductive sync : Type := MFans (i : nat) | MGoal | MCount | VFans (i : nat) | VGoal.
#[export] Instance stadium_sync_eq_dec : EqDecision sync.
Proof. solve_decision. Defined.
#[export] Instance stadium_sync_countable : Countable sync.
Proof.
  apply (inj_countable'
    (fun x => match x with MFans i => (0, i) | MGoal => (1, 0) | MCount => (2, 0) | VFans i => (3, i) | VGoal => (4, 0) end%nat)
    (fun y => match y with (0, i) => MFans i | (1, _) => MGoal | (2, _) => MCount | (3, i) => VFans i | (_, _) => VGoal end%nat)).
  by intros [].
Defined.

Definition team_char_to_int (c : Z) : Z := if c =? 72 then 0 else if c =? 65 then 2 else if c =? 78 then 1 else -1.
Definition team_int_to_char (i : Z) : Z := if i =? 0 then 72 else if i =? 2 then 65 else if i =? 1 then 78 else -1.

(** Where a thread can jump to.  [LTry] is justincase, [LWatch] restarting, [LEnd] end. *)
Inductive label : Type :=
  | LMain
  | LGroups (n i : nat) (total : Z)
  | LPeople (g m : nat) (total : Z) (ts : list nat)
  | LZones (total : Z) (ts : list nat)
  | LGoals (total : Z) (n k : nat) (ts zs gs : list nat)
  | LJoin (k : nat) (ts zs gs : list nat)
  | LJoinGoals (zs gs : list nat)
  | LJoinZones (zs : list nat)
  | LSpectator (p : who)
  | LTry (p : who) (ty : nat)
  | LWatch (p : who) (ty zone : nat)
  | LEnd (zone : nat)
  | LZone (i : nat)
  | LGoal (k : nat).

Section Stadium.
Context {F : Type} (percent : F -> Z).

Notation S := (stadium F).
Notation prog := (prog S label sync).

Definition say (e : event) : M S unit := modify (fun s => s <| st_out := st_out s ++ [e] |>).

Definition get_person (p : who) : M S person :=
  gs <- gets st_groups ;; g <- aget gs (Z.of_nat p.1) ;; aget (gp_members g) (Z.of_nat p.2).

(** ** Semaphores *)

Definition sem_trywait (z : nat) : M S bool :=
  l <- gets st_capacity ;;
  v <- aget l (Z.of_nat z) ;;
  if 0 <? v then l <- aset l (Z.of_nat z) (v - 1) ;; modify (fun s => s <| st_capacity := l |>) ;; ret true
  else ret false.

(** sem_wait() blocks as long as the value is 0. *)
Definition sem_wait (z : nat) : M S unit := b <- sem_trywait z ;; if (b : bool) then ret tt else fail EHang.

Definition sem_post (z : nat) : M S unit :=
  l <- gets st_capacity ;;
  v <- aget l (Z.of_nat z) ;;
  l <- aset l (Z.of_nat z) (v + 1) ;;
  modify (fun s => s <| st_capacity := l |>).

(** goals_count[team_char_to_int(c)] *)
Definition get_goals (c : Z) : M S Z := l <- gets st_goals ;; aget l (team_char_to_int c).
Definition set_goals (c n : Z) : M S unit :=
  l <- gets st_goals ;; l <- aset l (team_char_to_int c) n ;; modify (fun s => s <| st_goals := l |>).

(** ** spectator_thread() *)

(** The zones that a fan is given, in the order they are tried *)
Definition zones (ty : nat) : list nat := match ty with 0 => [0; 1] | 1 => [0; 1; 2] | _ => [2] end%nat.

Fixpoint try_zones (p : who) (ty : nat) (zs : list nat) : prog :=
  match zs with
  | [] => Jump (LTry p ty)
  | z :: zs' =>
      Act (sem_trywait z) (fun got =>
      if (got : bool) then Act (say (ESeat p (team_int_to_char (Z.of_nat z)) z)) (fun _ => Jump (LWatch p ty z)) else try_zones p ty zs')
  end.

Definition spectator (p : who) : prog :=
  Act (say (EReached p)) (fun _ =>
  Act (get_person p) (fun x =>
  let type_id := team_char_to_int (pn_type x) in
  if type_id <? 0 then Act (fail (A := unit) EUndef) (fun _ => Done) else Jump (LTry p (Z.to_nat type_id)))).

Definition try_seat (p : who) (ty : nat) : prog :=
  Lock (MFans ty) (
  Wait (VFans ty) (MFans ty) true (fun timedout =>
  Unlock (MFans ty) (
  if timedout then Act (say (ENoSeat p)) (fun _ => Done) else try_zones p ty (zones ty)))).

Definition watch (p : who) (ty zone : nat) : prog :=
  Lock MGoal (
  Wait VGoal MGoal true (fun timedout =>
  Unlock MGoal (
  if timedout then
    Act (t <- gets st_time ;; say (EWatched p t zone)) (fun _ => Jump (LEnd zone))
  else
    Act (x <- get_person p ;; n <- get_goals (pn_type x) ;; ret (pn_limit x <=? n)) (fun bad =>
    if (bad : bool) then Act (say (EBad p zone)) (fun _ => Jump (LEnd zone)) else Jump (LWatch p ty zone))))).

(** ** zone_thread(), goal_thread() *)

(** The two conditions a zone signals *)
Definition wakes (i : nat) : nat * nat := match i with 0 | 1 => (0, 1) | _ => (1, 2) end%nat.

Definition zone (i : nat) : prog :=
  Act (gets st_done) (fun d =>
  if (d : bool) then Done else
  Act (sem_wait i) (fun _ =>
  Act (sem_post i) (fun _ =>
  Signal (VFans (wakes i).1) (
  Signal (VFans (wakes i).2) (Jump (LZone i)))))).

Definition goal (k : nat) : prog :=
  Choose (fun r =>
  Act (l <- gets st_store ;; aget l (Z.of_nat k)) (fun c =>
  if (r mod 2 ^ 31) mod 100 <? percent (ch_prob c) then
    Act (n <- get_goals (ch_team c) ;; say (EGoal (ch_team c) (n + 1))) (fun _ =>
    Lock MCount (
    Act (get_goals (ch_team c)) (fun n =>
    Act (set_goals (ch_team c) (n + 1)) (fun _ =>
    Unlock MCount (
    Broadcast VGoal Done)))))
  else
    Act (n <- get_goals (ch_team c) ;; say (EMiss (ch_team c) (n + 1))) (fun _ => Done))).

(** ** main() *)

Definition inl : lens S (list (tok F)) := field st_in.
Notation scan_int := (scan_int inl).
Notation scan_float := (scan_float inl).
Notation scan_word := (scan_word inl).
Notation scan_char := (scan_char inl).

(** sem_init() takes an unsigned value: a negative one is too large and leaves the
    semaphore as it was, 0. *)
Definition sync_init : M S unit :=
  l <- gets st_seating ;;
  modify (fun s => s <| st_capacity := (fun x => if i32 x <? 0 then 0 else i32 x) <$> l |> <| st_goals := [0; -2; 0] |>).

Definition read_head : M S nat :=
  home <- scan_int ;;
  away <- scan_int ;;
  neutral <- scan_int ;;
  modify (fun s => s <| st_seating := [home; neutral; away] |>) ;;
  time <- scan_int ;;
  modify (fun s => s <| st_time := time |>) ;;
  n <- scan_int ;;
  sync_init ;;
  ret (Z.to_nat (i32 n)).

Definition read_person (_ : nat) : M S person :=
  name <- scan_word ;;
  type <- scan_char ;;
  reach <- scan_int ;;
  patience <- scan_int ;;
  limit <- scan_int ;;
  ret (mkperson name type reach patience limit).

Definition read_group (i : nat) : M S unit :=
  n <- scan_int ;;
  ps <- read_array 0 (Z.to_nat (i32 n)) read_person ;;
  modify (fun s => s <| st_groups := st_groups s ++ [mkgroup (Z.of_nat i + 1) (i32 n) ps] |>).

Definition read_chance : M S unit :=
  team <- scan_char ;;
  time <- scan_int ;;
  prob <- scan_float ;;
  modify (fun s => s <| st_store := st_store s ++ [mkchance team time prob] |>).

Definition code (l : label) : prog :=
  match l with
  | LMain => Act read_head (fun n => Jump (LGroups n 0 0))
  | LGroups n i total =>
      if (n <=? i)%nat then Jump (LPeople 0 0 total []) else
      (* total_people += num_people, which has no value yet *)
      Choose (fun num_people =>
      Act (read_group i) (fun _ => Jump (LGroups n (Datatypes.S i) (i32 (total + num_people)))))
  | LPeople g m total ts =>
      Act (gets st_groups) (fun gs =>
      match gs !! g with
      | None => Jump (LZones total ts)
      | Some x =>
          if gp_size x <=? Z.of_nat m then Jump (LPeople (Datatypes.S g) 0 total ts) else
          (* spec_threads has room for total_people *)
          Act (if total <=? Z.of_nat (length ts) then fail EUndef else ret tt) (fun _ =>
          Spawn (LSpectator (g, m)) (fun t => Jump (LPeople g (Datatypes.S m) total (ts ++ [t]))))
      end)
  | LZones total ts =>
      Spawn (LZone 0) (fun a => Spawn (LZone 1) (fun b => Spawn (LZone 2) (fun c =>
      Act scan_int (fun n =>
      Act (if i32 n <? 0 then fail EUndef else ret tt) (fun _ =>
      Jump (LGoals total (Z.to_nat (i32 n)) 0 ts [a; b; c] []))))))
  | LGoals total n k ts zs gs =>
      if (n <=? k)%nat then Jump (LJoin (Z.to_nat total) ts zs gs) else
      Act read_chance (fun _ => Spawn (LGoal k) (fun t => Jump (LGoals total n (Datatypes.S k) ts zs (gs ++ [t]))))
  | LJoin O ts zs gs => Jump (LJoinGoals zs gs)
  | LJoin (Datatypes.S k) ts zs gs =>
      match ts with
      | [] => Act (fail (A := unit) EUndef) (fun _ => Done)
      | t :: ts' => Join t (Act (modify (fun s => s <| st_done := true |>)) (fun _ => Jump (LJoin k ts' zs gs)))
      end
  | LJoinGoals zs [] => Jump (LJoinZones zs)
  | LJoinGoals zs (t :: gs) => Join t (Broadcast VGoal (Jump (LJoinGoals zs gs)))
  | LJoinZones [] => Done
  | LJoinZones (z :: zs) => Join z (Jump (LJoinZones zs))
  | LSpectator p => spectator p
  | LTry p ty => try_seat p ty
  | LWatch p ty z => watch p ty z
  | LEnd z => Act (sem_post z) (fun _ => Done)
  | LZone i => zone i
  | LGoal k => goal k
  end.

(** ** Specification

    What a thread stands for: main() before it has read the capacities; nothing; a fan
    without a seat; one who has just taken a seat, is watching, has said that he leaves; a
    zone between sem_wait() and sem_post(). *)
Inductive ghost : Type :=
  | Boot | Idle | Fan (p : who) (ty : nat) | Took (p : who) (ty z : nat) | Watching (p : who) (ty z : nat) | Leaving (z : nat) | Poll (z : nat).

(** The seats of a zone *)
Definition seats (x : Z) : Z := if i32 x <? 0 then 0 else i32 x.

(** Does the thread use a seat of zone [z]; does it watch there? *)
Definition uses (z : nat) (g : ghost) : Z :=
  match g with Took _ _ z' | Watching _ _ z' | Leaving z' | Poll z' => if decide (z' = z) then 1 else 0 | _ => 0 end.
Definition watches (z : nat) (g : ghost) : Z := match g with Watching _ _ z' => if decide (z' = z) then 1 else 0 | _ => 0 end.

Fixpoint total (f : ghost -> Z) (gs : list ghost) : Z := match gs with [] => 0 | g :: gs' => f g + total f gs' end.

(** The spectators who, as printed, have a seat in zone [z] and have not left it *)
Definition seated (z : nat) (e : event) : Z :=
  match e with
  | ESeat _ _ z' => if decide (z' = z) then 1 else 0
  | EWatched _ _ z' | EBad _ z' => if decide (z' = z) then -1 else 0
  | _ => 0
  end.
Fixpoint present (z : nat) (out : list event) : Z := match out with [] => 0 | e :: out' => seated z e + present z out' end.

(** The letters of the teams *)
Definition H_ : Z := 72.
Definition A_ : Z := 65.
Definition N_ : Z := 78.

(** Who may sit where: neutral fans in every zone, home fans in the home and in the neutral zone,
    away fans in the away zone only. *)
Definition may_sit (fan zone : Z) : Prop :=
  (fan = N_ /\ (zone = H_ \/ zone = A_ \/ zone = N_)) \/ (fan = H_ /\ (zone = H_ \/ zone = N_)) \/ (fan = A_ /\ zone = A_).

(** The input starts with the capacities of the home, the away and the neutral zone. *)
Definition capacity_of (input : list (tok F)) (zone : Z) : option Z :=
  match input with
  | TInt h :: TInt a :: TInt n :: _ =>
      if zone =? H_ then Some h else if zone =? A_ then Some a else if zone =? N_ then Some n else None
  | _ => None
  end.

(** Person [p] supports the team with the letter [c]. *)
Definition supports (s : S) (p : who) (c : Z) : Prop :=
  exists g x, st_groups s !! p.1 = Some g /\ gp_members g !! p.2 = Some x /\ pn_type x = c.

Context (input : list (tok F)).

(** Person [p] is a fan of type [ty]. *)
Definition is_fan (s : S) (p : who) (ty : nat) : Prop :=
  exists g x, st_groups s !! p.1 = Some g /\ gp_members g !! p.2 = Some x /\ team_char_to_int (pn_type x) = Z.of_nat ty.

Record seating (s : S) (gs : list ghost) : Prop := {
  se_boot : Boot ∈ gs -> gs = [Boot] /\ st_capacity s = [] /\ st_out s = [] /\ st_seating s = [] /\ st_in s = input;
  se_seats : forall z v, st_capacity s !! z = Some v -> 0 <= v /\ exists x, st_seating s !! z = Some x /\ v + total (uses z) gs = seats x;
  se_shown : forall z, present z (st_out s) = total (watches z) gs;
  se_fans : forall n p ty, (gs !! n = Some (Fan p ty) \/ exists z, gs !! n = Some (Took p ty z) \/ gs !! n = Some (Watching p ty z)) -> is_fan s p ty;
  se_zones : forall p c z, ESeat p c z ∈ st_out s -> c = team_int_to_char (Z.of_nat z) /\ exists ty, is_fan s p ty /\ z ∈ zones ty;
  se_read : forall z x, st_seating s !! z = Some x -> capacity_of input (team_int_to_char (Z.of_nat z)) = Some x;
}.

Definition link (h : list sync) (g : ghost) : Prop := match g with Took _ ty z => z ∈ zones ty | _ => True end.

Definition at_ (l : label) (h : list sync) (g : ghost) : Prop :=
  h = [] /\
  match l with
  | LMain => g = Boot
  | LTry p ty => g = Fan p ty
  | LWatch p ty z => g = Watching p ty z
  | LEnd z => g = Leaving z
  | _ => g = Idle
  end.
Definition new (l : label) : ghost := match l with LMain => Boot | _ => Idle end.
Definition rank (m : sync) : nat := 0.

Notation safe := (Discipline.safe rank seating link at_ new).

Lemma total_insert f gs : forall n g g', gs !! n = Some g -> total f (<[n := g']> gs) = total f gs - f g + f g'.
Proof. induction gs as [|x gs IH]; intros [|n] g g' H; simplify_eq/=; [lia|]. rewrite (IH _ _ _ H). lia. Qed.

Lemma total_app f gs gs' : total f (gs ++ gs') = total f gs + total f gs'.
Proof. induction gs as [|x gs IH]; cbn [app total]; lia. Qed.

Lemma uses_nonneg z g : 0 <= watches z g <= uses z g.
Proof. destruct g; cbn; try case_decide; lia. Qed.

Lemma total_le z gs : 0 <= total (watches z) gs <= total (uses z) gs.
Proof. induction gs as [|g gs IH]; cbn [total]; [lia|]. pose proof (uses_nonneg z g). lia. Qed.

Lemma present_app z out out' : present z (out ++ out') = present z out + present z out'.
Proof. induction out as [|e out IH]; cbn [app present]; lia. Qed.

(** ** Actions that take and leave no seat *)

Definition plain (e : event) : Prop := match e with ESeat _ _ _ | EWatched _ _ _ | EBad _ _ => False | _ => True end.

Definition quiet (s s' : S) : Prop :=
  st_capacity s' = st_capacity s /\ st_seating s' = st_seating s /\ st_groups s `prefix_of` st_groups s' /\
  exists es, st_out s' = st_out s ++ es /\ Forall plain es.

#[local] Instance stadium_quiet_preorder : PreOrder quiet.
Proof.
  split.
  - intros s. split_and!; [done..|]. exists []. by rewrite app_nil_r.
  - intros s1 s2 s3 (H1 & H2 & H3 & es & H4 & H5) (K1 & K2 & K3 & es' & K4 & K5). split_and!; [congruence..| |].
    + by etrans.
    + exists (es ++ es'). rewrite K4, H4, app_assoc. split; [done|by apply Forall_app].
Qed.

Notation calm := (frames quiet).

Lemma quiet_same s s' : st_capacity s' = st_capacity s -> st_seating s' = st_seating s -> st_groups s' = st_groups s -> st_out s' = st_out s ->
  quiet s s'.
Proof. intros H1 H2 H3 H4. split_and!; [done..|by rewrite H3|]. exists []. by rewrite H4, app_nil_r. Qed.

Lemma stadium_calm_say e : plain e -> calm (say e).
Proof.
  intros He. apply frames_modify. intros s. split_and!; [done..|]. exists [e]. split; [done|by constructor].
Qed.

Lemma calm_modify f : (forall s, st_capacity (f s) = st_capacity s /\ st_seating (f s) = st_seating s /\ st_groups (f s) = st_groups s /\ st_out (f s) = st_out s) ->
  calm (modify f).
Proof. intros H. apply frames_modify. intros s. destruct (H s) as (? & ? & ? & ?). by apply quiet_same. Qed.

Lemma calm_groups g : calm (modify (fun s : S => s <| st_groups := st_groups s ++ [g] |>)).
Proof. apply frames_modify. intros s. split_and!; [done..|by apply prefix_app_r|]. exists []. by rewrite app_nil_r. Qed.

Lemma quiet_in s l : quiet s (lset inl l s).
Proof. by apply quiet_same. Qed.

Ltac calm_tac := frames_tac ltac:(first [by apply stadium_calm_say | by apply calm_modify | apply calm_groups | apply frames_scan_int; [apply _|apply quiet_in]
  | apply frames_scan_float; [apply _|apply quiet_in] | apply frames_scan_char; [apply _|apply quiet_in] | apply frames_scan_word; [apply _|apply quiet_in]]).

Lemma is_fan_prefix s s' p ty : st_groups s `prefix_of` st_groups s' -> is_fan s p ty -> is_fan s' p ty.
Proof. intros Hp (g & x & H1 & H2 & H3). exists g, x. split_and!; [by eapply prefix_lookup_Some|done..]. Qed.

Lemma present_plain z es : Forall plain es -> present z es = 0.
Proof. induction 1 as [|e es He _ IH]; [done|]. cbn. rewrite IH. by destruct e. Qed.

(** A thread with the ghost [g] acts, and has [g'] then. *)
Lemma seating_update s gs n g g' s' : seating s gs -> gs !! n = Some g -> g <> Boot -> g' <> Boot ->
  st_seating s' = st_seating s -> st_groups s `prefix_of` st_groups s' ->
  (forall z v, st_capacity s' !! z = Some v -> exists v0, st_capacity s !! z = Some v0 /\ 0 <= v /\ v - v0 = uses z g - uses z g') ->
  (forall z, present z (st_out s') - present z (st_out s) = watches z g' - watches z g) ->
  (forall p ty, (g' = Fan p ty \/ exists z, g' = Took p ty z \/ g' = Watching p ty z) -> is_fan s' p ty) ->
  (forall p c z, ESeat p c z ∈ st_out s' -> ESeat p c z ∈ st_out s \/ c = team_int_to_char (Z.of_nat z) /\ exists ty, is_fan s' p ty /\ z ∈ zones ty) ->
  seating s' (<[n := g']> gs).
Proof.
  intros [Hb Hs Hw Hf Hz Hr] Hn Hg Hg' E1 E2 H1 H2 H3 H4. split.
  - intros Hin. apply list_elem_of_lookup in Hin as [k Hk]. apply list_lookup_insert_Some in Hk as [(_ & ? & _)|[_ Hk]]; [done|].
    destruct Hb as [-> _]; [by apply list_elem_of_lookup; eauto|]. by apply list_lookup_singleton_Some in Hn as [_ <-].
  - intros z v Hv. destruct (H1 z v Hv) as (v0 & Hv0 & Hge & Hd). destruct (Hs z v0 Hv0) as (_ & x & Hx & Ht).
    split; [done|]. exists x. rewrite E1, (total_insert _ _ _ _ _ Hn). split; [done|lia].
  - intros z. rewrite (total_insert _ _ _ _ _ Hn), <- Hw. specialize (H2 z). lia.
  - intros n' p ty Hn'. destruct (decide (n' = n)) as [->|Hne].
    + rewrite list_lookup_insert_eq in Hn' by (by eapply lookup_lt_Some). apply H3.
      destruct Hn' as [Hg1|(z & [Hg1|Hg1])]; injection Hg1 as ->; [by left|right; exists z; by left|right; exists z; by right].
    + rewrite list_lookup_insert_ne in Hn' by done. eapply is_fan_prefix; [done|by eapply Hf].
  - intros p c z Hin. destruct (H4 p c z Hin) as [Hin'|?]; [|done]. destruct (Hz p c z Hin') as (? & ty & ? & ?). split; [done|]. exists ty. split; [by eapply is_fan_prefix|done].
  - rewrite E1. exact Hr.
Qed.

(** A quiet action, after which the thread stands for the same seats. *)
Lemma seating_quiet s gs n g g' s' : seating s gs -> gs !! n = Some g -> g <> Boot -> g' <> Boot -> quiet s s' ->
  (forall z, uses z g' = uses z g /\ watches z g' = watches z g) ->
  (forall p ty, (g' = Fan p ty \/ exists z, g' = Took p ty z \/ g' = Watching p ty z) -> is_fan s' p ty) -> seating s' (<[n := g']> gs).
Proof.
  intros H Hn Hg Hg' (E1 & E2 & E3 & es & E4 & E5) Hu Hf. eapply seating_update; try done.
  - intros z v. rewrite E1. intros Hv. exists v. split; [done|]. destruct (se_seats _ _ H z v Hv) as [? _]. destruct (Hu z). lia.
  - intros z. rewrite E4, present_app, (present_plain z es E5). destruct (Hu z). lia.
  - intros p c z. rewrite E4. intros [Hin|Hin]%elem_of_app; [by left|]. rewrite Forall_forall in E5. by apply E5 in Hin.
Qed.

Lemma stadium_safe_calm {A} (m : M S A) k h g : calm m -> link h g -> g <> Boot -> (forall a, safe h g (k a)) -> safe h g (Act m k).
Proof.
  intros Hm Hl Hg Hk. split; [done|]. split; [right; apply (proj1 Hm)|]. intros n s gs a s' HI Hn _ E. exists g. split; [|apply Hk].
  apply (proj2 Hm) in E. eapply seating_quiet; try done. intros p ty H. eapply is_fan_prefix; [apply E|]. eapply (se_fans _ _ HI n).
  destruct H as [-> | (z & [-> | ->])]; eauto.
Qed.

Lemma get_person_ok p s x s' : get_person p s = Ret x s' -> s' = s /\ exists g, st_groups s !! p.1 = Some g /\ gp_members g !! p.2 = Some x.
Proof.
  unfold get_person, gets, bind, aget. rewrite znth_nat. destruct (st_groups s !! p.1) as [g|] eqn:Eg; [|done]. unfold ret. rewrite znth_nat.
  destruct (gp_members g !! p.2) as [x'|] eqn:Ex; [|done]. intros [= <- <-]. eauto.
Qed.

(** The type of a fan is looked up. *)
Lemma safe_get_person p k h : (forall x, team_char_to_int (pn_type x) = -1 -> safe h Idle (k x)) ->
  (forall x ty, team_char_to_int (pn_type x) = Z.of_nat ty -> safe h (Fan p ty) (k x)) -> safe h Idle (Act (get_person p) k).
Proof.
  intros H1 H2. split; [done|]. assert (calm (get_person p)) as Hm by (unfold get_person; calm_tac). split; [right; apply (proj1 Hm)|].
  intros n s gs x s' HI Hn _ E. pose proof (proj2 Hm _ _ _ E) as Hq. apply get_person_ok in E as [-> (g & Hg & Hx)].
  assert (team_char_to_int (pn_type x) = -1 \/ exists ty, team_char_to_int (pn_type x) = Z.of_nat ty) as [Ht|[ty Ht]].
  { unfold team_char_to_int. repeat case_match; [right; by exists 0%nat|right; by exists 2%nat|right; by exists 1%nat|by left]. }
  - exists Idle. split; [|by apply H1]. eapply seating_quiet; try done. by intros p' ty [?|(z & [?|?])].
  - exists (Fan p ty). split; [|by eapply H2]. eapply seating_quiet; try done. intros p' ty' [Hf|(z & [?|?])]; [|done..]. injection Hf as <- <-. by exists g, x.
Qed.

(** A message that changes what is shown *)
Lemma safe_say e k h g g' : g <> Boot -> g' <> Boot -> link h g -> (forall z, uses z g' = uses z g /\ seated z e = watches z g' - watches z g) ->
  (forall p ty, (g' = Fan p ty \/ exists z, g' = Took p ty z \/ g' = Watching p ty z) -> exists z, g = Took p ty z) ->
  (forall p c z, e = ESeat p c z -> c = team_int_to_char (Z.of_nat z) /\ exists ty, g = Took p ty z) ->
  (forall u, safe h g' (k u)) -> safe h g (Act (say e) k).
Proof.
  intros Hg Hg' Hl Hu Hf He Hk. split; [done|]. split; [by right|]. intros n s gs u s' HI Hn Ho [= _ <-]. exists g'. split; [|apply Hk].
  assert (forall p ty, (exists z, g = Took p ty z) -> is_fan s p ty) as Hfan by (intros p ty [z ->]; eapply (se_fans _ _ HI n); eauto).
  eapply seating_update; try done; cbn [st_out st_groups st_capacity set_field].
  - intros z v Hv. exists v. split; [done|]. destruct (se_seats _ _ HI z v Hv). destruct (Hu z). lia.
  - intros z. rewrite present_app. cbn. destruct (Hu z). lia.
  - intros p ty H. by apply Hfan, (Hf p ty).
  - intros p c z [Hin|Hin]%elem_of_app; [by left|]. apply list_elem_of_singleton in Hin as <-. right. destruct (He p c z eq_refl) as [Hc [ty ->]].
    split; [done|]. exists ty. split; [apply Hfan; eauto|done].
Qed.

(** ** Semaphores *)

Definition set_capacity (z : nat) (v : Z) (s : S) : S := s <| st_capacity := <[z := v]> (st_capacity s) |>.

Lemma sem_trywait_ok z s b s' : sem_trywait z s = Ret b s' -> exists v, st_capacity s !! z = Some v /\
  ((b = true /\ 0 < v /\ s' = set_capacity z (v - 1) s) \/ (b = false /\ s' = s)).
Proof.
  unfold sem_trywait. intros H. apply bind_inv in H as (l & s1 & [= <- <-] & H). apply bind_inv in H as (v & s2 & H1 & H).
  unfold aget in H1. rewrite znth_nat in H1. destruct (st_capacity s !! z) as [v'|] eqn:Ev; [|done]. injection H1 as <- <-.
  exists v'. split; [done|]. destruct (Z.ltb_spec 0 v'); [left|injection H as <- <-; by right].
  pose proof (lookup_lt_Some _ _ _ Ev). erewrite bind_ret in H by (rewrite aset_ok by lia; rewrite Nat2Z.id; done). injection H as <- <-. by split_and!.
Qed.

Lemma sem_post_ok z s u s' : sem_post z s = Ret u s' -> exists v, st_capacity s !! z = Some v /\ s' = set_capacity z (v + 1) s.
Proof.
  unfold sem_post. intros H. apply bind_inv in H as (l & s1 & [= <- <-] & H). apply bind_inv in H as (v & s2 & H1 & H).
  unfold aget in H1. rewrite znth_nat in H1. destruct (st_capacity s !! z) as [v'|] eqn:Ev; [|done]. injection H1 as <- <-.
  pose proof (lookup_lt_Some _ _ _ Ev). erewrite bind_ret in H by (rewrite aset_ok by lia; rewrite Nat2Z.id; done). injection H as _ <-. eauto.
Qed.

(** A seat of zone [z] is taken or given back: [d] seats fewer are used. *)
Lemma seating_seat s gs n g g' z v d : seating s gs -> gs !! n = Some g -> g <> Boot -> g' <> Boot ->
  st_capacity s !! z = Some v -> 0 <= v + d -> (forall z', uses z' g - uses z' g' = (if decide (z' = z) then d else 0) /\ watches z' g' = watches z' g) ->
  (forall p ty, (g' = Fan p ty \/ exists z, g' = Took p ty z \/ g' = Watching p ty z) -> is_fan s p ty) ->
  seating (set_capacity z (v + d) s) (<[n := g']> gs).
Proof.
  intros H Hn Hg Hg' Hv Hd Hu Hf. eapply seating_update; try done.
  - intros z' w Hw. cbn in Hw. destruct (Hu z') as [Hz _]. apply list_lookup_insert_Some in Hw as [(<- & <- & _)|[Hne Hw]].
    + exists v. rewrite decide_True in Hz by done. split; [done|lia].
    + exists w. rewrite decide_False in Hz by done. destruct (se_seats _ _ H z' w Hw). split; [done|lia].
  - intros z'. cbn. destruct (Hu z'). lia.
  - by left.
Qed.

Lemma safe_trywait p ty z k h : z ∈ zones ty -> safe h (Took p ty z) (k true) -> safe h (Fan p ty) (k false) ->
  safe h (Fan p ty) (Act (sem_trywait z) k).
Proof.
  intros Hz H1 H2. split; [done|]. split.
  { right. assert (frames (fun _ _ => True) (sem_trywait z)) as [Hb _]; [|done]. assert (PreOrder (fun _ _ : S => True)) by done.
    unfold sem_trywait. frames_tac ltac:(fail). }
  intros n s gs b s' HI Hn Ho E. apply sem_trywait_ok in E as (v & Hv & [(-> & Hp & ->)|[-> ->]]).
  - exists (Took p ty z). split; [|done]. replace (v - 1) with (v + -1) by lia. eapply seating_seat; try done; [lia| |].
    + intros z'. cbn. split; [|done]. destruct (decide (z = z')) as [->|]; [by rewrite decide_True|by rewrite decide_False by auto].
    + intros p' ty' [?|(z' & [Hf|?])]; [done| |done]. injection Hf as <- <- <-. eapply (se_fans _ _ HI n). by left.
  - exists (Fan p ty). split; [|done]. by rewrite list_insert_id.
Qed.

Lemma safe_sem_wait z k : safe [] (Poll z) (k tt) -> safe [] Idle (Act (sem_wait z) k).
Proof.
  intros Hk. split; [done|]. split; [by left|]. intros n s gs [] s' HI Hn Ho E. exists (Poll z). split; [|done].
  unfold sem_wait in E. apply bind_inv in E as (b & s1 & E & E1). apply sem_trywait_ok in E as (v & Hv & [(-> & Hp & ->)|[-> ->]]); [|done].
  injection E1 as <-. replace (v - 1) with (v + -1) by lia. eapply seating_seat; try done; [lia| |].
  - intros z'. cbn. split; [|done]. destruct (decide (z = z')) as [->|]; [by rewrite decide_True|by rewrite decide_False by auto].
  - by intros p' ty' [?|(z' & [?|?])].
Qed.

Lemma safe_sem_post z k g : g = Poll z \/ g = Leaving z -> safe [] Idle (k tt) -> safe [] g (Act (sem_post z) k).
Proof.
  intros Hg Hk. split; [by destruct Hg as [-> | ->]|]. split; [by left|]. intros n s gs [] s' HI Hn Ho E. exists Idle. split; [|done].
  apply sem_post_ok in E as (v & Hv & ->). destruct (se_seats _ _ HI z v Hv) as [? _]. eapply seating_seat; try done; [by destruct Hg as [-> | ->]|lia| |].
  - intros z'. split; [|by destruct Hg as [-> | ->]].
    destruct Hg as [-> | ->]; cbn; (destruct (decide (z = z')) as [->|]; [by rewrite decide_True|by rewrite decide_False by auto]).
  - by intros p' ty' [?|(z' & [?|?])].
Qed.

(** ** The code is safe *)

Lemma scan_int_ok s x s' : scan_int s = Ret x s' -> exists l, st_in s = TInt x :: l /\ st_in s' = l.
Proof.
  intros H. apply bind_inv in H as (t & s1 & H1 & H). unfold next_tok in H1. apply bind_inv in H1 as (l & s2 & [= <- <-] & H1).
  cbn [lget inl field] in H1. destruct (st_in s) as [|t' l]; [done|]. apply bind_inv in H1 as (u & s3 & [= _ <-] & H1). injection H1 as -> <-.
  destruct t; [|done..]. injection H as <- <-. by exists l.
Qed.

Lemma read_head_ok s n s' : read_head s = Ret n s' -> st_capacity s' = seats <$> st_seating s' /\ st_out s' = st_out s /\
  exists h a m l, st_in s = TInt h :: TInt a :: TInt m :: l /\ st_seating s' = [h; m; a].
Proof.
  intros H. split_and!.
  - unfold read_head in H. repeat (apply bind_inv in H as (? & ? & ? & H); try (injection H as _ <-)).
    done.
  - assert (frames (fun s s' : S => st_out s' = st_out s) read_head) as [_ Hf]; [|by eapply Hf].
    assert (PreOrder (fun s s' : S => st_out s' = st_out s)) by (split; [done|]; intros ? ? ?; congruence).
    unfold read_head, sync_init. frames_tac ltac:(fail).
  - unfold read_head in H. apply bind_inv in H as (h & s1 & H1 & H). apply bind_inv in H as (a & s2 & H2 & H). apply bind_inv in H as (m & s3 & H3 & H).
    apply scan_int_ok in H1 as (l1 & E1 & <-), H2 as (l2 & E2 & <-), H3 as (l3 & E3 & <-). exists h, a, m, (st_in s3).
    split; [by rewrite E1, E2, E3|]. apply bind_inv in H as (u & s4 & [= _ <-] & H).
    match goal with H : ?m ?s4 = Ret _ s' |- _ =>
      assert (frames (fun s s' : S => st_seating s' = st_seating s) m) as [_ Hf] end.
    { assert (PreOrder (fun s s' : S => st_seating s' = st_seating s)) by (split; [done|]; intros ? ? ?; congruence).
      unfold sync_init. frames_tac ltac:(first [apply frames_modify; done | apply frames_scan_int; [apply _|done]]). }
    by apply Hf in H.
Qed.

Lemma safe_read_head k : (forall n, safe [] Idle (k n)) -> safe [] Boot (Act read_head k).
Proof.
  intros Hk. split; [done|]. split; [by left|]. intros n s gs a s' HI Hn _ E. exists Idle. split; [|apply Hk].
  destruct (se_boot _ _ HI) as (-> & Hc & Ho & Hse & Hin); [by apply list_elem_of_lookup; eauto|]. apply list_lookup_singleton_Some in Hn as [-> _].
  apply read_head_ok in E as (E1 & E2 & h & a' & m & l & E3 & E4). rewrite Ho in E2. rewrite Hin in E3. split; cbn [list_insert].
  - intros Hb. by apply list_elem_of_singleton in Hb.
  - intros z v Hv. rewrite E1 in Hv. apply list_lookup_fmap_Some in Hv as (x & -> & Hx). split; [unfold seats; case_match; lia|].
    exists x. split; [done|]. cbn. lia.
  - intros z. by rewrite E2.
  - intros n p ty [Hn|(z & [Hn|Hn])]; by apply list_lookup_singleton_Some in Hn as [_ ?].
  - intros p c z. rewrite E2. intros H. by apply not_elem_of_nil in H.
  - intros z x. rewrite E4, E3. by destruct z as [|[|[|z]]]; intros [= <-].
Qed.

Ltac link_tac := first [exact Logic.I | assumption].

(** The actions that need no thought *)
Ltac safe_step :=
  lazymatch goal with
  | |- Discipline.safe _ _ _ _ _ _ _ (Act _ _) => apply stadium_safe_calm; [solve [calm_tac]|link_tac|done|intros]
  | |- Discipline.safe _ _ _ _ _ _ _ (Choose _) => apply Discipline.safe_choose; [link_tac|intros]
  | |- Discipline.safe _ _ _ _ _ _ _ (Lock _ _) => apply Discipline.safe_lock; [link_tac|constructor|]
  | |- Discipline.safe _ _ _ _ _ _ _ (Wait _ _ _ _) => apply Discipline.safe_wait; [link_tac|link_tac|intros]
  | |- Discipline.safe _ _ _ _ _ _ _ (Unlock ?m _) => apply Discipline.safe_unlock; [link_tac|by left|rewrite ?Discipline.drop_one]
  end.
Ltac safe_tac := repeat safe_step.

Lemma try_zones_safe p ty zs : zs ⊆ zones ty -> safe [] (Fan p ty) (try_zones p ty zs).
Proof.
  induction zs as [|z zs IH]; intros Hz; [done|]. cbn [try_zones]. assert (z ∈ zones ty) as Hin by (apply Hz; by left).
  apply safe_trywait; [done| |apply IH; set_solver].
  apply (safe_say _ _ _ _ (Watching p ty z)); try done.
  - intros z'. split; [done|]. cbn. lia.
  - intros p' ty' [?|(z' & [?|Hf])]; [done..|]. injection Hf as <- <- <-. by exists z.
  - intros p' c' z' [= <- <- <-]. split; [done|]. by exists ty.
Qed.

Lemma leave_safe p ty z e k : (forall z', seated z' e = - watches z' (Watching p ty z)) -> (forall p c z, e <> ESeat p c z) ->
  (forall u, safe [] (Leaving z) (k u)) -> safe [] (Watching p ty z) (Act (say e) k).
Proof.
  intros He Hne Hk. apply (safe_say _ _ _ _ (Leaving z)); try done.
  - by intros p' ty' [?|(z' & [?|?])].
  - intros p' c' z' ->. by destruct (Hne p' c' z').
Qed.

Lemma watch_safe p ty z : safe [] (Watching p ty z) (watch p ty z).
Proof.
  assert (forall z' : nat, (if decide (z = z') then -1 else 0) = - (if decide (z = z') then 1 else 0)) as Hd by (intros; case_decide; done).
  unfold watch. safe_tac. case_match.
  - split; [done|]. split; [by left|]. intros n s gs u s' HI Hn Ho E. apply bind_inv in E as (t & s1 & [= <- <-] & E).
    assert (safe [] (Watching p ty z) (Act (say (EWatched p (st_time s) z)) (fun _ => Jump (LEnd z)))) as (_ & _ & Hs).
    { by apply leave_safe. }
    by eapply Hs.
  - safe_tac. case_match; [|done]. by apply leave_safe.
Qed.

Lemma stadium_spawn_ok n s gs g : seating s gs -> gs !! n = Some g -> g <> Boot -> seating s (gs ++ [Idle]).
Proof.
  intros [Hb Hs Hw Hf Hz Hr] Hn Hg. split; [| | | |done|done].
  - intros Hin. apply elem_of_app in Hin as [Hin|Hin]; [|by apply list_elem_of_singleton in Hin].
    destruct (Hb Hin) as [-> _]. by apply list_lookup_singleton_Some in Hn as [_ <-].
  - intros z v Hv. rewrite total_app. cbn. rewrite Z.add_0_r. by apply Hs.
  - intros z. rewrite total_app, Hw. cbn. lia.
  - intros n' p ty H. apply (Hf n'). destruct H as [H|(z & [H|H])]; (apply lookup_app_Some in H as [H|[_ H]]; [eauto|by apply list_lookup_singleton_Some in H as [_ ?]]).
Qed.

Lemma safe_spawn l k : l <> LMain -> at_ l [] Idle -> (forall t, safe [] Idle (k t)) -> safe [] Idle (Spawn l k).
Proof.
  intros Hl Ha Hk. assert (new l = Idle) as E by by destruct l. split; [done|]. rewrite E. split_and!; try done.
  intros n s gs H Hn. by eapply stadium_spawn_ok.
Qed.

Lemma stadium_code_safe l h g : at_ l h g -> link h g -> safe h g (code l).
Proof.
  intros [-> Ha] Hl. destruct l; cbn in Ha; subst g; cbn [code].
  - by apply safe_read_head.
  - case_match; [done|]. safe_tac. done.
  - safe_tac. case_match; [|done]. case_match; [done|]. safe_tac. by apply safe_spawn.
  - do 3 (apply safe_spawn; [done..|intros]). safe_tac. done.
  - case_match; [done|]. safe_tac. by apply safe_spawn.
  - destruct k; [done|]. destruct ts; [safe_tac; done|]. split; [done|]. split; [done|]. safe_tac. done.
  - destruct gs; [done|]. by split_and!.
  - destruct zs; [done|]. by split_and!.
  - unfold spectator. safe_step. apply safe_get_person; intros.
    + rewrite H. change (-1 <? 0) with true. cbv iota. safe_tac. done.
    + rewrite H. destruct (Z.ltb_spec (Z.of_nat ty) 0); [lia|]. by rewrite Nat2Z.id.
  - unfold try_seat. safe_tac. case_match; [safe_tac; done|]. by apply try_zones_safe.
  - apply watch_safe.
  - apply safe_sem_post; [by right|done].
  - unfold zone. safe_tac. case_match; [done|]. apply safe_sem_wait. apply safe_sem_post; [by left|]. by split_and!.
  - unfold goal. safe_tac. case_match; safe_tac; [|done]. by split_and!.
Qed.

(** The simulation, before main() *)
Definition before : S := mkstadium [] [] [] 0 [] [] false input [].
Definition simulation : system S label sync := started before LMain.

Lemma stadium_reachable_inv y : rtc (step code) simulation y -> exists hg, Discipline.inv rank seating link at_ new y hg.
Proof.
  intros Hr. eapply Discipline.inv_steps; [exact stadium_code_safe|exact Hr|]. exists [([], Boot)]. apply Discipline.inv_started; [|done..].
  split; try done.
  - intros n p ty [H|(z & [H|H])]; by apply list_lookup_singleton_Some in H as [_ ?].
  - intros p c z H. by apply not_elem_of_nil in H.
Qed.

(** ** Properties *)

(** The zones a fan is given are those the fan may sit in. *)
Lemma zones_allowed c z : z ∈ zones (Z.to_nat (team_char_to_int c)) -> 0 <= team_char_to_int c -> may_sit c (team_int_to_char (Z.of_nat z)).
Proof.
  unfold team_char_to_int, may_sit. change H_ with 72. change A_ with 65. change N_ with 78.
  destruct (Z.eqb_spec c 72) as [->|]; [|destruct (Z.eqb_spec c 65) as [->|]; [|destruct (Z.eqb_spec c 78) as [->|]; [|lia]]];
    cbn [zones Z.to_nat Pos.to_nat]; intros Hz _; set_unfold in Hz; naive_solver.
Qed.

(** C37: in every state the simulation can reach: in the zone with the letter H, A or N the spectators
    who, as printed, got a seat and have not left are never more than the seats that the input
    gives to that zone, and the semaphore has at most what they leave; who is shown a seat is
    shown it in a zone that is for supporters of his team: neutral fans anywhere, home fans in H
    or N, away fans in A; and whenever a thread waits for a mutex, a thread that holds one can go on. *)
Theorem seats_exact (y : system S label sync) (Hr : rtc (step code) simulation y) :
  (forall z v, st_capacity (sy_data y) !! z = Some v -> exists x, capacity_of input (team_int_to_char (Z.of_nat z)) = Some x /\
     0 <= v /\ 0 <= present z (st_out (sy_data y)) /\ v + present z (st_out (sy_data y)) <= seats x) /\
  (forall p c z, ESeat p c z ∈ st_out (sy_data y) -> c = team_int_to_char (Z.of_nat z) /\
     exists fan, supports (sy_data y) p fan /\ may_sit fan c) /\
  (forall t m k u, sy_crash y = None -> sy_threads y !! t = Some (Lock m k) -> sy_owner y !! m = Some u ->
    exists v c y', astep code v c y = Some y' /\ exists m', sy_owner y !! m' = Some v).
Proof.
  destruct (stadium_reachable_inv _ Hr) as [hg Hinv]. destruct (Discipline.inv_data _ _ _ _ _ _ _ Hinv) as [Hb Hs Hw Hf Hz Hrd]. split_and!.
  - intros z v Hv. destruct (Hs z v Hv) as (Hge & x & Hx & Ht). exists x. rewrite (Hw z). pose proof (total_le z hg.*2). split; [by apply Hrd|lia].
  - intros p c z Hin. destruct (Hz p c z Hin) as (-> & ty & (g & x & Hg & Hx & Ht) & Hin'). split; [done|]. exists (pn_type x).
    split; [by exists g, x|]. apply zones_allowed; [|lia]. by rewrite Ht, Nat2Z.id.
  - intros t m k u. by apply (Discipline.no_deadlock rank code seating link at_ new _ _ _ _ _ _ Hinv).
Qed.
End Stadium.

(** ** Witness *)

Definition wit_percent (x : Z) : Z := 100 * x.

(** One home seat, and one home fan. *)
Definition wit_input : list (tok Z) :=
  [TInt 1; TInt 0; TInt 0; TInt 5; TInt 1; TInt 1; TWord [65]; TChar 72; TInt 0; TInt 5; TInt 1; TInt 0].

(** main() adds num_people to total_people before it reads it: when the memory happens to hold
    0, spec_threads has no room for the first thread. *)
Lemma people_overflow : exists y, rtc (step (code wit_percent)) (simulation wit_input) y /\ sy_crash y = Some EUndef.
Proof.
  destruct (run_reaches (code wit_percent) (fun y => match sy_crash y with Some EUndef => true | _ => false end)
    (replicate 9 (0%nat, 0)) (simulation wit_input)) as (y & Hr & Hy); [vm_compute; reflexivity|].
  exists y. split; [done|]. by destruct (sy_crash y) as [[]|].
Qed.

(** The fan has taken the seat. *)
Definition wit_seat (y : system (stadium Z) label sync) : bool :=
  match st_capacity (sy_data y), st_out (sy_data y) with
  | [0; 0; 0], [EReached _; ESeat (0%nat, 0%nat) 72 0] => true
  | _, _ => false
  end.

Lemma seats_exact_witness : exists y : system (stadium Z) label sync,
  rtc (step (code wit_percent)) (simulation wit_input) y /\
  (exists x, capacity_of wit_input H_ = Some x /\ 0 <= 0 /\ 0 <= present 0 (st_out (sy_data y)) /\
    0 + present 0 (st_out (sy_data y)) <= seats x) /\
  exists fan, supports (sy_data y) (0%nat, 0%nat) fan /\ may_sit fan H_.
Proof.
  destruct (run_reaches (code wit_percent) wit_seat (replicate 14 (0%nat, 1) ++ replicate 6 (1%nat, 1) ++ replicate 5 (1%nat, 0)) (simulation wit_input))
    as (y & Hr & Hy); [vm_compute; reflexivity|].
  exists y. split; [exact Hr|]. destruct (seats_exact wit_percent wit_input y Hr) as (H1 & H2 & _). unfold wit_seat in Hy. split.
  - apply (H1 0%nat 0). destruct (st_capacity (sy_data y)) as [|[]]; done.
  - apply (H2 (0%nat, 0%nat) H_ 0%nat). 
    assert (exists p, st_out (sy_data y) = [EReached p; ESeat (0%nat, 0%nat) 72 0]) as [p ->]; [|by right; left].
    repeat (case_match; try discriminate Hy). by eexists.
Defined.
