(* ===== verification/Server.v ===== *)
(** * Server: the dictionary server, Assignment 5/Q3

    Models Assignment 5/Q3/server.cpp with the threads of [Threads]: main(), which
    accepts connections, and its worker threads.  The log the server writes to its own
    standard output is left out. *)
From S2P Require Import Prelude Threads Scanf.

(** ** Data *)

Record LockedString : Type := mkls { ls_str : list Z; ls_empty : bool; ls_index : Z }.
#[export] Instance ls_eq_dec : EqDecision LockedString.
Proof. solve_decision. Defined.
#[export] Instance eta_ls : Settable LockedString := fun x => mkls (ls_str x) (ls_empty x) (ls_index x).

(** dict, requestsList.queueInternal, how many connections were accepted, what was sent
    on each, and which are closed.  A connection is named by its number. *)
Record server : Type := mkserver {
  sv_dict : list LockedString;
  sv_queue : list nat;
  sv_accepted : nat;
  sv_sent : list (nat * list Z);
  sv_closed : list nat;
}.
#[export] Instance eta_server : Settable server := fun s =>
  mkserver (sv_dict s) (sv_queue s) (sv_accepted s) (sv_sent s) (sv_closed s).

(** dict[i].lock, requestsList.queue_lock, cond_lock and cond *)
Inductive sync : Type := MStr (i : nat) | MQueue | MCond | VQueue.
#[export] Instance server_sync_eq_dec : EqDecision sync.
Proof. solve_decision. Defined.
#[export] Instance server_sync_countable : Countable sync.
Proof.
  apply (inj_countable'
    (fun x => match x with MStr i => (0, i) | MQueue => (1, 0) | MCond => (2, 0) | VQueue => (3, 0) end%nat)
    (fun y => match y with (0, i) => MStr i | (1, _) => MQueue | (2, _) => MCond | (_, _) => VQueue end%nat)).
  by intros [].
Defined.

Inductive label : Type := LMain | LSpawn (i : nat) | LAccept | LWorker (w : nat) | LClear (w fd i : nat).

Abbreviation cstr := bytes_of_string.

(** ** The text of a request *)

(** isspace() *)
Definition is_space (c : Z) : bool := (c =? 32) || ((9 <=? c) && (c <=? 13)).

(** The words operator>> takes from the stream *)
Fixpoint words_from (cur : list Z) (s : list Z) : list (list Z) :=
  match s with
  | [] => match cur with [] => [] | _ => [rev cur] end
  | c :: s' =>
      if is_space c then match cur with [] => words_from [] s' | _ => rev cur :: words_from [] s' end
      else words_from (c :: cur) s'
  end.
Definition words : list Z -> list (list Z) := words_from [].

(** ss >> word: at the end of the stream [word] stays as it was. *)
Definition extract (ws : list (list Z)) (word : list Z) : list (list Z) * list Z :=
  match ws with [] => ([], word) | w :: ws' => (ws', w) end.

Definition is_digit (c : Z) : bool := (48 <=? c) && (c <=? 57).
Fixpoint digits_value (acc : Z) (s : list Z) : Z :=
  match s with c :: s' => if is_digit c then digits_value (acc * 10 + (c - 48)) s' else acc | [] => acc end.

(** stoi(): [None] for the exceptions invalid_argument and out_of_range *)
Definition stoi (s : list Z) : option Z :=
  let '(sign, t) := match s with 45 :: t => (-1, t) | 43 :: t => (1, t) | _ => (1, s) end in
  match t with
  | c :: _ =>
      if is_digit c then let v := sign * digits_value 0 t in if (v <? - 2 ^ 31) || (2 ^ 31 <=? v) then None else Some v
      else None
  | [] => None
  end.

(** strcmp(request.c_str(), "clear") == 0 *)
Fixpoint until_nul (s : list Z) : list Z :=
  match s with [] => [] | c :: s' => if c =? 0 then [] else c :: until_nul s' end.

Section Server.
(** The connections that arrive: [None] when accept() fails; then what read() of at most
    buff_sz - 1 bytes gives, [None] when it fails.  The thread ids as text; the number of
    workers; whether socket() and bind() succeed. *)
Context (arrivals : list (option (option (list Z)))).
Context (thread_id : nat -> list Z) (num_workers : nat) (socket_ok bind_ok : bool).

Notation prog := (prog server label sync).

(** An exception that nothing catches, and exit(-1), end the process. *)
Definition terminate {A} : M server A := fail (EPanic "terminate").

(** dict[i]; the index of a vector is not checked. *)
Definition getls (i : nat) : M server LockedString := l <- gets sv_dict ;; aget l (Z.of_nat i).
Definition setls (i : nat) (f : LockedString -> LockedString) : M server unit :=
  l <- gets sv_dict ;; x <- aget l (Z.of_nat i) ;; l <- aset l (Z.of_nat i) (f x) ;; modify (fun s => s <| sv_dict := l |>).

(** ** class LockedString *)

Definition UpdateString (i : nat) (new_str : list Z) (k : Z -> prog) : prog :=
  Act (getls i) (fun x =>
  if ls_empty x then k (-1) else
  Lock (MStr i) (
  Act (setls i (fun x => x <| ls_str := new_str |>)) (fun _ =>
  Unlock (MStr i) (k 0)))).

Definition InsertString (i : nat) (new_str : list Z) (k : Z -> prog) : prog :=
  Act (getls i) (fun x =>
  if negb (ls_empty x) then k (-1) else
  Lock (MStr i) (
  Act (setls i (fun x => x <| ls_str := new_str |>)) (fun _ =>
  Act (setls i (fun x => x <| ls_empty := false |>)) (fun _ =>
  Unlock (MStr i) (k 0))))).

Definition GetString (i : nat) (k : list Z -> prog) : prog :=
  Lock (MStr i) (
  Act (getls i) (fun x =>
  Unlock (MStr i) (k (ls_str x)))).

Definition isEmpty (i : nat) (k : bool -> prog) : prog := Act (getls i) (fun x => k (ls_empty x)).

(** Both strings, with both locks held *)
Definition swap_append (i j : nat) (k : prog) : prog :=
  Act (getls i) (fun x =>
  Act (getls j) (fun y =>
  Act (setls i (fun z => z <| ls_str := ls_str z ++ ls_str y |>)) (fun _ =>
  Act (setls j (fun z => z <| ls_str := ls_str z ++ ls_str x |>)) (fun _ => k)))).

Definition concat (i j : nat) (k : Z -> prog) : prog :=
  Act (getls j) (fun y =>
  if ls_empty y then k (-1) else
  Act (getls i) (fun x =>
  if ls_empty x then k (-1) else
  Act (x <- getls i ;; y <- getls j ;; ret (ls_index x, ls_index y)) (fun ij =>
  if ij.1 <? ij.2 then
    Lock (MStr i) (Lock (MStr j) (swap_append i j (Unlock (MStr j) (Unlock (MStr i) (k 0)))))
  else if ij.2 <? ij.1 then
    Lock (MStr j) (Lock (MStr i) (swap_append i j (Unlock (MStr i) (Unlock (MStr j) (k 0)))))
  else
    Lock (MStr i) (
    Act (setls i (fun z => z <| ls_str := ls_str z ++ ls_str z |>)) (fun _ =>
    Unlock (MStr i) (k 0)))))).

Definition Remove (i : nat) (k : Z -> prog) : prog :=
  Act (getls i) (fun x =>
  if ls_empty x then k (-1) else
  Lock (MStr i) (
  Act (setls i (fun x => x <| ls_str := [] |>)) (fun _ =>
  Act (setls i (fun x => x <| ls_empty := true |>)) (fun _ =>
  Unlock (MStr i) (k 0))))).

(** ** WorkerThread() *)

Definition send_string_on_socket (fd : nat) (s : list Z) : M server unit :=
  modify (fun v => v <| sv_sent := sv_sent v ++ [(fd, s)] |>).

Definition SenderWrapper (w fd : nat) (s : list Z) (k : prog) : prog :=
  Act (send_string_on_socket fd (thread_id w ++ cstr " : " ++ s)) (fun _ => k).

(** The end of a request *)
Definition finish (w fd : nat) : prog :=
  Act (modify (fun v => v <| sv_closed := sv_closed v ++ [fd] |>)) (fun _ => Jump (LWorker w)).

(** The request of connection [fd]: a failed read() stores a byte in front of the string. *)
Definition read_string_from_socket (fd : nat) : M server (list Z) :=
  match arrivals !! fd with Some (Some (Some r)) => ret r | _ => fail EUndef end.

(** A key is used as an index; [check_key] is the access that is out of range. *)
Definition check_key (key : Z) : M server nat :=
  l <- gets sv_dict ;; aget l key ;; ret (Z.to_nat key).

Definition command (w fd : nat) (type : list Z) (key : Z) (value : list Z) : prog :=
  if decide (type = cstr "insert") then
    Act (check_key key) (fun i =>
    InsertString i value (fun status =>
    SenderWrapper w fd (if status =? -1 then cstr "Key already exists" else cstr "Insertion successful") (finish w fd)))
  else if decide (type = cstr "update") then
    Act (check_key key) (fun i =>
    UpdateString i value (fun status =>
    if status =? -1 then SenderWrapper w fd (cstr "Key does not exist") (finish w fd)
    else GetString i (fun r => SenderWrapper w fd r (finish w fd))))
  else if decide (type = cstr "fetch") then
    Act (check_key key) (fun i =>
    isEmpty i (fun e =>
    if e then SenderWrapper w fd (cstr "Key does not exist") (finish w fd)
    else GetString i (fun r => SenderWrapper w fd r (finish w fd))))
  else if decide (type = cstr "concat") then
    Act (match stoi value with Some key2 => ret key2 | None => terminate end) (fun key2 =>
    Act (i <- check_key key ;; j <- check_key key2 ;; ret (i, j)) (fun ij =>
    concat ij.1 ij.2 (fun status =>
    if status =? -1 then
      SenderWrapper w fd (cstr "Concat failed as at least one of the keys does not exist") (finish w fd)
    else
      GetString ij.2 (fun r =>
      GetString ij.1 (fun _ => GetString ij.2 (fun _ =>     (* for the log *)
      SenderWrapper w fd r (finish w fd)))))))
  else if decide (type = cstr "delete") then
    Act (check_key key) (fun i =>
    isEmpty i (fun e =>
    if e then SenderWrapper w fd (cstr "No such key exists") (Remove i (fun _ => finish w fd))
    else Remove i (fun _ => finish w fd)))
  else SenderWrapper w fd (cstr "Invalid request") (finish w fd).

Definition handle (w fd : nat) (request : list Z) : prog :=
  if decide (until_nul request = cstr "clear") then Jump (LClear w fd 0) else
  let '(ws, word) := extract (words request) [] in
  let type := word in
  let '(ws, word) := extract ws word in
  Act (match stoi word with Some key => ret key | None => terminate end) (fun key =>
  let value := if decide (type <> cstr "delete" /\ type <> cstr "fetch") then (extract ws word).2 else [] in
  command w fd type key value).

(** The loop of "clear" over the dictionary, from [i] *)
Definition clear (w fd i : nat) : prog :=
  if (100 <=? i)%nat then Act (send_string_on_socket fd (cstr "cleared")) (fun _ => finish w fd)
  else Remove i (fun _ => Jump (LClear w fd (S i))).

(** The loop once the worker has its connection: the request is read and answered *)
Definition reading (w fd : nat) : prog := Act (read_string_from_socket fd) (fun request => handle w fd request).

(** The rest of the loop after pthread_cond_wait() *)
Definition serve (w : nat) : prog :=
  Unlock MCond (
  Lock MQueue (
  Act (q <- gets sv_queue ;; match q with [] => fail EUndef | fd :: _ => ret fd end) (fun fd =>
  Act (modify (fun v => v <| sv_queue := tail (sv_queue v) |>)) (fun _ =>
  Unlock MQueue (
  reading w fd))))).

Definition worker (w : nat) : prog := Lock MCond (Wait VQueue MCond false (fun _ => serve w)).

(** ** main() *)

Definition accept : M server nat :=
  n <- gets sv_accepted ;;
  match arrivals !! n with
  | None => fail EHang
  | Some None => terminate
  | Some (Some _) => modify (fun v => v <| sv_accepted := S n |>) ;; ret n
  end.

Definition set_indices (l : list LockedString) : list LockedString :=
  imap (fun i x => x <| ls_index := Z.of_nat i |>) l.

Definition code (l : label) : prog :=
  match l with
  | LMain => Act (modify (fun v => v <| sv_dict := set_indices (sv_dict v) |>)) (fun _ => Jump (LSpawn 0))
  | LSpawn i =>
      if (num_workers <=? i)%nat then
        Act (if socket_ok && bind_ok then ret tt else terminate) (fun _ => Jump LAccept)
      else Spawn (LWorker i) (fun _ => Jump (LSpawn (S i)))
  | LAccept =>
      Act accept (fun fd =>
      Lock MQueue (
      Act (modify (fun v => v <| sv_queue := sv_queue v ++ [fd] |>)) (fun _ =>
      Unlock MQueue (
      Signal VQueue (Jump LAccept)))))
  | LWorker w => worker w
  | LClear w fd i => clear w fd i
  end.

(** dict(100); index has no value before main() *)
Definition before (junk : nat -> Z) : server :=
  mkserver ((fun i => mkls [] true (junk i)) <$> seq 0 100) [] 0 [] [].

(** ** Locks are taken in the order of the keys *)

Inductive ghost : Type := Boot | Idle.

(** From main()'s first loop on, each string knows its place. *)
Definition placed (s : server) : Prop := forall i x, sv_dict s !! i = Some x -> ls_index x = Z.of_nat i.
Definition indexed (s : server) (gs : list ghost) : Prop :=
  length (sv_dict s) = 100%nat /\ (gs = [Boot] \/ (Boot ∉ gs /\ placed s)).
Definition link (h : list sync) (g : ghost) : Prop := True.
Definition at_ (l : label) (h : list sync) (g : ghost) : Prop := h = [] /\ g = match l with LMain => Boot | _ => Idle end.
Definition new (l : label) : ghost := match l with LMain => Boot | _ => Idle end.
Definition rank (m : sync) : nat := match m with MStr i => i | _ => 0 end.

Notation safe := (Discipline.safe rank indexed link at_ new).

Definition quiet (s s' : server) : Prop := ls_index <$> sv_dict s' = ls_index <$> sv_dict s.

Lemma quiet_length s s' : quiet s s' -> length (sv_dict s') = length (sv_dict s).
Proof. intros H. pose proof (f_equal length H) as E. by rewrite !length_fmap in E. Qed.

Lemma quiet_placed s s' : quiet s s' -> placed s -> placed s'.
Proof.
  intros E Hp i x Hx. pose proof (f_equal (.!! i) E) as Ei. cbn in Ei. rewrite !list_lookup_fmap, Hx in Ei.
  destruct (sv_dict s !! i) as [y|] eqn:Ey; [|done]. injection Ei as ->. by apply Hp.
Qed.

#[local] Instance server_quiet_preorder : PreOrder quiet.
Proof. unfold quiet. split; [done|]. intros s1 s2 s3 H1 H2. by rewrite H2. Qed.

Notation calm := (frames quiet).

Lemma calm_same f : (forall s, sv_dict (f s) = sv_dict s) -> calm (modify f).
Proof. intros H. apply frames_modify. intros s. unfold quiet. by rewrite H. Qed.

Lemma calm_setls i f : (forall x, ls_index (f x) = ls_index x) -> calm (setls i f).
Proof.
  intros Hf. split.
  - assert (frames (fun _ _ => True) (setls i f)) as [Hb _]; [|done]. assert (PreOrder (fun _ _ : server => True)) by done. unfold setls. frames_tac ltac:(fail).
  - intros s u s' H. unfold setls in H. apply bind_inv in H as (l & s1 & [= <- <-] & H). apply bind_inv in H as (x & s2 & H1 & H).
    unfold aget in H1. rewrite znth_nat in H1. destruct (sv_dict s !! i) as [x'|] eqn:Ex; [|done]. injection H1 as <- <-.
    pose proof (lookup_lt_Some _ _ _ Ex). erewrite bind_ret in H by (rewrite aset_ok by lia; rewrite Nat2Z.id; done). injection H as _ <-.
    unfold quiet. cbn. rewrite list_fmap_insert, Hf. apply list_insert_id. by rewrite list_lookup_fmap, Ex.
Qed.

Ltac calm_tac := frames_tac ltac:(first [by apply calm_setls | by apply calm_same]).

Lemma server_safe_calm {A} (m : M server A) k h : calm m -> (forall a, safe h Idle (k a)) -> safe h Idle (Act m k).
Proof.
  intros Hm Hk. split; [done|]. split; [right; apply (proj1 Hm)|]. intros n s gs a s' HI Hn _ E. exists Idle. split; [|apply Hk].
  rewrite list_insert_id by done. apply (proj2 Hm) in E. split; [by rewrite (quiet_length _ _ E); apply HI|].
  destruct HI as [_ [->|[Hb Hp]]]; [by apply list_lookup_singleton_Some in Hn as [_ ?]|]. right. split; [done|by eapply quiet_placed].
Qed.

Lemma getls_ok i s x s' : getls i s = Ret x s' -> s' = s /\ sv_dict s !! i = Some x.
Proof. unfold getls, gets, bind, aget. rewrite znth_nat. destruct (sv_dict s !! i); [|done]. by intros [= <- <-]. Qed.

(** What concat() compares are the keys. *)
Lemma safe_indices i j k h : safe h Idle (k (Z.of_nat i, Z.of_nat j)) ->
  safe h Idle (Act (x <- getls i ;; y <- getls j ;; ret (ls_index x, ls_index y)) k).
Proof.
  intros Hk. split; [done|]. split.
  { right. assert (calm (x <- getls i ;; y <- getls j ;; ret (ls_index x, ls_index y))) as [Hb _] by (unfold getls; calm_tac). exact Hb. }
  intros n s gs a s' HI Hn _ E. exists Idle. rewrite list_insert_id by done.
  apply bind_inv in E as (x & s1 & Hx & E). apply getls_ok in Hx as [-> Hx]. apply bind_inv in E as (y & s2 & Hy & E). apply getls_ok in Hy as [-> Hy].
  injection E as <- <-. split; [done|]. destruct HI as [_ [->|[_ Hp]]]; [by apply list_lookup_singleton_Some in Hn as [_ ?]|].
  by rewrite (Hp i x Hx), (Hp j y Hy).
Qed.

(** The actions that need no thought *)
Ltac safe_step :=
  lazymatch goal with
  | |- Discipline.safe _ _ _ _ _ _ _ (Act _ _) => apply server_safe_calm; [solve [calm_tac]|intros]
  | |- Discipline.safe _ _ _ _ _ _ _ (Lock _ _) => apply Discipline.safe_lock; [done|by repeat constructor|]
  | |- Discipline.safe _ _ _ _ _ _ _ (Wait _ _ _ _) => apply Discipline.safe_wait; [done|done|intros]
  | |- Discipline.safe _ _ _ _ _ _ _ (Unlock ?m _) => apply Discipline.safe_unlock; [done|by left|rewrite ?Discipline.drop_one]
  end.
Ltac safe_tac := repeat safe_step.

Lemma update_safe i v k : (forall r, safe [] Idle (k r)) -> safe [] Idle (UpdateString i v k).
Proof. intros Hk. unfold UpdateString. safe_tac. case_match; [done|]. by safe_tac. Qed.

Lemma insert_safe i v k : (forall r, safe [] Idle (k r)) -> safe [] Idle (InsertString i v k).
Proof. intros Hk. unfold InsertString. safe_tac. case_match; [done|]. by safe_tac. Qed.

Lemma get_safe i k : (forall r, safe [] Idle (k r)) -> safe [] Idle (GetString i k).
Proof. intros Hk. unfold GetString. by safe_tac. Qed.

Lemma remove_safe i k : (forall r, safe [] Idle (k r)) -> safe [] Idle (Remove i k).
Proof. intros Hk. unfold Remove. safe_tac. case_match; [done|]. by safe_tac. Qed.

Lemma server_drop_top (m x : sync) : m <> x -> Discipline.drop_lock m [m; x] = [x].
Proof. intros H. unfold Discipline.drop_lock. cbn. rewrite (decide_False (P := m <> m)) by auto. by rewrite decide_True by auto. Qed.

(** Both locks, the lower key first *)
Lemma both_safe i j p q k : (i < j)%nat -> (forall r, safe [] Idle (k r)) ->
  safe [] Idle (Lock (MStr i) (Lock (MStr j) (swap_append p q (Unlock (MStr j) (Unlock (MStr i) (k 0)))))).
Proof.
  intros Hij Hk. safe_step. apply Discipline.safe_lock; [done|by repeat constructor|]. unfold swap_append. do 4 safe_step.
  apply Discipline.safe_unlock; [done|by left|]. rewrite server_drop_top by (intros [=]; lia). by safe_tac.
Qed.

Lemma concat_safe i j k : (forall r, safe [] Idle (k r)) -> safe [] Idle (concat i j k).
Proof.
  intros Hk. unfold concat. safe_step. case_match; [done|]. safe_step. case_match; [done|]. apply safe_indices. cbn [fst snd].
  destruct (Z.ltb_spec (Z.of_nat i) (Z.of_nat j)); [apply (both_safe i j); [lia|done]|].
  destruct (Z.ltb_spec (Z.of_nat j) (Z.of_nat i)); [apply (both_safe j i); [lia|done]|]. by safe_tac.
Qed.

Lemma finish_safe w fd : safe [] Idle (finish w fd).
Proof. unfold finish. by safe_tac. Qed.

Lemma send_safe w fd s k : safe [] Idle k -> safe [] Idle (SenderWrapper w fd s k).
Proof. intros Hk. unfold SenderWrapper, send_string_on_socket. by safe_tac. Qed.

Lemma command_safe w fd type key value : safe [] Idle (command w fd type key value).
Proof.
  unfold command, isEmpty, check_key, terminate.
  repeat case_decide; safe_tac; repeat first
    [ apply insert_safe; intros | apply update_safe; intros | apply get_safe; intros | apply remove_safe; intros | apply concat_safe; intros
    | apply send_safe | apply finish_safe | progress safe_tac | case_match ].
Qed.

Lemma server_code_safe l h g : at_ l h g -> link h g -> safe h g (code l).
Proof.
  intros [-> ->] _. destruct l; cbn [code].
  - split; [done|]. split; [by left|]. intros n s gs a s' HI Hn _ E. exists Idle. split; [|done].
    destruct HI as [Hl [->|[Hb _]]]; [|by destruct Hb; apply list_elem_of_lookup; eauto]. apply list_lookup_singleton_Some in Hn as [-> _].
    injection E as _ <-. split; [cbn; unfold set_indices; by rewrite length_imap|]. right. split; [cbn; intros H; by apply list_elem_of_singleton in H|]. intros i x Hx. cbn in Hx.
    unfold set_indices in Hx. rewrite list_lookup_imap in Hx. by apply fmap_Some in Hx as (y & _ & ->).
  - case_match; [unfold terminate; by safe_tac|]. split_and!; try done. intros n s gs HI Hn.
    destruct HI as [Hl [->|[Hb Hp]]]; [by apply list_lookup_singleton_Some in Hn as [_ ?]|]. split; [done|]. right. split; [|done].
    intros H1%elem_of_app. destruct H1 as [?|H1]; [done|]. by apply list_elem_of_singleton in H1.
  - split; [done|]. split; [by left|]. intros n s gs a s' HI Hn _ E. exists Idle. rewrite list_insert_id by done. split.
    + unfold accept, terminate in E. apply bind_inv in E as (m & s1 & [= <- <-] & E). destruct (arrivals !! sv_accepted s) as [[x|]|]; [|done..].
      injection E as _ <-. done.
    + safe_tac. by split_and!.
  - unfold worker, serve, reading, read_string_from_socket. safe_step. safe_step. safe_step. safe_step. safe_step. safe_step. safe_step. apply server_safe_calm.
    { destruct (arrivals !! a) as [[[]|]|]; calm_tac. }
    intros r. unfold handle. case_decide; [done|]. destruct (extract _ _) as [ws word]. destruct (extract _ _) as [ws' word'].
    unfold terminate. safe_tac. apply command_safe.
  - unfold clear, send_string_on_socket. case_match; [safe_step; apply finish_safe|]. by apply remove_safe.
Qed.

(** ** Specification: a dictionary of 100 keys *)

Inductive cmd : Type :=
  | CInsert (key : Z) (v : list Z) | CUpdate (key : Z) (v : list Z) | CFetch (key : Z) | CConcat (key key2 : Z)
  | CDelete (key : Z) | CClear | CInvalid.

(** The command of a request; a missing word is the one before it.  [None]: an exception. *)
Definition cmd_of (type : list Z) (key : Z) (value : list Z) : option cmd :=
  if decide (type = cstr "insert") then Some (CInsert key value)
  else if decide (type = cstr "update") then Some (CUpdate key value)
  else if decide (type = cstr "fetch") then Some (CFetch key)
  else if decide (type = cstr "concat") then match stoi value with Some key2 => Some (CConcat key key2) | None => None end
  else if decide (type = cstr "delete") then Some (CDelete key)
  else Some CInvalid.

Definition parse (request : list Z) : option cmd :=
  if decide (until_nul request = cstr "clear") then Some CClear else
  let ws := words request in
  let type := default [] (head ws) in
  let w2 := default type (head (tail ws)) in
  let w3 := default w2 (head (tail (tail ws))) in
  match stoi w2 with Some key => cmd_of type key w3 | None => None end.

Definition in_range (key : Z) : bool := (0 <=? key) && (key <? 100).
Definition keys_ok (c : cmd) : bool :=
  match c with
  | CInsert k _ | CUpdate k _ | CFetch k | CDelete k => in_range k
  | CConcat k k2 => in_range k && in_range k2
  | CClear | CInvalid => true
  end.

Definition value_at (D : list (option (list Z))) (key : Z) : option (list Z) := default None (D !! Z.to_nat key).
Definition put (D : list (option (list Z))) (key : Z) (v : option (list Z)) : list (option (list Z)) := <[Z.to_nat key := v]> D.

(** The dictionary afterwards, and the answer *)
Definition apply_cmd (c : cmd) (D : list (option (list Z))) : list (option (list Z)) * option (list Z) :=
  match c with
  | CInsert k v =>
      match value_at D k with None => (put D k (Some v), Some (cstr "Insertion successful")) | Some _ => (D, Some (cstr "Key already exists")) end
  | CUpdate k v =>
      match value_at D k with Some _ => (put D k (Some v), Some v) | None => (D, Some (cstr "Key does not exist")) end
  | CFetch k => (D, Some (default (cstr "Key does not exist") (value_at D k)))
  | CConcat k k2 =>
      match value_at D k, value_at D k2 with
      | Some a, Some b => (put (put D k (Some (a ++ b))) k2 (Some (b ++ a)), Some (b ++ a))
      | _, _ => (D, Some (cstr "Concat failed as at least one of the keys does not exist"))
      end
  | CDelete k =>
      match value_at D k with Some _ => (put D k None, None) | None => (D, Some (cstr "No such key exists")) end
  | CClear => (replicate 100 None, None)
  | CInvalid => (D, Some (cstr "Invalid request"))
  end.

(** What is sent: an answer with the thread's id, or "cleared" without *)
Definition reply (w : nat) (c : cmd) (D : list (option (list Z))) : list (list Z) :=
  match c with
  | CClear => [cstr "cleared"]
  | _ => match (apply_cmd c D).2 with Some a => [thread_id w ++ cstr " : " ++ a] | None => [] end
  end.

(** The dictionary that the strings stand for *)
Definition val (x : LockedString) : option (list Z) := if ls_empty x then None else Some (ls_str x).
Definition view (s : server) : list (option (list Z)) := val <$> sv_dict s.

(** Only the dictionary differs, and it stands for [D]. *)
Record becomes (s s' : server) (D : list (option (list Z))) : Prop := {
  be_view : view s' = D;
  be_index : ls_index <$> sv_dict s' = ls_index <$> sv_dict s;
  be_rest : s' = s <| sv_dict := sv_dict s' |>;
}.

Record served (s s' : server) (D : list (option (list Z))) (fd : nat) (rs : list (list Z)) : Prop := {
  sd_view : view s' = D;
  sd_index : ls_index <$> sv_dict s' = ls_index <$> sv_dict s;
  sd_sent : sv_sent s' = sv_sent s ++ (pair fd <$> rs);
  sd_closed : sv_closed s' = sv_closed s ++ [fd];
  sd_queue : sv_queue s' = sv_queue s /\ sv_accepted s' = sv_accepted s;
}.

Lemma becomes_refl s : becomes s s (view s).
Proof. split; [done|done|by destruct s]. Qed.

Lemma setls_eq i f s x : sv_dict s !! i = Some x -> setls i f s = Ret tt (s <| sv_dict := <[i := f x]> (sv_dict s) |>).
Proof.
  intros E. unfold setls. erewrite bind_ret by done. erewrite bind_ret by (apply aget_ok; by rewrite znth_nat).
  pose proof (lookup_lt_Some _ _ _ E). erewrite bind_ret by (rewrite aset_ok by lia; rewrite Nat2Z.id; done). done.
Qed.

Lemma getls_eq i s x : sv_dict s !! i = Some x -> getls i s = Ret x s.
Proof. intros E. unfold getls. erewrite bind_ret by done. apply aget_ok. by rewrite znth_nat. Qed.

(** One string of the dictionary changes. *)
Lemma becomes_set s i x y : sv_dict s !! i = Some x -> ls_index y = ls_index x ->
  becomes s (s <| sv_dict := <[i := y]> (sv_dict s) |>) (<[i := val y]> (view s)).
Proof.
  intros Hx Hi. split; [by apply list_fmap_insert| |done]. cbn. rewrite list_fmap_insert, Hi. apply list_insert_id. by rewrite list_lookup_fmap, Hx.
Qed.

Lemma val_str x v : ls_empty x = false -> val (x <| ls_str := v |>) = Some v.
Proof. intros E. unfold val. cbn. by rewrite E. Qed.

(** A worker is back at its loop. *)
Definition at_loop (l : label) : Prop := exists w, l = LWorker w.

Section Alone.
Context (t : nat) (ts : list prog) (Ht : (t < length ts)%nat).
Context (o : gmap sync nat) (Hfree : forall i, o !! MStr i = None).

Notation runs := (reaches code at_loop t ts).

Lemma set_index (s : server) i x y : sv_dict s !! i = Some x -> sv_dict (s <| sv_dict := <[i := y]> (sv_dict s) |>) !! i = Some y.
Proof. intros E. cbn. apply list_lookup_insert_eq. by eapply lookup_lt_Some. Qed.

(** The last state may be described in another way. *)
Lemma runs_eq p s s' : s = s' -> runs p s o p s' o.
Proof. intros ->. apply reaches_refl. Qed.

Lemma insert_runs i v s x : sv_dict s !! i = Some x -> exists s1,
  (forall k, runs (InsertString i v k) s o (k (if ls_empty x then 0 else -1)) s1 o) /\
  becomes s s1 (if ls_empty x then <[i := Some v]> (view s) else view s).
Proof.
  intros Hx. destruct (ls_empty x) eqn:Ee.
  - exists (s <| sv_dict := <[i := x <| ls_str := v |> <| ls_empty := false |>]> (sv_dict s) |>). split; [|by apply (becomes_set _ _ x)].
    intros k. eapply reaches_act; [done|by apply getls_eq|]. rewrite Ee. apply reaches_lock; [done|done|].
    eapply reaches_act; [done|by apply setls_eq|]. eapply reaches_act; [done|eapply setls_eq; by eapply set_index|].
    apply reaches_unlock; [done|done|]. apply runs_eq. cbn. by rewrite list_insert_insert_eq.
  - exists s. split; [|apply becomes_refl]. intros k. eapply reaches_act; [done|by apply getls_eq|]. rewrite Ee. apply reaches_refl.
Qed.

Lemma update_runs i v s x : sv_dict s !! i = Some x -> exists s1,
  (forall k, runs (UpdateString i v k) s o (k (if ls_empty x then -1 else 0)) s1 o) /\
  becomes s s1 (if ls_empty x then view s else <[i := Some v]> (view s)).
Proof.
  intros Hx. destruct (ls_empty x) eqn:Ee.
  - exists s. split; [|apply becomes_refl]. intros k. eapply reaches_act; [done|by apply getls_eq|]. rewrite Ee. apply reaches_refl.
  - exists (s <| sv_dict := <[i := x <| ls_str := v |>]> (sv_dict s) |>). split.
    + intros k. eapply reaches_act; [done|by apply getls_eq|]. rewrite Ee. apply reaches_lock; [done|done|].
      eapply reaches_act; [done|by apply setls_eq|]. apply reaches_unlock; [done|done|]. apply reaches_refl.
    + rewrite <- (val_str x v Ee). by apply (becomes_set _ _ x).
Qed.

Lemma remove_runs i s x : sv_dict s !! i = Some x -> exists s1 r,
  (forall k, runs (Remove i k) s o (k r) s1 o) /\ becomes s s1 (<[i := None]> (view s)).
Proof.
  intros Hx. destruct (ls_empty x) eqn:Ee.
  - exists s, (-1). split.
    + intros k. eapply reaches_act; [done|by apply getls_eq|]. rewrite Ee. apply reaches_refl.
    + rewrite list_insert_id; [apply becomes_refl|]. unfold view. rewrite list_lookup_fmap, Hx. cbn. unfold val. by rewrite Ee.
  - exists (s <| sv_dict := <[i := x <| ls_str := [] |> <| ls_empty := true |>]> (sv_dict s) |>), 0. split; [|by apply (becomes_set _ _ x)].
    intros k. eapply reaches_act; [done|by apply getls_eq|]. rewrite Ee. apply reaches_lock; [done|done|].
    eapply reaches_act; [done|by apply setls_eq|]. eapply reaches_act; [done|eapply setls_eq; by eapply set_index|].
    apply reaches_unlock; [done|done|]. apply runs_eq. cbn. by rewrite list_insert_insert_eq.
Qed.

Lemma get_runs i s x k : sv_dict s !! i = Some x -> runs (GetString i k) s o (k (ls_str x)) s o.
Proof.
  intros Hx. apply reaches_lock; [done|done|]. eapply reaches_act; [done|by apply getls_eq|]. apply reaches_unlock; [done|done|]. apply reaches_refl.
Qed.

(** The two locks of [concat], in either order *)
Lemma both_runs i j a b s x y : i <> j -> a <> b -> sv_dict s !! i = Some x -> sv_dict s !! j = Some y -> forall k,
  runs (Lock (MStr a) (Lock (MStr b) (swap_append i j (Unlock (MStr b) (Unlock (MStr a) (k 0)))))) s o (k 0)
    (s <| sv_dict := <[j := y <| ls_str := ls_str y ++ ls_str x |>]> (<[i := x <| ls_str := ls_str x ++ ls_str y |>]> (sv_dict s)) |>) o.
Proof.
  intros Hij Hab Hx Hy k. apply reaches_lock; [done|done|]. apply reaches_lock; [done|by rewrite lookup_insert_ne by congruence|]. unfold swap_append.
  eapply reaches_act; [done|by apply getls_eq|]. eapply reaches_act; [done|by apply getls_eq|]. eapply reaches_act; [done|by apply setls_eq|].
  eapply reaches_act; [done|eapply setls_eq; cbn; by rewrite list_lookup_insert_ne|].
  apply reaches_unlock; [done|by rewrite lookup_insert_ne by congruence|]. apply reaches_unlock; [done|done|]. apply reaches_refl.
Qed.

Lemma concat_runs i j s x y : placed s -> sv_dict s !! i = Some x -> sv_dict s !! j = Some y -> exists s1,
  (forall k, runs (concat i j k) s o (k (if ls_empty x || ls_empty y then -1 else 0)) s1 o) /\
  becomes s s1 (if ls_empty x || ls_empty y then view s
                else <[j := Some (ls_str y ++ ls_str x)]> (<[i := Some (ls_str x ++ ls_str y)]> (view s))).
Proof.
  intros Hp Hx Hy. destruct (ls_empty y) eqn:Ey.
  { exists s. rewrite orb_true_r. split; [|apply becomes_refl]. intros k. eapply reaches_act; [done|by apply getls_eq|]. rewrite Ey. apply reaches_refl. }
  destruct (ls_empty x) eqn:Ex; cbn [orb].
  { exists s. split; [|apply becomes_refl]. intros k. eapply reaches_act; [done|by apply getls_eq|]. rewrite Ey.
    eapply reaches_act; [done|by apply getls_eq|]. rewrite Ex. apply reaches_refl. }
  assert (forall k p s1, runs p s o (k 0) s1 o -> (if Z.of_nat i <? Z.of_nat j then Lock (MStr i) (Lock (MStr j) (swap_append i j (Unlock (MStr j) (Unlock (MStr i) (k 0)))))
      else if Z.of_nat j <? Z.of_nat i then Lock (MStr j) (Lock (MStr i) (swap_append i j (Unlock (MStr i) (Unlock (MStr j) (k 0)))))
      else Lock (MStr i) (Act (setls i (fun z => z <| ls_str := ls_str z ++ ls_str z |>)) (fun _ => Unlock (MStr i) (k 0)))) = p ->
      runs (concat i j k) s o (k 0) s1 o) as Hstart.
  { intros k p s1 Hr <-. eapply reaches_act; [done|by apply getls_eq|]. rewrite Ey. eapply reaches_act; [done|by apply getls_eq|]. rewrite Ex.
    eapply reaches_act; [done| |].
    { erewrite bind_ret by (by apply getls_eq). erewrite bind_ret by (by apply getls_eq). unfold ret. by rewrite (Hp i x Hx), (Hp j y Hy). }
    exact Hr. }
  destruct (decide (i = j)) as [->|Hij].
  - simplify_eq. exists (s <| sv_dict := <[j := x <| ls_str := ls_str x ++ ls_str x |>]> (sv_dict s) |>). split.
    + intros k. eapply Hstart; [|done]. rewrite !Z.ltb_irrefl. apply reaches_lock; [done|done|]. eapply reaches_act; [done|by apply setls_eq|].
      apply reaches_unlock; [done|done|]. apply reaches_refl.
    + rewrite list_insert_insert_eq, <- (val_str x _ Ex). by apply (becomes_set _ _ x).
  - exists (s <| sv_dict := <[j := y <| ls_str := ls_str y ++ ls_str x |>]> (<[i := x <| ls_str := ls_str x ++ ls_str y |>]> (sv_dict s)) |>). split.
    + intros k. eapply Hstart; [|done]. destruct (Z.ltb_spec (Z.of_nat i) (Z.of_nat j)); [by apply both_runs|].
      destruct (Z.ltb_spec (Z.of_nat j) (Z.of_nat i)); [apply both_runs; auto|lia].
    + pose proof (val_str x (ls_str x ++ ls_str y) Ex) as E1. pose proof (val_str y (ls_str y ++ ls_str x) Ey) as E2. split; [|cbn|done].
      * transitivity (val <$> <[j := y <| ls_str := ls_str y ++ ls_str x |>]> (<[i := x <| ls_str := ls_str x ++ ls_str y |>]> (sv_dict s))); [done|].
        by rewrite !list_fmap_insert, E1, E2.
      * rewrite !list_fmap_insert. cbn. rewrite (list_insert_id (ls_index <$> sv_dict s) i) by (by rewrite list_lookup_fmap, Hx).
        apply list_insert_id. by rewrite list_lookup_fmap, Hy.
Qed.

(** ** A request, without interference *)

(** [p] does what the command says, and worker [w] is free again; or the process ends. *)
Definition handled (w fd : nat) (p : prog) (s0 s : server) (oc : option cmd) : Prop :=
  match oc with
  | Some c =>
      if keys_ok c then
        exists s', runs p s0 o (Jump (LWorker w)) s' o /\ served s s' (apply_cmd c (view s)).1 fd (reply w c (view s))
      else exists y, rtc (hstep code at_loop t) (here t ts p s0 o) y /\ sy_crash y = Some EUndef
  | None => exists y, rtc (hstep code at_loop t) (here t ts p s0 o) y /\ sy_crash y = Some (EPanic "terminate")
  end.

Lemma handled_runs w fd p p1 s0 s1 s oc : runs p s0 o p1 s1 o -> handled w fd p1 s1 s oc -> handled w fd p s0 s oc.
Proof.
  intros Hr H. unfold handled in *. destruct oc as [c|].
  - destruct (keys_ok c).
    + destruct H as (s' & H & Hs). exists s'. split; [by eapply reaches_trans|done].
    + destruct H as (y & H & Hy). exists y. split; [by etrans|done].
  - destruct H as (y & H & Hy). exists y. split; [by etrans|done].
Qed.

Lemma handled_act {A} w fd (m : M server A) k s oc a : m s = Ret a s -> handled w fd (k a) s s oc -> handled w fd (Act m k) s s oc.
Proof. intros E. apply handled_runs. eapply reaches_act; [done|done|apply reaches_refl]. Qed.

Lemma finish_runs w fd s s1 D rs : sv_sent s1 = sv_sent s ++ (pair fd <$> rs) -> sv_closed s1 = sv_closed s -> sv_queue s1 = sv_queue s ->
  sv_accepted s1 = sv_accepted s -> view s1 = D -> ls_index <$> sv_dict s1 = ls_index <$> sv_dict s ->
  exists s', runs (finish w fd) s1 o (Jump (LWorker w)) s' o /\ served s s' D fd rs.
Proof.
  intros E1 E2 E3 E4 E5 E6. eexists. split; [eapply reaches_act; [done|done|apply reaches_refl]|]. split; try done. cbn. by rewrite E2.
Qed.

Lemma silent_runs w fd s s1 D : becomes s s1 D -> exists s', runs (finish w fd) s1 o (Jump (LWorker w)) s' o /\ served s s' D fd [].
Proof. intros [H1 H2 H3]. apply finish_runs; [rewrite H3; cbn; by rewrite app_nil_r|by rewrite H3..|done|done]. Qed.

Lemma answer_runs w fd s s1 D a : becomes s s1 D ->
  exists s', runs (SenderWrapper w fd a (finish w fd)) s1 o (Jump (LWorker w)) s' o /\ served s s' D fd [thread_id w ++ cstr " : " ++ a].
Proof.
  intros [H1 H2 H3]. destruct (finish_runs w fd s (s1 <| sv_sent := sv_sent s1 ++ [(fd, thread_id w ++ cstr " : " ++ a)] |>) D [thread_id w ++ cstr " : " ++ a])
    as (s' & Hr & Hs); [cbn; by rewrite H3|cbn; by rewrite H3..|done|done|].
  exists s'. split; [|done]. eapply reaches_act; [done|done|exact Hr].
Qed.

(** A key in range names a string, whose value the dictionary has. *)
Lemma key_ok s key : length (sv_dict s) = 100%nat -> in_range key = true -> check_key key s = Ret (Z.to_nat key) s /\
  exists x, sv_dict s !! Z.to_nat key = Some x /\ value_at (view s) key = val x.
Proof.
  intros Hl Hk. unfold in_range in Hk. apply andb_true_iff in Hk as [H1%Z.leb_le H2%Z.ltb_lt].
  destruct (lookup_lt_is_Some_2 (sv_dict s) (Z.to_nat key)) as [x Hx]; [lia|]. split.
  - unfold check_key. erewrite bind_ret by done. erewrite bind_ret; [done|]. apply aget_ok. unfold znth. zcase. done.
  - exists x. split; [done|]. unfold value_at, view. by rewrite list_lookup_fmap, Hx.
Qed.

Lemma key_bad s key : length (sv_dict s) = 100%nat -> in_range key = false -> check_key key s = Fail EUndef.
Proof.
  intros Hl Hk. unfold check_key, bind, gets, aget. assert (znth (sv_dict s) key = None) as ->; [|done]. apply znth_none.
  unfold in_range in Hk. apply andb_false_iff in Hk as [H%Z.leb_gt|H%Z.ltb_ge]; lia.
Qed.

(** A command with one key starts with the string of that key. *)
Lemma handled_key w fd key k s c : length (sv_dict s) = 100%nat -> keys_ok c = in_range key ->
  (forall x, sv_dict s !! Z.to_nat key = Some x -> value_at (view s) key = val x ->
    exists s', runs (k (Z.to_nat key)) s o (Jump (LWorker w)) s' o /\ served s s' (apply_cmd c (view s)).1 fd (reply w c (view s))) ->
  handled w fd (Act (check_key key) k) s s (Some c).
Proof.
  intros Hl Hc Hk. destruct (in_range key) eqn:Er.
  - destruct (key_ok s key Hl Er) as (E & x & Hx & Hv). eapply handled_act; [exact E|]. unfold handled. rewrite Hc. eauto.
  - unfold handled. rewrite Hc. eapply reaches_crash; [done|by apply key_bad|done].
Qed.

(** The run of an operation, then the answer *)
Lemma then_answer w fd s s1 D a p k0 : (runs p s o k0 s1 o) -> becomes s s1 D -> k0 = SenderWrapper w fd a (finish w fd) ->
  exists s', runs p s o (Jump (LWorker w)) s' o /\ served s s' D fd [thread_id w ++ cstr " : " ++ a].
Proof.
  intros H1 H2 ->. destruct (answer_runs w fd s s1 D a H2) as (s' & Hr & Hs). exists s'. split; [by eapply reaches_trans|done].
Qed.

Lemma val_cases x : (ls_empty x = true /\ val x = None) \/ (ls_empty x = false /\ val x = Some (ls_str x)).
Proof. unfold val. destruct (ls_empty x); auto. Qed.

(** The string that stands for a value *)
Lemma view_str s i v : view s !! i = Some (Some v) -> exists x, sv_dict s !! i = Some x /\ ls_str x = v.
Proof.
  unfold view. rewrite list_lookup_fmap. destruct (sv_dict s !! i) as [x|]; [|done]. intros [= H]. exists x. split; [done|].
  unfold val in H. destruct (ls_empty x); [done|by injection H].
Qed.

Lemma becomes_length s s1 D : becomes s s1 D -> length (sv_dict s1) = length (sv_dict s).
Proof. intros H. pose proof (f_equal length (be_index _ _ _ H)) as E. by rewrite !length_fmap in E. Qed.

Lemma insert_handled w fd key v s : length (sv_dict s) = 100%nat ->
  handled w fd (command w fd (cstr "insert") key v) s s (Some (CInsert key v)).
Proof.
  intros Hl. apply handled_key; [done|done|]. intros x Hx Hv. destruct (insert_runs (Z.to_nat key) v s x Hx) as (s1 & Hr & Hb).
  cbn [apply_cmd reply]. rewrite Hv. destruct (val_cases x) as [[E ->]|[E ->]]; rewrite E in Hb, Hr; (eapply then_answer; [apply Hr|exact Hb|done]).
Qed.

Lemma update_handled w fd key v s : length (sv_dict s) = 100%nat ->
  handled w fd (command w fd (cstr "update") key v) s s (Some (CUpdate key v)).
Proof.
  intros Hl. apply handled_key; [done|done|]. intros x Hx Hv. destruct (update_runs (Z.to_nat key) v s x Hx) as (s1 & Hr & Hb).
  cbn [apply_cmd reply]. rewrite Hv. destruct (val_cases x) as [[E ->]|[E ->]]; rewrite E in Hb, Hr.
  - eapply then_answer; [apply Hr|exact Hb|done].
  - destruct (view_str s1 (Z.to_nat key) v) as (y & Hy & <-).
    { rewrite (be_view _ _ _ Hb). apply list_lookup_insert_eq. unfold view. rewrite length_fmap. by eapply lookup_lt_Some. }
    eapply then_answer; [eapply reaches_trans; [apply Hr|cbn; by apply get_runs]|exact Hb|done].
Qed.

Lemma fetch_handled w fd key v s : length (sv_dict s) = 100%nat ->
  handled w fd (command w fd (cstr "fetch") key v) s s (Some (CFetch key)).
Proof.
  intros Hl. apply handled_key; [done|done|]. intros x Hx Hv. cbn [apply_cmd reply]. rewrite Hv. destruct (val_cases x) as [[E ->]|[E ->]].
  - eapply then_answer; [|apply becomes_refl|done]. eapply reaches_act; [done|by apply getls_eq|]. rewrite E. apply reaches_refl.
  - eapply then_answer; [|apply becomes_refl|done]. eapply reaches_act; [done|by apply getls_eq|]. rewrite E.
    by apply (get_runs _ _ x (fun r => SenderWrapper w fd r (finish w fd))).
Qed.

Lemma delete_handled w fd key v s : length (sv_dict s) = 100%nat ->
  handled w fd (command w fd (cstr "delete") key v) s s (Some (CDelete key)).
Proof.
  intros Hl. apply handled_key; [done|done|]. intros x Hx Hv. cbn [apply_cmd reply]. rewrite Hv. destruct (val_cases x) as [[E Ev]|[E Ev]]; rewrite Ev.
  - set (s1 := s <| sv_sent := sv_sent s ++ [(fd, thread_id w ++ cstr " : " ++ cstr "No such key exists")] |>).
    destruct (finish_runs w fd s s1 (view s) [thread_id w ++ cstr " : " ++ cstr "No such key exists"]) as (s' & Hr & Hs); [done..|].
    exists s'. split; [|done]. eapply reaches_act; [done|by apply getls_eq|]. rewrite E. eapply reaches_act; [done|done|].
    eapply reaches_act; [done|by apply (getls_eq _ s1)|]. rewrite E. exact Hr.
  - destruct (remove_runs (Z.to_nat key) s x Hx) as (s1 & r & Hr & Hb). destruct (silent_runs w fd s s1 _ Hb) as (s' & Hr' & Hs).
    exists s'. split; [|done]. eapply reaches_act; [done|by apply getls_eq|]. rewrite E. eapply reaches_trans; [apply Hr|exact Hr'].
Qed.

Lemma concat_handled w fd key v s : length (sv_dict s) = 100%nat -> placed s ->
  handled w fd (command w fd (cstr "concat") key v) s s (match stoi v with Some key2 => Some (CConcat key key2) | None => None end).
Proof.
  intros Hl Hp. unfold command. do 3 (rewrite decide_False by done). rewrite decide_True by done.
  destruct (stoi v) as [key2|]; [|by eapply reaches_crash]. eapply handled_act; [done|].
  destruct (in_range key) eqn:E1.
  2: { unfold handled. cbn [keys_ok]. rewrite E1. eapply reaches_crash; [done| |done]. unfold bind. by rewrite key_bad. }
  destruct (key_ok s key Hl E1) as (C1 & x & Hx & Hvx). destruct (in_range key2) eqn:E2.
  2: { unfold handled. cbn [keys_ok]. rewrite E1, E2. eapply reaches_crash; [done| |done]. erewrite bind_ret by exact C1. unfold bind. by rewrite key_bad. }
  destruct (key_ok s key2 Hl E2) as (C2 & y & Hy & Hvy).
  eapply handled_act; [erewrite bind_ret by exact C1; erewrite bind_ret by exact C2; done|]. unfold handled. cbn [keys_ok]. rewrite E1, E2. cbn [andb fst snd].
  destruct (concat_runs (Z.to_nat key) (Z.to_nat key2) s x y Hp Hx Hy) as (s1 & Hr & Hb). cbn [apply_cmd reply]. rewrite Hvx, Hvy.
  destruct (val_cases x) as [[Ex Vx]|[Ex Vx]]; rewrite Vx; [rewrite Ex in Hb, Hr; eapply then_answer; [apply Hr|exact Hb|done]|].
  destruct (val_cases y) as [[Ey Vy]|[Ey Vy]]; rewrite Vy; [rewrite Ex, Ey in Hb, Hr; eapply then_answer; [apply Hr|exact Hb|done]|].
  rewrite Ex, Ey in Hb, Hr. cbn [orb] in Hb, Hr.
  destruct (view_str s1 (Z.to_nat key2) (ls_str y ++ ls_str x)) as (y1 & Hy1 & Ey1).
  { rewrite (be_view _ _ _ Hb). apply list_lookup_insert_eq. rewrite length_insert. unfold view. rewrite length_fmap. by eapply lookup_lt_Some. }
  destruct (lookup_lt_is_Some_2 (sv_dict s1) (Z.to_nat key)) as [x1 Hx1].
  { rewrite (becomes_length _ _ _ Hb). by eapply lookup_lt_Some. }
  rewrite <- Ey1 in Hb |- *. eapply then_answer; [|exact Hb|done]. eapply reaches_trans; [apply Hr|]. cbn [Z.eqb Z.opp]. eapply reaches_trans; [by apply get_runs|].
  eapply reaches_trans; [by apply (get_runs _ _ x1)|]. by apply (get_runs _ _ y1 (fun _ => SenderWrapper w fd (ls_str y1) (finish w fd))).
Qed.

Lemma becomes_trans s s1 s2 D1 D2 : becomes s s1 D1 -> becomes s1 s2 D2 -> becomes s s2 D2.
Proof. intros [H1 H2 H3] [H4 H5 H6]. split; [done|congruence|]. rewrite H6, H3. done. Qed.

(** "clear": the strings from [i] on are removed one by one. *)
Lemma clear_runs w fd n : forall i s, (i + n = 100)%nat -> length (sv_dict s) = 100%nat -> exists s1,
  runs (Jump (LClear w fd i)) s o (Act (send_string_on_socket fd (cstr "cleared")) (fun _ => finish w fd)) s1 o /\
  becomes s s1 (take i (view s) ++ replicate n None).
Proof.
  induction n as [|n IH]; intros i s Hn Hl.
  - exists s. assert (i = 100)%nat as -> by lia. split; [apply reaches_jump; [done|by intros [? ?]|apply reaches_refl]|].
    cbn [replicate]. rewrite app_nil_r, take_ge by (unfold view; rewrite length_fmap; lia). apply becomes_refl.
  - destruct (lookup_lt_is_Some_2 (sv_dict s) i) as [x Hx]; [lia|]. destruct (remove_runs i s x Hx) as (s1 & r & Hr & Hb).
    destruct (IH (S i) s1) as (s2 & Hr2 & Hb2); [lia|by rewrite (becomes_length _ _ _ Hb)|]. exists s2. split.
    + apply reaches_jump; [done|by intros [? ?]|]. cbn [code]. unfold clear. destruct (Nat.leb_spec 100 i); [lia|]. eapply reaches_trans; [apply Hr|done].
    + replace (take i (view s) ++ replicate (S n) None) with (take (S i) (view s1) ++ replicate n None); [by eapply becomes_trans|].
      rewrite (be_view _ _ _ Hb). assert (i < length (view s))%nat by (unfold view; rewrite length_fmap; lia).
      rewrite (take_S_r _ _ None) by (by apply list_lookup_insert_eq). rewrite take_insert_ge by lia. by rewrite <- app_assoc.
Qed.

Lemma clear_handled w fd s : length (sv_dict s) = 100%nat -> handled w fd (Jump (LClear w fd 0)) s s (Some CClear).
Proof.
  intros Hl. destruct (clear_runs w fd 100 0 s eq_refl Hl) as (s1 & Hr & [H1 H2 H3]). cbn [take app] in H1.
  destruct (finish_runs w fd s (s1 <| sv_sent := sv_sent s1 ++ [(fd, cstr "cleared")] |>) (replicate 100 None) [cstr "cleared"]) as (s' & Hr' & Hs);
    [by rewrite H3..|exact H1|exact H2|].
  exists s'. split; [|done]. eapply reaches_trans; [exact Hr|]. eapply reaches_act; [done|done|exact Hr'].
Qed.

Lemma command_handled w fd type key v s : length (sv_dict s) = 100%nat -> placed s ->
  handled w fd (command w fd type key v) s s (cmd_of type key v).
Proof.
  intros Hl Hp. unfold cmd_of. destruct (decide (type = cstr "insert")) as [->|N1]; [by apply insert_handled|].
  destruct (decide (type = cstr "update")) as [->|N2]; [by apply update_handled|].
  destruct (decide (type = cstr "fetch")) as [->|N3]; [by apply fetch_handled|].
  destruct (decide (type = cstr "concat")) as [->|N4]; [by apply concat_handled|].
  destruct (decide (type = cstr "delete")) as [->|N5]; [by apply (delete_handled w fd key v)|].
  unfold command. rewrite !decide_False by done. unfold handled. cbn [keys_ok apply_cmd reply fst snd]. eapply answer_runs, becomes_refl.
Qed.

(** The words of a request that the handler takes *)
Lemma extract_head ws word : extract ws word = (tail ws, default word (head ws)).
Proof. by destruct ws. Qed.

Lemma handle_handled w fd request s : length (sv_dict s) = 100%nat -> placed s ->
  handled w fd (handle w fd request) s s (parse request).
Proof.
  intros Hl Hp. unfold handle, parse. case_decide; [by apply clear_handled|]. rewrite !extract_head.
  set (type := default [] (head (words request))). set (w2 := default type (head (tail (words request)))).
  destruct (stoi w2) as [key|]; [|by eapply reaches_crash]. eapply handled_act; [done|]. cbn beta zeta. cbn [snd].
  set (w3 := default w2 _). case_decide as E; [by apply command_handled|].
  assert (type = cstr "delete" \/ type = cstr "fetch") as [Et|Et] by (destruct (decide (type = cstr "delete")), (decide (type = cstr "fetch")); tauto);
    rewrite Et; [by apply delete_handled|by apply fetch_handled].
Qed.

(** A worker that has been woken, with a connection in the queue *)
Lemma serve_handled w fd q request s : (forall m, o !! m = None) -> length (sv_dict s) = 100%nat -> placed s -> sv_queue s = fd :: q ->
  arrivals !! fd = Some (Some (Some request)) ->
  handled w fd (Lock MCond (serve w)) s (s <| sv_queue := q |>) (parse request).
Proof.
  intros Ho Hl Hp Hq Ha. eapply handled_runs; [|by apply (handle_handled w fd request (s <| sv_queue := q |>))].
  apply reaches_lock; [done..|]. apply reaches_unlock; [done..|]. apply reaches_lock; [done..|].
  eapply reaches_act; [done|by erewrite bind_ret by done; rewrite Hq|]. eapply reaches_act; [done|done|]. cbn [tail]. rewrite Hq.
  apply reaches_unlock; [done..|]. eapply reaches_act; [done|unfold reading, read_string_from_socket; by rewrite Ha|]. apply reaches_refl.
Qed.
End Alone.

Lemma server_reachable_inv junk y : rtc (step code) (started (before junk) LMain) y -> exists hg, Discipline.inv rank indexed link at_ new y hg.
Proof.
  intros Hr. eapply (Discipline.inv_steps rank code); [exact server_code_safe|exact Hr|]. exists [([], Boot)]. apply Discipline.inv_started; [|done..].
  split; [done|by left].
Qed.

Lemma server_placed junk y t : rtc (step code) (started (before junk) LMain) y -> (S t < length (sy_threads y))%nat ->
  length (sv_dict (sy_data y)) = 100%nat /\ placed (sy_data y).
Proof.
  intros Hr Hlt. destruct (server_reachable_inv _ _ Hr) as [hg [Hlen [Hl HI] _ _]]. split; [done|].
  destruct HI as [E|[_ ?]]; [|done]. apply (f_equal length) in E. rewrite length_fmap in E. cbn in E. lia.
Qed.

(** A worker that wakes up with no mutex taken and a connection in the queue, and then is the only one to move. *)
Lemma woken_serves junk y t w fd q request : rtc (step code) (started (before junk) LMain) y -> sy_crash y = None -> sy_owner y = ∅ ->
  sy_threads y !! S t = Some (Lock MCond (serve w)) -> sv_queue (sy_data y) = fd :: q -> arrivals !! fd = Some (Some (Some request)) ->
  handled (S t) (sy_threads y) ∅ w fd (Lock MCond (serve w)) (sy_data y) ((sy_data y) <| sv_queue := q |>) (parse request).
Proof.
  intros Hr Hc Ho Ht Hq Ha. destruct (server_placed junk y t Hr) as (Hl & Hp); [by eapply lookup_lt_Some|].
  apply serve_handled; try done. by eapply lookup_lt_Some.
Qed.

(** ** A request, while other threads move *)

Section Disturbed.
Context (fd : nat).

(** What has been sent on the connection, and whether it has been closed *)
Definition sent_on (s : server) : list (nat * list Z) := filter (fun m => m.1 = fd) (sv_sent s).
Definition closed_on (s : server) : list nat := filter (fun c => c = fd) (sv_closed s).

(** The dictionary and the connection are left alone. *)
Definition undisturbed (s s' : server) : Prop :=
  sv_dict s' = sv_dict s /\ sent_on s' = sent_on s /\ closed_on s' = closed_on s.
#[export] Instance undisturbed_dec s s' : Decision (undisturbed s s').
Proof. unfold undisturbed. apply _. Defined.

Definition alike (s z : server) : Prop := undisturbed z s.

Lemma alike_rely s z s' : alike s z -> undisturbed s s' -> alike s' z.
Proof. unfold alike, undisturbed. intros (A & B & C) (A' & B' & C'). split_and!; congruence. Qed.

Notation alike_same := (same alike).

Lemma same_ret {A} (a : A) : alike_same (ret a).
Proof. intros s z H. by split. Qed.
Lemma same_fail {A} e : alike_same (fail (A := A) e).
Proof. intros s z H. exact (eq_refl e). Qed.
Lemma same_bind {A B} (m : M server A) (k : A -> M server B) : alike_same m -> (forall a, alike_same (k a)) -> alike_same (bind m k).
Proof.
  intros Hm Hk s z H. specialize (Hm s z H). unfold bind. destruct (m s) as [a s1|], (m z) as [b z1|]; try done.
  destruct Hm as [<- H1]. by apply Hk.
Qed.
Lemma same_dict : alike_same (gets sv_dict).
Proof. intros s z H. split; [apply H|done]. Qed.
Lemma same_aget {A} (l : list A) i : alike_same (aget l i).
Proof. unfold aget. destruct (znth l i); [apply same_ret|apply same_fail]. Qed.
Lemma same_aset {A} (l : list A) i x : alike_same (aset l i x).
Proof. unfold aset. destruct (znth l i); [apply same_ret|apply same_fail]. Qed.
Lemma same_set_dict l : alike_same (modify (fun s => s <| sv_dict := l |>)).
Proof. intros s z (A & B & C). by split_and!. Qed.
Lemma same_send a : alike_same (send_string_on_socket fd a).
Proof.
  intros s z (A & B & C). split; [done|]. split; [done|]. split; [|done]. unfold sent_on in *.
  etransitivity; [apply filter_app|]. rewrite B. symmetry. apply filter_app.
Qed.
Lemma same_close : alike_same (modify (fun v => v <| sv_closed := sv_closed v ++ [fd] |>)).
Proof.
  intros s z (A & B & C). split; [done|]. split; [done|]. split; [done|]. unfold closed_on in *.
  etransitivity; [apply filter_app|]. rewrite C. symmetry. apply filter_app.
Qed.
Lemma same_getls i : alike_same (getls i).
Proof. apply same_bind; [apply same_dict|]. intros. apply same_aget. Qed.
Lemma same_setls i f : alike_same (setls i f).
Proof.
  apply same_bind; [apply same_dict|intros]. apply same_bind; [apply same_aget|intros]. apply same_bind; [apply same_aset|intros]. apply same_set_dict.
Qed.
Lemma same_check_key key : alike_same (check_key key).
Proof. apply same_bind; [apply same_dict|intros]. apply same_bind; [apply same_aget|intros]. apply same_ret. Qed.

Definition clears (l : label) : Prop := exists w i, l = LClear w fd i.
Notation loc := (local at_loop clears alike).

Ltac same_tac := repeat lazymatch goal with
  | |- same _ (getls _) => apply same_getls
  | |- same _ (setls _ _) => apply same_setls
  | |- same _ (check_key _) => apply same_check_key
  | |- same _ (send_string_on_socket _ _) => apply same_send
  | |- same _ (modify _) => apply same_close
  | |- same _ (ret _) => apply same_ret
  | |- same _ (fail _) => apply same_fail
  | |- same _ (bind _ _) => apply same_bind; [|intros]
  | |- same _ (match ?x with _ => _ end) => destruct x
  end.

Lemma finish_local w : loc (finish w fd).
Proof. split; [same_tac|]. intros _. left. by exists w. Qed.

Lemma sender_local w a k : loc k -> loc (SenderWrapper w fd a k).
Proof. intros Hk. split; [apply same_send|done]. Qed.

(** One action after the other *)
Ltac local_step :=
  lazymatch goal with
  | |- local _ _ _ (finish _ _) => apply finish_local
  | |- local _ _ _ (SenderWrapper _ _ _ _) => apply sender_local
  | |- local _ _ _ (Act _ _) => split; [solve [same_tac]|intros]
  | |- local _ _ _ (Lock _ ?k) => change (loc k)
  | |- local _ _ _ (Unlock _ ?k) => change (loc k)
  | |- local _ _ _ (match ?x with _ => _ end) => destruct x
  end.
Ltac local_tac := repeat local_step.

Lemma insert_local i v k : (forall r, loc (k r)) -> loc (InsertString i v k).
Proof. intros Hk. unfold InsertString. local_tac; apply Hk. Qed.
Lemma update_local i v k : (forall r, loc (k r)) -> loc (UpdateString i v k).
Proof. intros Hk. unfold UpdateString. local_tac; apply Hk. Qed.
Lemma get_local i k : (forall r, loc (k r)) -> loc (GetString i k).
Proof. intros Hk. unfold GetString. local_tac. apply Hk. Qed.
Lemma remove_local i k : (forall r, loc (k r)) -> loc (Remove i k).
Proof. intros Hk. unfold Remove. local_tac; apply Hk. Qed.
Lemma concat_local i j k : (forall r, loc (k r)) -> loc (concat i j k).
Proof. intros Hk. unfold concat, swap_append. local_tac; apply Hk. Qed.

Lemma command_local w type key value : loc (command w fd type key value).
Proof.
  unfold command, isEmpty, terminate.
  repeat first [ local_step | lazymatch goal with
    | |- local _ _ _ (InsertString _ _ _) => apply insert_local
    | |- local _ _ _ (UpdateString _ _ _) => apply update_local
    | |- local _ _ _ (GetString _ _) => apply get_local
    | |- local _ _ _ (Remove _ _) => apply remove_local
    | |- local _ _ _ (concat _ _ _) => apply concat_local
    end; intros ].
Qed.

Lemma handle_local w request : loc (handle w fd request).
Proof.
  unfold handle. case_decide; [right; by exists w, 0%nat|]. destruct (extract _ _) as [ws word]. destruct (extract ws word) as [ws' word'].
  unfold terminate. split; [same_tac|]. intros key. apply command_local.
Qed.

Lemma clear_local l : clears l -> loc (code l).
Proof.
  intros (w & i & ->). cbn [code]. unfold clear. case_match.
  - split; [apply same_send|intros _]. apply finish_local.
  - apply remove_local. intros _. right. by exists w, (S i).
Qed.
End Disturbed.

(** What becomes of a request on [fd]: the dictionary is [D], [rs] has been sent, and the connection is closed. *)
Record answered (fd : nat) (s s' : server) (D : list (option (list Z))) (rs : list (list Z)) : Prop := {
  an_view : view s' = D;
  an_sent : sent_on fd s' = sent_on fd s ++ (pair fd <$> rs);
  an_closed : closed_on fd s' = closed_on fd s ++ [fd];
}.

Lemma served_answered fd s s' z D rs : served s z D fd rs -> alike fd s' z -> answered fd s s' D rs.
Proof.
  intros [A _ B C _] (A' & B' & C'). split.
  - unfold view in *. by rewrite A'.
  - rewrite B'. unfold sent_on. rewrite B, filter_app. f_equal. clear. induction rs as [|r rs IH]; [done|]. cbn [fmap list_fmap].
    by rewrite filter_cons_True, IH.
  - rewrite C'. unfold closed_on. rewrite C, filter_app. f_equal. by rewrite filter_cons_True.
Qed.

(** The run of the worker alone, in a copy of the system where no mutex is taken *)
Definition alone (y : system server label sync) (t w fd : nat) : system server label sync :=
  here (S t) (sy_threads y) (reading w fd) (sy_data y) ∅.

Lemma reading_follows y t w fd : sy_threads y !! S t = Some (reading w fd) -> (forall m, sy_owner y !! m <> Some (S t)) ->
  follows at_loop (clears fd) (alike fd) (S t) (sy_threads y) y (alone y t w fd) (reading w fd) (sy_data y) ∅.
Proof.
  intros Ht Ho. split; [done|done| |done| |done].
  - split; [|intros request; apply handle_local]. unfold read_string_from_socket. intros s z H. destruct (arrivals !! fd) as [[[r|]|]|]; by split.
  - intros m. split; [done|]. intros E. by destruct (Ho m).
Qed.

(** However the others move, the worker comes back only where it does alone. *)
Lemma reading_ends y y' t w fd l b : sy_threads y !! S t = Some (reading w fd) -> (forall m, sy_owner y !! m <> Some (S t)) ->
  rtc (shared code at_loop (undisturbed fd) (S t)) y y' -> sy_threads y' !! S t = Some (Jump l) -> at_loop l ->
  rtc (hstep code at_loop (S t)) (alone y t w fd) b -> (forall b', ~ hstep code at_loop (S t) b b') ->
  exists z o, b = here (S t) (sy_threads y) (Jump l) z o /\ alike fd (sy_data y') z.
Proof.
  intros Ht Ho Hr Hl Hat Hb Hend. eapply (shared_end code at_loop (clears fd) (alike fd) (undisturbed fd) (alike_rely fd) (clear_local fd) (S t) (sy_threads y));
    [by eapply lookup_lt_Some|by apply reading_follows|exact Hr|exact Hl|exact Hat|exact Hb|exact Hend].
Qed.

Lemma crashed_ends t (b : system server label sync) e b' : sy_crash b = Some e -> ~ hstep code at_loop t b b'.
Proof. intros E [_ [c H]]. unfold astep in H. by rewrite E in H. Qed.

Lemma alone_itself y t w fd : sy_crash y = None -> sy_owner y = ∅ -> sy_threads y !! S t = Some (reading w fd) -> alone y t w fd = y.
Proof. intros Hc Ho Ht. unfold alone, here. rewrite list_insert_id by done. destruct y. cbn in *. by subst. Qed.

Lemma alone_runs t y y' : rtc (hstep code at_loop t) y y' -> rtc (istep code t) y y'.
Proof. intros H. eapply rtc_subrel; [|exact H]. intros. by eapply hstep_istep. Qed.

(** C38: a worker that has taken a connection from the queue, in any state the server can reach. However the other
    threads move, as long as they leave the dictionary alone and do not send on this connection or close it: once the
    worker is back at its loop the dictionary is the one the command makes, the answers of the command and nothing else
    have been sent on the connection, and it is closed. If the request has no number where one is needed, or a
    key that is no index of the dictionary, the worker does not come back. And when no mutex is taken, the worker
    alone does come back, or ends the process: by an exception, or undefined behaviour. *)
Theorem server_serves junk y t w fd request : rtc (step code) (started (before junk) LMain) y -> sy_crash y = None ->
  sy_threads y !! S t = Some (reading w fd) -> (forall m, sy_owner y !! m <> Some (S t)) -> arrivals !! fd = Some (Some (Some request)) ->
  match parse request with
  | Some c =>
      if keys_ok c then
        (forall y' l, rtc (shared code at_loop (undisturbed fd) (S t)) y y' -> sy_threads y' !! S t = Some (Jump l) -> at_loop l ->
           l = LWorker w /\ answered fd (sy_data y) (sy_data y') (apply_cmd c (view (sy_data y))).1 (reply w c (view (sy_data y)))) /\
        (sy_owner y = ∅ -> exists s', rtc (istep code (S t)) y (mksystem s' ∅ (<[S t := Jump (LWorker w)]> (sy_threads y)) None) /\
           served (sy_data y) s' (apply_cmd c (view (sy_data y))).1 fd (reply w c (view (sy_data y))))
      else
        (forall y' l, rtc (shared code at_loop (undisturbed fd) (S t)) y y' -> sy_threads y' !! S t = Some (Jump l) -> ~ at_loop l) /\
        (sy_owner y = ∅ -> exists y', rtc (istep code (S t)) y y' /\ sy_crash y' = Some EUndef)
  | None =>
      (forall y' l, rtc (shared code at_loop (undisturbed fd) (S t)) y y' -> sy_threads y' !! S t = Some (Jump l) -> ~ at_loop l) /\
      (sy_owner y = ∅ -> exists y', rtc (istep code (S t)) y y' /\ sy_crash y' = Some (EPanic "terminate"))
  end.
Proof.
  intros Hr Hc Ht Ho Ha. destruct (server_placed junk y t Hr) as (Hl & Hp); [by eapply lookup_lt_Some|].
  pose proof (lookup_lt_Some _ _ _ Ht) as Hlt.
  assert (handled (S t) (sy_threads y) ∅ w fd (reading w fd) (sy_data y) (sy_data y) (parse request)) as H.
  { eapply (handled_act (S t) (sy_threads y) Hlt ∅); [unfold read_string_from_socket; by rewrite Ha|]. by apply handle_handled. }
  assert (forall e, (exists b, rtc (hstep code at_loop (S t)) (alone y t w fd) b /\ sy_crash b = Some e) ->
    (forall y' l, rtc (shared code at_loop (undisturbed fd) (S t)) y y' -> sy_threads y' !! S t = Some (Jump l) -> ~ at_loop l) /\
    (sy_owner y = ∅ -> exists y', rtc (istep code (S t)) y y' /\ sy_crash y' = Some e)) as Hcrash.
  { intros e (b & Hb & Eb). split.
    - intros y' l Hr' Hl' Hat. destruct (reading_ends y y' t w fd l b) as (z & o & -> & _); try done. intros b'. by apply (crashed_ends _ _ e).
    - intros E. exists b. split; [|done]. apply alone_runs. by rewrite <- (alone_itself y t w fd Hc E Ht) at 1. }
  unfold handled in H. destruct (parse request) as [c|]; [|by apply Hcrash]. destruct (keys_ok c); [|by apply Hcrash].
  destruct H as (s' & Hb & Hs). split.
  - intros y' l Hr' Hl' Hat. destruct (reading_ends y y' t w fd l (here (S t) (sy_threads y) (Jump (LWorker w)) s' ∅)) as (z & o & E & Hz); try done.
    { intros b' [Hn _]. apply (Hn (LWorker w)); [by apply here_at|by exists w]. }
    pose proof (f_equal (fun x => sy_threads x !! S t) E) as E1. cbn beta in E1. rewrite !here_at in E1 by done. injection E1 as <-.
    pose proof (f_equal sy_data E) as E2. cbn in E2. subst z. split; [done|]. by eapply served_answered.
  - intros E. exists s'. split; [|done]. apply alone_runs. rewrite <- (alone_itself y t w fd Hc E Ht) at 1. exact Hb.
Qed.

(** C39: as long as a thread waits for a mutex of the server, some thread that holds one can move:
    concat() takes its two locks in the order of their keys, so that crossing requests
    do not block each other for ever. *)
Theorem server_no_deadlock junk y t m k u : rtc (step code) (started (before junk) LMain) y -> sy_crash y = None ->
  sy_threads y !! t = Some (Lock m k) -> sy_owner y !! m = Some u ->
  exists v c y', astep code v c y = Some y' /\ exists m', sy_owner y !! m' = Some v.
Proof. intros Hr. destruct (server_reachable_inv _ _ Hr) as [hg Hinv]. by apply (Discipline.no_deadlock rank code indexed link at_ new _ _ _ _ _ _ Hinv). Qed.
End Server.

(** ** Runs *)

Definition digit_id (w : nat) : list Z := [48 + Z.of_nat w].
Definition from (arrivals : list (option (option (list Z)))) (n : nat) : label -> prog server label sync := code arrivals digit_id n true true.
Definition times (n t : nat) : list (nat * Z) := replicate n (t, 0).

(** main() starts two workers, which fall asleep; it accepts a connection and wakes worker [t]. *)
Definition boot2 : list (nat * Z) := times 9 0 ++ times 3 1 ++ times 3 2.
Definition wake_worker (t : nat) : list (nat * Z) := times 4 0 ++ [(0%nat, Z.of_nat t); (0%nat, 0)].

(** "insert" looks at [empty] before it takes the lock, so two workers can both insert the
    same key: both clients are told that their insertion was successful, and the
    value of the first is gone. *)
Lemma insert_race : exists y,
  rtc (step (from [Some (Some (cstr "insert 5 one")); Some (Some (cstr "insert 5 two"))] 2)) (started (before (fun _ => 0)) LMain) y /\
  sv_sent (sy_data y) = [(0%nat, cstr "0 : Insertion successful"); (1%nat, cstr "1 : Insertion successful")] /\
  view (sy_data y) !! 5%nat = Some (Some (cstr "two")).
Proof.
  destruct (run_reaches (from [Some (Some (cstr "insert 5 one")); Some (Some (cstr "insert 5 two"))] 2)
    (fun y => bool_decide (sv_sent (sy_data y) = [(0%nat, cstr "0 : Insertion successful"); (1%nat, cstr "1 : Insertion successful")] /\
      view (sy_data y) !! 5%nat = Some (Some (cstr "two"))))
    (boot2 ++ wake_worker 1 ++ wake_worker 2 ++ times 10 1 ++ times 10 2 ++ times 6 1 ++ times 6 2)
    (started (before (fun _ => 0)) LMain)) as (y & Hr & Hy); [vm_compute; reflexivity|].
  apply bool_decide_eq_true in Hy. eauto.
Qed.

(** A signal that comes before the worker sleeps is lost: the request stays in the queue, and unless the
    worker wakes up for no reason nothing happens until there is another connection. *)
Definition lost (y : system server label sync) : bool :=
  match sy_crash y, sy_threads y, sv_queue (sy_data y), sv_accepted (sy_data y) with
  | None, [Act _ _; Sleep VQueue MCond false _], [0%nat], 1%nat => true
  | _, _, _, _ => false
  end.

Lemma request_lost : exists y,
  rtc (step (from [Some (Some (cstr "fetch 1"))] 1)) (started (before (fun _ => 0)) LMain) y /\ sy_crash y = None /\
  sv_queue (sy_data y) = [0%nat] /\ exists k, sy_threads y !! 1%nat = Some (Sleep VQueue MCond false k).
Proof.
  destruct (run_reaches (from [Some (Some (cstr "fetch 1"))] 1) lost (times 7 0 ++ times 6 0 ++ times 3 1) (started (before (fun _ => 0)) LMain))
    as (y & Hr & Hy); [vm_compute; reflexivity|].
  exists y. unfold lost in Hy. repeat (case_match; try discriminate Hy); subst. split_and!; try done. by eexists.
Qed.

(** A worker that wakes up for no reason takes the front of an empty queue. *)
Lemma front_of_empty : exists y, rtc (step (from [] 1)) (started (before (fun _ => 0)) LMain) y /\ sy_crash y = Some EUndef.
Proof.
  destruct (run_reaches (from [] 1) (fun y => match sy_crash y with Some EUndef => true | _ => false end) (times 7 0 ++ times 3 1 ++ times 5 1) (started (before (fun _ => 0)) LMain))
    as (y & Hr & Hy); [vm_compute; reflexivity|].
  exists y. split; [done|]. destruct (sy_crash y) as [[]|]; done.
Qed.

(** ** Witnesses *)

(** The actions of a schedule in which the other threads leave connection [fd] and the dictionary alone *)
Definition loops (p : option (prog server label sync)) : bool := match p with Some (Jump (LWorker _)) => true | _ => false end.
Fixpoint run_shared (code : label -> prog server label sync) (i fd : nat) (l : list (nat * Z)) (y : system server label sync) : option (system server label sync) :=
  match l with
  | [] => Some y
  | (j, c) :: l' =>
      match astep code j c y with
      | Some y1 =>
          if (if decide (j = i) then negb (loops (sy_threads y !! i)) else bool_decide (undisturbed fd (sy_data y) (sy_data y1)))
          then run_shared code i fd l' y1 else None
      | None => None
      end
  end.

Lemma run_shared_ok code i fd l : forall y y', run_shared code i fd l y = Some y' -> rtc (shared code at_loop (undisturbed fd) i) y y'.
Proof.
  induction l as [|[j c] l IH]; intros y y' H; cbn [run_shared] in H; [by injection H as <-|].
  destruct (astep code j c y) as [y1|] eqn:E; [|done]. destruct (if decide _ then _ else _) eqn:Eb; [|done]. eapply rtc_l; [|by apply IH].
  destruct (decide (j = i)) as [->|Hj].
  - apply shared_own. split; [|by exists c]. intros l' Hl [w ->]. by rewrite Hl in Eb.
  - apply bool_decide_eq_true in Eb. by eapply shared_other.
Qed.

Definition wit_arrivals : list (option (option (list Z))) := [Some (Some (cstr "insert 5 one")); Some (Some (cstr "fetch 7"))].

(** Both workers are woken; the first has taken its connection. *)
Definition wit_reading : system server label sync :=
  default (started (before (fun _ => 0)) LMain)
    (run (from wit_arrivals 2) (boot2 ++ wake_worker 1 ++ wake_worker 2 ++ times 6 1) (started (before (fun _ => 0)) LMain)).

(** While it inserts key 5, the second worker takes the other connection and answers it. *)
Definition wit_both : system server label sync :=
  default wit_reading (run_shared (from wit_arrivals 2) 1 0 (times 5 1 ++ times 12 2 ++ times 5 1) wit_reading).

Lemma server_serves_witness :
  LWorker 0 = LWorker 0 /\ answered 0 (sy_data wit_reading) (sy_data wit_both)
    (apply_cmd (CInsert 5 (cstr "one")) (view (sy_data wit_reading))).1 [cstr "0 : Insertion successful"].
Proof.
  assert (rtc (shared (from wit_arrivals 2) at_loop (undisturbed 0) 1) wit_reading wit_both) as Hr.
  { apply (run_shared_ok _ _ _ (times 5 1 ++ times 12 2 ++ times 5 1)). unfold wit_both.
    destruct (run_shared (from wit_arrivals 2) 1 0 (times 5 1 ++ times 12 2 ++ times 5 1) wit_reading) eqn:E; [done|]. vm_compute in E. discriminate E. }
  destruct (server_serves wit_arrivals digit_id 2 true true (fun _ => 0) wit_reading 0 0 0 (cstr "insert 5 one")) as [H _].
  - by apply run_default; vm_compute.
  - vm_compute. reflexivity.
  - reflexivity.
  - assert (sy_owner wit_reading = ∅) as -> by (vm_compute; reflexivity). done.
  - reflexivity.
  - apply (H wit_both (LWorker 0)); [exact Hr|vm_compute; reflexivity|by exists 0%nat].
Defined.

(** The second worker waits for cond_lock, which the first has taken. *)
Definition wit_blocked : system server label sync :=
  default (started (before (fun _ => 0)) LMain) (run (from [] 2) (times 9 0 ++ times 2 1 ++ times 1 2) (started (before (fun _ => 0)) LMain)).

Lemma server_no_deadlock_witness : sy_owner wit_blocked !! MCond = Some 1%nat /\
  exists v c y', astep (from [] 2) v c wit_blocked = Some y' /\ exists m', sy_owner wit_blocked !! m' = Some v.
Proof.
  assert (sy_owner wit_blocked !! MCond = Some 1%nat) as Ho by (vm_compute; reflexivity). split; [exact Ho|].
  apply (server_no_deadlock [] digit_id 2 true true (fun _ => 0) wit_blocked 2 MCond (Wait VQueue MCond false (fun _ => serve [] digit_id 1)) 1).
  - by apply run_default; vm_compute.
  - vm_compute. reflexivity.
  - reflexivity.
  - exact Ho.
Defined.
