(* ===== verification/Client.v ===== *)
(** * Client: the client of the dictionary server, Assignment 5/Q3

    Models Assignment 5/Q3/client.cpp with the threads of [Threads]: main(), which starts a
    thread for each line of its input, and thread_handler(), which sends one request and
    prints the answer.  The server and the network are parameters.  [client_delivers] puts
    the client together with what [Server.parse] makes of a request. *)
From S2P Require Import Prelude Threads Scanf Server.

(** ** Data *)

(** The rest of the input, args[], threads[], what was sent by each thread, and the lines
    printed. *)
Record client : Type := mkclient {
  cl_in : list Z;
  cl_args : list (Z * (list Z * Z));
  cl_threads : list nat;
  cl_sent : list (nat * list Z);
  cl_out : list (Z * list Z);
}.
#[export] Instance eta_client : Settable client := fun s => mkclient (cl_in s) (cl_args s) (cl_threads s) (cl_sent s) (cl_out s).

Inductive label : Type := LMain | LCreate (i n : nat) | LJoin (i n : nat) | LThread (i : nat).

(** How the network treats a connection: socket() or connect() fails, write() fails, read() gives
    nothing, or an answer to the request. *)
Inductive peer : Type := NoConnection | NoSend | NoAnswer | Answers (reply : list Z -> list Z).

(** ** The input *)

Fixpoint skip_space (s : list Z) : list Z :=
  match s with c :: s' => if is_space c then skip_space s' else s | [] => [] end.
Fixpoint skip_digits (s : list Z) : list Z :=
  match s with c :: s' => if is_digit c then skip_digits s' else s | [] => [] end.

(** An optional sign *)
Definition signed (s : list Z) : Z * list Z :=
  match s with 45 :: t => (-1, t) | 43 :: t => (1, t) | _ => (1, s) end.

Definition clamp (x : Z) : Z := Z.max (- 2 ^ 31) (Z.min x (2 ^ 31 - 1)).

(** cin>>n: 0 when there is no number, the nearest int when it is none *)
Definition cin_int (s : list Z) : Z * list Z :=
  let '(sign, t) := signed (skip_space s) in
  (clamp (sign * digits_value 0 t), skip_digits t).

Fixpoint line_of (s : list Z) : list Z :=
  match s with c :: s' => if c =? 10 then [] else c :: line_of s' | [] => [] end.

(** scanf(" %[^\n]", s) into char s[128]; without a line, s stays uninitialised. *)
Definition scan_line : M client (list Z) :=
  t <- gets (fun v => skip_space (cl_in v)) ;;
  let s := line_of t in
  if (length s =? 0)%nat || (128 <=? length s)%nat then fail EUndef else
  modify (fun v => v <| cl_in := drop (length s) t |>) ;;
  ret s.

(** atoi() of the host *)
Definition atoi (s : list Z) : Z := let '(sign, t) := signed (skip_space s) in sign * digits_value 0 t.

(** The request is what follows the second byte; a line of one byte ends before that, and
    what comes after its NUL is not initialised. *)
Definition get_pair (s : list Z) : M client (list Z * Z) :=
  match s with
  | c :: _ :: s1 => ret (until_nul s1, atoi (until_nul [c]))
  | _ => fail EUndef
  end.

(** ** Threads *)

Section Client.
Context (peers : nat -> peer).

Notation prog := (prog client label nat).

(** exit(-1) ends the process. *)
Definition quit {A} : M client A := fail (EPanic "exit").

Definition get_socket_fd (i : nat) : M client unit :=
  match peers i with NoConnection => quit | _ => ret tt end.

Definition send_string_on_socket (i : nat) (s : list Z) : M client unit :=
  match peers i with
  | NoSend => quit
  | _ => modify (fun v => v <| cl_sent := cl_sent v ++ [(i, s)] |>)
  end.

(** read() of at most [bytes] - 1 bytes of the answer to [s] *)
Definition read_string_from_socket (i : nat) (s : list Z) (bytes : Z) : M client (list Z) :=
  match peers i with
  | Answers reply =>
      let output := take (Z.to_nat (bytes - 1)) (reply s) in
      if (length output =? 0)%nat then quit else ret output
  | _ => quit
  end.

Definition buff_sz : Z := 1048576.

(** [i] is the place in args[] that the thread is given. *)
Definition thread_handler (i : nat) : prog :=
  Act (l <- gets cl_args ;; aget l (Z.of_nat i)) (fun full =>
  let s := full.2.1 in
  Act (get_socket_fd i) (fun _ =>
  Act (send_string_on_socket i s) (fun _ =>
  Act (read_string_from_socket i s buff_sz) (fun output_msg =>
  Act (modify (fun v => v <| cl_out := cl_out v ++ [(full.1, until_nul output_msg)] |>)) (fun _ =>
  Done))))).

(** int n; cin>>n; pthread_t threads[n]; args[n] *)
Definition read_count : M client nat :=
  r <- gets (fun v => cin_int (cl_in v)) ;;
  if r.1 <? 0 then fail EUndef else
  let n := Z.to_nat r.1 in
  modify (fun v => v <| cl_in := r.2 |> <| cl_args := replicate n (0, ([], 0)) |> <| cl_threads := replicate n 0%nat |>) ;;
  ret n.

(** args[i] is main()'s own until the thread is created. *)
Definition fill_args (i : nat) : M client unit :=
  s <- scan_line ;;
  p <- get_pair s ;;
  l <- gets cl_args ;;
  l <- aset l (Z.of_nat i) (Z.of_nat i, p) ;;
  modify (fun v => v <| cl_args := l |>).

Definition store_thread (i t : nat) : M client unit :=
  l <- gets cl_threads ;;
  l <- aset l (Z.of_nat i) t ;;
  modify (fun v => v <| cl_threads := l |>).

Definition code (l : label) : prog :=
  match l with
  | LMain => Act read_count (fun n => Jump (LCreate 0 n))
  | LCreate i n =>
      if (n <=? i)%nat then Jump (LJoin 0 n) else
      Act (fill_args i) (fun _ =>
      Spawn (LThread i) (fun t =>
      Act (store_thread i t) (fun _ =>
      Jump (LCreate (S i) n))))
  | LJoin i n =>
      if (n <=? i)%nat then Done else
      Act (l <- gets cl_threads ;; aget l (Z.of_nat i)) (fun t => Join t (Jump (LJoin (S i) n)))
  | LThread i => thread_handler i
  end.
End Client.

Definition client_start (input : list Z) : client := mkclient input [] [] [] [].

(** ** Requests as text *)

(** A key below 100 *)
Definition key_text (k : Z) : list Z := if k <? 10 then [48 + k] else [48 + k / 10; 48 + k mod 10].

Definition request_text (c : cmd) : list Z :=
  match c with
  | CInsert k v => cstr "insert " ++ key_text k ++ [32] ++ v
  | CUpdate k v => cstr "update " ++ key_text k ++ [32] ++ v
  | CFetch k => cstr "fetch " ++ key_text k
  | CConcat k k2 => cstr "concat " ++ key_text k ++ [32] ++ key_text k2
  | CDelete k => cstr "delete " ++ key_text k
  | CClear => cstr "clear"
  | CInvalid => cstr "nothing 0"
  end.

(** A value that is one word *)
Definition word_char (c : Z) : bool := negb (is_space c) && negb (c =? 0).
Definition word_ok (v : list Z) : bool := negb (length v =? 0)%nat && forallb word_char v.
Definition cmd_ok (c : cmd) : bool :=
  keys_ok c && match c with CInsert _ v | CUpdate _ v => word_ok v && (length v <? 100)%nat | _ => true end.

(** A line of the input: the delay, a digit, and the request *)
Definition line_text (d : Z) (c : cmd) : list Z := [48 + d; 32] ++ request_text c.

Lemma words_word w : forall cur s, forallb word_char w = true ->
  words_from cur (w ++ s) = words_from (rev w ++ cur) s.
Proof.
  induction w as [|c w IH]; intros cur s H; [done|]. cbn in H. apply andb_true_iff in H as [Hc H]. unfold word_char in Hc. apply andb_true_iff in Hc as [Hc _]. apply negb_true_iff in Hc.
  cbn [app words_from rev]. rewrite Hc, IH by done. by rewrite <- app_assoc.
Qed.

Lemma words_end w : word_ok w = true -> words w = [w].
Proof.
  intros [Hl Hw]%andb_true_iff. unfold words. rewrite <- (app_nil_r w) at 1. rewrite words_word by done. cbn. rewrite app_nil_r.
  destruct (rev w) eqn:E; [|by rewrite <- E, rev_involutive]. apply (f_equal (@rev _)) in E. rewrite rev_involutive in E. by subst.
Qed.

Lemma words_space w s : word_ok w = true -> words (w ++ 32 :: s) = w :: words s.
Proof.
  intros [Hl Hw]%andb_true_iff. unfold words. rewrite words_word, app_nil_r by done. cbn [words_from].
  destruct (rev w) eqn:E; [|by rewrite <- E, rev_involutive]. apply (f_equal (@rev _)) in E. rewrite rev_involutive in E. by subst.
Qed.

Lemma key_cases k : in_range k = true -> word_ok (key_text k) = true /\ stoi (key_text k) = Some k.
Proof.
  intros H. unfold in_range in H. assert (0 <= k < 100) as Hk by lia.
  assert (forallb (fun i => word_ok (key_text (Z.of_nat i)) && bool_decide (stoi (key_text (Z.of_nat i)) = Some (Z.of_nat i))) (seq 0 100) = true) as Hall by (by vm_compute).
  rewrite forallb_forall in Hall. specialize (Hall (Z.to_nat k) ltac:(apply in_seq; lia)). rewrite Z2Nat.id in Hall by lia.
  apply andb_true_iff in Hall as [H1 H2]. split; [done|by apply bool_decide_eq_true in H2].
Qed.

(** The server reads back each command, and the client's line gives its text. *)
Lemma request_parses c : cmd_ok c = true -> parse (request_text c) = Some c.
Proof.
  assert (forall k, in_range k = true -> words (key_text k) = [key_text k]) as Hkey by (intros k Hk; by apply words_end, key_cases).
  assert (forall t k v, word_ok t = true -> in_range k = true -> words (t ++ 32 :: key_text k ++ 32 :: v) = t :: key_text k :: words v) as H3.
  { intros t k v Ht Hk. rewrite words_space by done. by rewrite words_space by (by apply key_cases). }
  assert (forall t k, word_ok t = true -> in_range k = true -> words (t ++ 32 :: key_text k) = [t; key_text k]) as H2.
  { intros t k Ht Hk. by rewrite words_space, Hkey by done. }
  intros [Hk Hv]%andb_true_iff. unfold parse, cmd_of. destruct c as [k v|k v|k|k k2|k| |]; cbn [request_text keys_ok] in *; [| | | | |done|done];
    rewrite decide_False by (intros E%(f_equal (take 2)); vm_compute in E; discriminate E).
  - apply andb_true_iff in Hv as [Hv _]. change (cstr "insert ") with (cstr "insert" ++ [32]). rewrite <- app_assoc. cbn [app].
    rewrite (H3 (cstr "insert")), (words_end v) by done. cbv [head hd_error tail tl from_option id]. by rewrite (proj2 (key_cases k Hk)).
  - apply andb_true_iff in Hv as [Hv _]. change (cstr "update ") with (cstr "update" ++ [32]). rewrite <- app_assoc. cbn [app].
    rewrite (H3 (cstr "update")), (words_end v) by done. cbv [head hd_error tail tl from_option id]. by rewrite (proj2 (key_cases k Hk)).
  - change (cstr "fetch ") with (cstr "fetch" ++ [32]). rewrite <- app_assoc. cbn [app].
    rewrite (H2 (cstr "fetch")) by done. cbv [head hd_error tail tl from_option id]. by rewrite (proj2 (key_cases k Hk)).
  - apply andb_true_iff in Hk as [Hk Hk2]. change (cstr "concat ") with (cstr "concat" ++ [32]). rewrite <- app_assoc. cbn [app].
    rewrite (H3 (cstr "concat")), Hkey by done. cbv [head hd_error tail tl from_option id]. rewrite (proj2 (key_cases k Hk)).
    rewrite !(decide_False (P := cstr "concat" = _)) by done. rewrite decide_True by done. by rewrite (proj2 (key_cases k2 Hk2)).
  - change (cstr "delete ") with (cstr "delete" ++ [32]). rewrite <- app_assoc. cbn [app].
    rewrite (H2 (cstr "delete")) by done. cbv [head hd_error tail tl from_option id]. by rewrite (proj2 (key_cases k Hk)).
Qed.

(** ** The lines of the input *)

Definition lines_text (ls : list (Z * cmd)) : list Z := mjoin ((fun l => 10 :: line_text l.1 l.2) <$> ls) ++ [10].

Lemma line_of_app l r : Forall (fun c => c <> 10) l -> line_of (l ++ 10 :: r) = l.
Proof. induction 1 as [|c l Hc Hl IH]; [done|]. cbn [app line_of]. destruct (Z.eqb_spec c 10); [done|]. by rewrite IH. Qed.

Lemma word_no_nl w : word_ok w = true -> Forall (fun c => c <> 10 /\ c <> 0) w.
Proof.
  intros [_ H]%andb_true_iff. rewrite forallb_forall in H. apply Forall_forall. intros c Hc.
  rewrite list_elem_of_In in Hc. specialize (H c Hc). split; intros ->; done.
Qed.

Lemma until_nul_plain l : Forall (fun c => c <> 10 /\ c <> 0) l -> until_nul l = l.
Proof. induction 1 as [|c l [_ Hc] _ IH]; [done|]. cbn [until_nul]. destruct (Z.eqb_spec c 0); [done|]. by rewrite IH. Qed.

(** A text without a newline or a NUL, of at most [m] bytes *)
Definition plain (m : nat) (l : list Z) : Prop := Forall (fun c => c <> 10 /\ c <> 0) l /\ (length l <= m)%nat.

Lemma plain_app a b l r : plain a l -> plain b r -> plain (a + b) (l ++ r).
Proof. intros [H1 H2] [H3 H4]. split; [by apply Forall_app|]. rewrite length_app. lia. Qed.

Lemma plain_const m l : forallb (fun c => negb (c =? 10) && negb (c =? 0)) l && (length l <=? m)%nat = true -> plain m l.
Proof.
  intros [H1 H2%Nat.leb_le]%andb_true_iff. split; [|done]. apply Forall_forall. intros c Hc. rewrite forallb_forall in H1.
  apply list_elem_of_In in Hc. specialize (H1 c Hc). split; intros ->; done.
Qed.

Lemma plain_key k : in_range k = true -> plain 2 (key_text k).
Proof. intros H. split; [by apply word_no_nl, key_cases|]. unfold key_text. case_match; cbn; lia. Qed.

Lemma request_plain c : cmd_ok c = true -> plain 110 (request_text c).
Proof.
  intros [Hk Hv]%andb_true_iff. destruct c as [k v|k v|k|k k2|k| |]; cbn [request_text keys_ok] in *; [| | | | |by apply plain_const..].
  1,2: apply andb_true_iff in Hv as [Hv Hl%Nat.ltb_lt];
    apply (plain_app 7 103); [by apply plain_const|apply (plain_app 2 101); [by apply plain_key|apply (plain_app 1 100); [by apply plain_const|]]];
    split; [by apply word_no_nl|lia].
  - apply (plain_app 7 103); [by apply plain_const|]. destruct (plain_key k Hk). split; [done|lia].
  - apply andb_true_iff in Hk as [Hk Hk2]. apply (plain_app 7 103); [by apply plain_const|]. apply (plain_app 2 101); [by apply plain_key|].
    apply (plain_app 1 100); [by apply plain_const|]. destruct (plain_key k2 Hk2). split; [done|lia].
  - apply (plain_app 7 103); [by apply plain_const|]. destruct (plain_key k Hk). split; [done|lia].
Qed.

(** One round of main()'s first loop *)
Lemma fill_args_line (s : client) (i : nat) (d : Z) (c : cmd) (ls : list (Z * cmd)) :
  cl_in s = lines_text ((d, c) :: ls) -> 0 <= d < 10 -> cmd_ok c = true -> (i < length (cl_args s))%nat ->
  fill_args i s = Ret tt (s <| cl_in := lines_text ls |> <| cl_args := <[i := (Z.of_nat i, (request_text c, d))]> (cl_args s) |>).
Proof.
  intros Hin Hd Hc Hi. destruct (request_plain c Hc) as [Hnl Hlen]. unfold fill_args.
  assert (scan_line s = Ret (line_text d c) (s <| cl_in := lines_text ls |>)) as Hscan.
  { assert (lines_text ((d, c) :: ls) = 10 :: line_text d c ++ lines_text ls) as E by (unfold lines_text; cbn; by rewrite <- app_assoc).
    assert (exists r, lines_text ls = 10 :: r) as [r Er] by (unfold lines_text; destruct ls; by eexists).
    unfold scan_line, gets, bind. rewrite Hin, E. cbn [skip_space]. change (is_space 10) with true. cbv iota.
    assert (skip_space (line_text d c ++ lines_text ls) = line_text d c ++ lines_text ls) as ->.
    { unfold line_text. cbn [app skip_space]. assert (is_space (48 + d) = false) as ->; [|done]. unfold is_space. lia. }
    rewrite Er, line_of_app, <- Er by (unfold line_text; apply Forall_app; split; [repeat constructor; lia|by eapply Forall_impl; [exact Hnl|intros ? []]]).
    rewrite drop_app_length. assert ((length (line_text d c) =? 0)%nat || (128 <=? length (line_text d c))%nat = false) as ->; [|done].
    unfold line_text. rewrite length_app. cbn [length]. apply orb_false_iff. split; [by apply Nat.eqb_neq; lia|apply Nat.leb_gt; lia]. }
  erewrite bind_ret by done. unfold line_text. cbn [app get_pair]. rewrite until_nul_plain by done. erewrite bind_ret by done.
  unfold gets, bind. cbn [cl_args set_field eta_client]. rewrite aset_ok by lia. rewrite Nat2Z.id.
  assert (atoi (until_nul [48 + d]) = d) as ->; [|done].
  assert (d ∈ seqZ 0 10) as H by (apply elem_of_seqZ; lia). clear -H. revert d H. apply Forall_forall. vm_compute. by repeat constructor.
Qed.

(** ** Every schedule delivers every request *)

Section Deliver.
Context (peers : nat -> peer) (input : list Z) (ls : list (Z * cmd)).

Notation n := (length ls).
Definition delay (i : nat) : Z := default 0 (fst <$> ls !! i).
Definition request (i : nat) : list Z := default [] ((fun l => request_text l.2) <$> ls !! i).
Definition received (i : nat) : list Z :=
  match peers i with Answers reply => take (Z.to_nat (buff_sz - 1)) (reply (request i)) | _ => [] end.

Hypothesis Hin : cin_int input = (Z.of_nat n, lines_text ls).
Hypothesis Hok : Forall (fun l => 0 <= l.1 < 10 /\ cmd_ok l.2 = true) ls.
Hypothesis Hpeers : forall i, (i < n)%nat -> exists reply, peers i = Answers reply /\ reply (request i) <> [].

(** Where main() is *)
Inductive phase : Type :=
  | Start | Load | Create (i : nat) | Fill (i : nat) | Spawning (i : nat) | Store (i : nat)
  | Joining (i : nat) | JLoad (i : nat) | JWait (i : nat) | Over.

Notation code := (code peers).
Definition prog_store (i t : nat) : prog client label nat := Act (store_thread i t) (fun _ => Jump (LCreate (S i) n)).
Definition prog_spawn (i : nat) : prog client label nat := Spawn (LThread i) (prog_store i).

Definition main_prog (ph : phase) : prog client label nat :=
  match ph with
  | Start => Jump LMain
  | Load => Act read_count (fun n => Jump (LCreate 0 n))
  | Create i => Jump (LCreate i n)
  | Fill i => Act (fill_args i) (fun _ => prog_spawn i)
  | Spawning i => prog_spawn i
  | Store i => prog_store i (S i)
  | Joining i => Jump (LJoin i n)
  | JLoad i => Act (l <- gets cl_threads ;; aget l (Z.of_nat i)) (fun t => Join t (Jump (LJoin (S i) n)))
  | JWait i => Join (S i) (Jump (LJoin (S i) n))
  | Over => Done
  end.

(** How many threads there are, and how many entries of args[] and threads[] are set *)
Definition created (ph : phase) : nat :=
  match ph with Start | Load => 0 | Create i | Fill i | Spawning i => i | Store i => S i | _ => n end%nat.
Definition filled (ph : phase) : nat := match ph with Spawning i => S i | _ => created ph end.
Definition stored (ph : phase) : nat := match ph with Store i => i | _ => created ph end.
Definition early (ph : phase) : bool := match ph with Start | Load => true | _ => false end.
Definition joined (ph : phase) : nat := match ph with Joining i | JLoad i | JWait i => i | Over => n | _ => 0 end%nat.
Definition bounded (ph : phase) : Prop :=
  match ph with Create i | Joining i => i <= n | Fill i | Spawning i | Store i | JLoad i | JWait i => i < n | _ => True end%nat.

(** Where thread [i] is, by the number of actions it has done *)
Definition prog_print (full : Z * (list Z * Z)) (output_msg : list Z) : prog client label nat :=
  Act (modify (fun v => v <| cl_out := cl_out v ++ [(full.1, until_nul output_msg)] |>)) (fun _ => Done).
Definition prog_read (i : nat) (full : Z * (list Z * Z)) : prog client label nat :=
  Act (read_string_from_socket peers i full.2.1 buff_sz) (prog_print full).
Definition prog_send (i : nat) (full : Z * (list Z * Z)) : prog client label nat :=
  Act (send_string_on_socket peers i full.2.1) (fun _ => prog_read i full).
Definition prog_dial (i : nat) (full : Z * (list Z * Z)) : prog client label nat :=
  Act (get_socket_fd peers i) (fun _ => prog_send i full).
Definition stage (i k : nat) : prog client label nat :=
  let full := (Z.of_nat i, (request i, delay i)) in
  match k with
  | 0 => Jump (LThread i)
  | 1 => thread_handler peers i
  | 2 => prog_dial i full
  | 3 => prog_send i full
  | 4 => prog_read i full
  | 5 => prog_print full (received i)
  | _ => Done
  end%nat.

(** What the threads that have done [k] actions have contributed *)
Definition reached {A} (k : nat) (f : nat -> A) (ks : list nat) : list A :=
  mjoin (imap (fun i s => if (k <=? s)%nat then [f i] else []) ks).

Record inv (y : system client label nat) (ph : phase) (ks : list nat) : Prop := {
  iv_crash : sy_crash y = None;
  iv_threads : sy_threads y = main_prog ph :: imap stage ks;
  iv_created : length ks = created ph;
  iv_bounded : bounded ph;
  iv_stages : Forall (fun k => (k <= 6)%nat) ks;
  iv_joined : forall i, (i < joined ph)%nat -> ks !! i = Some 6%nat;
  iv_in : cl_in (sy_data y) = if early ph then input else lines_text (drop (filled ph) ls);
  iv_args : forall i, (i < filled ph)%nat -> cl_args (sy_data y) !! i = Some (Z.of_nat i, (request i, delay i));
  iv_tids : forall i, (i < stored ph)%nat -> cl_threads (sy_data y) !! i = Some (S i);
  iv_sizes : early ph = true \/ length (cl_args (sy_data y)) = n /\ length (cl_threads (sy_data y)) = n;
  iv_sent : cl_sent (sy_data y) ≡ₚ reached 4 (fun i => (i, request i)) ks;
  iv_out : cl_out (sy_data y) ≡ₚ reached 6 (fun i => (Z.of_nat i, until_nul (received i))) ks;
}.

(** The number of actions to come *)
Definition left_main (ph : phase) : nat :=
  match ph with
  | Start => 13 * n + 4 | Load => 13 * n + 3
  | Create i => 3 * n + 2 + 10 * (n - i) | Fill i => 3 * n + 1 + 10 * (n - i)
  | Spawning i => 3 * n + 10 * (n - i) | Store i => 3 * n + 10 * (n - i) - 7
  | Joining i => 3 * (n - i) + 1 | JLoad i => 3 * (n - i) | JWait i => 3 * (n - i) - 1
  | Over => 0
  end%nat.
Definition todo (ks : list nat) : nat := sum_list ((fun k => 6 - k)%nat <$> ks).
Definition left_all (ph : phase) (ks : list nat) : nat := (left_main ph + todo ks)%nat.

Lemma reached_app {A} k (f : nat -> A) ks s : reached k f (ks ++ [s]) = reached k f ks ++ (if (k <=? s)%nat then [f (length ks)] else []).
Proof. unfold reached. rewrite imap_app, join_app. cbn. by rewrite app_nil_r, Nat.add_0_r. Qed.

Lemma reached_step {A} k : forall ks (f : nat -> A) i s, ks !! i = Some s ->
  reached k f (<[i := S s]> ks) ≡ₚ reached k f ks ++ (if decide (k = S s) then [f i] else []).
Proof.
  induction ks as [|x ks IH]; intros f i s Hi; [done|]. destruct i as [|i]; cbn in Hi.
  - injection Hi as ->. unfold reached. cbn. destruct (Nat.leb_spec k (S s)), (Nat.leb_spec k s); case_decide; try lia; cbn; rewrite ?app_nil_r; try done.
    by rewrite Permutation_cons_append.
  - specialize (IH (f ∘ S) i s Hi). unfold reached in *. cbn. rewrite <- app_assoc. apply Permutation_app_head. exact IH.
Qed.

Lemma left_step ks i s : ks !! i = Some s -> (s < 6)%nat ->
  todo ks = S (todo (<[i := S s]> ks)).
Proof.
  assert (forall x l, todo (x :: l) = (6 - x + todo l)%nat) as Hc by done.
  revert i. induction ks as [|x ks IH]; intros [|i] Hi Hs; try done; cbn [insert list_insert lookup list_lookup] in *; rewrite !Hc; [injection Hi as ->; lia|].
  rewrite (IH i Hi Hs). apply Nat.add_succ_r.
Qed.

(** The data that a step leaves alone *)
Lemma lookup_request i l : ls !! i = Some l -> request i = request_text l.2 /\ delay i = l.1.
Proof. intros H. unfold request, delay. by rewrite H. Qed.

(** An action of thread [i], which has done [s] actions *)
Lemma thread_acts y ph ks i s d' : inv y ph ks -> ks !! i = Some s -> (s < 6)%nat ->
  cl_in d' = cl_in (sy_data y) -> cl_args d' = cl_args (sy_data y) -> cl_threads d' = cl_threads (sy_data y) ->
  cl_sent d' = cl_sent (sy_data y) ++ (if decide (4 = S s)%nat then [(i, request i)] else []) ->
  cl_out d' = cl_out (sy_data y) ++ (if decide (6 = S s)%nat then [(Z.of_nat i, until_nul (received i))] else []) ->
  inv (goto (S i) (stage i (S s)) (with_data d' y)) ph (<[i := S s]> ks) /\ left_all ph ks = S (left_all ph (<[i := S s]> ks)).
Proof.
  intros [I1 I2 I3 I4 I5 I6 I7 I8 I9 I10 I11 I12] Hi Hs E1 E2 E3 E4 E5. split; [|unfold left_all; rewrite (left_step ks i s) by done; lia].
  pose proof (lookup_lt_Some _ _ _ Hi). split; cbn [goto with_data sy_crash sy_threads sy_data]; rewrite ?E1, ?E2, ?E3, ?length_insert; try done.
  - rewrite I2. transitivity (main_prog ph :: <[i := stage i (S s)]> (imap stage ks)); [done|]. f_equal. apply list_eq. intros j. rewrite list_lookup_imap. destruct (decide (i = j)) as [->|Hne].
    + rewrite !list_lookup_insert_eq by (rewrite ?length_imap; done). done.
    + rewrite !list_lookup_insert_ne by done. apply list_lookup_imap.
  - apply Forall_insert; [done|lia].
  - intros j Hj. destruct (decide (i = j)) as [->|Hne]; [|rewrite list_lookup_insert_ne by done; by apply I6].
    specialize (I6 j Hj). rewrite Hi in I6. injection I6 as ->. lia.
  - by rewrite E4, (reached_step 4 ks _ i s Hi), I11.
  - by rewrite E5, (reached_step 6 ks _ i s Hi), I12.
Qed.

Lemma with_same (y : system client label nat) : with_data (sy_data y) y = y.
Proof. by destruct y. Qed.

Lemma created_filled ph i : bounded ph -> (i < created ph)%nat -> (i < filled ph)%nat /\ (i < n)%nat.
Proof. destruct ph; cbn; lia. Qed.

(** An action of the thread that was given args[i] *)
Lemma thread_step y ph ks i s c : inv y ph ks -> ks !! i = Some s -> (s < 6)%nat ->
  exists d', astep code (S i) c y = Some (goto (S i) (stage i (S s)) (with_data d' y)) /\
    inv (goto (S i) (stage i (S s)) (with_data d' y)) ph (<[i := S s]> ks) /\ left_all ph ks = S (left_all ph (<[i := S s]> ks)).
Proof.
  intros I Hi Hs. pose proof I as [I1 I2 I3 I4 _ _ _ I8 _ _ _ _]. pose proof (lookup_lt_Some _ _ _ Hi) as Hlt. rewrite I3 in Hlt.
  destruct (created_filled ph i I4 Hlt) as [Hf Hn]. destruct (Hpeers i Hn) as (reply & Hp & Hr).
  assert (sy_threads y !! S i = Some (stage i s)) as Ht by (rewrite I2; change (imap stage ks !! i = Some (stage i s)); by rewrite list_lookup_imap, Hi).
  set (after := fun d' => goto (S i) (stage i (S s)) (with_data d' y)).
  assert (forall d', cl_in d' = cl_in (sy_data y) -> cl_args d' = cl_args (sy_data y) -> cl_threads d' = cl_threads (sy_data y) ->
    cl_sent d' = cl_sent (sy_data y) ++ (if decide (4 = S s)%nat then [(i, request i)] else []) ->
    cl_out d' = cl_out (sy_data y) ++ (if decide (6 = S s)%nat then [(Z.of_nat i, until_nul (received i))] else []) ->
    astep code (S i) c y = Some (after d') ->
    exists d', astep code (S i) c y = Some (after d') /\ inv (after d') ph (<[i := S s]> ks) /\ left_all ph ks = S (left_all ph (<[i := S s]> ks))) as Hd.
  { intros d' H1 H2 H3 H4 H5 E. exists d'. split; [done|by apply thread_acts]. }
  assert (received i <> []) as Hne.
  { unfold received. rewrite Hp. destruct (reply (request i)) as [|x r] eqn:E; [done|]. unfold buff_sz. by destruct (Z.to_nat (1048576 - 1)) eqn:E'; [lia|]. }
  destruct s as [|[|[|[|[|[|s]]]]]]; [..|lia].
  - apply (Hd (sy_data y)); rewrite ?app_nil_r; try done. unfold astep, after. by rewrite I1, Ht, with_same.
  - apply (Hd (sy_data y)); rewrite ?app_nil_r; try done. unfold astep. rewrite I1, Ht. cbn [stage]. unfold thread_handler, gets, bind, aget.
    by rewrite znth_nat, (I8 i Hf).
  - apply (Hd (sy_data y)); rewrite ?app_nil_r; try done. unfold astep. rewrite I1, Ht. cbn [stage]. unfold prog_dial, get_socket_fd. by rewrite Hp.
  - apply (Hd ((sy_data y) <| cl_sent := cl_sent (sy_data y) ++ [(i, request i)] |>)); try (by cbn; rewrite ?app_nil_r); try done.
    unfold astep. rewrite I1, Ht. cbn [stage]. unfold prog_send, send_string_on_socket. by rewrite Hp.
  - apply (Hd (sy_data y)); rewrite ?app_nil_r; try done. unfold astep. rewrite I1, Ht. cbn [stage]. unfold prog_read, read_string_from_socket.
    unfold received in Hne. rewrite Hp in *. cbn [snd fst]. destruct (Nat.eqb_spec (length (take (Z.to_nat (buff_sz - 1)) (reply (request i)))) 0) as [E|]; [by apply length_zero_iff_nil in E|].
    unfold after. cbn [stage]. unfold received. by rewrite Hp.
  - apply (Hd ((sy_data y) <| cl_out := cl_out (sy_data y) ++ [(Z.of_nat i, until_nul (received i))] |>)); try (by cbn; rewrite ?app_nil_r); try done.
    unfold astep. by rewrite I1, Ht.
Qed.

(** An action of main() that creates no thread *)
Lemma main_acts y ph ph' ks d' : inv y ph ks -> created ph' = created ph -> bounded ph' ->
  (forall i, (i < joined ph')%nat -> ks !! i = Some 6%nat) ->
  cl_in d' = (if early ph' then input else lines_text (drop (filled ph') ls)) ->
  (forall i, (i < filled ph')%nat -> cl_args d' !! i = Some (Z.of_nat i, (request i, delay i))) ->
  (forall i, (i < stored ph')%nat -> cl_threads d' !! i = Some (S i)) ->
  early ph' = true \/ length (cl_args d') = n /\ length (cl_threads d') = n ->
  cl_sent d' = cl_sent (sy_data y) -> cl_out d' = cl_out (sy_data y) ->
  inv (goto 0 (main_prog ph') (with_data d' y)) ph' ks.
Proof.
  intros [I1 I2 I3 I4 I5 I6 I7 I8 I9 I10 I11 I12] Hc Hb Hj Hi Ha Ht Hs E1 E2. split; cbn [goto with_data sy_crash sy_threads sy_data]; try done.
  - by rewrite I2.
  - by rewrite Hc.
  - by rewrite E1.
  - by rewrite E2.
Qed.

Definition main_moved (c : Z) (y : system client label nat) (ph : phase) (ks : list nat) : Prop :=
  exists y' ph' ks', astep code 0 c y = Some y' /\ inv y' ph' ks' /\ left_all ph ks = S (left_all ph' ks').

Lemma main_moved_acts c y ph ph' ks d' : inv y ph ks -> astep code 0 c y = Some (goto 0 (main_prog ph') (with_data d' y)) ->
  inv (goto 0 (main_prog ph') (with_data d' y)) ph' ks -> left_main ph = S (left_main ph') -> main_moved c y ph ks.
Proof. intros _ E I Hl. exists (goto 0 (main_prog ph') (with_data d' y)), ph', ks. split_and!; [done..|]. unfold left_all. lia. Qed.

(** The same with the data as they are *)
Lemma main_moved_same c y ph ph' ks : inv y ph ks -> astep code 0 c y = Some (goto 0 (main_prog ph') y) ->
  created ph' = created ph -> filled ph' = filled ph -> stored ph' = stored ph -> bounded ph' ->
  (forall i, (i < joined ph')%nat -> ks !! i = Some 6%nat) ->
  early ph' = early ph ->
  left_main ph = S (left_main ph') -> main_moved c y ph ks.
Proof.
  intros I E Hc Hf Hs Hb Hj Hk Hl. apply (main_moved_acts c y ph ph' ks (sy_data y) I); [by rewrite with_same| |done].
  apply (main_acts y ph ph' ks (sy_data y) I); try done; pose proof I as [_ _ _ _ _ _ I7 I8 I9 I10 _ _]; by rewrite ?Hk, ?Hf, ?Hs.
Qed.

Lemma main_at y ph ks : inv y ph ks -> sy_crash y = None /\ sy_threads y !! 0%nat = Some (main_prog ph).
Proof. intros [H1 H2 _ _ _ _ _ _ _ _ _ _]. by rewrite H2. Qed.

Lemma main_jump c y ph l ks : inv y ph ks -> main_prog ph = Jump l -> astep code 0 c y = Some (goto 0 (code l) y).
Proof. intros (H1 & H2)%main_at E. unfold astep. by rewrite H1, H2, E. Qed.

Lemma main_act {A} c y ph ks (m : M client A) k a d' : inv y ph ks -> main_prog ph = Act m k -> m (sy_data y) = Ret a d' ->
  astep code 0 c y = Some (goto 0 (k a) (with_data d' y)).
Proof. intros (H1 & H2)%main_at E Hm. unfold astep. by rewrite H1, H2, E, Hm. Qed.

(** The jumps at the heads of the loops *)
Lemma create_moves c y i ks : inv y (Create i) ks -> main_moved c y (Create i) ks.
Proof.
  intros I. pose proof (main_jump c y _ (LCreate i n) ks I eq_refl) as E. pose proof I as [_ _ _ I4 _ _ _ _ _ _ _ _]. cbn in E, I4.
  destruct (Nat.leb_spec n i) as [H|H].
  - assert (i = n) as -> by lia. apply (main_moved_same c y (Create n) (Joining 0) ks I E); try done; cbn; lia.
  - apply (main_moved_same c y (Create i) (Fill i) ks I E); try done; cbn; lia.
Qed.

Lemma joining_moves c y i ks : inv y (Joining i) ks -> main_moved c y (Joining i) ks.
Proof.
  intros I. pose proof (main_jump c y _ (LJoin i n) ks I eq_refl) as E. pose proof I as [_ _ _ I4 _ I6 _ _ _ _ _ _]. cbn in E, I4.
  destruct (Nat.leb_spec n i) as [H|H].
  - assert (i = n) as -> by lia. apply (main_moved_same c y (Joining n) Over ks I E); try done; cbn; lia.
  - apply (main_moved_same c y (Joining i) (JLoad i) ks I E); try done; cbn; lia.
Qed.

Lemma load_moves c y ks : inv y Load ks -> main_moved c y Load ks.
Proof.
  intros I. pose proof I as [_ _ I3 _ _ _ I7 _ _ _ _ _]. cbn in I7.
  eassert (read_count (sy_data y) = Ret n _) as E.
  { unfold read_count. unfold gets at 1. unfold bind at 1. rewrite I7, Hin. cbn [fst snd].
    destruct (Z.ltb_spec (Z.of_nat n) 0); [lia|]. rewrite Nat2Z.id. done. }
  eapply (main_moved_acts c y Load (Create 0) ks); [done|exact (main_act c y Load ks read_count (fun n => Jump (LCreate 0 n)) n _ I eq_refl E)| |cbn; lia].
  apply (main_acts y Load _ ks _ I); cbn; rewrite ?length_replicate; (done || lia || (by right)).
Qed.

Lemma request_line i d q : ls !! i = Some (d, q) -> request i = request_text q /\ delay i = d.
Proof. intros H. unfold request, delay. by rewrite H. Qed.

Lemma fill_moves c y i ks : inv y (Fill i) ks -> main_moved c y (Fill i) ks.
Proof.
  intros I. pose proof I as [_ _ I3 I4 _ I6 I7 I8 I9 I10 _ _]. cbn in I4, I7. destruct I10 as [?|[I10 I10']]; [done|].
  destruct (lookup_lt_is_Some_2 ls i I4) as [[d q] Hq]. destruct (proj1 (Forall_lookup _ _) Hok i _ Hq) as [Hd Hc]. destruct (request_line i d q Hq) as [Er Ed].
  pose proof (fill_args_line (sy_data y) i d q (drop (S i) ls)) as E. rewrite <- (drop_S ls (d, q) i Hq) in E. cbn [fst snd] in *.
  specialize (E I7 Hd Hc ltac:(rewrite I10; done)).
  eapply (main_moved_acts c y (Fill i) (Spawning i) ks); [done|exact (main_act c y (Fill i) ks (fill_args i) (fun _ => prog_spawn i) tt _ I eq_refl E)| |cbn; lia].
  apply (main_acts y (Fill i) _ ks _ I); cbn; rewrite ?length_insert; try done; [|by right].
  intros j Hj. destruct (decide (i = j)) as [->|Hne]; [rewrite list_lookup_insert_eq by (rewrite I10; done); by rewrite Er, Ed|].
  rewrite list_lookup_insert_ne by done. apply I8. cbn. lia.
Qed.

Lemma store_moves c y i ks : inv y (Store i) ks -> main_moved c y (Store i) ks.
Proof.
  intros I. pose proof I as [_ _ I3 I4 _ I6 I7 I8 I9 I10 _ _]. cbn in I4, I7. destruct I10 as [?|[I10 I10']]; [done|].
  eassert (store_thread i (S i) (sy_data y) = Ret tt _) as E.
  { unfold store_thread. unfold gets at 1. unfold bind at 1. erewrite bind_ret by (rewrite aset_ok by lia; done). done. }
  eapply (main_moved_acts c y (Store i) (Create (S i)) ks); [done|exact (main_act c y (Store i) ks (store_thread i (S i)) (fun _ => Jump (LCreate (S i) n)) tt _ I eq_refl E)| |cbn; lia].
  apply (main_acts y (Store i) _ ks _ I); cbn; rewrite ?length_insert; try done; [|by right].
  intros j Hj. rewrite Nat2Z.id. destruct (decide (i = j)) as [->|Hne]; [by rewrite list_lookup_insert_eq by (rewrite I10'; done)|].
  rewrite list_lookup_insert_ne by done. apply I9. cbn. lia.
Qed.

Lemma jload_moves c y i ks : inv y (JLoad i) ks -> main_moved c y (JLoad i) ks.
Proof.
  intros I. pose proof I as [_ _ I3 I4 _ I6 I7 I8 I9 I10 _ _]. cbn in I4.
  apply (main_moved_acts c y (JLoad i) (JWait i) ks (sy_data y) I); [| |cbn; lia].
  - eapply (main_act c y (JLoad i) ks _ (fun t => Join t (Jump (LJoin (S i) n))) (S i)); [done|done|].
    unfold gets, bind, aget. by rewrite znth_nat, (I9 i I4).
  - apply (main_acts y (JLoad i) (JWait i) ks _ I); try done.
Qed.

Lemma todo_new ks : todo (ks ++ [0%nat]) = (6 + todo ks)%nat.
Proof.
  assert (forall x l, todo (x :: l) = (6 - x + todo l)%nat) as Hc by done.
  induction ks as [|x ks IH]; [done|]. cbn [app]. rewrite !Hc, IH. lia.
Qed.

Lemma spawning_moves c y i ks : inv y (Spawning i) ks -> main_moved c y (Spawning i) ks.
Proof.
  intros I. pose proof I as [I1 I2 I3 I4 I5 I6 I7 I8 I9 I10 I11 I12]. destruct (main_at y _ _ I) as [H1 H2]. cbn in I3, I4.
  eexists _, (Store i), (ks ++ [0%nat]). split_and!.
  - unfold astep. rewrite H1, H2. cbn [main_prog]. reflexivity.
  - assert (length (sy_threads y) = S i) as -> by (rewrite I2; cbn; by rewrite length_imap, I3).
    split; cbn [goto sy_crash sy_threads sy_data]; try done.
    + rewrite I2, imap_app. cbn. by rewrite Nat.add_0_r, I3.
    + rewrite length_app, I3. cbn. lia.
    + apply Forall_app. split; [done|]. apply Forall_singleton. lia.
    + cbn. lia.
    + by rewrite reached_app, app_nil_r.
    + by rewrite reached_app, app_nil_r.
  - unfold left_all. rewrite todo_new. cbn. lia.
Qed.

(** pthread_join() waits as long as thread [i] has something to do. *)
Lemma jwait_moves c y i ks s : inv y (JWait i) ks -> ks !! i = Some s -> if decide (s = 6%nat) then main_moved c y (JWait i) ks else astep code 0 c y = None.
Proof.
  intros I Hi. pose proof I as [I1 I2 I3 I4 I5 I6 I7 I8 I9 I10 I11 I12]. destruct (main_at y _ _ I) as [H1 H2]. cbn in I3, I4.
  assert (sy_threads y !! S i = Some (stage i s)) as Ht by (rewrite I2; change (imap stage ks !! i = Some (stage i s)); by rewrite list_lookup_imap, Hi).
  assert (s <= 6)%nat as Hs by (by apply (proj1 (Forall_lookup _ _) I5 i)). case_decide as E.
  - subst s. apply (main_moved_same c y (JWait i) (Joining (S i)) ks I); try done; [|cbn..].
    + unfold astep. rewrite H1, H2. cbn [main_prog]. by rewrite Ht.
    + intros j Hj. destruct (decide (j = i)) as [->|]; [done|]. apply I6. cbn. lia.
    + lia.
  - unfold astep. rewrite H1, H2. cbn [main_prog]. rewrite Ht. destruct s as [|[|[|[|[|[|s]]]]]]; done || lia.
Qed.

(** main() moves, or it waits for a thread, or it is over. *)
Lemma main_cases c y ph ks : inv y ph ks ->
  main_moved c y ph ks \/ astep code 0 c y = None /\ (ph = Over \/ exists i s, ks !! i = Some s /\ (s < 6)%nat).
Proof.
  intros I. destruct ph as [| |i|i|i|i|i|i|i|].
  - left. apply (main_moved_same c y Start Load ks I (main_jump c y _ LMain ks I eq_refl)); try done; cbn; lia.
  - left. by apply load_moves.
  - left. by apply create_moves.
  - left. by apply fill_moves.
  - left. by apply spawning_moves.
  - left. by apply store_moves.
  - left. by apply joining_moves.
  - left. by apply jload_moves.
  - pose proof I as [_ _ I3 I4 I5 _ _ _ _ _ _ _]. cbn in I3, I4. destruct (lookup_lt_is_Some_2 ks i ltac:(lia)) as [s Hs].
    pose proof (jwait_moves c y i ks s I Hs) as H. case_decide; [by left|]. right. split; [done|]. right. exists i, s. split; [done|].
    pose proof (proj1 (Forall_lookup _ _) I5 i s Hs). cbn in *. lia.
  - right. destruct (main_at y _ _ I) as [H1 H2]. split; [|by left]. unfold astep. by rewrite H1, H2.
Qed.

(** Each action is one of those that were to come. *)
Lemma client_step y ph ks t c y' : inv y ph ks -> astep code t c y = Some y' ->
  exists ph' ks', inv y' ph' ks' /\ left_all ph ks = S (left_all ph' ks').
Proof.
  intros I E. destruct t as [|i].
  - destruct (main_cases c y ph ks I) as [(y1 & ph' & ks' & E1 & I1 & Hl)|[E1 _]]; [|congruence]. rewrite E in E1. injection E1 as <-. by exists ph', ks'.
  - pose proof I as [I1 I2 _ _ I5 _ _ _ _ _ _ _]. destruct (ks !! i) as [s|] eqn:Hi.
    + pose proof (proj1 (Forall_lookup _ _) I5 i s Hi) as Hs. cbn in Hs. destruct (decide (s = 6%nat)) as [->|].
      * unfold astep in E. rewrite I1, I2 in E. change ((main_prog ph :: imap stage ks) !! S i) with (imap stage ks !! i) in E. by rewrite list_lookup_imap, Hi in E.
      * destruct (thread_step y ph ks i s c I Hi ltac:(lia)) as (d' & E1 & I' & Hl). rewrite E in E1. injection E1 as ->. by exists ph, (<[i := S s]> ks).
    + unfold astep in E. rewrite I1, I2 in E. change ((main_prog ph :: imap stage ks) !! S i) with (imap stage ks !! i) in E. by rewrite list_lookup_imap, Hi in E.
Qed.

Lemma client_run l : forall y ph ks y', inv y ph ks -> run code l y = Some y' ->
  exists ph' ks', inv y' ph' ks' /\ left_all ph ks = (length l + left_all ph' ks')%nat.
Proof.
  induction l as [|[t c] l IH]; intros y ph ks y' I E; cbn [run] in E; [injection E as <-; by exists ph, ks|].
  destruct (astep code t c y) as [y1|] eqn:E1; [|done]. destruct (client_step y ph ks t c y1 I E1) as (ph1 & ks1 & I1 & H1).
  destruct (IH y1 ph1 ks1 y' I1 E) as (ph' & ks' & I' & H'). exists ph', ks'. split; [done|]. cbn [length]. lia.
Qed.

(** As long as something is to come, a thread can move. *)
Lemma inv_moves y ph ks : inv y ph ks -> left_all ph ks <> 0%nat -> exists t c y', astep code t c y = Some y'.
Proof.
  intros I Hl. destruct (main_cases 0 y ph ks I) as [(y' & _ & _ & E & _)|[_ [->|(i & s & Hi & Hs)]]]; [by exists 0%nat, 0, y'| |].
  - exfalso. apply Hl. pose proof I as [_ _ I3 _ _ I6 _ _ _ _ _ _]. cbn in I3, I6. unfold left_all, todo. cbn [left_main].
    assert (forall k, k ∈ (fun k => 6 - k)%nat <$> ks -> k = 0%nat) as Hz.
    { intros k (x & -> & Hx)%list_elem_of_fmap. apply list_elem_of_lookup in Hx as [i Hi]. pose proof (lookup_lt_Some _ _ _ Hi). rewrite (I6 i) in Hi by lia. by injection Hi as <-. }
    revert Hz. generalize ((fun k => 6 - k)%nat <$> ks). induction l as [|x l IH]; intros Hz; [done|]. cbn. rewrite (Hz x) by (by left). apply IH. intros k Hk. apply Hz. by right.
  - destruct (thread_step y ph ks i s 0 I Hi Hs) as (d' & E & _). by exists (S i), 0, (goto (S i) (stage i (S s)) (with_data d' y)).
Qed.

Lemma reached_replicate {A} k : (k <= 6)%nat -> forall l (f : nat -> A), reached k f (replicate (length l) 6%nat) = imap (fun i (_ : Z * cmd) => f i) l.
Proof.
  intros Hk. induction l as [|x l IH]; intros f; [done|]. specialize (IH (f ∘ S)). unfold reached in *. cbn [length replicate imap mjoin list_join] in *.
  destruct (Nat.leb_spec k 6); [|lia]. cbn [app]. f_equal. exact IH.
Qed.

(** Nothing is to come: everything is done. *)
Lemma inv_over y ph ks : inv y ph ks -> left_all ph ks = 0%nat -> ph = Over /\ ks = replicate n 6%nat.
Proof.
  intros [_ _ I3 I4 _ I6 _ _ _ _ _ _] Hl. unfold left_all in Hl. assert (ph = Over) as -> by (destruct ph; cbn in *; done || lia). split; [done|].
  cbn in I3, I6. apply list_eq. intros i. destruct (decide (i < n)%nat) as [Hi|Hi].
  - rewrite I6 by done. symmetry. by apply lookup_replicate_2.
  - rewrite !(proj2 (lookup_ge_None _ _)); [done|rewrite length_replicate; lia|lia].
Qed.
End Deliver.

(** What thread [i] gets for request [q] *)
Definition answer (peers : nat -> peer) (i : nat) (q : cmd) : list Z :=
  match peers i with Answers reply => take (Z.to_nat (buff_sz - 1)) (reply (request_text q)) | _ => [] end.

(** C40: the client, given a count and that many lines of a delay of one digit and a command whose
    value is one word, and a network that answers.  Whatever the schedule, it does not fail, some thread can always move until
    13 actions per line and 4 more are done, and then everything is over: each
    request has been sent once, by its own thread, and its answer printed with the number of its
    line.  What is sent for a command is a text that the server reads as that command. *)
Theorem client_delivers (peers : nat -> peer) (input : list Z) (ls : list (Z * cmd)) (schedule : list (nat * Z)) (y : system client label nat)
  (Hin : cin_int input = (Z.of_nat (length ls), lines_text ls)) (Hok : Forall (fun l => 0 <= l.1 < 10 /\ cmd_ok l.2 = true) ls)
  (Hpeers : forall i l, ls !! i = Some l -> exists reply, peers i = Answers reply /\ reply (request_text l.2) <> [])
  (Hrun : run (code peers) schedule (started (client_start input) LMain) = Some y) :
  let total := (13 * length ls + 4)%nat in
  sy_crash y = None /\ (length schedule <= total)%nat /\
  (length schedule <> total -> exists t c y', astep (code peers) t c y = Some y') /\
  (length schedule = total ->
    Forall (fun p => p = Done) (sy_threads y) /\
    cl_sent (sy_data y) ≡ₚ imap (fun i l => (i, request_text l.2)) ls /\
    cl_out (sy_data y) ≡ₚ imap (fun i l => (Z.of_nat i, until_nul (answer peers i l.2))) ls) /\
  Forall (fun l => parse (request_text l.2) = Some l.2) ls.
Proof.
  assert (forall i l, ls !! i = Some l -> request ls i = request_text l.2) as Hreq by (intros i l Hl; unfold request; by rewrite Hl).
  assert (forall i, (i < length ls)%nat -> exists reply, peers i = Answers reply /\ reply (request ls i) <> []) as Hp.
  { intros i Hi. destruct (lookup_lt_is_Some_2 ls i Hi) as [l Hl]. rewrite (Hreq i l Hl). by apply (Hpeers i). }
  assert (inv peers input ls (started (client_start input) LMain) Start []) as I0.
  { split; cbn; try done; try (intros; lia); by left. }
  destruct (client_run peers input ls Hin Hok Hp schedule _ _ _ _ I0 Hrun) as (ph & ks & I & Hl). unfold left_all at 1 in Hl. cbn [left_main] in Hl. change (todo []) with 0%nat in Hl.
  cbv zeta. split_and!; [apply I|lia| | |].
  - intros Hne. apply (inv_moves peers input ls Hin Hok Hp y ph ks I). lia.
  - intros E. destruct (inv_over peers input ls y ph ks I ltac:(lia)) as [-> ->]. destruct I as [_ I2 _ _ _ _ _ _ _ _ I11 I12]. split_and!.
    + rewrite I2. constructor; [done|]. apply Forall_lookup. intros i p. rewrite list_lookup_imap. destruct (replicate _ _ !! i) as [s|] eqn:Hs; [|done].
      apply lookup_replicate_1 in Hs as [-> _]. cbn. by intros [= <-].
    + rewrite I11, reached_replicate by lia. match goal with |- ?a ≡ₚ ?b => assert (a = b) as -> end; [|done]. apply imap_ext. intros i l Hi. by rewrite (Hreq i l Hi).
    + rewrite I12, reached_replicate by lia. match goal with |- ?a ≡ₚ ?b => assert (a = b) as -> end; [|done]. apply imap_ext. intros i l Hi. unfold received, answer. by rewrite (Hreq i l Hi).
  - eapply Forall_impl; [exact Hok|]. intros l [_ H]. by apply request_parses.
Qed.

(** ** A run of two lines *)

Definition echo_peer (i : nat) : peer := Answers (fun q => cstr "> " ++ q).
Definition wit_lines : list (Z * cmd) := [(3, CInsert 7 (cstr "abc")); (0, CFetch 7)].
Definition wit_input : list Z := [50] ++ lines_text wit_lines.
(** main() to its first join, the threads one after the other, and main() again *)
Definition wit_schedule : list (nat * Z) :=
  replicate 13 (0%nat, 0) ++ replicate 6 (2%nat, 0) ++ replicate 6 (1%nat, 0) ++ replicate 5 (0%nat, 0).

Definition wit_start : system client label nat := started (client_start wit_input) LMain.
Definition wit_end : system client label nat := default wit_start (run (code echo_peer) wit_schedule wit_start).

Lemma wit_runs : run (code echo_peer) wit_schedule wit_start = Some wit_end.
Proof.
  assert ((if run (code echo_peer) wit_schedule wit_start then true else false) = true) as H by (by vm_compute).
  unfold wit_end. by destruct (run _ _ _).
Defined.

Lemma wit_peers i l : wit_lines !! i = Some l -> exists reply, echo_peer i = Answers reply /\ reply (request_text l.2) <> [].
Proof. intros _. by eexists. Defined.

Lemma client_delivers_witness : cl_sent (sy_data wit_end) ≡ₚ [(0%nat, cstr "insert 7 abc"); (1%nat, cstr "fetch 7")].
Proof.
  exact (proj1 (proj2 (proj1 (proj2 (proj2 (proj2 (client_delivers echo_peer wit_input wit_lines wit_schedule wit_end
    ltac:(by vm_compute) ltac:(by repeat constructor) wit_peers wit_runs)))) eq_refl))).
Defined.

(** A delay of two digits: only the first one counts, and the request starts with a space. *)
Example delay_one_digit s : get_pair (cstr "12 fetch 1") s = Ret (cstr " fetch 1", 1) s.
Proof. done. Qed.
